(* ===== verification/_CoqProject ===== *)
-Q . S2P
Prelude.v
GoStrings.v
GoPath.v
GoJson.v
OutputQueue.v
StreamParser.v
Totp.v
DevicesConfig.v
DeviceManager.v
DeviceManagerProofs.v
WdaJob.v
IosFrames.v
Workspace.v
Session.v
SessionProofs.v
Terminal.v
TerminalProofs.v
ProtoText.v
NodeClient.v
NodeClientProofs.v
GitWorkspace.v
Archive.v
BuildRunner.v
BuildRunnerProofs.v
Sha256.v
FileUpload.v
FileUploadProofs.v
ToolRun.v
ToolRunProofs.v
LocalState.v
XcodeJob.v
XcodeJobProofs.v
EditorConfig.v
EditorConfigProofs.v
Resources.v
ResourcesProofs.v
SystemEnv.v
SystemEnvProofs.v
ResourceArchive.v
ResourceArchiveProofs.v
FileService.v
FileServiceProofs.v
Provision.v
ProvisionProofs.v
Upgrade.v
UpgradeProofs.v
HostTool.v
HostToolProofs.v
Tunnel.v
TunnelProofs.v
Lan.v
LanProofs.v
HostInfo.v
HostInfoProofs.v
HostCommands.v
HostCommandsProofs.v
Launch.v
LaunchProofs.v
Dispatch.v
DispatchProofs.v
WdaPipeline.v
WdaPipelineProofs.v
Executors.v
ExecutorsProofs.v
Logs.v
LogsProofs.v
HostService.v
HostServiceProofs.v
ConfigFile.v
ConfigFileProofs.v
NodeStart.v
NodeStartProofs.v
IosStart.v
IosStartProofs.v
Discovery.v
