(* ===== verification/Prelude.v ===== *)
(** * Verification of the node agent

    The repository is the agent that runs on a user's machine and carries out
    what a gateway asks over one bidirectional stream.  An execution node
    (execution/) runs coding sessions: it prepares a workspace, configures an
    editor, spawns a provider runtime, relays the user's messages to its stdin
    and its output upstream.  A management node (management/) launches
    execution nodes.  An iOS host (common/ioshost/) claims attached phones,
    keeps a control loop per phone and provisions the WebDriverAgent runner on
    them.  All share the client, the host tools and the build runner of common/.

    ** Files, and the code they model

    A file [X] has the definitions of a component and, where they are long, a
    file [XProofs] has its theorems.

    Shared: [Prelude] (record update, fallible results, runs of a step
    relation with their invariant principles, iteration of a Go map in an
    arbitrary order, [MapRange]); [GoStrings], [GoPath], [GoJson], [Sha256]
    (what the program uses of Go's strings, unicode/utf8, path/filepath,
    encoding/json and crypto/sha256, on byte strings); [ProtoText]
    (common/agent/prototext.go, and protobuf messages as data).

    Sessions (execution/):
    - [Session] (session.go, stream_executor.go, executor.go): one session with
      its runs, stream executors, input queue and drainer; [sstep] has one label
      per critical section of session.mu.
    - [Executors] (executor.go, stream_executor.go, docker_executor.go): starting
      a process or container, the start frame, waiting and cleaning up.
    - [OutputQueue] (queue.go), [StreamParser] (stream_parser.go): from the pipes
      of a process to the stream.
    - [Workspace] (session.go, worktree.go, environments.go): directories and
      HOME tiers.  [Provision]: cloning, worktrees, initial configuration.
    - [EditorConfig], [Resources] (editorconfig.go): configuration files, skills
      and plugins.  [SystemEnv], [ResourceArchive] (systemenv.go): the operator's
      HOME.  [FileService] (fileservice.go), [Tunnel] (tunnel.go).
    - [Dispatch] (handler.go, management/handler.go, common/ioshost/handler.go):
      the frame handlers of the three kinds of node.

    Management: [Launch] (management/launch.go).

    The host (common/agent/): [NodeClient] (client.go and its helpers: dialling,
    registration, heartbeats, reconnects), [Terminal], [ToolRun], [FileUpload],
    [HostCommands] (host_exec.go, execution/editormgmt.go), [HostInfo]
    (editorinfo.go), [HostTool], [Upgrade] (runtimeupgrade.go, selfupgrade.go),
    [XcodeJob], [LocalState] (credentials and the host-wide lock), [ConfigFile]
    (localconfig.go, configio.go: the stored configuration and the atomic
    write), [Logs], [HostService] (autostart and the service menu).

    Programs: [NodeStart] (execution/main.go, management/main.go, options.go: the
    command line and the start of a node), [IosStart] (ios/: install, pair, run).

    Builds: [Archive], [BuildRunner] (common/build/), [GitWorkspace]
    (common/workspaces/).

    Phones (common/ioshost/): [DevicesConfig] (config.go), [DeviceManager],
    [Discovery] (manager.go), [WdaJob] (wdajob.go), [WdaPipeline] (wdapipeline.go),
    [IosFrames] (frames.go), [Lan] (lan.go, tunnel.go).

    Authentication: [Totp] (common/auth/totp/totp.go).

    ** How code becomes definitions

    A function that only computes is a Rocq function of the same name.  Code
    under a mutex is a function from state to state, one per critical section;
    goroutines interleave, so theorems about them quantify over every label
    sequence ([trace_run]).  A Go error is its text in [result], or with its
    chain in [go_error] where errors.Is is used.  A goroutine waiting on a
    condition or channel is a label that is not enabled.  What the code asks of
    the host (files, processes, network, clock, docker, go-ios) is an argument:
    an outcome carried by the label, a function of the number of calls made
    before, or a record of answers such as [Provision], [Upgrade] and
    [WdaPipeline] take.  A failing file operation says what it leaves behind.
    Integers are Z with their wrap-around written out where they are fixed-width
    (sequence numbers, offsets, TOTP counters, capped sizes).

    Components meet at interfaces.  [Dispatch.AckingHandler] is what the frame
    handlers rely on of builds, Xcode jobs and iOS frames, each of which has an
    instance; [WdaJob.WdaSteps] is what a job relies on of its pipeline, which
    [WdaPipeline.NewGoiosWdaSteps] implements; [ExecutorsProofs.Releasing] is
    what a run relies on of an executor; [HostServiceProofs.LawfulSeam] is what
    autostart relies on of a platform; [MapRange] is ranging over a map.

    Facts assumed of code outside, each a hypothesis of the theorem that uses it
    and satisfied by its witness: a ticker ticks no earlier than its interval, a
    sleep lasts at least its time and clocks do not run backwards; docker gives
    a new container a new id, removes one it is asked to, and refuses a name in
    use; a zone is at most fourteen hours from UTC; a
    temporary file is a new one (O_EXCL); a float64 that strconv printed is
    read back as itself; the container a poll watches stops at some poll.

    ** What is proved

    - Messages: never lost or reordered on their way to a runtime
      ([session_input_fifo]), and none written twice where only human messages
      carry an id ([session_message_once]); the live runs of a session are at
      most one more than the starts that overlapped another, which come from a
      reconnect or an automatic start ([session_one_live_run]).  Runs release what they start ([run_releases])
      and a container runs exactly the intended command
      ([docker_command_exact]).
    - Output: the stream receives exactly what was appended, in order
      ([queue_fifo_exactly_once]), and an open queue that was drained has sent
      everything ([queue_drain_complete]); stdout of lines that fit the scanner
      reaches the queue unchanged ([stdout_raw_stream]).
    - Commands: every command is acknowledged exactly once, on each kind of node
      ([dispatch_acks], [role_acks], [ios_frame_acked_once]), the goroutines of
      the iOS handler included; registration is the first frame of a stream
      ([client_register_first]), with a code the server accepts
      ([register_code_accepted]); a build is in the table until it has reported
      ([build_table_exact]).
    - Places and files: sessions stay in the work root
      ([session_dirs_inside_root]), provisioning spares checkouts
      ([provision_keeps_checkouts], [provision_outcome]), the file service keeps
      to its directory as far as no symbolic link leads out
      ([file_service_confined], [file_put_get]); archives unpack to
      what was packed ([archive_unpacks]) and inside their destination
      ([resource_extract_inside]); the operator's own resources that os.Stat sees
      survive a sync ([system_sync_preserves_operator]); uploads deliver their bytes
      ([upload_delivers]); configuration files refine their specification
      ([opencode_config_refines], [mcp_config_exact]).
    - Replacement: upgrades and tool installations leave the old or the new
      version ([runtime_upgrade_atomic], [self_upgrade_atomic],
      [node_install_atomic]), a stored configuration is the old or the new one
      ([atomic_write]).
    - Starting: one node per host, and what a start changes it changes under the
      host lock ([acquire_lock_outcome], [start_outcome]); what was installed is
      what starts again ([install_restarts]); a launched node is the one asked
      for ([launched_child]); an iOS host runs what was installed and paired
      ([install_then_run], [pair_keeps]).
    - Host: terminals replay completely ([terminal_reattach_complete]) from a
      buffer that is the longest tail that fits ([terminal_buffer_refines]), tool runs
      stream in order ([tool_run_stream]), commands are bounded
      ([host_exec_result]), tunnels relay responses ([tunnel_relays]), a day's
      log is complete ([log_day_complete]).
    - Launches: the table accounts for every container but those that a failed
      docker command or a launch under an id in use lost ([launch_accounting]).
    - Authentication: no code is accepted twice ([totp_no_replay]).
    - Phones: one pairing at a time ([claim_pairings_exclusive]), READY only with
      a link ([wda_ready_only_with_link]), a host that keeps seeing them
      ([discovery_never_blind]), configuration applied once per
      revision ([configure_applies_once]); jobs end with one result
      ([job_sends_one_result], [active_transitions_alternate]), success means
      installed and launched ([job_ok_means_installed_and_launched]), an
      installed artifact has the demanded digest ([fetch_verified]); the tunnel
      registry is exact ([lan_registry_exact]).
    - Defects: statements that exhibit a behaviour the code does not intend, each
      proved of the same definitions, in modules named [...Witness] or
      [...Defects].

    ** Fuel and bounds

    [WdaJob.wait_fuel] is derived from the wait timeout and poll interval and
    [job_sends_one_result] states that the job returns.  [LocalState.retry_fuel]
    (101) covers the retries of the lock within its deadline, and
    [HostService.release_fuel] (36) the polls of ten seconds; both are proved to
    be enough.  [GoJson] parses with the length of the text as fuel, and
    [parse_fuel] shows that more changes nothing.  [Archive.walk_fuel] (4096,
    the length of a path the kernel takes) bounds the walk along symbolic links;
    running out is the refusal of a path with too many of them.
    [Executors.poll_exec] polls a container; [poll_exec_ends] gives the fuel from
    the poll at which it stops.  [StreamParser.maxTokenSize] is the 8 MiB of the
    code and is never evaluated on a string of that size.

    ** What is not modelled

    The assembly of the parts in the programs after their command line is read
    and the constructors that wire callbacks, the connection loop of a phone
    (devicecontrol, another module), the reading of durations and integers by
    package flag (arguments of [NodeStart]), the JSON of devices.json (an argument
    of [IosStart]), the enumeration of phones (enumerator.go), generated protocol
    code, the JavaScript runtime and go-ios (third party).  net/url's parsing is
    what the host answers ([Provision]) or left out ([GitWorkspace]), and so is
    common/build/upload.go, which depends on it.  Paths are Unix
    paths.  In [Upgrade] writes are not followed through symbolic links, texts of
    progress events are left out; in [Tunnel] bodies are finite; in [Lan] a
    tunnel is registered under the phone it was opened for; in [FileUpload]
    different paths are different files, and in [FileService] what lies behind
    a symbolic link is the host's answer. *)
From stdpp Require Export base gmap strings list fin_maps sorting.
From Stdlib Require Export ZArith Lia.
From Corelib Require Export ssreflect.

#[export] Set Default Goal Selector "!".
#[export] Set SsrOldRewriteGoalsOrder.

(** ** Record update

    [r <| f := v |>] is the Go assignment [r.f = v] on an immutable record.
    A record type declares its eta-expansion once ([Settable]); the setter of
    a field is then found by abstracting that field out of the expansion. *)
Class Settable (R : Type) := eta_record : R → R.
Class Setter {R T : Type} (p : R → T) := set_field : (T → T) → R → R.
#[global] Arguments set_field {R T} p {Setter} f r.
#[global] Hint Mode Setter - - ! : typeclass_instances.

Ltac find_setter :=
  match goal with
  | |- @Setter ?R ?T ?p =>
      let e := eval hnf in (@eta_record R _) in
      let e' := eval pattern p in e in
      match e' with
      | ?F _ =>
          let g := eval cbv beta in (fun (f : T → T) => F (fun r : R => f (p r))) in
          exact g
      end
  end.
#[global] Hint Extern 1 (Setter _) => find_setter : typeclass_instances.

Declare Scope go_scope.
Delimit Scope go_scope with go.
Notation "r <| f := v |>" := (set_field f (fun _ => v) r)
  (at level 12, left associativity, format "r  <|  f  :=  v  |>") : go_scope.
Open Scope go_scope.

(** ** Fallible operations: a Go [(T, error)] result

    The error is its text, which is what the callers of the modelled code
    look at. *)
Inductive result (A : Type) : Type :=
| Ok (a : A)
| Err (msg : string).
Arguments Ok {A} a.
Arguments Err {A} msg.

Definition is_ok {A} (r : result A) : bool :=
  match r with Ok _ => true | Err _ => false end.

(** ** Runs of a step function and of a step relation *)
Section runs.
Context {S L : Type}.
Variable step : S → L → S → Prop.

(** [trace_run s ls s']: the labels [ls] lead from [s] to [s']. *)
Inductive trace_run : S → list L → S → Prop :=
| run_nil s : trace_run s [] s
| run_cons s l s' ls s'' :
    step s l s' → trace_run s' ls s'' → trace_run s (l :: ls) s''.

Lemma trace_run_app s ls1 s' ls2 s'' :
  trace_run s ls1 s' → trace_run s' ls2 s'' → trace_run s (ls1 ++ ls2) s''.
Proof. induction 1; simpl; eauto using trace_run. Qed.

Lemma trace_run_invariant (I : S → Prop) :
  (∀ s l s', I s → step s l s' → I s') →
  ∀ s ls s', I s → trace_run s ls s' → I s'.
Proof. intros Hstep s ls s' Hs Hr. induction Hr; eauto. Qed.

Lemma trace_run_invariant_labels (P : L → Prop) (I : S → Prop) :
  (∀ s l s', P l → I s → step s l s' → I s') →
  ∀ s ls s', Forall P ls → I s → trace_run s ls s' → I s'.
Proof. intros Hstep s ls s' HP Hs Hr. induction Hr; inversion HP; eauto. Qed.

Lemma trace_run_snoc s ls l s' s'' :
  trace_run s ls s' → step s' l s'' → trace_run s (ls ++ [l]) s''.
Proof. intros ??. eapply trace_run_app; eauto using trace_run. Qed.

(** An invariant that also speaks of the labels taken so far. *)
Lemma trace_run_history (I : list L → S → Prop) :
  (∀ pre s l s', I pre s → step s l s' → I (pre ++ [l]) s') →
  ∀ pre s ls s', I pre s → trace_run s ls s' → I (pre ++ ls) s'.
Proof.
  intros Hstep pre s ls s' Hs Hr. revert pre Hs.
  induction Hr as [s|s l s1 ls s2 Hl _ IH]; intros pre Hs; [by rw app_nil_r|].
  rw cons_middle app_assoc. apply IH. eauto.
Qed.
End runs.

(** A step function as a step relation, and its executable runs. *)
Definition fun_step {S L : Type} (f : S → L → option S) (s : S) (l : L) (s' : S) : Prop :=
  f s l = Some s'.
Fixpoint exec {S L : Type} (f : S → L → option S) (s : S) (ls : list L) : option S :=
  match ls with
  | [] => Some s
  | l :: ls => s' ← f s l; exec f s' ls
  end.
Lemma exec_run {S L : Type} (f : S → L → option S) s ls s' :
  exec f s ls = Some s' ↔ trace_run (fun_step f) s ls s'.
Proof.
  split.
  - revert s. induction ls as [|l ls IH]; simpl; intros s H; [simplify_eq; constructor|].
    destruct (f s l) as [s1|] eqn:E; [|done]. econstructor; [exact E|by apply IH].
  - induction 1 as [|s l s1 ls s2 Hs _ IH]; simpl; [done|]. by rw Hs.
Qed.

(** ** Fixed-width arithmetic *)
Definition uint64_add (a b : Z) : Z := ((a + b) mod 2 ^ 64)%Z.
Definition uint16_of (a : Z) : Z := (a mod 2 ^ 16)%Z.
Definition int32_of (a : Z) : Z := ((a + 2 ^ 31) mod 2 ^ 32 - 2 ^ 31)%Z.
Definition int64_of (a : Z) : Z := ((a + 2 ^ 63) mod 2 ^ 64 - 2 ^ 63)%Z.
Lemma uint64_add_small a b : (0 ≤ a + b < 2 ^ 64)%Z → uint64_add a b = (a + b)%Z.
Proof. apply Z.mod_small. Qed.

(** ** Iterating a Go map

    [for k, v := range m] visits the entries in an unspecified order.  Code
    that iterates a map is modelled over a [range] whose only property is
    that it lists exactly the entries of the map; theorems hold for every
    such order. *)
Class MapRange (V : Type) := {
  map_range : gmap string V → list (string * V);
  map_range_perm m : map_range m ≡ₚ map_to_list m
}.

#[export] Program Instance sorted_range V : MapRange V := {|
  map_range := map_to_list
|}.
Next Obligation. done. Qed.

Lemma elem_of_map_range {V} `{MapRange V} (m : gmap string V) k v :
  (k, v) ∈ map_range m ↔ m !! k = Some v.
Proof. rw map_range_perm. apply elem_of_map_to_list. Qed.

(** ** Generic lemmas *)

Lemma bool_decide_eqb_string (a b : string) :
  bool_decide (a = b) = String.eqb a b.
Proof.
  destruct (String.eqb_spec a b); [by apply bool_decide_eq_true | by apply bool_decide_eq_false].
Qed.

Lemma append_cons c (s t : string) : String c s +:+ t = String c (s +:+ t).
Proof. done. Qed.
Lemma append_nil (t : string) : "" +:+ t = t.
Proof. done. Qed.
Lemma string_app_nil_r (s : string) : (s +:+ "") = s.
Proof. induction s as [|c s IH]; [done | exact (f_equal (String c) IH)]. Qed.

Lemma string_app_assoc (a b c : string) : (a +:+ (b +:+ c)) = ((a +:+ b) +:+ c).
Proof. induction a as [|x a IH]; [done | exact (f_equal (String x) IH)]. Qed.

Lemma string_length_app (a b : string) :
  String.length (a +:+ b) = String.length a + String.length b.
Proof. induction a as [|x a IH]; [done | exact (f_equal S IH)]. Qed.

(** ** Automation *)

(** Split every boolean connective and comparison in the context. *)
Ltac go_bool :=
  repeat match goal with
  | H : negb _ = true |- _ => apply negb_true_iff in H
  | H : negb _ = false |- _ => apply negb_false_iff in H
  | H : (_ && _)%bool = true |- _ => apply andb_true_iff in H as [? ?]
  | H : (_ || _)%bool = false |- _ => apply orb_false_iff in H as [? ?]
  | H : bool_decide _ = true |- _ => apply bool_decide_eq_true in H
  | H : bool_decide _ = false |- _ => apply bool_decide_eq_false in H
  | H : (_ =? _)%string = true |- _ => apply String.eqb_eq in H
  | H : (_ =? _)%string = false |- _ => apply String.eqb_neq in H
  | H : (_ =? _)%Z = true |- _ => apply Z.eqb_eq in H
  | H : (_ =? _)%Z = false |- _ => apply Z.eqb_neq in H
  | H : (_ <=? _)%Z = true |- _ => apply Z.leb_le in H
  | H : (_ <=? _)%Z = false |- _ => apply Z.leb_gt in H
  | H : (_ <? _)%Z = true |- _ => apply Z.ltb_lt in H
  | H : (_ <? _)%Z = false |- _ => apply Z.ltb_ge in H
  end.

(** Case on the innermost test of the goal, remembering the outcome. *)
Ltac go_case :=
  match goal with
  | |- context [match ?x with _ => _ end] =>
      lazymatch x with context [match _ with _ => _ end] => fail | _ => idtac end;
      let E := fresh "E" in destruct x eqn:E
  end.
Ltac go_cases := repeat (go_case; simpl in *; simplify_eq).

(** The same on a hypothesis. *)
Ltac go_case_in H :=
  match type of H with
  | context [match ?x with _ => _ end] =>
      lazymatch x with context [match _ with _ => _ end] => fail | _ => idtac end;
      let E := fresh "E" in destruct x eqn:E
  end.
