(* ===== verification/GoStrings.v ===== *)
(** * GoStrings: the parts of Go's [strings], [unicode/utf8] and [fmt] in use

    A Go string is a byte sequence, here [string] (8-bit [ascii] characters).
    [TrimSpace] follows Go in trimming the Unicode white space of
    [unicode.IsSpace], recognised by its UTF-8 encoding; [runes] is the decoding
    loop of [for _, r := range s], where an invalid byte is one rune of width 1. *)
From S2P Require Import Prelude.
From Stdlib Require Import Ascii.
From stdpp Require Export pretty.

Definition code (c : ascii) : N := N_of_ascii c.
Definition in_range (lo hi : N) (c : ascii) : bool := (lo <=? code c)%N && (code c <=? hi)%N.
Definition is_code (n : N) (c : ascii) : bool := (code c =? n)%N.

(** len(s) *)
Definition blen (s : string) : Z := Z.of_nat (String.length s).
Lemma blen_nonneg s : (0 ≤ blen s)%Z.
Proof. unfold blen. lia. Qed.
Lemma blen_app a b : (blen (a +:+ b) = blen a + blen b)%Z.
Proof. unfold blen. rw string_length_app. lia. Qed.

(** ** unicode.IsSpace on encoded runes of one, two and three bytes *)
Definition space1 (a : ascii) : bool := in_range 9 13 a || is_code 32 a.
Definition space2 (a b : ascii) : bool := is_code 0xC2 a && (is_code 0x85 b || is_code 0xA0 b).
Definition space3 (a b c : ascii) : bool :=
  (is_code 0xE1 a && is_code 0x9A b && is_code 0x80 c)
  || (is_code 0xE2 a && is_code 0x80 b
      && (in_range 0x80 0x8A c || is_code 0xA8 c || is_code 0xA9 c || is_code 0xAF c))
  || (is_code 0xE2 a && is_code 0x81 b && is_code 0x9F c)
  || (is_code 0xE3 a && is_code 0x80 b && is_code 0x80 c).

Section trim.
Variable sp2 : ascii → ascii → bool.
Variable sp3 : ascii → ascii → ascii → bool.

Definition starts_space (s : string) : bool :=
  match s with
  | EmptyString => false
  | String a EmptyString => space1 a
  | String a (String b EmptyString) => space1 a || sp2 a b
  | String a (String b (String c _)) => space1 a || sp2 a b || sp3 a b c
  end.

Fixpoint trim_leading (s : string) : string :=
  match s with
  | EmptyString => EmptyString
  | String a s1 =>
      if space1 a then trim_leading s1 else
      match s1 with
      | EmptyString => s
      | String b s2 =>
          if sp2 a b then trim_leading s2 else
          match s2 with
          | EmptyString => s
          | String c s3 => if sp3 a b c then trim_leading s3 else s
          end
      end
  end.

Lemma trim_leading_fixed s : starts_space s = false → trim_leading s = s.
Proof. destruct s as [|a [|b [|c s]]]; simpl; intros; go_bool; repeat case_match; congruence. Qed.

Lemma trim_leading_starts n s : String.length s ≤ n → starts_space (trim_leading s) = false.
Proof.
  revert s. induction n as [|n IH]; intros s Hn; destruct s as [|a [|b [|c s]]];
    simpl in *; try done; try lia;
    repeat (case_match; simplify_eq; simpl in *);
    repeat match goal with H : _ = false |- _ => rw H end; try done;
    try (apply IH; simpl; lia); done.
Qed.

Lemma trim_leading_suffix n s : String.length s ≤ n → ∃ p, s = p +:+ trim_leading s.
Proof.
  revert s. induction n as [|n IH]; intros s Hn; destruct s as [|a s1];
    try (simpl in *; lia); try (by exists "").
  simpl in Hn. cbn [trim_leading].
  destruct (space1 a).
  { destruct (IH s1) as [p Hp]; [lia|]. exists (String a p). by rw {1}Hp. }
  destruct s1 as [|b s2]; [by exists ""|]. simpl in Hn.
  destruct (sp2 a b).
  { destruct (IH s2) as [p Hp]; [lia|]. exists (String a (String b p)). by rw {1}Hp. }
  destruct s2 as [|c s3]; [by exists ""|]. simpl in Hn.
  destruct (sp3 a b c); [|by exists ""].
  destruct (IH s3) as [p Hp]; [lia|].
  exists (String a (String b (String c p))). by rw {1}Hp.
Qed.

Lemma starts_space_app s t : starts_space s = true → starts_space (s +:+ t) = true.
Proof.
  destruct s as [|a [|b [|c s]]]; [done|..]; unfold String.app; simpl; intros H.
  - destruct t as [|x [|y t]]; simpl; by rw H.
  - destruct t as [|x t]; simpl; by rw H.
  - by rw H.
Qed.
End trim.

Fixpoint string_rev_app (s acc : string) : string :=
  match s with
  | EmptyString => acc
  | String c s => string_rev_app s (String c acc)
  end.
Definition string_reverse (s : string) : string := string_rev_app s "".

Lemma string_rev_app_spec s acc : string_rev_app s acc = string_reverse s +:+ acc.
Proof.
  unfold string_reverse. revert acc.
  induction s as [|c s IH]; intros acc; [done|]. simpl.
  rw IH. rw (IH (String c "")). by rw -string_app_assoc.
Qed.
Lemma string_reverse_app a b : string_reverse (a +:+ b) = string_reverse b +:+ string_reverse a.
Proof.
  induction a as [|c a IH]; [by rw string_app_nil_r|].
  change (string_rev_app (a +:+ b) (String c "") = string_reverse b +:+ string_rev_app a (String c "")).
  rw !string_rev_app_spec IH. by rw string_app_assoc.
Qed.
Lemma string_reverse_involutive s : string_reverse (string_reverse s) = s.
Proof.
  induction s as [|c s IH]; [done|].
  change (string_reverse (string_rev_app s (String c "")) = String c s).
  rw string_rev_app_spec string_reverse_app IH. done.
Qed.
Lemma string_length_reverse s : String.length (string_reverse s) = String.length s.
Proof.
  induction s as [|c s IH]; [done|].
  change (String.length (string_rev_app s (String c "")) = S (String.length s)).
  rw string_rev_app_spec string_length_app IH /=. lia.
Qed.

(** Trailing spaces are the leading ones of the reversed string, with the bytes
    of a multi-byte space met in the opposite order. *)
Definition TrimLeftSpace (s : string) : string := trim_leading space2 space3 s.
Definition TrimRightSpace (s : string) : string :=
  string_reverse (trim_leading (λ a b, space2 b a) (λ a b c, space3 c b a) (string_reverse s)).
(** strings.TrimSpace *)
Definition TrimSpace (s : string) : string := TrimRightSpace (TrimLeftSpace s).

Lemma TrimRightSpace_prefix s : ∃ q, s = TrimRightSpace s +:+ q.
Proof.
  unfold TrimRightSpace.
  destruct (trim_leading_suffix (λ a b, space2 b a) (λ a b c, space3 c b a) _ (string_reverse s) (le_n _))
    as [p Hp].
  exists (string_reverse p).
  rw -string_reverse_app -Hp. by rw string_reverse_involutive.
Qed.

Lemma TrimRightSpace_idem s : TrimRightSpace (TrimRightSpace s) = TrimRightSpace s.
Proof.
  unfold TrimRightSpace. rw string_reverse_involutive.
  rw (trim_leading_fixed _ _ (trim_leading _ _ _)); [done|].
  by eapply trim_leading_starts.
Qed.

Lemma TrimSpace_idem s : TrimSpace (TrimSpace s) = TrimSpace s.
Proof.
  unfold TrimSpace.
  assert (starts_space space2 space3 (TrimRightSpace (TrimLeftSpace s)) = false) as Hs.
  { destruct (starts_space space2 space3 (TrimRightSpace (TrimLeftSpace s))) eqn:E; [|done].
    destruct (TrimRightSpace_prefix (TrimLeftSpace s)) as [q Hq].
    apply (starts_space_app _ _ _ q) in E. rw -Hq in E.
    rw /TrimLeftSpace in E. by erewrite trim_leading_starts in E. }
  rw {1}/TrimLeftSpace trim_leading_fixed; [|done]. apply TrimRightSpace_idem.
Qed.

(** ** Searching *)
(** strings.HasPrefix *)
Fixpoint HasPrefix (s prefix : string) : bool :=
  match prefix, s with
  | EmptyString, _ => true
  | String p prefix', String c s' => Ascii.eqb p c && HasPrefix s' prefix'
  | String _ _, EmptyString => false
  end.
Fixpoint drop_bytes (n : nat) (s : string) : string :=
  match n, s with
  | S n, String _ s => drop_bytes n s
  | _, _ => s
  end.
Fixpoint take_bytes (n : nat) (s : string) : string :=
  match n, s with
  | S n, String c s => String c (take_bytes n s)
  | _, _ => ""
  end.
(** strings.TrimPrefix *)
Definition TrimPrefix (s prefix : string) : string :=
  if HasPrefix s prefix then drop_bytes (String.length prefix) s else s.
(** strings.HasSuffix, strings.TrimSuffix *)
Definition HasSuffix (s suffix : string) : bool := HasPrefix (string_reverse s) (string_reverse suffix).
Definition TrimSuffix (s suffix : string) : string :=
  if HasSuffix s suffix then take_bytes (String.length s - String.length suffix) s else s.
(** strings.Index: position of the first occurrence, [None] for Go's -1 *)
Fixpoint Index (s sub : string) : option nat :=
  if HasPrefix s sub then Some 0 else
  match s with
  | EmptyString => None
  | String _ s' => S <$> Index s' sub
  end.
(** strings.Contains *)
Definition Contains (s sub : string) : bool := bool_decide (is_Some (Index s sub)).
(** strings.TrimRight / TrimLeft with a one-character cutset *)
Fixpoint TrimLeftChar (c : ascii) (s : string) : string :=
  match s with
  | String a s' => if Ascii.eqb a c then TrimLeftChar c s' else s
  | EmptyString => EmptyString
  end.
Definition TrimRightChar (c : ascii) (s : string) : string :=
  string_reverse (TrimLeftChar c (string_reverse s)).
(** strings.Trim with a one-character cutset *)
Definition TrimChar (c : ascii) (s : string) : string := TrimRightChar c (TrimLeftChar c s).

(** strings.Split with a one-character separator *)
Fixpoint Split1 (sep : ascii) (s : string) : list string :=
  match s with
  | EmptyString => [""]
  | String c s =>
      if Ascii.eqb c sep then "" :: Split1 sep s
      else match Split1 sep s with w :: ws => String c w :: ws | [] => [String c ""] end
  end.
(** strings.Join *)
Fixpoint concat_sep (sep : string) (l : list string) : string :=
  match l with
  | [] => ""
  | [w] => w
  | w :: l => w +:+ sep +:+ concat_sep sep l
  end.

Lemma HasPrefix_app p s : HasPrefix (p +:+ s) p = true.
Proof.
  induction p as [|c p IH]; [by destruct s|].
  change (Ascii.eqb c c && HasPrefix (p +:+ s) p = true). by rw Ascii.eqb_refl.
Qed.
Lemma HasPrefix_spec s p : HasPrefix s p = true ↔ ∃ t, s = p +:+ t.
Proof.
  split; [|intros [t ->]; apply HasPrefix_app].
  revert s. induction p as [|c p IH]; intros s H; [by exists s|].
  destruct s as [|d s]; [done|]. simpl in H. apply andb_true_iff in H as [H1 H2].
  apply Ascii.eqb_eq in H1 as ->. destruct (IH _ H2) as [t ->]. by exists t.
Qed.
Lemma HasSuffix_spec s suffix : HasSuffix s suffix = true ↔ ∃ t, s = t +:+ suffix.
Proof.
  unfold HasSuffix. rw HasPrefix_spec. split; intros [t Ht].
  - exists (string_reverse t). apply (f_equal string_reverse) in Ht. rw string_reverse_app !string_reverse_involutive in Ht. done.
  - exists (string_reverse t). by rw Ht string_reverse_app.
Qed.
Lemma take_bytes_app a b : take_bytes (String.length a) (a +:+ b) = a.
Proof. induction a as [|c a IH]; [by destruct b|]. change (String c (take_bytes (String.length a) (a +:+ b)) = String c a). by rw IH. Qed.
Lemma drop_bytes_app a b : drop_bytes (String.length a) (a +:+ b) = b.
Proof. induction a as [|c a IH]; [by destruct b|exact IH]. Qed.
Lemma TrimSuffix_app a suffix : TrimSuffix (a +:+ suffix) suffix = a.
Proof.
  unfold TrimSuffix. assert (HasSuffix (a +:+ suffix) suffix = true) as -> by (apply HasSuffix_spec; by exists a).
  rw string_length_app Nat.add_sub. apply take_bytes_app.
Qed.
Lemma length_take_bytes n s : String.length (take_bytes n s) = Nat.min n (String.length s).
Proof. revert s. induction n as [|n IH]; intros [|c s]; cbn; [done..|]. by rw IH. Qed.
Lemma length_drop_bytes n s : String.length (drop_bytes n s) = String.length s - n.
Proof. revert s. induction n as [|n IH]; intros [|c s]; cbn; [done..|]. apply IH. Qed.
Lemma take_drop_bytes n s : take_bytes n s +:+ drop_bytes n s = s.
Proof.
  revert s. induction n as [|n IH]; intros [|c s]; try done.
  exact (f_equal (String c) (IH s)).
Qed.
Lemma Index_None_app a s sub :
  Index (a +:+ s) sub = None → Index s sub = None.
Proof.
  induction a as [|c a IH]; [done|].
  change (Index (String c (a +:+ s)) sub = None → Index s sub = None).
  cbn [Index]. case_match; [done|]. intros Hn%fmap_None. auto.
Qed.

(** ** Case folding

    [ToLower] and [EqualFold] are only ever compared with ASCII literals in the
    modelled code, so they are exact on the runes that fold to ASCII: the
    letters A-Z, U+0130 and U+212A (lower case), U+017F and U+212A (folding).
    Other non-ASCII runes keep their bytes. *)
Definition lower1 (c : ascii) : ascii :=
  if in_range 65 90 c then ascii_of_N (code c + 32) else c.
Fixpoint ToLower (s : string) : string :=
  match s with
  | EmptyString => EmptyString
  | String a s1 =>
      match s1 with
      | String b s2 =>
          if is_code 0xC4 a && is_code 0xB0 b then String "i" (ToLower s2) else
          match s2 with
          | String c s3 =>
              if is_code 0xE2 a && is_code 0x84 b && is_code 0xAA c
              then String "k" (ToLower s3) else String (lower1 a) (ToLower s1)
          | EmptyString => String (lower1 a) (ToLower s1)
          end
      | EmptyString => String (lower1 a) EmptyString
      end
  end.
Fixpoint fold_case (s : string) : string :=
  match s with
  | EmptyString => EmptyString
  | String a s1 =>
      match s1 with
      | String b s2 =>
          if is_code 0xC5 a && is_code 0xBF b then String "s" (fold_case s2) else
          match s2 with
          | String c s3 =>
              if is_code 0xE2 a && is_code 0x84 b && is_code 0xAA c
              then String "k" (fold_case s3) else String (lower1 a) (fold_case s1)
          | EmptyString => String (lower1 a) (fold_case s1)
          end
      | EmptyString => String (lower1 a) EmptyString
      end
  end.
Definition EqualFold (s t : string) : bool := String.eqb (fold_case s) (fold_case t).

(** strings.ToUpper, exact on what becomes ASCII: a-z, U+0131 and U+017F *)
Definition upper1 (c : ascii) : ascii :=
  if in_range 97 122 c then ascii_of_N (code c - 32) else c.
Fixpoint ToUpper (s : string) : string :=
  match s with
  | EmptyString => EmptyString
  | String a s1 =>
      match s1 with
      | String b s2 =>
          if is_code 0xC4 a && is_code 0xB1 b then String "I" (ToUpper s2)
          else if is_code 0xC5 a && is_code 0xBF b then String "S" (ToUpper s2)
          else String (upper1 a) (ToUpper s1)
      | EmptyString => String (upper1 a) EmptyString
      end
  end.

(** ** UTF-8 decoding of a range loop *)
Inductive rune :=
| RAscii (c : ascii)      (** one byte below 0x80 *)
| RMulti (enc : string)   (** a well-formed sequence of two to four bytes *)
| RInvalid (c : ascii).   (** utf8.RuneError, width 1 *)

Definition cont : ascii → bool := in_range 0x80 0xBF.
Definition ok2 (a b : ascii) : bool := in_range 0xC2 0xDF a && cont b.
Definition ok3 (a b c : ascii) : bool :=
  ((is_code 0xE0 a && in_range 0xA0 0xBF b)
   || (is_code 0xED a && in_range 0x80 0x9F b)
   || ((in_range 0xE1 0xEC a || in_range 0xEE 0xEF a) && cont b)) && cont c.
Definition ok4 (a b c d : ascii) : bool :=
  ((is_code 0xF0 a && in_range 0x90 0xBF b)
   || (is_code 0xF4 a && in_range 0x80 0x8F b)
   || (in_range 0xF1 0xF3 a && cont b)) && cont c && cont d.

Fixpoint runes (s : string) : list rune :=
  match s with
  | EmptyString => []
  | String a s1 =>
      if (code a <? 0x80)%N then RAscii a :: runes s1 else
      match s1 with
      | EmptyString => [RInvalid a]
      | String b s2 =>
          if ok2 a b then RMulti (String a (String b "")) :: runes s2 else
          match s2 with
          | EmptyString => RInvalid a :: runes s1
          | String c s3 =>
              if ok3 a b c then RMulti (String a (String b (String c ""))) :: runes s3 else
              match s3 with
              | EmptyString => RInvalid a :: runes s1
              | String d s4 =>
                  if ok4 a b c d
                  then RMulti (String a (String b (String c (String d "")))) :: runes s4
                  else RInvalid a :: runes s1
              end
          end
      end
  end.

Definition is_lower := in_range 97 122.
Definition is_upper := in_range 65 90.
Definition is_digit := in_range 48 57.

(** Every character of the string satisfies [P]. *)
Fixpoint all_chars (P : ascii → bool) (s : string) : bool :=
  match s with
  | EmptyString => true
  | String c s => P c && all_chars P s
  end.
Lemma all_chars_app P a b : all_chars P (a +:+ b) = all_chars P a && all_chars P b.
Proof.
  induction a as [|c a IH]; [done|].
  change (P c && all_chars P (a +:+ b) = (P c && all_chars P a) && all_chars P b).
  by rw IH andb_assoc.
Qed.
Lemma all_chars_rev P s : all_chars P (string_reverse s) = all_chars P s.
Proof.
  induction s as [|c s IH]; [done|].
  change (all_chars P (string_rev_app s (String c "")) = P c && all_chars P s).
  rw string_rev_app_spec all_chars_app IH /=. rw andb_true_r. apply andb_comm.
Qed.

(** ** Printing numbers: fmt's [%d] is stdpp's [pretty] *)
Definition itoa (n : N) : string := pretty n.
Lemma pretty_N_char_digit x : is_digit (pretty_N_char x) = true.
Proof. by unfold pretty_N_char; repeat case_match. Qed.
Lemma pretty_N_go_digits x s :
  all_chars is_digit s = true → all_chars is_digit (pretty_N_go x s) = true.
Proof.
  revert s. induction (N.lt_wf_0 x) as [x _ IH]; intros s Hs.
  destruct (decide (0 < x)%N) as [Hx|Hx].
  - rw pretty_N_go_step; [|done]. apply IH.
    { apply N.div_lt; lia. }
    cbn [all_chars]. by rw pretty_N_char_digit.
  - assert (x = 0%N) as -> by lia. by rw pretty_N_go_0.
Qed.
Lemma itoa_digits n : all_chars is_digit (itoa n) = true.
Proof.
  unfold itoa, pretty, pretty_N. case_decide; [done|]. by apply pretty_N_go_digits.
Qed.
Lemma itoa_inj n m : itoa n = itoa m → n = m.
Proof. apply pretty_N_inj. Qed.

(** A separator that cannot occur in the right-hand part splits a string in
    one way only. *)
Lemma append_sep_inj P a b x y c :
  P c = false → all_chars P x = true → all_chars P y = true →
  a +:+ String c x = b +:+ String c y → a = b ∧ x = y.
Proof.
  intros Hc. revert b. induction a as [|u a IH]; intros [|v b] Hx Hy H.
  - by injection H.
  - injection H as -> ->. rw all_chars_app in Hx. go_bool.
    cbn [all_chars] in *. go_bool. congruence.
  - injection H as -> <-. rw all_chars_app in Hy. go_bool.
    cbn [all_chars] in *. go_bool. congruence.
  - injection H as -> H. destruct (IH _ Hx Hy H) as [-> ->]. done.
Qed.
