(* ===== verification/GoPath.v ===== *)
(** * GoPath: path/filepath on Unix

    [Clean] is the lexical normalisation of Go's [filepath.Clean], written on
    the slash-separated components of the path; [Join], [Dir], [Base] and
    [IsAbs] are defined from it as Go defines them.  The node also builds for
    Windows; that variant of the package is outside the model. *)
From S2P Require Import Prelude GoStrings.
From Stdlib Require Import Ascii.

Definition slash : ascii := "/".

(** strings.Split(s, "/") *)
Fixpoint split_slash (s : string) : list string :=
  match s with
  | EmptyString => [""]
  | String c s' =>
      if Ascii.eqb c slash then "" :: split_slash s'
      else match split_slash s' with
           | [] => [String c ""]
           | w :: ws => String c w :: ws
           end
  end.
(** strings.Join(l, "/") *)
Fixpoint join_slash (l : list string) : string :=
  match l with
  | [] => ""
  | [w] => w
  | w :: ws => w +:+ String slash (join_slash ws)
  end.

Definition IsAbs (p : string) : bool :=
  match p with String c _ => Ascii.eqb c slash | EmptyString => false end.

(** One component against the output so far (innermost first). *)
Definition clean_step (rooted : bool) (out : list string) (w : string) : list string :=
  if String.eqb w "" || String.eqb w "." then out
  else if String.eqb w ".." then
    match out with
    | o :: out' => if String.eqb o ".." then w :: out else out'
    | [] => if rooted then [] else [".."]
    end
  else w :: out.
Definition clean_components (rooted : bool) (ws : list string) : list string :=
  rev (foldl (clean_step rooted) [] ws).
Definition render (rooted : bool) (ws : list string) : string :=
  if rooted then String slash (join_slash ws)
  else match ws with [] => "." | _ => join_slash ws end.

(** filepath.Clean *)
Definition Clean (p : string) : string :=
  if String.eqb p "" then "."
  else render (IsAbs p) (clean_components (IsAbs p) (split_slash p)).

(** filepath.Join: the first non-empty element onwards, joined and cleaned *)
Fixpoint Join (elems : list string) : string :=
  match elems with
  | [] => ""
  | e :: rest => if String.eqb e "" then Join rest else Clean (join_slash elems)
  end.

(** filepath.Dir *)
Definition Dir (p : string) : string :=
  match rev (split_slash p) with
  | [] => "."
  | _ :: up =>
      match rev up with
      | [] => Clean ""
      | ws => Clean (join_slash (ws ++ [""]))
      end
  end.

(** filepath.Base *)
Definition Base (p : string) : string :=
  if String.eqb p "" then "."
  else
    let stripped := TrimRightChar slash p in
    match rev (split_slash stripped) with
    | [] => "/"
    | w :: _ => if String.eqb w "" then "/" else w
    end.

Example clean_examples :
  map Clean [""; "a/b/../c"; "/../a"; "a//b/./"; "../../x/.."; "/"; "a/.."]
  = ["."; "a/c"; "/a"; "a/b"; "../.."; "/"; "."].
Proof. reflexivity. Qed.
Example dir_examples : map Dir ["/x/y/devices.json"; "devices.json"; "/a"; ""; "a/b/"] = ["/x/y"; "."; "/"; "."; "a/b"].
Proof. reflexivity. Qed.
Example base_examples : map Base ["/x/y/devices.json"; "a/"; "/"; ""] = ["devices.json"; "a"; "/"; "."].
Proof. reflexivity. Qed.
Example join_examples : [Join ["/w"; "envs"; "e1"]; Join [""; "a"]; Join []; Join ["a"; "../b"]] = ["/w/envs/e1"; "a"; ""; "b"].
Proof. reflexivity. Qed.

(** ** Components *)
Definition no_slash (w : string) : bool := all_chars (λ c, negb (Ascii.eqb c slash)) w.

Lemma split_slash_nonempty s : split_slash s ≠ [].
Proof. destruct s as [|c s]; simpl; [done|]. repeat case_match; done. Qed.
Lemma split_slash_no_slash s : Forall (λ w, no_slash w = true) (split_slash s).
Proof.
  induction s as [|c s IH]; simpl; [by constructor|].
  destruct (Ascii.eqb c slash) eqn:E; [by constructor|].
  destruct (split_slash s) as [|w ws]; [by repeat constructor; unfold no_slash; simpl; rw E|].
  apply Forall_cons in IH as [Hw Hws]. constructor; [|done].
  unfold no_slash in *. simpl. by rw E.
Qed.
Lemma split_slash_app w s :
  no_slash w = true → split_slash (w +:+ String slash s) = w :: split_slash s.
Proof.
  induction w as [|c w IH]; intros H; [done|].
  unfold no_slash in H. simpl in H. apply andb_true_iff in H as [Hc Hw].
  change (split_slash (String c (w +:+ String slash s)) = String c w :: split_slash s).
  simpl. apply negb_true_iff in Hc. rw Hc. by rw IH.
Qed.
Lemma split_slash_single w : no_slash w = true → split_slash w = [w].
Proof.
  induction w as [|c w IH]; intros H; [done|].
  unfold no_slash in H. simpl in H. apply andb_true_iff in H as [Hc Hw].
  simpl. apply negb_true_iff in Hc. rw Hc. by rw IH.
Qed.
Lemma split_join ws :
  ws ≠ [] → Forall (λ w, no_slash w = true) ws → split_slash (join_slash ws) = ws.
Proof.
  induction ws as [|w ws IH]; [done|]. intros _ [Hw Hws]%Forall_cons.
  destruct ws as [|w' ws]; [by apply split_slash_single|].
  change (split_slash (w +:+ String slash (join_slash (w' :: ws))) = w :: w' :: ws).
  rw split_slash_app // IH //.
Qed.

(** ** Lexical containment *)
(** A component that stays one level below its parent. *)
Definition safe_segment (w : string) : bool :=
  no_slash w && negb (String.eqb w "") && negb (String.eqb w ".") && negb (String.eqb w "..").
Definition comps (p : string) : list string := clean_components (IsAbs p) (split_slash p).
(** [p] is [root] extended by one or more ordinary components. *)
Definition within (root p : string) : Prop :=
  ∃ ws, ws ≠ [] ∧ Forall (λ w, safe_segment w = true) ws ∧ IsAbs p = IsAbs root ∧ comps p = comps root ++ ws.

Lemma safe_no_slash w : safe_segment w = true → no_slash w = true.
Proof. unfold safe_segment. intros H. by go_bool. Qed.
Lemma clean_step_safe r out w : safe_segment w = true → clean_step r out w = w :: out.
Proof.
  unfold safe_segment, clean_step. intros H. go_bool.
  apply String.eqb_neq in H2, H1, H0. by rw H2 H1 H0.
Qed.
Lemma foldl_clean_safe r out ws :
  Forall (λ w, safe_segment w = true) ws → foldl (clean_step r) out ws = rev ws ++ out.
Proof.
  intros H. revert out. induction H as [|w ws Hw Hws IH]; intros out; [done|]. simpl.
  rw clean_step_safe // IH. by rw -app_assoc.
Qed.
Lemma clean_components_app r ws1 ws2 :
  Forall (λ w, safe_segment w = true) ws2 →
  clean_components r (ws1 ++ ws2) = clean_components r ws1 ++ ws2.
Proof. intros H. unfold clean_components. by rw foldl_app foldl_clean_safe // rev_app_distr rev_involutive. Qed.

(** The shape of a cleaned component list: leading ".." (none if rooted),
    then ordinary components. *)
Definition clean_shape (r : bool) (cs : list string) : Prop :=
  ∃ n ws, cs = replicate n ".." ++ ws ∧ (r = true → n = 0) ∧ Forall (λ w, safe_segment w = true) ws.
Lemma replicate_snoc {A} n (x : A) : replicate n x ++ [x] = x :: replicate n x.
Proof. induction n as [|n IH]; [done|]. simpl. by rw IH. Qed.
Lemma clean_step_shape r out w :
  no_slash w = true → clean_shape r (rev out) → clean_shape r (rev (clean_step r out w)).
Proof.
  intros Hw (n & ws & Ho & Hr & Hs). unfold clean_step.
  destruct (String.eqb w "" || String.eqb w ".") eqn:E; [by exists n, ws|]. go_bool.
  destruct (String.eqb w "..") eqn:E2.
  - apply String.eqb_eq in E2 as ->. destruct out as [|o out].
    { destruct r; simpl; [by exists 0, []|by exists 1, []]. }
    simpl in Ho. destruct (String.eqb o "..") eqn:Eo.
    + apply String.eqb_eq in Eo as ->. destruct ws as [|x ws _] using rev_ind.
      * rw app_nil_r in Ho. exists (S n), []. simpl. rw app_nil_r Ho replicate_snoc. split; [done|].
        split; [|done]. intros ->. rw Hr in Ho; [|done]. by destruct (rev out).
      * rw app_assoc in Ho. apply app_inj_tail in Ho as [_ Hx].
        apply Forall_app in Hs as [_ Hs]. apply Forall_cons in Hs as [Hs _]. by rw -Hx in Hs.
    + apply String.eqb_neq in Eo. destruct ws as [|x ws _] using rev_ind.
      * rw app_nil_r in Ho. destruct n as [|n]; [by destruct (rev out)|]. exfalso. apply Eo.
        change (replicate (S n) "..") with (".." :: replicate n "..") in Ho. rw -replicate_snoc in Ho.
        by apply app_inj_tail in Ho as [_ ->].
      * rw app_assoc in Ho. apply app_inj_tail in Ho as [Ho _]. exists n, ws. rw Ho. split; [done|].
        split; [done|]. by apply Forall_app in Hs as [Hs _].
  - exists n, (ws ++ [w]). simpl. rw Ho app_assoc. split; [done|]. split; [done|]. apply Forall_app. split; [done|].
    constructor; [|done]. unfold safe_segment. apply String.eqb_neq in H, H0. by rw Hw E2 H H0.
Qed.
Lemma comps_shape p : clean_shape (IsAbs p) (comps p).
Proof.
  unfold comps, clean_components. generalize (IsAbs p) as r. intros r.
  pose proof (split_slash_no_slash p) as Hs. revert Hs. generalize (split_slash p) as l. intros l Hl.
  assert (H : ∀ out, clean_shape r (rev out) → clean_shape r (rev (foldl (clean_step r) out l))).
  { induction Hl as [|w l Hw Hl IH]; intros out Ho; [done|]. simpl. apply IH. by apply clean_step_shape. }
  apply H. by exists 0, [].
Qed.
Lemma foldl_clean_up n k :
  foldl (clean_step false) (replicate k "..") (replicate n "..") = replicate (n + k) "..".
Proof.
  revert k. induction n as [|n IH]; intros k; [done|]. simpl.
  assert (clean_step false (replicate k "..") ".." = replicate (S k) "..") as -> by (by destruct k).
  rw IH. by rw Nat.add_succ_r.
Qed.
Lemma rev_replicate {A} n (x : A) : rev (replicate n x) = replicate n x.
Proof. induction n as [|n IH]; [done|]. simpl. by rw IH replicate_snoc. Qed.
Lemma clean_shape_idem r cs : clean_shape r cs → clean_components r cs = cs.
Proof.
  intros (n & ws & -> & Hr & Hs). rw clean_components_app //. f_equal. unfold clean_components.
  destruct r; [by rw Hr|]. by rw (foldl_clean_up n 0) Nat.add_0_r rev_replicate.
Qed.

Lemma shape_no_slash r cs : clean_shape r cs → Forall (λ w, no_slash w = true) cs.
Proof.
  intros (n & ws & -> & _ & Hs). apply Forall_app. split.
  - clear Hs. induction n; constructor; done.
  - eapply Forall_impl; [exact Hs|]. apply safe_no_slash.
Qed.
Lemma shape_head r c cs : clean_shape r (c :: cs) → c ≠ "".
Proof.
  intros (n & ws & Hc & _ & Hs) ->. destruct n as [|n]; [|done]. simpl in Hc. subst ws.
  by apply Forall_cons in Hs as [Hs _].
Qed.
Lemma join_slash_cons w ws : ws ≠ [] → join_slash (w :: ws) = w +:+ String slash (join_slash ws).
Proof. by destruct ws. Qed.
Lemma IsAbs_join_slash r c cs : clean_shape r (c :: cs) → IsAbs (join_slash (c :: cs)) = false.
Proof.
  intros Hs. pose proof (shape_head _ _ _ Hs) as Hc. pose proof (shape_no_slash _ _ Hs) as Hn.
  apply Forall_cons in Hn as [Hn _]. destruct c as [|a c]; [done|]. unfold no_slash in Hn. simpl in Hn. go_bool.
  destruct cs as [|c' cs].
  - exact H.
  - exact H.
Qed.
Lemma render_comps r cs :
  clean_shape r cs → cs ≠ [] → IsAbs (render r cs) = r ∧ comps (render r cs) = cs.
Proof.
  intros Hs Hne. destruct cs as [|c cs]; [done|]. pose proof (shape_no_slash _ _ Hs) as Hn. unfold comps.
  destruct r.
  - split; [done|]. unfold render. cbn [IsAbs Ascii.eqb]. change (Ascii.eqb slash slash) with true.
    assert (split_slash (String slash (join_slash (c :: cs))) = "" :: c :: cs) as ->.
    { change (String slash (join_slash (c :: cs))) with ("" +:+ String slash (join_slash (c :: cs))).
      rw split_slash_app // split_join //. }
    change (clean_components true (c :: cs) = c :: cs). by apply clean_shape_idem.
  - unfold render. rw (IsAbs_join_slash false) //. split; [done|]. rw split_join //. by apply clean_shape_idem.
Qed.
Lemma clean_shape_app r cs ws :
  clean_shape r cs → Forall (λ w, safe_segment w = true) ws → clean_shape r (cs ++ ws).
Proof.
  intros (n & w0 & -> & Hr & Hs) Hw. exists n, (w0 ++ ws). rw app_assoc. split; [done|]. split; [done|].
  by apply Forall_app.
Qed.

(** split_slash of a joined list whose first element may contain slashes *)
Lemma split_slash_app_any p s : split_slash (p +:+ String slash s) = split_slash p ++ split_slash s.
Proof.
  induction p as [|c p IH]; [done|].
  change (split_slash (String c (p +:+ String slash s)) = split_slash (String c p) ++ split_slash s).
  simpl. rw IH. destruct (Ascii.eqb c slash); [done|].
  destruct (split_slash p) as [|w ws] eqn:E; [by apply split_slash_nonempty in E|done].
Qed.
Lemma Join_safe root ws :
  root ≠ "" → ws ≠ [] → Forall (λ w, safe_segment w = true) ws →
  Join (root :: ws) = render (IsAbs root) (comps root ++ ws).
Proof.
  intros Hr Hne Hs. unfold Join. assert (String.eqb root "" = false) as -> by (by apply String.eqb_neq).
  rw join_slash_cons //. unfold Clean.
  assert (Hnil : String.eqb (root +:+ String slash (join_slash ws)) "" = false) by (by destruct root).
  assert (Habs : IsAbs (root +:+ String slash (join_slash ws)) = IsAbs root) by (by destruct root).
  rw Hnil Habs split_slash_app_any split_join //.
  - by rw clean_components_app.
  - eapply Forall_impl; [exact Hs|]. apply safe_no_slash.
Qed.
Lemma Join_within root ws :
  root ≠ "" → ws ≠ [] → Forall (λ w, safe_segment w = true) ws → within root (Join (root :: ws)).
Proof.
  intros Hr Hne Hs. exists ws. rw Join_safe //.
  destruct (render_comps (IsAbs root) (comps root ++ ws)) as [H1 H2].
  - apply clean_shape_app; [apply comps_shape|done].
  - by destruct (comps root), ws.
  - done.
Qed.
Lemma render_nonempty r cs : clean_shape r cs → cs ≠ [] → render r cs ≠ "".
Proof.
  intros Hs Hne. destruct cs as [|c cs]; [done|]. pose proof (shape_head _ _ _ Hs). destruct r; [done|].
  unfold render. destruct c; [done|]. by destruct cs.
Qed.
Lemma within_nonempty root p : within root p → p ≠ "".
Proof.
  intros (ws & Hne & Hs & _ & Hc) ->. change (comps "") with (@nil string) in Hc. by destruct (comps root), ws.
Qed.
Lemma within_join root p ws :
  within root p → ws ≠ [] → Forall (λ w, safe_segment w = true) ws → within root (Join (p :: ws)).
Proof.
  intros Hp Hne Hs. destruct (Join_within p ws (within_nonempty _ _ Hp) Hne Hs) as (ws2 & _ & _ & Ha & Hc).
  assert (Hc' : comps (Join (p :: ws)) = comps p ++ ws).
  { rw Join_safe //; [|by eapply within_nonempty].
    destruct (render_comps (IsAbs p) (comps p ++ ws)) as [_ H2]; [|by destruct (comps p), ws|done].
    apply clean_shape_app; [apply comps_shape|done]. }
  destruct Hp as (w0 & H0 & Hs0 & Ha0 & Hc0). exists (w0 ++ ws). split; [by destruct w0|].
  split; [by apply Forall_app|]. split; [congruence|]. by rw Hc' Hc0 app_assoc.
Qed.
