(* ===== verification/GoJson.v ===== *)
(** * GoJson: what the program uses of encoding/json

    [parse] is json.Unmarshal's grammar: RFC 8259 with Go's choices (a depth
    limit of 10000, invalid UTF-8 and unpaired surrogates read as U+FFFD, the
    last of several equal keys wins).  A json.RawMessage is kept as the value
    it parses to: its bytes are exactly the value's text, so reading it again
    gives the same value.  The fuel is the length of the text; [parse_fuel]
    shows that more makes no difference. *)
From S2P Require Import Prelude GoStrings.
From Stdlib Require Import Ascii.

Inductive json :=
| JNull
| JBool (b : bool)
| JNumber (text : string)
| JString (s : string)
| JArray (l : list json)
| JObject (fields : list (string * json)).

(** ** Lexing *)
Definition is_ws (c : ascii) : bool := is_code 32 c || is_code 9 c || is_code 10 c || is_code 13 c.
Fixpoint skip_ws (s : string) : string :=
  match s with String c r => if is_ws c then skip_ws r else s | EmptyString => s end.

Definition hex_digit (c : ascii) : option N :=
  if is_digit c then Some (code c - 48)%N
  else if in_range 97 102 c then Some (code c - 87)%N
  else if in_range 65 70 c then Some (code c - 55)%N else None.
(** getu4 on the four characters after \u *)
Definition hex4 (a b c d : ascii) : option N :=
  x ← hex_digit a; y ← hex_digit b; z ← hex_digit c; w ← hex_digit d; Some (4096 * x + 256 * y + 16 * z + w)%N.
Definition chr (n : N) : ascii := ascii_of_N n.
(** utf8.EncodeRune of a valid rune *)
Definition encode_rune (r : N) : string :=
  if (r <? 0x80)%N then String (chr r) ""
  else if (r <? 0x800)%N then String (chr (0xC0 + r / 64)) (String (chr (0x80 + r mod 64)) "")
  else if (r <? 0x10000)%N then
    String (chr (0xE0 + r / 4096)) (String (chr (0x80 + (r / 64) mod 64)) (String (chr (0x80 + r mod 64)) ""))
  else String (chr (0xF0 + r / 262144)) (String (chr (0x80 + (r / 4096) mod 64))
         (String (chr (0x80 + (r / 64) mod 64)) (String (chr (0x80 + r mod 64)) ""))).
Definition RuneError : N := 0xFFFD.
Definition is_surrogate (r : N) : bool := (0xD800 <=? r)%N && (r <=? 0xDFFF)%N.
(** utf16.DecodeRune; [None] = U+FFFD *)
Definition decode_pair (r1 r2 : N) : option N :=
  if (0xD800 <=? r1)%N && (r1 <? 0xDC00)%N && (0xDC00 <=? r2)%N && (r2 <? 0xE000)%N
  then Some ((r1 - 0xD800) * 1024 + (r2 - 0xDC00) + 0x10000)%N else None.
Definition simple_escape (c : ascii) : option ascii :=
  if is_code 34 c || is_code 92 c || is_code 47 c then Some c
  else if is_code 98 c then Some (chr 8) else if is_code 102 c then Some (chr 12)
  else if is_code 110 c then Some (chr 10) else if is_code 114 c then Some (chr 13)
  else if is_code 116 c then Some (chr 9) else None.

(** A \u escape after its "\u": the rune and the text after it.  A high
    surrogate takes a following \u escape with it when the two form a pair. *)
Definition second_half (u : N) (s : string) : option (N * string) :=
  match s with
  | String b1 (String b2 (String k1 (String k2 (String k3 (String k4 r))))) =>
      if is_code 92 b1 && is_code 117 b2 then u' ← hex4 k1 k2 k3 k4; v ← decode_pair u u'; Some (v, r) else None
  | _ => None
  end.
Definition unicode_escape (s : string) : option (N * string) :=
  match s with
  | String h1 (String h2 (String h3 (String h4 r))) =>
      u ← hex4 h1 h2 h3 h4;
      Some (if is_surrogate u then default (RuneError, r) (second_half u r) else (u, r))
  | _ => None
  end.
Definition escape (s : string) : option (string * string) :=
  match s with
  | EmptyString => None
  | String e r => if is_code 117 e then '(u, r) ← unicode_escape r; Some (encode_rune u, r)
                  else x ← simple_escape e; Some (String x "", r)
  end.
(** A multi-byte sequence from a byte of 0x80 or more; an ill-formed one is
    read as U+FFFD, one byte at a time. *)
Definition multibyte (c : ascii) (r : string) : string * string :=
  match r with
  | String c2 r2 =>
      if ok2 c c2 then (String c (String c2 ""), r2) else
      match r2 with
      | String c3 r3 =>
          if ok3 c c2 c3 then (String c (String c2 (String c3 "")), r3) else
          match r3 with
          | String c4 r4 => if ok4 c c2 c3 c4 then (String c (String c2 (String c3 (String c4 ""))), r4)
                            else (encode_rune RuneError, r)
          | EmptyString => (encode_rune RuneError, r)
          end
      | EmptyString => (encode_rune RuneError, r)
      end
  | EmptyString => (encode_rune RuneError, r)
  end.
Definition str_char (c : ascii) (r : string) : option (string * string) :=
  if (code c <? 32)%N then None
  else if is_code 92 c then escape r
  else if (code c <? 128)%N then Some (String c "", r)
  else Some (multibyte c r).
(** The rest of a string literal after its opening quote: what it decodes to
    and the text after its closing quote. *)
Fixpoint str_rest (fuel : nat) (s : string) : option (string * string) :=
  match fuel, s with
  | S fuel, String c r =>
      if is_code 34 c then Some ("", r)
      else '(x, r) ← str_char c r; '(t, q) ← str_rest fuel r; Some (x +:+ t, q)
  | _, _ => None
  end.
Definition str_body (s : string) : option (string * string) := str_rest (String.length s) s.

Fixpoint digits (s : string) : string * string :=
  match s with
  | String c r => if is_digit c then let '(d, q) := digits r in (String c d, q) else ("", s)
  | EmptyString => ("", s)
  end.
Definition digits1 (s : string) : option (string * string) :=
  let '(d, q) := digits s in if String.eqb d "" then None else Some (d, q).
(** A number: sign, integer part without leading zeros, fraction, exponent *)
Definition number_int (s : string) : option (string * string) :=
  match s with
  | String c r => if is_code 48 c then Some (String c "", r) else digits1 s
  | EmptyString => None
  end.
Definition number_frac (s : string) : option (string * string) :=
  match s with
  | String c r => if is_code 46 c then '(d, q) ← digits1 r; Some (String c d, q) else Some ("", s)
  | EmptyString => Some ("", s)
  end.
Definition number_exp (s : string) : option (string * string) :=
  match s with
  | String c r =>
      if is_code 101 c || is_code 69 c then
        match r with
        | String g r' => if is_code 43 g || is_code 45 g
                         then '(d, q) ← digits1 r'; Some (String c (String g d), q)
                         else '(d, q) ← digits1 r; Some (String c d, q)
        | EmptyString => None
        end
      else Some ("", s)
  | EmptyString => Some ("", s)
  end.
Definition number (s : string) : option (json * string) :=
  let '(sign, r) := match s with String c r => if is_code 45 c then (String c "", r) else ("", s) | _ => ("", s) end in
  '(i, r) ← number_int r; '(f, r) ← number_frac r; '(e, r) ← number_exp r;
  Some (JNumber (sign +:+ i +:+ f +:+ e), r).
Definition literal (word : string) (v : json) (s : string) : option (json * string) :=
  if HasPrefix s word then Some (v, drop_bytes (String.length word) s) else None.

(** ** Values *)
Definition maxNestingDepth : N := 10000.
Section parse.
(** [value d s]: a value at nesting depth [d] at the start of [s], after
    white space *)
Variable value : N → string → option (json * string).
(** The members of an object after "{" or ","; and the elements of an array
    after "[" or ",". *)
Fixpoint members (fuel : nat) (d : N) (s : string) : option (list (string * json) * string) :=
  match fuel with
  | O => None
  | S fuel =>
      match skip_ws s with
      | String q r =>
          if negb (is_code 34 q) then None else
          '(k, r) ← str_body r;
          match skip_ws r with
          | String c r =>
              if negb (is_code 58 c) then None else
              '(v, r) ← value d r;
              match skip_ws r with
              | String c r =>
                  if is_code 125 c then Some ([(k, v)], r)
                  else if is_code 44 c then '(l, r) ← members fuel d r; Some ((k, v) :: l, r)
                  else None
              | EmptyString => None
              end
          | EmptyString => None
          end
      | EmptyString => None
      end
  end.
Fixpoint elements (fuel : nat) (d : N) (s : string) : option (list json * string) :=
  match fuel with
  | O => None
  | S fuel =>
      '(v, r) ← value d s;
      match skip_ws r with
      | String c r =>
          if is_code 93 c then Some ([v], r)
          else if is_code 44 c then '(l, r) ← elements fuel d r; Some (v :: l, r)
          else None
      | EmptyString => None
      end
  end.
End parse.
Fixpoint value (fuel : nat) (d : N) (s : string) : option (json * string) :=
  match fuel with
  | O => None
  | S fuel =>
      let s := skip_ws s in
      match s with
      | EmptyString => None
      | String c r =>
          if is_code 34 c then '(t, r) ← str_body r; Some (JString t, r)
          else if is_code 123 c then
            if (maxNestingDepth <=? d)%N then None else
            match skip_ws r with
            | String e r' => if is_code 125 e then Some (JObject [], r')
                             else '(l, r) ← members (value fuel) fuel (d + 1) r; Some (JObject l, r)
            | EmptyString => None
            end
          else if is_code 91 c then
            if (maxNestingDepth <=? d)%N then None else
            match skip_ws r with
            | String e r' => if is_code 93 e then Some (JArray [], r')
                             else '(l, r) ← elements (value fuel) fuel (d + 1) r; Some (JArray l, r)
            | EmptyString => None
            end
          else if is_code 116 c then literal "true" (JBool true) s
          else if is_code 102 c then literal "false" (JBool false) s
          else if is_code 110 c then literal "null" JNull s
          else number s
      end
  end.
(** checkValid and the decoding of a whole text *)
Definition parse (s : string) : option json :=
  '(v, r) ← value (S (String.length s)) 0 s; if String.eqb (skip_ws r) "" then Some v else None.

(** ** json.Unmarshal into a map[string]json.RawMessage and into a string *)
Definition as_map (v : json) : option (list (string * json)) :=
  match v with JObject l => Some l | JNull => Some [] | _ => None end.
Definition unmarshal_map (s : string) : option (list (string * json)) := v ← parse s; as_map v.
(** m[key]: the last entry with the key *)
Definition field (m : list (string * json)) (key : string) : option json :=
  foldl (λ acc kv, if String.eqb kv.1 key then Some kv.2 else acc) None m.

(** ** The fuel is enough *)
Lemma skip_ws_length s : String.length (skip_ws s) ≤ String.length s.
Proof. induction s as [|c s IH]; [done |]. simpl. destruct (is_ws c); simpl; lia. Qed.
Lemma hex4_escape_length s u r : unicode_escape s = Some (u, r) → String.length r < String.length s.
Proof.
  rw /unicode_escape. destruct s as [|h1 [|h2 [|h3 [|h4 s]]]]; try done.
  destruct (hex4 h1 h2 h3 h4) as [v|]; [simpl | done]. destruct (is_surrogate v); [| intros [= <- <-]; simpl; lia].
  destruct (second_half v s) as [[w q]|] eqn:E; simpl; intros [= <- <-]; [| lia]. rw /second_half in E.
  destruct s as [|b1 [|b2 [|k1 [|k2 [|k3 [|k4 s]]]]]]; try done. destruct (_ && _); [| done].
  destruct (hex4 k1 k2 k3 k4); simpl in E; [| done]. destruct (decode_pair _ _); simplify_eq/=. lia.
Qed.
Lemma multibyte_length c r : String.length (multibyte c r).2 ≤ String.length r.
Proof. rw /multibyte. destruct r as [|c2 [|c3 [|c4 r]]]; simpl; repeat case_match; simpl; lia. Qed.
Lemma str_char_length c s x r : str_char c s = Some (x, r) → String.length r ≤ String.length s.
Proof.
  rw /str_char. destruct (_ <? 32)%N; [done |]. destruct (is_code 92 c).
  - rw /escape. destruct s as [|e s]; [done |]. destruct (is_code 117 e).
    + destruct (unicode_escape s) as [[u q]|] eqn:E; [| done]. intros [= <- <-]. apply hex4_escape_length in E. simpl; lia.
    + destruct (simple_escape e); [| done]. intros [= <- <-]. simpl; lia.
  - destruct (_ <? 128)%N; intros [= Hx]; subst; [done |].
    pose proof (multibyte_length c s) as H. by rw Hx in H.
Qed.
Lemma str_rest_fuel f f' s : String.length s ≤ f → String.length s ≤ f' → str_rest f s = str_rest f' s.
Proof.
  revert f' s. induction f as [|f IH]; intros [|f'] [|c s] Hf Hf'; try done; simpl in Hf, Hf'; try lia.
  simpl. destruct (is_code 34 c); [done |]. destruct (str_char c s) as [[x r]|] eqn:E; [simpl | done].
  apply str_char_length in E. rw (IH f' r) //; lia.
Qed.
Lemma str_rest_length f s t q : str_rest f s = Some (t, q) → String.length q < String.length s.
Proof.
  revert s t q. induction f as [|f IH]; intros [|c s] t q; try done. simpl.
  destruct (is_code 34 c); [intros [= <- <-]; lia |].
  destruct (str_char c s) as [[x r]|] eqn:E; [simpl | done]. apply str_char_length in E.
  destruct (str_rest f r) as [[t' q']|] eqn:E'; [| done]. intros [= <- <-]. apply IH in E'. lia.
Qed.
Lemma str_body_length s t q : str_body s = Some (t, q) → String.length q < String.length s.
Proof. apply str_rest_length. Qed.
Lemma digits_length s : String.length (digits s).1 + String.length (digits s).2 = String.length s.
Proof.
  induction s as [|c s IH]; [done |]. simpl. destruct (is_digit c); [| done].
  destruct (digits s) as [d q]. simpl in *. lia.
Qed.
Lemma digits1_length s d q : digits1 s = Some (d, q) → String.length q < String.length s.
Proof.
  rw /digits1. pose proof (digits_length s). destruct (digits s) as [d0 q0]. simpl in *.
  destruct (String.eqb_spec d0 ""); [done |]. intros [= <- <-]. destruct d0; [done |]. simpl in *. lia.
Qed.
Lemma number_int_length s d q : number_int s = Some (d, q) → String.length q < String.length s.
Proof.
  destruct s as [|c s]; [done |]. rw /number_int. destruct (is_code 48 c); [intros [= <- <-]; simpl; lia |].
  apply digits1_length.
Qed.
Lemma number_frac_length s d q : number_frac s = Some (d, q) → String.length q ≤ String.length s.
Proof.
  destruct s as [|c s]; rw /number_frac; [by intros [= <- <-] |].
  destruct (is_code 46 c); [| by intros [= <- <-]].
  destruct (digits1 s) as [[d0 q0]|] eqn:E; [| done]. intros [= <- <-]. apply digits1_length in E. simpl. lia.
Qed.
Lemma number_exp_length s d q : number_exp s = Some (d, q) → String.length q ≤ String.length s.
Proof.
  destruct s as [|c s]; rw /number_exp; [by intros [= <- <-] |].
  destruct (is_code 101 c || is_code 69 c); [| by intros [= <- <-]]. destruct s as [|g s]; [done |].
  destruct (_ || _).
  - destruct (digits1 s) as [[d0 q0]|] eqn:E; [| done]. intros [= <- <-]. apply digits1_length in E. simpl. lia.
  - destruct (digits1 (String g s)) as [[d0 q0]|] eqn:E; [| done]. intros [= <- <-]. apply digits1_length in E.
    simpl in *. lia.
Qed.
Lemma number_length s v q : number s = Some (v, q) → String.length q < String.length s.
Proof.
  rw /number. set (p := match s with String _ _ => _ | _ => _ end).
  assert (String.length p.2 ≤ String.length s) as Hp.
  { rw /p. destruct s as [|c s]; [done |]. destruct (is_code 45 c); simpl; lia. }
  destruct p as [sign r]. simpl in Hp.
  destruct (number_int r) as [[i r1]|] eqn:E1; [simpl | done]. apply number_int_length in E1.
  destruct (number_frac r1) as [[f r2]|] eqn:E2; [simpl | done]. apply number_frac_length in E2.
  destruct (number_exp r2) as [[e r3]|] eqn:E3; [simpl | done]. apply number_exp_length in E3.
  intros [= <- <-]. lia.
Qed.
Lemma literal_length w v s v' q : 0 < String.length w → literal w v s = Some (v', q) → String.length q < String.length s.
Proof.
  intros Hw. rw /literal. destruct (HasPrefix s w) eqn:E; [| done]. intros [= <- <-].
  apply HasPrefix_spec in E as [t ->]. rw string_length_app.
  assert (drop_bytes (String.length w) (w +:+ t) = t) as ->; [| lia].
  clear Hw. induction w as [|c w IH]; [by destruct t | exact IH].
Qed.

Section fuel.
Variables (val1 val2 : N → string → option (json * string)) (n : nat).
Hypothesis same : ∀ d s, String.length s ≤ n → val1 d s = val2 d s.
Hypothesis shorter : ∀ d s v r, val1 d s = Some (v, r) → String.length r < String.length s.
Lemma members_fuel f f' d s : String.length s ≤ n → String.length s ≤ f → String.length s ≤ f' →
  members val1 f d s = members val2 f' d s.
Proof.
  revert f' s. induction f as [|f IH]; intros [|f'] s Hn Hf Hf'; try done;
    try (destruct s; [done | simpl in *; lia]).
  simpl. pose proof (skip_ws_length s). destruct (skip_ws s) as [|q r]; [done |]. simpl in *.
  destruct (negb (is_code 34 q)); [done |].
  destruct (str_body r) as [[k r1]|] eqn:E; [simpl | done]. apply str_body_length in E.
  pose proof (skip_ws_length r1). destruct (skip_ws r1) as [|c r2]; [done |]. simpl in *.
  destruct (negb (is_code 58 c)); [done |]. rw -same; [| lia].
  destruct (val1 d r2) as [[v r3]|] eqn:E2; [simpl | done]. apply shorter in E2.
  pose proof (skip_ws_length r3). destruct (skip_ws r3) as [|c' r4]; [done |]. simpl in *.
  destruct (is_code 125 c'); [done |]. destruct (is_code 44 c'); [| done]. rw (IH f') //; lia.
Qed.
Lemma elements_fuel f f' d s : String.length s ≤ n → String.length s ≤ f → String.length s ≤ f' →
  elements val1 f d s = elements val2 f' d s.
Proof.
  revert f' s. induction f as [|f IH]; intros [|f'] s Hn Hf Hf'; try done.
  - destruct s; [| simpl in *; lia]. simpl. rw -same //.
    destruct (val1 d "") as [[v r]|] eqn:E; [| done]. apply shorter in E. simpl in E. lia.
  - destruct s; [| simpl in *; lia]. simpl.
    destruct (val1 d "") as [[v r]|] eqn:E; [| done]. apply shorter in E. simpl in E. lia.
  - simpl. rw -same //. destruct (val1 d s) as [[v r]|] eqn:E; [simpl | done]. apply shorter in E.
    pose proof (skip_ws_length r). destruct (skip_ws r) as [|c r1]; [done |]. simpl in *.
    destruct (is_code 93 c); [done |]. destruct (is_code 44 c); [| done]. rw (IH f') //; lia.
Qed.
Lemma members_length f d s l r : members val1 f d s = Some (l, r) → String.length r < String.length s.
Proof.
  revert s l r. induction f as [|f IH]; intros s l r; [done |].
  simpl. pose proof (skip_ws_length s). destruct (skip_ws s) as [|q r0]; [done |]. simpl in *.
  destruct (negb (is_code 34 q)); [done |].
  destruct (str_body r0) as [[k r1]|] eqn:E; [simpl | done]. apply str_body_length in E.
  pose proof (skip_ws_length r1). destruct (skip_ws r1) as [|c r2]; [done |]. simpl in *.
  destruct (negb (is_code 58 c)); [done |].
  destruct (val1 d r2) as [[v r3]|] eqn:E2; [simpl | done]. apply shorter in E2.
  pose proof (skip_ws_length r3). destruct (skip_ws r3) as [|c' r4]; [done |]. simpl in *.
  destruct (is_code 125 c'); [intros [= <- <-]; lia |]. destruct (is_code 44 c'); [| done].
  destruct (members val1 f d r4) as [[l' r5]|] eqn:E3; [| done]. intros [= <- <-]. apply IH in E3. lia.
Qed.
Lemma elements_length f d s l r : elements val1 f d s = Some (l, r) → String.length r < String.length s.
Proof.
  revert s l r. induction f as [|f IH]; intros s l r; [done |].
  simpl. destruct (val1 d s) as [[v r1]|] eqn:E; [simpl | done]. apply shorter in E.
  pose proof (skip_ws_length r1). destruct (skip_ws r1) as [|c r2]; [done |]. simpl in *.
  destruct (is_code 93 c); [intros [= <- <-]; lia |]. destruct (is_code 44 c); [| done].
  destruct (elements val1 f d r2) as [[l' r3]|] eqn:E3; [| done]. intros [= <- <-]. apply IH in E3. lia.
Qed.
End fuel.

Lemma value_length f d s v r : value f d s = Some (v, r) → String.length r < String.length s.
Proof.
  revert d s v r. induction f as [|f IH]; intros d s v r; [done |].
  cbn [value]. cbv zeta. pose proof (skip_ws_length s) as Hs. destruct (skip_ws s) as [|c s1]; [done |]. simpl in Hs.
  destruct (is_code 34 c).
  { destruct (str_body s1) as [[t q]|] eqn:E; [| done]. intros [= <- <-]. apply str_body_length in E. lia. }
  pose proof (skip_ws_length s1) as Hs1.
  destruct (is_code 123 c).
  { destruct (_ <=? d)%N; [done |]. destruct (skip_ws s1) as [|e s2]; [done |]. simpl in Hs1.
    destruct (is_code 125 e); [intros [= <- <-]; lia |].
    destruct (members _ _ _ _) as [[l q]|] eqn:E; [| done]. intros [= <- <-]. apply members_length in E; [lia | apply IH]. }
  destruct (is_code 91 c).
  { destruct (_ <=? d)%N; [done |]. destruct (skip_ws s1) as [|e s2]; [done |]. simpl in Hs1.
    destruct (is_code 93 e); [intros [= <- <-]; lia |].
    destruct (elements _ _ _ _) as [[l q]|] eqn:E; [| done]. intros [= <- <-]. apply elements_length in E; [lia | apply IH]. }
  destruct (is_code 116 c); [intros H; apply literal_length in H; simpl in *; lia |].
  destruct (is_code 102 c); [intros H; apply literal_length in H; simpl in *; lia |].
  destruct (is_code 110 c); [intros H; apply literal_length in H; simpl in *; lia |].
  intros H. apply number_length in H. simpl in *. lia.
Qed.
(** More fuel than the text is long changes nothing. *)
Lemma parse_fuel f f' d s : String.length s < f → String.length s < f' → value f d s = value f' d s.
Proof.
  revert f' d s. induction f as [|f IH]; intros [|f'] d s Hf Hf'; try lia.
  cbn [value]. cbv zeta. pose proof (skip_ws_length s) as Hs. destruct (skip_ws s) as [|c s1]; [done |]. simpl in Hs.
  destruct (is_code 34 c); [done |].
  assert (∀ d s, String.length s ≤ String.length s1 → value f d s = value f' d s) as Hsame by (intros; apply IH; lia).
  destruct (is_code 123 c).
  { destruct (_ <=? d)%N; [done |]. destruct (skip_ws s1) as [|e s2]; [done |]. destruct (is_code 125 e); [done |].
    rw (members_fuel (value f) (value f') _ Hsame (value_length f) f f') //; lia. }
  destruct (is_code 91 c); [| done].
  destruct (_ <=? d)%N; [done |]. destruct (skip_ws s1) as [|e s2]; [done |]. destruct (is_code 93 e); [done |].
  rw (elements_fuel (value f) (value f') _ Hsame (value_length f) f f') //; lia.
Qed.
