(* ===== verification/OutputQueue.v ===== *)
(** * OutputQueue: the reliable output buffer of a session (execution/queue.go)

    [outputQueue] is the producer/consumer buffer between a running session and
    the upstream stream.  Producers ([append], [pump]) only touch the queue; the
    flusher goroutine ([flush]) copies the head chunk under the lock, emits it
    outside the lock, and pops it under the lock after a successful send.

    The flusher is modelled at the granularity of its critical sections, so
    that a producer, several flushers (one per [start]) and [stop] interleave
    the way the goroutines do: one [qlabel] is one critical section or one
    outcome of [emit] or of the [select]. *)
From S2P Require Import Prelude GoStrings.

Inductive StdioStream :=
| STDIO_STREAM_UNSPECIFIED
| STDIO_STREAM_STDOUT
| STDIO_STREAM_STDERR.
#[export] Instance StdioStream_eq_dec : EqDecision StdioStream.
Proof. solve_decision. Defined.

Record queuedChunk := mkChunk {
  qc_data : string;
  qc_stream : StdioStream;
  qc_offset : Z;              (** uint64 *)
  qc_at : Z                   (** time.Now(), nanoseconds *)
}.
#[export] Instance queuedChunk_eq_dec : EqDecision queuedChunk.
Proof. solve_decision. Defined.

(** The mutex-protected part of the Go struct. *)
Record outputQueue := mkQueue {
  q_items : list queuedChunk;
  q_offset : Z;               (** uint64 *)
  q_closed : bool
}.
#[export] Instance eta_outputQueue : Settable outputQueue :=
  λ q, mkQueue (q_items q) (q_offset q) (q_closed q).

Definition newOutputQueue : outputQueue := mkQueue [] 0 false.

(** [(q *outputQueue) append] *)
Definition append (q : outputQueue) (data : string) (stream : StdioStream) (now : Z) : outputQueue :=
  q <| q_items := q_items q ++ [mkChunk data stream (q_offset q) now] |>
    <| q_offset := uint64_add (q_offset q) (blen data) |>.

(** ** pump: one goroutine reading a pipe to its end *)
Definition runtimeDiagnosticPrefixes : list string := ["[runtime-"; "[turn-"; "[claude-"].
Definition hasRuntimeDiagnosticPrefix (chunk : string) : bool :=
  existsb (Contains chunk) runtimeDiagnosticPrefixes.

(** strings.TrimRight(s, "\r\n") *)
Fixpoint trim_crlf_rev (s : string) : string :=
  match s with
  | String c s' => if is_code 13 c || is_code 10 c then trim_crlf_rev s' else s
  | EmptyString => EmptyString
  end.
Definition TrimRightCRLF (s : string) : string := string_reverse (trim_crlf_rev (string_reverse s)).

(** One [r.Read(buf)]: the bytes read, whether it returned an error (io.EOF
    included), and the clock at the append. *)
Record read_result := mkRead { rd_data : string; rd_err : bool; rd_now : Z }.

(** The loop over the reads of [r]; a reader that never errors is read forever,
    a finite prefix of its reads is consumed whole.  Returns the queue and the
    diagnostic lines mirrored into the node's log. *)
Fixpoint pump (q : outputQueue) (reads : list read_result) (stream : StdioStream)
  : outputQueue * list string :=
  match reads with
  | [] => (q, [])
  | r :: reads' =>
      let '(q1, diag) :=
        if (0 <? blen (rd_data r))%Z then
          (append q (rd_data r) stream (rd_now r),
           if bool_decide (stream = STDIO_STREAM_STDERR)
              && hasRuntimeDiagnosticPrefix (rd_data r)
           then [TrimRightCRLF (rd_data r)] else [])
        else (q, []) in
      if rd_err r then (q1, diag)
      else let '(q2, diag') := pump q1 reads' stream in (q2, diag ++ diag')
  end.

(** ** The flusher goroutines *)
Inductive flusher_pc :=
| FLoop                        (** at the head of the loop *)
| FEmit (c : queuedChunk)      (** lock released, emitting the copied head *)
| FBackoff                     (** emit failed, in the select *)
| FPop                         (** emit succeeded, about to pop *)
| FDone.                       (** returned *)

Record flusher := mkFlusher { f_pc : flusher_pc; f_cancelled : bool }.
#[export] Instance eta_flusher : Settable flusher := λ f, mkFlusher (f_pc f) (f_cancelled f).

(** The queue, its flushers in start order, the chunks the stream accepted, and
    whether a goroutine panicked ([q.items[1:]] of an empty slice). *)
Record qsys := mkQsys {
  s_q : outputQueue;
  s_fl : list flusher;
  s_sent : list queuedChunk;
  s_panic : bool
}.
#[export] Instance eta_qsys : Settable qsys := λ s, mkQsys (s_q s) (s_fl s) (s_sent s) (s_panic s).

Inductive qlabel :=
| LAppend (data : string) (stream : StdioStream) (now : Z)
| LStart                       (** start(ctx): launch a flusher *)
| LStop                        (** the stop function returned by start *)
| LCancel (i : nat)            (** the context of the i-th run is cancelled *)
| LWake (i : nat)              (** flusher i: the first critical section *)
| LEmitOk (i : nat)            (** emit(frame) returned nil *)
| LEmitFail (i : nat)          (** emit(frame) returned an error *)
| LRetry (i : nat)             (** time.After(500ms) fired *)
| LGiveUp (i : nat)            (** ctx.Done() was selected *)
| LPop (i : nat).              (** the second critical section *)

Definition set_pc (s : qsys) (i : nat) (f : flusher) (pc : flusher_pc) : qsys :=
  s <| s_fl := <[i := f <| f_pc := pc |>]> (s_fl s) |>.

(** One step; [None] when the step is not enabled. *)
Definition qstep (s : qsys) (l : qlabel) : option qsys :=
  match l with
  | LAppend data stream now => Some (s <| s_q := append (s_q s) data stream now |>)
  | LStart => Some (s <| s_fl := s_fl s ++ [mkFlusher FLoop false] |>)
  | LStop => Some (s <| s_q := s_q s <| q_closed := true |> |>)
  | LCancel i =>
      f ← s_fl s !! i;
      Some (s <| s_fl := <[i := f <| f_cancelled := true |>]> (s_fl s) |>)
  | LWake i =>
      f ← s_fl s !! i;
      match f_pc f with
      | FLoop =>
          match q_items (s_q s) with
          | [] => if q_closed (s_q s) then Some (set_pc s i f FDone) else None
          | c :: _ => Some (set_pc s i f (FEmit c))
          end
      | _ => None
      end
  | LEmitOk i =>
      f ← s_fl s !! i;
      match f_pc f with
      | FEmit c => Some (set_pc s i f FPop <| s_sent := s_sent s ++ [c] |>)
      | _ => None
      end
  | LEmitFail i =>
      f ← s_fl s !! i;
      match f_pc f with FEmit _ => Some (set_pc s i f FBackoff) | _ => None end
  | LRetry i =>
      f ← s_fl s !! i;
      match f_pc f with FBackoff => Some (set_pc s i f FLoop) | _ => None end
  | LGiveUp i =>
      f ← s_fl s !! i;
      match f_pc f with
      | FBackoff => if f_cancelled f then Some (set_pc s i f FDone) else None
      | _ => None
      end
  | LPop i =>
      f ← s_fl s !! i;
      match f_pc f with
      | FPop =>
          match q_items (s_q s) with
          | [] => Some (s <| s_panic := true |>)
          | _ :: rest => Some (set_pc s i f FLoop <| s_q := s_q s <| q_items := rest |> |>)
          end
      | _ => None
      end
  end.

Definition qstep_rel (s : qsys) (l : qlabel) (s' : qsys) : Prop := qstep s l = Some s'.
Definition qrun := trace_run qstep_rel.

(** The executable counterpart of [qrun]. *)
Fixpoint qexec (s : qsys) (ls : list qlabel) : option qsys :=
  match ls with
  | [] => Some s
  | l :: ls => s' ← qstep s l; qexec s' ls
  end.
Lemma qexec_run s ls s' : qexec s ls = Some s' ↔ qrun s ls s'.
Proof.
  split.
  - revert s. induction ls as [|l ls IH]; simpl; intros s H; [simplify_eq; constructor|].
    destruct (qstep s l) as [s1|] eqn:E; [|done]. econstructor; [exact E|by apply IH].
  - induction 1 as [|s l s1 ls s2 Hs _ IH]; simpl; [done|]. by rw Hs.
Qed.

(** A queue just created by [create], with no flusher yet. *)
Definition qinit : qsys := mkQsys newOutputQueue [] [] false.

(** [drain] returns when this holds under the lock. *)
Definition drain_returns (q : outputQueue) : bool :=
  match q_items q with [] => true | _ => q_closed q end.

(** The frame [flush] builds from a chunk. *)
Record session_output := mkOutput {
  so_session : string; so_data : string; so_stream : StdioStream; so_offset : Z; so_at : Z }.
Definition output_frame (sessionID : string) (c : queuedChunk) : session_output :=
  mkOutput sessionID (qc_data c) (qc_stream c) (qc_offset c) (qc_at c).

(** ** Specification vocabulary *)

(** The chunks a label sequence appends, with the offsets they are given when
    the counter starts at [o]. *)
Fixpoint appended (o : Z) (ls : list qlabel) : list queuedChunk :=
  match ls with
  | [] => []
  | LAppend d st now :: ls => mkChunk d st o now :: appended (uint64_add o (blen d)) ls
  | _ :: ls => appended o ls
  end.
Definition is_start (l : qlabel) : bool := match l with LStart => true | _ => false end.
Definition is_stop (l : qlabel) : bool := match l with LStop => true | _ => false end.
Definition starts (ls : list qlabel) : nat := length (filter (λ l, is_start l = true) ls).

(** What is still owed to the stream: the queue, less a head that was sent
    and not yet popped. *)
Definition undelivered (s : qsys) : list queuedChunk :=
  match s_fl s with
  | [mkFlusher FPop _] => tail (q_items (s_q s))
  | _ => q_items (s_q s)
  end.

(** The bytes of a list of chunks. *)
Definition bytes_of (cs : list queuedChunk) : string := foldr (λ c s, qc_data c +:+ s) "" cs.

(** ** Lemmas *)
Lemma appended_app o ls1 ls2 :
  ∃ o', appended o (ls1 ++ ls2) = appended o ls1 ++ appended o' ls2.
Proof.
  revert o. induction ls1 as [|l ls1 IH]; intros o; [by exists o|].
  destruct l; simpl; try apply IH.
  destruct (IH (uint64_add o (blen data))) as [o' Ho]. exists o'. by rw Ho.
Qed.

(** The invariant of a system with at most one flusher: its program counter
    and the queue agree on what has been sent. *)
Definition one_flusher_inv (s : qsys) (done : list queuedChunk) : Prop :=
  s_panic s = false ∧ s_sent s ++ undelivered s = done ∧
  match s_fl s with
  | [] => True
  | [mkFlusher FPop _] => q_items (s_q s) ≠ []
  | [mkFlusher (FEmit c) _] => head (q_items (s_q s)) = Some c
  | [_] => True
  | _ => False
  end.

Lemma one_flusher_step s l s' done :
  one_flusher_inv s done →
  (l = LStart → s_fl s = []) →
  qstep s l = Some s' →
  one_flusher_inv s' (done ++ appended (q_offset (s_q s)) [l]).
Proof.
  destruct s as [[items off cl] fl sent pan].
  intros (Hp & Hd & Hi) Hst Hs. unfold undelivered in Hd. simpl in *. subst pan.
  destruct l as [d st now| | |i|i|i|i|i|i|i]; simpl in *.
  - simplify_eq. destruct fl as [|[pc b] [|]]; [| |by destruct pc].
    + split_and!; [done| |done]. simpl. by rw app_assoc.
    + destruct pc; destruct items; split_and!; simpl in *; simplify_eq;
        rw -?app_assoc; done.
  - pose proof (Hst eq_refl) as ->. simplify_eq. rw app_nil_r. by split_and!.
  - simplify_eq. destruct fl as [|[pc b] [|]]; [| |by destruct pc]; simpl in *; rw app_nil_r;
      [|destruct pc]; by split_and!.
  - destruct fl as [|[pc b] [|]]; [done| |by destruct pc]. destruct i; [|done]. simplify_eq/=.
    rw app_nil_r. destruct pc; by split_and!.
  - destruct fl as [|[pc b] [|]]; [done| |by destruct pc]. destruct i; [|done]. simplify_eq/=.
    rw app_nil_r. destruct pc; try done. destruct items as [|c items].
    + destruct cl; [|done]. simplify_eq. by split_and!.
    + simplify_eq. by split_and!.
  - destruct fl as [|[pc b] [|]]; [done| |by destruct pc]. destruct i; [|done]. simplify_eq/=.
    rw app_nil_r. destruct pc; try done. destruct items as [|c' items]; [done|].
    simplify_eq/=. split_and!; [done| |done]. simpl. by rw -app_assoc.
  - destruct fl as [|[pc b] [|]]; [done| |by destruct pc]. destruct i; [|done]. simplify_eq/=.
    rw app_nil_r. destruct pc; try done. simplify_eq. by split_and!.
  - destruct fl as [|[pc b] [|]]; [done| |by destruct pc]. destruct i; [|done]. simplify_eq/=.
    rw app_nil_r. destruct pc; try done. simplify_eq. by split_and!.
  - destruct fl as [|[pc b] [|]]; [done| |by destruct pc]. destruct i; [|done]. simplify_eq/=.
    rw app_nil_r. destruct pc; try done. destruct b; [|done]. simplify_eq. by split_and!.
  - destruct fl as [|[pc b] [|]]; [done| |by destruct pc]. destruct i; [|done]. simplify_eq/=.
    rw app_nil_r. destruct pc; try done. destruct items as [|c' items]; [done|].
    simplify_eq/=. by split_and!.
Qed.

Lemma qstep_offset s l s' :
  qstep s l = Some s' →
  q_offset (s_q s') =
    match l with LAppend d _ _ => uint64_add (q_offset (s_q s)) (blen d) | _ => q_offset (s_q s) end.
Proof.
  destruct s as [[items off cl] fl sent pan].
  destruct l; simpl; intros H; simplify_option_eq; repeat case_match; simplify_eq/=; done.
Qed.

Lemma starts_cons l ls : starts (l :: ls) = (if is_start l then 1 else 0) + starts ls.
Proof. unfold starts. rw filter_cons. by destruct (is_start l). Qed.

Lemma qstep_flushers s l s' :
  qstep s l = Some s' → length (s_fl s') = length (s_fl s) + (if is_start l then 1 else 0).
Proof.
  destruct s as [[items off cl] fl sent pan].
  destruct l; simpl; intros H; simplify_option_eq; repeat case_match; simplify_eq/=;
    rw ?length_app ?length_insert /=; lia.
Qed.

Lemma one_flusher_run s ls s' done :
  one_flusher_inv s done →
  length (s_fl s) + starts ls ≤ 1 →
  qrun s ls s' →
  one_flusher_inv s' (done ++ appended (q_offset (s_q s)) ls).
Proof.
  intros Hi Hn Hr. revert done Hi Hn.
  induction Hr as [s|s l s1 ls s2 Hs Hr IH]; intros done Hi Hn; [by rw app_nil_r|].
  rw starts_cons in Hn.
  pose proof (qstep_flushers _ _ _ Hs) as Hl. pose proof (qstep_offset _ _ _ Hs) as Ho.
  apply (one_flusher_step _ l s1) in Hi; [|intros ->; simpl in Hn; destruct (s_fl s); simpl in *; [done|lia] |done].
  apply IH in Hi; [|lia]. rw Ho -app_assoc in Hi. by destruct l.
Qed.

Lemma one_flusher_init : one_flusher_inv qinit [].
Proof. done. Qed.

Lemma single_flusher_delivery ls s :
  qrun qinit ls s → starts ls ≤ 1 → one_flusher_inv s (appended 0 ls).
Proof. intros Hr Hn. by apply (one_flusher_run _ _ _ _ one_flusher_init Hn Hr). Qed.

Lemma bytes_of_app a b : bytes_of (a ++ b) = bytes_of a +:+ bytes_of b.
Proof. induction a as [|c a IH]; [done|]. simpl. by rw IH string_app_assoc. Qed.

Lemma appended_offsets o ls i c :
  (0 ≤ o < 2 ^ 64)%Z →
  appended o ls !! i = Some c →
  qc_offset c = ((o + blen (bytes_of (take i (appended o ls)))) mod 2 ^ 64)%Z.
Proof.
  revert o i. induction ls as [|l ls IH]; intros o i Ho H; [done|].
  destruct l as [d st now| | | | | | | | |]; simpl in *; try by apply IH.
  destruct i as [|i]; simpl in *.
  - simplify_eq. simpl. rw Z.add_0_r Z.mod_small //.
  - apply IH in H; [|unfold uint64_add; apply Z.mod_pos_bound; lia].
    rw H /uint64_add Zplus_mod_idemp_l. f_equal.
    unfold blen. rw string_length_app. lia.
Qed.

(** One emission of the head by flusher 0. *)
Definition deliver_one : list qlabel := [LWake 0; LEmitOk 0; LPop 0].

Lemma deliver_one_run q b sent c rest :
  q_items q = c :: rest →
  qrun (mkQsys q [mkFlusher FLoop b] sent false) deliver_one
       (mkQsys (q <| q_items := rest |>) [mkFlusher FLoop b] (sent ++ [c]) false).
Proof. intros Hq. apply qexec_run. destruct q as [items off cl]. simpl in *. by subst. Qed.

Lemma deliver_all_run items q b sent :
  q_items q = items →
  qrun (mkQsys q [mkFlusher FLoop b] sent false)
       (concat (replicate (length items) deliver_one))
       (mkQsys (q <| q_items := [] |>) [mkFlusher FLoop b] (sent ++ items) false).
Proof.
  revert q sent. induction items as [|c items IH]; intros q sent Hq.
  - destruct q as [i off cl]. simpl in *. subst. rw app_nil_r. constructor.
  - change (concat _) with (deliver_one ++ concat (replicate (length items) deliver_one)).
    eapply trace_run_app; [by apply deliver_one_run|].
    pose proof (IH (q <| q_items := items |>) (sent ++ [c]) eq_refl) as H.
    rw -app_assoc in H. destruct q. exact H.
Qed.

(** With every flusher gone, nothing is ever sent or popped again. *)
Definition all_done (s : qsys) : Prop := Forall (λ f, f_pc f = FDone) (s_fl s).

Lemma all_done_step s l s' :
  all_done s → is_start l = false → qstep s l = Some s' →
  all_done s' ∧ s_sent s' = s_sent s ∧
  q_items (s_q s') = q_items (s_q s) ++ appended (q_offset (s_q s)) [l] ∧
  q_closed (s_q s') = q_closed (s_q s) || is_stop l.
Proof.
  unfold all_done. destruct s as [[items off cl] fl sent pan]. simpl.
  intros Hd Hl Hs.
  destruct l as [d st now| | |i|i|i|i|i|i|i]; simpl in *; try done;
    try (by simplify_eq/=; rw ?app_nil_r ?orb_true_r ?orb_false_r);
    destruct (fl !! i) as [[pc b]|] eqn:Ei; simpl in *; try done;
    pose proof (Forall_lookup_1 _ _ _ _ Hd Ei) as Hpc; simpl in Hpc; subst pc;
    simplify_eq/=.
  rw app_nil_r orb_false_r. split; [|done]. by apply Forall_insert.
Qed.

Lemma all_done_run s ls s' :
  all_done s → starts ls = 0 → qrun s ls s' →
  all_done s' ∧ s_sent s' = s_sent s ∧
  q_items (s_q s') = q_items (s_q s) ++ appended (q_offset (s_q s)) ls ∧
  q_closed (s_q s') = q_closed (s_q s) || existsb is_stop ls.
Proof.
  intros Hd Hn Hr. induction Hr as [s|s l s1 ls s2 Hs Hr IH].
  { simpl. by rw app_nil_r orb_false_r. }
  rw starts_cons in Hn. destruct (is_start l) eqn:El; [done|].
  pose proof (qstep_offset _ _ _ Hs) as Ho.
  destruct (all_done_step _ _ _ Hd El Hs) as (Hd1 & Hs1 & Hi1 & Hc1).
  destruct (IH Hd1) as (Hd2 & Hs2 & Hi2 & Hc2); [lia|].
  split; [done|]. rw Hs2 Hi2 Hc2 Hs1 Hi1 Hc1 Ho -app_assoc.
  split; [done|]. split; [by destruct l|]. by rw /= orb_assoc.
Qed.

(** ** Properties *)

(** C2: In-order, exactly-once delivery with one flusher: whatever
    the interleaving of producers, send failures, back-offs, stops and
    cancellations, the chunks accepted by the stream followed by the chunks
    still owed are exactly the appended chunks in append order, and the pop
    never hits an empty slice. *)
Theorem queue_fifo_exactly_once ls s :
  qrun qinit ls s → starts ls ≤ 1 →
  s_sent s ++ undelivered s = appended 0 ls ∧ s_panic s = false.
Proof. intros Hr Hn. by destruct (single_flusher_delivery ls s Hr Hn) as (? & ? & _). Qed.

(** When [drain] returns on a queue that is not closed, every
    byte the session produced has been accepted by the stream, and the offset
    of each delivered chunk is the number of bytes before it (modulo 2^64), so
    the receiver can place it. *)
Theorem queue_drain_complete ls s :
  qrun qinit ls s → starts ls ≤ 1 →
  drain_returns (s_q s) = true → q_closed (s_q s) = false →
  s_sent s = appended 0 ls ∧
  ∀ i c, s_sent s !! i = Some c →
    qc_offset c = (blen (bytes_of (take i (s_sent s))) mod 2 ^ 64)%Z.
Proof.
  intros Hr Hn Hdr Hc. destruct (single_flusher_delivery ls s Hr Hn) as (_ & Hd & _).
  assert (undelivered s = []) as Hu.
  { unfold undelivered, drain_returns in *. destruct (q_items (s_q s)); [|congruence].
    by repeat case_match. }
  rw Hu app_nil_r in Hd. split; [done|]. intros i c Hi. rw Hd in Hi *.
  by apply (appended_offsets 0).
Qed.

(** Progress: while the stream accepts frames, the flusher
    empties a queue of any length in three critical sections per chunk, in
    order. *)
Theorem queue_flush_progress q b sent :
  qrun (mkQsys q [mkFlusher FLoop b] sent false)
       (concat (replicate (length (q_items q)) deliver_one))
       (mkQsys (q <| q_items := [] |>) [mkFlusher FLoop b] (sent ++ q_items q) false).
Proof. by apply deliver_all_run. Qed.

(** A restarted session loses its raw output: [stop] leaves
    [closed] set and [start] never clears it, so the flusher of the next run
    finds an empty closed queue and returns; whatever is appended afterwards
    is never sent, although [drain] reports completion. *)
Theorem queue_restart_never_flushes s ls s' :
  q_closed (s_q s) = true → q_items (s_q s) = [] → all_done s →
  starts ls = 0 →
  qrun s (LStart :: LWake (length (s_fl s)) :: ls) s' →
  s_sent s' = s_sent s ∧ q_items (s_q s') = appended (q_offset (s_q s)) ls ∧
  drain_returns (s_q s') = true.
Proof.
  intros Hc Hi Hd Hn Hr. destruct s as [[items off cl] fl sent pan]. simpl in *. subst.
  inversion Hr as [|? ? s1 ? ? H1 Hr1]; subst. injection H1 as <-.
  inversion Hr1 as [|? ? s2 ? ? H2 Hr2]; subst. unfold qstep_rel, qstep in H2. simpl in H2.
  rw list_lookup_middle in H2; [|done]. simpl in H2. injection H2 as <-.
  apply all_done_run in Hr2 as (_ & Hs & Hit & Hcl); [| |done].
  - simpl in *. split; [done|]. split; [done|].
    unfold drain_returns. rw Hcl. by case_match.
  - unfold all_done. simpl. rw insert_app_r_alt; [|lia]. rw Nat.sub_diag /=.
    apply Forall_app. split; [done|]. by repeat constructor.
Qed.

(** Deadlock of [drain]: when the run is cancelled while the
    stream is down, the flusher gives up with chunks still queued; from then on
    [drain] cannot return until somebody else starts or stops the queue, and
    in [run] the only [stop] is deferred after [drain] itself. *)
Theorem queue_drain_deadlock data :
  ∃ s, qrun qinit [LStart; LAppend data STDIO_STREAM_STDOUT 0; LWake 0; LEmitFail 0;
                   LCancel 0; LGiveUp 0] s ∧
  ∀ ls s', qrun s ls s' → starts ls = 0 → existsb is_stop ls = false →
    drain_returns (s_q s') = false.
Proof.
  eexists. split; [apply qexec_run; reflexivity|].
  intros ls s' Hr Hn Hs.
  apply all_done_run in Hr as (_ & _ & Hi & Hc); [|by repeat constructor|done].
  unfold drain_returns. rw Hc Hi Hs. done.
Qed.

(** Two live flushers (a run started while the previous run's
    flusher has not returned) can send one chunk twice and drop the next one:
    the second pop removes a chunk that was never sent. *)
Theorem queue_two_flushers_drop d1 d2 :
  ∃ ls s, qrun qinit ls s ∧ starts ls = 2 ∧
    appended 0 ls = [mkChunk d1 STDIO_STREAM_STDOUT 0 0;
                     mkChunk d2 STDIO_STREAM_STDOUT (uint64_add 0 (blen d1)) 0] ∧
    s_sent s = [mkChunk d1 STDIO_STREAM_STDOUT 0 0; mkChunk d1 STDIO_STREAM_STDOUT 0 0] ∧
    q_items (s_q s) = [] ∧ s_panic s = false.
Proof.
  exists [LStart; LAppend d1 STDIO_STREAM_STDOUT 0; LAppend d2 STDIO_STREAM_STDOUT 0;
          LStart; LWake 0; LWake 1; LEmitOk 0; LEmitOk 1; LPop 0; LPop 1].
  eexists. split; [apply qexec_run; reflexivity|]. done.
Qed.

(** ** pump *)
Fixpoint pump_chunks (o : Z) (reads : list read_result) (stream : StdioStream) : list queuedChunk :=
  match reads with
  | [] => []
  | r :: reads' =>
      (if (0 <? blen (rd_data r))%Z then [mkChunk (rd_data r) stream o (rd_now r)] else [])
      ++ (if rd_err r then [] else pump_chunks (uint64_add o (blen (rd_data r))) reads' stream)
  end.

(** The bytes read up to and including the first read that errors. *)
Fixpoint read_bytes (reads : list read_result) : string :=
  match reads with
  | [] => ""
  | r :: reads' => rd_data r +:+ (if rd_err r then "" else read_bytes reads')
  end.

Lemma pump_items q reads stream :
  (0 ≤ q_offset q < 2 ^ 64)%Z →
  q_items (pump q reads stream).1 = q_items q ++ pump_chunks (q_offset q) reads stream.
Proof.
  revert q. induction reads as [|r reads IH]; intros q Ho; [by rw app_nil_r|].
  simpl. destruct (0 <? blen (rd_data r))%Z eqn:E.
  - destruct (rd_err r); simpl; [done|].
    destruct (pump _ reads stream) as [q2 d2] eqn:Ep. simpl.
    specialize (IH (append q (rd_data r) stream (rd_now r))).
    rw Ep in IH. rw IH; [|apply Z.mod_pos_bound; lia]. by rw -app_assoc.
  - go_bool. assert (blen (rd_data r) = 0%Z) as Hz by (unfold blen in *; lia).
    destruct (rd_err r); simpl; [by rw app_nil_r|].
    destruct (pump q reads stream) as [q2 d2] eqn:Ep. simpl.
    specialize (IH q Ho). rw Ep in IH. rw IH /uint64_add Hz Z.add_0_r Z.mod_small //.
Qed.

(** [pump] forwards every byte it reads, in order, including
    the bytes that arrive together with the final error, and cuts none of the
    reads. *)
Theorem pump_preserves_bytes q reads stream :
  (0 ≤ q_offset q < 2 ^ 64)%Z →
  ∃ cs, q_items (pump q reads stream).1 = q_items q ++ cs ∧ bytes_of cs = read_bytes reads.
Proof.
  intros Ho. exists (pump_chunks (q_offset q) reads stream). split; [by apply pump_items|].
  generalize (q_offset q) as o. induction reads as [|r reads IH]; intros o; [done|].
  simpl. rw bytes_of_app. f_equal.
  - destruct (0 <? blen (rd_data r))%Z eqn:E; simpl; [by rw string_app_nil_r|].
    go_bool. unfold blen in E. destruct (rd_data r); simpl in *; [done|lia].
  - destruct (rd_err r); [done|apply IH].
Qed.

(** ** The theorems at concrete inputs *)
Module QueueWitness.
Definition ls : list qlabel :=
  [LStart; LAppend "one" STDIO_STREAM_STDOUT 1; LAppend "two" STDIO_STREAM_STDERR 2] ++ deliver_one ++ deliver_one.
Definition out : qsys := default qinit (qexec qinit ls).
Lemma run : qrun qinit ls out.
Proof. apply qexec_run. reflexivity. Defined.

Lemma queue_fifo_exactly_once_witness :
  s_sent out ++ undelivered out = appended 0 ls ∧ s_panic out = false.
Proof. apply (queue_fifo_exactly_once ls out run). vm_compute. lia. Defined.

Lemma queue_drain_complete_witness :
  s_sent out = appended 0 ls ∧ length (s_sent out) = 2.
Proof. split; [|reflexivity]. apply (queue_drain_complete ls out run); [vm_compute; lia|reflexivity..]. Defined.

Definition stopped : qsys := mkQsys (mkQueue [] 6 true) [mkFlusher FDone true] [] false.
Definition again : list qlabel := [LStart; LWake 1; LAppend "lost" STDIO_STREAM_STDOUT 9].
Definition stopped' : qsys := default qinit (qexec stopped again).
Lemma queue_restart_never_flushes_witness :
  s_sent stopped' = [] ∧ q_items (s_q stopped') = [mkChunk "lost" STDIO_STREAM_STDOUT 6 9] ∧
  drain_returns (s_q stopped') = true.
Proof.
  apply (queue_restart_never_flushes stopped [LAppend "lost" STDIO_STREAM_STDOUT 9] stopped');
    [reflexivity|reflexivity|by repeat constructor|reflexivity|apply qexec_run; reflexivity].
Defined.

Lemma pump_preserves_bytes_witness :
  ∃ cs, q_items (pump newOutputQueue [mkRead "ab" false 0; mkRead "c" true 1] STDIO_STREAM_STDOUT).1 = [] ++ cs ∧
        bytes_of cs = "abc".
Proof.
  apply (pump_preserves_bytes newOutputQueue [mkRead "ab" false 0; mkRead "c" true 1] STDIO_STREAM_STDOUT).
  vm_compute. split; congruence.
Defined.
End QueueWitness.
