(* ===== verification/StreamParser.v ===== *)
(** * StreamParser: reading a session's stdout (execution/stream_parser.go)

    [pumpParsedStdout] splits the runtime's stdout into lines with a
    bufio.Scanner, appends every line to the output queue and forwards the
    structured frames.  [scan] is the scanner with its limit of 8 MiB on a
    line and its newline, [pumpParsedStdout] the loop over its lines.  The
    sequence numbers come from the session's structSeq; the input statuses of
    [Session.emitInputStatus] take theirs from the same counter. *)
From S2P Require Import Prelude GoStrings GoJson OutputQueue.
From Stdlib Require Import Ascii.

(** ** bufio.Scanner with ScanLines and scanner.Buffer(_, 8<<20) *)
Definition maxTokenSize : N := 8388608.
Definition newline : ascii := "010".
Definition NL : string := String newline "".
(** dropCR *)
Definition dropCR (s : string) : string :=
  match string_reverse s with
  | String c r => if is_code 13 c then string_reverse r else s
  | EmptyString => s
  end.
(** The text cut at its newlines; the last piece is empty exactly when the
    text ends with a newline or is empty. *)
Fixpoint raw_lines (s : string) : list string :=
  match s with
  | EmptyString => [""]
  | String c r =>
      if Ascii.eqb c newline then "" :: raw_lines r
      else match raw_lines r with l :: ls => String c l :: ls | [] => [String c ""] end
  end.
(** The buffer must hold a line and its newline, or have room to read the EOF. *)
Definition fits (line : string) : bool := (N.of_nat (String.length line) <? maxTokenSize)%N.
(** The tokens: a line that does not fit ends the scan; an empty rest is no
    token. *)
Fixpoint tokens (ls : list string) : list string :=
  match ls with
  | [] => []
  | [l] => if fits l && negb (String.eqb l "") then [dropCR l] else []
  | l :: ls => if fits l then dropCR l :: tokens ls else []
  end.
Definition scan (s : string) : list string := tokens (raw_lines s).

(** ** Fields *)
Definition jsonStringField (m : list (string * json)) (key : string) : string :=
  match field m key with Some (JString s) => s | _ => "" end.
Definition firstNonEmpty (values : list string) : string :=
  default "" (head (filter (λ v, v ≠ "") values)).
Definition canonicalEventKind (itemType : string) : string :=
  if String.eqb itemType "agent_message" then "message"
  else if String.eqb itemType "reasoning" then "reasoning"
  else if existsb (String.eqb itemType) ["tool_call"; "command_execution"; "mcp_tool_call"; "file_change"; "web_search"] then "tool"
  else if String.eqb itemType "error" then "error" else "".

Record structured_event := mkEvent {
  ev_Seq : Z; ev_EventType : string; ev_ItemType : string; ev_AgentId : string; ev_LogicalEventId : string;
  ev_EventName : string; ev_EventKind : string; ev_ToolName : string; ev_SubagentId : string;
  ev_Phase : string; ev_Status : string; ev_PayloadJson : string }.

(** A sub-object of a frame: [None] when it is absent or not an object. *)
Definition sub_map (m : list (string * json)) (key : string) : option (list (string * json)) := v ← field m key; as_map v.
(** The item type of an agent_event: its item, else message, else event.item. *)
Definition item_type (frame : list (string * json)) : string :=
  let t := match sub_map frame "item" with Some item => jsonStringField item "type" | None => "" end in
  let t := if String.eqb t "" then match sub_map frame "message" with Some msg => jsonStringField msg "type" | None => "" end else t in
  if String.eqb t "" then
    match sub_map frame "event" with
    | Some evt => match sub_map evt "item" with Some item => jsonStringField item "type" | None => "" end
    | None => ""
    end
  else t.
(** emitStructuredEvent, with the sequence number it takes *)
Definition structuredEvent (seq : Z) (frameType : string) (frame : list (string * json)) (rawLine : string) : structured_event :=
  let f := jsonStringField frame in
  let agentEvent := String.eqb frameType "agent_event" in
  let agentID := if agentEvent then f "agent_id" else "" in
  let item := if agentEvent then default [] (sub_map frame "item") else [] in
  let i := jsonStringField item in
  let itemType := if agentEvent then item_type frame else "" in
  let logicalEventID := firstNonEmpty [f "logical_event_id"; i "logical_event_id"; i "id"] in
  let subagentID := firstNonEmpty [f "subagent_id"; agentID; i "subagent_id"] in
  let eventKind := firstNonEmpty [f "event_kind"; i "event_kind"] in
  mkEvent seq frameType itemType agentID
    (if String.eqb logicalEventID "" then f "id" else logicalEventID)
    (if String.eqb (f "event_name") "" then frameType else f "event_name")
    (if String.eqb eventKind "" then canonicalEventKind itemType else eventKind)
    (firstNonEmpty [f "tool_name"; i "tool_name"; i "title"])
    (if String.eqb subagentID "" then agentID else subagentID)
    (firstNonEmpty [f "phase"; i "phase"]) (firstNonEmpty [f "status"; i "status"]) rawLine.

(** ** The loop *)
Definition runtimeResultPrefix : string := "__AGENT_RESULT__".
Inductive line_kind :=
| LRaw                                                       (** delivered raw only *)
| LResult (resultJSON : string)                              (** a one-shot prompt's result *)
| LFrame (frameType : string) (frame : list (string * json)).  (** a stream frame *)
Definition classify (trimmed : string) : line_kind :=
  if String.eqb trimmed "" then LRaw else
  if HasPrefix trimmed runtimeResultPrefix then LResult (TrimSpace (TrimPrefix trimmed runtimeResultPrefix)) else
  if negb (HasPrefix trimmed "{") then LRaw else
  match unmarshal_map trimmed with
  | None => LRaw
  | Some frame => let frameType := jsonStringField frame "type" in
                  if String.eqb frameType "" then LRaw else LFrame frameType frame
  end.
Record pump_state := mkPump {
  ps_queue : outputQueue; ps_structSeq : Z; ps_result : string; ps_events : list structured_event }.
#[export] Instance eta_pump_state : Settable pump_state := λ s,
  mkPump (ps_queue s) (ps_structSeq s) (ps_result s) (ps_events s).
(** One iteration at time [now]; [wired]: m.emitStructured is not nil *)
Definition pump_line (wired : bool) (s : pump_state) (now : Z) (line : string) : pump_state :=
  let s := s <| ps_queue := append (ps_queue s) (line +:+ NL) STDIO_STREAM_STDOUT now |> in
  let trimmed := TrimSpace line in
  match classify trimmed with
  | LRaw => s
  | LResult r => s <| ps_result := r |>
  | LFrame frameType frame =>
      let s := if String.eqb frameType "result" then s <| ps_result := trimmed |> else s in
      if wired then
        s <| ps_events := ps_events s ++ [structuredEvent (ps_structSeq s) frameType frame trimmed] |>
          <| ps_structSeq := uint64_add (ps_structSeq s) 1 |>
      else s
  end.
(** [now k]: the time of the k-th line *)
Definition pumpParsedStdout (wired : bool) (now : nat → Z) (s : pump_state) (stdout : string) : pump_state :=
  foldl (λ s '(k, line), pump_line wired s (now k) line) s (imap pair (scan stdout)).

(** ** The raw stream *)
Definition no_newline (s : string) : bool := all_chars (λ c, negb (Ascii.eqb c newline)) s.
(** Lines, each ended by a newline. *)
Definition unlines (ls : list string) : string := foldr (λ l s, l +:+ (NL +:+ s)) "" ls.
Lemma raw_lines_cons s : ∃ l ls, raw_lines s = l :: ls.
Proof. destruct s as [|c s]; simpl; [by eauto |]. destruct (Ascii.eqb c newline); [by eauto |]. destruct (raw_lines s); eauto. Qed.
Lemma raw_lines_line l s : no_newline l = true → raw_lines (l +:+ (NL +:+ s)) = l :: raw_lines s.
Proof.
  induction l as [|c l IH]; [done |]. rw /no_newline /= => /andb_true_iff [Hc Hl].
  change (String c l +:+ (NL +:+ s)) with (String c (l +:+ (NL +:+ s))). cbn [raw_lines].
  apply negb_true_iff in Hc. by rw Hc IH.
Qed.
Lemma raw_lines_last l : no_newline l = true → raw_lines l = [l].
Proof.
  induction l as [|c l IH]; [done |]. rw /no_newline /= => /andb_true_iff [Hc Hl].
  apply negb_true_iff in Hc. by rw Hc IH.
Qed.
Lemma raw_lines_unlines ls s : Forall (λ l, no_newline l = true) ls → raw_lines (unlines ls +:+ s) = ls ++ raw_lines s.
Proof.
  induction 1 as [|l ls Hl _ IH]; [done |]. simpl unlines. rw -!string_app_assoc raw_lines_line // IH //.
Qed.
Lemma tokens_app ls l rest : Forall (λ l, fits l = true) ls →
  tokens (ls ++ l :: rest) = map dropCR ls ++ tokens (l :: rest).
Proof.
  induction 1 as [|x ls Hx _ IH]; [done |]. simpl. rw -IH. destruct ls; simpl; by rw Hx.
Qed.
Lemma scan_unlines ls last :
  Forall (λ l, no_newline l = true) ls → Forall (λ l, fits l = true) ls → no_newline last = true → fits last = true →
  scan (unlines ls +:+ last) = map dropCR ls ++ (if String.eqb last "" then [] else [dropCR last]).
Proof.
  intros Hn Hf Hl Hfl. rw /scan raw_lines_unlines // raw_lines_last // tokens_app // /= Hfl /=.
  by destruct (String.eqb last "").
Qed.
Lemma scan_long ls long rest :
  Forall (λ l, no_newline l = true) ls → Forall (λ l, fits l = true) ls → no_newline long = true → fits long = false →
  scan (unlines ls +:+ (long +:+ (NL +:+ rest))) = map dropCR ls.
Proof.
  intros Hn Hf Hl Hfl. rw /scan raw_lines_unlines // raw_lines_line // tokens_app // /=.
  destruct (raw_lines_cons rest) as (l & r & ->). rw Hfl app_nil_r //.
Qed.

Lemma pump_line_queue wired s now line :
  ps_queue (pump_line wired s now line) = append (ps_queue s) (line +:+ NL) STDIO_STREAM_STDOUT now.
Proof. rw /pump_line. destruct (classify _), wired; repeat case_match; done. Qed.
Definition pump_lines (wired : bool) (now : nat → Z) (k : nat) (s : pump_state) (ls : list string) : pump_state :=
  foldl (λ s '(k, line), pump_line wired s (now k) line) s (imap (λ i l, (k + i, l)) ls).
Lemma pump_lines_cons wired now k s l ls :
  pump_lines wired now k s (l :: ls) = pump_lines wired now (S k) (pump_line wired s (now k) l) ls.
Proof.
  rw /pump_lines /= Nat.add_0_r. f_equal. apply imap_ext => i x _ /=. by rw Nat.add_succ_r.
Qed.
Lemma pump_lines_queue wired now k s ls :
  let q := ps_queue s in let q' := ps_queue (pump_lines wired now k s ls) in
  map qc_data (q_items q') = map qc_data (q_items q) ++ map (λ l, l +:+ NL) ls ∧
  map qc_stream (q_items q') = map qc_stream (q_items q) ++ map (λ _, STDIO_STREAM_STDOUT) ls.
Proof.
  cbv zeta. revert k s. induction ls as [|l ls IH]; intros k s; [by rw /pump_lines /= !app_nil_r |].
  rw pump_lines_cons. destruct (IH (S k) (pump_line wired s (now k) l)) as [-> ->].
  rw pump_line_queue /= !map_app -!app_assoc //.
Qed.
Lemma pump_lines_chunks wired now k s ls :
  map (λ c, (qc_data c, qc_stream c)) (q_items (ps_queue (pump_lines wired now k s ls))) =
  map (λ c, (qc_data c, qc_stream c)) (q_items (ps_queue s)) ++ map (λ l, (l +:+ NL, STDIO_STREAM_STDOUT)) ls.
Proof.
  revert k s. induction ls as [|l ls IH]; intros k s; [by rw /pump_lines /= app_nil_r |].
  rw pump_lines_cons IH pump_line_queue /= map_app -app_assoc //.
Qed.
Definition concat_strings (l : list string) : string := foldr (λ a b, a +:+ b) "" l.
Lemma concat_unlines ls : concat_strings (map (λ l, l +:+ NL) ls) = unlines ls.
Proof. induction ls as [|l ls IH]; [done |]. simpl. rw IH string_app_assoc //. Qed.
Lemma unlines_app a b : unlines (a ++ b) = unlines a +:+ unlines b.
Proof. induction a as [|l a IH]; [done |]. simpl. rw IH -!string_app_assoc //. Qed.

(** What stdout must look like to be read to its end. *)
Definition readable_line (l : string) : Prop := no_newline l = true ∧ fits l = true.
(** The bytes a pump adds to a queue. *)
Definition pumped (wired : bool) (now : nat → Z) (s : pump_state) (stdout : string) : string :=
  concat_strings (map qc_data (drop (length (q_items (ps_queue s)))
    (q_items (ps_queue (pumpParsedStdout wired now s stdout))))).
Lemma pumped_scan wired now s stdout : pumped wired now s stdout = unlines (scan stdout).
Proof.
  rw /pumped /pumpParsedStdout -/(pump_lines wired now 0 s (scan stdout)).
  destruct (pump_lines_queue wired now 0 s (scan stdout)) as [H _].
  rw -concat_unlines. f_equal. rw -(length_map qc_data).
  etrans; [apply (fmap_drop qc_data) |].
  etrans; [exact (f_equal (drop _) H) |]. apply drop_app_length.
Qed.

(** The line limit and the carriage returns: a line that does not fit ends the
    reading, and a carriage return before a newline is not forwarded. *)
Lemma stdout_after_long_line wired now s ls long rest :
  Forall readable_line ls → no_newline long = true → (maxTokenSize <= N.of_nat (String.length long))%N →
  pumped wired now s (unlines ls +:+ (long +:+ (NL +:+ rest))) = unlines (map dropCR ls).
Proof.
  intros Hls Hl Hlen. rw pumped_scan scan_long // /fits; [| | by apply N.ltb_ge]; eapply Forall_impl; try exact Hls; by intros l [].
Qed.
Lemma stdout_crlf_rewritten :
  let CR := String "013" "" in
  pumped true (λ _, 0%Z) (mkPump newOutputQueue 0 "" []) ("a" +:+ CR +:+ NL) = "a" +:+ NL.
Proof. vm_compute. reflexivity. Qed.
Lemma scan_plain ls : Forall readable_line ls → Forall (λ l, dropCR l = l) ls → scan (unlines ls) = ls.
Proof.
  intros Hls Hcr. rw -(string_app_nil_r (unlines ls)) scan_unlines //; [| eapply Forall_impl; [exact Hls | by intros l []]..].
  rw /= app_nil_r. clear Hls. induction Hcr as [|l ls Hl _ IH]; [done |]. simpl. by rw Hl IH.
Qed.

(** ** The structured events *)
Definition frame_line (line : string) : option (string * list (string * json) * string) :=
  let trimmed := TrimSpace line in
  match classify trimmed with LFrame t f => Some (t, f, trimmed) | _ => None end.
Definition result_line (line : string) : option string :=
  let trimmed := TrimSpace line in
  match classify trimmed with
  | LResult r => Some r
  | LFrame t _ => if String.eqb t "result" then Some trimmed else None
  | LRaw => None
  end.
Definition event_at (seq : Z) (k : nat) (x : string * list (string * json) * string) : structured_event :=
  let '(t, f, raw) := x in structuredEvent ((seq + Z.of_nat k) mod 2 ^ 64) t f raw.
Lemma classify_frame s t f : classify s = LFrame t f → t ≠ "" ∧ unmarshal_map s = Some f ∧ jsonStringField f "type" = t.
Proof.
  rw /classify. destruct (String.eqb s ""); [done |]. destruct (HasPrefix s runtimeResultPrefix); [done |].
  destruct (negb (HasPrefix s "{")); [done |]. destruct (unmarshal_map s) as [m|]; [| done].
  destruct (String.eqb_spec (jsonStringField m "type") ""); [done |]. by intros [= <- <-].
Qed.
Lemma pump_line_spec s now line :
  let s' := pump_line true s now line in
  ps_result s' = default (ps_result s) (result_line line) ∧
  ps_events s' = ps_events s ++ match frame_line line with
                                | Some (t, f, raw) => [structuredEvent (ps_structSeq s) t f raw]
                                | None => []
                                end ∧
  ps_structSeq s' = match frame_line line with Some _ => uint64_add (ps_structSeq s) 1 | None => ps_structSeq s end.
Proof.
  cbv zeta. rw /pump_line /result_line /frame_line. destruct (classify (TrimSpace line)); rw /= ?app_nil_r //.
  by destruct (String.eqb frameType "result").
Qed.
Lemma uint64_add_mod seq k :
  ((uint64_add seq 1 + Z.of_nat k) mod 2 ^ 64 = (seq + Z.of_nat (S k)) mod 2 ^ 64)%Z.
Proof. rw /uint64_add Z.add_mod_idemp_l //. f_equal. lia. Qed.
Lemma pump_lines_spec now k s ls :
  (0 ≤ ps_structSeq s < 2 ^ 64)%Z →
  let s' := pump_lines true now k s ls in
  ps_result s' = default (ps_result s) (last (omap result_line ls)) ∧
  ps_events s' = ps_events s ++ imap (event_at (ps_structSeq s)) (omap frame_line ls).
Proof.
  cbv zeta. revert k s. induction ls as [|l ls IH]; intros k s Hseq; [by rw /pump_lines /= app_nil_r |].
  rw pump_lines_cons. destruct (pump_line_spec s (now k) l) as (Hr & He & Hs).
  set (s1 := pump_line true s (now k) l) in *.
  assert (0 ≤ ps_structSeq s1 < 2 ^ 64)%Z as Hseq1.
  { rw Hs. destruct (frame_line l); [| done]. rw /uint64_add. apply Z.mod_pos_bound. lia. }
  destruct (IH (S k) s1 Hseq1) as [-> ->]. split.
  - rw Hr. change (omap result_line (l :: ls)) with
      (match result_line l with Some r => r :: omap result_line ls | None => omap result_line ls end).
    destruct (result_line l) as [r|]; [simpl default | done]. generalize (omap result_line ls). intros [|r' rs]; [done |].
    rw last_cons_cons. by destruct (proj2 (last_is_Some (r' :: rs)) ltac:(done)) as [x ->].
  - rw He -app_assoc. f_equal. simpl. destruct (frame_line l) as [[[t f] raw]|]; [| by rw Hs].
    rw imap_cons /event_at /= Z.add_0_r Z.mod_small //. f_equal. rw Hs. apply imap_ext => i [[t' f'] raw'] _ /=.
    by rw uint64_add_mod.
Qed.

(** Reading stdout emits one event per stream frame with a
    type, in order, numbered consecutively (modulo 2^64) from the session's
    counter; an event's payload is the trimmed line, which parses to an
    object whose type is the event's type, and its name is never empty; the
    result returned is that of the last line that carries one. *)
Theorem stdout_events now s stdout :
  (0 ≤ ps_structSeq s < 2 ^ 64)%Z → ps_events s = [] →
  let s' := pumpParsedStdout true now s stdout in
  ps_events s' = imap (event_at (ps_structSeq s)) (omap frame_line (scan stdout)) ∧
  (∀ e, e ∈ ps_events s' → ev_EventType e ≠ "" ∧ ev_EventName e ≠ "" ∧
     (∃ line, line ∈ scan stdout ∧ ev_PayloadJson e = TrimSpace line) ∧
     ∃ f, unmarshal_map (ev_PayloadJson e) = Some f ∧ jsonStringField f "type" = ev_EventType e) ∧
  ps_result s' = default (ps_result s) (last (omap result_line (scan stdout))).
Proof.
  intros Hseq He. cbv zeta. rw /pumpParsedStdout -/(pump_lines true now 0 s (scan stdout)).
  destruct (pump_lines_spec now 0 s (scan stdout) Hseq) as [Hr Hev]. rw He /= in Hev.
  split_and!; [done | | done]. intros e. rw Hev elem_of_lookup_imap. intros (i & [[t f] raw] & -> & Hi).
  apply list_elem_of_lookup_2, list_elem_of_omap in Hi as (line & Hin & Hl). rw /frame_line in Hl.
  destruct (classify (TrimSpace line)) eqn:Hc; simplify_eq. destruct (classify_frame _ _ _ Hc) as (Ht & Hm & Hf).
  simpl. split_and!; [done | | by eauto | by eauto]. destruct (String.eqb_spec (jsonStringField f "event_name") ""); done.
Qed.

(** C14: When every line of stdout is ended, is shorter than the scanner's
    8 MiB and does not end in a carriage return, the output queue receives the
    very bytes of stdout, one chunk per line, whatever the lines are; beside
    that each line that is a JSON object with a type is forwarded as one
    structured event with that type and the trimmed line as payload, in
    order and nothing else, and the result returned is that of the last line
    that carries one (a result frame or a prompt's result line). *)
Theorem stdout_raw_stream now s ls :
  Forall readable_line ls → Forall (λ l, dropCR l = l) ls → (0 ≤ ps_structSeq s < 2 ^ 64)%Z →
  let s' := pumpParsedStdout true now s (unlines ls) in
  map (λ c, (qc_data c, qc_stream c)) (q_items (ps_queue s')) =
    map (λ c, (qc_data c, qc_stream c)) (q_items (ps_queue s)) ++ map (λ l, (l +:+ NL, STDIO_STREAM_STDOUT)) ls ∧
  pumped true now s (unlines ls) = unlines ls ∧
  map (λ e, (ev_EventType e, ev_PayloadJson e)) (ps_events s') =
    map (λ e, (ev_EventType e, ev_PayloadJson e)) (ps_events s) ++
    map (λ x, (x.1.1, x.2)) (omap frame_line ls) ∧
  ps_result s' = default (ps_result s) (last (omap result_line ls)).
Proof.
  intros Hls Hcr Hseq. cbv zeta. pose proof (scan_plain ls Hls Hcr) as Hscan.
  split_and!; [| by rw pumped_scan Hscan | |].
  all: rw /pumpParsedStdout Hscan -/(pump_lines true now 0 s ls).
  - apply pump_lines_chunks.
  - destruct (pump_lines_spec now 0 s ls Hseq) as [_ ->]. rw map_app. f_equal.
    etrans; [apply fmap_imap |]. etrans; [| apply (imap_const (λ x, (x.1.1, x.2)))]. apply imap_ext. by intros i [[t f] raw] _.
  - by destruct (pump_lines_spec now 0 s ls Hseq) as [-> _].
Qed.

Module ParserWitness.
(** Quotation marks are written as apostrophes. *)
Fixpoint quotes (s : string) : string :=
  match s with String c r => String (if is_code 39 c then "034"%char else c) (quotes r) | EmptyString => "" end.
Definition s0 : pump_state := mkPump newOutputQueue 7 "" [].
Definition lines : list string :=
  ["hello"; quotes "{'type':'agent_event','item':{'type':'tool_call','title':'ls'},'agent_id':'a1'}"; "{broken";
   quotes " {'seq':2,'type':'result','finalText':'\u00e9'}"].
Lemma readable_lines : Forall readable_line lines.
Proof. repeat (apply Forall_cons; split; [split; vm_compute; reflexivity |]). apply Forall_nil. exact I. Defined.
Lemma plain_lines : Forall (λ l, dropCR l = l) lines.
Proof. repeat (apply Forall_cons; split; [vm_compute; reflexivity |]). apply Forall_nil. exact I. Defined.
Lemma stdout_raw_stream_witness :
  pumped true (λ _, 0%Z) s0 (unlines lines) = unlines lines ∧
  map ev_EventType (ps_events (pumpParsedStdout true (λ _, 0%Z) s0 (unlines lines))) = ["agent_event"; "result"].
Proof.
  split; [| vm_compute; reflexivity].
  apply (stdout_raw_stream (λ _, 0%Z) s0 lines readable_lines plain_lines ltac:(done)).
Defined.
Lemma stdout_events_witness :
  ps_result (pumpParsedStdout true (λ _, 0%Z) s0 (unlines lines)) = TrimSpace (quotes " {'seq':2,'type':'result','finalText':'\u00e9'}") ∧
  map (λ e, (ev_Seq e, ev_ItemType e, ev_EventKind e, ev_ToolName e, ev_SubagentId e))
    (ps_events (pumpParsedStdout true (λ _, 0%Z) s0 (unlines lines))) =
  [(7%Z, "tool_call", "tool", "ls", "a1"); (8%Z, "", "", "", "")].
Proof.
  destruct (stdout_events (λ _, 0%Z) s0 (unlines lines)) as (He & _ & Hr); [done | done |].
  rw Hr He. split; vm_compute; reflexivity.
Defined.
End ParserWitness.
