(* ===== verification/Totp.v ===== *)
(** * Totp: one-time passwords (common/auth/totp/totp.go)

    The RFC 6238 code a node sends when it registers, the validator with its
    step window, and the replay cache.  The hash functions and the base32
    codec the package takes from Go's standard library are modelled here too
    ([Sha1], [Base32]), so codes evaluate; the RFC's test vectors do. *)
From S2P Require Import Prelude GoStrings.
From Stdlib Require Import Ascii ZifyBool ZifyN.
Open Scope Z_scope.

(** ** crypto/sha1 and crypto/hmac; a byte is a [Z] in [0, 256) *)
Module Sha1.
Definition mask32 : Z := 2 ^ 32 - 1.
Definition w32 (x : Z) : Z := Z.land x mask32.
Definition rotl (n x : Z) : Z := w32 (Z.lor (Z.shiftl x n) (Z.shiftr x (32 - n))).

(** [n] big-endian bytes of [x] *)
Fixpoint be_bytes (n : nat) (x : Z) : list Z :=
  match n with
  | O => []
  | S n => Z.land (Z.shiftr x (8 * Z.of_nat n)) 255 :: be_bytes n x
  end.
Definition be_word (bs : list Z) : Z := foldl (λ acc b, Z.lor (Z.shiftl acc 8) b) 0 bs.

Definition pad (msg : list Z) : list Z :=
  let len := Z.of_nat (length msg) in
  let zeros := Z.to_nat ((55 - len) mod 64) in
  msg ++ [128] ++ replicate zeros 0 ++ be_bytes 8 (8 * len).

Fixpoint chunks {A} (fuel n : nat) (l : list A) : list (list A) :=
  match fuel, l with
  | O, _ | _, [] => []
  | S fuel, _ => take n l :: chunks fuel n (drop n l)
  end.

(** The schedule, most recent word first. *)
Fixpoint schedule (n : nat) (ws : list Z) : list Z :=
  match n with
  | O => ws
  | S n =>
      let w i := nth i ws 0 in
      schedule n (rotl 1 (Z.lxor (Z.lxor (w 2%nat) (w 7%nat)) (Z.lxor (w 13%nat) (w 15%nat))) :: ws)
  end.

Definition round_f (t : nat) (b c d : Z) : Z * Z :=
  if (t <? 20)%nat then (Z.lor (Z.land b c) (Z.land (Z.lxor b mask32) d), 0x5A827999)
  else if (t <? 40)%nat then (Z.lxor (Z.lxor b c) d, 0x6ED9EBA1)
  else if (t <? 60)%nat then
    (Z.lor (Z.lor (Z.land b c) (Z.land b d)) (Z.land c d), 0x8F1BBCDC)
  else (Z.lxor (Z.lxor b c) d, 0xCA62C1D6).

Fixpoint rounds (t : nat) (ws : list Z) (st : Z * Z * Z * Z * Z) : Z * Z * Z * Z * Z :=
  match ws with
  | [] => st
  | w :: ws =>
      let '(a, b, c, d, e) := st in
      let '(f, k) := round_f t b c d in
      rounds (S t) ws (w32 (rotl 5 a + f + e + k + w), a, rotl 30 b, c, d)
  end.

Definition block (h : Z * Z * Z * Z * Z) (b : list Z) : Z * Z * Z * Z * Z :=
  let words := map be_word (chunks 16 4 b) in
  let ws := rev (schedule 64 (rev words)) in
  let '(a0, b0, c0, d0, e0) := h in
  let '(a, b, c, d, e) := rounds 0 ws h in
  (w32 (a0 + a), w32 (b0 + b), w32 (c0 + c), w32 (d0 + d), w32 (e0 + e)).

Definition init : Z * Z * Z * Z * Z :=
  (0x67452301, 0xEFCDAB89, 0x98BADCFE, 0x10325476, 0xC3D2E1F0).

Definition sum (msg : list Z) : list Z :=
  let p := pad msg in
  let '(a, b, c, d, e) := foldl block init (chunks (length p) 64 p) in
  be_bytes 4 a ++ be_bytes 4 b ++ be_bytes 4 c ++ be_bytes 4 d ++ be_bytes 4 e.

Definition hmac (key msg : list Z) : list Z :=
  let k := if (64 <? length key)%nat then sum key else key in
  let k := k ++ replicate (64 - length k) 0 in
  sum (map (Z.lxor 0x5c) k ++ sum (map (Z.lxor 0x36) k ++ msg)).

Lemma length_be_bytes n x : length (be_bytes n x) = n.
Proof. induction n; simpl; congruence. Qed.
Lemma length_sum msg : length (sum msg) = 20%nat.
Proof.
  unfold sum. destruct (foldl _ _ _) as [[[[a b] c] d] e].
  by rw !length_app !length_be_bytes.
Qed.
Lemma length_hmac key msg : length (hmac key msg) = 20%nat.
Proof. apply length_sum. Qed.
End Sha1.

(** ** encoding/base32, standard alphabet, no padding *)
Module Base32.
Definition alphabet : string := "ABCDEFGHIJKLMNOPQRSTUVWXYZ234567".
Definition bits_of_byte (b : Z) : list bool :=
  map (λ i, Z.testbit b (Z.of_nat i)) [7; 6; 5; 4; 3; 2; 1; 0]%nat.
Definition Z_of_bits (bs : list bool) : Z := foldl (λ acc (b : bool), 2 * acc + Z.b2z b) 0 bs.
Definition quintet (bs : list bool) : nat := Z.to_nat (Z_of_bits bs).
Definition bits_of_quintet (q : nat) : list bool :=
  map (λ i, Z.testbit (Z.of_nat q) (Z.of_nat i)) [4; 3; 2; 1; 0]%nat.

Definition char_of (q : nat) : ascii :=
  match String.get q alphabet with Some c => c | None => "A"%char end.
Fixpoint string_of_list (l : list ascii) : string :=
  match l with [] => EmptyString | c :: l => String c (string_of_list l) end.
Fixpoint index_of (c : ascii) (s : string) : option nat :=
  match s with
  | EmptyString => None
  | String a s => if Ascii.eqb a c then Some O else S <$> index_of c s
  end.

(** A group of at most five bytes: its bits in groups of five, the last one
    filled with zero bits. *)
Definition encode_group (bs : list Z) : list ascii :=
  let bits := concat (map bits_of_byte bs) in
  let n := ((length bits + 4) / 5)%nat in
  let padded := bits ++ replicate (5 * n - length bits) false in
  map (λ g, char_of (quintet g)) (Sha1.chunks n 5 padded).

Definition EncodeToString (bs : list Z) : string :=
  string_of_list (concat (map encode_group (Sha1.chunks (length bs) 5 bs))).

(** Decoding a group of up to eight characters: the number of bytes by the
    number of characters present, as in the decoder's switch on [dlen]. *)
Definition group_bytes (dlen : nat) : nat :=
  match dlen with
  | 8 => 5 | 7 => 4 | 5 => 3 | 4 => 2 | 2 => 1 | _ => 0
  end%nat.
Definition decode_group (qs : list nat) : list Z :=
  let bits := concat (map bits_of_quintet qs) in
  map Z_of_bits (Sha1.chunks (group_bytes (length qs)) 8 bits).

Fixpoint digits (s : string) : option (list nat) :=
  match s with
  | EmptyString => Some []
  | String c s => q ← index_of c alphabet; qs ← digits s; Some (q :: qs)
  end.
Definition DecodeString (s : string) : option (list Z) :=
  qs ← digits s; Some (concat (map decode_group (Sha1.chunks (length qs) 8 qs))).
End Base32.

(** ** Constants *)
Definition TimeStep : Z := 30.
Definition Digits : nat := 6.
Definition SecretBytes : nat := 20.
Definition StepWindow : Z := 2.
Definition second : Z := 1000000000.   (** time.Second *)

(** ** Secrets *)
(** [rand.Read(buf)] either fails or fills the buffer with 20 bytes. *)
Definition GenerateSecret (read : option (list Z)) : result string :=
  match read with
  | None => Err "generate totp secret"
  | Some buf => Ok (Base32.EncodeToString buf)
  end.

(** strings.Join(strings.Fields(s), ""): the string without its white space *)
Fixpoint remove_spaces (s : string) : string :=
  match s with
  | EmptyString => EmptyString
  | String a s1 =>
      if space1 a then remove_spaces s1 else
      match s1 with
      | EmptyString => s
      | String b s2 =>
          if space2 a b then remove_spaces s2 else
          match s2 with
          | EmptyString => String a (remove_spaces s1)
          | String c s3 =>
              if space3 a b c then remove_spaces s3 else String a (remove_spaces s1)
          end
      end
  end.
Definition DecodeSecret (encoded : string) : result (list Z) :=
  let cleaned := ToUpper (remove_spaces encoded) in
  match Base32.DecodeString cleaned with
  | None => Err "decode totp secret"
  | Some [] => Err "decode totp secret: empty"
  | Some decoded => Ok decoded
  end.

(** ** Codes *)
(** fmt.Sprintf("%0*d", Digits, code) *)
Definition zero_pad (width : nat) (s : string) : string :=
  Base32.string_of_list (replicate (width - String.length s) "0"%char) +:+ s.

Definition generateAtCounter (secret : list Z) (counter : Z) : string :=
  let sum := Sha1.hmac secret (Sha1.be_bytes 8 counter) in
  let offset := Z.to_nat (Z.land (List.last sum 0) 0x0f) in
  let bin := Z.land (Sha1.be_word (take 4 (drop offset sum))) 0x7fffffff in
  let modulus := 10 ^ Z.of_nat Digits in
  zero_pad Digits (itoa (Z.to_N (bin mod modulus))).

(** A [time.Time] is its number of nanoseconds since the epoch. *)
Definition unix (t : Z) : Z := t / second.
Definition uint64 (x : Z) : Z := x mod 2 ^ 64.
(** uint64(t.UTC().Unix()) / TimeStep *)
Definition counter_at (t : Z) : Z := uint64 (unix t) / TimeStep.

Definition Generate (secret : list Z) (t : Z) : string := generateAtCounter secret (counter_at t).

(** ** ReplayCache *)
Record ReplayCache := mkCache { rc_ttl : Z; rc_seen : gmap string Z }.
Definition NewReplayCache : ReplayCache :=
  mkCache ((StepWindow * 2 + 1) * TimeStep * second + 30 * second) ∅.

Definition pruneLocked (c : ReplayCache) (now : Z) : ReplayCache :=
  mkCache (rc_ttl c) (filter (λ kv, ¬ (now - kv.2 > rc_ttl c)) (rc_seen c)).

Definition claim_key (nodeID code : string) : string := nodeID +:+ String "|" code.

Definition Claim (c : ReplayCache) (nodeID code : string) (now : Z) : ReplayCache * bool :=
  let c := pruneLocked c now in
  let key := claim_key nodeID code in
  match rc_seen c !! key with
  | Some _ => (c, false)
  | None => (mkCache (rc_ttl c) (<[key := now]> (rc_seen c)), true)
  end.

(** ** Validate: the loop over delta = -StepWindow .. StepWindow *)
Definition window : list Z := seqZ (- StepWindow) (2 * StepWindow + 1).

Fixpoint try_steps (deltas : list Z) (secret : list Z) (code : string) (base now : Z)
    (used : option ReplayCache) (nodeID : string) : option ReplayCache * bool :=
  match deltas with
  | [] => (used, false)
  | delta :: deltas =>
      let step := base + delta in
      if step <? 0 then try_steps deltas secret code base now used nodeID
      else if String.eqb (generateAtCounter secret step) code then
        match used with
        | None => (None, true)
        | Some c => let '(c', fresh) := Claim c nodeID code now in (Some c', fresh)
        end
      else try_steps deltas secret code base now used nodeID
  end.

Definition Validate (secret : list Z) (code : string) (now : Z)
    (used : option ReplayCache) (nodeID : string) : option ReplayCache * bool :=
  let code := TrimSpace code in
  if negb (String.length code =? Digits)%nat then (used, false)
  else try_steps window secret code (counter_at now) now used nodeID.

(** RFC 6238, appendix B (SHA-1 vectors, last six digits). *)
Definition rfc_secret : list Z :=
  [49;50;51;52;53;54;55;56;57;48;49;50;51;52;53;54;55;56;57;48].
Example rfc6238_vectors :
  map (λ t, Generate rfc_secret (t * second))
      [59; 1111111109; 1111111111; 1234567890; 2000000000; 20000000000]
  = ["287082"; "081804"; "050471"; "005924"; "279037"; "353130"].
Proof. vm_compute. reflexivity. Qed.

(** ** Shape of a code *)
Lemma pretty_N_go_length k x s :
  (x < 10 ^ N.of_nat k)%N → (String.length (pretty_N_go x s) ≤ k + String.length s)%nat.
Proof.
  revert x s. induction k as [|k IH]; intros x s Hx.
  - assert (x = 0%N) as -> by (simpl in Hx; lia). by rw pretty_N_go_0.
  - destruct (decide (0 < x)%N) as [Hp|Hp].
    + rw pretty_N_go_step; [|done]. etrans; [apply IH|simpl; lia].
      rw Nat2N.inj_succ N.pow_succ_r' in Hx. apply N.Div0.div_lt_upper_bound. lia.
    + assert (x = 0%N) as -> by lia. rw pretty_N_go_0. lia.
Qed.
Lemma itoa_length k n : (0 < k)%nat → (n < 10 ^ N.of_nat k)%N → (String.length (itoa n) ≤ k)%nat.
Proof.
  intros Hk Hn. unfold itoa, pretty, pretty_N. case_decide; [simpl; lia|].
  etrans; [by apply pretty_N_go_length|]. simpl. lia.
Qed.
Lemma length_string_of_list l : String.length (Base32.string_of_list l) = length l.
Proof. induction l; simpl; congruence. Qed.
Lemma all_chars_string_of_list P l : all_chars P (Base32.string_of_list l) = forallb P l.
Proof. induction l as [|c l IH]; [done|]. simpl. by rw IH. Qed.
Lemma zero_pad_length w s : (String.length s ≤ w)%nat → String.length (zero_pad w s) = w.
Proof.
  intros H. unfold zero_pad. rw string_length_app length_string_of_list length_replicate. lia.
Qed.
Lemma zero_pad_digits w s : all_chars is_digit s = true → all_chars is_digit (zero_pad w s) = true.
Proof.
  intros H. unfold zero_pad. rw all_chars_app H andb_true_r all_chars_string_of_list.
  generalize (w - String.length s)%nat. intros n. induction n; [done|]. simpl. done.
Qed.

Lemma code_length secret counter : String.length (generateAtCounter secret counter) = Digits.
Proof.
  apply zero_pad_length, itoa_length; [unfold Digits; lia|].
  match goal with |- context [Z.to_N (?x mod ?m)] =>
    pose proof (Z.mod_pos_bound x m ltac:(reflexivity)) as Hb end.
  change (10 ^ Z.of_nat Digits)%Z with 1000000%Z in *.
  change (10 ^ N.of_nat Digits)%N with 1000000%N. lia.
Qed.
Lemma code_digits secret counter : all_chars is_digit (generateAtCounter secret counter) = true.
Proof. apply zero_pad_digits, itoa_digits. Qed.

(** The four bytes read at the dynamic offset exist: no slice panic. *)
Lemma code_offset_in_bounds secret counter :
  let sum := Sha1.hmac secret (Sha1.be_bytes 8 counter) in
  (Z.to_nat (Z.land (List.last sum 0%Z) 0x0f%Z) + 4 ≤ length sum)%nat.
Proof.
  intros sum. subst sum. rw Sha1.length_hmac.
  set (b := List.last _ 0). change 0x0f with (Z.ones 4).
  rw Z.land_ones; [|lia]. pose proof (Z.mod_pos_bound b (2 ^ 4)). lia.
Qed.

Lemma digit_not_space c : is_digit c = true →
  space1 c = false ∧ (∀ b, space2 c b = false) ∧ (∀ b, space2 b c = false) ∧
  (∀ a b, space3 c a b = false) ∧ (∀ a b, space3 a b c = false).
Proof.
  intros H. assert (48 <= code c ∧ code c <= 57)%N as [H1 H2].
  { unfold is_digit, in_range in H. lia. }
  unfold space1, space2, space3, in_range, is_code.
  split_and!; intros; lia.
Qed.
Lemma digits_trim s : all_chars is_digit s = true → TrimSpace s = s.
Proof.
  intros H. unfold TrimSpace, TrimLeftSpace.
  assert (∀ sp2 sp3, (∀ a b, is_digit a = true → sp2 a b = false) →
            (∀ a b c, is_digit a = true → sp3 a b c = false) →
            ∀ t, all_chars is_digit t = true → trim_leading sp2 sp3 t = t) as Hfix.
  { intros sp2 sp3 H2 H3 t Ht. apply trim_leading_fixed.
    destruct t as [|a t]; [done|]. simpl in Ht. apply andb_true_iff in Ht as [Ha _].
    destruct (digit_not_space a Ha) as [Hs _].
    destruct t as [|b [|c t]]; simpl; rw Hs ?H2 ?H3 //. }
  rw Hfix; [| | |done];
    [|intros a **; by destruct (digit_not_space a) as (? & ? & ? & ? & ?)..].
  unfold TrimRightSpace. rw Hfix; [by rw string_reverse_involutive| | |by rw all_chars_rev];
    intros a **; by destruct (digit_not_space a) as (? & ? & ? & ? & ?).
Qed.

(** ** Validation *)
#[local] Opaque generateAtCounter.
Lemma try_steps_sound deltas secret code base now used nodeID used' :
  try_steps deltas secret code base now used nodeID = (used', true) →
  ∃ delta, delta ∈ deltas ∧ 0 ≤ base + delta ∧ generateAtCounter secret (base + delta) = code ∧
    match used with
    | None => used' = None
    | Some c => ∃ c', Claim c nodeID code now = (c', true) ∧ used' = Some c'
    end.
Proof.
  induction deltas as [|d deltas IH]; simpl; [done|]. intros H.
  destruct (base + d <? 0) eqn:E; [|destruct (String.eqb _ code) eqn:Ec].
  - destruct (IH H) as (x & Hx & Hr). exists x. split; [by apply list_elem_of_further|done].
  - go_bool. exists d. split; [apply list_elem_of_here|]. split; [lia|]. split; [done|].
    destruct used as [c|]; [|by simplify_eq].
    destruct (Claim c nodeID code now) as [c' []]; simplify_eq. eauto.
  - destruct (IH H) as (x & Hx & Hr). exists x. split; [by apply list_elem_of_further|done].
Qed.

Lemma try_steps_complete deltas secret code base now used nodeID delta :
  delta ∈ deltas → 0 ≤ base + delta → generateAtCounter secret (base + delta) = code →
  try_steps deltas secret code base now used nodeID =
    match used with
    | None => (None, true)
    | Some c => let '(c', fresh) := Claim c nodeID code now in (Some c', fresh)
    end.
Proof.
  induction deltas as [|d deltas IH]; [by intros ?%elem_of_nil|]. intros Hd H0 Hc. simpl.
  destruct (decide (d = delta)) as [->|Hne].
  - destruct (base + delta <? 0) eqn:E; [go_bool; lia|]. by rw Hc String.eqb_refl.
  - apply elem_of_cons in Hd as [->|Hd]; [done|].
    destruct (base + d <? 0); [by apply IH|].
    destruct (String.eqb _ code) eqn:E; [done|by apply IH].
Qed.

Lemma Claim_ttl c nodeID code now : rc_ttl (Claim c nodeID code now).1 = rc_ttl c.
Proof. unfold Claim. by case_match. Qed.

Lemma pruneLocked_keeps c now k at_ :
  rc_seen c !! k = Some at_ → now - at_ ≤ rc_ttl c → rc_seen (pruneLocked c now) !! k = Some at_.
Proof. intros H Hle. apply map_lookup_filter_Some. split; [done|]. simpl. lia. Qed.

(** A live entry survives a later claim unchanged, and claiming it again fails. *)
Lemma Claim_keeps c nodeID code now k at_ :
  rc_seen c !! k = Some at_ → now - at_ ≤ rc_ttl c →
  rc_seen (Claim c nodeID code now).1 !! k = Some at_.
Proof.
  intros H Hle. pose proof (pruneLocked_keeps c now k at_ H Hle) as Hp.
  unfold Claim. case_match; simpl; [done|].
  destruct (decide (claim_key nodeID code = k)) as [<-|]; [congruence|].
  by rw lookup_insert_ne.
Qed.
Lemma Claim_again c nodeID code now at_ :
  rc_seen c !! claim_key nodeID code = Some at_ → now - at_ ≤ rc_ttl c →
  (Claim c nodeID code now).2 = false.
Proof. intros H Hle. unfold Claim. by rw (pruneLocked_keeps c now _ at_ H Hle). Qed.
Lemma Claim_records c nodeID code now c' :
  Claim c nodeID code now = (c', true) → rc_seen c' !! claim_key nodeID code = Some now.
Proof. unfold Claim. case_match; intros; simplify_eq/=. by rw lookup_insert_eq. Qed.

(** A sequence of validations sharing one cache. *)
Record vcall := mkCall { v_secret : list Z; v_code : string; v_now : Z; v_node : string }.
Definition validate_all (c : option ReplayCache) (calls : list vcall) : option ReplayCache :=
  foldl (λ c k, (Validate (v_secret k) (v_code k) (v_now k) c (v_node k)).1) c calls.

Lemma try_steps_cache deltas secret code base now c nodeID :
  (try_steps deltas secret code base now (Some c) nodeID).1 = Some c ∨
  (try_steps deltas secret code base now (Some c) nodeID).1 = Some (Claim c nodeID code now).1.
Proof.
  induction deltas as [|d deltas IH]; simpl; [by left|].
  repeat case_match; simplify_eq/=; auto.
Qed.

Lemma Validate_keeps secret code now c nodeID k at_ :
  rc_seen c !! k = Some at_ → now - at_ ≤ rc_ttl c →
  ∃ c', (Validate secret code now (Some c) nodeID).1 = Some c' ∧
    rc_seen c' !! k = Some at_ ∧ rc_ttl c' = rc_ttl c.
Proof.
  intros H Hle. unfold Validate. cbv zeta. destruct (negb _); [by exists c|].
  destruct (try_steps_cache window secret (TrimSpace code) (counter_at now) now c nodeID) as [-> | ->];
    eexists; (split; [done|]); [done|].
  split; [by apply Claim_keeps|apply Claim_ttl].
Qed.

Lemma validate_all_keeps calls c k at_ :
  rc_seen c !! k = Some at_ →
  Forall (λ v, v_now v - at_ ≤ rc_ttl c) calls →
  ∃ c', validate_all (Some c) calls = Some c' ∧ rc_seen c' !! k = Some at_ ∧ rc_ttl c' = rc_ttl c.
Proof.
  revert c. induction calls as [|v calls IH]; intros c H Hall; [by exists c|].
  apply Forall_cons in Hall as [Hv Hall]. simpl.
  destruct (Validate_keeps (v_secret v) (v_code v) _ c (v_node v) k at_ H Hv) as (c1 & -> & Hk & Ht).
  destruct (IH c1 Hk) as (c2 & H2 & Hk2 & Ht2); [by rw Ht|].
  exists c2. by rw H2 Hk2 Ht2 Ht.
Qed.

Lemma window_elem d : d ∈ window ↔ - StepWindow ≤ d ≤ StepWindow.
Proof. unfold window. rw elem_of_seqZ. unfold StepWindow. lia. Qed.

Lemma counter_at_gap t1 t2 :
  0 ≤ t1 → t2 < 2 ^ 63 * second → rc_ttl NewReplayCache < t2 - t1 →
  counter_at t1 + StepWindow < counter_at t2 - StepWindow.
Proof.
  change (rc_ttl NewReplayCache) with (180 * second).
  unfold counter_at, uint64, unix, StepWindow, TimeStep, second. intros H1 H2 Hgap.
  assert (0 ≤ t1 / 1000000000) by (apply Z.div_pos; lia).
  assert (t1 / 1000000000 + 180 ≤ t2 / 1000000000) as Hs.
  { rw -Z.div_add; [|lia]. apply Z.div_le_mono; lia. }
  assert (t2 / 1000000000 < 2 ^ 63) by (apply Z.div_lt_upper_bound; lia).
  rw !Z.mod_small; [|lia..].
  assert (t1 / 1000000000 / 30 + 6 ≤ t2 / 1000000000 / 30); [|lia].
  rw -Z.div_add; [|lia]. apply Z.div_le_mono; lia.
Qed.

(** A fresh code generated within the window is accepted and recorded. *)
Lemma Validate_fresh secret t now c nodeID :
  Z.abs (counter_at t - counter_at now) ≤ StepWindow →
  rc_seen (pruneLocked c now) !! claim_key nodeID (Generate secret t) = None →
  ∃ c', Validate secret (Generate secret t) now (Some c) nodeID = (Some c', true) ∧
    rc_seen c' !! claim_key nodeID (Generate secret t) = Some now.
Proof.
  intros Hw Hf. unfold Validate, Generate in *.
  cbv zeta. rw (digits_trim _ (code_digits _ _)) code_length Nat.eqb_refl. cbn [negb].
  erewrite (try_steps_complete _ _ _ _ _ _ _ (counter_at t - counter_at now)).
  - unfold Claim at 1. rw Hf. eexists. split; [done|]. simpl. by rw lookup_insert_eq.
  - apply window_elem. lia.
  - replace (_ + _) with (counter_at t) by lia. unfold counter_at, uint64.
    apply Z.div_pos; [apply Z.mod_pos_bound; lia|done].
  - f_equal. lia.
Qed.

(** ** Properties *)

(** Every code has exactly six characters, all decimal
    digits, whatever the secret and the counter. *)
Theorem totp_code_shape secret counter :
  String.length (generateAtCounter secret counter) = Digits ∧
  all_chars is_digit (generateAtCounter secret counter) = true.
Proof. split; [apply code_length|apply code_digits]. Qed.

(** Acceptance: a code a node generates at its time [t] is
    accepted at the server's time [now] whenever the two times are at most
    [StepWindow] steps apart and the (node, code) pair is not held by the
    cache; it is then recorded. *)
Theorem totp_validate_accepts secret t now c nodeID :
  Z.abs (counter_at t - counter_at now) ≤ StepWindow →
  rc_seen (pruneLocked c now) !! claim_key nodeID (Generate secret t) = None →
  ∃ c', Validate secret (Generate secret t) now (Some c) nodeID = (Some c', true) ∧
    rc_seen c' !! claim_key nodeID (Generate secret t) = Some now.
Proof. apply Validate_fresh. Qed.

(** Soundness: an accepted code, once trimmed, is the code of
    some non-negative step within [StepWindow] of the server's step, and the
    cache did not hold it. *)
Theorem totp_validate_sound secret code now c nodeID used' :
  Validate secret code now (Some c) nodeID = (used', true) →
  ∃ step, 0 ≤ step ∧ Z.abs (step - counter_at now) ≤ StepWindow ∧
    generateAtCounter secret step = TrimSpace code ∧
    rc_seen (pruneLocked c now) !! claim_key nodeID (TrimSpace code) = None.
Proof.
  unfold Validate. case_match; [done|]. intros Ht.
  apply try_steps_sound in Ht as (d & Hd & H0 & Hc & c' & Hcl & _).
  apply window_elem in Hd. exists (counter_at now + d).
  split; [done|]. split; [unfold StepWindow in *; lia|]. split; [done|].
  unfold Claim in Hcl. by case_match.
Qed.

(** C4: No replay: once a (node, code) pair is accepted at [t1],
    then after any further validations at times between [t1] and [t2] the
    same pair is accepted again at [t2] only when the two acceptance windows
    are disjoint, so a time step's code is never accepted twice. *)
Theorem totp_no_replay c secret code nodeID t1 t2 calls secret' c1 used2 :
  rc_ttl c = rc_ttl NewReplayCache →
  0 ≤ t1 → t2 < 2 ^ 63 * second →
  Forall (λ v, t1 ≤ v_now v ≤ t2) calls →
  Validate secret code t1 (Some c) nodeID = (Some c1, true) →
  Validate secret' code t2 (validate_all (Some c1) calls) nodeID = (used2, true) →
  counter_at t1 + StepWindow < counter_at t2 - StepWindow.
Proof.
  intros Httl H1 H2 Hall Ha Hb.
  destruct (decide (t2 - t1 ≤ rc_ttl NewReplayCache)) as [Hle|]; [|by apply counter_at_gap; lia].
  exfalso. unfold Validate in Ha at 1. case_match eqn:Hlen; [done|].
  apply try_steps_sound in Ha as (d & _ & _ & _ & c' & Hcl & ?); simplify_eq.
  pose proof (Claim_ttl c nodeID (TrimSpace code) t1) as Ht. rw Hcl Httl in Ht. cbn [fst] in Ht.
  apply Claim_records in Hcl.
  destruct (validate_all_keeps calls c' _ t1 Hcl) as (c2 & Hc2 & Hk & Ht2).
  { eapply Forall_impl; [exact Hall|]. intros v Hv. cbn beta in *. rw Ht. lia. }
  rw Hc2 in Hb. unfold Validate in Hb. rw Hlen in Hb.
  apply try_steps_sound in Hb as (d2 & _ & _ & _ & c3 & Hcl2 & _).
  pose proof (Claim_again c2 nodeID (TrimSpace code) t2 t1 Hk) as Hf.
  rw Hcl2 Ht2 Ht in Hf. by specialize (Hf Hle).
Qed.

(** ** Secrets round-trip *)
Definition is_byte (b : Z) : Prop := 0 ≤ b < 256.
Definition in_alphabet (c : ascii) : bool := is_upper c || in_range 50 55 c.

Lemma Z_of_bits_byte b : is_byte b → Base32.Z_of_bits (Base32.bits_of_byte b) = b.
Proof.
  intros Hb.
  assert (Forall (λ b, Base32.Z_of_bits (Base32.bits_of_byte b) = b) (seqZ 0 256)) as H.
  { apply (bool_decide_unpack _). vm_compute. done. }
  rw Forall_forall in H. apply H, elem_of_seqZ. unfold is_byte in Hb. lia.
Qed.
Lemma bits_of_quintet_quintet a b c d e :
  Base32.bits_of_quintet (Base32.quintet [a; b; c; d; e]) = [a; b; c; d; e].
Proof. by destruct a, b, c, d, e. Qed.
Lemma quintet_lt a b c d e : (Base32.quintet [a; b; c; d; e] < 32)%nat.
Proof. destruct a, b, c, d, e; vm_compute; lia. Qed.
Lemma char_of_alphabet q : (q < 32)%nat → in_alphabet (Base32.char_of q) = true.
Proof. intros H. do 32 (destruct q as [|q]; [done|]). lia. Qed.
Lemma index_of_char_of q : (q < 32)%nat → Base32.index_of (Base32.char_of q) Base32.alphabet = Some q.
Proof. intros H. do 32 (destruct q as [|q]; [done|]). lia. Qed.

(** The quintets of a group of bytes. *)
Definition group_quintets (g : list Z) : list nat :=
  let bits := concat (map Base32.bits_of_byte g) in
  let n := ((length bits + 4) / 5)%nat in
  map Base32.quintet (Sha1.chunks n 5 (bits ++ replicate (5 * n - length bits) false)).

Lemma encode_group_quintets g : Base32.encode_group g = map Base32.char_of (group_quintets g).
Proof. unfold Base32.encode_group, group_quintets. by rw map_map. Qed.

(** Case on a group of one to five bytes. *)
Lemma group_cases (g : list Z) :
  (0 < length g ≤ 5)%nat →
  (∃ a, g = [a]) ∨ (∃ a b, g = [a; b]) ∨ (∃ a b c, g = [a; b; c]) ∨
  (∃ a b c d, g = [a; b; c; d]) ∨ (∃ a b c d e, g = [a; b; c; d; e]).
Proof.
  destruct g as [|a [|b [|c [|d [|e [|]]]]]]; simpl; intros; try lia; eauto 10.
Qed.

Lemma group_quintets_spec g :
  (0 < length g ≤ 5)%nat → Forall is_byte g →
  Forall (λ q, q < 32)%nat (group_quintets g) ∧
  Base32.decode_group (group_quintets g) = g ∧
  (0 < length (group_quintets g) ≤ 8)%nat ∧
  (length g = 5%nat → length (group_quintets g) = 8%nat).
Proof.
  intros Hl Hb.
  destruct (group_cases g Hl) as
    [(?&->)|[(?&?&->)|[(?&?&?&->)|[(?&?&?&?&->)|(?&?&?&?&?&->)]]]];
  rw ?Forall_cons in Hb; destruct_and?;
  unfold group_quintets, Base32.bits_of_byte;
  cbn [map concat app length Nat.add Nat.div Nat.divmod fst Nat.mul Nat.sub Sha1.chunks
       replicate firstn skipn];
  (split; [repeat (first [apply List.Forall_nil | apply List.Forall_cons; [apply quintet_lt|]])|]);
  (split; [|simpl; lia]);
  unfold Base32.decode_group;
  cbn [map length Base32.group_bytes]; rw !bits_of_quintet_quintet;
  cbn [concat app Sha1.chunks firstn skipn map];
  repeat match goal with
  | |- context [Base32.Z_of_bits [Z.testbit ?b ?i; ?x1; ?x2; ?x3; ?x4; ?x5; ?x6; ?x7]] =>
      change (Base32.Z_of_bits [Z.testbit b i; x1; x2; x3; x4; x5; x6; x7])
        with (Base32.Z_of_bits (Base32.bits_of_byte b));
      rw (Z_of_bits_byte b); [|done]
  end; done.
Qed.

Lemma digits_string_of_list qs :
  Forall (λ q, q < 32)%nat qs →
  Base32.digits (Base32.string_of_list (map Base32.char_of qs)) = Some qs.
Proof.
  induction 1 as [|q qs Hq _ IH]; [done|].
  cbn [map Base32.string_of_list Base32.digits]. by rw index_of_char_of // IH.
Qed.

Lemma chunks_nil {A} fuel n : Sha1.chunks fuel n ([] : list A) = [].
Proof. by destruct fuel. Qed.
Lemma chunks_fuel {A} n f1 f2 (l : list A) :
  (0 < n)%nat → (length l ≤ f1)%nat → (length l ≤ f2)%nat → Sha1.chunks f1 n l = Sha1.chunks f2 n l.
Proof.
  intros Hn. revert f2 l. induction f1 as [|f1 IH]; intros f2 l H1 H2.
  { destruct l; [|simpl in *; lia]. by rw !chunks_nil. }
  destruct l as [|x l]; [by rw !chunks_nil|]. destruct f2 as [|f2]; [simpl in *; lia|].
  cbn [Sha1.chunks]. f_equal. apply IH; rw length_drop; simpl in *; lia.
Qed.

Lemma chunks_app_full {A} n (a b : list A) :
  (0 < n)%nat → length a = n →
  Sha1.chunks (length (a ++ b)) n (a ++ b) = a :: Sha1.chunks (length b) n b.
Proof.
  intros Hn Ha. destruct a as [|x a]; [simpl in *; lia|].
  rw length_app. cbn [length Nat.add app Sha1.chunks].
  change (x :: a ++ b) with ((x :: a) ++ b).
  rw take_app_length' // drop_app_length' //. f_equal. apply chunks_fuel; lia.
Qed.
Lemma chunks_single {A} n (a : list A) :
  (0 < length a ≤ n)%nat → Sha1.chunks (length a) n a = [a].
Proof.
  intros H. destruct a as [|x a]; [simpl in *; lia|]. cbn [length Sha1.chunks].
  rw take_ge; [|simpl in *; lia]. rw drop_ge; [|simpl in *; lia]. by rw chunks_nil.
Qed.

(** The digits of an encoded secret and their decoding, group by group. *)
Lemma encode_groups_spec n l :
  (length l ≤ n)%nat → Forall is_byte l →
  let qs := concat (map group_quintets (Sha1.chunks (length l) 5 l)) in
  concat (map Base32.encode_group (Sha1.chunks (length l) 5 l)) = map Base32.char_of qs ∧
  Forall (λ q, q < 32)%nat qs ∧
  concat (map Base32.decode_group (Sha1.chunks (length qs) 8 qs)) = l.
Proof.
  revert l. induction n as [|n IH]; intros l Hn Hb; (destruct l as [|x l]; [done|]); [simpl in Hn; lia|].
  set (g := take 5 (x :: l)). set (r := drop 5 (x :: l)).
  assert (length r ≤ length l)%nat by (subst r; rw length_drop; simpl; lia).
  assert (Sha1.chunks (length (x :: l)) 5 (x :: l) = g :: Sha1.chunks (length r) 5 r) as Hch.
  { cbn [length Sha1.chunks]. f_equal. apply chunks_fuel; lia. }
  assert (g ++ r = x :: l) as Hgr by apply take_drop.
  assert (length g = 5%nat ∨ r = []) as Hcase.
  { destruct (decide (5 ≤ length (x :: l))%nat); [left; subst g; rw length_take; lia|].
    right. apply drop_ge. lia. }
  rw -Hgr Forall_app in Hb. destruct Hb as [Hbg Hbr].
  assert (0 < length g ≤ 5)%nat as Hg by (subst g; simpl; rw length_take; lia).
  destruct (group_quintets_spec g Hg Hbg) as (H32 & Hdec & Hlen & Hfull).
  destruct (IH r) as (He & Hq & Hd); [simpl in *; lia|done|].
  rw Hch. cbn [map concat]. set (qr := concat (map group_quintets _)) in *.
  split_and!.
  - by rw encode_group_quintets He map_app.
  - by apply Forall_app.
  - set (qg := group_quintets g) in *.
    assert (Sha1.chunks (length (qg ++ qr)) 8 (qg ++ qr) = qg :: Sha1.chunks (length qr) 8 qr) as ->.
    { destruct Hcase as [H5| ->]; [by apply chunks_app_full; [lia|auto]|].
      rw (_ : qr = []) // app_nil_r. by apply chunks_single. }
    cbn [map concat]. by rw Hdec Hd Hgr.
Qed.

Lemma alphabet_chars c : in_alphabet c = true →
  space1 c = false ∧ (∀ b, space2 c b = false) ∧ (∀ a b, space3 c a b = false) ∧
  upper1 c = c ∧ is_code 0xC4 c = false ∧ is_code 0xC5 c = false.
Proof.
  unfold in_alphabet, is_upper, space1, space2, space3, upper1, is_lower, in_range, is_code.
  intros H. split_and!; intros; try lia. case_match; [lia|done].
Qed.
Lemma remove_spaces_alphabet s : all_chars in_alphabet s = true → remove_spaces s = s.
Proof.
  induction s as [|a s IH]; [done|]. simpl. intros [Ha Hs]%andb_true_iff.
  destruct (alphabet_chars a Ha) as (-> & H2 & H3 & _). rw IH //.
  destruct s as [|b [|c s]]; rw ?H2 ?H3 //.
Qed.
Lemma ToUpper_alphabet s : all_chars in_alphabet s = true → ToUpper s = s.
Proof.
  induction s as [|a s IH]; [done|]. simpl. intros [Ha Hs]%andb_true_iff.
  destruct (alphabet_chars a Ha) as (_ & _ & _ & Hu & H4 & H5). rw Hu IH //.
  destruct s as [|b s]; rw ?H4 ?H5 //.
Qed.

Lemma encoded_alphabet qs :
  Forall (λ q, q < 32)%nat qs →
  all_chars in_alphabet (Base32.string_of_list (map Base32.char_of qs)) = true.
Proof. induction 1; simpl; [done|]. by rw char_of_alphabet. Qed.

(** Secrets round-trip: decoding the text that
    [GenerateSecret] returns gives back the random bytes it was made of. *)
Theorem totp_secret_roundtrip buf :
  buf ≠ [] → Forall is_byte buf →
  ∃ s, GenerateSecret (Some buf) = Ok s ∧ DecodeSecret s = Ok buf.
Proof.
  intros Hne Hb. eexists. split; [done|].
  destruct (encode_groups_spec (length buf) buf (le_n _) Hb) as (He & Hq & Hd).
  unfold DecodeSecret, Base32.EncodeToString. rw He.
  rw remove_spaces_alphabet; [|by apply encoded_alphabet].
  rw ToUpper_alphabet; [|by apply encoded_alphabet].
  unfold Base32.DecodeString. rw digits_string_of_list; [|done].
  cbn [mbind option_bind]. rw Hd. by destruct buf.
Qed.

(** ** Witnesses *)
#[local] Transparent generateAtCounter.
Lemma totp_secret_roundtrip_witness :
  ∃ s, GenerateSecret (Some [72; 101; 108; 108; 111; 33]) = Ok s ∧
       DecodeSecret s = Ok [72; 101; 108; 108; 111; 33].
Proof.
  apply totp_secret_roundtrip; [done|].
  repeat constructor; unfold is_byte; done.
Defined.

Lemma totp_validate_accepts_witness :
  ∃ c', Validate rfc_secret (Generate rfc_secret (59 * second)) (100 * second)
          (Some NewReplayCache) "node-1" = (Some c', true) ∧
        rc_seen c' !! claim_key "node-1" (Generate rfc_secret (59 * second)) = Some (100 * second).
Proof.
  apply (totp_validate_accepts rfc_secret (59 * second) (100 * second) NewReplayCache "node-1");
    vm_compute; [discriminate|reflexivity].
Defined.

Lemma totp_validate_sound_witness :
  ∃ step, 0 ≤ step ∧ Z.abs (step - counter_at (100 * second)) ≤ StepWindow ∧
    generateAtCounter rfc_secret step = TrimSpace " 287082 " ∧
    rc_seen (pruneLocked NewReplayCache (100 * second)) !! claim_key "node-1" (TrimSpace " 287082 ") = None.
Proof.
  eapply (totp_validate_sound rfc_secret " 287082 " (100 * second) NewReplayCache "node-1").
  vm_compute. reflexivity.
Defined.

(** The code of step 1 comes up again at step 463662 of the same secret. *)
Lemma totp_no_replay_witness :
  counter_at (59 * second) + StepWindow < counter_at (13909870 * second) - StepWindow.
Proof.
  eapply (totp_no_replay NewReplayCache rfc_secret "287082" "n" (59 * second) (13909870 * second)
            [mkCall rfc_secret "287082" (100 * second) "n"; mkCall rfc_secret "081804" (200 * second) "m"]
            rfc_secret).
  - reflexivity.
  - vm_compute. discriminate.
  - vm_compute. reflexivity.
  - apply (bool_decide_unpack _). vm_compute. exact I.
  - vm_compute. reflexivity.
  - vm_compute. reflexivity.
Defined.
