(* ===== verification/DevicesConfig.v ===== *)
(** * DevicesConfig: the on-disk device list of an iOS host (common/ioshost/config.go) *)
From S2P Require Import Prelude GoStrings GoPath.
From Stdlib Require Import Ascii.

Record DeviceConfig := mkDeviceConfig {
  dc_Name : string;
  dc_UDID : string;
  dc_Transport : string;
  dc_WDABundle : string;
  dc_XCTest : string;
  dc_WDAPort : Z;
  dc_CredentialPath : string
}.
#[export] Instance DeviceConfig_eq_dec : EqDecision DeviceConfig.
Proof. solve_decision. Defined.

Record NodeIdentity := mkNodeIdentity {
  ni_Server : string; ni_NodeID : string; ni_Secret : string;
  ni_NodeName : string; ni_TLSInsecure : bool }.

Record DevicesConfig := mkDevicesConfig {
  dcs_Node : option NodeIdentity;
  dcs_HostNodeID : string;
  dcs_Devices : list DeviceConfig
}.
#[export] Instance eta_DevicesConfig : Settable DevicesConfig :=
  λ c, mkDevicesConfig (dcs_Node c) (dcs_HostNodeID c) (dcs_Devices c).

(** ** sanitizeFileName *)
Definition file_char (c : ascii) : bool :=
  is_lower c || is_upper c || is_digit c || is_code 45 c || is_code 95 c || is_code 46 c.
Fixpoint sanitize_runes (rs : list rune) : string :=
  match rs with
  | [] => ""
  | RAscii c :: rs => String (if file_char c then c else "_"%char) (sanitize_runes rs)
  | _ :: rs => String "_" (sanitize_runes rs)
  end.
Definition sanitizeFileName (name : string) : string :=
  let out := sanitize_runes (runes (TrimSpace name)) in
  if String.eqb out "" then "device" else out.

(** ** Paths *)
Definition resolveConfigPath (explicit : string) (configDir : result string) : result string :=
  let p := TrimSpace explicit in
  if negb (String.eqb p "") then Ok p
  else match configDir with
       | Err e => Err e
       | Ok dir => Ok (Join [dir; "devices.json"])
       end.
Definition DefaultCredentialPath (configPath deviceName : string) : string :=
  Join [Dir configPath; "credentials"; sanitizeFileName deviceName +:+ ".json"].
Definition StateDir (configPath : string) : string := Dir configPath.

(** ** LoadDevicesConfig: the outcomes of [os.ReadFile] and [json.Unmarshal] *)
Inductive file_read := FileMissing | FileError (msg : string) | FileBytes (raw : string).
Definition emptyConfig : DevicesConfig := mkDevicesConfig None "" [].
Definition LoadDevicesConfig (explicit : string) (configDir : result string)
    (readFile : string → file_read) (unmarshal : string → result DevicesConfig)
  : result (DevicesConfig * string) :=
  match resolveConfigPath explicit configDir with
  | Err e => Err e
  | Ok path =>
      match readFile path with
      | FileMissing => Ok (emptyConfig, path)
      | FileError e => Err ("read devices config: " +:+ e)
      | FileBytes raw =>
          match unmarshal raw with
          | Err e => Err ("parse devices config " +:+ path +:+ ": " +:+ e)
          | Ok cfg => Ok (cfg, path)
          end
      end
  end.

(** ** Upsert *)
Definition upsert_matches (dev existing : DeviceConfig) : bool :=
  let key := dc_UDID dev in
  let matchByName := String.eqb key "" && negb (String.eqb (dc_Name dev) "") in
  (negb (String.eqb key "") && String.eqb (dc_UDID existing) key)
  || (matchByName && String.eqb (dc_Name existing) (dc_Name dev)).
Fixpoint upsert_list (l : list DeviceConfig) (dev : DeviceConfig) : list DeviceConfig :=
  match l with
  | [] => [dev]
  | e :: l => if upsert_matches dev e then dev :: l else e :: upsert_list l dev
  end.
Definition Upsert (c : DevicesConfig) (dev : DeviceConfig) : DevicesConfig * DeviceConfig :=
  (c <| dcs_Devices := upsert_list (dcs_Devices c) dev |>, dev).

(** The entries of a configuration that carry UDID [u]. *)
Definition with_udid (u : string) (l : list DeviceConfig) : list DeviceConfig :=
  filter (λ e, dc_UDID e = u) l.

Lemma upsert_matches_udid dev e :
  dc_UDID dev ≠ "" → upsert_matches dev e = bool_decide (dc_UDID e = dc_UDID dev).
Proof.
  intros H. unfold upsert_matches. rw bool_decide_eqb_string.
  apply String.eqb_neq in H. rw H /=. by rw orb_false_r.
Qed.

Lemma upsert_with_udid_eq l dev :
  dc_UDID dev ≠ "" → (length (with_udid (dc_UDID dev) l) ≤ 1)%nat →
  with_udid (dc_UDID dev) (upsert_list l dev) = [dev].
Proof.
  intros Hne. unfold with_udid. induction l as [|e l IH]; intros Hl; simpl.
  - rw filter_cons. by case_decide.
  - rw upsert_matches_udid //. rw filter_cons in Hl.
    destruct (decide (dc_UDID e = dc_UDID dev)) as [He|He].
    + rw bool_decide_true // filter_cons decide_True //. f_equal.
      simpl in Hl. by destruct (filter _ l); [|simpl in *; lia].
    + rw bool_decide_false // filter_cons decide_False //. auto.
Qed.
Lemma upsert_with_udid_ne l dev u :
  dc_UDID dev ≠ "" → u ≠ dc_UDID dev →
  with_udid u (upsert_list l dev) = with_udid u l.
Proof.
  intros Hne Hu. unfold with_udid. induction l as [|e l IH]; simpl.
  - rw filter_cons. case_decide; [congruence|done].
  - rw upsert_matches_udid //. case_bool_decide as He; rw !filter_cons.
    + case_decide; [congruence|]. case_decide; [congruence|done].
    + case_decide; [by f_equal|done].
Qed.

Lemma sanitize_runes_chars rs : all_chars file_char (sanitize_runes rs) = true.
Proof.
  induction rs as [|[c|e|c] rs IH]; simpl; rw ?IH ?andb_true_r //. by destruct (file_char c) eqn:E.
Qed.

(** Re-pairing updates in place: when at most one entry
    carries the UDID, upserting a device with that UDID leaves exactly the new
    entry for it and does not touch the entries of any other UDID. *)
Theorem upsert_unique_by_udid c dev :
  dc_UDID dev ≠ "" → (length (with_udid (dc_UDID dev) (dcs_Devices c)) ≤ 1)%nat →
  with_udid (dc_UDID dev) (dcs_Devices (Upsert c dev).1) = [dev] ∧
  ∀ u, u ≠ dc_UDID dev → with_udid u (dcs_Devices (Upsert c dev).1) = with_udid u (dcs_Devices c).
Proof.
  intros Hne Hl. split; [by apply upsert_with_udid_eq|]. intros u Hu. by apply upsert_with_udid_ne.
Qed.
Definition phone (name udid : string) : DeviceConfig := mkDeviceConfig name udid "usb" "" "" 8100 "/c".
Lemma upsert_unique_by_udid_witness :
  with_udid "U1" (dcs_Devices (Upsert (mkDevicesConfig None "" [phone "a" "U1"; phone "b" "U2"]) (phone "c" "U1")).1)
  = [phone "c" "U1"].
Proof.
  apply (upsert_unique_by_udid (mkDevicesConfig None "" [phone "a" "U1"; phone "b" "U2"]) (phone "c" "U1"));
    [done|vm_compute; lia].
Defined.

(** A credential file name is a safe stem: never empty, and
    made only of letters, digits, dash, underscore and dot, so it cannot
    contain a path separator. *)
Theorem sanitizeFileName_safe name :
  sanitizeFileName name ≠ "" ∧ all_chars file_char (sanitizeFileName name) = true.
Proof.
  unfold sanitizeFileName. destruct (String.eqb _ "") eqn:E; [done|]. go_bool.
  split; [done|apply sanitize_runes_chars].
Qed.
