(* ===== verification/DeviceManager.v ===== *)
(** * DeviceManager: the device state centre of an iOS host
    (common/ioshost/manager.go)

    One [DeviceManager] record is the mutex-protected state of the Go type.
    Every critical section of the code is one definition; a method that drops
    the lock in the middle (Claim around the pairing call, ControlRunner and
    ConfigureDevice around the wait for a loop) is its sections in order, and
    the step relation at the end of the file interleaves them.

    A [*managedDevice] held across an unlock is its UDID: the code never
    removes an entry of the map, and entries are keyed by their own UDID.
    A device loop is the number it was started with; [md_cancel = Some n] is the
    Go handle [d.cancel != nil] of loop [n]. *)
From S2P Require Import Prelude GoStrings GoPath DevicesConfig.

Inductive IosConnectionType :=
| IOS_CONNECTION_TYPE_UNSPECIFIED | IOS_CONNECTION_TYPE_USB | IOS_CONNECTION_TYPE_NETWORK.
Inductive IosWdaState :=
| IOS_WDA_STATE_UNSPECIFIED | IOS_WDA_STATE_MISSING | IOS_WDA_STATE_PREPARING | IOS_WDA_STATE_READY
| IOS_WDA_STATE_RENEWAL_DUE | IOS_WDA_STATE_EXPIRED | IOS_WDA_STATE_FAILED | IOS_WDA_STATE_INSTALLED.
#[export] Instance IosConnectionType_eq_dec : EqDecision IosConnectionType.
Proof. solve_decision. Defined.
#[export] Instance IosWdaState_eq_dec : EqDecision IosWdaState.
Proof. solve_decision. Defined.
(** The enum's wire number, which [%d] prints. *)
Definition wda_number (s : IosWdaState) : N :=
  match s with
  | IOS_WDA_STATE_UNSPECIFIED => 0 | IOS_WDA_STATE_MISSING => 1 | IOS_WDA_STATE_PREPARING => 2
  | IOS_WDA_STATE_READY => 3 | IOS_WDA_STATE_RENEWAL_DUE => 4 | IOS_WDA_STATE_EXPIRED => 5
  | IOS_WDA_STATE_FAILED => 6 | IOS_WDA_STATE_INSTALLED => 7
  end.

(** ** The environment: enumeration, lockdown, pairing, the loop's states *)
Record EnumeratedDevice := mkEnum { en_UDID : string; en_ConnectionType : string; en_DeviceID : Z }.
Record DeviceInfo := mkInfo { di_Name : string; di_Model : string; di_ProductVersion : string }.
Definition noInfo : DeviceInfo := mkInfo "" "" "".
Record DeviceEvent := mkEvent { ev_UDID : string; ev_Attached : bool }.

(** ** managedDevice *)
Record managedDevice := mkDevice {
  md_udid : string;
  md_name : string;
  md_model : string;
  md_productVersion : string;
  md_connectionType : IosConnectionType;
  md_present : bool;
  md_lanOn : bool;
  md_claimed : bool;
  md_claiming : bool;
  md_deviceID : string;
  md_credentialPath : string;
  md_configRevision : Z;
  md_transport : string;
  md_wdaBundle : string;
  md_xctest : string;
  md_hostWDAPort : Z;
  md_deviceControlOn : bool;
  md_wdaState : IosWdaState;
  md_profileExpiresAt : string;
  md_wdaProgress : Z;
  md_wdaStage : string;
  md_renewBeforeDays : Z;
  md_lastError : string;
  md_userStopped : bool;
  md_cancel : option nat;
  md_done : option nat
}.
#[export] Instance eta_managedDevice : Settable managedDevice := λ d,
  mkDevice (md_udid d) (md_name d) (md_model d) (md_productVersion d) (md_connectionType d)
    (md_present d) (md_lanOn d) (md_claimed d) (md_claiming d) (md_deviceID d)
    (md_credentialPath d) (md_configRevision d) (md_transport d) (md_wdaBundle d) (md_xctest d)
    (md_hostWDAPort d) (md_deviceControlOn d) (md_wdaState d) (md_profileExpiresAt d)
    (md_wdaProgress d) (md_wdaStage d) (md_renewBeforeDays d) (md_lastError d)
    (md_userStopped d) (md_cancel d) (md_done d).
#[export] Instance managedDevice_eq_dec : EqDecision managedDevice.
Proof. solve_decision. Defined.

(** [&managedDevice{udid: u}] *)
Definition zeroDevice (u : string) : managedDevice :=
  mkDevice u "" "" "" IOS_CONNECTION_TYPE_UNSPECIFIED false false false false "" "" 0 "" "" "" 0
    false IOS_WDA_STATE_UNSPECIFIED "" 0 "" 0 "" false None None.

(** ** Reports *)
Record NodeIosDevice := mkNodeIosDevice {
  nd_Udid : string; nd_Name : string; nd_Model : string; nd_ProductVersion : string;
  nd_ConnectionType : IosConnectionType; nd_Present : bool; nd_Claimed : bool;
  nd_DeviceId : string; nd_DeviceControlOnline : bool; nd_WdaState : IosWdaState;
  nd_WdaBundleId : string; nd_ProfileExpiresAt : string; nd_LastError : string;
  nd_ConfigRevisionApplied : Z; nd_WdaProgress : Z; nd_WdaStage : string }.
Record report := mkReport {
  rep_RequestId : string; rep_SnapshotRevision : Z; rep_EnumerateError : string;
  rep_Devices : list NodeIosDevice }.

#[export] Instance eta_report : Settable report := λ r,
  mkReport (rep_RequestId r) (rep_SnapshotRevision r) (rep_EnumerateError r) (rep_Devices r).

Definition toProto (d : managedDevice) : NodeIosDevice :=
  let present := md_present d || md_lanOn d in
  let ct := if md_lanOn d && negb (md_present d) then IOS_CONNECTION_TYPE_NETWORK
            else md_connectionType d in
  mkNodeIosDevice (md_udid d) (md_name d) (md_model d) (md_productVersion d) ct present
    (md_claimed d) (md_deviceID d) (md_deviceControlOn d) (md_wdaState d) (md_wdaBundle d)
    (md_profileExpiresAt d) (md_lastError d) (md_configRevision d) (md_wdaProgress d) (md_wdaStage d).

(** ** The manager and the effects it has outside its own state *)
Record run_config := mkRunConfig {
  rn_CredentialPath : string; rn_UDID : string; rn_Transport : string; rn_WDABundleID : string;
  rn_XCTestConfig : string; rn_WDAPort : Z; rn_node_id : option string }.
Inductive effect :=
| EReport (r : report)                            (** cfg.OnReport(rep) *)
| EStartLoop (id : nat) (cfg : run_config)        (** go runner.Run(runCtx, cfg) *)
| ECancelLoop (id : nat)                          (** cancel() *)
| ESaveConfig (path : string) (cfg : DevicesConfig)  (** SaveDevicesConfig *)
| ERemoveFile (path : string).                    (** os.Remove(credPath) *)

(** What cmdRun wires in and the process environment. *)
Record ManagerConfig := mkManagerConfig {
  mc_ConfigPath : string;
  mc_configDir : result string;
  mc_NodeID : string;
  mc_OnReport : bool                              (** OnReport != nil *)
}.

Record DeviceManager := mkManager {
  dm_devices : gmap string managedDevice;
  dm_snapshotRev : Z;
  dm_enumerateError : string;
  dm_stopped : bool;
  dm_config : option DevicesConfig;               (** cfg.DevicesConfig *)
  dm_nextLoop : nat;
  dm_effects : list effect
}.
#[export] Instance eta_DeviceManager : Settable DeviceManager := λ m,
  mkManager (dm_devices m) (dm_snapshotRev m) (dm_enumerateError m) (dm_stopped m) (dm_config m)
    (dm_nextLoop m) (dm_effects m).

(** manager.go's firstNonEmpty: the first value that is not blank *)
Fixpoint firstNonEmpty (vals : list string) : string :=
  match vals with
  | [] => ""
  | v :: vals => if negb (String.eqb (TrimSpace v) "") then v else firstNonEmpty vals
  end.

Definition defaultRunnerBundle (v : string) : string :=
  let v := TrimSpace v in
  if negb (String.eqb v "") then v else "com.deviceboxhq.goios.devicekit.runner".
Definition defaultRunnerXctest (v : string) : string :=
  let v := TrimSpace v in
  if negb (String.eqb v "") then v else "devicekit-iosUITests.xctest".

Definition toConnectionType (c : string) : IosConnectionType :=
  let u := ToUpper (TrimSpace c) in
  if String.eqb u "USB" then IOS_CONNECTION_TYPE_USB
  else if String.eqb u "NETWORK" then IOS_CONNECTION_TYPE_NETWORK
  else IOS_CONNECTION_TYPE_UNSPECIFIED.

Definition describeTarget (deviceID udid : string) : string :=
  if negb (String.eqb (TrimSpace deviceID) "") then "device_id=" +:+ deviceID else "udid=" +:+ udid.

(** ** Construction *)
Definition adopted (d : DeviceConfig) : managedDevice :=
  zeroDevice (dc_UDID d)
    <| md_name := dc_Name d |>
    <| md_transport := dc_Transport d |>
    <| md_wdaBundle := defaultRunnerBundle (dc_WDABundle d) |>
    <| md_xctest := defaultRunnerXctest (dc_XCTest d) |>
    <| md_hostWDAPort := dc_WDAPort d |>
    <| md_credentialPath := dc_CredentialPath d |>
    <| md_claimed := negb (String.eqb (dc_CredentialPath d) "") |>
    <| md_wdaState := IOS_WDA_STATE_UNSPECIFIED |>.

Definition adopt_one (devs : gmap string managedDevice) (d : DeviceConfig) : gmap string managedDevice :=
  if String.eqb (TrimSpace (dc_UDID d)) "" then devs else <[dc_UDID d := adopted d]> devs.
Definition adoptConfiguredDevices (cfg : option DevicesConfig) : gmap string managedDevice :=
  match cfg with
  | None => ∅
  | Some cfg => foldl adopt_one ∅ (dcs_Devices cfg)
  end.
Definition NewDeviceManager (cfg : option DevicesConfig) : DeviceManager :=
  mkManager (adoptConfiguredDevices cfg) 0 "" false cfg 0 [].

(** ** Helpers that run under the lock *)
Section manager.
Context `{!MapRange managedDevice}.
Variable mc : ManagerConfig.

Definition emit (m : DeviceManager) (e : effect) : DeviceManager :=
  m <| dm_effects := dm_effects m ++ [e] |>.
Definition put (m : DeviceManager) (u : string) (d : managedDevice) : DeviceManager :=
  m <| dm_devices := <[u := d]> (dm_devices m) |>.

Definition markDirtyLocked (m : DeviceManager) : DeviceManager :=
  m <| dm_snapshotRev := (dm_snapshotRev m + 1)%Z |>.

(** sort.Slice by udid *)
Definition udid_le (a b : managedDevice) : Prop := String.le (md_udid a) (md_udid b).
#[export] Instance udid_le_dec : RelDecision udid_le.
Proof. unfold udid_le. solve_decision. Defined.
Definition sortedDevices (devices : gmap string managedDevice) : list managedDevice :=
  merge_sort udid_le (map snd (map_range devices)).

Definition snapshotLocked (m : DeviceManager) : report :=
  mkReport "" (dm_snapshotRev m) (dm_enumerateError m) (map toProto (sortedDevices (dm_devices m))).
Definition Snapshot (m : DeviceManager) (requestID : string) : report :=
  snapshotLocked m <| rep_RequestId := requestID |>.
Definition reportLocked (m : DeviceManager) : DeviceManager :=
  if mc_OnReport mc then emit m (EReport (snapshotLocked m)) else m.
(** The pair that ends almost every section. *)
Definition dirtyReport (m : DeviceManager) : DeviceManager := reportLocked (markDirtyLocked m).

Definition findLocked (m : DeviceManager) (deviceID udid : string) : option managedDevice :=
  let id := TrimSpace deviceID in
  let byID := if String.eqb id "" then None
              else snd <$> list_find (λ kd, md_deviceID kd.2 = id) (map_range (dm_devices m)) in
  match byID with
  | Some kd => Some kd.2
  | None =>
      let u := TrimSpace udid in
      if String.eqb u "" then None else dm_devices m !! u
  end.

Definition configPath : string :=
  let p := TrimSpace (mc_ConfigPath mc) in
  if negb (String.eqb p "") then p
  else match mc_configDir mc with
       | Err _ => "devices.json"
       | Ok dir => dir +:+ "/devices.json"
       end.

Definition configEntry (d : managedDevice) : DeviceConfig :=
  mkDeviceConfig (firstNonEmpty [md_name d; md_udid d]) (md_udid d) (md_transport d)
    (md_wdaBundle d) (md_xctest d) (md_hostWDAPort d) (md_credentialPath d).
Definition persistLocked (m : DeviceManager) (d : managedDevice) : DeviceManager :=
  match dm_config m with
  | None => m
  | Some cfg =>
      let cfg' := (Upsert cfg (configEntry d)).1 in
      emit (m <| dm_config := Some cfg' |>) (ESaveConfig configPath cfg')
  end.
Definition removeFromConfigLocked (m : DeviceManager) (udid : string) : DeviceManager :=
  match dm_config m with
  | None => m
  | Some cfg =>
      let cfg' := cfg <| dcs_Devices := filter (λ d, dc_UDID d ≠ udid) (dcs_Devices cfg) |> in
      emit (m <| dm_config := Some cfg' |>) (ESaveConfig configPath cfg')
  end.

Definition runConfig (d : managedDevice) : run_config :=
  mkRunConfig (md_credentialPath d) (md_udid d) (md_transport d) (md_wdaBundle d) (md_xctest d)
    (md_hostWDAPort d) (if String.eqb (mc_NodeID mc) "" then None else Some (mc_NodeID mc)).
Definition startDeviceLocked (m : DeviceManager) (d : managedDevice) : DeviceManager :=
  match md_cancel d with
  | Some _ => m
  | None =>
      if dm_stopped m then m else
      let id := dm_nextLoop m in
      let m := put m (md_udid d) (d <| md_cancel := Some id |> <| md_done := Some id |>) in
      emit (m <| dm_nextLoop := S id |>) (EStartLoop id (runConfig d))
  end.

(** ** Start-up and shutdown *)
Definition start_if_claimed (m : DeviceManager) (kd : string * managedDevice) : DeviceManager :=
  match dm_devices m !! kd.1 with
  | Some d => if md_claimed d && negb (String.eqb (md_credentialPath d) "")
              then startDeviceLocked m d else m
  | None => m
  end.
Definition StartClaimedDevices (m : DeviceManager) : DeviceManager :=
  foldl start_if_claimed m (map_range (dm_devices m)).
Definition Stop (m : DeviceManager) : DeviceManager :=
  let m := m <| dm_stopped := true |> in
  foldl (λ m kd, match md_cancel kd.2 with Some id => emit m (ECancelLoop id) | None => m end)
    m (map_range (dm_devices m)).

(** ** Claim *)
Record NodeIosClaimDevice := mkClaimReq {
  cl_Udid : string; cl_PairingCode : string; cl_ServerUrl : string; cl_DeviceLabel : string;
  cl_Transport : string; cl_WdaBundleId : string; cl_XctestConfigName : string;
  cl_ConfigRevision : Z }.

(** Up to the first unlock: the refusals, or the reservation together with
    the UDID, the label and the credential path of the pairing call. *)
Definition Claim_begin (m : DeviceManager) (req : NodeIosClaimDevice)
  : DeviceManager * result (string * string * string) :=
  let udid := TrimSpace (cl_Udid req) in
  if String.eqb udid "" then (m, Err "claim: udid is required") else
  if String.eqb (TrimSpace (cl_PairingCode req)) "" || String.eqb (TrimSpace (cl_ServerUrl req)) ""
  then (m, Err "claim: pairing_code and server_url are required") else
  match dm_devices m !! udid with
  | None => (m, Err ("claim: udid " +:+ udid +:+ " is not in this host's inventory"))
  | Some dev =>
      if md_claimed dev then (m, Err ("claim: udid " +:+ udid +:+ " is already claimed")) else
      if md_claiming dev then (m, Err ("claim: udid " +:+ udid +:+ " is already being claimed")) else
      let label := TrimSpace (cl_DeviceLabel req) in
      let name := if String.eqb label "" then firstNonEmpty [md_name dev; udid] else label in
      (put m udid (dev <| md_claiming := true |>),
       Ok (udid, name, DefaultCredentialPath configPath name))
  end.

Definition or_keep (new old : string) : string :=
  let t := TrimSpace new in if negb (String.eqb t "") then t else old.

(** The fields a successful pairing sets. *)
Definition claimed_device (dev : managedDevice) (req : NodeIosClaimDevice) (id credPath name : string)
  : managedDevice :=
  dev <| md_claimed := true |>
      <| md_deviceID := id |>
      <| md_credentialPath := credPath |>
      <| md_name := name |>
      <| md_lastError := "" |>
      <| md_transport := or_keep (cl_Transport req) (md_transport dev) |>
      <| md_wdaBundle := or_keep (cl_WdaBundleId req) (md_wdaBundle dev) |>
      <| md_xctest := or_keep (cl_XctestConfigName req) (md_xctest dev) |>
      <| md_configRevision := cl_ConfigRevision req |>.

(** After the pairing call: [paired] is the device_id of the credential. *)
Definition Claim_finish (m : DeviceManager) (req : NodeIosClaimDevice)
    (udid name credPath : string) (paired : result string) : DeviceManager * result string :=
  match dm_devices m !! udid with
  | None => (m, Err "unreachable: devices are never removed")
  | Some dev =>
      let dev := dev <| md_claiming := false |> in
      match paired with
      | Err e =>
          (dirtyReport (put m udid (dev <| md_lastError := "pairing failed: " +:+ e |>)),
           Err ("claim: redeem pairing code: " +:+ e))
      | Ok id =>
          let dev := claimed_device dev req id credPath name in
          let m := persistLocked (put m udid dev) dev in
          (dirtyReport (startDeviceLocked m dev), Ok id)
      end
  end.

(** The whole call, with [pair server code credPath] the pairing client. *)
Definition Claim (pair : string → string → string → result string)
    (m : DeviceManager) (req : NodeIosClaimDevice) : DeviceManager * result string :=
  match Claim_begin m req with
  | (m, Err e) => (m, Err e)
  | (m, Ok (udid, name, credPath)) =>
      Claim_finish m req udid name credPath
        (pair (TrimSpace (cl_ServerUrl req)) (TrimSpace (cl_PairingCode req)) credPath)
  end.

(** ** ControlRunner *)
Inductive IosRunnerControlAction :=
| RUNNER_CONTROL_START | RUNNER_CONTROL_STOP | RUNNER_CONTROL_RESTART
| RUNNER_CONTROL_OTHER (n : Z).   (** UNSPECIFIED and numbers the node does not know *)
#[export] Instance IosRunnerControlAction_eq_dec : EqDecision IosRunnerControlAction.
Proof. solve_decision. Defined.
Record NodeIosRunnerControl := mkControlReq {
  rc_Udid : string; rc_DeviceId : string; rc_Action : IosRunnerControlAction }.

(** The first section.  [inr handle]: the lock was dropped to cancel [handle]
    (and wait for it); RESTART then runs the second section. *)
Definition ControlRunner_begin (m : DeviceManager) (req : NodeIosRunnerControl)
  : DeviceManager * (result unit + option nat) :=
  let udid := TrimSpace (rc_Udid req) in
  let deviceID := TrimSpace (rc_DeviceId req) in
  match findLocked m deviceID udid with
  | None => (m, inl (Err ("runner control: device " +:+ describeTarget deviceID udid
                           +:+ " not found on this host")))
  | Some dev =>
      if String.eqb (md_credentialPath dev) "" then
        (m, inl (Err ("runner control: device " +:+ md_udid dev
                       +:+ " is not claimed (no credential on disk)")))
      else
      match rc_Action req with
      | RUNNER_CONTROL_START =>
          (if bool_decide (md_cancel dev = None) && negb (dm_stopped m) then
             let dev := dev <| md_userStopped := false |> in
             dirtyReport (startDeviceLocked (put m (md_udid dev) dev) dev)
           else m, inl (Ok ()))
      | RUNNER_CONTROL_STOP | RUNNER_CONTROL_RESTART =>
          let handle := md_cancel dev in
          let dev := dev <| md_cancel := None |>
                         <| md_done := None |>
                         <| md_userStopped := bool_decide (rc_Action req = RUNNER_CONTROL_STOP) |>
                         <| md_deviceControlOn := false |> in
          (dirtyReport (put m (md_udid dev) dev), inr handle)
      | RUNNER_CONTROL_OTHER n =>
          (m, inl (Err ("runner control: unknown action " +:+ pretty n)))
      end
  end.
Definition cancelLoop (m : DeviceManager) (handle : option nat) : DeviceManager :=
  match handle with Some id => emit m (ECancelLoop id) | None => m end.
(** The second section, reached by RESTART only. *)
Definition ControlRunner_restart (m : DeviceManager) (req : NodeIosRunnerControl) : DeviceManager :=
  match findLocked m (TrimSpace (rc_DeviceId req)) (TrimSpace (rc_Udid req)) with
  | None => m
  | Some dev =>
      if negb (String.eqb (md_credentialPath dev) "") && negb (dm_stopped m)
      then dirtyReport (startDeviceLocked m dev) else m
  end.
Definition ControlRunner (m : DeviceManager) (req : NodeIosRunnerControl)
  : DeviceManager * result unit :=
  match ControlRunner_begin m req with
  | (m, inl r) => (m, r)
  | (m, inr handle) =>
      let m := cancelLoop m handle in
      (if bool_decide (rc_Action req = RUNNER_CONTROL_RESTART)
       then ControlRunner_restart m req else m, Ok ())
  end.

(** ** Release *)
Record NodeIosReleaseDevice := mkReleaseReq {
  rl_Udid : string; rl_DeviceId : string; rl_DeleteCredential : bool }.
(** The section under the lock, with the handle to cancel and the credential
    to delete after it. *)
Definition Release_section (m : DeviceManager) (req : NodeIosReleaseDevice)
  : DeviceManager * result (option nat * string) :=
  match findLocked m (rl_DeviceId req) (rl_Udid req) with
  | None => (m, Err ("release: device " +:+ describeTarget (rl_DeviceId req) (rl_Udid req)
                      +:+ " not found on this host"))
  | Some dev =>
      let handle := md_cancel dev in
      let credPath := md_credentialPath dev in
      let dev := dev <| md_cancel := None |>
                     <| md_claimed := false |>
                     <| md_deviceID := "" |>
                     <| md_deviceControlOn := false |>
                     <| md_wdaState := IOS_WDA_STATE_UNSPECIFIED |>
                     <| md_credentialPath := if rl_DeleteCredential req then "" else md_credentialPath dev |> in
      (dirtyReport (removeFromConfigLocked (put m (md_udid dev) dev) (md_udid dev)),
       Ok (handle, credPath))
  end.
Definition Release (m : DeviceManager) (req : NodeIosReleaseDevice) : DeviceManager * result unit :=
  match Release_section m req with
  | (m, Err e) => (m, Err e)
  | (m, Ok (handle, credPath)) =>
      let m := cancelLoop m handle in
      (if rl_DeleteCredential req && negb (String.eqb credPath "")
       then emit m (ERemoveFile credPath) else m, Ok ())
  end.

(** ** ConfigureDevice *)
Record NodeIosConfigureDevice := mkConfigureReq {
  cf_Udid : string; cf_DeviceId : string; cf_ConfigRevision : Z; cf_Transport : string;
  cf_WdaBundleId : string; cf_XctestConfigName : string; cf_HostWdaPort : Z;
  cf_RenewBeforeDays : Z }.

(** [if t := TrimSpace(new); t != "" && t != old { old = t; restart = true }] *)
Definition configure_string (new old : string) (restart : bool) : string * bool :=
  let t := TrimSpace new in
  if negb (String.eqb t "") && negb (String.eqb t old) then (t, true) else (old, restart).

Definition configured (dev : managedDevice) (req : NodeIosConfigureDevice) : managedDevice * bool :=
  let '(t, restart) := configure_string (cf_Transport req) (md_transport dev) false in
  let '(b, restart) := configure_string (cf_WdaBundleId req) (md_wdaBundle dev) restart in
  let '(x, restart) := configure_string (cf_XctestConfigName req) (md_xctest dev) restart in
  let '(p, restart) := if negb (cf_HostWdaPort req =? md_hostWDAPort dev)%Z
                       then (cf_HostWdaPort req, true) else (md_hostWDAPort dev, restart) in
  let renew := if (0 <? cf_RenewBeforeDays req)%Z then cf_RenewBeforeDays req
               else if (md_renewBeforeDays dev <=? 0)%Z then 14%Z else md_renewBeforeDays dev in
  (dev <| md_transport := t |> <| md_wdaBundle := b |> <| md_xctest := x |>
       <| md_hostWDAPort := p |> <| md_renewBeforeDays := renew |>
       <| md_configRevision := cf_ConfigRevision req |>, restart).

(** First section.  [Ok (applied, None)] with the manager unchanged is the
    revision gate; otherwise the UDID to report for and the handle to restart. *)
Definition ConfigureDevice_begin (m : DeviceManager) (req : NodeIosConfigureDevice)
  : DeviceManager * result (Z * option (string * option nat)) :=
  match findLocked m (cf_DeviceId req) (cf_Udid req) with
  | None => (m, Err ("configure: device " +:+ describeTarget (cf_DeviceId req) (cf_Udid req)
                      +:+ " not found on this host"))
  | Some dev =>
      let rev := cf_ConfigRevision req in
      if negb (rev =? 0)%Z && (rev <=? md_configRevision dev)%Z
      then (m, Ok (md_configRevision dev, None))
      else
        let '(dev, restart) := configured dev req in
        let m := persistLocked (put m (md_udid dev) dev) dev in
        match md_cancel dev with
        | Some id =>
            if restart then
              (markDirtyLocked (put m (md_udid dev) (dev <| md_cancel := None |> <| md_done := None |>)),
               Ok (md_configRevision dev, Some (md_udid dev, Some id)))
            else (markDirtyLocked m, Ok (md_configRevision dev, Some (md_udid dev, None)))
        | None => (markDirtyLocked m, Ok (md_configRevision dev, Some (md_udid dev, None)))
        end
  end.
(** Second section, after the old loop was cancelled and waited for. *)
Definition ConfigureDevice_restart (m : DeviceManager) (udid : string) : DeviceManager :=
  reportLocked
    match dm_devices m !! udid with
    | Some dev => if md_claimed dev && negb (String.eqb (md_credentialPath dev) "")
                  then startDeviceLocked m dev else m
    | None => m
    end.
Definition ConfigureDevice (m : DeviceManager) (req : NodeIosConfigureDevice)
  : DeviceManager * result Z :=
  match ConfigureDevice_begin m req with
  | (m, Err e) => (m, Err e)
  | (m, Ok (applied, None)) => (m, Ok applied)
  | (m, Ok (applied, Some (udid, Some id))) =>
      (ConfigureDevice_restart (emit m (ECancelLoop id)) udid, Ok applied)
  | (m, Ok (applied, Some (_, None))) => (reportLocked m, Ok applied)
  end.

(** ** Queries *)
Definition IsPresent (m : DeviceManager) (udid : string) : bool :=
  let udid := TrimSpace udid in
  if String.eqb udid "" then false
  else match dm_devices m !! udid with
       | Some d => md_present d || md_lanOn d
       | None => false
       end.
Definition ClaimedUDIDs (m : DeviceManager) : list string :=
  map fst (filter (λ kd, md_claimed kd.2 = true ∧ TrimSpace (md_credentialPath kd.2) ≠ "")
             (map_range (dm_devices m))).

(** ** Discovery *)
Definition upsertLocked (devs : gmap string managedDevice) (d : EnumeratedDevice) (info : DeviceInfo)
  : gmap string managedDevice * bool :=
  let known := devs !! en_UDID d in
  let dev := default (zeroDevice (en_UDID d)) known in
  let changed := bool_decide (known = None) || negb (md_present dev) in
  let dev := dev <| md_present := true |> in
  let ct := toConnectionType (en_ConnectionType d) in
  let '(dev, changed) := if negb (bool_decide (ct = md_connectionType dev))
                         then (dev <| md_connectionType := ct |>, true) else (dev, changed) in
  let '(dev, changed) := if negb (String.eqb (di_Name info) "")
                            && negb (String.eqb (di_Name info) (md_name dev))
                            && String.eqb (md_name dev) ""
                         then (dev <| md_name := di_Name info |>, true) else (dev, changed) in
  let '(dev, changed) := if negb (String.eqb (di_Model info) "")
                            && negb (String.eqb (di_Model info) (md_model dev))
                         then (dev <| md_model := di_Model info |>, true) else (dev, changed) in
  let '(dev, changed) := if negb (String.eqb (di_ProductVersion info) "")
                            && negb (String.eqb (di_ProductVersion info) (md_productVersion dev))
                         then (dev <| md_productVersion := di_ProductVersion info |>, true)
                         else (dev, changed) in
  (<[en_UDID d := dev]> devs, changed).

(** The clock and its calendar: time.Parse(time.RFC3339, s) in nanoseconds,
    and now.AddDate(0, 0, days), which depends on the host's time zone. *)
Record calendar := mkCalendar {
  cal_parse : string → option Z;
  cal_addDays : Z → Z → Z }.
Variable cal : calendar.

Definition refresh_device (now : Z) (d : managedDevice) : managedDevice * bool :=
  if negb (bool_decide (md_wdaState d = IOS_WDA_STATE_READY))
     && negb (bool_decide (md_wdaState d = IOS_WDA_STATE_INSTALLED))
     && negb (bool_decide (md_wdaState d = IOS_WDA_STATE_RENEWAL_DUE))
  then (d, false) else
  match cal_parse cal (TrimSpace (md_profileExpiresAt d)) with
  | None => (d, false)
  | Some exp =>
      let window := if (0 <? md_renewBeforeDays d)%Z then md_renewBeforeDays d else 14%Z in
      if (exp <? now)%Z then (d <| md_wdaState := IOS_WDA_STATE_EXPIRED |>, true)
      else if (exp <? cal_addDays cal now window)%Z
      then (d <| md_wdaState := IOS_WDA_STATE_RENEWAL_DUE |>, true)
      else (d, false)
  end.
Definition refreshWdaExpiryLocked (devs : gmap string managedDevice) (now : Z)
  : gmap string managedDevice * bool :=
  ((λ d, (refresh_device now d).1) <$> devs,
   existsb (λ kd, (refresh_device now kd.2).2) (map_to_list devs)).

Definition infos_of (lookup : EnumeratedDevice → option DeviceInfo) (l : list EnumeratedDevice)
  : gmap string DeviceInfo :=
  foldl (λ infos d, match lookup d with Some i => <[en_UDID d := i]> infos | None => infos end) ∅ l.

(** The section of applySnapshot: upserts, the devices that disappeared, the
    enumeration error, the expiry clock, and a report if anything changed. *)
Definition applySnapshot_section (m : DeviceManager) (lookup : EnumeratedDevice → option DeviceInfo)
    (l : list EnumeratedDevice) (now : Z) : DeviceManager :=
  let infos := infos_of lookup l in
  let '(devs, changed) :=
    foldl (λ acc d,
             let '(devs, ch) := upsertLocked acc.1 d (default noInfo (infos !! en_UDID d)) in
             (devs, acc.2 || ch)) (dm_devices m, false) l in
  let seen u := bool_decide (u ∈ map en_UDID l) in
  let gone := existsb (λ kd, negb (seen kd.1) && md_present kd.2) (map_to_list devs) in
  let devs := map_imap (λ u d, Some (if negb (seen u) && md_present d
                                     then d <| md_present := false |> else d)) devs in
  let cleared := negb (String.eqb (dm_enumerateError m) "") in
  let '(devs, expiry) := refreshWdaExpiryLocked devs now in
  let m := m <| dm_devices := devs |> <| dm_enumerateError := "" |> in
  if changed || gone || cleared || expiry then dirtyReport m else m.

(** probeControl: the devices to nudge, then one START each *)
Definition probe_eligible (d : managedDevice) : bool :=
  bool_decide (md_wdaState d = IOS_WDA_STATE_INSTALLED) && negb (md_userStopped d)
  && md_present d && md_claimed d && negb (String.eqb (md_credentialPath d) "")
  && negb (md_deviceControlOn d).
Definition probe_targets (m : DeviceManager) : list string :=
  map fst (filter (λ kd, probe_eligible kd.2 = true) (map_range (dm_devices m))).
Definition startRequest (udid : string) : NodeIosRunnerControl :=
  mkControlReq udid "" RUNNER_CONTROL_START.
Definition probeControl (m : DeviceManager) : DeviceManager :=
  foldl (λ m udid, (ControlRunner m (startRequest udid)).1) m (probe_targets m).

Definition applySnapshot (m : DeviceManager) (lookup : EnumeratedDevice → option DeviceInfo)
    (l : list EnumeratedDevice) (now : Z) : DeviceManager :=
  probeControl (applySnapshot_section m lookup l now).

(** Rescan, on the outcome of [enum.List] *)
Definition Rescan (m : DeviceManager) (lookup : EnumeratedDevice → option DeviceInfo)
    (listed : result (list EnumeratedDevice)) (now : Z) : DeviceManager :=
  match listed with
  | Err e =>
      reportLocked (if negb (String.eqb (dm_enumerateError m) e)
                    then markDirtyLocked (m <| dm_enumerateError := e |>) else m)
  | Ok l => applySnapshot m lookup l now
  end.

(** The section of run when the event stream cannot be opened *)
Definition stream_unavailable (m : DeviceManager) (e : string) : DeviceManager :=
  markDirtyLocked (m <| dm_enumerateError := "device event stream unavailable: " +:+ e |>).

(** The section of a detach, and the section an attach runs before Rescan *)
Definition applyEvent_detach (m : DeviceManager) (udid : string) : DeviceManager :=
  match dm_devices m !! udid with
  | Some dev =>
      if md_present dev
      then dirtyReport (put m udid (dev <| md_present := false |> <| md_deviceControlOn := false |>))
      else m
  | None => m
  end.
Definition applyEvent_attach (m : DeviceManager) (udid : string) : DeviceManager :=
  match dm_devices m !! udid with
  | Some dev => put m udid (dev <| md_userStopped := false |>)
  | None => m
  end.
Definition applyEvent (m : DeviceManager) (lookup : EnumeratedDevice → option DeviceInfo)
    (listed : result (list EnumeratedDevice)) (now : Z) (ev : DeviceEvent) : DeviceManager :=
  if negb (ev_Attached ev) then applyEvent_detach m (ev_UDID ev)
  else Rescan (applyEvent_attach m (ev_UDID ev)) lookup listed now.

(** ** Callbacks of the device loop *)
(** The goroutine's last section: [err] of [runner.Run], and whether the run
    context had been cancelled. *)
Definition loop_end (m : DeviceManager) (udid : string) (err : option string) (cancelled : bool)
  : DeviceManager :=
  match dm_devices m !! udid with
  | None => m
  | Some d =>
      let d := d <| md_deviceControlOn := false |> in
      let d := match err with
               | Some e => if cancelled then d else d <| md_lastError := e |>
               | None => d
               end in
      dirtyReport (put m udid d)
  end.

(** onDeviceState, with [online] for [s == StateConnected] *)
Definition onDeviceState (m : DeviceManager) (udid : string) (online : bool) : DeviceManager :=
  match dm_devices m !! udid with
  | None => m
  | Some d =>
      if Bool.eqb online (md_deviceControlOn d) then m else
      let prep := bool_decide (md_wdaState d = IOS_WDA_STATE_PREPARING) in
      let ready := bool_decide (md_wdaState d = IOS_WDA_STATE_READY) in
      let d := d <| md_deviceControlOn := online |> in
      let d := if online && negb prep then d <| md_wdaState := IOS_WDA_STATE_READY |> <| md_lastError := "" |>
               else if negb online && ready then d <| md_wdaState := IOS_WDA_STATE_INSTALLED |>
               else d in
      dirtyReport (put m udid d)
  end.

Definition wipedError : string := "credential wiped by server; re-claim required".
Definition onDeviceWipe (m : DeviceManager) (udid : string) : DeviceManager :=
  match dm_devices m !! udid with
  | None => m
  | Some d =>
      dirtyReport (put m udid (d <| md_claimed := false |> <| md_deviceID := "" |>
                                 <| md_deviceControlOn := false |> <| md_lastError := wipedError |>))
  end.

(** ** WDA job write-back *)
Definition wdaStateKey (d : managedDevice) : string :=
  itoa (wda_number (md_wdaState d)) +:+ "|" +:+ pretty (md_wdaProgress d) +:+ "|"
  +:+ md_wdaStage d +:+ "|" +:+ md_profileExpiresAt d +:+ "|" +:+ md_lastError d.

Definition noteWdaState (m : DeviceManager) (udid : string) (fn : managedDevice → managedDevice)
  : DeviceManager :=
  let udid := TrimSpace udid in
  if String.eqb udid "" then m else
  match findLocked m "" udid with
  | None => m
  | Some d =>
      let d' := fn d in
      let m := put m (md_udid d) d' in
      if String.eqb (wdaStateKey d') (wdaStateKey d) then m else dirtyReport m
  end.

Definition NoteWdaJobStarted (m : DeviceManager) (udid : string) : DeviceManager :=
  noteWdaState m udid (λ d, d <| md_wdaState := IOS_WDA_STATE_PREPARING |>
                              <| md_wdaProgress := 0%Z |> <| md_wdaStage := "queued" |>).

Definition clampPercent (percent : Z) : Z :=
  let percent := if (percent <? 0)%Z then 0%Z else percent in
  if (100 <? percent)%Z then 100%Z else percent.
Definition progressed (percent : Z) (stage : string) (d : managedDevice) : managedDevice :=
  if negb (bool_decide (md_wdaState d = IOS_WDA_STATE_PREPARING)) then d
  else d <| md_wdaProgress := percent |> <| md_wdaStage := or_keep stage (md_wdaStage d) |>.
Definition NoteWdaJobProgress (m : DeviceManager) (udid : string) (percent : Z) (stage : string)
  : DeviceManager :=
  noteWdaState m udid (progressed (clampPercent percent) stage).

(** The reason shown for a failure: the message, else the code, else as before *)
Definition failure_text (message errorCode old : string) : string :=
  let msg := TrimSpace message in
  if negb (String.eqb msg "") then msg else or_keep errorCode old.
Definition job_result (ok cancelled installed : bool) (errorCode message profileExpiresAt : string)
    (d : managedDevice) : managedDevice :=
  let d := d <| md_wdaProgress := 0%Z |> <| md_wdaStage := "" |> in
  if cancelled then
    if bool_decide (md_wdaState d = IOS_WDA_STATE_PREPARING)
    then d <| md_wdaState := IOS_WDA_STATE_MISSING |> else d
  else if ok || installed then
    let d := d <| md_wdaState := if md_deviceControlOn d then IOS_WDA_STATE_READY
                                 else IOS_WDA_STATE_INSTALLED |>
               <| md_profileExpiresAt := or_keep profileExpiresAt (md_profileExpiresAt d) |> in
    d <| md_lastError := if negb ok then failure_text message errorCode (md_lastError d) else "" |>
  else
    d <| md_wdaState := IOS_WDA_STATE_FAILED |>
      <| md_lastError := failure_text message errorCode (md_lastError d) |>.
Definition NoteWdaJobResult (m : DeviceManager) (udid : string) (ok cancelled installed : bool)
    (errorCode message profileExpiresAt : string) : DeviceManager :=
  noteWdaState m udid (job_result ok cancelled installed errorCode message profileExpiresAt).

(** ** LAN tunnel write-back *)
Definition NoteLanReachable (m : DeviceManager) (udid : string) (on : bool) : DeviceManager :=
  let udid := TrimSpace udid in
  if String.eqb udid "" then m else
  match dm_devices m !! udid with
  | None => m
  | Some d =>
      if Bool.eqb (md_lanOn d) on then m else
      let d := d <| md_lanOn := on |> in
      if negb on && md_present d then put m udid d
      else dirtyReport (put m udid (if on then d <| md_lastError := "" |> else d))
  end.
Definition lanPairingHint : string :=
  "局域网配对：请在 iPhone 上点按「信任」，允许此电脑控制设备（仅首次）".
Definition NoteLanPairingPending (m : DeviceManager) (udid : string) : DeviceManager :=
  let udid := TrimSpace udid in
  if String.eqb udid "" then m else
  match dm_devices m !! udid with
  | None => m
  | Some d =>
      if md_lanOn d then m
      else dirtyReport (put m udid (d <| md_lastError := lanPairingHint |>))
  end.

(** ** The sections as one transition system

    A label is one critical section; an in-flight Claim is recorded by its
    request so that its second section runs with what the first one
    computed. *)
Record inflight := mkInflight {
  if_req : NodeIosClaimDevice; if_udid : string; if_name : string; if_cred : string }.
Record msys := mkMsys { ms_mgr : DeviceManager; ms_pairing : list inflight }.
#[export] Instance eta_msys : Settable msys := λ s, mkMsys (ms_mgr s) (ms_pairing s).

Inductive mstep : msys → msys → Prop :=
| st_claim_begin s req m' udid name cred :
    Claim_begin (ms_mgr s) req = (m', Ok (udid, name, cred)) →
    mstep s (mkMsys m' (mkInflight req udid name cred :: ms_pairing s))
| st_claim_refused s req m' e :
    Claim_begin (ms_mgr s) req = (m', Err e) → mstep s (s <| ms_mgr := m' |>)
| st_claim_finish s l1 f l2 paired :
    ms_pairing s = l1 ++ f :: l2 →
    mstep s (mkMsys (Claim_finish (ms_mgr s) (if_req f) (if_udid f) (if_name f) (if_cred f) paired).1
                    (l1 ++ l2))
| st_control s req : mstep s (s <| ms_mgr := (ControlRunner_begin (ms_mgr s) req).1 |>)
| st_restart s req : mstep s (s <| ms_mgr := ControlRunner_restart (ms_mgr s) req |>)
| st_cancel s h : mstep s (s <| ms_mgr := cancelLoop (ms_mgr s) h |>)
| st_release s req : mstep s (s <| ms_mgr := (Release_section (ms_mgr s) req).1 |>)
| st_configure s req : mstep s (s <| ms_mgr := (ConfigureDevice_begin (ms_mgr s) req).1 |>)
| st_reconfigure s u : mstep s (s <| ms_mgr := ConfigureDevice_restart (ms_mgr s) u |>)
| st_report s : mstep s (s <| ms_mgr := reportLocked (ms_mgr s) |>)
| st_start_claimed s : mstep s (s <| ms_mgr := StartClaimedDevices (ms_mgr s) |>)
| st_stop s : mstep s (s <| ms_mgr := Stop (ms_mgr s) |>)
| st_snapshot s lookup l now : mstep s (s <| ms_mgr := applySnapshot_section (ms_mgr s) lookup l now |>)
| st_enum_error s e now : mstep s (s <| ms_mgr := Rescan (ms_mgr s) (λ _, None) (Err e) now |>)
| st_stream s e : mstep s (s <| ms_mgr := stream_unavailable (ms_mgr s) e |>)
| st_detach s u : mstep s (s <| ms_mgr := applyEvent_detach (ms_mgr s) u |>)
| st_attach s u : mstep s (s <| ms_mgr := applyEvent_attach (ms_mgr s) u |>)
| st_loop_end s u err c : mstep s (s <| ms_mgr := loop_end (ms_mgr s) u err c |>)
| st_loop_state s u on : mstep s (s <| ms_mgr := onDeviceState (ms_mgr s) u on |>)
| st_wipe s u : mstep s (s <| ms_mgr := onDeviceWipe (ms_mgr s) u |>)
| st_job_started s u : mstep s (s <| ms_mgr := NoteWdaJobStarted (ms_mgr s) u |>)
| st_job_progress s u p st : mstep s (s <| ms_mgr := NoteWdaJobProgress (ms_mgr s) u p st |>)
| st_job_result s u ok ca ins ec msg ex :
    mstep s (s <| ms_mgr := NoteWdaJobResult (ms_mgr s) u ok ca ins ec msg ex |>)
| st_lan s u on : mstep s (s <| ms_mgr := NoteLanReachable (ms_mgr s) u on |>)
| st_lan_pairing s u : mstep s (s <| ms_mgr := NoteLanPairingPending (ms_mgr s) u |>).

End manager.

(** The manager NewDeviceManager builds, with no pairing in flight *)
Definition minit (cfg : option DevicesConfig) : msys := mkMsys (NewDeviceManager cfg) [].
