(* ===== verification/DeviceManagerProofs.v ===== *)
(** * DeviceManagerProofs: what the device state centre guarantees

    The lemmas frame each critical section of DeviceManager ([quiet]: it
    neither claims a device nor touches a reservation; [discovered]: what a
    device listing may change), and lift them to the step relation [mstep]
    as one invariant [manager_inv].  The theorems at the end state the
    behaviour of the operations: pairing, revision gate, discovery, release,
    control probe, reports, and the places where a stale loop handle or a
    stale READY survives. *)
From S2P Require Import Prelude GoStrings GoPath DevicesConfig DeviceManager.

(** ** What the sections do to the device map *)
Create HintDb devs.
Create Rewrite HintDb devs.
Lemma devices_emit m e : dm_devices (emit m e) = dm_devices m.
Proof. done. Qed.
Lemma devices_put m u d : dm_devices (put m u d) = <[u := d]> (dm_devices m).
Proof. done. Qed.
Lemma devices_markDirty m : dm_devices (markDirtyLocked m) = dm_devices m.
Proof. done. Qed.
Lemma devices_report `{!MapRange managedDevice} mc m : dm_devices (reportLocked mc m) = dm_devices m.
Proof. unfold reportLocked. by case_match. Qed.
Lemma devices_dirtyReport `{!MapRange managedDevice} mc m : dm_devices (dirtyReport mc m) = dm_devices m.
Proof. unfold dirtyReport. by rw devices_report. Qed.
Lemma devices_persist mc m d : dm_devices (persistLocked mc m d) = dm_devices m.
Proof. unfold persistLocked. by case_match. Qed.
Lemma devices_removeFromConfig mc m u : dm_devices (removeFromConfigLocked mc m u) = dm_devices m.
Proof. unfold removeFromConfigLocked. by case_match. Qed.
Lemma devices_cancelLoop m h : dm_devices (cancelLoop m h) = dm_devices m.
Proof. by destruct h. Qed.
Definition started (m : DeviceManager) (d : managedDevice) : managedDevice :=
  match md_cancel d with
  | None => if dm_stopped m then d
            else d <| md_cancel := Some (dm_nextLoop m) |> <| md_done := Some (dm_nextLoop m) |>
  | Some _ => d
  end.
Lemma devices_start mc m d :
  dm_devices m !! md_udid d = Some d →
  dm_devices (startDeviceLocked mc m d) = <[md_udid d := started m d]> (dm_devices m).
Proof.
  intros H. unfold startDeviceLocked, started.
  destruct (md_cancel d); [by rw insert_id|]. destruct (dm_stopped m); [by rw insert_id|]. done.
Qed.
#[export] Hint Rewrite devices_emit devices_put devices_markDirty @devices_report
  @devices_dirtyReport devices_persist devices_removeFromConfig devices_cancelLoop : devs.

Lemma stopped_report `{!MapRange managedDevice} mc m : dm_stopped (reportLocked mc m) = dm_stopped m.
Proof. unfold reportLocked. by case_match. Qed.
Lemma stopped_persist mc m d : dm_stopped (persistLocked mc m d) = dm_stopped m.
Proof. unfold persistLocked. by case_match. Qed.

(** Entries are keyed by their own UDID. *)
Definition keyed (devs : gmap string managedDevice) : Prop :=
  ∀ u d, devs !! u = Some d → md_udid d = u.

Lemma findLocked_some `{!MapRange managedDevice} m id u d :
  keyed (dm_devices m) → findLocked m id u = Some d →
  dm_devices m !! md_udid d = Some d.
Proof.
  intros Hk. unfold findLocked. cbv zeta.
  destruct (if String.eqb (TrimSpace id) "" then None else _) as [[k d']|] eqn:E.
  - intros [= <-]. destruct (String.eqb _ _); [done|].
    destruct (list_find _ _) as [[i x]|] eqn:F; [|done]. simplify_eq/=.
    apply list_find_Some in F as (Hl & _ & _).
    apply list_elem_of_lookup_2 in Hl. apply elem_of_map_range in Hl. by rw (Hk _ _ Hl).
  - destruct (String.eqb (TrimSpace u) _); [done|]. intros H. by rw (Hk _ _ H).
Qed.

(** A relation lifted to device maps: old devices are related, new devices
    satisfy [N], none disappears. *)
Definition dev_rel (R : managedDevice → managedDevice → Prop) (N : string → managedDevice → Prop)
    (devs devs' : gmap string managedDevice) : Prop :=
  ∀ u, match devs !! u, devs' !! u with
       | Some d, Some d' => R d d'
       | None, Some d' => N u d'
       | None, None => True
       | Some _, None => False
       end.
Lemma dev_rel_refl R N devs : (∀ d, R d d) → dev_rel R N devs devs.
Proof. intros HR u. by destruct (devs !! u). Qed.
Lemma dev_rel_insert (R : managedDevice → managedDevice → Prop) N devs u d d' :
  (∀ d, R d d) → devs !! u = Some d → R d d' → dev_rel R N devs (<[u := d']> devs).
Proof.
  intros HR Hu Hd v. destruct (decide (u = v)) as [<-|Hne].
  - by rw Hu lookup_insert_eq.
  - rw lookup_insert_ne //. by destruct (devs !! v).
Qed.

(** What every section other than Claim's guarantees for a device. *)
Definition quiet (d d' : managedDevice) : Prop :=
  md_udid d' = md_udid d ∧ md_claiming d' = md_claiming d ∧
  (md_claimed d' = true → md_claimed d = true) ∧
  (md_wdaState d' = IOS_WDA_STATE_READY →
     md_wdaState d = IOS_WDA_STATE_READY ∨ md_deviceControlOn d' = true) ∧
  ((0 ≤ md_wdaProgress d ≤ 100)%Z → (0 ≤ md_wdaProgress d' ≤ 100)%Z).
Definition fresh_device (u : string) (d : managedDevice) : Prop :=
  md_udid d = u ∧ md_claiming d = false ∧ md_claimed d = false ∧
  md_wdaState d ≠ IOS_WDA_STATE_READY ∧ md_wdaProgress d = 0%Z.
(** Nothing but the loop handles and the operator's pin differs. *)
Definition same_but_handles (d d' : managedDevice) : Prop :=
  d' = d <| md_cancel := md_cancel d' |> <| md_done := md_done d' |> <| md_userStopped := md_userStopped d' |>.

Ltac quiet_auto := unfold quiet; simpl; split_and!; auto; try (intros; congruence).
Lemma quiet_refl d : quiet d d.
Proof. quiet_auto. Qed.
Lemma quiet_handles d d' : same_but_handles d d' → quiet d d'.
Proof. intros H. unfold quiet. rw H. quiet_auto. Qed.
Lemma handles_refl d : same_but_handles d d.
Proof. by destruct d. Qed.
Lemma handles_started m d : same_but_handles d (started m d).
Proof. destruct d. unfold started, same_but_handles. by repeat case_match. Qed.
Lemma quiet_trans_handles d1 d2 d3 : quiet d1 d2 → same_but_handles d2 d3 → quiet d1 d3.
Proof. intros H1 H2. unfold quiet in *. by rw H2. Qed.
#[export] Hint Resolve quiet_refl handles_refl handles_started quiet_handles : devs.

Definition quiet_step (m m' : DeviceManager) : Prop :=
  dev_rel quiet fresh_device (dm_devices m) (dm_devices m').

Lemma quiet_put m u d d' :
  dm_devices m !! u = Some d → quiet d d' →
  dev_rel quiet fresh_device (dm_devices m) (<[u := d']> (dm_devices m)).
Proof. intros. eapply dev_rel_insert; eauto with devs. Qed.

Section sections.
Context `{!MapRange managedDevice} (mc : ManagerConfig) (cal : calendar).
Implicit Types m : DeviceManager.

Ltac quiet_same := solve [apply dev_rel_refl; eauto with devs].

Lemma quiet_control m req :
  keyed (dm_devices m) → quiet_step m (ControlRunner_begin mc m req).1.
Proof.
  intros Hk. unfold quiet_step, ControlRunner_begin.
  destruct (findLocked m _ _) as [d|] eqn:Hf; [|quiet_same].
  apply findLocked_some in Hf; [|done].
  destruct (String.eqb _ _); [quiet_same|].
  destruct (rc_Action req); simpl fst; try quiet_same; autorewrite with devs.
  - destruct (_ && _); [|quiet_same]. autorewrite with devs.
    rw devices_start; autorewrite with devs; [|by rw lookup_insert_eq].
    rw insert_insert_eq. eapply quiet_put; [done|]. apply quiet_handles.
    destruct d. unfold started, same_but_handles; by repeat case_match.
  - eapply quiet_put; [done|]. quiet_auto.
  - eapply quiet_put; [done|]. quiet_auto.
Qed.

Lemma quiet_restart m req :
  keyed (dm_devices m) → quiet_step m (ControlRunner_restart mc m req).
Proof.
  intros Hk. unfold quiet_step, ControlRunner_restart.
  destruct (findLocked m _ _) as [d|] eqn:Hf; [|quiet_same].
  apply findLocked_some in Hf; [|done]. destruct (_ && _); [|quiet_same].
  autorewrite with devs. rw devices_start //. eapply quiet_put; eauto with devs.
Qed.

Lemma quiet_release m req :
  keyed (dm_devices m) → quiet_step m (Release_section mc m req).1.
Proof.
  intros Hk. unfold quiet_step, Release_section.
  destruct (findLocked m _ _) as [d|] eqn:Hf; [|quiet_same].
  apply findLocked_some in Hf; [|done]. simpl fst. autorewrite with devs.
  eapply quiet_put; [done|]. quiet_auto.
Qed.

Lemma configured_fields d req :
  let d' := (configured d req).1 in
  md_udid d' = md_udid d ∧ md_claiming d' = md_claiming d ∧ md_claimed d' = md_claimed d ∧
  md_wdaState d' = md_wdaState d ∧ md_deviceControlOn d' = md_deviceControlOn d ∧
  md_wdaProgress d' = md_wdaProgress d ∧ md_cancel d' = md_cancel d ∧
  md_configRevision d' = cf_ConfigRevision req ∧ md_credentialPath d' = md_credentialPath d.
Proof.
  unfold configured. repeat (destruct (configure_string _ _ _)). by destruct (negb _).
Qed.

Lemma configured_id d req : md_deviceID (configured d req).1 = md_deviceID d.
Proof. unfold configured. repeat (destruct (configure_string _ _ _)). by destruct (negb _). Qed.

Lemma quiet_configure m req :
  keyed (dm_devices m) → quiet_step m (ConfigureDevice_begin mc m req).1.
Proof.
  intros Hk. unfold quiet_step, ConfigureDevice_begin.
  destruct (findLocked m _ _) as [d|] eqn:Hf; [|quiet_same].
  apply findLocked_some in Hf; [|done]. destruct (_ && _); [quiet_same|].
  pose proof (configured_fields d req) as Hc. destruct (configured d req) as [d' restart]; simpl in Hc.
  destruct Hc as (Hu & Hcl & Hcd & Hw & Hon & Hp & _).
  assert (quiet d d') by (unfold quiet; rw Hu Hcl Hcd Hw Hp; split_and!; auto).
  destruct (md_cancel d'); [destruct restart|]; simpl fst; autorewrite with devs; rw ?Hu;
    rw ?insert_insert_eq; (eapply quiet_put; [done|]); try done.
Qed.

Lemma quiet_reconfigure m u :
  keyed (dm_devices m) → quiet_step m (ConfigureDevice_restart mc m u).
Proof.
  intros Hk. unfold quiet_step, ConfigureDevice_restart. autorewrite with devs.
  destruct (dm_devices m !! u) as [d|] eqn:Hd; [|quiet_same]. pose proof (Hk _ _ Hd) as Hu.
  destruct (_ && _); [|quiet_same]. rw devices_start; [|by rw Hu].
  rw Hu. eapply quiet_put; eauto with devs.
Qed.

Lemma quiet_note m u fn :
  keyed (dm_devices m) → (∀ d, quiet d (fn d)) → quiet_step m (noteWdaState mc m u fn).
Proof.
  intros Hk Hfn. unfold quiet_step, noteWdaState. destruct (String.eqb _ _); [quiet_same|].
  destruct (findLocked m _ _) as [d|] eqn:Hf; [|quiet_same].
  apply findLocked_some in Hf; [|done].
  destruct (String.eqb (wdaStateKey _) _); autorewrite with devs; by eapply quiet_put.
Qed.

Lemma clampPercent_bounds p : (0 ≤ clampPercent p ≤ 100)%Z.
Proof. unfold clampPercent. repeat case_match; go_bool; lia. Qed.
Lemma quiet_progressed p st d : quiet d (progressed (clampPercent p) st d).
Proof.
  unfold progressed. case_match; [apply quiet_refl|]. pose proof (clampPercent_bounds p).
  quiet_auto.
Qed.
Lemma quiet_job_result ok ca ins ec msg ex d : quiet d (job_result ok ca ins ec msg ex d).
Proof.
  unfold job_result. destruct d as [? ? ? ? ? ? ? ? ? ? ? ? ? ? ? ? on st]. simpl.
  destruct ca; [case_bool_decide|destruct (ok || ins); [destruct on|]];
    unfold quiet; simpl; split_and!; auto; try lia; done.
Qed.

Lemma quiet_state m u on : keyed (dm_devices m) → quiet_step m (onDeviceState mc m u on).
Proof.
  intros Hk. unfold quiet_step, onDeviceState.
  destruct (dm_devices m !! u) as [d|] eqn:Hd; [|quiet_same].
  destruct (Bool.eqb _ _); [quiet_same|]. autorewrite with devs. eapply quiet_put; [done|].
  destruct on; simpl; [destruct (bool_decide (_ = IOS_WDA_STATE_PREPARING)) eqn:E
                      |destruct (bool_decide (_ = IOS_WDA_STATE_READY)) eqn:E];
    go_bool; unfold quiet; simpl; split_and!; auto; congruence.
Qed.

(** The sections that touch one known device in a fixed way. *)
Lemma quiet_match m u f :
  (∀ d, quiet d (f d)) →
  dev_rel quiet fresh_device (dm_devices m)
    (dm_devices match dm_devices m !! u with
                | None => m
                | Some d => dirtyReport mc (put m u (f d))
                end).
Proof.
  intros Hf. destruct (dm_devices m !! u) as [d|] eqn:Hd; [|quiet_same].
  autorewrite with devs. by eapply quiet_put.
Qed.
Lemma quiet_loop_end m u err c : quiet_step m (loop_end mc m u err c).
Proof.
  apply (quiet_match m u (λ d, match err with
           | Some e => if c then d <| md_deviceControlOn := false |>
                       else d <| md_deviceControlOn := false |> <| md_lastError := e |>
           | None => d <| md_deviceControlOn := false |> end)).
  intros d. destruct err; [destruct c|]; quiet_auto.
Qed.
Lemma quiet_wipe m u : quiet_step m (onDeviceWipe mc m u).
Proof.
  apply (quiet_match m u (λ d, d <| md_claimed := false |> <| md_deviceID := "" |>
           <| md_deviceControlOn := false |> <| md_lastError := wipedError |>)).
  intros d. quiet_auto.
Qed.
Lemma quiet_detach m u : quiet_step m (applyEvent_detach mc m u).
Proof.
  unfold quiet_step, applyEvent_detach. destruct (dm_devices m !! u) as [d|] eqn:Hd; [|quiet_same].
  destruct (md_present d); [|quiet_same]. autorewrite with devs.
  eapply quiet_put; [done|]. quiet_auto.
Qed.
Lemma quiet_attach m u : quiet_step m (applyEvent_attach m u).
Proof.
  unfold quiet_step, applyEvent_attach. destruct (dm_devices m !! u) as [d|] eqn:Hd; [|quiet_same].
  autorewrite with devs. eapply quiet_put; [done|]. quiet_auto.
Qed.
Lemma quiet_lan m u on : quiet_step m (NoteLanReachable mc m u on).
Proof.
  unfold quiet_step, NoteLanReachable. destruct (String.eqb _ _); [quiet_same|].
  destruct (dm_devices m !! _) as [d|] eqn:Hd; [|quiet_same].
  destruct (Bool.eqb _ _); [quiet_same|].
  destruct (_ && _); autorewrite with devs; (eapply quiet_put; [done|]);
    destruct on; quiet_auto.
Qed.
Lemma quiet_lan_pairing m u : quiet_step m (NoteLanPairingPending mc m u).
Proof.
  unfold quiet_step, NoteLanPairingPending. destruct (String.eqb _ _); [quiet_same|].
  destruct (dm_devices m !! _) as [d|] eqn:Hd; [|quiet_same].
  destruct (md_lanOn d); [quiet_same|]. autorewrite with devs.
  eapply quiet_put; [done|]. quiet_auto.
Qed.

(** *** Loops over the map *)
Lemma handles_trans d1 d2 d3 : same_but_handles d1 d2 → same_but_handles d2 d3 → same_but_handles d1 d3.
Proof. unfold same_but_handles. intros H1 H2. rw H2 H1. by destruct d1. Qed.
Lemma handles_udid d d' : same_but_handles d d' → md_udid d' = md_udid d.
Proof. by intros ->. Qed.

Lemma handles_start_claimed m :
  keyed (dm_devices m) →
  dev_rel same_but_handles (λ _ _, False) (dm_devices m) (dm_devices (StartClaimedDevices mc m)).
Proof.
  intros Hk. unfold StartClaimedDevices.
  assert (Hgen : ∀ l m', dev_rel same_but_handles (λ _ _, False) (dm_devices m) (dm_devices m') →
    dev_rel same_but_handles (λ _ _, False) (dm_devices m) (dm_devices (foldl (start_if_claimed mc) m' l)));
    [|apply Hgen, dev_rel_refl; eauto with devs].
  induction l as [|[k x] l IH]; intros m' Hrel; [done|]. simpl. apply IH.
  unfold start_if_claimed. simpl. destruct (dm_devices m' !! k) as [d|] eqn:Hd; [|done]. destruct (_ && _); [|done].
  assert (Hu : md_udid d = k).
  { pose proof (Hrel k) as Hr. rw Hd in Hr. destruct (dm_devices m !! k) as [d0|] eqn:E; [|done].
    rw (handles_udid _ _ Hr). eauto. }
  rw devices_start; [|by rw Hu]. rw Hu. intros v. specialize (Hrel v).
  destruct (decide (k = v)) as [<-|Hne]; [rw lookup_insert_eq|by rw lookup_insert_ne].
  rw Hd in Hrel. destruct (dm_devices m !! k); [|done].
  eapply handles_trans; eauto with devs.
Qed.
Lemma dev_rel_impl (R R' : managedDevice → managedDevice → Prop) (N N' : string → managedDevice → Prop) devs devs' :
  (∀ d d', R d d' → R' d d') → (∀ u d, N u d → N' u d) →
  dev_rel R N devs devs' → dev_rel R' N' devs devs'.
Proof. intros HR HN H u. specialize (H u). repeat case_match; eauto. Qed.
Lemma quiet_start_claimed m : keyed (dm_devices m) → quiet_step m (StartClaimedDevices mc m).
Proof.
  intros Hk. eapply dev_rel_impl; [| |by apply handles_start_claimed]; [eauto with devs|done].
Qed.

Lemma devices_stop m : dm_devices (Stop m) = dm_devices m.
Proof.
  unfold Stop. set (m0 := m <| dm_stopped := true |>).
  transitivity (dm_devices m0); [|done]. generalize (map_range (dm_devices m0)) as l. intros l.
  generalize m0. induction l as [|[k d] l IH]; intros m1; [done|]. simpl. rw IH. by case_match.
Qed.

(** *** Discovery *)
(** What a device listing may change of a device: presence, connection type,
    descriptive fields, and the expiry state. *)
Definition discovered (d d' : managedDevice) : Prop :=
  d' = d <| md_present := md_present d' |> <| md_connectionType := md_connectionType d' |>
         <| md_name := md_name d' |> <| md_model := md_model d' |>
         <| md_productVersion := md_productVersion d' |> <| md_wdaState := md_wdaState d' |>
  ∧ (md_wdaState d' = md_wdaState d ∨ md_wdaState d' = IOS_WDA_STATE_EXPIRED
     ∨ md_wdaState d' = IOS_WDA_STATE_RENEWAL_DUE).
Lemma discovered_refl d : discovered d d.
Proof. destruct d. by split; auto. Qed.
Lemma discovered_trans d1 d2 d3 : discovered d1 d2 → discovered d2 d3 → discovered d1 d3.
Proof.
  intros [H1 S1] [H2 S2]. split.
  - rw H2 H1. by destruct d1.
  - destruct S2 as [->|S2]; auto.
Qed.
Lemma discovered_quiet d d' : discovered d d' → quiet d d'.
Proof. intros [H1 H2]. rw H1. quiet_auto. simpl. destruct H2 as [H2|[H2|H2]]; rw H2; auto; done. Qed.

(** The listed device ends up present, whatever it was. *)
Definition dev_or_new (devs : gmap string managedDevice) (u : string) : managedDevice :=
  default (zeroDevice u) (devs !! u).
Lemma upsertLocked_spec devs e info :
  ∃ d', (upsertLocked devs e info).1 = <[en_UDID e := d']> devs ∧
        discovered (dev_or_new devs (en_UDID e)) d' ∧ md_present d' = true.
Proof.
  unfold upsertLocked. cbv zeta. fold (dev_or_new devs (en_UDID e)).
  generalize (dev_or_new devs (en_UDID e)) as d.
  intros []. simpl.
  destruct (negb (bool_decide _)); simpl;
  destruct (_ && _ && _); simpl;
  destruct (negb (String.eqb (di_Model info) "") && _); simpl;
  destruct (negb (String.eqb (di_ProductVersion info) "") && _);
  simpl; eexists; (split; [reflexivity|]); split; try done; split; auto.
Qed.

Lemma refresh_device_discovered now d : discovered d (refresh_device cal now d).1.
Proof.
  unfold refresh_device. case_match; [apply discovered_refl|]. case_match; [|apply discovered_refl].
  repeat case_match; try apply discovered_refl; destruct d; split; simpl; auto.
Qed.

Definition disc_rel : gmap string managedDevice → gmap string managedDevice → Prop :=
  dev_rel discovered (λ u d, discovered (zeroDevice u) d).
Lemma disc_rel_trans devs1 devs2 devs3 : disc_rel devs1 devs2 → disc_rel devs2 devs3 → disc_rel devs1 devs3.
Proof.
  intros H1 H2 u. specialize (H1 u). specialize (H2 u).
  destruct (devs1 !! u), (devs2 !! u), (devs3 !! u); try done; eauto using discovered_trans.
Qed.
Lemma disc_rel_refl devs : disc_rel devs devs.
Proof. apply dev_rel_refl, discovered_refl. Qed.
Lemma disc_rel_insert devs u d' :
  discovered (dev_or_new devs u) d' → disc_rel devs (<[u := d']> devs).
Proof.
  intros Hd v. unfold dev_or_new in Hd. destruct (decide (u = v)) as [<-|Hne].
  - rw lookup_insert_eq. by destruct (devs !! u).
  - rw lookup_insert_ne //. destruct (devs !! v); [apply discovered_refl|done].
Qed.
Lemma disc_rel_map devs (f : string → managedDevice → managedDevice) :
  (∀ u d, discovered d (f u d)) → disc_rel devs (map_imap (λ u d, Some (f u d)) devs).
Proof.
  intros Hf u. rw map_lookup_imap. destruct (devs !! u); simpl; [apply Hf|done].
Qed.

Definition upsert_all (infos : gmap string DeviceInfo) (l : list EnumeratedDevice)
    (acc : gmap string managedDevice * bool) : gmap string managedDevice * bool :=
  foldl (λ acc d, let '(devs, ch) := upsertLocked acc.1 d (default noInfo (infos !! en_UDID d)) in
                  (devs, acc.2 || ch)) acc l.
Lemma upsert_all_cons infos e l acc :
  ∃ acc', upsert_all infos (e :: l) acc = upsert_all infos l acc' ∧
    ∃ d', acc'.1 = <[en_UDID e := d']> acc.1 ∧
          discovered (dev_or_new acc.1 (en_UDID e)) d' ∧ md_present d' = true.
Proof.
  unfold upsert_all. simpl.
  destruct (upsertLocked_spec acc.1 e (default noInfo (infos !! en_UDID e))) as (d' & H1 & H2 & H3).
  destruct (upsertLocked acc.1 e _) as [devs ch]. simpl in H1. eauto 10.
Qed.
Lemma upsert_all_disc infos l acc : disc_rel acc.1 (upsert_all infos l acc).1.
Proof.
  revert acc. induction l as [|e l IH]; intros acc; [apply disc_rel_refl|].
  destruct (upsert_all_cons infos e l acc) as (acc' & -> & d' & Ha & Hd & _).
  eapply disc_rel_trans; [|apply IH]. rw Ha. by apply disc_rel_insert.
Qed.
(** Entries in [s] are present; the upserts extend [s] by the list. *)
Definition present_in (devs : gmap string managedDevice) (u : string) : Prop :=
  ∃ d, devs !! u = Some d ∧ md_present d = true.
Lemma upsert_all_present infos l acc u :
  u ∈ map en_UDID l ∨ present_in acc.1 u → present_in (upsert_all infos l acc).1 u.
Proof.
  revert acc. induction l as [|e l IH]; intros acc Hu.
  - destruct Hu as [Hu|Hu]; [by apply elem_of_nil in Hu|done].
  - destruct (upsert_all_cons infos e l acc) as (acc' & -> & d' & Ha & _ & Hp). apply IH.
    simpl in Hu. rw elem_of_cons in Hu.
    destruct (decide (u = en_UDID e)) as [->|Hne].
    + right. exists d'. by rw Ha lookup_insert_eq.
    + destruct Hu as [[Hu|Hu]|(d & Hl & Hd)]; [done|by left|]. right. exists d.
      by rw Ha lookup_insert_ne.
Qed.
Lemma upsert_all_dom infos l acc u :
  u ∉ map en_UDID l → (upsert_all infos l acc).1 !! u = acc.1 !! u.
Proof.
  revert acc. induction l as [|e l IH]; intros acc Hu; [done|].
  destruct (upsert_all_cons infos e l acc) as (acc' & -> & d' & Ha & _).
  simpl in Hu. rw not_elem_of_cons in Hu. destruct Hu as [Hne Hu].
  rw IH; [|done]. rw Ha. by rw lookup_insert_ne.
Qed.

Lemma devices_applySnapshot m lookup l now :
  dm_devices (applySnapshot_section mc cal m lookup l now) =
  (λ d, (refresh_device cal now d).1) <$>
    map_imap (λ u d, Some (if negb (bool_decide (u ∈ map en_UDID l)) && md_present d
                           then d <| md_present := false |> else d))
      (upsert_all (infos_of lookup l) l (dm_devices m, false)).1.
Proof.
  unfold applySnapshot_section. cbv zeta.
  change (foldl _ (dm_devices m, false) l) with (upsert_all (infos_of lookup l) l (dm_devices m, false)).
  destruct (upsert_all _ _ _) as [devs ch]. unfold refreshWdaExpiryLocked. simpl.
  case_match; by autorewrite with devs.
Qed.
Lemma refresh_present now d : md_present (refresh_device cal now d).1 = md_present d.
Proof. unfold refresh_device. repeat case_match; done. Qed.

Lemma applySnapshot_disc m lookup l now :
  disc_rel (dm_devices m) (dm_devices (applySnapshot_section mc cal m lookup l now)).
Proof.
  rw devices_applySnapshot. eapply disc_rel_trans; [apply (upsert_all_disc (infos_of lookup l) l (_, false))|].
  set (devs := (upsert_all _ _ _).1). eapply disc_rel_trans.
  - apply (disc_rel_map devs (λ u d, if negb (bool_decide (u ∈ map en_UDID l)) && md_present d
                                     then d <| md_present := false |> else d)).
    intros u []. case_match; split; simpl; auto.
  - intros u. rw lookup_fmap. destruct (map_imap _ _ !! u); simpl; [apply refresh_device_discovered|done].
Qed.
Lemma quiet_snapshot m lookup l now : quiet_step m (applySnapshot_section mc cal m lookup l now).
Proof.
  eapply dev_rel_impl; [| |apply applySnapshot_disc]; [apply discovered_quiet|].
  intros u d [Hd Hs]. unfold fresh_device. rw Hd. simpl in *. split_and!; try done.
  by destruct Hs as [Hs|[Hs|Hs]]; rw Hs.
Qed.

(** *** The pairing protocol *)
Lemma Claim_begin_ok m req m' udid name cred :
  Claim_begin mc m req = (m', Ok (udid, name, cred)) →
  ∃ d, dm_devices m !! udid = Some d ∧ md_claimed d = false ∧ md_claiming d = false ∧
       dm_devices m' = <[udid := d <| md_claiming := true |>]> (dm_devices m).
Proof.
  unfold Claim_begin. cbv zeta. intros H.
  destruct (String.eqb _ _); [done|]. destruct (_ || _); [done|].
  destruct (dm_devices m !! _) as [d|] eqn:Hd; [|done].
  destruct (md_claimed d) eqn:?; [done|]. destruct (md_claiming d) eqn:?; [done|].
  simplify_eq. by exists d.
Qed.
Lemma Claim_begin_err m req m' e : Claim_begin mc m req = (m', Err e) → m' = m.
Proof. unfold Claim_begin. cbv zeta. intros H. repeat (case_match; try by simplify_eq). Qed.

Lemma Claim_finish_devices m req udid name cred paired d :
  keyed (dm_devices m) → dm_devices m !! udid = Some d →
  ∃ d', dm_devices (Claim_finish mc m req udid name cred paired).1 = <[udid := d']> (dm_devices m) ∧
    md_udid d' = udid ∧ md_claiming d' = false ∧ md_claimed d' = (is_ok paired || md_claimed d) ∧
    md_wdaState d' = md_wdaState d ∧ md_wdaProgress d' = md_wdaProgress d.
Proof.
  intros Hk Hd. pose proof (Hk _ _ Hd) as Hu. unfold Claim_finish. rw Hd.
  destruct paired as [id|e]; simpl fst; autorewrite with devs.
  - rw devices_start; autorewrite with devs; simpl; rw Hu; [|by rw lookup_insert_eq].
    rw insert_insert_eq. eexists. split; [done|].
    unfold started. repeat case_match; simpl; done.
  - eexists. split; [done|]. done.
Qed.

Record manager_inv (s : msys) : Prop := {
  inv_keyed : keyed (dm_devices (ms_mgr s));
  inv_nodup : NoDup (map if_udid (ms_pairing s));
  inv_pairing u : u ∈ map if_udid (ms_pairing s) ↔
    ∃ d, dm_devices (ms_mgr s) !! u = Some d ∧ md_claiming d = true;
  inv_unclaimed u d : dm_devices (ms_mgr s) !! u = Some d → md_claiming d = true → md_claimed d = false;
  inv_progress u d : dm_devices (ms_mgr s) !! u = Some d → (0 ≤ md_wdaProgress d ≤ 100)%Z
}.

Lemma quiet_inv s s' :
  ms_pairing s' = ms_pairing s → quiet_step (ms_mgr s) (ms_mgr s') → manager_inv s → manager_inv s'.
Proof.
  intros Hp Hq [Hk Hn Hpair Hun Hpr].
  assert (Hback : ∀ u d', dm_devices (ms_mgr s') !! u = Some d' →
    (∃ d, dm_devices (ms_mgr s) !! u = Some d ∧ quiet d d') ∨ fresh_device u d').
  { intros u d' Hd'. specialize (Hq u). rw Hd' in Hq. destruct (dm_devices (ms_mgr s) !! u); eauto. }
  split.
  - intros u d' Hd'. destruct (Hback _ _ Hd') as [(d & Hd & Hqd)|Hf]; [|apply Hf].
    destruct Hqd as [-> _]. eauto.
  - by rw Hp.
  - intros u. rw Hp Hpair. split; intros (d & Hd & Hc).
    + specialize (Hq u). rw Hd in Hq. destruct (dm_devices (ms_mgr s') !! u) as [d'|]; [|done].
      exists d'. split; [done|]. destruct Hq as (_ & -> & _). done.
    + destruct (Hback _ _ Hd) as [(d0 & Hd0 & Hqd)|Hf].
      * exists d0. destruct Hqd as (_ & <- & _). done.
      * destruct Hf as (_ & Hf & _). congruence.
  - intros u d' Hd' Hc. destruct (Hback _ _ Hd') as [(d & Hd & Hqd)|Hf]; [|apply Hf].
    destruct Hqd as (_ & Hcl & Hcd & _). apply not_true_iff_false. intros Ht.
    apply Hcd in Ht. rw (Hun _ _ Hd) in Ht; [done|congruence].
  - intros u d' Hd'. destruct (Hback _ _ Hd') as [(d & Hd & Hqd)|Hf].
    + apply Hqd. eauto.
    + destruct Hf as (_ & _ & _ & _ & ->). lia.
Qed.

(** Every step is a quiet step or one of the two sections of Claim. *)
Lemma mstep_cases s s' :
  manager_inv s → mstep mc cal s s' →
  (ms_pairing s' = ms_pairing s ∧ quiet_step (ms_mgr s) (ms_mgr s'))
  ∨ (∃ req udid name cred, Claim_begin mc (ms_mgr s) req = (ms_mgr s', Ok (udid, name, cred)) ∧
       ms_pairing s' = mkInflight req udid name cred :: ms_pairing s)
  ∨ (∃ l1 f l2 paired, ms_pairing s = l1 ++ f :: l2 ∧ ms_pairing s' = l1 ++ l2 ∧
       ms_mgr s' = (Claim_finish mc (ms_mgr s) (if_req f) (if_udid f) (if_name f) (if_cred f) paired).1).
Proof.
  intros [Hk _ _ _ _] Hs. destruct Hs; simpl; eauto 12;
    (left; split; [done|]); eauto using quiet_control, quiet_restart, quiet_release, quiet_configure,
      quiet_reconfigure, quiet_start_claimed, quiet_snapshot, quiet_detach, quiet_attach, quiet_loop_end,
      quiet_state, quiet_wipe, quiet_lan, quiet_lan_pairing, quiet_note, quiet_progressed, quiet_job_result.
  - apply Claim_begin_err in H as ->. apply dev_rel_refl. eauto with devs.
  - unfold quiet_step. autorewrite with devs. apply dev_rel_refl. eauto with devs.
  - unfold quiet_step. autorewrite with devs. apply dev_rel_refl. eauto with devs.
  - unfold quiet_step. rw devices_stop. apply dev_rel_refl. eauto with devs.
  - unfold quiet_step. autorewrite with devs. case_match; autorewrite with devs; apply dev_rel_refl; eauto with devs.
  - unfold quiet_step, stream_unavailable. autorewrite with devs. apply dev_rel_refl. eauto with devs.
  - apply quiet_note; [done|]. intros d. quiet_auto; try done.
Qed.

Lemma claiming_exclusive s req udid name cred m' :
  manager_inv s → Claim_begin mc (ms_mgr s) req = (m', Ok (udid, name, cred)) →
  udid ∉ map if_udid (ms_pairing s).
Proof.
  intros Hi H Hin. apply Claim_begin_ok in H as (d & Hd & _ & Hc & _).
  apply (inv_pairing _ Hi) in Hin as (d' & Hd' & Hc'). congruence.
Qed.

Lemma inv_begin s s' req udid name cred :
  manager_inv s → Claim_begin mc (ms_mgr s) req = (ms_mgr s', Ok (udid, name, cred)) →
  ms_pairing s' = mkInflight req udid name cred :: ms_pairing s → manager_inv s'.
Proof.
  intros Hi Hb Hp. pose proof (claiming_exclusive _ _ _ _ _ _ Hi Hb) as Hout.
  destruct Hi as [Hk Hn Hpair Hun Hpr].
  apply Claim_begin_ok in Hb as (d & Hd & Hcd & Hcl & Hm).
  split; rw ?Hm ?Hp.
  - intros u x. rw lookup_insert_Some. intros [[<- <-]|[? ?]]; [simpl|]; eauto.
  - simpl. by constructor.
  - intros u. simpl. rw elem_of_cons Hpair. destruct (decide (udid = u)) as [<-|Hne].
    + rw lookup_insert_eq. split; [|by left]. intros _. by eexists.
    + rw lookup_insert_ne //. split; [intros [->|?]; done|by right].
  - intros u x. rw lookup_insert_Some. intros [[<- <-]|[? ?]]; [done|eauto].
  - intros u x. rw lookup_insert_Some. intros [[<- <-]|[? ?]]; [simpl|]; eauto.
Qed.

Lemma inv_finish s s' l1 f l2 paired :
  manager_inv s → ms_pairing s = l1 ++ f :: l2 → ms_pairing s' = l1 ++ l2 →
  ms_mgr s' = (Claim_finish mc (ms_mgr s) (if_req f) (if_udid f) (if_name f) (if_cred f) paired).1 →
  manager_inv s'.
Proof.
  intros [Hk Hn Hpair Hun Hpr] Hp Hp' Hm.
  assert (Hperm : map if_udid (ms_pairing s) ≡ₚ if_udid f :: map if_udid (ms_pairing s')).
  { rw Hp Hp' !map_app /=. symmetry. apply Permutation_middle. }
  rw Hperm in Hn. apply NoDup_cons in Hn as [Hout Hn].
  assert (∃ d, dm_devices (ms_mgr s) !! if_udid f = Some d ∧ md_claiming d = true) as (d & Hd & Hcl).
  { apply Hpair. rw Hperm. by left. }
  destruct (Claim_finish_devices _ (if_req f) _ (if_name f) (if_cred f) paired _ Hk Hd)
    as (d' & Hdev & Hu & Hc' & Hcd & _ & Hpr').
  rw -Hm in Hdev. split; rw ?Hdev.
  - intros u x. rw lookup_insert_Some. intros [[<- <-]|[? ?]]; eauto.
  - done.
  - intros u. destruct (decide (if_udid f = u)) as [<-|Hne].
    + split; [done|]. intros (x & Hx & Hcx). rw lookup_insert_eq in Hx. congruence.
    + rw lookup_insert_ne // -Hpair Hperm elem_of_cons.
      split; [by right|]. intros [?|?]; [congruence|done].
  - intros u x. rw lookup_insert_Some. intros [[<- <-]|[? ?]]; [congruence|eauto].
  - intros u x. rw lookup_insert_Some. intros [[<- <-]|[? ?]]; [rw Hpr'|]; eauto.
Qed.

Lemma mstep_inv s s' : manager_inv s → mstep mc cal s s' → manager_inv s'.
Proof.
  intros Hi Hs. destruct (mstep_cases _ _ Hi Hs) as [[Hp Hq]|[(? & ? & ? & ? & Hb & Hp)|H]].
  - by eapply quiet_inv.
  - by eapply inv_begin.
  - destruct H as (? & ? & ? & ? & ? & ? & ?). by eapply inv_finish.
Qed.

Lemma adopt_fresh cfg u d :
  adoptConfiguredDevices cfg !! u = Some d →
  md_udid d = u ∧ md_claiming d = false ∧ md_wdaProgress d = 0%Z.
Proof.
  destruct cfg as [cfg|]; [|done]. simpl.
  assert (Hgen : ∀ l devs,
    (∀ u d, devs !! u = Some d → md_udid d = u ∧ md_claiming d = false ∧ md_wdaProgress d = 0%Z) →
    ∀ u d, foldl adopt_one devs l !! u = Some d →
      md_udid d = u ∧ md_claiming d = false ∧ md_wdaProgress d = 0%Z).
  { induction l as [|x l IH]; intros devs Hdevs; [done|]. simpl. apply IH. intros v y.
    unfold adopt_one. destruct (String.eqb _ _); [apply Hdevs|]. rw lookup_insert_Some.
    intros [[<- <-]|[? ?]]; [done|eauto]. }
  apply Hgen. done.
Qed.
Lemma init_inv cfg : manager_inv (minit cfg).
Proof.
  split; simpl.
  - intros u d Hd. by apply adopt_fresh in Hd as [? _].
  - constructor.
  - intros u. split; [by intros Hn; apply elem_of_nil in Hn|]. intros (d & Hd & Hc).
    apply adopt_fresh in Hd as (_ & ? & _). congruence.
  - intros u d Hd Hc. apply adopt_fresh in Hd as (_ & ? & _). congruence.
  - intros u d Hd. apply adopt_fresh in Hd as (_ & _ & ->). lia.
Qed.
Lemma reachable_inv cfg s : rtc (mstep mc cal) (minit cfg) s → manager_inv s.
Proof.
  intros H. assert (Hi : manager_inv (minit cfg)) by apply init_inv.
  induction H; eauto using mstep_inv.
Qed.
End sections.

#[export] Instance udid_le_total : Total udid_le.
Proof. intros a b. apply (total String.le). Qed.

(** ** Theorems *)
Section theorems.
Context `{!MapRange managedDevice} (mc : ManagerConfig) (cal : calendar).
Implicit Types m : DeviceManager.

(** C3: in every interleaving of the manager's critical sections, from
    any configuration, at most one pairing is in flight per UDID; the device
    of an in-flight pairing exists, is reserved ([claiming]) and not claimed;
    a device without an in-flight pairing is not reserved; and every device's
    job progress is a percentage. *)
Theorem claim_pairings_exclusive cfg s :
  rtc (mstep mc cal) (minit cfg) s →
  NoDup (map if_udid (ms_pairing s)) ∧
  (∀ u, u ∈ map if_udid (ms_pairing s) ↔
        ∃ d, dm_devices (ms_mgr s) !! u = Some d ∧ md_claiming d = true) ∧
  (∀ u d, dm_devices (ms_mgr s) !! u = Some d →
     md_udid d = u ∧ (md_claiming d = true → md_claimed d = false) ∧
     (0 ≤ md_wdaProgress d ≤ 100)%Z).
Proof.
  intros Hr. destruct (reachable_inv mc cal _ _ Hr) as [Hk Hn Hp Hu Hpr].
  split_and!; eauto. intros u d Hd. split_and!; eauto; by eapply Hpr.
Qed.

(** C7: no step of the manager makes a device READY
    unless that step leaves its control link up. *)
Theorem wda_ready_only_with_link cfg s s' u d' :
  rtc (mstep mc cal) (minit cfg) s → mstep mc cal s s' →
  dm_devices (ms_mgr s') !! u = Some d' → md_wdaState d' = IOS_WDA_STATE_READY →
  md_deviceControlOn d' = true ∨
  ∃ d, dm_devices (ms_mgr s) !! u = Some d ∧ md_wdaState d = IOS_WDA_STATE_READY.
Proof.
  intros Hr Hs Hd' Hready. pose proof (reachable_inv mc cal _ _ Hr) as Hi.
  destruct (mstep_cases _ _ _ _ Hi Hs) as [[_ Hq]|[(req & udid & name & cred & Hb & _)|H]].
  - specialize (Hq u). rw Hd' in Hq. destruct (dm_devices (ms_mgr s) !! u) as [d|].
    + destruct Hq as (_ & _ & _ & Hq & _). destruct (Hq Hready); eauto.
    + by destruct Hq as (_ & _ & _ & Hq & _).
  - apply Claim_begin_ok in Hb as (d & Hd & _ & _ & Hm). rw Hm in Hd'. right.
    apply lookup_insert_Some in Hd' as [[<- <-]|[? ?]]; eauto.
  - destruct H as (l1 & f & l2 & paired & Hp & _ & Hm). right.
    assert (∃ d, dm_devices (ms_mgr s) !! if_udid f = Some d ∧ md_claiming d = true) as (d & Hd & _).
    { apply (inv_pairing _ Hi). rw Hp map_app elem_of_app /=. right. by left. }
    destruct (Claim_finish_devices mc _ (if_req f) _ (if_name f) (if_cred f) paired _ (inv_keyed _ Hi) Hd)
      as (x & Hdev & _ & _ & _ & Hst & _).
    rw Hm Hdev in Hd'. apply lookup_insert_Some in Hd' as [[<- <-]|[? ?]]; [|eauto].
    exists d. split; [done|congruence].
Qed.

(** A claim of an inventory device that is neither claimed
    nor reserved redeems the code once, at the credential path derived from
    its label, and leaves no reservation.  If pairing fails the device stays
    unclaimed with the reason; if it succeeds the device carries the id the
    server gave it, its credential and the request's revision, and runs a
    loop unless the host is shutting down. *)
Theorem claim_outcome pair m req udid d :
  keyed (dm_devices m) →
  udid = TrimSpace (cl_Udid req) → udid ≠ "" →
  TrimSpace (cl_PairingCode req) ≠ "" → TrimSpace (cl_ServerUrl req) ≠ "" →
  dm_devices m !! udid = Some d → md_claimed d = false → md_claiming d = false →
  let name := or_keep (cl_DeviceLabel req) (firstNonEmpty [md_name d; udid]) in
  let cred := DefaultCredentialPath (configPath mc) name in
  let paired := pair (TrimSpace (cl_ServerUrl req)) (TrimSpace (cl_PairingCode req)) cred in
  let '(m', r) := Claim mc pair m req in
  ∃ d', dm_devices m' = <[udid := d']> (dm_devices m) ∧ md_claiming d' = false ∧
    match paired with
    | Err e => r = Err ("claim: redeem pairing code: " +:+ e) ∧ md_claimed d' = false ∧
               md_lastError d' = "pairing failed: " +:+ e ∧ md_cancel d' = md_cancel d
    | Ok id => r = Ok id ∧ md_claimed d' = true ∧ md_deviceID d' = id ∧ md_credentialPath d' = cred ∧
               md_name d' = name ∧ md_configRevision d' = cl_ConfigRevision req ∧ md_lastError d' = "" ∧
               (dm_stopped m = false → is_Some (md_cancel d'))
    end.
Proof.
  intros Hk -> Hne Hcode Hsrv Hd Hcd Hcl. cbv zeta. pose proof (Hk _ _ Hd) as Hu.
  unfold Claim, Claim_begin. cbv zeta.
  apply String.eqb_neq in Hne, Hcode, Hsrv. rw Hne Hcode Hsrv /= Hd Hcd Hcl.
  assert (Hname : (if String.eqb (TrimSpace (cl_DeviceLabel req)) "" then
      firstNonEmpty [md_name d; TrimSpace (cl_Udid req)] else TrimSpace (cl_DeviceLabel req)) =
      or_keep (cl_DeviceLabel req) (firstNonEmpty [md_name d; TrimSpace (cl_Udid req)])).
  { unfold or_keep. by destruct (String.eqb (TrimSpace (cl_DeviceLabel req)) ""). }
  rw Hname. set (name := or_keep _ _). set (cred := DefaultCredentialPath _ _).
  unfold Claim_finish. autorewrite with devs. rw lookup_insert_eq.
  destruct (pair _ _ cred) as [id|e]; autorewrite with devs.
  - rw devices_start; autorewrite with devs; simpl; rw Hu; [|by rw lookup_insert_eq].
    rw !insert_insert_eq. eexists. split; [done|].
    unfold started. rw stopped_persist. simpl.
    destruct (md_cancel d) eqn:?; [|destruct (dm_stopped m)]; simpl; split_and!; done || eauto.
  - rw !insert_insert_eq. eexists. split; [done|]. done.
Qed.

(** A request by UDID alone is looked up in the map. *)
Lemma findLocked_udid m id u :
  TrimSpace id = "" → TrimSpace u ≠ "" → findLocked m id u = dm_devices m !! TrimSpace u.
Proof. intros Hid Hu. unfold findLocked. rw Hid /=. apply String.eqb_neq in Hu. by rw Hu. Qed.

(** At most one device carries the id. *)
Definition one_with_id (m : DeviceManager) (id : string) : Prop :=
  ∀ u1 u2 d1 d2, dm_devices m !! u1 = Some d1 → dm_devices m !! u2 = Some d2 →
    md_deviceID d1 = TrimSpace id → md_deviceID d2 = TrimSpace id → TrimSpace id ≠ "" → u1 = u2.
Lemma findLocked_by_id m id u d :
  keyed (dm_devices m) → TrimSpace id ≠ "" → one_with_id m id →
  dm_devices m !! md_udid d = Some d → md_deviceID d = TrimSpace id → findLocked m id u = Some d.
Proof.
  intros Hk Hid Hone Hd Hdid. unfold findLocked. cbv zeta. assert (String.eqb (TrimSpace id) "" = false) as -> by by apply String.eqb_neq.
  destruct (list_find _ _) as [[i [k x]]|] eqn:Hf; simpl.
  - apply list_find_Some in Hf as (Hin & Hx & _). simpl in Hx.
    apply list_elem_of_lookup_2, elem_of_map_range in Hin. pose proof (Hone _ _ _ _ Hin Hd Hx Hdid Hid) as ->. congruence.
  - exfalso. apply list_find_None in Hf. rw Forall_forall in Hf. apply (Hf (md_udid d, d)); [|done].
    by apply elem_of_map_range.
Qed.
(** Storing the found device again, under its own id, does not change what is found. *)
Lemma findLocked_stored m m' id u d d' :
  keyed (dm_devices m) → one_with_id m id → findLocked m id u = Some d →
  dm_devices m' = <[md_udid d := d']> (dm_devices m) → md_udid d' = md_udid d → md_deviceID d' = md_deviceID d →
  findLocked m' id u = Some d'.
Proof.
  intros Hk Hone Hf Hm Hu Hdid. pose proof (findLocked_some _ _ _ _ Hk Hf) as Hd.
  assert (keyed (dm_devices m')) as Hk'.
  { intros v x. rw Hm lookup_insert_Some. intros [[<- <-]|[_ ?]]; [done|by apply Hk]. }
  assert (∀ v x, dm_devices m' !! v = Some x → ∃ x0, dm_devices m !! v = Some x0 ∧ md_deviceID x0 = md_deviceID x) as Hback.
  { intros v x. rw Hm lookup_insert_Some. intros [[<- <-]|[_ ?]]; [by exists d|by exists x]. }
  destruct (decide (TrimSpace id = "")) as [Hid|Hid].
  - revert Hf. unfold findLocked. rw Hid /=. destruct (String.eqb (TrimSpace u) ""); [done|]. intros Hf.
    rw Hm. rw (Hk _ _ Hf) lookup_insert_eq. done.
  - destruct (decide (md_deviceID d = TrimSpace id)) as [He|Hne].
    + apply findLocked_by_id; [done..| |by rw Hu Hm lookup_insert_eq|by rw Hdid].
      intros u1 u2 d1 d2 (x1 & H1 & E1)%Hback (x2 & H2 & E2)%Hback F1 F2 _.
      apply (Hone u1 u2 x1 x2 H1 H2); congruence.
    + revert Hf. unfold findLocked. cbv zeta. assert (String.eqb (TrimSpace id) "" = false) as -> by by apply String.eqb_neq.
      destruct (list_find _ (map_range (dm_devices m))) as [[i [k x]]|] eqn:Hf; simpl.
      { apply list_find_Some in Hf as (_ & Hx & _). simpl in Hx. intros [= ->]. done. }
      destruct (list_find _ (map_range (dm_devices m'))) as [[i [k x]]|] eqn:Hf'; simpl.
      { apply list_find_Some in Hf' as (Hin & Hx & _). simpl in Hx.
        apply list_elem_of_lookup_2, elem_of_map_range in Hin. destruct (Hback _ _ Hin) as (x0 & H0 & E0).
        apply list_find_None in Hf. rw Forall_forall in Hf. exfalso. apply (Hf (k, x0)); [|simpl; congruence].
        by apply elem_of_map_range. }
      destruct (String.eqb (TrimSpace u) ""); [done|]. intros Hl. by rw Hm (Hk _ _ Hl) lookup_insert_eq.
Qed.

Lemma configure_gated m req d :
  findLocked m (cf_DeviceId req) (cf_Udid req) = Some d →
  cf_ConfigRevision req ≠ 0%Z → (cf_ConfigRevision req ≤ md_configRevision d)%Z →
  ConfigureDevice mc m req = (m, Ok (md_configRevision d)).
Proof.
  intros Hd Hnz Hle. unfold ConfigureDevice, ConfigureDevice_begin.
  rw Hd. apply Z.eqb_neq in Hnz. apply Z.leb_le in Hle. by rw Hnz Hle.
Qed.

Lemma configure_applied m req d :
  keyed (dm_devices m) → findLocked m (cf_DeviceId req) (cf_Udid req) = Some d →
  negb (cf_ConfigRevision req =? 0)%Z && (cf_ConfigRevision req <=? md_configRevision d)%Z = false →
  ∃ m' d', ConfigureDevice mc m req = (m', Ok (cf_ConfigRevision req)) ∧
    dm_devices m' = <[md_udid d := d']> (dm_devices m) ∧ same_but_handles (configured d req).1 d'.
Proof.
  intros Hk Hd Hgate.
  unfold ConfigureDevice, ConfigureDevice_begin. rw Hd Hgate.
  destruct (configured_fields d req) as (Hu' & _ & _ & _ & _ & _ & _ & Hrev' & _).
  destruct (configured d req) as [d1 restart]. simpl in Hu', Hrev' |- *.
  destruct (md_cancel d1) as [id|]; [destruct restart|]; rw Hrev' Hu'.
  - unfold ConfigureDevice_restart. set (d2 := d1 <| md_cancel := None |> <| md_done := None |>).
    set (m1 := emit _ _).
    assert (Hm1 : dm_devices m1 = <[md_udid d := d2]> (dm_devices m))
      by (unfold m1; autorewrite with devs; by rw insert_insert_eq).
    assert (Hs2 : same_but_handles d1 d2) by (by destruct d1). clearbody m1. rw Hm1 lookup_insert_eq.
    destruct (md_claimed d2 && _); do 2 eexists; (split; [done|]); autorewrite with devs; [|by split].
    rw devices_start; simpl; rw Hu'; [|by rw Hm1 lookup_insert_eq]. rw Hm1 insert_insert_eq. split; [done|].
    eapply handles_trans; eauto with devs.
  - do 2 eexists. split; [done|]. autorewrite with devs. eauto with devs.
  - do 2 eexists. split; [done|]. autorewrite with devs. eauto with devs.
Qed.

(** C9: in an inventory keyed by UDID in which at most one device carries the
    request's device id, configuring a device the request finds, by device id
    or by UDID, with a revision it has already applied changes nothing and
    acknowledges the applied revision; any other request (revision 0
    included) is applied to that device and to no other, is acknowledged with
    its own revision and does not touch the claim; and sending the same
    versioned request again is then a no-op. *)
Theorem configure_applies_once m req d :
  keyed (dm_devices m) → one_with_id m (cf_DeviceId req) →
  findLocked m (cf_DeviceId req) (cf_Udid req) = Some d →
  let '(m', r) := ConfigureDevice mc m req in
  if negb (cf_ConfigRevision req =? 0)%Z && (cf_ConfigRevision req <=? md_configRevision d)%Z
  then m' = m ∧ r = Ok (md_configRevision d)
  else r = Ok (cf_ConfigRevision req) ∧
    ∃ d', dm_devices m' = <[md_udid d := d']> (dm_devices m) ∧ same_but_handles (configured d req).1 d' ∧
          md_configRevision d' = cf_ConfigRevision req ∧ md_claimed d' = md_claimed d ∧
          (cf_ConfigRevision req ≠ 0%Z → ConfigureDevice mc m' req = (m', Ok (cf_ConfigRevision req))).
Proof.
  intros Hk Hone Hd. destruct (negb _ && _) eqn:Hgate.
  - go_bool. by rw (configure_gated _ _ d).
  - destruct (configure_applied m req d) as (m' & d' & -> & Hm' & Hs); [done..|].
    destruct (configured_fields d req) as (Hu & _ & Hcd & _ & _ & _ & _ & Hrev & _).
    assert (Hrev' : md_configRevision d' = cf_ConfigRevision req) by (by rw Hs).
    split; [done|]. exists d'. split_and!; auto; [by rw Hs|].
    intros Hnz. rw (configure_gated _ _ d') //; [by rw Hrev'| |by rw Hrev'].
    eapply findLocked_stored; [exact Hk|done|exact Hd|done|by rw Hs|]. rw Hs /=. apply configured_id.
Qed.

(** Applying a device listing leaves exactly
    the listed devices present; it adds the unknown ones and removes none;
    what it may change of a known device is its presence, descriptive fields
    and expiry badge, so its claim, credential, revision and loop survive
    unplugging. *)
Theorem snapshot_reconciles_presence m lookup l now u :
  let devs' := dm_devices (applySnapshot_section mc cal m lookup l now) in
  (is_Some (devs' !! u) ↔ is_Some (dm_devices m !! u) ∨ u ∈ map en_UDID l) ∧
  (∀ d', devs' !! u = Some d' → md_present d' = bool_decide (u ∈ map en_UDID l)) ∧
  (∀ d d', dm_devices m !! u = Some d → devs' !! u = Some d' → discovered d d').
Proof.
  cbv zeta. pose proof (applySnapshot_disc mc cal m lookup l now u) as Hrel.
  rw devices_applySnapshot. set (ups := (upsert_all _ _ _).1).
  assert (Hpres : u ∈ map en_UDID l → present_in ups u) by (intros; apply upsert_all_present; by left).
  assert (Hrest : u ∉ map en_UDID l → ups !! u = dm_devices m !! u) by (intros; by apply upsert_all_dom).
  rw !lookup_fmap !map_lookup_imap. split_and!.
  - rw fmap_is_Some. destruct (decide (u ∈ map en_UDID l)) as [Hin|Hout].
    + destruct (Hpres Hin) as (d & -> & _). simpl. split; [by right|eauto].
    + rw Hrest //. destruct (dm_devices m !! u); simpl; [split; eauto|].
      split; [by intros [? ?]|by intros [[? ?]|?]].
  - intros d' Hd'. destruct (decide (u ∈ map en_UDID l)) as [Hin|Hout].
    + destruct (Hpres Hin) as (d & Hd & Hp). rw Hd /= (bool_decide_eq_true_2 _ Hin) in Hd'. simplify_eq/=.
      rw refresh_present (bool_decide_eq_true_2 _ Hin). done.
    + rw Hrest // in Hd'. destruct (dm_devices m !! u) as [d|]; [|done]. simpl in Hd'.
      rw (bool_decide_eq_false_2 _ Hout) in Hd' |- *. simplify_eq. rw refresh_present. simpl.
      by destruct (md_present d) eqn:?.
  - intros d d' Hd Hd'. rw devices_applySnapshot in Hrel. rw Hd in Hrel.
    by rw lookup_fmap map_lookup_imap Hd' in Hrel.
Qed.

(** Releasing a device keeps it in the inventory,
    unclaimed, without device id, control link or loop handle, reported UNSPECIFIED;
    drops every configuration entry of its UDID; cancels its loop; and deletes
    its credential exactly when asked to. *)
Theorem release_forgets_claim m req d :
  keyed (dm_devices m) → findLocked m (rl_DeviceId req) (rl_Udid req) = Some d →
  let '(m', r) := Release mc m req in
  r = Ok () ∧
  (∃ d', dm_devices m' = <[md_udid d := d']> (dm_devices m) ∧
     md_claimed d' = false ∧ md_deviceID d' = "" ∧ md_deviceControlOn d' = false ∧ md_cancel d' = None ∧
     md_wdaState d' = IOS_WDA_STATE_UNSPECIFIED ∧
     (md_credentialPath d' = if rl_DeleteCredential req then "" else md_credentialPath d)) ∧
  (∀ cfg', dm_config m' = Some cfg' → md_udid d ∉ map dc_UDID (dcs_Devices cfg')) ∧
  (∀ id, md_cancel d = Some id → ECancelLoop id ∈ dm_effects m') ∧
  (rl_DeleteCredential req = true → md_credentialPath d ≠ "" →
     ERemoveFile (md_credentialPath d) ∈ dm_effects m').
Proof.
  intros Hk Hf. unfold Release, Release_section. rw Hf.
  set (d' := d <| md_cancel := None |> <| md_claimed := false |> <| md_deviceID := "" |>
      <| md_deviceControlOn := false |> <| md_wdaState := IOS_WDA_STATE_UNSPECIFIED |>
      <| md_credentialPath := if rl_DeleteCredential req then "" else md_credentialPath d |>).
  set (m1 := dirtyReport _ _). set (m2 := cancelLoop m1 _).
  assert (Hcfg : ∀ cfg', dm_config m1 = Some cfg' → md_udid d ∉ map dc_UDID (dcs_Devices cfg')).
  { unfold m1, dirtyReport, reportLocked, removeFromConfigLocked. simpl.
    intros cfg'. destruct (dm_config m) as [c|] eqn:Ec; destruct (mc_OnReport mc); simpl;
      intros Heq; try congruence; simplify_eq/=;
      rw list_elem_of_fmap; intros (e & He & Hin);
      apply list_elem_of_filter in Hin as [Hne _]; by apply Hne. }
  assert (Hdev : dm_devices m2 = <[md_udid d := d']> (dm_devices m))
    by (unfold m2, m1; by autorewrite with devs).
  assert (Hcfg2 : dm_config m2 = dm_config m1) by (unfold m2; by destruct (md_cancel d)).
  assert (Hcan : ∀ id, md_cancel d = Some id → ECancelLoop id ∈ dm_effects m2).
  { unfold m2. intros id ->. simpl. rw elem_of_app. right. by left. }
  destruct (rl_DeleteCredential req && negb (String.eqb (md_credentialPath d) "")) eqn:Hdel;
    (split; [done|]); (split; [exists d'; by rw ?devices_emit|]); simpl; rw Hcfg2; (split; [done|]).
  - split; [intros; rw elem_of_app; eauto|]. intros _ _. rw elem_of_app. right. by left.
  - split; [done|]. intros Hd Hne. apply String.eqb_neq in Hne. by rw Hd Hne in Hdel.
Qed.

(** The devices of the host as the server sees them, in no order. *)
Definition inventory (m : DeviceManager) : list NodeIosDevice :=
  map (λ kd, toProto kd.2) (map_to_list (dm_devices m)).
(** A report carries every device of the inventory
    once, ordered by UDID, whatever order the map is iterated in. *)
Theorem report_lists_inventory m requestID :
  rep_Devices (Snapshot m requestID) ≡ₚ inventory m ∧
  Sorted String.le (map nd_Udid (rep_Devices (Snapshot m requestID))).
Proof.
  unfold inventory, Snapshot, snapshotLocked, sortedDevices. simpl. split.
  - rw merge_sort_Permutation map_map map_range_perm. done.
  - rw map_map. simpl. set (l := map snd _). pose proof (Sorted_merge_sort udid_le l) as Hs.
    induction Hs as [|x xs Hs IH Hx]; simpl; constructor; auto.
    destruct Hx; simpl; by constructor.
Qed.

(** *** The control probe and stale handles *)
(** UDIDs are non-blank and carry no surrounding space. *)
Definition trimmed (devs : gmap string managedDevice) : Prop :=
  ∀ u d, devs !! u = Some d → TrimSpace u = u ∧ u ≠ "".

Lemma start_running m u d :
  TrimSpace u = u → u ≠ "" → dm_devices m !! u = Some d → md_credentialPath d ≠ "" →
  is_Some (md_cancel d) → ControlRunner mc m (startRequest u) = (m, Ok ()).
Proof.
  intros Ht Hne Hd Hc [n Hn]. unfold ControlRunner, ControlRunner_begin. simpl rc_Udid. simpl rc_DeviceId.
  rw findLocked_udid ?Ht // Hd. apply String.eqb_neq in Hc. by rw Hc /= Hn.
Qed.
(** What one START does to the map, for a device that has a credential. *)
Definition nudged (v : string) (stopped : bool) (u : string) (d d' : managedDevice) : Prop :=
  same_but_handles d d' ∧ (u ≠ v ∨ is_Some (md_cancel d) → d' = d) ∧
  (u = v → md_credentialPath d ≠ "" → stopped = false → is_Some (md_cancel d')).
Lemma nudged_same v st u d : u ≠ v ∨ is_Some (md_cancel d) ∨ md_credentialPath d = "" ∨ st = true → nudged v st u d d.
Proof. intros H. split; [apply handles_refl|]. split; [done|]. intros -> Hc Hs. destruct H as [?|[?|[?|?]]]; congruence. Qed.

Lemma start_nudges m v :
  keyed (dm_devices m) → TrimSpace v = v → v ≠ "" →
  let m' := (ControlRunner mc m (startRequest v)).1 in
  dm_stopped m' = dm_stopped m ∧
  ∀ u, match dm_devices m !! u, dm_devices m' !! u with
       | Some d, Some d' => nudged v (dm_stopped m) u d d'
       | None, None => True
       | _, _ => False
       end.
Proof.
  intros Hk Ht Hne. cbv zeta. unfold ControlRunner, ControlRunner_begin. simpl rc_Udid. simpl rc_DeviceId.
  rw findLocked_udid ?Ht //. destruct (dm_devices m !! v) as [x|] eqn:Hv.
  2:{ split; [done|]. intros u. simpl. destruct (dm_devices m !! u) as [d|] eqn:Hd; [|done].
      apply nudged_same. left. congruence. }
  destruct (String.eqb (md_credentialPath x) "") eqn:Hc.
  { split; [done|]. intros u. simpl. destruct (dm_devices m !! u) as [d|] eqn:Hd; [|done].
    apply nudged_same. go_bool. destruct (decide (u = v)) as [->|]; [|by left]. right; right; left. congruence. }
  simpl. destruct (bool_decide (md_cancel x = None) && negb (dm_stopped m)) eqn:Hgo.
  2:{ split; [done|]. intros u. simpl. destruct (dm_devices m !! u) as [d|] eqn:Hd; [|done].
      apply nudged_same. destruct (decide (u = v)) as [->|]; [|by left]. right. assert (d = x) as -> by congruence.
      destruct (md_cancel x) eqn:?; [by left; eauto|]. destruct (dm_stopped m); [by auto|done]. }
  apply andb_true_iff in Hgo as [Hnone Hst]. go_bool. pose proof (Hk _ _ Hv) as Hu.
  split; [unfold dirtyReport; rw stopped_report /= /startDeviceLocked /= Hnone Hst //|].
  intros u. autorewrite with devs. rw devices_start; autorewrite with devs; simpl; rw Hu; [|by rw lookup_insert_eq].
  rw insert_insert_eq. destruct (decide (v = u)) as [<-|Hvu].
  - rw Hv lookup_insert_eq. unfold started. simpl. rw Hnone Hst. unfold nudged. split; [by destruct x|].
    split; [intros [?|[? ?]]; congruence|]. intros _ _ _. by eexists.
  - rw lookup_insert_ne //. destruct (dm_devices m !! u); [|done]. apply nudged_same. by left.
Qed.

Lemma probe_nudges l m :
  keyed (dm_devices m) → Forall (λ v, TrimSpace v = v ∧ v ≠ "") l →
  ∀ u d, dm_devices m !! u = Some d →
  ∃ d', dm_devices (foldl (λ m udid, (ControlRunner mc m (startRequest udid)).1) m l) !! u = Some d' ∧
    same_but_handles d d' ∧ (u ∉ l ∨ is_Some (md_cancel d) → d' = d) ∧
    (u ∈ l → md_credentialPath d ≠ "" → dm_stopped m = false → is_Some (md_cancel d')).
Proof.
  revert m. induction l as [|v l IH]; intros m Hk Hl u d Hd.
  { exists d. split_and!; [done|apply handles_refl|done|]. by intros ?%elem_of_nil. }
  apply Forall_cons in Hl as [[Ht Hne] Hl]. simpl.
  destruct (start_nudges m v Hk Ht Hne) as [Hst Hrel]. set (m1 := (ControlRunner mc m (startRequest v)).1) in *.
  assert (Hk1 : keyed (dm_devices m1)).
  { intros w x Hx. specialize (Hrel w). rw Hx in Hrel. destruct (dm_devices m !! w) as [y|] eqn:Hy; [|done].
    destruct Hrel as [Hs _]. rw (handles_udid _ _ Hs). eauto. }
  pose proof (Hrel u) as Hu. rw Hd in Hu. destruct (dm_devices m1 !! u) as [d1|] eqn:Hd1; [|done].
  destruct Hu as (Hs1 & Hsame1 & Hrun1).
  destruct (IH m1 Hk1 Hl u d1 Hd1) as (d' & Hd' & Hs & Hsame & Hrun).
  exists d'. split_and!; [done|by eapply handles_trans| |].
  - rw not_elem_of_cons. intros [[Hnv Hnl]|Hc].
    + rw Hsame; [|by left]. apply Hsame1. by left.
    + assert (d1 = d) as -> by (apply Hsame1; by right). apply Hsame. by right.
  - intros Hin Hcred Hstop. apply elem_of_cons in Hin.
    destruct (decide (u = v)) as [->|Hnv].
    + assert (is_Some (md_cancel d1)) as Hr by auto. assert (d' = d1) as -> by (apply Hsame; by right). done.
    + destruct Hin as [?|Hin]; [done|]. apply Hrun; [done| |by rw Hst].
      rw Hsame1; [done|by left].
Qed.

(** The periodic probe gives every present,
    claimed, INSTALLED device whose control link is down, that has a
    credential and was not stopped by the operator, a loop handle; it changes
    nothing of any other device, and nothing but the handle of those. *)
Theorem probe_starts_exactly_eligible m u d :
  keyed (dm_devices m) → trimmed (dm_devices m) → dm_devices m !! u = Some d →
  ∃ d', dm_devices (probeControl mc m) !! u = Some d' ∧ same_but_handles d d' ∧
    (probe_eligible d = false ∨ is_Some (md_cancel d) → d' = d) ∧
    (probe_eligible d = true → dm_stopped m = false → is_Some (md_cancel d')).
Proof.
  intros Hk Ht Hd. unfold probeControl.
  assert (Hmem : u ∈ probe_targets m ↔ probe_eligible d = true).
  { unfold probe_targets. rw list_elem_of_fmap. split.
    - intros ([k x] & -> & Hin). apply list_elem_of_filter in Hin as [He Hin].
      apply elem_of_map_range in Hin. simpl in *. congruence.
    - intros He. exists (u, d). split; [done|]. apply list_elem_of_filter. split; [done|].
      by apply elem_of_map_range. }
  destruct (probe_nudges (probe_targets m) m Hk) with (u := u) (d := d) as (d' & Hd' & Hs & Hsame & Hrun); [|done|].
  { apply Forall_forall. intros v Hv. unfold probe_targets in Hv. apply list_elem_of_fmap in Hv as ([k x] & -> & Hin).
    apply list_elem_of_filter in Hin as [_ Hin]. apply elem_of_map_range in Hin. eauto. }
  exists d'. split_and!; [done|done| |].
  - intros [He|Hc]; apply Hsame; [left|by right]. rw Hmem He. done.
  - intros He Hst. apply Hrun; [by apply Hmem| |done].
    unfold probe_eligible in He. go_bool. done.
Qed.

(** When the loop of a device ends by itself
    its handle stays set, so a START for it is acknowledged without effect
    and the probe leaves the device alone: nothing but a STOP/RESTART, a
    release or a reconfiguration ever starts it again. *)
Theorem ended_loop_is_never_replaced m u d n err cancelled :
  keyed (dm_devices m) → trimmed (dm_devices m) →
  dm_devices m !! u = Some d → md_credentialPath d ≠ "" → md_cancel d = Some n →
  let m1 := loop_end mc m u err cancelled in
  ControlRunner mc m1 (startRequest u) = (m1, Ok ()) ∧
  dm_devices (probeControl mc m1) !! u = dm_devices m1 !! u ∧
  ∃ d1, dm_devices m1 !! u = Some d1 ∧ md_deviceControlOn d1 = false ∧ md_cancel d1 = Some n.
Proof.
  intros Hk Ht Hd Hcred Hn. cbv zeta. destruct (Ht _ _ Hd) as [Htu Hne].
  unfold loop_end. rw Hd. set (d1 := match err with Some _ => _ | None => _ end). set (m1 := dirtyReport _ _).
  assert (Hd1 : dm_devices m1 !! u = Some d1) by (unfold m1; autorewrite with devs; apply lookup_insert_eq).
  assert (Hs : md_credentialPath d1 = md_credentialPath d ∧ md_cancel d1 = Some n ∧
               md_deviceControlOn d1 = false ∧ md_udid d1 = md_udid d).
  { unfold d1. destruct err; [destruct cancelled|]; done. }
  destruct Hs as (Hc1 & Hn1 & Hon & Hu1).
  assert (Hk1 : keyed (dm_devices m1)).
  { unfold m1. autorewrite with devs. intros w x. rw lookup_insert_Some. intros [[<- <-]|[? ?]]; [rw Hu1|]; eauto. }
  assert (Ht1 : trimmed (dm_devices m1)).
  { unfold m1. autorewrite with devs. intros w x. rw lookup_insert_Some. intros [[<- <-]|[? ?]]; eauto. }
  assert (Hfix : ∃ d', dm_devices (probeControl mc m1) !! u = Some d' ∧ d' = d1).
  { destruct (probe_nudges (probe_targets m1) m1 Hk1) with (u := u) (d := d1) as (d' & ? & _ & Hsame & _); [|done|].
    - apply Forall_forall. intros v Hv. unfold probe_targets in Hv. apply list_elem_of_fmap in Hv as ([k x] & -> & Hin).
      apply list_elem_of_filter in Hin as [_ Hin]. apply elem_of_map_range in Hin. eauto.
    - exists d'. split; [done|]. apply Hsame. right. by rw Hn1. }
  split_and!.
  - eapply start_running; [done..|by rw Hc1|by rw Hn1].
  - destruct Hfix as (d' & -> & ->). done.
  - by exists d1.
Qed.

Lemma nextLoop_dirtyReport m : dm_nextLoop (dirtyReport mc m) = dm_nextLoop m.
Proof. unfold dirtyReport, reportLocked. by destruct (mc_OnReport mc). Qed.
Lemma nextLoop_persist m d : dm_nextLoop (persistLocked mc m d) = dm_nextLoop m.
Proof. unfold persistLocked. by destruct (dm_config m). Qed.
Lemma wipe_device m u d :
  dm_devices m !! u = Some d →
  ∃ d', dm_devices (onDeviceWipe mc m u) = <[u := d']> (dm_devices m) ∧
        md_udid d' = md_udid d ∧ md_cancel d' = md_cancel d.
Proof. intros Hd. unfold onDeviceWipe. rw Hd. autorewrite with devs. by eexists. Qed.
Lemma loop_end_device m u d err c :
  dm_devices m !! u = Some d →
  ∃ d', dm_devices (loop_end mc m u err c) = <[u := d']> (dm_devices m) ∧
        md_udid d' = md_udid d ∧ md_cancel d' = md_cancel d.
Proof.
  intros Hd. unfold loop_end. rw Hd. autorewrite with devs. eexists. split; [done|].
  destruct err; [destruct c|]; done.
Qed.
Lemma wipe_nextLoop m u : dm_nextLoop (onDeviceWipe mc m u) = dm_nextLoop m.
Proof. unfold onDeviceWipe. case_match; [by rw nextLoop_dirtyReport|done]. Qed.
Lemma loop_end_nextLoop m u err c : dm_nextLoop (loop_end mc m u err c) = dm_nextLoop m.
Proof. unfold loop_end. case_match; [by rw nextLoop_dirtyReport|done]. Qed.
Lemma Claim_begin_req m req m' u name cred :
  Claim_begin mc m req = (m', Ok (u, name, cred)) → u = TrimSpace (cl_Udid req) ∧ dm_nextLoop m' = dm_nextLoop m.
Proof. unfold Claim_begin. cbv zeta. intros Hb. by repeat (case_match; try done); simplify_eq. Qed.
Lemma start_with_handle m d n : md_cancel d = Some n → startDeviceLocked mc m d = m.
Proof. unfold startDeviceLocked. by intros ->. Qed.
Lemma Claim_running pair m req d n id m' :
  dm_devices m !! TrimSpace (cl_Udid req) = Some d → md_cancel d = Some n →
  Claim mc pair m req = (m', Ok id) →
  dm_nextLoop m' = dm_nextLoop m ∧
  ∃ d', dm_devices m' !! TrimSpace (cl_Udid req) = Some d' ∧ md_claimed d' = true ∧ md_cancel d' = Some n.
Proof.
  intros Hd Hn Hc. unfold Claim in Hc.
  destruct (Claim_begin mc m req) as [m2 [[[u name] cred]|]] eqn:Hb; [|done].
  destruct (Claim_begin_req _ _ _ _ _ _ Hb) as [-> Hm2].
  apply Claim_begin_ok in Hb as (d1 & Hd1 & _ & _ & Hdev).
  unfold Claim_finish in Hc. rw Hdev lookup_insert_eq in Hc. destruct (pair _ _ _) as [i|]; [|done].
  assert (d1 = d) as -> by congruence. cbv zeta in Hc.
  set (x := claimed_device _ _ _ _ _) in Hc.
  assert (Hx : md_cancel x = Some n ∧ md_claimed x = true) by (split; [exact Hn|done]).
  destruct Hx as [Hx1 Hx2]. clearbody x. rw (start_with_handle _ x n Hx1) in Hc.
  injection Hc as <- <-. rw nextLoop_dirtyReport nextLoop_persist. split; [done|].
  autorewrite with devs. rw lookup_insert_eq. by exists x.
Qed.

(** A claimed device whose loop handle is [n]. *)
Definition claimed_with_handle (m : DeviceManager) (u : string) (n : nat) : Prop :=
  ∃ d, dm_devices m !! u = Some d ∧ md_claimed d = true ∧ md_cancel d = Some n.
(** After the server wiped a device's
    credential and its loop returned, claiming the device again succeeds
    without starting a loop: the handle of the ended loop is still there. *)
Theorem reclaim_after_wipe_has_no_loop pair m u d n err cancelled req id m3 :
  dm_devices m !! u = Some d → md_cancel d = Some n → TrimSpace (cl_Udid req) = u →
  Claim mc pair (loop_end mc (onDeviceWipe mc m u) u err cancelled) req = (m3, Ok id) →
  dm_nextLoop m3 = dm_nextLoop m ∧ claimed_with_handle m3 u n.
Proof.
  intros Hd Hn <- Hc. set (u := TrimSpace (cl_Udid req)) in *.
  destruct (wipe_device m u d Hd) as (d1 & Hw & _ & Hn1).
  destruct (loop_end_device (onDeviceWipe mc m u) u d1 err cancelled) as (d2 & Hl & _ & Hn2);
    [by rw Hw lookup_insert_eq|].
  rw -(wipe_nextLoop m u) -(loop_end_nextLoop (onDeviceWipe mc m u) u err cancelled).
  eapply Claim_running; [by rw Hl lookup_insert_eq|congruence|done].
Qed.

(** A wipe that arrives while RESTART waits
    for the old loop is not respected: the second section of RESTART looks
    at the credential path, which a wipe keeps, and starts a loop for the
    device although it is no longer claimed. *)
Theorem restart_revives_wiped_device m req d u :
  keyed (dm_devices m) → TrimSpace (rc_DeviceId req) = "" → TrimSpace (rc_Udid req) = u → u ≠ "" → TrimSpace u = u →
  dm_devices m !! u = Some d → md_credentialPath d ≠ "" → md_cancel d = None → dm_stopped m = false →
  ∃ d', dm_devices (ControlRunner_restart mc (onDeviceWipe mc m u) req) !! u = Some d' ∧
        md_claimed d' = false ∧ md_cancel d' = Some (dm_nextLoop m).
Proof.
  intros Hk Hid Hu Hne Ht Hd Hc Hn Hst. pose proof (Hk _ _ Hd) as Hud.
  unfold ControlRunner_restart. rw findLocked_udid ?Hid ?Hu ?Ht //.
  unfold onDeviceWipe. rw Hd devices_dirtyReport devices_put lookup_insert_eq.
  unfold dirtyReport at 1. rw stopped_report. simpl. apply String.eqb_neq in Hc. rw Hc Hst /=.
  autorewrite with devs. rw devices_start; autorewrite with devs; simpl; rw Hud ?lookup_insert_eq; [|done].
  eexists. split; [done|]. unfold started, dirtyReport. rw stopped_report. simpl. rw Hn Hst /=.
  split; [done|]. unfold reportLocked. by destruct (mc_OnReport mc).
Qed.

(** A job that fails on a device whose
    control link is up leaves it FAILED with the link up, and the link's next
    "connected" callback does not correct it. *)
Theorem failed_job_shows_failed_with_link_up m u d code msg exp :
  keyed (dm_devices m) → TrimSpace u = u → u ≠ "" → dm_devices m !! u = Some d → md_deviceControlOn d = true →
  let m1 := NoteWdaJobResult mc m u false false false code msg exp in
  (∃ d1, dm_devices m1 !! u = Some d1 ∧ md_wdaState d1 = IOS_WDA_STATE_FAILED ∧ md_deviceControlOn d1 = true) ∧
  onDeviceState mc m1 u true = m1.
Proof.
  intros Hk Ht Hne Hd Hon. cbv zeta. pose proof (Hk _ _ Hd) as Hu.
  set (m1 := NoteWdaJobResult _ _ _ _ _ _ _ _ _).
  assert (Hd1 : dm_devices m1 !! u = Some (job_result false false false code msg exp d)).
  { unfold m1, NoteWdaJobResult, noteWdaState. pose proof Hne as Hne'. apply String.eqb_neq in Hne. rw Ht Hne.
    rw findLocked_udid ?Ht // Hd. destruct (String.eqb (wdaStateKey _) _); autorewrite with devs;
      by rw Hu lookup_insert_eq. }
  split; [by eexists|]. unfold onDeviceState. rw Hd1. simpl. by rw Hon.
Qed.

(** The inventory shows the device READY, its link down, and the probe skips it. *)
Definition ready_offline_unprobed (m : DeviceManager) (u : string) : Prop :=
  ∃ d, dm_devices m !! u = Some d ∧ md_wdaState d = IOS_WDA_STATE_READY ∧
       md_deviceControlOn d = false ∧ probe_eligible d = false.
(** Unplugging a READY device takes its link down but
    leaves it READY; the loop's "disconnected" callback then changes nothing
    and the probe, which only looks at INSTALLED devices, skips it. *)
Theorem detach_keeps_ready m u d :
  dm_devices m !! u = Some d → md_present d = true → md_wdaState d = IOS_WDA_STATE_READY →
  let m1 := applyEvent_detach mc m u in
  ready_offline_unprobed m1 u ∧ onDeviceState mc m1 u false = m1.
Proof.
  intros Hd Hp Hr. cbv zeta. set (m1 := applyEvent_detach mc m u).
  assert (Hd1 : dm_devices m1 !! u = Some (d <| md_present := false |> <| md_deviceControlOn := false |>)).
  { unfold m1, applyEvent_detach. rw Hd Hp. autorewrite with devs. apply lookup_insert_eq. }
  split.
  - eexists. split; [done|]. split; [done|]. split; [done|]. unfold probe_eligible. simpl. by rw Hr.
  - unfold onDeviceState. by rw Hd1.
Qed.
End theorems.

(** ** The theorems at concrete inputs *)
Module DeviceWitness.
Definition cfg : ManagerConfig := mkManagerConfig "/h/devices.json" (Ok "/h") "node-1" true.
Definition noCalendar : calendar := mkCalendar (λ _, None) (λ now days, now + days)%Z.
Definition phone : managedDevice :=
  zeroDevice "U1" <| md_present := true |> <| md_claimed := true |> <| md_credentialPath := "/h/c.json" |>
    <| md_wdaState := IOS_WDA_STATE_INSTALLED |>.
Definition with_phone (d : managedDevice) : DeviceManager :=
  mkManager {[ "U1" := d ]} 0 "" false None 5 [].
Definition claimReq : NodeIosClaimDevice := mkClaimReq "U1" "1234" "https://s" "Desk phone" "" "" "" 3.
Definition pairOk (server code cred : string) : result string := Ok "dev-9".
Definition configReq : NodeIosConfigureDevice := mkConfigureReq "" "D1" 4 "usb" "" "" 8100 0.
Definition hostCfg : DevicesConfig :=
  mkDevicesConfig None "" [mkDeviceConfig "A" "U1" "" "" "" 0 ""].

Lemma keyed_with d : md_udid d = "U1" → keyed (dm_devices (with_phone d)).
Proof. intros Hd u x Hx. unfold with_phone in Hx. simpl in Hx. apply lookup_singleton_Some in Hx as [<- <-]. done. Defined.
Lemma trimmed_with d : trimmed (dm_devices (with_phone d)).
Proof. intros u x Hx. unfold with_phone in Hx. simpl in Hx. apply lookup_singleton_Some in Hx as [<- <-]. by vm_compute. Defined.

Definition afterBegin : msys :=
  mkMsys (Claim_begin cfg (ms_mgr (minit (Some hostCfg))) claimReq).1
    [mkInflight claimReq "U1" "Desk phone" (DefaultCredentialPath (configPath cfg) "Desk phone")].
Lemma claim_begins : rtc (mstep cfg noCalendar) (minit (Some hostCfg)) afterBegin.
Proof. apply rtc_once. eapply st_claim_begin. vm_compute. reflexivity. Defined.

Lemma claim_pairings_exclusive_witness :
  NoDup (map if_udid (ms_pairing afterBegin)) ∧ map if_udid (ms_pairing afterBegin) = ["U1"].
Proof. split; [apply (claim_pairings_exclusive cfg noCalendar (Some hostCfg) _ claim_begins)|reflexivity]. Defined.

Definition afterLink : msys := afterBegin <| ms_mgr := onDeviceState cfg (ms_mgr afterBegin) "U1" true |>.
Lemma wda_ready_only_with_link_witness :
  ∃ d', dm_devices (ms_mgr afterLink) !! "U1" = Some d' ∧
    (md_deviceControlOn d' = true ∨
     ∃ d, dm_devices (ms_mgr afterBegin) !! "U1" = Some d ∧ md_wdaState d = IOS_WDA_STATE_READY).
Proof.
  eexists. split; [vm_compute; reflexivity|].
  eapply (wda_ready_only_with_link cfg noCalendar (Some hostCfg) afterBegin afterLink "U1");
    [apply claim_begins|apply st_loop_state|vm_compute; reflexivity|reflexivity].
Defined.

Lemma claim_outcome_witness :
  let '(m', r) := Claim cfg pairOk (with_phone (zeroDevice "U1")) claimReq in
  r = Ok "dev-9" ∧ ∃ d', dm_devices m' = <["U1" := d']> (dm_devices (with_phone (zeroDevice "U1"))).
Proof.
  pose proof (claim_outcome cfg pairOk (with_phone (zeroDevice "U1")) claimReq "U1" (zeroDevice "U1")
    (keyed_with (zeroDevice "U1") eq_refl) eq_refl ltac:(done) ltac:(done) ltac:(done) eq_refl eq_refl eq_refl) as H.
  cbv zeta in H. destruct (Claim _ _ _ _). destruct H as (d' & Hm & _ & Hr). simpl in Hr.
  split; [apply Hr|by exists d'].
Defined.

Lemma configure_applies_once_witness :
  (ConfigureDevice cfg (with_phone (phone <| md_deviceID := "D1" |>)) configReq).2 = Ok 4%Z.
Proof.
  assert (one_with_id (with_phone (phone <| md_deviceID := "D1" |>)) "D1") as Hone.
  { intros u1 u2 d1 d2 H1 H2 _ _ _. unfold with_phone in H1, H2. simpl in H1, H2. apply lookup_singleton_Some in H1 as [<- _]. by apply lookup_singleton_Some in H2 as [<- _]. }
  pose proof (configure_applies_once cfg (with_phone (phone <| md_deviceID := "D1" |>)) configReq (phone <| md_deviceID := "D1" |>)
    (keyed_with (phone <| md_deviceID := "D1" |>) eq_refl) Hone ltac:(vm_compute; reflexivity)) as H.
  destruct (ConfigureDevice _ _ _). apply H.
Defined.

Lemma release_forgets_claim_witness :
  (Release cfg (with_phone phone) (mkReleaseReq "U1" "" true)).2 = Ok ().
Proof.
  pose proof (release_forgets_claim cfg (with_phone phone) (mkReleaseReq "U1" "" true) phone
    (keyed_with phone eq_refl) eq_refl) as H.
  destruct (Release _ _ _). apply H.
Defined.

Lemma probe_starts_exactly_eligible_witness :
  ∃ d', dm_devices (probeControl cfg (with_phone phone)) !! "U1" = Some d' ∧ is_Some (md_cancel d').
Proof.
  destruct (probe_starts_exactly_eligible cfg (with_phone phone) "U1" phone
    (keyed_with phone eq_refl) (trimmed_with phone) eq_refl) as (d' & Hd & _ & _ & Hrun).
  exists d'. split; [done|]. by apply Hrun.
Defined.

Definition running : managedDevice := phone <| md_cancel := Some 2 |> <| md_deviceControlOn := true |>.
Lemma ended_loop_is_never_replaced_witness :
  let m1 := loop_end cfg (with_phone running) "U1" (Some "4003") false in
  ControlRunner cfg m1 (startRequest "U1") = (m1, Ok ()).
Proof.
  apply (ended_loop_is_never_replaced cfg (with_phone running) "U1" running 2 (Some "4003") false
    (keyed_with running eq_refl) (trimmed_with running) eq_refl); done.
Defined.

Definition reclaimed := Claim cfg pairOk (loop_end cfg (onDeviceWipe cfg (with_phone running) "U1") "U1" None false) claimReq.
Lemma reclaim_after_wipe_has_no_loop_witness : dm_nextLoop reclaimed.1 = 5.
Proof.
  apply (reclaim_after_wipe_has_no_loop cfg pairOk (with_phone running) "U1" running 2 None false claimReq "dev-9"
    reclaimed.1); [reflexivity|reflexivity|reflexivity|vm_compute; reflexivity].
Defined.

Lemma restart_revives_wiped_device_witness :
  ∃ d', dm_devices (ControlRunner_restart cfg (onDeviceWipe cfg (with_phone phone) "U1")
                      (mkControlReq "U1" "" RUNNER_CONTROL_RESTART)) !! "U1" = Some d' ∧
        md_claimed d' = false ∧ md_cancel d' = Some 5.
Proof.
  apply (restart_revives_wiped_device cfg (with_phone phone) (mkControlReq "U1" "" RUNNER_CONTROL_RESTART) phone "U1"
    (keyed_with phone eq_refl)); done.
Defined.

Lemma failed_job_shows_failed_with_link_up_witness :
  let m1 := NoteWdaJobResult cfg (with_phone running) "U1" false false false "BUILD" "xcodebuild failed" "" in
  onDeviceState cfg m1 "U1" true = m1.
Proof.
  apply (failed_job_shows_failed_with_link_up cfg (with_phone running) "U1" running "BUILD" "xcodebuild failed" ""
    (keyed_with running eq_refl)); done.
Defined.

Lemma detach_keeps_ready_witness :
  let m := with_phone (running <| md_wdaState := IOS_WDA_STATE_READY |>) in
  onDeviceState cfg (applyEvent_detach cfg m "U1") "U1" false = applyEvent_detach cfg m "U1".
Proof.
  apply (detach_keeps_ready cfg (with_phone (running <| md_wdaState := IOS_WDA_STATE_READY |>)) "U1"
    (running <| md_wdaState := IOS_WDA_STATE_READY |>)); done.
Defined.
End DeviceWitness.
