(* ===== verification/WdaJob.v ===== *)
(** * WdaJob: the WebDriverAgent job engine (common/ioshost/wdajob.go)

    A job is one run of [runJob]: its frames and callbacks, in order, are the
    list [js_out] threaded through the pipeline.  The steps (download, Apple
    signing, installation, launch) are code outside this package's logic and
    enter as the answers of a [WdaSteps] record, universally quantified in the
    theorems; so do the points where [ctx.Err] is polled and the ticks of the
    wait stage.  The manager's job table and its OnActiveChanged callbacks,
    which run outside the lock, are the transition system at the end. *)
From S2P Require Import Prelude GoStrings GoPath DevicesConfig DeviceManager.

Inductive IosJobStage :=
| STAGE_UNSPECIFIED | STAGE_QUEUED | STAGE_DOWNLOADING | STAGE_VERIFYING
| STAGE_ENABLING_DEVELOPER_MODE | STAGE_ENSURING_DEVICE | STAGE_ENSURING_BUNDLE_ID
| STAGE_PREPARING_CERTIFICATE | STAGE_CREATING_PROFILE | STAGE_SIGNING | STAGE_INSTALLING
| STAGE_MOUNTING_DEVELOPER_IMAGE | STAGE_STARTING_RUNNER | STAGE_FORWARDING_PORT
| STAGE_WAITING_READY | STAGE_VERIFYING_CONTROL | STAGE_COMPLETED | STAGE_FAILED | STAGE_CANCELLED.
#[export] Instance IosJobStage_eq_dec : EqDecision IosJobStage.
Proof. solve_decision. Defined.

(** jobStageName: the enum's String() *)
Definition jobStageName (s : IosJobStage) : string :=
  "IOS_JOB_STAGE_" +:+
  match s with
  | STAGE_UNSPECIFIED => "UNSPECIFIED" | STAGE_QUEUED => "QUEUED" | STAGE_DOWNLOADING => "DOWNLOADING"
  | STAGE_VERIFYING => "VERIFYING" | STAGE_ENABLING_DEVELOPER_MODE => "ENABLING_DEVELOPER_MODE"
  | STAGE_ENSURING_DEVICE => "ENSURING_DEVICE" | STAGE_ENSURING_BUNDLE_ID => "ENSURING_BUNDLE_ID"
  | STAGE_PREPARING_CERTIFICATE => "PREPARING_CERTIFICATE" | STAGE_CREATING_PROFILE => "CREATING_PROFILE"
  | STAGE_SIGNING => "SIGNING" | STAGE_INSTALLING => "INSTALLING"
  | STAGE_MOUNTING_DEVELOPER_IMAGE => "MOUNTING_DEVELOPER_IMAGE" | STAGE_STARTING_RUNNER => "STARTING_RUNNER"
  | STAGE_FORWARDING_PORT => "FORWARDING_PORT" | STAGE_WAITING_READY => "WAITING_READY"
  | STAGE_VERIFYING_CONTROL => "VERIFYING_CONTROL" | STAGE_COMPLETED => "COMPLETED"
  | STAGE_FAILED => "FAILED" | STAGE_CANCELLED => "CANCELLED"
  end.

(** ** Errors: their text and the sentinels errors.Is finds in their chain *)
Inductive sentinel :=
| errSHAMismatch | errDeveloperModeRequired | errDeviceNotPresent | errASCUnauthorized
| errNoSigningMaterial | errManualSigningRequired.
#[export] Instance sentinel_eq_dec : EqDecision sentinel.
Proof. solve_decision. Defined.
Record go_error := mkGoError { ge_text : string; ge_chain : list sentinel }.
Definition errors_Is (e : go_error) (s : sentinel) : bool := bool_decide (s ∈ ge_chain e).
Definition errors_New (text : string) : go_error := mkGoError text [].

Definition classifyFetchError (e : go_error) : string :=
  if errors_Is e errSHAMismatch then "sha256_mismatch" else "download_failed".
Definition classifySigningError (e : go_error) : string :=
  if errors_Is e errASCUnauthorized then "asc_unauthorized"
  else if errors_Is e errNoSigningMaterial then "signing_material_missing"
  else if errors_Is e errManualSigningRequired then "manual_action_required"
  else "asc_unavailable".
Definition classifyInstallError (e : go_error) : string :=
  if errors_Is e errDeviceNotPresent then "device_not_present" else "install_failed".
Definition classifyLaunchError (e : go_error) : string :=
  if errors_Is e errDeveloperModeRequired then "developer_mode_required"
  else if errors_Is e errDeviceNotPresent then "device_not_present"
  else "wda_unreachable".

(** indexOf: the loop of the code, from position [i] with [fuel] positions left *)
Fixpoint indexOf_from (fuel i : nat) (s sub : string) : Z :=
  match fuel with
  | O => (-1)%Z
  | S fuel =>
      if String.length sub + i <=? String.length s then
        if String.eqb (take_bytes (String.length sub) (drop_bytes i s)) sub then Z.of_nat i
        else indexOf_from fuel (S i) s sub
      else (-1)%Z
  end.
Definition indexOf (s sub : string) : Z :=
  if String.length sub =? 0 then 0%Z else indexOf_from (S (String.length s)) 0 s sub.

Definition pem_marker : string := "-----BEGIN".
Definition redactSecrets (s : string) : string :=
  let i := indexOf s pem_marker in
  if (0 <=? i)%Z then take_bytes (Z.to_nat i) s +:+ "[redacted key material]" else s.
Definition redactErr (e : option go_error) : string :=
  match e with None => "" | Some e => redactSecrets (ge_text e) end.

(** ** Requests, steps, outcome *)
Inductive IosWdaJobAction :=
| WDA_JOB_PREPARE | WDA_JOB_RENEW | WDA_JOB_REINSTALL | WDA_JOB_INSTALL_SIGNED | WDA_JOB_OTHER (n : Z).
#[export] Instance IosWdaJobAction_eq_dec : EqDecision IosWdaJobAction.
Proof. solve_decision. Defined.
Record NodeIosWdaArtifact := mkArtifact {
  art_Url : string; art_Sha256 : string; art_Version : string; art_TargetBundleId : string; art_XctestConfigName : string }.
Inductive IosSigningMode := SIGNING_MANUAL_P12 | SIGNING_APP_STORE_CONNECT | SIGNING_PRESIGNED | SIGNING_OTHER (n : Z).
#[export] Instance IosSigningMode_eq_dec : EqDecision IosSigningMode.
Proof. solve_decision. Defined.
Record NodeIosSigningMaterial := mkMaterial {
  sm_Mode : IosSigningMode; sm_CertificateP12 : string; sm_ProvisioningProfile : string; sm_P12Password : string;
  sm_CertificateId : string; sm_AscKeyId : string; sm_AscIssuerId : string; sm_AscPrivateKey : string }.
Record NodeIosWdaJobRequest := mkJobReq {
  jr_JobId : string; jr_Udid : string; jr_Action : IosWdaJobAction;
  jr_Artifact : option NodeIosWdaArtifact; jr_Signing : option NodeIosSigningMaterial; jr_EnableDeveloperMode : bool; jr_ConfigRevision : Z }.
Record SigningAssets := mkAssets {
  sa_P12Path : string; sa_ProfilePath : string; sa_P12Password : string; sa_CertificateID : string; sa_ProfileExpiresAt : string; sa_Presigned : bool }.

(** The pipeline the engine drives: for each step what it answers and, where
    it is given a callback, what it passes to it. *)
Record WdaSteps := mkSteps {
  Fetch : NodeIosWdaArtifact → string → list Z * (string + go_error);
  EnableDeveloperMode : string → option go_error;
  PrepareSigning : NodeIosWdaJobRequest → string → list IosJobStage * (SigningAssets + go_error);
  Sign : string → SigningAssets → string → string → string + go_error;
  Install : string → string → option go_error;
  Launch : string → string → string → list IosJobStage * (Z + go_error);
  IsInstalled : string → string → bool + go_error }.

Record jobOutcome := mkOutcome {
  oc_stage : IosJobStage; oc_errCode : string; oc_err : option go_error; oc_retryable : bool;
  oc_installed : bool; oc_bundleID : string; oc_profileExpiresAt : string; oc_certificateID : string;
  oc_artifactSHA : string; oc_artifactVersion : string }.
#[export] Instance eta_jobOutcome : Settable jobOutcome := λ o,
  mkOutcome (oc_stage o) (oc_errCode o) (oc_err o) (oc_retryable o) (oc_installed o) (oc_bundleID o)
    (oc_profileExpiresAt o) (oc_certificateID o) (oc_artifactSHA o) (oc_artifactVersion o).
Definition zeroOutcome : jobOutcome := mkOutcome STAGE_UNSPECIFIED "" None false false "" "" "" "" "".

Definition cancelled (out : jobOutcome) (at_ : IosJobStage) : jobOutcome :=
  out <| oc_stage := at_ |> <| oc_errCode := "cancelled" |> <| oc_err := Some (errors_New "job cancelled") |>.

(** ** What a job sends *)
Record NodeIosJobEvent := mkJobEvent {
  je_JobId : string; je_Seq : Z; je_Stage : IosJobStage; je_Message : string; je_Percent : Z;
  je_LogTail : string }.
Record NodeIosJobResult := mkJobResult {
  rs_JobId : string; rs_Ok : bool; rs_ErrorCode : string; rs_ErrorMessage : string; rs_Retryable : bool;
  rs_StageReached : IosJobStage; rs_WdaBundleId : string; rs_ProfileExpiresAt : string;
  rs_ArtifactSha256 : string; rs_ArtifactVersion : string; rs_CertificateId : string;
  rs_ConfigRevision : Z }.
Inductive job_effect :=
| JEvent (e : NodeIosJobEvent)
| JResult (r : NodeIosJobResult)
| JProgress (udid : string) (percent : Z) (stage : string)                  (** OnProgress *)
| JTerminal (udid : string) (ok cancelled installed : bool) (errorCode message expires : string)  (** OnTerminal *)
| JRemoveAll (dir : string).

(** The fields of the manager a job reads; the hooks that may be nil as flags. *)
Record JobConfig := mkJobConfig {
  jc_stateDir : string; jc_OnProgress : bool; jc_OnTerminal : bool; jc_IsPresent : bool;
  jc_PollInterval : Z; jc_WaitTimeout : Z }.
Record wdaJob := mkJob { j_id : string; j_udid : string }.
(** [j.seq] and everything the job did so far *)
Record jstate := mkJstate { js_seq : Z; js_out : list job_effect }.
#[export] Instance eta_jstate : Settable jstate := λ s, mkJstate (js_seq s) (js_out s).

(** int32(percent) *)
Definition int32 (z : Z) : Z := ((z + 2 ^ 31) mod 2 ^ 32 - 2 ^ 31)%Z.

(** ** The pipeline *)
Inductive checkpoint := CkFetch | CkDeveloperMode | CkSigning | CkSign | CkInstall | CkLaunch.
Inductive tick :=
| TDone                            (** the select took ctx.Done() *)
| TTick (present : bool) (now : Z). (** a tick: IsPresent, and time.Now() since the start *)
Record job_env := mkEnv {
  env_steps : WdaSteps;
  env_ctxErr : checkpoint → bool;    (** ctx.Err() != nil at each poll *)
  env_present : bool;                (** the first IsPresent *)
  env_tick : nat → tick;             (** the n-th select of the wait loop *)
  env_mkdir : option go_error }.     (** os.MkdirAll(workDir) *)

Section job.
Variable jc : JobConfig.
Variable env : job_env.
Variable j : wdaJob.

Definition event (st : jstate) (stage : IosJobStage) (msg : string) (percent : Z) (logTail : string) : jstate :=
  let seq := (js_seq st + 1)%Z in
  mkJstate seq (js_out st
    ++ (if jc_OnProgress jc then [JProgress (j_udid j) percent (jobStageName stage)] else [])
    ++ [JEvent (mkJobEvent (j_id j) seq stage msg (int32 percent) logTail)]).
(** The [stage] closure handed to PrepareSigning and Launch. *)
Definition stages (st : jstate) (l : list IosJobStage) : jstate :=
  foldl (λ st s, event st s "" 0 "") st l.

Definition defaultPresentPollInterval : Z := 5 * 10 ^ 9.
Definition defaultPresentWaitTimeout : Z := 600 * 10 ^ 9.
Definition interval : Z := if (jc_PollInterval jc <=? 0)%Z then defaultPresentPollInterval else jc_PollInterval jc.
Definition timeout : Z := if (jc_WaitTimeout jc <=? 0)%Z then defaultPresentWaitTimeout else jc_WaitTimeout jc.
Definition waiting (st : jstate) : jstate :=
  event st STAGE_QUEUED "waiting for the device to come online" 0 "".

(** The select loop from its [n]-th iteration; [None] is a wait still going
    on after [fuel] iterations. *)
Fixpoint wait_loop (fuel n : nat) (st : jstate) : jstate * option bool :=
  match fuel with
  | O => (st, None)
  | S fuel =>
      match env_tick env n with
      | TDone => (st, Some false)
      | TTick present now =>
          if present then (st, Some true)
          else if (timeout <? now)%Z then (st, Some false)
          else wait_loop fuel (S n) (waiting st)
      end
  end.
(** The n-th tick comes no earlier than [n+1] intervals after the start. *)
Definition wait_fuel : nat := Z.to_nat (timeout / interval) + 2.
Definition waitForDevice (st : jstate) : jstate * option bool :=
  if negb (jc_IsPresent jc) || env_present env then (st, Some true)
  else wait_loop wait_fuel 0 (waiting st).

(** Stages 1 to 4; [inl] is a return from [execute], [inr] falls through with
    the outcome so far. *)
Definition provision (st : jstate) (req : NodeIosWdaJobRequest) (art : NodeIosWdaArtifact)
    (workDir : string) (outcome : jobOutcome) : jstate * (jobOutcome + jobOutcome) :=
  if env_ctxErr env CkFetch then (st, inl (cancelled outcome STAGE_QUEUED)) else
  let st := event st STAGE_DOWNLOADING "fetching WDA artifact" 0 "" in
  let '(pcts, fetched) := Fetch (env_steps env) art workDir in
  let st := foldl (λ st pct, event st STAGE_DOWNLOADING "" pct "") st pcts in
  match fetched with
  | inr e =>
      let code := classifyFetchError e in
      (st, inl (outcome <| oc_stage := STAGE_VERIFYING |> <| oc_errCode := code |> <| oc_err := Some e |>
                        <| oc_retryable := String.eqb code "download_failed" |>))
  | inl artifactPath =>
  let st := event st STAGE_VERIFYING "artifact digest verified" 100 "" in
  if jr_EnableDeveloperMode req && env_ctxErr env CkDeveloperMode
  then (st, inl (cancelled outcome STAGE_VERIFYING)) else
  let st :=
    if jr_EnableDeveloperMode req then
      let st := event st STAGE_ENABLING_DEVELOPER_MODE
                  "requesting Developer Mode (confirm on the device; it will reboot)" 0 "" in
      match EnableDeveloperMode (env_steps env) (jr_Udid req) with
      | Some e => event st STAGE_ENABLING_DEVELOPER_MODE "could not request Developer Mode; continuing" 0
                    (redactErr (Some e))
      | None => st
      end
    else st in
  if env_ctxErr env CkSigning then (st, inl (cancelled outcome STAGE_VERIFYING)) else
  let '(seen, prepared) := PrepareSigning (env_steps env) req workDir in
  let st := stages st seen in
  match prepared with
  | inr e =>
      let code := classifySigningError e in
      (st, inl (outcome <| oc_stage := STAGE_CREATING_PROFILE |> <| oc_errCode := code |> <| oc_err := Some e |>
                        <| oc_retryable := String.eqb code "asc_unavailable" |>))
  | inl assets =>
  let outcome := outcome <| oc_certificateID := sa_CertificateID assets |>
                         <| oc_profileExpiresAt := sa_ProfileExpiresAt assets |> in
  if negb (sa_Presigned assets) && env_ctxErr env CkSign
  then (st, inl (cancelled outcome STAGE_CREATING_PROFILE)) else
  let '(st, signed) :=
    if sa_Presigned assets then (st, inl artifactPath)
    else (event st STAGE_SIGNING "signing WDA runner" 0 "",
          Sign (env_steps env) artifactPath assets (art_TargetBundleId art) workDir) in
  match signed with
  | inr e => (st, inl (outcome <| oc_stage := STAGE_SIGNING |> <| oc_errCode := "signing_failed" |>
                               <| oc_err := Some e |>))
  | inl signedPath =>
  if env_ctxErr env CkInstall then (st, inl (cancelled outcome STAGE_SIGNING)) else
  let st := event st STAGE_INSTALLING "installing on device" 0 "" in
  match Install (env_steps env) (jr_Udid req) signedPath with
  | Some e =>
      let code := classifyInstallError e in
      (st, inl (outcome <| oc_stage := STAGE_INSTALLING |> <| oc_errCode := code |> <| oc_err := Some e |>
                        <| oc_retryable := String.eqb code "device_not_present" |>))
  | None => (st, inr outcome)
  end end end end.

(** Stage 5, best effort *)
Definition launch (st : jstate) (req : NodeIosWdaJobRequest) (art : NodeIosWdaArtifact)
    (bundleID : string) (outcome : jobOutcome) : jstate * jobOutcome :=
  let outcome := outcome <| oc_installed := true |> in
  if env_ctxErr env CkLaunch then (st, cancelled outcome STAGE_INSTALLING) else
  let '(seen, launched) := Launch (env_steps env) (jr_Udid req) bundleID (art_XctestConfigName art) in
  let st := stages st seen in
  match launched with
  | inr e =>
      let outcome := outcome <| oc_stage := STAGE_WAITING_READY |> <| oc_errCode := classifyLaunchError e |>
                             <| oc_err := Some e |> <| oc_retryable := true |> in
      (event st STAGE_VERIFYING_CONTROL
         "runner installed; immediate control check failed (control loop keeps retrying)" 0
         (redactErr (Some e)), outcome)
  | inl _ => (st, outcome <| oc_stage := STAGE_COMPLETED |>)
  end.

(** The fast path's check: skip, and the state after its event *)
Definition check_installed (st : jstate) (req : NodeIosWdaJobRequest) (bundleID : string) : jstate * bool :=
  if bool_decide (jr_Action req = WDA_JOB_PREPARE) then
    match IsInstalled (env_steps env) (jr_Udid req) bundleID with
    | inr e => (event st STAGE_VERIFYING "could not check installed runner; running full pipeline" 0
                  (redactErr (Some e)), false)
    | inl true => (event st STAGE_VERIFYING "runner already installed; skipping download/sign/install" 0 "", true)
    | inl false => (st, false)
    end
  else (st, false).

Definition execute (st : jstate) (req : NodeIosWdaJobRequest) (workDir : string)
  : option (jstate * jobOutcome) :=
  let st := event st STAGE_QUEUED "job accepted" 0 "" in
  match jr_Artifact req with
  | None => Some (st, zeroOutcome <| oc_stage := STAGE_QUEUED |> <| oc_errCode := "artifact_missing" |>
                                  <| oc_err := Some (errors_New "no WDA artifact supplied") |>)
  | Some art =>
      let outcome := zeroOutcome <| oc_artifactSHA := art_Sha256 art |>
                                 <| oc_artifactVersion := art_Version art |>
                                 <| oc_bundleID := art_TargetBundleId art |> in
      match waitForDevice st with
      | (_, None) => None
      | (st, Some false) => Some (st, cancelled outcome STAGE_QUEUED)
      | (st, Some true) =>
          let bundleID := firstNonEmpty [art_TargetBundleId art; art_TargetBundleId art] in
          let '(st, skip) := check_installed st req bundleID in
          let outcome := if skip then outcome <| oc_installed := true |> else outcome in
          if skip then Some (launch st req art bundleID outcome)
          else match provision st req art workDir outcome with
               | (st, inl out) => Some (st, out)
               | (st, inr out) => Some (launch st req art bundleID out)
               end
      end
  end.

Definition finish (st : jstate) (req : NodeIosWdaJobRequest) (out : jobOutcome) : jstate :=
  let ok := bool_decide (is_Some (oc_err out)) in
  let ok := negb ok && String.eqb (oc_errCode out) "" in
  let isCancelled := String.eqb (oc_errCode out) "cancelled" in
  let terminal := if isCancelled then STAGE_CANCELLED else if negb ok then STAGE_FAILED else STAGE_COMPLETED in
  let msg := if negb ok then
               if oc_installed out then "runner installed; control not verified yet: " +:+ oc_errCode out
               else "job failed: " +:+ oc_errCode out
             else "WDA ready" in
  let st := event st terminal msg 0 (redactErr (oc_err out)) in
  let res := mkJobResult (j_id j) ok (oc_errCode out) (redactErr (oc_err out)) (oc_retryable out)
               (oc_stage out) (oc_bundleID out) (oc_profileExpiresAt out) (oc_artifactSHA out)
               (oc_artifactVersion out) (oc_certificateID out) (jr_ConfigRevision req) in
  st <| js_out := js_out st ++ JResult res ::
        if jc_OnTerminal jc then
          [if negb (oc_installed out)
           then JTerminal (j_udid j) ok isCancelled false (oc_errCode out) (redactErr (oc_err out)) (oc_profileExpiresAt out)
           else JTerminal (j_udid j) true false true (oc_errCode out) (redactErr (oc_err out)) (oc_profileExpiresAt out)]
        else [] |>.

Definition workDirOf : string := Join [jc_stateDir jc; "wda-jobs"; sanitizeFileName (j_id j)].
Definition runJob (req : NodeIosWdaJobRequest) : option jstate :=
  let st := mkJstate 0 [] in
  match env_mkdir env with
  | Some e => Some (finish st req (zeroOutcome <| oc_stage := STAGE_QUEUED |> <| oc_errCode := "workdir_failed" |>
                                               <| oc_err := Some e |>))
  | None =>
      match execute st req workDirOf with
      | None => None
      | Some (st, out) =>
          let st := finish st req out in
          Some (st <| js_out := js_out st ++ [JRemoveAll workDirOf] |>)
      end
  end.
End job.

(** ** The job table *)
Record job_entry := mkEntry { en_udid : string; en_cancelled : bool }.
Record WdaJobManager := mkJobManager {
  jm_jobs : gmap string job_entry;
  jm_onActive : bool;                (** OnActiveChanged != nil *)
  jm_log : list bool;                (** the transitions decided under the lock, in order *)
  jm_pending : list bool;            (** callbacks decided but not yet invoked *)
  jm_calls : list bool               (** OnActiveChanged invocations, in order *)
}.
#[export] Instance eta_WdaJobManager : Settable WdaJobManager := λ m,
  mkJobManager (jm_jobs m) (jm_onActive m) (jm_log m) (jm_pending m) (jm_calls m).
Definition NewWdaJobManager (onActive : bool) : WdaJobManager := mkJobManager ∅ onActive [] [] [].

Definition ActiveJobs `{!MapRange job_entry} (m : WdaJobManager) : list string :=
  map fst (map_range (jm_jobs m)).

(** The decision of a critical section that changes the table: at [n] jobs
    a hook that is set will be called with [running]. *)
Definition decide_active (m : WdaJobManager) (n : nat) (running : bool) : WdaJobManager :=
  if bool_decide (base.size (jm_jobs m) = n) && jm_onActive m
  then m <| jm_log := jm_log m ++ [running] |> <| jm_pending := jm_pending m ++ [running] |>
  else m.
(** Start up to the unlock; [Ok true] launches the goroutine. *)
Definition Start (m : WdaJobManager) (req : NodeIosWdaJobRequest) : WdaJobManager * result bool :=
  if String.eqb (jr_JobId req) "" then (m, Err "wda job: job_id is required") else
  if String.eqb (jr_Udid req) "" then (m, Err "wda job: udid is required") else
  match jm_jobs m !! jr_JobId req with
  | Some _ => (m, Ok false)
  | None =>
      let m := m <| jm_jobs := <[jr_JobId req := mkEntry (jr_Udid req) false]> (jm_jobs m) |> in
      (decide_active m 1 true, Ok true)
  end.
(** The deferred section of the job's goroutine. *)
Definition job_end (m : WdaJobManager) (id : string) : WdaJobManager :=
  decide_active (m <| jm_jobs := delete id (jm_jobs m) |>) 0 false.
Definition Cancel (m : WdaJobManager) (id : string) : WdaJobManager * result unit :=
  match jm_jobs m !! id with
  | None => (m, Ok ())
  | Some e => (m <| jm_jobs := <[id := mkEntry (en_udid e) true]> (jm_jobs m) |>, Ok ())
  end.
Definition StopAllJobs (m : WdaJobManager) : WdaJobManager :=
  m <| jm_jobs := (λ e, mkEntry (en_udid e) true) <$> jm_jobs m |>.

(** Critical sections and callback invocations interleave freely: each
    goroutine calls its callback after it released the lock. *)
Inductive jlabel :=
| JStart (req : NodeIosWdaJobRequest) | JEnd (id : string) | JCancel (id : string) | JStopAll
| JCall (i : nat).                  (** the i-th pending callback runs *)
Definition jstep (m : WdaJobManager) (l : jlabel) : option WdaJobManager :=
  match l with
  | JStart req => Some (Start m req).1
  | JEnd id => match jm_jobs m !! id with Some _ => Some (job_end m id) | None => None end
  | JCancel id => Some (Cancel m id).1
  | JStopAll => Some (StopAllJobs m)
  | JCall i =>
      b ← jm_pending m !! i;
      Some (m <| jm_pending := delete i (jm_pending m) |> <| jm_calls := jm_calls m ++ [b] |>)
  end.
Definition jrun : WdaJobManager → list jlabel → WdaJobManager → Prop :=
  trace_run (λ m l m', jstep m l = Some m').

(** ** Redaction *)
Lemma HasPrefix_take n s c t p :
  all_chars (λ a, negb (Ascii.eqb a c)) p = true →
  HasPrefix (take_bytes n s +:+ String c t) p = true → HasPrefix s p = true.
Proof.
  revert n s. induction p as [|x p IH]; intros n s Hp H; [by destruct s|].
  simpl in Hp. apply andb_true_iff in Hp as [Hx Hp].
  destruct n as [|n], s as [|d s];
    [change (Ascii.eqb x c && HasPrefix t p = true) in H
    |change (Ascii.eqb x c && HasPrefix t p = true) in H
    |change (Ascii.eqb x c && HasPrefix t p = true) in H
    |change (Ascii.eqb x d && HasPrefix (take_bytes n s +:+ String c t) p = true) in H];
    apply andb_true_iff in H as [H1 H2]; apply Ascii.eqb_eq in H1 as ->;
    try (by rw Ascii.eqb_refl in Hx).
  simpl. rw Ascii.eqb_refl. eauto.
Qed.
Lemma Index_cut s p i c t :
  all_chars (λ a, negb (Ascii.eqb a c)) p = true → Index (String c t) p = None →
  Index s p = Some i → Index (take_bytes i s +:+ String c t) p = None.
Proof.
  intros Hp Ht. revert i. induction s as [|d s IH]; intros i Hi.
  { simpl in Hi. by repeat case_match; simplify_eq. }
  cbn [Index] in Hi. destruct (HasPrefix (String d s) p) eqn:E; [by simplify_eq|].
  destruct (Index s p) as [k|] eqn:Hk; [|done]. simpl in Hi. injection Hi as <-.
  change (Index (String d (take_bytes k s +:+ String c t)) p = None). cbn [Index].
  destruct (HasPrefix (String d (take_bytes k s +:+ String c t)) p) eqn:E2.
  - apply (HasPrefix_take (S k) (String d s)) in E2; [congruence|done].
  - by rw IH.
Qed.

Lemma take_bytes_prefix s p : String.eqb (take_bytes (String.length p) s) p = HasPrefix s p.
Proof.
  revert s. induction p as [|c p IH]; intros [|d s]; try done. simpl.
  rw -IH Ascii.eqb_sym. by destruct (Ascii.eqb c d).
Qed.
Lemma HasPrefix_short s p : String.length s < String.length p → HasPrefix s p = false.
Proof.
  revert s. induction p as [|c p IH]; intros [|d s] H; simpl in *; [lia|lia|done|].
  rw IH; [|lia]. by destruct (Ascii.eqb c d).
Qed.
Lemma Index_short s p : String.length s < String.length p → Index s p = None.
Proof.
  induction s as [|d s IH]; intros H; cbn [Index].
  - by rw HasPrefix_short.
  - rw HasPrefix_short // IH //. simpl in *. lia.
Qed.
Lemma drop_bytes_cons n s : n < String.length s → ∃ c, drop_bytes n s = String c (drop_bytes (S n) s).
Proof.
  revert s. induction n as [|n IH]; intros [|c s] H; simpl in *; try lia; [by exists c|apply IH; lia].
Qed.

(** The spelled-out loop is strings.Index. *)
Lemma indexOf_from_spec fuel i s sub :
  sub ≠ "" → String.length s < i + fuel → i ≤ String.length s →
  indexOf_from fuel i s sub =
  match Index (drop_bytes i s) sub with Some k => Z.of_nat (i + k) | None => (-1)%Z end.
Proof.
  intros Hsub. revert i. induction fuel as [|fuel IH]; intros i Hf Hi; [lia|]. cbn [indexOf_from].
  rw take_bytes_prefix. destruct (Nat.leb_spec (String.length sub + i) (String.length s)) as [Hle|Hgt].
  - assert (0 < String.length sub) by (destruct sub; simpl; [done|lia]).
    destruct (drop_bytes_cons i s) as [c Hc]; [lia|].
    destruct (HasPrefix (drop_bytes i s) sub) eqn:E; rw Hc in E |- *; cbn [Index]; rw E; [f_equal; lia|].
    rw IH; [|lia|lia]. destruct (Index (drop_bytes (S i) s) sub); simpl; [f_equal; lia|done].
  - rw Index_short //. rw length_drop_bytes. lia.
Qed.

(** ** What the pipeline narrates *)
Definition no_pem (s : string) : Prop := Index s pem_marker = None.
Lemma redactSecrets_index s :
  redactSecrets s = match Index s pem_marker with
                    | Some i => take_bytes i s +:+ "[redacted key material]"
                    | None => s
                    end.
Proof.
  unfold redactSecrets, indexOf. cbn [String.length pem_marker Nat.eqb].
  rw indexOf_from_spec; [|done|lia|lia]. cbn [drop_bytes]. destruct (Index s pem_marker) as [i|]; [|done].
  rw Nat.add_0_l. destruct (0 <=? Z.of_nat i)%Z eqn:E; [by rw Nat2Z.id|go_bool; lia].
Qed.
Lemma redactSecrets_no_pem s : no_pem (redactSecrets s).
Proof.
  unfold no_pem. rw redactSecrets_index. destruct (Index s pem_marker) as [i|] eqn:E; [|done].
  by apply Index_cut.
Qed.
Lemma redactErr_no_pem e : no_pem (redactErr e).
Proof. destruct e; [apply redactSecrets_no_pem|done]. Qed.

Definition event_of (e : job_effect) : option NodeIosJobEvent :=
  match e with JEvent ev => Some ev | _ => None end.
Definition result_of (e : job_effect) : option NodeIosJobResult :=
  match e with JResult r => Some r | _ => None end.
Definition terminal_of (e : job_effect) : option string :=
  match e with JTerminal _ _ _ _ _ msg _ => Some msg | _ => None end.
(** Progress reports and events of job [id], with clean log tails. *)
Definition narrates (id : string) (e : job_effect) : Prop :=
  match e with
  | JEvent ev => je_JobId ev = id ∧ no_pem (je_LogTail ev)
  | JProgress _ _ _ => True
  | _ => False
  end.
(** [st'] continues [st] with narration only, numbering events consecutively. *)
Definition narrated (id : string) (st st' : jstate) : Prop :=
  (js_seq st ≤ js_seq st')%Z ∧
  ∃ l, js_out st' = js_out st ++ l ∧ Forall (narrates id) l ∧
       map je_Seq (omap event_of l) = seqZ (js_seq st + 1) (js_seq st' - js_seq st).
Lemma narrated_refl id st : narrated id st st.
Proof. split; [lia|]. exists []. rw app_nil_r Z.sub_diag. done. Qed.
Lemma narrated_trans id st1 st2 st3 : narrated id st1 st2 → narrated id st2 st3 → narrated id st1 st3.
Proof.
  intros [Hle1 (l1 & H1 & F1 & S1)] [Hle2 (l2 & H2 & F2 & S2)]. split; [lia|]. exists (l1 ++ l2).
  rw H2 H1 app_assoc omap_app map_app S1 S2. split; [done|]. split; [by apply Forall_app|].
  replace (js_seq st3 - js_seq st1)%Z with ((js_seq st2 - js_seq st1) + (js_seq st3 - js_seq st2))%Z by lia.
  rw seqZ_app; [|lia|lia]. do 2 f_equal. lia.
Qed.

Section narration.
Context (jc : JobConfig) (env : job_env) (j : wdaJob).
Local Abbreviation narr := (narrated (j_id j)).
Lemma narrated_event st stage msg pct tail : no_pem tail → narr st (event jc j st stage msg pct tail).
Proof.
  intros Ht. unfold event. split; simpl; [lia|]. eexists. split; [done|].
  replace (js_seq st + 1 - js_seq st)%Z with 1%Z by lia. destruct (jc_OnProgress jc); simpl; (split; [|done]);
    repeat constructor; simpl; done.
Qed.
Lemma narrated_step st0 st stage msg pct tail :
  narr st0 st → no_pem tail → narr st0 (event jc j st stage msg pct tail).
Proof. intros. eapply narrated_trans; [done|]. by apply narrated_event. Qed.
Lemma narrated_foldl {A} (f : jstate → A → jstate) (l : list A) st0 st :
  (∀ st x, narr st (f st x)) → narr st0 st → narr st0 (foldl f st l).
Proof.
  intros Hf. revert st. induction l as [|x l IH]; intros st H; [done|]. simpl. apply IH.
  eapply narrated_trans; eauto.
Qed.
Lemma narrated_stages l st0 st : narr st0 st → narr st0 (stages jc j st l).
Proof. apply narrated_foldl. intros. by apply narrated_event. Qed.
Lemma no_pem_nil : no_pem "".
Proof. done. Qed.
Hint Resolve narrated_refl narrated_step narrated_stages redactErr_no_pem redactSecrets_no_pem no_pem_nil : core.

Lemma narrated_wait_loop fuel n st0 st : narr st0 st → narr st0 (wait_loop jc env j fuel n st).1.
Proof.
  revert n st. induction fuel as [|fuel IH]; intros n st H; [done|]. simpl.
  repeat case_match; auto. apply IH. unfold waiting. auto.
Qed.
Lemma narrated_wait st : narr st (waitForDevice jc env j st).1.
Proof. unfold waitForDevice, waiting. case_match; [auto|]. apply narrated_wait_loop. auto. Qed.
Lemma narrated_provision st req art dir out : narr st (provision jc env j st req art dir out).1.
Proof.
  assert (Hf : ∀ st0 st l, narr st0 st →
    narr st0 (foldl (λ st pct, event jc j st STAGE_DOWNLOADING "" pct "") st l))
    by (intros; apply narrated_foldl; auto using narrated_event).
  unfold provision. cbv zeta. repeat (case_match; simplify_eq/=; auto 20).
Qed.
Lemma narrated_launch st req art b out : narr st (launch jc env j st req art b out).1.
Proof. unfold launch. cbv zeta. repeat (case_match; simplify_eq/=; auto). Qed.
Lemma narrated_check st req b : narr st (check_installed jc env j st req b).1.
Proof. unfold check_installed. repeat (case_match; simplify_eq/=; auto). Qed.

Lemma narrated_execute st req dir st' out :
  execute jc env j st req dir = Some (st', out) → narr st st'.
Proof.
  unfold execute. cbv zeta. set (st1 := event _ _ _ _ _ _ _). assert (H1 : narr st st1) by (unfold st1; auto).
  destruct (jr_Artifact req) as [art|]; [|by intros [= <- _]].
  pose proof (narrated_wait st1) as Hw. destruct (waitForDevice jc env j st1) as [st2 [[]|]]; simpl in Hw; [| |done].
  - set (b := firstNonEmpty _). pose proof (narrated_check st2 req b) as Hc.
    destruct (check_installed jc env j st2 req b) as [st3 skip]. simpl in Hc.
    assert (H3 : narr st st3) by eauto using narrated_trans. destruct skip.
    + set (o := _ <| oc_installed := true |>). intros [= Hl]. pose proof (narrated_launch st3 req art b o) as Hn.
      rw Hl in Hn. eauto using narrated_trans.
    + set (o := _ <| oc_bundleID := _ |>). pose proof (narrated_provision st3 req art dir o) as Hp.
      destruct (provision jc env j st3 req art dir o) as [st4 [o1|o1]]; simpl in Hp.
      * intros [= <- _]. eauto using narrated_trans.
      * intros [= Hl]. pose proof (narrated_launch st4 req art b o1) as Hn. rw Hl in Hn. eauto using narrated_trans.
  - intros [= <- _]. eauto using narrated_trans.
Qed.
End narration.

(** *** The wait stage ends *)
(** time.Ticker: the n-th tick is received no earlier than n intervals after
    the ticker was made. *)
Definition ticker_law (jc : JobConfig) (env : job_env) : Prop :=
  ∀ n p now, env_tick env n = TTick p now → (Z.of_nat (S n) * interval jc ≤ now)%Z.
Lemma interval_pos jc : (0 < interval jc)%Z.
Proof. unfold interval, defaultPresentPollInterval. case_match; go_bool; lia. Qed.
Lemma timeout_pos jc : (0 < timeout jc)%Z.
Proof. unfold timeout, defaultPresentWaitTimeout. case_match; go_bool; lia. Qed.
Lemma wait_loop_ends jc env j fuel n st :
  ticker_law jc env → 0 < fuel → (timeout jc < Z.of_nat (n + fuel) * interval jc)%Z →
  is_Some (wait_loop jc env j fuel n st).2.
Proof.
  intros Hlaw. revert n st. induction fuel as [|fuel IH]; intros n st Hf Ht; [lia|]. simpl.
  destruct (env_tick env n) as [|[] now] eqn:E; [done|done|]. pose proof (Hlaw _ _ _ E) as Hn.
  destruct (timeout jc <? now)%Z eqn:Hlt; [done|]. go_bool. apply IH; [|by rw Nat.add_succ_comm].
  destruct fuel; [|lia]. rw Nat.add_1_r in Ht. lia.
Qed.
Lemma waitForDevice_ends jc env j st : ticker_law jc env → is_Some (waitForDevice jc env j st).2.
Proof.
  intros Hlaw. unfold waitForDevice. case_match; [done|]. apply wait_loop_ends; [done|unfold wait_fuel; lia|].
  pose proof (interval_pos jc). pose proof (timeout_pos jc).
  pose proof (Z.div_mod (timeout jc) (interval jc)). pose proof (Z.mod_pos_bound (timeout jc) (interval jc)).
  assert (0 ≤ timeout jc / interval jc)%Z by (apply Z.div_pos; lia). unfold wait_fuel. rw Nat.add_0_l.
  rw Nat2Z.inj_add Z2Nat.id; [|lia]. nia.
Qed.
Lemma execute_ends jc env j st req dir : ticker_law jc env → is_Some (execute jc env j st req dir).
Proof.
  intros Hlaw. unfold execute. destruct (jr_Artifact req); [|done].
  destruct (waitForDevice_ends jc env j (event jc j st STAGE_QUEUED "job accepted" 0 "") Hlaw) as [b Hb].
  destruct (waitForDevice _ _ _ _) as [st2 [[]|]]; simpl in Hb; [| |done]; [|done].
  destruct (check_installed _ _ _ _ _ _) as [st3 []]; [done|]. destruct (provision _ _ _ _ _ _ _ _) as [? []]; done.
Qed.

(** *** finish *)
Definition outcome_ok (out : jobOutcome) : bool :=
  negb (bool_decide (is_Some (oc_err out))) && String.eqb (oc_errCode out) "".
Definition terminal_stage (out : jobOutcome) : IosJobStage :=
  if String.eqb (oc_errCode out) "cancelled" then STAGE_CANCELLED
  else if negb (outcome_ok out) then STAGE_FAILED else STAGE_COMPLETED.
(** Events end with one of stage [s]. *)
Definition ends_with (s : IosJobStage) (l : list job_effect) : Prop :=
  ∃ l0 ev, omap event_of l = l0 ++ [ev] ∧ je_Stage ev = s.
Lemma finish_shape jc j st req out :
  ∃ l r l2, js_out (finish jc j st req out) = js_out st ++ l ++ JResult r :: l2 ∧
    narrated (j_id j) st (mkJstate (js_seq (finish jc j st req out)) (js_out st ++ l)) ∧
    ends_with (terminal_stage out) l ∧ omap event_of l2 = [] ∧ omap result_of l2 = [] ∧
    Forall no_pem (omap terminal_of l2) ∧
    rs_JobId r = j_id j ∧ rs_Ok r = outcome_ok out ∧ rs_ErrorCode r = oc_errCode out ∧
    rs_ErrorMessage r = redactErr (oc_err out).
Proof.
  unfold finish. cbv zeta. fold (outcome_ok out). fold (terminal_stage out).
  set (msg := if negb (outcome_ok out) then _ else _).
  pose proof (narrated_event jc j st (terminal_stage out) msg 0 (redactErr (oc_err out)) (redactErr_no_pem _)) as Hn.
  unfold event in *. simpl. rw -!app_assoc. eexists (_ ++ [_]), _, _. split; [rw -!app_assoc; reflexivity|].
  split; [exact Hn|]. split.
  { destruct (jc_OnProgress jc); simpl; eexists [], _; done. }
  destruct (jc_OnTerminal jc); [destruct (oc_installed out)|]; simpl; split_and!; auto;
    repeat constructor; apply redactErr_no_pem.
Qed.
Lemma narrated_no_result id l : Forall (narrates id) l → omap result_of l = [].
Proof. induction 1 as [|e l He Hl IH]; [done|]. by destruct e. Qed.
Lemma narrated_no_terminal id l : Forall (narrates id) l → omap terminal_of l = [].
Proof. induction 1 as [|e l He Hl IH]; [done|]. by destruct e. Qed.
Lemma narrated_tails id l : Forall (narrates id) l → Forall (λ ev, je_JobId ev = id ∧ no_pem (je_LogTail ev)) (omap event_of l).
Proof. induction 1 as [|e l He Hl IH]; [done|]. destruct e; try done. by constructor. Qed.
Lemma narrated_from id st st' : narrated id st st' → js_out st = [] → Forall (narrates id) (js_out st').
Proof. intros [_ (l & -> & Hl & _)] ->. done. Qed.

Lemma omap_cleanup {B} (f : job_effect → option B) l d :
  f (JRemoveAll d) = None → omap f (l ++ [JRemoveAll d]) = omap f l.
Proof. intros H. rw omap_app. simpl. by rw H app_nil_r. Qed.
Lemma omap_result_JResult r l : omap result_of (JResult r :: l) = r :: omap result_of l.
Proof. done. Qed.
Lemma omap_event_JResult r l : omap event_of (JResult r :: l) = omap event_of l.
Proof. done. Qed.
Lemma omap_terminal_JResult r l : omap terminal_of (JResult r :: l) = omap terminal_of l.
Proof. done. Qed.

(** Every run of [runJob] is narration, [finish] on some outcome, and the
    removal of the work directory if there is one. *)
Lemma runJob_shape jc env j req st :
  runJob jc env j req = Some st →
  ∃ st0 out, narrated (j_id j) (mkJstate 0 []) st0 ∧ js_seq st = js_seq (finish jc j st0 req out) ∧
    js_out st = js_out (finish jc j st0 req out) ++
                match env_mkdir env with None => [JRemoveAll (workDirOf jc j)] | Some _ => [] end ∧
    match env_mkdir env with
    | Some _ => outcome_ok out = false
    | None => execute jc env j (mkJstate 0 []) req (workDirOf jc j) = Some (st0, out)
    end.
Proof.
  unfold runJob. destruct (env_mkdir env) as [e|].
  - intros [= <-]. eexists _, _. rw app_nil_r. split; [apply narrated_refl|]. done.
  - destruct (execute _ _ _ _ _ _) as [[st0 out]|] eqn:E; [|done]. intros [= <-]. exists st0, out.
    split; [by eapply narrated_execute|]. done.
Qed.

(** The frames of a finished job: numbered events ending in the terminal
    stage, then the result, nothing after it but callbacks and cleanup. *)
Record job_frames (id : string) (st : jstate) (r : NodeIosJobResult) : Prop := {
  jf_one : omap result_of (js_out st) = [r];
  jf_id : rs_JobId r = id;
  jf_seq : map je_Seq (omap event_of (js_out st)) = seqZ 1 (js_seq st);
  jf_last : ∃ l1 l2, js_out st = l1 ++ JResult r :: l2 ∧ omap event_of l2 = [] ∧
     ends_with (if String.eqb (rs_ErrorCode r) "cancelled" then STAGE_CANCELLED
                else if rs_Ok r then STAGE_COMPLETED else STAGE_FAILED) l1;
  jf_clean : Forall (λ ev, je_JobId ev = id ∧ no_pem (je_LogTail ev)) (omap event_of (js_out st)) ∧
             no_pem (rs_ErrorMessage r) ∧ Forall no_pem (omap terminal_of (js_out st))
}.

Lemma finish_frames jc j st0 req out :
  narrated (j_id j) (mkJstate 0 []) st0 →
  ∃ r, job_frames (j_id j) (finish jc j st0 req out) r ∧ rs_Ok r = outcome_ok out.
Proof.
  intros Hn0. destruct (finish_shape jc j st0 req out)
    as (l & r & l2 & Hout & Hn & Hend & He2 & Hr2 & Ht2 & Hid & Hok & Hcode & Hmsg).
  pose proof (narrated_trans _ _ _ _ Hn0 Hn) as Hn1. pose proof (narrated_from _ _ _ Hn1 eq_refl) as Hall. simpl in Hall.
  destruct Hn1 as [_ (l' & Hl' & _ & Hseq)]. simpl in Hl', Hseq. rw Z.sub_0_r in Hseq.
  exists r. split; [|done]. split.
  - rw Hout app_assoc omap_app (narrated_no_result _ _ Hall) omap_result_JResult Hr2. done.
  - done.
  - rw Hout app_assoc omap_app omap_event_JResult He2 app_nil_r. rw Hl'. exact Hseq.
  - exists (js_out st0 ++ l), l2. rw Hout app_assoc. split; [done|]. split; [done|].
    rw Hok Hcode. destruct Hend as (l0 & ev & Hev & Hst). exists (omap event_of (js_out st0) ++ l0), ev.
    rw omap_app Hev app_assoc. split; [done|]. unfold terminal_stage in Hst. rw Hst.
    by destruct (outcome_ok out).
  - rw Hout app_assoc (omap_app event_of) (omap_app terminal_of) omap_event_JResult omap_terminal_JResult He2 app_nil_r
      (narrated_no_terminal _ _ Hall).
    split; [by eapply narrated_tails|]. rw Hmsg. split; [apply redactErr_no_pem|done].
Qed.

(** C6: whatever the steps answer and whenever the job is
    cancelled, a job terminates, given a poll ticker whose n-th tick comes no
    earlier than n intervals after the start; it sends events numbered 1, 2, 3, ... and
    exactly one result after all of them; the last event's stage agrees with
    the result (COMPLETED iff ok, CANCELLED iff the code is "cancelled");
    neither the log tail of an event it sends nor the error message of its
    result contains the BEGIN marker of a PEM block; and its work directory, if
    it was created, is removed.  Only what is sent is covered: log lines are
    not, and text before the marker is sent as it is. *)
Theorem job_sends_one_result jc env j req :
  ticker_law jc env →
  ∃ st r, runJob jc env j req = Some st ∧ job_frames (j_id j) st r ∧
    (env_mkdir env = None → JRemoveAll (workDirOf jc j) ∈ js_out st).
Proof.
  intros Hlaw.
  assert (is_Some (runJob jc env j req)) as [st Hst].
  { unfold runJob. destruct (env_mkdir env); [done|].
    destruct (execute_ends jc env j (mkJstate 0 []) req (workDirOf jc j) Hlaw) as [[st out] Hx]. by rw Hx. }
  destruct (runJob_shape _ _ _ _ _ Hst) as (st0 & out & Hn & Hseq & Hout & _).
  destruct (finish_frames jc j st0 req out Hn) as (r & [H1 H2 H3 (l1 & l2 & H4 & H5 & H6) (H7 & H8 & H9)] & _).
  exists st, r. split; [done|]. split.
  - destruct (env_mkdir env); [rw app_nil_r in Hout|].
    { split; rw ?Hout ?Hseq; try done. by exists l1, l2. }
    split; rw ?Hout ?Hseq ?omap_cleanup; try done.
    exists l1, (l2 ++ [JRemoveAll (workDirOf jc j)]). rw H4 -app_assoc omap_cleanup; [|done]. done.
  - intros Hm. rw Hm in Hout. rw Hout elem_of_app. right. by left.
Qed.

(** ** A job id made of dots *)
Lemma Join_up root w : root ≠ "" → safe_segment w = true → Join [root; w; ".."] = Clean root.
Proof.
  intros Hr Hw. unfold Join, Clean. assert (String.eqb root "" = false) as -> by (by apply String.eqb_neq).
  rw join_slash_cons // join_slash_cons //.
  assert (Hnil : String.eqb (root +:+ String slash (w +:+ String slash "..")) "" = false) by (by destruct root).
  assert (Habs : IsAbs (root +:+ String slash (w +:+ String slash "..")) = IsAbs root) by (by destruct root).
  cbn [join_slash]. rw Hnil Habs split_slash_app_any split_slash_app; [|by apply safe_no_slash].
  unfold clean_components. rw foldl_app. cbn [foldl split_slash]. rw clean_step_safe //.
  f_equal. simpl. unfold clean_step. simpl. by assert (String.eqb w ".." = false) as -> by
    (unfold safe_segment in Hw; go_bool; by apply String.eqb_neq).
Qed.
(** A job id of two dots passes the file name
    filter, so the job's work directory is the host's state directory itself,
    and the cleanup at the end of the job removes it. *)
Theorem dotdot_job_removes_state_dir jc env udid req :
  ticker_law jc env → jc_stateDir jc ≠ "" → env_mkdir env = None →
  ∃ st, runJob jc env (mkJob ".." udid) req = Some st ∧ JRemoveAll (Clean (jc_stateDir jc)) ∈ js_out st.
Proof.
  intros Hlaw Hne Hmk. unfold runJob. rw Hmk.
  destruct (execute_ends jc env (mkJob ".." udid) (mkJstate 0 []) req (workDirOf jc (mkJob ".." udid)) Hlaw)
    as [[st out] Hx]. rw Hx. eexists. split; [done|]. simpl. rw elem_of_app. right.
  unfold workDirOf. change (sanitizeFileName (j_id (mkJob ".." udid))) with "..". rw Join_up //. by left.
Qed.

Lemma provision_return jc env j st req art dir o st' out :
  provision jc env j st req art dir o = (st', inl out) → outcome_ok out = false.
Proof. unfold provision. cbv zeta. intros H. repeat (case_match; simplify_eq/=; try done). Qed.
Lemma provision_installs jc env j st req art dir o st' out :
  provision jc env j st req art dir o = (st', inr out) →
  ∃ path, Install (env_steps env) (jr_Udid req) path = None.
Proof. unfold provision. cbv zeta. intros H. repeat (case_match; simplify_eq/=; try done); eauto. Qed.
Lemma launch_ok jc env j st req art b o st' out :
  launch jc env j st req art b o = (st', out) → outcome_ok out = true →
  ∃ port, (Launch (env_steps env) (jr_Udid req) b (art_XctestConfigName art)).2 = inl port.
Proof.
  unfold launch. cbv zeta. intros H Hok. repeat (case_match; simplify_eq/=; try done). by eexists.
Qed.

(** C11: a job reports success only when the
    runner was found installed on a PREPARE or was installed by this job, and
    the launch verification succeeded. *)
Theorem job_ok_means_installed_and_launched jc env j req st r :
  runJob jc env j req = Some st → omap result_of (js_out st) = [r] → rs_Ok r = true →
  ∃ art, jr_Artifact req = Some art ∧
    (∃ port, (Launch (env_steps env) (jr_Udid req)
       (firstNonEmpty [art_TargetBundleId art; art_TargetBundleId art]) (art_XctestConfigName art)).2 = inl port) ∧
    ((jr_Action req = WDA_JOB_PREPARE ∧
      IsInstalled (env_steps env) (jr_Udid req)
        (firstNonEmpty [art_TargetBundleId art; art_TargetBundleId art]) = inl true) ∨
     ∃ path, Install (env_steps env) (jr_Udid req) path = None).
Proof.
  intros Hrun Hr Hok. destruct (runJob_shape _ _ _ _ _ Hrun) as (st0 & out & Hn & _ & Hout & Hx).
  destruct (finish_frames jc j st0 req out Hn) as (r' & [H1 _ _ _ _] & Hok').
  assert (r' = r) as -> by (rw Hout omap_app H1 in Hr; by destruct (env_mkdir env); simplify_eq/=).
  rw Hok in Hok'. destruct (env_mkdir env); [congruence|]. clear Hrun Hr Hout H1 Hok Hn.
  unfold execute in Hx. cbv zeta in Hx. set (st1 := event _ _ _ _ _ _ _) in Hx.
  destruct (jr_Artifact req) as [art|]; [|by simplify_eq]. exists art. split; [done|].
  set (b := firstNonEmpty _) in *. destruct (waitForDevice jc env j st1) as [st2 [[]|]]; [|by simplify_eq|done].
  destruct (check_installed jc env j st2 req b) as [st3 skip] eqn:Hc.
  assert (Hskip : skip = true → jr_Action req = WDA_JOB_PREPARE ∧ IsInstalled (env_steps env) (jr_Udid req) b = inl true).
  { intros ->. unfold check_installed in Hc. case_bool_decide; [|done]. by repeat case_match; simplify_eq. }
  destruct skip.
  - injection Hx as Hl. split; [by eapply launch_ok|]. left. auto.
  - set (o := _ <| oc_bundleID := _ |>) in Hx.
    destruct (provision jc env j st3 req art _ o) as [st4 [o1|o1]] eqn:Hp.
    + apply provision_return in Hp. injection Hx as <- <-. congruence.
    + injection Hx as Hl. split; [by eapply launch_ok|]. right. by eapply provision_installs.
Qed.

(** The spelled-out search is strings.Index, and
    redaction cuts at the first PEM marker: what is before it is kept, and
    the result contains no marker. *)
Theorem redaction_cuts_at_first_marker s :
  indexOf s pem_marker = match Index s pem_marker with Some i => Z.of_nat i | None => (-1)%Z end ∧
  redactSecrets s = match Index s pem_marker with
                    | Some i => take_bytes i s +:+ "[redacted key material]"
                    | None => s
                    end ∧
  no_pem (redactSecrets s).
Proof.
  split; [|split; [apply redactSecrets_index|apply redactSecrets_no_pem]].
  unfold indexOf. cbn [String.length pem_marker Nat.eqb]. rw indexOf_from_spec; [|done|lia|lia]. done.
Qed.

(** ** The job table: OnActiveChanged *)
(** Transitions alternate, starting with "running"; the parity says whether
    jobs are running; what was called or is pending is what was decided. *)
Record active_inv (m : WdaJobManager) : Prop := {
  ai_alternates i b : jm_log m !! i = Some b → b = Nat.even i;
  ai_parity : jm_onActive m = true → (jm_jobs m = ∅ ↔ Nat.even (length (jm_log m)) = true);
  ai_calls : jm_calls m ++ jm_pending m ≡ₚ jm_log m;
  ai_off : jm_onActive m = false → jm_log m = []
}.
Lemma delete_perm {A} (l : list A) i x : l !! i = Some x → x :: delete i l ≡ₚ l.
Proof. intros H. symmetry. by apply delete_Permutation. Qed.
Lemma decide_active_inv m n b :
  (∀ i b, jm_log m !! i = Some b → b = Nat.even i) → jm_calls m ++ jm_pending m ≡ₚ jm_log m →
  (jm_onActive m = false → jm_log m = []) →
  (jm_onActive m = true → base.size (jm_jobs m) = n →
     Nat.even (length (jm_log m)) = b ∧ (jm_jobs m = ∅ ↔ b = false)) →
  (jm_onActive m = true → base.size (jm_jobs m) ≠ n → (jm_jobs m = ∅ ↔ Nat.even (length (jm_log m)) = true)) →
  active_inv (decide_active m n b).
Proof.
  intros Ha Hc Ho Heq Hne. unfold decide_active. destruct (jm_onActive m) eqn:E; rw ?andb_false_r ?andb_true_r;
    [|split; auto; congruence].
  case_bool_decide as Hs; [|split; auto; congruence]. destruct (Heq eq_refl Hs) as [Hev Hem]. split; simpl.
  - intros i x Hx. apply lookup_app_Some in Hx as [Hx|[Hi Hx]]; [eauto|].
    apply list_lookup_singleton_Some in Hx as [Hz <-]. assert (i = length (jm_log m)) as -> by lia. done.
  - intros _. rw length_app Nat.add_1_r Nat.even_succ -Nat.negb_even Hev Hem. by destruct b.
  - by rw app_assoc Hc.
  - congruence.
Qed.
Lemma jstep_inv m l m' : active_inv m → jstep m l = Some m' → active_inv m'.
Proof.
  intros [Ha Hp Hc Ho] Hs. destruct l as [req|id|id| |i]; simpl in Hs.
  - injection Hs as <-. unfold Start. destruct (String.eqb _ _); [by split|]. destruct (String.eqb _ _); [by split|].
    destruct (jm_jobs m !! jr_JobId req) eqn:Hl; [by split|]. simpl. apply decide_active_inv; simpl; auto.
    + intros Hon. rw map_size_insert_None // . intros Hz. assert (base.size (jm_jobs m) = 0) as H0 by lia.
      apply map_size_empty_inv in H0. split; [by apply Hp|]. split; [|done].
      intros Hi. by apply insert_non_empty in Hi.
    + intros Hon. rw map_size_insert_None //. intros Hz. split; intros Hx; [by apply insert_non_empty in Hx|].
      apply Hp in Hx; [|done]. by rw Hx map_size_empty in Hz.
  - destruct (jm_jobs m !! id) as [e|] eqn:Hl; [|done]. injection Hs as <-. unfold job_end.
    assert (Hne : jm_jobs m ≠ ∅) by (intros Hem; by rw Hem in Hl).
    assert (Hev : jm_onActive m = true → Nat.even (length (jm_log m)) = false).
    { intros Hon. apply not_true_iff_false. intros Ht. by apply Hp in Ht. }
    apply decide_active_inv; simpl; auto.
    + intros Hon Hz. split; [auto|]. split; [done|]. intros _. by apply map_size_empty_inv in Hz.
    + intros Hon Hz. rw Hev //. split; [|done]. intros Hem. by rw Hem map_size_empty in Hz.
  - injection Hs as <-. unfold Cancel. destruct (jm_jobs m !! id) as [e|] eqn:Hl; [|by split]. split; simpl; auto.
    intros Hon. rw -Hp //. split; intros Hem; [by apply insert_non_empty in Hem|by rw Hem in Hl].
  - injection Hs as <-. split; simpl; auto. intros Hon. rw -Hp //. by rw fmap_empty_iff.
  - destruct (jm_pending m !! i) as [b|] eqn:Hi; [|done]. simpl in Hs. injection Hs as <-. split; simpl; auto.
    rw -Hc -app_assoc /=. by rw delete_perm.
Qed.
Lemma active_init on : active_inv (NewWdaJobManager on).
Proof. by split. Qed.

(** C10: under every interleaving, the transitions
    the engine announces are decided as running, idle, running, ...; the last
    one decided says whether a job is registered; and every decided
    transition is either called or still pending, none twice. *)
Theorem active_transitions_alternate on ls m :
  jrun (NewWdaJobManager on) ls m → active_inv m.
Proof.
  intros Hr. eapply (trace_run_invariant _ active_inv); [|apply active_init|exact Hr].
  intros ? ? ?. apply jstep_inv.
Qed.

Lemma start_first log pend calls req :
  jr_JobId req ≠ "" → jr_Udid req ≠ "" →
  jstep (mkJobManager ∅ true log pend calls) (JStart req) =
  Some (mkJobManager {[ jr_JobId req := mkEntry (jr_Udid req) false ]} true (log ++ [true]) (pend ++ [true]) calls).
Proof.
  intros H1 H2. apply String.eqb_neq in H1, H2. simpl. unfold Start, decide_active. rw H1 H2. simpl.
  rw lookup_empty insert_empty. simpl. by rw map_size_singleton.
Qed.
Lemma end_last id e log pend calls :
  jstep (mkJobManager {[ id := e ]} true log pend calls) (JEnd id) =
  Some (mkJobManager ∅ true (log ++ [false]) (pend ++ [false]) calls).
Proof.
  simpl. rw lookup_singleton_eq. unfold job_end, decide_active. simpl.
  by rw delete_singleton_eq map_size_empty.
Qed.

(** The callbacks run after the lock is released,
    so they can arrive out of order: there is a run after which a job is
    running and the tunnel agent was last told that none is. *)
Theorem active_callbacks_reorder req1 req2 :
  jr_JobId req1 ≠ "" → jr_Udid req1 ≠ "" → jr_JobId req2 ≠ "" → jr_Udid req2 ≠ "" →
  ∃ ls m, jrun (NewWdaJobManager true) ls m ∧ jm_calls m = [true; true; false] ∧ jm_pending m = [] ∧
          is_Some (jm_jobs m !! jr_JobId req2).
Proof.
  intros H1 H2 H3 H4.
  exists [JStart req1; JCall 0; JEnd (jr_JobId req1); JStart req2; JCall 1; JCall 0].
  eexists. split.
  { eapply run_cons; [by apply start_first|]. eapply run_cons; [reflexivity|].
    eapply run_cons; [by apply end_last|]. eapply run_cons; [by apply start_first|].
    eapply run_cons; [reflexivity|]. eapply run_cons; [reflexivity|]. apply run_nil. }
  simpl. split; [done|]. split; [done|]. by rw lookup_singleton_eq.
Qed.

(** ** The theorems at concrete inputs *)
Module JobWitness.
Definition jc : JobConfig := mkJobConfig "/var/state" true true true 0 0.
Definition steps : WdaSteps := mkSteps
  (λ _ _, ([50; 100]%Z, inl "/w/a.ipa")) (λ _, None)
  (λ _ _, ([STAGE_ENSURING_DEVICE], inl (mkAssets "/w/identity.p12" "/w/profile.mobileprovision" "" "cert" "2030-01-01T00:00:00Z" false)))
  (λ _ _ _ _, inl "/w/signed.ipa") (λ _ _, None) (λ _ _ _, ([STAGE_STARTING_RUNNER], inl 8100%Z)) (λ _ _, inl false).
Definition env : job_env :=
  mkEnv steps (λ _, false) false (λ n, TTick (bool_decide (n = 2)) (Z.of_nat (S n) * (5 * 10 ^ 9))) None.
Definition j : wdaJob := mkJob "job-1" "U1".
Definition req : NodeIosWdaJobRequest :=
  mkJobReq "job-1" "U1" WDA_JOB_PREPARE (Some (mkArtifact "https://x/a.ipa" "ab" "1" "com.x" "x.xctest")) None true 3.
Lemma law : ticker_law jc env.
Proof. intros n p now [= _ <-]. reflexivity. Defined.
Definition done_state : jstate := default (mkJstate 0 []) (runJob jc env j req).
Lemma ran : runJob jc env j req = Some done_state.
Proof. vm_compute. reflexivity. Defined.

Lemma job_sends_one_result_witness : ∃ st r, runJob jc env j req = Some st ∧ job_frames "job-1" st r.
Proof. destruct (job_sends_one_result jc env j req law) as (st & r & H1 & H2 & _). by exists st, r. Defined.

Lemma job_ok_means_installed_and_launched_witness : ∃ art, jr_Artifact req = Some art.
Proof.
  destruct (omap result_of (js_out done_state)) as [|r []] eqn:E; [vm_compute in E; discriminate| |vm_compute in E; discriminate].
  destruct (job_ok_means_installed_and_launched jc env j req done_state r ran E) as (art & H & _); [|by exists art].
  vm_compute in E. by injection E as <-.
Defined.

Lemma dotdot_job_removes_state_dir_witness :
  ∃ st, runJob jc env (mkJob ".." "U1") req = Some st ∧ JRemoveAll "/var/state" ∈ js_out st.
Proof. apply (dotdot_job_removes_state_dir jc env "U1" req law); done. Defined.

Definition twice : list jlabel := [JStart req; JStart req; JEnd "job-1"].
Definition idle : WdaJobManager := mkJobManager ∅ true [true; false] [true; false] [].
Lemma active_transitions_alternate_witness : active_inv idle.
Proof.
  apply (active_transitions_alternate true twice idle).
  repeat (eapply run_cons; [vm_compute; reflexivity|]). apply run_nil.
Defined.
Lemma active_callbacks_reorder_witness :
  ∃ ls m, jrun (NewWdaJobManager true) ls m ∧ jm_calls m = [true; true; false] ∧ jm_pending m = [] ∧
          is_Some (jm_jobs m !! "job-1").
Proof. apply (active_callbacks_reorder req req); done. Defined.
End JobWitness.
