(* ===== verification/IosFrames.v ===== *)
(** * IosFrames: iOS management frames and the job-to-device bridge
    (common/ioshost/frames.go, and the wiring of execution/handler.go and
    ios/main.go)

    [HandleIosFrame] is the dispatch of FrameHandler over the device manager
    and the job table; a branch that runs in a goroutine is modelled with the
    goroutine run to its end.  [wire] is the pair of callbacks the binaries
    install between the job engine and the manager. *)
From S2P Require Import Prelude GoStrings GoPath DevicesConfig DeviceManager DeviceManagerProofs WdaJob.

Inductive ios_payload :=
| IosDiscover (requestID : string)
| IosClaimDevice (req : NodeIosClaimDevice)
| IosReleaseDevice (req : NodeIosReleaseDevice)
| IosConfigureDevice (req : NodeIosConfigureDevice)
| IosWdaJob (req : NodeIosWdaJobRequest)
| IosJobCancel (jobID : string)
| IosRunnerControl (req : NodeIosRunnerControl)
| OtherPayload.

Inductive reply :=
| SendAck (frameID : string) (err : option string)
| SendConfigAck (frameID : string) (err : option string) (desired applied : Z)
| EmitReport (rep : report)
| LaunchJob (req : NodeIosWdaJobRequest).      (** the goroutine of jobs.Start *)

Definition error_of {A} (r : result A) : option string :=
  match r with Ok _ => None | Err e => Some e end.
Definition errNoManager : string := "iOS device management is not enabled on this host".
(** uint64 of an int64 *)
Definition uint64_of (z : Z) : Z := (z mod 2 ^ 64)%Z.

Record FrameHandler := mkHandler { fh_manager : option DeviceManager; fh_jobs : option WdaJobManager }.
(** What the outside answers while the frame is served. *)
Record frame_env := mkFrameEnv {
  fe_pair : string → string → string → result string;
  fe_lookup : EnumeratedDevice → option DeviceInfo;
  fe_list : result (list EnumeratedDevice);
  fe_now : Z }.

Section frames.
Context `{!MapRange managedDevice} (mc : ManagerConfig) (cal : calendar) (fe : frame_env).

Definition HandleIosFrame (h : FrameHandler) (frameID : string) (payload : ios_payload)
  : FrameHandler * list reply * bool :=
  let refuse := (h, [SendAck frameID (Some errNoManager)], true) in
  match payload with
  | IosDiscover requestID =>
      match fh_manager h with
      | None => refuse
      | Some m =>
          let m := Rescan mc cal m (fe_lookup fe) (fe_list fe) (fe_now fe) in
          (mkHandler (Some m) (fh_jobs h), [SendAck frameID None; EmitReport (Snapshot m requestID)], true)
      end
  | IosClaimDevice req =>
      match fh_manager h with
      | None => refuse
      | Some m => let '(m, r) := Claim mc (fe_pair fe) m req in
                  (mkHandler (Some m) (fh_jobs h), [SendAck frameID (error_of r)], true)
      end
  | IosReleaseDevice req =>
      match fh_manager h with
      | None => refuse
      | Some m => let '(m, r) := Release mc m req in
                  (mkHandler (Some m) (fh_jobs h), [SendAck frameID (error_of r)], true)
      end
  | IosConfigureDevice req =>
      match fh_manager h with
      | None => refuse
      | Some m => let '(m, r) := ConfigureDevice mc m req in
                  let applied := uint64_of match r with Ok a => a | Err _ => 0%Z end in
                  (mkHandler (Some m) (fh_jobs h), [SendConfigAck frameID (error_of r) applied applied], true)
      end
  | IosWdaJob req =>
      match fh_manager h, fh_jobs h with
      | Some m, Some jobs =>
          let m := if IsPresent m (jr_Udid req) then NoteWdaJobStarted mc m (jr_Udid req) else m in
          let '(jobs, r) := Start jobs req in
          (mkHandler (Some m) (Some jobs),
           match r with Ok true => [LaunchJob req] | _ => [] end ++ [SendAck frameID (error_of r)], true)
      | _, _ => refuse
      end
  | IosJobCancel jobID =>
      match fh_jobs h with
      | None => refuse
      | Some jobs => let '(jobs, r) := Cancel jobs jobID in
                     (mkHandler (fh_manager h) (Some jobs), [SendAck frameID (error_of r)], true)
      end
  | IosRunnerControl req =>
      match fh_manager h with
      | None => refuse
      | Some m => let '(m, r) := ControlRunner mc m req in
                  (mkHandler (Some m) (fh_jobs h), [SendAck frameID (error_of r)], true)
      end
  | OtherPayload => (h, [], false)
  end.

(** jobs.OnProgress = manager.NoteWdaJobProgress; jobs.OnTerminal = NoteWdaJobResult *)
Definition wire (m : DeviceManager) (e : job_effect) : DeviceManager :=
  match e with
  | JProgress udid pct stage => NoteWdaJobProgress mc m udid pct stage
  | JTerminal udid ok ca ins code msg exp => NoteWdaJobResult mc m udid ok ca ins code msg exp
  | _ => m
  end.
Definition wire_all (m : DeviceManager) (l : list job_effect) : DeviceManager := foldl wire m l.

(** ** Frames *)
Definition acks (frameID : string) (r : reply) : bool :=
  match r with
  | SendAck id _ | SendConfigAck id _ _ _ => String.eqb id frameID
  | _ => false
  end.


(** ** The bridge *)
Lemma devices_note m u fn d :
  keyed (dm_devices m) → TrimSpace u = u → u ≠ "" → dm_devices m !! u = Some d →
  dm_devices (noteWdaState mc m u fn) = <[u := fn d]> (dm_devices m).
Proof.
  intros Hk Ht Hne Hd. unfold noteWdaState. pose proof (Hk _ _ Hd) as Hu.
  rw findLocked_udid ?Ht // Hd. apply String.eqb_neq in Hne. rw Hne Hu.
  destruct (String.eqb (wdaStateKey _) _); by autorewrite with devs.
Qed.

(** What progress reports may change: percentage and stage, and those only
    while the device is PREPARING. *)
Definition progress_rel (d d' : managedDevice) : Prop :=
  d' = d <| md_wdaProgress := md_wdaProgress d' |> <| md_wdaStage := md_wdaStage d' |> ∧
  (md_wdaState d ≠ IOS_WDA_STATE_PREPARING → d' = d).
Lemma progress_refl d : progress_rel d d.
Proof. split; [by destruct d|done]. Qed.
Lemma progress_trans d1 d2 d3 : progress_rel d1 d2 → progress_rel d2 d3 → progress_rel d1 d3.
Proof.
  intros [H1 H1'] [H2 H2']. split; [rw H2 H1; by destruct d1|].
  intros Hn. specialize (H1' Hn). subst d2. auto.
Qed.
Lemma progressed_rel pct st d : progress_rel d (progressed pct st d).
Proof.
  unfold progressed. case_bool_decide as Hd; simpl; [|apply progress_refl].
  split; [by destruct d|]. done.
Qed.
Definition progress_devs := dev_rel progress_rel (λ _ _, False).
Lemma progress_devs_trans devs1 devs2 devs3 :
  progress_devs devs1 devs2 → progress_devs devs2 devs3 → progress_devs devs1 devs3.
Proof.
  intros H1 H2 u. specialize (H1 u). specialize (H2 u).
  destruct (devs1 !! u), (devs2 !! u), (devs3 !! u); try done. by eapply progress_trans.
Qed.
Lemma progress_devs_keyed devs devs' : keyed devs → progress_devs devs devs' → keyed devs'.
Proof.
  intros Hk Hr u d' Hd'. specialize (Hr u). rw Hd' in Hr. destruct (devs !! u) as [d|] eqn:Hd; [|done].
  destruct Hr as [-> _]. simpl. eauto.
Qed.
Lemma note_progress m u pct st :
  keyed (dm_devices m) → progress_devs (dm_devices m) (dm_devices (NoteWdaJobProgress mc m u pct st)).
Proof.
  intros Hk. unfold NoteWdaJobProgress, noteWdaState.
  destruct (String.eqb _ _); [apply dev_rel_refl, progress_refl|].
  destruct (findLocked m _ _) as [d|] eqn:Hf; [|apply dev_rel_refl, progress_refl].
  apply findLocked_some in Hf; [|done].
  assert (progress_devs (dm_devices m) (<[md_udid d := progressed (clampPercent pct) st d]> (dm_devices m))).
  { eapply dev_rel_insert; [apply progress_refl|done|apply progressed_rel]. }
  destruct (String.eqb (wdaStateKey _) _); by autorewrite with devs.
Qed.
Lemma wire_narration id l m :
  keyed (dm_devices m) → Forall (narrates id) l →
  progress_devs (dm_devices m) (dm_devices (wire_all m l)).
Proof.
  intros Hk Hl. revert m Hk. induction Hl as [|e l He Hl IH]; intros m Hk; [apply dev_rel_refl, progress_refl|].
  simpl. destruct e; try done; simpl; [by apply IH|].
  pose proof (note_progress m udid percent stage Hk) as Hp.
  eapply progress_devs_trans; [done|]. apply IH. by eapply progress_devs_keyed.
Qed.
Lemma wire_narration_device id l m u d :
  keyed (dm_devices m) → Forall (narrates id) l → dm_devices m !! u = Some d →
  ∃ d', dm_devices (wire_all m l) !! u = Some d' ∧ progress_rel d d' ∧ keyed (dm_devices (wire_all m l)).
Proof.
  intros Hk Hl Hd. pose proof (wire_narration id l m Hk Hl) as Hr. pose proof (Hr u) as Hu. rw Hd in Hu.
  destruct (dm_devices (wire_all m l) !! u) as [d'|]; [|done]. exists d'.
  split; [done|]. split; [done|]. by eapply progress_devs_keyed.
Qed.

(** A job for a phone that is offline when
    its frame arrives never shows on the device: the frame does not mark it
    PREPARING, and nothing the job reports afterwards (the wait stage and the
    whole pipeline after the phone came back included) changes any device
    that is not PREPARING. *)
Theorem parked_job_never_shows_preparing m jobs req frameID u d jc env j st st' dir out :
  keyed (dm_devices m) → TrimSpace u = u → u ≠ "" → jr_Udid req = u → dm_devices m !! u = Some d →
  md_present d = false → md_lanOn d = false → md_wdaState d ≠ IOS_WDA_STATE_PREPARING →
  js_out st = [] → execute jc env j st req dir = Some (st', out) →
  let '(h', _, _) := HandleIosFrame (mkHandler (Some m) (Some jobs)) frameID (IosWdaJob req) in
  fh_manager h' = Some m ∧ dm_devices (wire_all m (js_out st')) !! u = Some d.
Proof.
  intros Hk Ht Hne Hu Hd Hp Hlan Hst Hnil Hx. simpl. unfold IsPresent. apply String.eqb_neq in Hne.
  rw Hu Ht Hne Hd Hp Hlan. simpl. destruct (Start jobs req) as [jobs' r]. split; [done|].
  apply narrated_execute in Hx. destruct (wire_narration_device (j_id j) (js_out st') m u d Hk) as (d' & Hd' & [_ Hsame] & _);
    [by eapply narrated_from|done|]. rw Hd'. f_equal. by apply Hsame.
Qed.

Lemma frame_marks_preparing m jobs req frameID u d :
  keyed (dm_devices m) → TrimSpace u = u → u ≠ "" → jr_Udid req = u → dm_devices m !! u = Some d →
  (md_present d || md_lanOn d) = true →
  ∃ m' jobs' r, (HandleIosFrame (mkHandler (Some m) (Some jobs)) frameID (IosWdaJob req)).1.1
       = mkHandler (Some m') (Some jobs') ∧ Start jobs req = (jobs', r) ∧ keyed (dm_devices m') ∧
    ∃ d', dm_devices m' !! u = Some d' ∧ md_wdaState d' = IOS_WDA_STATE_PREPARING ∧
          md_deviceControlOn d' = md_deviceControlOn d ∧ md_udid d' = md_udid d.
Proof.
  intros Hk Ht Hne Hu Hd Hp. simpl. unfold IsPresent. pose proof (Hk _ _ Hd) as Hud.
  assert (Hne' : String.eqb u "" = false) by (by apply String.eqb_neq). rw Hu Ht Hne' Hd Hp.
  destruct (Start jobs req) as [jobs' r]. eexists _, _, _. split; [done|]. split; [done|].
  unfold NoteWdaJobStarted. rw (devices_note _ _ _ d) //. split.
  - intros w x. rw lookup_insert_Some. intros [[<- <-]|[? ?]]; eauto.
  - rw lookup_insert_eq. by eexists.
Qed.

(** The device is marked PREPARING before the
    job is registered, so a job frame the engine refuses (no job id) is
    acknowledged with an error, registers no job, and leaves the phone
    PREPARING. *)
Theorem rejected_job_leaves_preparing m jobs req frameID u d :
  keyed (dm_devices m) → TrimSpace u = u → u ≠ "" → jr_Udid req = u → dm_devices m !! u = Some d →
  (md_present d || md_lanOn d) = true → jr_JobId req = "" →
  let '(h', replies, _) := HandleIosFrame (mkHandler (Some m) (Some jobs)) frameID (IosWdaJob req) in
  replies = [SendAck frameID (Some "wda job: job_id is required")] ∧ fh_jobs h' = Some jobs ∧
  ∃ m' d', fh_manager h' = Some m' ∧ dm_devices m' !! u = Some d' ∧ md_wdaState d' = IOS_WDA_STATE_PREPARING.
Proof.
  intros Hk Ht Hne Hu Hd Hp Hid.
  destruct (frame_marks_preparing m jobs req frameID u d) as (m' & jobs' & r & Hh & Hs & _ & d' & Hd' & Hw & _); [done..|].
  unfold Start in Hs. rw Hid /= in Hs. injection Hs as <- <-.
  unfold HandleIosFrame, Start in *. rw Hid /= in Hh |- *. injection Hh as Hm. split; [done|]. split; [done|].
  rw Hm. eauto.
Qed.

(** A job cancelled before anything was
    installed takes a device that was READY with its control link up to
    MISSING: starting the job overwrote the state the cancellation is meant
    to keep. *)
Theorem cancelled_renew_discards_ready m jobs req frameID u d id l code msg exp :
  keyed (dm_devices m) → TrimSpace u = u → u ≠ "" → jr_Udid req = u → dm_devices m !! u = Some d →
  md_present d = true → md_wdaState d = IOS_WDA_STATE_READY → md_deviceControlOn d = true →
  Forall (narrates id) l →
  ∃ m' d', fh_manager (HandleIosFrame (mkHandler (Some m) (Some jobs)) frameID (IosWdaJob req)).1.1 = Some m' ∧
    dm_devices (wire_all m' (l ++ [JTerminal u false true false code msg exp])) !! u = Some d' ∧
    md_wdaState d' = IOS_WDA_STATE_MISSING ∧ md_deviceControlOn d' = true.
Proof.
  intros Hk Ht Hne Hu Hd Hp Hst Hon Hl.
  destruct (frame_marks_preparing m jobs req frameID u d) as (m' & jobs' & r & Hh & _ & Hk' & d1 & Hd1 & Hw1 & Hon1 & _);
    [done..|by rw Hp|]. exists m'. rw Hh.
  destruct (wire_narration_device id l m' u d1 Hk' Hl Hd1) as (d2 & Hd2 & [Hr _] & Hk2).
  unfold wire_all. rw foldl_app. fold (wire_all m' l). simpl. unfold NoteWdaJobResult.
  rw (devices_note _ _ _ d2) // lookup_insert_eq. eexists. split; [done|]. split; [done|].
  unfold job_result. simpl. rw Hr. simpl. rw Hw1 Hon1 Hon. done.
Qed.

(** When a job ends with the runner
    installed and an error, the device ends READY or INSTALLED according to
    its link, never FAILED; the result frame carries the redacted reason, but
    the device's own last error is cleared. *)
Theorem installed_failure_clears_reason m jc j n req out e u d :
  keyed (dm_devices m) → TrimSpace u = u → u ≠ "" → j_udid j = u → dm_devices m !! u = Some d →
  jc_OnTerminal jc = true → oc_installed out = true → oc_err out = Some e →
  let effs := js_out (finish jc j (mkJstate n []) req out) in
  (∃ r, omap result_of effs = [r] ∧ rs_Ok r = false ∧ rs_ErrorMessage r = redactErr (Some e)) ∧
  ∃ d', dm_devices (wire_all m effs) !! u = Some d' ∧
    md_wdaState d' = (if md_deviceControlOn d then IOS_WDA_STATE_READY else IOS_WDA_STATE_INSTALLED) ∧
    md_lastError d' = "".
Proof.
  intros Hk Ht Hne Hu Hd Hterm Hins Herr. cbv zeta. unfold finish. rw Hterm Hins Herr. simpl. split.
  { destruct (jc_OnProgress jc); simpl; by eexists. }
  rw -app_assoc. unfold wire_all. rw foldl_app. set (pre := if jc_OnProgress jc then _ else _).
  assert (Hpre : Forall (narrates (j_id j)) pre) by (unfold pre; destruct (jc_OnProgress jc); repeat constructor).
  destruct (wire_narration_device (j_id j) pre m u d Hk Hpre Hd) as (d1 & Hd1 & [Hr _] & Hk1).
  fold (wire_all m pre). simpl. unfold NoteWdaJobResult. rw Hu (devices_note _ _ _ d1) // lookup_insert_eq.
  eexists. split; [done|]. unfold job_result. simpl. rw Hr. simpl. done.
Qed.
End frames.

(** ** The theorems at concrete inputs *)
Module FrameWitness.
Import DeviceWitness.
Definition jobs0 : WdaJobManager := NewWdaJobManager true.
Definition fe : frame_env := mkFrameEnv pairOk (λ _, None) (Ok []) 0.
Definition offline : managedDevice := phone <| md_present := false |>.
Definition out0 : jstate * jobOutcome :=
  default (mkJstate 0 [], zeroOutcome) (execute JobWitness.jc JobWitness.env JobWitness.j (mkJstate 0 []) JobWitness.req "/w").

Lemma parked_job_never_shows_preparing_witness :
  dm_devices (wire_all DeviceWitness.cfg (with_phone offline) (js_out out0.1)) !! "U1" = Some offline.
Proof.
  pose proof (parked_job_never_shows_preparing DeviceWitness.cfg noCalendar fe (with_phone offline) jobs0 JobWitness.req "f1" "U1"
    offline JobWitness.jc JobWitness.env JobWitness.j (mkJstate 0 []) out0.1 "/w" out0.2
    (keyed_with offline eq_refl) eq_refl ltac:(done) eq_refl eq_refl eq_refl eq_refl ltac:(done) eq_refl) as H.
  destruct (HandleIosFrame _ _ _ _ _ _) as [[h' rs] b].
  apply H. vm_compute. reflexivity.
Defined.

Lemma rejected_job_leaves_preparing_witness :
  let req := mkJobReq "" "U1" WDA_JOB_RENEW None None false 0 in
  ∃ m' d', fh_manager (HandleIosFrame DeviceWitness.cfg noCalendar fe
             (mkHandler (Some (with_phone phone)) (Some jobs0)) "f1" (IosWdaJob req)).1.1 = Some m' ∧
    dm_devices m' !! "U1" = Some d' ∧ md_wdaState d' = IOS_WDA_STATE_PREPARING.
Proof.
  pose proof (rejected_job_leaves_preparing DeviceWitness.cfg noCalendar fe (with_phone phone) jobs0
    (mkJobReq "" "U1" WDA_JOB_RENEW None None false 0) "f1" "U1" phone
    (keyed_with phone eq_refl) eq_refl ltac:(done) eq_refl eq_refl eq_refl eq_refl) as H. cbv zeta.
  destruct (HandleIosFrame _ _ _ _ _ _) as [[h' rs] b]. apply H.
Defined.

Definition ready : managedDevice := running <| md_wdaState := IOS_WDA_STATE_READY |>.
Lemma cancelled_renew_discards_ready_witness :
  ∃ m' d', fh_manager (HandleIosFrame DeviceWitness.cfg noCalendar fe
             (mkHandler (Some (with_phone ready)) (Some jobs0)) "f1" (IosWdaJob JobWitness.req)).1.1 = Some m' ∧
    dm_devices (wire_all DeviceWitness.cfg m' ([] ++ [JTerminal "U1" false true false "cancelled" "job cancelled" ""])) !! "U1"
      = Some d' ∧ md_wdaState d' = IOS_WDA_STATE_MISSING ∧ md_deviceControlOn d' = true.
Proof.
  apply (cancelled_renew_discards_ready DeviceWitness.cfg noCalendar fe (with_phone ready) jobs0 JobWitness.req "f1" "U1"
    ready "job-1" [] "cancelled" "job cancelled" "" (keyed_with ready eq_refl)); try done; by constructor.
Defined.

Lemma installed_failure_clears_reason_witness :
  let out := zeroOutcome <| oc_installed := true |> <| oc_errCode := "wda_unreachable" |>
               <| oc_err := Some (errors_New "connection refused") |> in
  let effs := js_out (finish JobWitness.jc JobWitness.j (mkJstate 0 []) JobWitness.req out) in
  ∃ d', dm_devices (wire_all DeviceWitness.cfg (with_phone phone) effs) !! "U1" = Some d' ∧ md_lastError d' = "".
Proof.
  cbv zeta. set (out := _ <| oc_err := _ |>).
  destruct (installed_failure_clears_reason DeviceWitness.cfg (with_phone phone) JobWitness.jc JobWitness.j 0 JobWitness.req out
    (errors_New "connection refused") "U1" phone (keyed_with phone eq_refl) eq_refl ltac:(done) eq_refl eq_refl eq_refl
    eq_refl eq_refl) as (_ & d' & H1 & _ & H2).
  by exists d'.
Defined.
End FrameWitness.
