(* ===== verification/Workspace.v ===== *)
(** * Workspace: where a session lives and what deleting it removes
    (execution/session.go create/delete, worktree.go, environments.go)

    The path resolution of [create], the HOME of each environment tier, the
    directories a deletion removes, and the plan [prepareWorktree] follows on
    the answers of git and the file system.  Paths are Unix paths (GoPath). *)
From S2P Require Import Prelude GoStrings GoPath.
From Stdlib Require Import Ascii.

(** ** Names *)
Definition session_char (c : ascii) : bool :=
  is_lower c || is_upper c || is_digit c || is_code 45 c || is_code 95 c.
Fixpoint session_runes (rs : list rune) : string :=
  match rs with
  | [] => ""
  | RAscii c :: rs => String (if session_char c then c else "-"%char) (session_runes rs)
  | _ :: rs => String "-" (session_runes rs)
  end.
Definition sanitizeSessionDir (sessionID : string) : string :=
  let out := TrimChar "-" (session_runes (runes sessionID)) in
  if String.eqb out "" then "session" else out.

(** strings.ContainsAny(s, `/\`) *)
Definition has_separator (s : string) : bool :=
  negb (all_chars (λ c, negb (is_code 47 c) && negb (is_code 92 c)) s).
Definition safeSubdirSegment (name : string) : string :=
  let trimmed := TrimSpace name in
  if String.eqb trimmed "" then "" else
  if has_separator trimmed || String.eqb trimmed "." || String.eqb trimmed ".." || Contains trimmed ".."
  then "" else
  if negb (String.eqb (Base trimmed) trimmed) then "" else trimmed.

(** ** The request *)
Record NodeGitSpec := mkGitSpec {
  git_Url : string; git_Branch : string; git_Commit : string; git_NewBranch : string; git_CreateBranch : bool }.
Record NodeCreateSession := mkCreate {
  cs_SessionId : string; cs_TaskId : string; cs_Provider : string; cs_Tags : gmap string string;
  cs_EnvMode : string; cs_EnvId : string; cs_Git : option NodeGitSpec;
  cs_Driver : string; cs_GuestImage : string; cs_Interactive : bool; cs_DeferStart : bool;
  cs_Model : string; cs_Mode : string;
  cs_ActiveSkills : list string; cs_ActivePlugins : list string }.
(** spec.GetTags()[k]: the zero value for an absent key *)
Definition tag (spec : NodeCreateSession) (k : string) : string := default "" (cs_Tags spec !! k).

Record sessionOptions := mkOptions {
  op_workRoot : string; op_providers : list string; op_docker : bool; op_systemEnvAllowed : bool }.

(** ** worktree.go *)
Definition workspaceModeWorktree : string := "worktree".
Definition workspaceModeExternal : string := "external".
Definition workspaceModeFresh : string := "fresh".
Definition workspaceModeTag : string := "workspace_mode".
Definition envIDTag : string := "env_id".
Definition externalPathTag : string := "external_workdir".

Definition workspaceMode (spec : NodeCreateSession) : string := ToLower (TrimSpace (tag spec workspaceModeTag)).
Definition usesWorktree (spec : NodeCreateSession) : bool :=
  String.eqb (workspaceMode spec) workspaceModeWorktree && negb (String.eqb (TrimSpace (tag spec envIDTag)) "").

(** nativeNodePath off Windows *)
Definition nativeNodePath (path : string) : string := path.
Definition importedCheckoutPath (spec : NodeCreateSession) : string :=
  let path := nativeNodePath (TrimSpace (tag spec externalPathTag)) in
  if String.eqb path "" || negb (IsAbs path) || negb (all_chars (λ c, negb (is_code 0 c)) path) then "" else
  if bool_decide (".." ∈ split_slash path) then "" else Clean path.
Definition externalWorktreePath (spec : NodeCreateSession) : string :=
  let mode := workspaceMode spec in
  if negb (String.eqb mode workspaceModeExternal) && negb (String.eqb mode workspaceModeFresh) then ""
  else importedCheckoutPath spec.

Section paths.
Variable opts : sessionOptions.
Definition envDir (envID : string) : string := Join [op_workRoot opts; "envs"; sanitizeSessionDir envID].
Definition envRepoDir (envID : string) : string := Join [envDir envID; "repo"].
Definition envWorktreeDir (envID taskID : string) : string :=
  Join [envDir envID; "worktrees"; sanitizeSessionDir taskID].

(** ** environments.go: the tiers *)
Definition isSystemEnv (spec : NodeCreateSession) : bool := EqualFold (TrimSpace (cs_EnvMode spec)) "system".
Definition isSharedEnv (spec : NodeCreateSession) : bool := EqualFold (TrimSpace (cs_EnvMode spec)) "shared".
Definition ownsHomeResources (spec : NodeCreateSession) : bool := negb (isSystemEnv spec) && negb (isSharedEnv spec).

(** fmt's %q on a mode; only its position in the error matters here *)
Definition quoted (s : string) : string := String "034" (s +:+ String "034" "").
(** [userHome]: os.UserHomeDir(); [mkdir dir]: os.MkdirAll's error *)
Definition resolveHome (userHome : result string) (mkdir : string → option string)
    (spec : NodeCreateSession) (base : string) : result string :=
  let mode := ToLower (TrimSpace (cs_EnvMode spec)) in
  if String.eqb mode "" || String.eqb mode "isolated" then Ok (Join [base; "home"]) else
  if String.eqb mode "system" then
    if negb (op_systemEnvAllowed opts) then
      Err ("env_mode=" +:+ quoted mode +:+ " is not enabled on this node (auto: host installs allow it, containers refuse it; override with AGENT_COMPOSE_NODE_ALLOW_SYSTEM_ENV=on|off)")
    else match userHome with
         | Err e => Err ("env_mode=" +:+ quoted mode +:+ " requires a resolvable user home: " +:+ e)
         | Ok h => if String.eqb (TrimSpace h) ""
                   then Err ("env_mode=" +:+ quoted mode +:+ " requires a non-empty user home") else Ok h
         end
  else if String.eqb mode "shared" then
    let envID := TrimSpace (cs_EnvId spec) in
    if String.eqb envID "" then Err ("env_mode=" +:+ quoted mode +:+ " requires env_id") else
    let dir := envDir envID in
    match mkdir dir with
    | Some e => Err ("env_mode=" +:+ quoted mode +:+ " prepare " +:+ dir +:+ ": " +:+ e)
    | None => Ok dir
    end
  else Err ("unsupported env_mode " +:+ quoted mode +:+ " (want " +:+ quoted "isolated" +:+ "|"
            +:+ quoted "shared" +:+ "|" +:+ quoted "system" +:+ ")").

(** ** create: the paths of a session *)
Record session_paths := mkPaths {
  sp_workDir : string; sp_runtimeDir : string; sp_workspaceOwned : bool; sp_persistentWorkspace : bool;
  sp_worktreeEnvID : string; sp_worktreeRepoDir : string; sp_envBacked : bool }.
#[export] Instance eta_session_paths : Settable session_paths := λ p,
  mkPaths (sp_workDir p) (sp_runtimeDir p) (sp_workspaceOwned p) (sp_persistentWorkspace p)
    (sp_worktreeEnvID p) (sp_worktreeRepoDir p) (sp_envBacked p).

Definition resolvePaths (spec : NodeCreateSession) : session_paths :=
  let sessionID := TrimSpace (cs_SessionId spec) in
  let taskID := TrimSpace (cs_TaskId spec) in
  let shared := TrimSpace (tag spec "editor_workdir") in
  let '(workDir, owned, persistent) :=
    if negb (String.eqb taskID "") then
      (Join [op_workRoot opts; "tasks"; sanitizeSessionDir taskID], false, true)
    else if negb (String.eqb shared "") then
      (Join [op_workRoot opts; sanitizeSessionDir shared], false, false)
    else (Join [op_workRoot opts; sanitizeSessionDir sessionID], true, false) in
  let worktree := usesWorktree spec in
  let worktreeEnvID := if worktree then TrimSpace (tag spec envIDTag) else "" in
  let '(workDir, owned, persistent) :=
    if worktree then (envWorktreeDir worktreeEnvID taskID, false, true) else (workDir, owned, persistent) in
  let worktreeRepoDir :=
    if worktree then
      let imported := importedCheckoutPath spec in
      if negb (String.eqb imported "") then imported else envRepoDir worktreeEnvID
    else "" in
  let external := externalWorktreePath spec in
  let isExternal := negb (String.eqb external "") in
  let '(workDir, owned, persistent) :=
    if isExternal then (external, false, true) else (workDir, owned, persistent) in
  let envBacked := worktree || isExternal in
  let envID := if isExternal then TrimSpace (tag spec envIDTag) else worktreeEnvID in
  let runtimeDir :=
    if envBacked then Join [envDir envID; ".agent-compose"; "sessions"; sanitizeSessionDir sessionID]
    else Join [workDir; ".agent-compose"; "sessions"; sanitizeSessionDir sessionID] in
  mkPaths workDir runtimeDir owned persistent worktreeEnvID worktreeRepoDir envBacked.

(** The directories [create] makes before the session is registered. *)
Definition created_dirs (p : session_paths) (home : string) : list string :=
  let base := sp_runtimeDir p in
  [Join [base; "state"]; home; Join [base; "skills"]; Join [base; "plugins"]]
  ++ (if sp_envBacked p then [] else [sp_workDir p]).

(** delete: every os.RemoveAll, in order, when they all succeed *)
Definition removed_dirs (p : session_paths) (taskID : string) : list string :=
  (if sp_workspaceOwned p && negb (sp_persistentWorkspace p) then sp_workDir p else sp_runtimeDir p)
  :: (if negb (String.eqb (sp_worktreeEnvID p) "") then [envWorktreeDir (sp_worktreeEnvID p) taskID] else []).
(** The repository removeWorktree prunes. *)
Definition pruned_repo (p : session_paths) : string :=
  if String.eqb (TrimSpace (sp_worktreeRepoDir p)) "" then envRepoDir (sp_worktreeEnvID p) else sp_worktreeRepoDir p.

(** ** prepareWorktree *)
(** What it asks of the host: HostWorkspaceInitialized, MkdirAll, and each git
    run by its directory and arguments ([None] = success). *)
Record git_host := mkGitHost {
  gh_initialized : string → result bool;
  gh_mkdir : string → option string;
  gh_git : string → list string → option string }.
(** The result with the git commands that were run, in order. *)
Definition prepareWorktree (host : git_host) (spec : NodeCreateSession) (git : NodeGitSpec)
  : result string * list (string * list string) :=
  let envID := TrimSpace (tag spec envIDTag) in
  let taskID := TrimSpace (cs_TaskId spec) in
  if String.eqb taskID "" then (Err "worktree workspace requires a task id", []) else
  let imported := importedCheckoutPath spec in
  let fromImported := negb (String.eqb imported "") in
  let repoDir := if fromImported then imported else envRepoDir envID in
  let worktreeDir := envWorktreeDir envID taskID in
  match gh_initialized host repoDir with
  | Err e => (Err e, [])
  | Ok false =>
      (Err (if fromImported then "imported checkout " +:+ repoDir +:+ " is not a git working tree"
            else "environment checkout " +:+ repoDir +:+ " is not provisioned (prepare the environment first)"), [])
  | Ok true =>
      match gh_initialized host worktreeDir with
      | Err e => (Err e, [])
      | Ok true => (Ok worktreeDir, [])
      | Ok false =>
          match gh_mkdir host (Dir worktreeDir) with
          | Some e => (Err ("prepare worktree parent: " +:+ e), [])
          | None =>
              let newBranch := TrimSpace (git_NewBranch git) in
              let branch := if String.eqb newBranch "" then "task/" +:+ sanitizeSessionDir taskID else newBranch in
              let base := TrimSpace (git_Branch git) in
              let args := ["worktree"; "add"; "-b"; branch; worktreeDir]
                          ++ (if String.eqb base "" then [] else [base]) in
              let retry := ["worktree"; "add"; worktreeDir; branch] in
              match gh_git host repoDir args with
              | None => (Ok worktreeDir, [(repoDir, args)])
              | Some e =>
                  match gh_git host repoDir retry with
                  | None => (Ok worktreeDir, [(repoDir, args); (repoDir, retry)])
                  | Some _ => (Err ("worktree add: " +:+ e), [(repoDir, args); (repoDir, retry)])
                  end
              end
          end
      end
  end.
End paths.

(** ** Names stay one segment *)
Lemma all_chars_impl (P Q : ascii → bool) s :
  (∀ c, P c = true → Q c = true) → all_chars P s = true → all_chars Q s = true.
Proof.
  intros H. induction s as [|c s IH]; [done|]. simpl. intros Hs. go_bool. by rw H // IH.
Qed.
Lemma all_chars_TrimLeftChar P c s : all_chars P s = true → all_chars P (TrimLeftChar c s) = true.
Proof. induction s as [|a s IH]; [done|]. simpl. case_match; [|done]. intros Hs. go_bool. auto. Qed.
Lemma all_chars_TrimChar P c s : all_chars P s = true → all_chars P (TrimChar c s) = true.
Proof.
  intros H. unfold TrimChar, TrimRightChar. rw all_chars_rev. apply all_chars_TrimLeftChar.
  rw all_chars_rev. by apply all_chars_TrimLeftChar.
Qed.
Lemma session_runes_chars rs : all_chars session_char (session_runes rs) = true.
Proof. induction rs as [|[c|e|c] rs IH]; simpl; [done| |done|done]. destruct (session_char c) eqn:E; rw ?E; done. Qed.
Lemma session_char_no_slash c : session_char c = true → negb (Ascii.eqb c slash) = true.
Proof. intros H. destruct (Ascii.eqb_spec c slash) as [->|]; [vm_compute in H; discriminate|done]. Qed.
Lemma session_chars_safe s : all_chars session_char s = true → s ≠ "" → safe_segment s = true.
Proof.
  intros Hs Hne. unfold safe_segment, no_slash.
  rw (all_chars_impl session_char); [|apply session_char_no_slash|done].
  destruct (String.eqb_spec s ""); [done|]. destruct (String.eqb_spec s ".") as [->|]; [done|].
  by destruct (String.eqb_spec s "..") as [->|].
Qed.
Lemma sanitizeSessionDir_safe s : safe_segment (sanitizeSessionDir s) = true.
Proof.
  unfold sanitizeSessionDir. cbv zeta. destruct (String.eqb_spec (TrimChar "-" (session_runes (runes s))) "") as [|Hne]; [done|].
  apply session_chars_safe; [|done]. apply all_chars_TrimChar, session_runes_chars.
Qed.
#[export] Hint Resolve sanitizeSessionDir_safe : core.

#[local] Arguments Join : simpl never.

(** ** Every directory a session uses or removes is inside the work root *)
Section containment.
Context (opts : sessionOptions) (Hroot : op_workRoot opts ≠ "").
Local Abbreviation root := (op_workRoot opts).

Ltac segments := repeat constructor; auto.
Lemma envDir_within e : within root (envDir opts e).
Proof. apply Join_within; [done|done|segments]. Qed.
Lemma envRepoDir_within e : within root (envRepoDir opts e).
Proof. apply within_join; [apply envDir_within|done|segments]. Qed.
Lemma envWorktreeDir_within e t : within root (envWorktreeDir opts e t).
Proof. apply within_join; [apply envDir_within|done|segments]. Qed.
Lemma default_workDir_within (spec : NodeCreateSession) (task shared sid : string) :
  within root (Join [root; "tasks"; sanitizeSessionDir task]) ∧
  within root (Join [root; sanitizeSessionDir shared]) ∧ within root (Join [root; sanitizeSessionDir sid]).
Proof. split_and!; apply Join_within; try done; segments. Qed.
Lemma session_dir_within p s :
  within root p → within root (Join [p; ".agent-compose"; "sessions"; sanitizeSessionDir s]).
Proof. intros H. apply within_join; [done|done|segments]. Qed.

Lemma resolvePaths_within spec :
  let p := resolvePaths opts spec in
  within root (sp_runtimeDir p) ∧ (externalWorktreePath spec = "" → within root (sp_workDir p)) ∧
  (sp_workspaceOwned p = true → externalWorktreePath spec = "").
Proof.
  destruct (default_workDir_within spec (TrimSpace (cs_TaskId spec)) (TrimSpace (tag spec "editor_workdir"))
              (TrimSpace (cs_SessionId spec))) as (H1 & H2 & H3).
  unfold resolvePaths. cbv zeta.
  destruct (String.eqb (TrimSpace (cs_TaskId spec)) ""), (String.eqb (TrimSpace (tag spec "editor_workdir")) ""),
    (usesWorktree spec), (String.eqb_spec (externalWorktreePath spec) "") as [->|Hx];
    simpl; split_and!; auto using session_dir_within, envDir_within, envWorktreeDir_within; intros; congruence.
Qed.
End containment.

(** C12: the runtime directory of a session, its working
    tree unless it is an adopted checkout, and everything a deletion removes
    are strictly inside the node's work root, whatever ids, task names and
    tags the request carries; so an adopted checkout outside the work root is
    neither created nor removed. *)
Theorem session_dirs_inside_root opts spec :
  op_workRoot opts ≠ "" →
  let p := resolvePaths opts spec in
  within (op_workRoot opts) (sp_runtimeDir p) ∧
  (sp_workDir p = externalWorktreePath spec ∨ within (op_workRoot opts) (sp_workDir p)) ∧
  Forall (within (op_workRoot opts)) (removed_dirs opts p (TrimSpace (cs_TaskId spec))) ∧
  (externalWorktreePath spec ≠ "" → sp_envBacked p = true ∧ sp_workspaceOwned p = false).
Proof.
  intros Hroot. cbv zeta. destruct (resolvePaths_within opts Hroot spec) as (H1 & H2 & H3).
  split; [done|]. split.
  { destruct (String.eqb_spec (externalWorktreePath spec) "") as [Hx|Hx]; [right; auto|left].
    unfold resolvePaths. cbv zeta. apply String.eqb_neq in Hx. by rw Hx; repeat case_match; simplify_eq/=. }
  split.
  - unfold removed_dirs. constructor.
    + destruct (sp_workspaceOwned _) eqn:E; simpl; [|done]. destruct (negb _); auto.
    + case_match; constructor; [by apply envWorktreeDir_within|constructor].
  - intros Hx. unfold resolvePaths. cbv zeta. apply String.eqb_neq in Hx.
    rw Hx; repeat case_match; simplify_eq/=; by rw ?orb_true_r.
Qed.

(** ** The HOME tiers *)
(** Lower-case letters whose only lower-casing preimages are ASCII. *)
Definition plain (c : ascii) : bool := is_lower c && negb (is_code 105 c) && negb (is_code 107 c).
Lemma lower1_plain a :
  plain (lower1 a) = true → is_code 0xC5 a = false ∧ is_code 0xE2 a = false ∧ is_code 0xC4 a = false.
Proof. destruct a as [[] [] [] [] [] [] [] []]; vm_compute; done. Qed.
Lemma ToLower_fold n s : String.length s ≤ n → all_chars plain (ToLower s) = true → fold_case s = ToLower s.
Proof.
  revert s. induction n as [|n IH]; intros s Hn Hp; [destruct s; simpl in Hn; [done|lia]|].
  destruct s as [|a [|b s]]; [done|done|].
  cbn [ToLower fold_case] in *. destruct (is_code 0xC4 a && is_code 0xB0 b) eqn:E1.
  { by simpl in Hp. }
  assert (Hrest : all_chars plain (ToLower (String b s)) = true → fold_case (String b s) = ToLower (String b s)).
  { intros H. apply IH; [simpl in *; lia|done]. }
  destruct s as [|c s].
  - simpl in Hp. go_bool. destruct (lower1_plain a) as (Ha & _); [done|]. by rw Ha.
  - destruct (is_code 0xE2 a && is_code 0x84 b && is_code 0xAA c) eqn:E2; [by simpl in Hp|].
    cbn [all_chars] in Hp. go_bool. destruct (lower1_plain a) as (Ha & _); [done|]. rw Ha. cbn [andb].
    f_equal. by apply Hrest.
Qed.
Lemma lower_equalfold s lit : ToLower s = lit → all_chars plain lit = true → fold_case lit = lit → EqualFold s lit = true.
Proof.
  intros H Hp Hf. unfold EqualFold. rw (ToLower_fold (String.length s)); [|done|by rw H]. rw H Hf. by rw String.eqb_refl.
Qed.

(** A session that may write the skill and plugin
    trees of its HOME runs in a throwaway HOME inside its own runtime
    directory; the operator's HOME is handed out only in the system tier of
    a node that allows it, and a shared HOME is the environment's directory. *)
Theorem home_writes_only_own_home opts userHome mkdir spec base home :
  resolveHome opts userHome mkdir spec base = Ok home →
  (ownsHomeResources spec = true → home = Join [base; "home"]) ∧
  (home = Join [base; "home"] ∨ (isSystemEnv spec = true ∧ op_systemEnvAllowed opts = true ∧ userHome = Ok home) ∨
   (isSharedEnv spec = true ∧ TrimSpace (cs_EnvId spec) ≠ "" ∧ home = envDir opts (TrimSpace (cs_EnvId spec)))).
Proof.
  unfold resolveHome. cbv zeta. intros H. set (mode := ToLower (TrimSpace (cs_EnvMode spec))) in *.
  destruct (String.eqb mode "" || String.eqb mode "isolated"); [injection H as <-; auto|].
  destruct (String.eqb_spec mode "system") as [Es|_].
  { assert (Hs : isSystemEnv spec = true) by (by apply lower_equalfold).
    unfold ownsHomeResources. rw Hs. destruct (op_systemEnvAllowed opts); [|done]. simpl in H.
    destruct userHome as [h|]; [|done]. destruct (String.eqb (TrimSpace h) ""); [done|]. injection H as <-.
    split; [done|]. auto. }
  destruct (String.eqb_spec mode "shared") as [Es|_]; [|done].
  assert (Hs : isSharedEnv spec = true) by (by apply lower_equalfold).
  unfold ownsHomeResources. rw Hs andb_false_r.
  destruct (String.eqb_spec (TrimSpace (cs_EnvId spec)) ""); [done|].
  destruct (mkdir _); [done|]. injection H as <-. split; [done|]. auto.
Qed.

Lemma worktree_paths opts spec :
  usesWorktree spec = true → externalWorktreePath spec = "" →
  let p := resolvePaths opts spec in
  sp_workDir p = envWorktreeDir opts (TrimSpace (tag spec envIDTag)) (TrimSpace (cs_TaskId spec)) ∧
  sp_worktreeEnvID p = TrimSpace (tag spec envIDTag) ∧ sp_persistentWorkspace p = true.
Proof. intros Hw Hx. unfold resolvePaths. cbv zeta. rw Hw Hx. by repeat case_match; simplify_eq/=. Qed.

(** Preparing a worktree runs nothing but
    "git worktree add" in the shared checkout, at most twice; when it
    succeeds the working tree is the directory [create] resolved for the
    session; and an existing worktree is reused without running git. *)
Theorem worktree_is_cut_not_cloned opts host spec git :
  let '(r, cmds) := prepareWorktree opts host spec git in
  length cmds ≤ 2 ∧
  Forall (λ c, (c.1 = importedCheckoutPath spec ∨ c.1 = envRepoDir opts (TrimSpace (tag spec envIDTag))) ∧
               take 2 c.2 = ["worktree"; "add"]) cmds ∧
  (∀ path, r = Ok path → usesWorktree spec = true → externalWorktreePath spec = "" →
     path = sp_workDir (resolvePaths opts spec)) ∧
  (gh_initialized host (envWorktreeDir opts (TrimSpace (tag spec envIDTag)) (TrimSpace (cs_TaskId spec))) = Ok true →
   cmds = []).
Proof.
  assert (Hwd : usesWorktree spec = true → externalWorktreePath spec = "" →
    sp_workDir (resolvePaths opts spec) = envWorktreeDir opts (TrimSpace (tag spec envIDTag)) (TrimSpace (cs_TaskId spec))).
  { intros Hw Hx. by destruct (worktree_paths opts spec Hw Hx). }
  unfold prepareWorktree. cbv zeta.
  destruct (String.eqb (TrimSpace (cs_TaskId spec)) ""); [by split_and!; simpl; try lia; try constructor|].
  set (repo := if negb (String.eqb (importedCheckoutPath spec) "") then _ else _).
  assert (Hrepo : repo = importedCheckoutPath spec ∨ repo = envRepoDir opts (TrimSpace (tag spec envIDTag)))
    by (unfold repo; destruct (negb _); auto).
  destruct (gh_initialized host repo) as [[]|e]; [|by split_and!; simpl; try lia; try constructor..].
  destruct (gh_initialized host (envWorktreeDir _ _ _)) as [[]|e] eqn:Ew; [| |by split_and!; simpl; try lia; try constructor].
  { split_and!; simpl; [lia|constructor| |done]. intros path [= <-] Hu Hx. by rw Hwd. }
  destruct (gh_mkdir host _); [by split_and!; simpl; try lia; try constructor|].
  destruct (gh_git host repo _); [destruct (gh_git host repo _)|];
    (split_and!; [simpl; lia|repeat (apply Forall_cons_2; [by split|]); by apply Forall_nil_2| |]); try done;
    intros path [= <-] Hu Hx; by rw Hwd.
Qed.

(** An associated repository's subdirectory, when it is
    accepted, is one ordinary path segment, so it lands inside the
    workspace. *)
Theorem subdir_stays_inside workDir name :
  workDir ≠ "" → safeSubdirSegment name ≠ "" →
  safe_segment (safeSubdirSegment name) = true ∧ within workDir (Join [workDir; safeSubdirSegment name]).
Proof.
  intros Hw Hne. assert (Hs : safe_segment (safeSubdirSegment name) = true).
  { unfold safeSubdirSegment in *. cbv zeta in *. set (t := TrimSpace name) in *.
    destruct (String.eqb t "") eqn:E0; [done|]. destruct (_ || _ || _ || _) eqn:E1; [done|].
    destruct (negb (String.eqb (Base t) t)); [done|]. go_bool. unfold has_separator in H.
    go_bool. unfold safe_segment, no_slash. rw (all_chars_impl _ _ _ _ H).
    - apply String.eqb_neq in E0, H1, H2. by rw E0 H1 H2.
    - intros c Hc. go_bool. by destruct (Ascii.eqb_spec c slash) as [->|]. }
  split; [done|]. apply Join_within; [done|done|by repeat constructor].
Qed.

(** Deleting a worktree-backed session removes its working tree, uncommitted
    changes included, although the session counts as persistent. *)
Lemma worktree_delete_discards_tree opts spec :
  usesWorktree spec = true → externalWorktreePath spec = "" →
  let p := resolvePaths opts spec in
  sp_persistentWorkspace p = true ∧ sp_workDir p ∈ removed_dirs opts p (TrimSpace (cs_TaskId spec)).
Proof.
  intros Hw Hx. cbv zeta. destruct (worktree_paths opts spec Hw Hx) as (H1 & H2 & H3). split; [done|].
  unfold removed_dirs. rw H1 H2. unfold usesWorktree in Hw. go_bool.
  assert (String.eqb (TrimSpace (tag spec envIDTag)) "" = false) as -> by (by apply String.eqb_neq).
  simpl. rw elem_of_cons. right. by left.
Qed.
(** Different session ids can resolve to one working directory. *)
Example session_dirs_collide : sanitizeSessionDir "team.a" = sanitizeSessionDir "team/a".
Proof. reflexivity. Qed.

(** ** The theorems at concrete inputs *)
Module WorkspaceWitness.
Definition opts : sessionOptions := mkOptions "/var/node" ["claude"] false true.
Definition spec : NodeCreateSession :=
  mkCreate "s/1" "task 7" "claude" {[ "workspace_mode" := "worktree"; "env_id" := "e1" ]} "shared" "e1" None
    "" "" true false "" "" [] [].
Lemma session_dirs_inside_root_witness : within "/var/node" (sp_runtimeDir (resolvePaths opts spec)).
Proof. apply (session_dirs_inside_root opts spec). done. Defined.
Lemma home_writes_only_own_home_witness :
  envDir opts "e1" = Join ["/b"; "home"] ∨ (isSystemEnv spec = true ∧ op_systemEnvAllowed opts = true ∧ Ok "/root" = Ok (envDir opts "e1")) ∨
   (isSharedEnv spec = true ∧ TrimSpace (cs_EnvId spec) ≠ "" ∧ envDir opts "e1" = envDir opts (TrimSpace (cs_EnvId spec))).
Proof. apply (home_writes_only_own_home opts (Ok "/root") (λ _, None) spec "/b"). reflexivity. Defined.
Lemma subdir_stays_inside_witness : within "/w" (Join ["/w"; safeSubdirSegment " dep_a "]).
Proof. apply (subdir_stays_inside "/w" " dep_a "); done. Defined.
End WorkspaceWitness.
