(* ===== verification/Session.v ===== *)
(** * Session: a node session's lifecycle, configuration and input pipeline
    (execution/session.go, stream_executor.go, executor.go)

    One [sess] is a session object with everything that touches it: the
    stream executors its runs created (a run and the session may refer to the
    same or to different ones, so executors live in a store and are referred
    to by index), its runs in start order, the drainer's frame in hand, and
    the failure reports still to be made.  A label is one critical section of
    [session.mu] together with the emissions that follow it.

    [deliverInput] stamps the configuration, reserves the message key and
    appends the frame in three sections.  They are one label: a second frame
    with the key is refused from the reservation on, the executor is read in
    the last section, and a configuration change that falls between the first
    two only decides which of two snapshots the frame carries.  In [deliver]
    the sequence number and the write are one step for the same reason: the
    drainer is the only writer but for the start frame, whose own number and
    write can come before or after.  The drainer may run at any time; the
    code runs it after an input is queued and after a spawn.  Failure reports
    are made one by one after the queue was emptied, hence their own label. *)
From S2P Require Import Prelude GoStrings GoPath Workspace.
From Stdlib Require Import Ascii.

(** ** Data *)
Inductive sessionState := sessionProvisioning | sessionProvisioned | sessionRunning | sessionStopped.
#[export] Instance sessionState_eq_dec : EqDecision sessionState.
Proof. solve_decision. Defined.

Record NodeLLMConfig := mkLLM {
  llm_Endpoint : string; llm_ApiKey : string; llm_Model : string; llm_Protocol : string;
  llm_Headers : gmap string string; llm_Extra : gmap string string }.
#[export] Instance NodeLLMConfig_eq_dec : EqDecision NodeLLMConfig.
Proof. solve_decision. Defined.
Record NodeSessionInput := mkInput {
  in_Kind : string; in_Text : string; in_ClientMessageId : string; in_DeliveryAttempt : N;
  in_Model : string; in_Mode : string; in_Llm : option NodeLLMConfig }.
#[export] Instance eta_NodeSessionInput : Settable NodeSessionInput := λ i,
  mkInput (in_Kind i) (in_Text i) (in_ClientMessageId i) (in_DeliveryAttempt i) (in_Model i) (in_Mode i) (in_Llm i).
#[export] Instance NodeSessionInput_eq_dec : EqDecision NodeSessionInput.
Proof. solve_decision. Defined.

(** ** messageKey and emitInputStatus *)
Definition messageID (i : NodeSessionInput) : string := TrimSpace (in_ClientMessageId i).
Definition attempt_of (i : NodeSessionInput) : N :=
  if (in_DeliveryAttempt i =? 0)%N then 1%N else in_DeliveryAttempt i.
Definition messageKey (i : NodeSessionInput) : string :=
  if String.eqb (messageID i) "" then "" else messageID i +:+ ":" +:+ itoa (attempt_of i).
Definition is_human (i : NodeSessionInput) : bool :=
  let kind := TrimSpace (in_Kind i) in String.eqb kind "human_message" || String.eqb kind "".

Inductive emission :=
| EStatus (seq : Z) (messageID : string) (attempt : N) (status reason : string)
| EStage (stage : string) (ok : bool)
| ESessionResult (exitCode : Z) (success : bool) (err : string).

(** ** Stream executors *)
(** llmToFrame; [None]: the key is left out *)
Record llm_frame := mkLlmFrame {
  lf_endpoint : string; lf_apiKey : string; lf_model : string; lf_protocol : string;
  lf_headers : option (gmap string string); lf_extra : option (gmap string string) }.
Definition llmToFrame (llm : NodeLLMConfig) : llm_frame :=
  let nonempty m := if bool_decide (m = ∅) then None else Some m in
  mkLlmFrame (llm_Endpoint llm) (llm_ApiKey llm) (llm_Model llm) (llm_Protocol llm)
    (nonempty (llm_Headers llm)) (nonempty (llm_Extra llm)).
Record stream_frame := mkFrame {
  fr_seq : Z; fr_type : string; fr_message : string; fr_messageId : option (string * N);
  fr_model : option string; fr_mode : option string; fr_llm : option llm_frame }.
Record streamExecutor := mkStream {
  sx_stdin : bool;                    (** e.stdin != nil *)
  sx_seq : Z;
  sx_closed : bool;
  sx_frames : list stream_frame       (** what stdin accepted *)
}.
#[export] Instance eta_streamExecutor : Settable streamExecutor := λ e,
  mkStream (sx_stdin e) (sx_seq e) (sx_closed e) (sx_frames e).
Definition new_stream : streamExecutor := mkStream false 0 false [].

Inductive write_error := errStreamClosed | errStreamNotReady | errWrite (msg : string).
Definition error_text (e : write_error) : string :=
  match e with
  | errStreamClosed => "stream process is closed"
  | errStreamNotReady => "stream process is not ready for input"
  | errWrite msg => msg
  end.
Definition nextSeq (e : streamExecutor) : streamExecutor * Z := (e <| sx_seq := (sx_seq e + 1)%Z |>, sx_seq e).
Definition ready (e : streamExecutor) : bool := negb (sx_closed e) && sx_stdin e.
Definition isClosed (e : streamExecutor) : bool := sx_closed e.
(** [wr]: the error of stdin.Write *)
Definition writeFrame (e : streamExecutor) (f : stream_frame) (wr : option string) : streamExecutor * option write_error :=
  if sx_closed e then (e, Some errStreamClosed) else
  if negb (sx_stdin e) then (e, Some errStreamNotReady) else
  match wr with
  | Some msg => (e, Some (errWrite msg))
  | None => (e <| sx_frames := sx_frames e ++ [f] |>, None)
  end.
Definition nonblank (s : string) : option string :=
  let t := TrimSpace s in if String.eqb t "" then None else Some t.
(** The frame [deliver] builds for an input; [None]: the kind is unknown. *)
Definition frame_of (input : NodeSessionInput) (seq : Z) : option stream_frame :=
  let kind := TrimSpace (in_Kind input) in
  if is_human input then
    Some (mkFrame seq "human_message" (in_Text input)
      (if String.eqb (messageID input) "" then None else Some (messageID input, attempt_of input))
      (nonblank (in_Model input)) (nonblank (in_Mode input)) (llmToFrame <$> in_Llm input))
  else if String.eqb kind "eof" then Some (mkFrame seq "eof" "" None None None None)
  else if String.eqb kind "cancel" then Some (mkFrame seq "cancel" "" None None None None)
  else None.
Definition deliver (e : streamExecutor) (input : NodeSessionInput) (wr : option string)
  : streamExecutor * option write_error :=
  match frame_of input (sx_seq e) with
  | None => (e, Some (errWrite ("unknown session input kind " +:+ quoted (TrimSpace (in_Kind input)))))
  | Some f => let '(e, _) := nextSeq e in writeFrame e f wr
  end.

(** ** selectExecutor *)
Inductive exec_kind := KStream | KLocal | KDocker (image : string).
Definition hasProvider (opts : sessionOptions) (provider : string) : bool :=
  existsb (λ p, EqualFold p (TrimSpace provider)) (op_providers opts).
Definition selectExecutor (opts : sessionOptions) (runtimeInstalled : option string) (spec : NodeCreateSession)
  : result exec_kind :=
  let driver := ToLower (TrimSpace (cs_Driver spec)) in
  if String.eqb driver "" || String.eqb driver "local" || String.eqb driver "process" then
    let provider := TrimSpace (cs_Provider spec) in
    if negb (hasProvider opts provider)
    then Err ("provider " +:+ quoted provider +:+ " is not available on this node (local driver)") else
    match runtimeInstalled with
    | Some e => Err ("node agent runtime is not usable: " +:+ e)
    | None => Ok (if cs_Interactive spec then KStream else KLocal)
    end
  else if String.eqb driver "docker" then
    if negb (op_docker opts) then Err "docker driver requested but this node does not offer docker" else
    let image := TrimSpace (cs_GuestImage spec) in
    if String.eqb image "" then Err "docker driver requires guest_image" else Ok (KDocker image)
  else Err ("unsupported driver " +:+ quoted driver).

(** ** The session *)
Inductive executor := XStream (i : nat) | XOther.    (** XOther: a local or docker run, no stdin *)
#[export] Instance executor_eq_dec : EqDecision executor.
Proof. solve_decision. Defined.
Record nodeSession := mkSession {
  ns_spec : NodeCreateSession;
  ns_state : sessionState;
  ns_llm : option NodeLLMConfig;
  ns_mode : string;
  ns_appliedRevision : Z;             (** uint64 *)
  ns_effectiveRevision : Z;
  ns_executor : option executor;
  ns_run : option nat;                (** runCancel/runDone of the current run *)
  ns_structSeq : Z;
  ns_seen : gset string;              (** seenMessageIDs *)
  ns_pending : list NodeSessionInput  (** pendingInputs *)
}.
#[export] Instance eta_nodeSession : Settable nodeSession := λ s,
  mkSession (ns_spec s) (ns_state s) (ns_llm s) (ns_mode s) (ns_appliedRevision s) (ns_effectiveRevision s)
    (ns_executor s) (ns_run s) (ns_structSeq s) (ns_seen s) (ns_pending s).

(** Where a run of [run] is. *)
Inductive run_phase :=
| RSpawning        (** exectr.start before a stream's stdin is attached *)
| RAttached        (** stdin attached, the start frame not written yet *)
| RRunning         (** the process is alive *)
| RExited          (** wait returned, or start failed *)
| RFailed          (** failPendingInputs done *)
| RStopped         (** markStopped done *)
| RDone.           (** runDone closed *)
#[export] Instance run_phase_eq_dec : EqDecision run_phase.
Proof. solve_decision. Defined.
Record run := mkRun { ru_exec : executor; ru_phase : run_phase; ru_cancelled : bool }.
#[export] Instance eta_run : Settable run := λ r, mkRun (ru_exec r) (ru_phase r) (ru_cancelled r).

Record sess := mkSess {
  se_s : nodeSession;
  se_registered : bool;                         (** in m.sessions *)
  se_provisioning : bool;                       (** provisionSession has not ended *)
  se_restarts : list (option nat);              (** restartRuntime calls waiting for the run they found *)
  se_deleting : option (option nat);            (** delete waiting for the run it found *)
  se_streams : list streamExecutor;
  se_runs : list run;
  se_hand : option (NodeSessionInput * nat);    (** drainPending's frame and stream *)
  se_failing : list (NodeSessionInput * string);  (** reportInputFailure calls to come *)
  se_out : list emission;
  (* history *)
  se_accepted : list NodeSessionInput;          (** frames the node took over, in order *)
  se_written : list NodeSessionInput;           (** frames a stdin accepted *)
  se_failed : list NodeSessionInput             (** frames given up *)
}.
#[export] Instance eta_sess : Settable sess := λ s,
  mkSess (se_s s) (se_registered s) (se_provisioning s) (se_restarts s) (se_deleting s) (se_streams s) (se_runs s) (se_hand s) (se_failing s) (se_out s)
    (se_accepted s) (se_written s) (se_failed s).

Definition new_session (spec : NodeCreateSession) (llm : option NodeLLMConfig) : sess :=
  mkSess (mkSession spec sessionProvisioning llm (TrimSpace (cs_Mode spec)) 0 0 None None 0 ∅ [])
    true true [] None [] [] None [] [] [] [] [].

Definition emit (s : sess) (e : emission) : sess := s <| se_out := se_out s ++ [e] |>.
(** With the m.sessions lookup: an unregistered session reports sequence 0. *)
Definition emitInputStatus (s : sess) (i : NodeSessionInput) (status reason : string) : sess :=
  if String.eqb (messageID i) "" then s else
  let reason := if String.eqb status "failed" && negb (String.eqb (TrimSpace reason) "") then reason else "" in
  if se_registered s then
    emit (s <| se_s := se_s s <| ns_structSeq := ((ns_structSeq (se_s s) + 1) mod 2 ^ 64)%Z |> |>)
      (EStatus (ns_structSeq (se_s s)) (messageID i) (attempt_of i) status reason)
  else emit s (EStatus 0 (messageID i) (attempt_of i) status reason).

(** stampInputSnapshot *)
Definition stampInputSnapshot (s : nodeSession) (input : NodeSessionInput) : NodeSessionInput :=
  let model := match ns_llm s with Some llm => TrimSpace (llm_Model llm) | None => "" end in
  let model := if String.eqb model "" then TrimSpace (cs_Model (ns_spec s)) else model in
  let input := if String.eqb (TrimSpace (in_Model input)) "" && negb (String.eqb model "")
               then input <| in_Model := model |> else input in
  let input := if String.eqb (TrimSpace (in_Mode input)) "" && negb (String.eqb (ns_mode s) "")
               then input <| in_Mode := ns_mode s |> else input in
  match in_Llm input, ns_llm s with
  | None, Some llm => input <| in_Llm := Some llm |>
  | _, _ => input
  end.

(** deliverInput up to the call of drainPending *)
Definition dedupe (i : NodeSessionInput) : bool := negb (String.eqb (messageID i) "") && is_human i.
Definition reserve_key (s : sess) (input : NodeSessionInput) : sess :=
  if dedupe input then s <| se_s := se_s s <| ns_seen := {[ messageKey input ]} ∪ ns_seen (se_s s) |> |> else s.
Definition refuse_input (s : sess) (input : NodeSessionInput) : sess :=
  s <| se_failing := se_failing s ++ [(input, "session is not interactive")] |>
    <| se_accepted := se_accepted s ++ [input] |>.
Definition queue_input (s : sess) (input : NodeSessionInput) : sess :=
  s <| se_s := se_s s <| ns_pending := ns_pending (se_s s) ++ [input] |> |>
    <| se_accepted := se_accepted s ++ [input] |>.
Definition deliverInput (s : sess) (input : NodeSessionInput) : sess :=
  if negb (se_registered s) then s else
  let input := if is_human input then stampInputSnapshot (se_s s) input else input in
  if dedupe input && bool_decide (messageKey input ∈ ns_seen (se_s s)) then emitInputStatus s input "received" "" else
  let s := reserve_key s input in
  match ns_executor (se_s s) with
  | Some XOther => refuse_input s input
  | _ => emitInputStatus (queue_input s input) input "received" ""
  end.

(** The first section of an iteration of drainPending; [None]: it returns. *)
Definition drain_take (s : sess) : option sess :=
  match se_hand s, ns_pending (se_s s), ns_executor (se_s s) with
  | None, input :: rest, Some (XStream i) =>
      stream ← se_streams s !! i;
      if isClosed stream then
        Some (s <| se_s := se_s s <| ns_pending := [] |> |>
                <| se_failing := se_failing s ++ map (λ x, (x, error_text errStreamClosed)) (input :: rest) |>)
      else if negb (ready stream) then None
      else Some (s <| se_s := se_s s <| ns_pending := rest |> |> <| se_hand := Some (input, i) |>)
  | _, _, _ => None
  end.
(** stream.deliver(input) and what follows it *)
Definition drain_deliver (s : sess) (wr : option string) : option sess :=
  match se_hand s with
  | None => None
  | Some (input, i) =>
      stream ← se_streams s !! i;
      let '(stream, err) := deliver stream input wr in
      let s := s <| se_streams := <[i := stream]> (se_streams s) |> <| se_hand := None |> in
      Some match err with
           | None => s <| se_written := se_written s ++ [input] |>
           | Some errStreamNotReady => s <| se_s := se_s s <| ns_pending := input :: ns_pending (se_s s) |> |>
           | Some e => s <| se_failing := se_failing s ++ [(input, error_text e)] |>
           end
  end.
Definition failPendingInputs (s : sess) (reason : string) : sess :=
  s <| se_s := se_s s <| ns_pending := [] |> |>
    <| se_failing := se_failing s ++ map (λ x, (x, reason)) (ns_pending (se_s s)) |>.
(** reportInputFailure of the k-th report to make *)
Definition reportInputFailure (s : sess) (k : nat) : option sess :=
  '(input, reason) ← se_failing s !! k;
  let s := s <| se_failing := delete k (se_failing s) |> <| se_failed := se_failed s ++ [input] |> in
  Some (if String.eqb (messageID input) "" then s else
        emitInputStatus (s <| se_s := se_s s <| ns_seen := ns_seen (se_s s) ∖ {[ messageKey input ]} |> |>)
          input "failed" reason).

(** ** Lifecycle *)
Definition session_id (s : sess) : string := TrimSpace (cs_SessionId (ns_spec (se_s s))).
Definition startRuntime (s : sess) (sel : result exec_kind) : sess * result unit :=
  if negb (se_registered s) then (s, Err ("start session " +:+ session_id s +:+ ": not found")) else
  match ns_state (se_s s) with
  | sessionRunning | sessionProvisioning => (s, Ok ())
  | _ =>
      let s := emit s (EStage "RUNTIME_PREFLIGHT" true) in
      match sel with
      | Err e => (emit s (EStage "RUNTIME_PREFLIGHT" false), Err e)
      | Ok kind =>
          let s := emit s (EStage "RUNTIME_START" true) in
          let x := match kind with KStream => XStream (length (se_streams s)) | _ => XOther end in
          let streams := match kind with KStream => se_streams s ++ [new_stream] | _ => se_streams s end in
          (s <| se_streams := streams |>
             <| se_s := se_s s <| ns_executor := Some x |> <| ns_run := Some (length (se_runs s)) |>
                               <| ns_state := sessionRunning |>
                               <| ns_effectiveRevision := ns_appliedRevision (se_s s) |> |>
             <| se_runs := se_runs s ++ [mkRun x RSpawning false] |>, Ok ())
      end
  end.
Definition set_phase (s : sess) (r : nat) (ph : run_phase) : sess :=
  s <| se_runs := alter (λ x, x <| ru_phase := ph |>) r (se_runs s) |>.
Definition update_stream (s : sess) (x : executor) (f : streamExecutor → streamExecutor) : sess :=
  match x with XStream i => s <| se_streams := alter f i (se_streams s) |> | XOther => s end.
Definition phase_of (s : sess) (r : nat) : option run_phase := ru_phase <$> se_runs s !! r.
Definition cancel_run (s : sess) (r : option nat) : sess :=
  match r with Some r => s <| se_runs := alter (λ x, x <| ru_cancelled := true |>) r (se_runs s) |> | None => s end.

Definition is_stream (x : executor) : bool := match x with XStream _ => true | XOther => false end.
(** streamExecutor.start: the process is spawned and its stdin attached *)
Definition run_attached (s : sess) (r : nat) : option sess :=
  x ← se_runs s !! r;
  if bool_decide (ru_phase x = RSpawning) && is_stream (ru_exec x)
  then Some (update_stream (set_phase s r RAttached) (ru_exec x) (λ e, e <| sx_stdin := true |>)) else None.
(** The phase in which start can return: a stream has its stdin by then. *)
Definition start_phase (x : executor) : run_phase := if is_stream x then RAttached else RSpawning.
(** run: start succeeded, the start frame of a stream is written *)
Definition start_frame (seq : Z) : stream_frame := mkFrame seq "start" "" None None None None.
Definition run_spawned (s : sess) (r : nat) : option sess :=
  x ← se_runs s !! r;
  if bool_decide (ru_phase x = start_phase (ru_exec x)) then
    let s := update_stream (set_phase s r RRunning) (ru_exec x) (λ e,
      (writeFrame (nextSeq e).1 (start_frame (nextSeq e).2) None).1) in
    Some (emit s (EStage "RUNNING" true))
  else None.
(** run: start failed, before a stream's stdin was attached or when the start
    frame could not be written *)
Definition run_spawn_failed (s : sess) (r : nat) (err : string) : option sess :=
  x ← se_runs s !! r;
  if bool_decide (ru_phase x = RSpawning ∨ ru_phase x = RAttached) then
    let s := if bool_decide (ru_phase x = RAttached) then update_stream s (ru_exec x) (λ e, (nextSeq e).1) else s in
    let s := failPendingInputs (emit s (EStage "RUNTIME_START" false)) err in
    Some (emit (set_phase s r RFailed) (ESessionResult 1 false err))
  else None.
(** run: the process exited; wait marked a stream closed *)
Definition run_exited (s : sess) (r : nat) : option sess :=
  x ← se_runs s !! r;
  if bool_decide (ru_phase x = RRunning)
  then Some (update_stream (set_phase s r RExited) (ru_exec x) (λ e, e <| sx_closed := true |>)) else None.
Definition run_result (s : sess) (r : nat) (exitCode : Z) (waitErr : option string) : option sess :=
  x ← se_runs s !! r;
  if bool_decide (ru_phase x = RExited) then
    let success := bool_decide (waitErr = None) && (exitCode =? 0)%Z in
    let exitCode := match waitErr with Some _ => if (exitCode =? 0)%Z then 1%Z else exitCode | None => exitCode end in
    let s := emit s (ESessionResult (int32_of exitCode) success (default "" waitErr)) in
    Some (failPendingInputs (set_phase s r RFailed) "session runtime exited before the message was delivered")
  else None.
Definition markStopped (s : sess) (r : nat) : option sess :=
  x ← se_runs s !! r;
  if bool_decide (ru_phase x = RFailed) then
    let s := set_phase s r RStopped in
    Some (if bool_decide (ns_state (se_s s) = sessionRunning)
          then s <| se_s := se_s s <| ns_state := sessionStopped |> |> else s)
  else None.
Definition run_done (s : sess) (r : nat) : option sess :=
  x ← se_runs s !! r;
  if bool_decide (ru_phase x = RStopped) then Some (set_phase s r RDone) else None.

(** provisionSession's end, and removeFailedSession *)
Definition provisioned (s : sess) : option sess :=
  if se_provisioning s then
    let s := s <| se_provisioning := false |> in
    Some (if bool_decide (ns_state (se_s s) = sessionProvisioning)
          then s <| se_s := se_s s <| ns_state := sessionProvisioned |> |> else s)
  else None.
Definition removeFailedSession (s : sess) : option sess :=
  if se_provisioning s then Some (s <| se_provisioning := false |> <| se_registered := false |>) else None.

(** [<-done]: the run a caller found, if any, has closed runDone. *)
Definition run_over (s : sess) (r : option nat) : bool :=
  match r with None => true | Some r => bool_decide (phase_of s r = Some RDone) end.

(** restartRuntime: cancel the run found; then, once it is over, clear the
    state directory if asked ([reset] is its error) and start again *)
Definition restart_begin (s : sess) : sess :=
  if se_registered s
  then cancel_run (s <| se_restarts := se_restarts s ++ [ns_run (se_s s)] |>) (ns_run (se_s s)) else s.
Definition restart_finish (s : sess) (k : nat) (reset : option string) (sel : result exec_kind)
  : option (sess * result unit) :=
  found ← se_restarts s !! k;
  if negb (run_over s found) then None else
  let s := s <| se_restarts := delete k (se_restarts s) |> in
  match reset with
  | Some e => Some (s, Err ("restart session " +:+ session_id s +:+ " fresh state: " +:+ e))
  | None => Some (startRuntime (s <| se_s := se_s s <| ns_state := sessionProvisioned |> |>) sel)
  end.
Definition stopAll (s : sess) : sess :=
  if negb (se_registered s) then s else
  let s' := if bool_decide (ns_state (se_s s) = sessionRunning)
            then s <| se_s := se_s s <| ns_state := sessionProvisioned |> |> else s in
  cancel_run s' (ns_run (se_s s)).
(** delete: out of the table, every run cancelled; then, once the run found is
    over, the queue is failed *)
Definition delete_begin (s : sess) : option sess :=
  if se_registered s
  then Some (s <| se_registered := false |> <| se_deleting := Some (ns_run (se_s s)) |>
               <| se_runs := map (λ x, x <| ru_cancelled := true |>) (se_runs s) |>) else None.
Definition delete_finish (s : sess) : option sess :=
  found ← se_deleting s;
  if run_over s found
  then Some (failPendingInputs (s <| se_deleting := None |>) "session deleted before the message was delivered")
  else None.

(** ** Configuration *)
Record configResult := mkConfigResult {
  cr_appliedRevision : Z; cr_effectiveRevision : Z; cr_restartRequired : bool }.
Definition recordRevisionLocked (s : nodeSession) (revision : Z) : nodeSession * configResult :=
  let applied := if (ns_appliedRevision s <? revision)%Z then revision else ns_appliedRevision s in
  (s <| ns_appliedRevision := applied |> <| ns_effectiveRevision := applied |>,
   mkConfigResult applied applied false).

(** stateRoot/agents/activation.json: absent, unreadable, or what
    json.Unmarshal leaves in the struct ([None] = nil slice) *)
Inductive activation_file := ActMissing | ActUnreadable (err : string) | ActParsed (skills plugins : option (list string)).
Definition normalizeActivationNames (names : list string) : list string :=
  filter (λ n, n ≠ "") (map TrimSpace names).
(** [wr]: the error of MkdirAll/WriteFile *)
Definition writeRuntimeActivationConfig (file : activation_file) (skills plugins : option (list string))
    (wr : option string) : activation_file * result unit :=
  match file with
  | ActUnreadable e => (file, Err ("read runtime activation config: " +:+ e))
  | _ =>
      let '(sk, pl) := match file with ActParsed sk pl => (sk, pl) | _ => (None, None) end in
      let sk := match skills with Some l => Some (normalizeActivationNames l) | None => sk end in
      let pl := match plugins with Some l => Some (normalizeActivationNames l) | None => pl end in
      match wr with
      | Some e => (file, Err e)
      | None => (ActParsed (Some (default [] sk)) (Some (default [] pl)), Ok ())
      end
  end.

(** The config commands on a looked-up session.  [wr] is the outcome of the
    write each one performs (writeLLMConfig, writeMCPConfig or its state-root
    part, syncSkills, syncPlugins). *)
Inductive config_cmd :=
| ConfigureLLM (llm : option NodeLLMConfig) | ConfigureMode (mode : string)
| ApplyMCPs | ApplySkills (names : list string) | ApplyPlugins (names : list string).
Definition trimmed_names (l : list string) : list string := filter (λ n, n ≠ "") (map TrimSpace l).
Definition configure (s : nodeSession) (file : activation_file) (cmd : config_cmd) (revision : Z) (wr : option string)
  : nodeSession * activation_file * result configResult :=
  let finish s file := let '(s, r) := recordRevisionLocked s revision in (s, file, Ok r) in
  match cmd with
  | ConfigureMode mode => finish (s <| ns_mode := TrimSpace mode |>) file
  | ConfigureLLM llm =>
      let s := s <| ns_llm := llm |> in
      match wr with Some e => (s, file, Err e) | None => finish s file end
  | ApplyMCPs => match wr with Some e => (s, file, Err e) | None => finish s file end
  | ApplySkills names =>
      if isSystemEnv (ns_spec s) then
        match writeRuntimeActivationConfig file (Some (trimmed_names names)) None wr with
        | (file, Err e) => (s, file, Err e)
        | (file, Ok _) => finish s file
        end
      else match wr with Some e => (s, file, Err e) | None => finish s file end
  | ApplyPlugins names =>
      if isSystemEnv (ns_spec s) then
        match writeRuntimeActivationConfig file None (Some (trimmed_names names)) wr with
        | (file, Err e) => (s, file, Err e)
        | (file, Ok _) => finish s file
        end
      else match wr with Some e => (s, file, Err e) | None => finish s file end
  end.

(** ** Command lines and environment *)
Definition flag (name value : string) : list string :=
  let t := TrimSpace value in if String.eqb t "" then [] else [name; t].
Definition promptArgs (provider model mode stateRoot workspace home : string)
    (activeSkills activePlugins : list string) (systemEnv : bool) : list string :=
  ["prompt"; "--provider"; provider; "--state-root"; stateRoot; "--workspace"; workspace; "--home"; home]
  ++ flag "--model" model ++ flag "--mode" mode ++ (if systemEnv then ["--system-env"] else [])
  ++ concat (map (flag "--skill") activeSkills) ++ concat (map (flag "--plugin") activePlugins).
Definition llmEnv `{!MapRange string} (llm : NodeLLMConfig) : list string :=
  let endpoint := TrimSpace (llm_Endpoint llm) in
  let key := TrimSpace (llm_ApiKey llm) in
  let model := TrimSpace (llm_Model llm) in
  (if String.eqb endpoint "" then []
   else ["LLM_API_ENDPOINT=" +:+ endpoint; "OPENAI_BASE_URL=" +:+ endpoint; "ANTHROPIC_BASE_URL=" +:+ endpoint])
  ++ (if String.eqb key "" then []
      else ["LLM_API_KEY=" +:+ key; "OPENAI_API_KEY=" +:+ key; "ANTHROPIC_API_KEY=" +:+ key; "ANTHROPIC_AUTH_TOKEN=" +:+ key])
  ++ (if String.eqb model "" then [] else ["LLM_MODEL=" +:+ model; "ANTHROPIC_MODEL=" +:+ model])
  ++ concat (map (λ kv, let k := TrimSpace kv.1 in if String.eqb k "" then [] else [k +:+ "=" +:+ kv.2])
       (map_range (llm_Extra llm))).

(** ** The transition system *)
Inductive slabel :=
| LInput (i : NodeSessionInput) | LTake | LDeliver (wr : option string) | LReport (k : nat)
| LProvisioned | LProvisionFailed | LStart (sel : result exec_kind)
| LAttached (r : nat) | LSpawned (r : nat) | LSpawnFailed (r : nat) (err : string)
| LExited (r : nat) | LResult (r : nat) (exitCode : Z) (waitErr : option string)
| LStopped (r : nat) | LDone (r : nat)
| LRestartBegin | LRestart (k : nat) (reset : option string) (sel : result exec_kind)
| LStopAll | LDelete | LDeleteFinish
| LConfigure (file : activation_file) (cmd : config_cmd) (revision : Z) (wr : option string).
Definition sstep (s : sess) (l : slabel) : option sess :=
  match l with
  | LInput i => Some (deliverInput s i)
  | LTake => drain_take s
  | LDeliver wr => drain_deliver s wr
  | LReport k => reportInputFailure s k
  | LProvisioned => provisioned s
  | LProvisionFailed => removeFailedSession s
  | LStart sel => Some (startRuntime s sel).1
  | LAttached r => run_attached s r
  | LSpawned r => run_spawned s r
  | LSpawnFailed r e => run_spawn_failed s r e
  | LExited r => run_exited s r
  | LResult r c e => run_result s r c e
  | LStopped r => markStopped s r
  | LDone r => run_done s r
  | LRestartBegin => Some (restart_begin s)
  | LRestart k reset sel => fst <$> restart_finish s k reset sel
  | LStopAll => Some (stopAll s)
  | LDelete => delete_begin s
  | LDeleteFinish => delete_finish s
  | LConfigure file cmd rev wr =>
      if se_registered s then Some (s <| se_s := (configure (se_s s) file cmd rev wr).1.1 |>) else None
  end.
Definition srun : sess → list slabel → sess → Prop := trace_run (λ s l s', sstep s l = Some s').
