(* ===== verification/SessionProofs.v ===== *)
(** * SessionProofs: the input pipeline and the lifecycle of a node session

    Theorems about [Session]: accepted input is never lost, duplicated or
    reordered; one execution of a message is written to a runtime at most
    once; at most one run is alive; what the config commands do. *)
From S2P Require Import Prelude GoStrings GoPath Workspace Session.
From Stdlib Require Import Ascii.

(** ** The input pipeline

    [pipe] is what the pipeline's invariant speaks about; the lifecycle and
    configuration labels leave it alone ([quiet_labels]), a failed queue only
    moves frames from pending to failing ([failPendingInputs_moves]). *)
Definition hand_frames (s : sess) : list NodeSessionInput :=
  match se_hand s with Some (i, _) => [i] | None => [] end.
Definition failing_frames (s : sess) : list NodeSessionInput := map fst (se_failing s).
(** Frames on their way into a runtime, in order. *)
Definition live_frames (s : sess) : list NodeSessionInput :=
  se_written s ++ hand_frames s ++ ns_pending (se_s s).
Definition owned_frames (s : sess) : list NodeSessionInput := live_frames s ++ failing_frames s.

Record moves (s s' : sess) : Prop := {
  mv_accepted : se_accepted s' = se_accepted s;
  mv_failed : se_failed s' = se_failed s;
  mv_seen : ns_seen (se_s s') = ns_seen (se_s s);
  mv_live : live_frames s' `sublist_of` live_frames s;
  mv_owned : owned_frames s' ≡ₚ owned_frames s;
  mv_failing : failing_frames s ⊆ failing_frames s';
  mv_out : se_out s `prefix_of` se_out s'
}.
Definition pipe (s : sess) :=
  (se_accepted s, se_failed s, ns_seen (se_s s), se_written s, se_hand s, ns_pending (se_s s), se_failing s).

Lemma quiet_moves s s' : pipe s' = pipe s → se_out s `prefix_of` se_out s' → moves s s'.
Proof.
  rw /pipe. intros [= Ha Hf Hs Hw Hh Hp Hg] Ho.
  split; rw ?/owned_frames ?/live_frames ?/failing_frames ?/hand_frames ?Hw ?Hh ?Hp ?Hg; done.
Qed.
Lemma moves_trans s1 s2 s3 : moves s1 s2 → moves s2 s3 → moves s1 s3.
Proof.
  intros [A1 A2 A3 A4 A5 A6 A7] [B1 B2 B3 B4 B5 B6 B7]. split; try (by etrans); congruence.
Qed.
Lemma failPendingInputs_moves s reason : moves s (failPendingInputs s reason).
Proof.
  split; try done.
  - rw /live_frames /hand_frames /=. by apply sublist_app, sublist_app, sublist_nil_l.
  - rw /owned_frames /live_frames /failing_frames /hand_frames /= map_app map_map /= map_id.
    rw !app_nil_r -!app_assoc. by rw (Permutation_app_comm (map fst _)).
  - rw /failing_frames /= map_app. set_solver.
Qed.

Definition untouched (s s' : sess) : Prop := pipe s' = pipe s ∧ se_out s `prefix_of` se_out s'.
Lemma untouched_moves s s' : untouched s s' → moves s s'.
Proof. intros []. by apply quiet_moves. Qed.
Lemma untouched_refl s : untouched s s.
Proof. done. Qed.
Lemma untouched_emit s s' e : untouched s s' → untouched s (emit s' e).
Proof. intros [Hp Ho]. split; [done |]. by apply prefix_app_r. Qed.
Lemma untouched_set_phase s s' r ph : untouched s s' → untouched s (set_phase s' r ph).
Proof. done. Qed.
Lemma untouched_update_stream s s' x f : untouched s s' → untouched s (update_stream s' x f).
Proof. by destruct x. Qed.
Lemma untouched_cancel_run s s' r : untouched s s' → untouched s (cancel_run s' r).
Proof. by destruct r. Qed.
Lemma untouched_startRuntime s s' sel : untouched s s' → untouched s (startRuntime s' sel).1.
Proof.
  intros H. pose proof H as [Hp Ho]. rw /startRuntime. destruct (se_registered s'); [|done]. simpl.
  destruct (ns_state (se_s s')); try done;
    (destruct sel; (split; [exact Hp | simpl; by do 2 apply prefix_app_r])).
Qed.
Lemma untouched_configure s file cmd rev wr :
  untouched s (s <| se_s := (configure (se_s s) file cmd rev wr).1.1 |>).
Proof.
  split; [|done]. rw /pipe /=.
  rw /configure. destruct cmd, wr; simpl; try done; by destruct (isSystemEnv _), file.
Qed.
Create HintDb session.
(** The two ways a restart ends: giving up, or starting on the session it
    marked provisioned. *)
Definition restart_ready (s : sess) (k : nat) : sess :=
  s <| se_restarts := delete k (se_restarts s) |> <| se_s := se_s s <| ns_state := sessionProvisioned |> |>.
Lemma restart_finish_inv s k reset sel p :
  restart_finish s k reset sel = Some p →
  ∃ found, se_restarts s !! k = Some found ∧ run_over s found = true ∧
    (p.1 = s <| se_restarts := delete k (se_restarts s) |> ∨ p = startRuntime (restart_ready s k) sel).
Proof.
  rw /restart_finish. destruct (se_restarts s !! k) as [found|]; simpl; [|done].
  destruct (run_over s found) eqn:Hr; simpl; [|done]. intros H. exists found.
  destruct reset; injection H as <-; eauto.
Qed.
Lemma untouched_restart_finish s k reset sel p : restart_finish s k reset sel = Some p → untouched s p.1.
Proof.
  intros (found & _ & _ & [->| ->])%restart_finish_inv; [done | by apply untouched_startRuntime].
Qed.
#[local] Hint Resolve untouched_refl untouched_emit untouched_set_phase untouched_update_stream
  untouched_cancel_run untouched_startRuntime untouched_configure : session.

(** Undo the binds and guards of a step that was taken. *)
Ltac step_inv H :=
  repeat match type of H with
  | mbind _ ?x = Some _ => let E := fresh "E" in destruct x eqn:E; simpl in H; [|discriminate H]
  | fmap _ ?x = Some _ => let E := fresh "E" in destruct x eqn:E; simpl in H; [|discriminate H]
  | (if ?b then _ else _) = Some _ => let E := fresh "E" in destruct b eqn:E; try discriminate H
  | Some _ = Some _ => injection H as H; subst
  end.

Definition pipeline_label (l : slabel) : bool :=
  match l with
  | LInput _ | LTake | LDeliver _ | LReport _ | LSpawnFailed _ _ | LResult _ _ _ | LDeleteFinish => true
  | _ => false
  end.
Lemma quiet_labels s l s' : sstep s l = Some s' → pipeline_label l = false → untouched s s'.
Proof.
  intros H Hq. destruct l; try discriminate Hq; clear Hq; simpl in H;
    rw ?/provisioned ?/removeFailedSession ?/run_attached ?/run_spawned ?/run_exited ?/markStopped ?/run_done
       ?/delete_begin in H; step_inv H; rw ?/restart_begin ?/stopAll; repeat case_match; simplify_eq;
    auto with session; try (by split); try by apply untouched_cancel_run.
  by eapply untouched_restart_finish.
Qed.
Lemma moves_untouched_l s s' s'' : untouched s s' → moves s' s'' → moves s s''.
Proof. intros H. by apply moves_trans, untouched_moves. Qed.
Lemma moves_untouched_r s s' s'' : moves s s' → untouched s' s'' → moves s s''.
Proof. intros H Hu. eapply moves_trans; [done | by apply untouched_moves]. Qed.

Lemma drain_take_moves s s' : drain_take s = Some s' → moves s s'.
Proof.
  rw /drain_take. destruct (se_hand s) eqn:Hh; [done |].
  destruct (ns_pending (se_s s)) as [|input rest] eqn:Hp; [done |].
  destruct (ns_executor (se_s s)) as [[i|]|]; [|done..].
  destruct (se_streams s !! i) as [stream|]; simpl; [|done].
  destruct (isClosed stream); [| destruct (ready stream); simpl; [|done]]; intros [= <-].
  - pose proof (failPendingInputs_moves s (error_text errStreamClosed)) as H.
    by rw /failPendingInputs Hp in H.
  - split; try done; rw ?/owned_frames ?/live_frames ?/hand_frames ?Hh /= ?Hp //.
Qed.
Lemma drain_deliver_moves s wr s' : drain_deliver s wr = Some s' → moves s s'.
Proof.
  rw /drain_deliver. destruct (se_hand s) as [[input i]|] eqn:Hh; [|done].
  destruct (se_streams s !! i) as [stream|]; simpl; [|done].
  destruct (deliver stream input wr) as [stream' [[| |msg]|]]; intros [= <-];
    (split; try done; rw ?/owned_frames ?/live_frames ?/failing_frames ?/hand_frames ?Hh /=;
     rw ?map_app ?app_nil_r -?app_assoc //=).
  all: try set_solver.
  all: rw ?(Permutation_app_comm (map fst _)) //=.
  all: try (apply sublist_app; [done |]; by apply sublist_cons).
  all: rw (Permutation_middle (ns_pending _)) //.
Qed.
Lemma run_spawn_failed_moves s r err s' : run_spawn_failed s r err = Some s' → moves s s'.
Proof.
  rw /run_spawn_failed. destruct (se_runs s !! r) as [x|]; simpl; [|done].
  case_bool_decide; [|done]. intros [= <-].
  set (s1 := if bool_decide (ru_phase x = RAttached) then _ else _).
  assert (untouched s s1) by (rw /s1; destruct (bool_decide (ru_phase x = RAttached)); auto with session).
  apply moves_untouched_r with (failPendingInputs (emit s1 (EStage "RUNTIME_START" false)) err).
  - eapply moves_untouched_l; [| apply failPendingInputs_moves]. auto with session.
  - auto with session.
Qed.
Lemma run_result_moves s r c e s' : run_result s r c e = Some s' → moves s s'.
Proof.
  rw /run_result. destruct (se_runs s !! r) as [x|]; simpl; [|done].
  case_bool_decide; [|done]. intros [= <-].
  eapply moves_untouched_l; [| apply failPendingInputs_moves]. eauto with session.
Qed.
Lemma delete_finish_moves s s' : delete_finish s = Some s' → moves s s'.
Proof.
  rw /delete_finish. destruct (se_deleting s); simpl; [|done]. case_match; [|done]. intros [= <-].
  eapply moves_untouched_l; [| apply failPendingInputs_moves]. done.
Qed.
(** Every label but an input and a failure report only moves frames along. *)
Lemma step_moves s l s' :
  sstep s l = Some s' → (∀ i, l ≠ LInput i) → (∀ k, l ≠ LReport k) → moves s s'.
Proof.
  intros H Hi Hk. destruct (pipeline_label l) eqn:Hq; [| by eapply untouched_moves, quiet_labels].
  destruct l; try discriminate Hq; simpl in H;
    eauto using drain_take_moves, drain_deliver_moves, run_spawn_failed_moves, run_result_moves, delete_finish_moves.
  - by destruct (Hi i).
  - by destruct (Hk k).
Qed.

(** *** Nothing accepted is lost, duplicated or reordered *)
Definition status_sent (s : sess) (i : NodeSessionInput) (status : string) : Prop :=
  ∃ seq reason, EStatus seq (messageID i) (attempt_of i) status reason ∈ se_out s.
Record pipeline_inv (s : sess) : Prop := {
  pi_owned : se_accepted s ≡ₚ owned_frames s ++ se_failed s;
  pi_order : live_frames s `sublist_of` se_accepted s;
  pi_failed i : i ∈ se_failed s → messageID i ≠ "" → status_sent s i "failed";
  pi_answered i : i ∈ se_accepted s → messageID i ≠ "" →
    status_sent s i "received" ∨ i ∈ failing_frames s ++ se_failed s
}.
Lemma status_sent_prefix s s' i status :
  se_out s `prefix_of` se_out s' → status_sent s i status → status_sent s' i status.
Proof. intros [k Hk] (seq & reason & H). exists seq, reason. rw Hk elem_of_app. by left. Qed.
Lemma status_sent_emit s i status reason :
  messageID i ≠ "" → status_sent (emitInputStatus s i status reason) i status.
Proof.
  intros Hid. rw /status_sent /emitInputStatus. destruct (String.eqb_spec (messageID i) ""); [done |].
  destruct (se_registered s); simpl; do 2 eexists; apply elem_of_app; right; by apply list_elem_of_singleton.
Qed.
Lemma untouched_emitInputStatus s i status reason : untouched s (emitInputStatus s i status reason).
Proof.
  rw /emitInputStatus. destruct (String.eqb (messageID i) ""); [done |].
  destruct (se_registered s); apply untouched_emit; done.
Qed.

Lemma pipeline_inv_moves s s' : moves s s' → pipeline_inv s → pipeline_inv s'.
Proof.
  intros [] []. split.
  - rw mv_accepted0 mv_failed0 mv_owned0 //.
  - rw mv_accepted0. by etrans.
  - intros i. rw mv_failed0. eauto using status_sent_prefix.
  - intros i. rw mv_accepted0 mv_failed0 => Hi Hid. destruct (pi_answered0 i Hi Hid) as [H|H].
    + left. by eapply status_sent_prefix.
    + right. set_solver.
Qed.

(** What deliverInput comes to: nothing, a repeated acknowledgement, or a
    frame taken over (key reserved) that is queued and acknowledged, or to be
    reported as failed. *)
Inductive input_case (s : sess) (input : NodeSessionInput) : sess → Prop :=
| case_unknown : input_case s input s
| case_replay : dedupe input → messageKey input ∈ ns_seen (se_s s) →
    input_case s input (emitInputStatus s input "received" "")
| case_refused : (dedupe input → messageKey input ∉ ns_seen (se_s s)) →
    input_case s input (refuse_input (reserve_key s input) input)
| case_queued : (dedupe input → messageKey input ∉ ns_seen (se_s s)) →
    input_case s input (emitInputStatus (queue_input (reserve_key s input) input) input "received" "").
Definition stamped (s : sess) (i : NodeSessionInput) : NodeSessionInput :=
  if is_human i then stampInputSnapshot (se_s s) i else i.
Lemma deliverInput_case s i : input_case s (stamped s i) (deliverInput s i).
Proof.
  rw /deliverInput -/(stamped s i). destruct (se_registered s); [simpl | constructor].
  destruct (dedupe (stamped s i) && _) eqn:Hd; [go_bool; constructor; [by rw H | done] |].
  assert (dedupe (stamped s i) → messageKey (stamped s i) ∉ ns_seen (se_s s)) as Hnew.
  { intros Ht. destruct (dedupe (stamped s i)); [|done]. by apply bool_decide_eq_false in Hd. }
  destruct (ns_executor _) as [[]|]; by constructor.
Qed.
Lemma reserve_key_pipe s input :
  se_accepted (reserve_key s input) = se_accepted s ∧ se_failed (reserve_key s input) = se_failed s ∧
  live_frames (reserve_key s input) = live_frames s ∧ failing_frames (reserve_key s input) = failing_frames s ∧
  se_out (reserve_key s input) = se_out s.
Proof. rw /reserve_key. by destruct (dedupe input). Qed.

Lemma refuse_input_pipe s input :
  live_frames (refuse_input s input) = live_frames s ∧
  failing_frames (refuse_input s input) = failing_frames s ++ [input].
Proof. rw /failing_frames /= map_app //. Qed.
Lemma queue_input_pipe s input :
  live_frames (queue_input s input) = live_frames s ++ [input] ∧
  failing_frames (queue_input s input) = failing_frames s.
Proof. rw /live_frames /hand_frames /= -!app_assoc //. Qed.
Lemma refuse_input_owned s input :
  owned_frames (refuse_input (reserve_key s input) input) ≡ₚ input :: owned_frames s.
Proof.
  rw /owned_frames. destruct (refuse_input_pipe (reserve_key s input) input) as [-> ->].
  destruct (reserve_key_pipe s input) as (_ & _ & -> & -> & _). solve_Permutation.
Qed.
Lemma queue_input_owned s input :
  owned_frames (queue_input (reserve_key s input) input) ≡ₚ input :: owned_frames s.
Proof.
  rw /owned_frames. destruct (queue_input_pipe (reserve_key s input) input) as [-> ->].
  destruct (reserve_key_pipe s input) as (_ & _ & -> & -> & _). solve_Permutation.
Qed.

Lemma pipeline_inv_accept s s' input :
  pipeline_inv s → se_accepted s' = se_accepted s ++ [input] → se_failed s' = se_failed s →
  se_out s `prefix_of` se_out s' →
  (live_frames s' = live_frames s ++ [input] ∧ failing_frames s' = failing_frames s ∧
     (messageID input ≠ "" → status_sent s' input "received")
   ∨ live_frames s' = live_frames s ∧ failing_frames s' = failing_frames s ++ [input]) →
  pipeline_inv s'.
Proof.
  intros [] Ha Hf Ho Hl. split.
  - rw Ha Hf pi_owned0 /owned_frames. destruct Hl as [(-> & -> & _)|[-> ->]]; solve_Permutation.
  - rw Ha. destruct Hl as [(-> & _)|[-> _]]; [by apply sublist_app | by apply sublist_inserts_r].
  - intros i. rw Hf. eauto using status_sent_prefix.
  - intros i. rw Ha Hf elem_of_app list_elem_of_singleton => Hi Hid. destruct Hl as [(_ & -> & Hr)|[_ ->]].
    + destruct Hi as [Hi| ->]; [|by left; apply Hr].
      destruct (pi_answered0 i Hi Hid) as [H|H]; [left; by eapply status_sent_prefix | by right].
    + destruct Hi as [Hi| ->]; [|right; set_solver].
      destruct (pi_answered0 i Hi Hid) as [H|H]; [left; by eapply status_sent_prefix | right; set_solver].
Qed.
Lemma pipeline_inv_queued s s1 input :
  pipeline_inv s → se_accepted s1 = se_accepted s ++ [input] → se_failed s1 = se_failed s → se_out s1 = se_out s →
  live_frames s1 = live_frames s ++ [input] → failing_frames s1 = failing_frames s →
  pipeline_inv (emitInputStatus s1 input "received" "").
Proof.
  intros H Ha Hf Ho Hl Hg.
  destruct (untouched_emitInputStatus s1 input "received" "") as [[= Ea Ef Es Ew Eh Ep Eg] Eo].
  apply (pipeline_inv_accept s _ input H); [by rw Ea | by rw Ef | by rw -Ho |].
  left. split_and!; [| | apply status_sent_emit].
  - by rw -Hl /live_frames /hand_frames Ew Eh Ep.
  - by rw -Hg /failing_frames Eg.
Qed.
Lemma pipeline_inv_input s i : pipeline_inv s → pipeline_inv (deliverInput s i).
Proof.
  intros H. destruct (deliverInput_case s i) as [| | |].
  - done.
  - eapply pipeline_inv_moves; [apply untouched_moves, untouched_emitInputStatus | done].
  - set (input := stamped s i). clearbody input.
    destruct (reserve_key_pipe s input) as (Ha & Hf & Hl & Hg & Ho).
    destruct (refuse_input_pipe (reserve_key s input) input) as [Hl' Hg'].
    apply (pipeline_inv_accept s _ input H); [by rw -Ha | by rw -Hf | by rw -Ho |].
    right. by rw Hl' Hg' Hl Hg.
  - set (input := stamped s i). clearbody input.
    destruct (reserve_key_pipe s input) as (Ha & Hf & Hl & Hg & Ho).
    destruct (queue_input_pipe (reserve_key s input) input) as [Hl' Hg'].
    apply (pipeline_inv_queued s (queue_input (reserve_key s input) input) input H);
      [by rw -Ha | by rw -Hf | by rw -Ho | by rw Hl' Hl | by rw Hg' Hg].
Qed.
Lemma pipeline_inv_report s k s' : reportInputFailure s k = Some s' → pipeline_inv s → pipeline_inv s'.
Proof.
  rw /reportInputFailure. destruct (se_failing s !! k) as [[input reason]|] eqn:Hk; simpl; [|done].
  set (s1 := s <| se_failing := _ |> <| se_failed := _ |>).
  set (s2 := if String.eqb (messageID input) "" then s1 else _). intros [= <-] [].
  assert (failing_frames s ≡ₚ input :: failing_frames s1) as Hperm.
  { rw /failing_frames (delete_Permutation (se_failing s) _ _ Hk) //. }
  assert (se_accepted s2 = se_accepted s ∧ se_failed s2 = se_failed s ++ [input] ∧ live_frames s2 = live_frames s ∧
          failing_frames s2 = failing_frames s1 ∧ se_out s `prefix_of` se_out s2 ∧
          (messageID input ≠ "" → status_sent s2 input "failed")) as (Ha & Hf & Hl & Hg & Ho & Hs).
  { rw /s2. destruct (String.eqb_spec (messageID input) ""); [by split_and! |]. set (s3 := s1 <| se_s := _ |>).
    destruct (untouched_emitInputStatus s3 input "failed" reason) as [[= Ea Ef Es Ew Eh Ep Eg] Eo].
    split_and!; [done | done | by rw /live_frames /hand_frames Ew Eh Ep | by rw /failing_frames Eg | done |].
    intros. by apply status_sent_emit. }
  split.
  - rw Ha Hf pi_owned0 /owned_frames Hl Hg Hperm. solve_Permutation.
  - by rw Ha Hl.
  - intros i. rw Hf elem_of_app list_elem_of_singleton. intros [Hi| ->]; [|done].
    eauto using status_sent_prefix.
  - intros i. rw Ha => Hi Hid. destruct (pi_answered0 i Hi Hid) as [H|H].
    + left. by eapply status_sent_prefix.
    + right. rw Hg Hf. rw Hperm elem_of_app elem_of_cons in H. rw !elem_of_app list_elem_of_singleton. tauto.
Qed.
Lemma pipeline_inv_new spec llm : pipeline_inv (new_session spec llm).
Proof. split; try done; by intros i ?%not_elem_of_nil. Qed.
Lemma pipeline_inv_step s l s' : pipeline_inv s → sstep s l = Some s' → pipeline_inv s'.
Proof.
  intros Hi H. destruct l; try (by eapply pipeline_inv_moves; [eapply step_moves |]).
  - simplify_eq/=. by apply pipeline_inv_input.
  - by eapply pipeline_inv_report.
Qed.

(** *** What the runtimes are sent *)
Definition payload (f : stream_frame) : stream_frame :=
  mkFrame 0 (fr_type f) (fr_message f) (fr_messageId f) (fr_model f) (fr_mode f) (fr_llm f).
Definition input_payloads (e : streamExecutor) : list stream_frame :=
  map payload (filter (λ f, fr_type f ≠ "start") (sx_frames e)).
Definition sent_payloads (s : sess) : list stream_frame := omap (λ i, frame_of i 0) (se_written s).
Record streams_inv (s : sess) : Prop := {
  si_all : concat (map input_payloads (se_streams s)) ≡ₚ sent_payloads s;
  si_order e : e ∈ se_streams s → input_payloads e `sublist_of` sent_payloads s
}.

Definition payloads (s : sess) : list (list stream_frame) := map input_payloads (se_streams s).
Definition same_payloads (s s' : sess) : Prop :=
  se_written s' = se_written s ∧ (payloads s' = payloads s ∨ payloads s' = payloads s ++ [[]]).
Lemma map_alter_same {A B} (g : A → B) (f : A → A) i l : (∀ x, g (f x) = g x) → map g (alter f i l) = map g l.
Proof.
  intros H. revert i. induction l as [|x l IH]; intros [|i]; [done.. | |].
  - exact (f_equal (λ y, y :: map g l) (H x)).
  - exact (f_equal (cons (g x)) (IH i)).
Qed.
Lemma same_payloads_update s x f :
  (∀ e, input_payloads (f e) = input_payloads e) → same_payloads s (update_stream s x f).
Proof. intros H. split; [by destruct x |]. left. destruct x; [| done]. by apply map_alter_same. Qed.
Lemma same_payloads_start s s' sel : payloads s' = payloads s → se_written s' = se_written s →
  same_payloads s (startRuntime s' sel).1.
Proof.
  intros Hp Hw. rw /startRuntime. destruct (se_registered s'); [simpl | by split; [|left]].
  destruct (ns_state (se_s s')); try (by split; [|left]); (destruct sel as [[]|]; split; [done | | done | | done | | done |]);
    try (by left); right; rw /payloads /= map_app -/(payloads s') Hp //.
Qed.
Lemma start_frame_payload e : input_payloads (writeFrame (nextSeq e).1 (start_frame (nextSeq e).2) None).1 = input_payloads e.
Proof.
  rw /writeFrame /=. destruct (sx_closed e), (sx_stdin e); try done.
  rw /input_payloads /= filter_app filter_cons_False /=; [| by intros []]. by rw app_nil_r.
Qed.
Lemma same_payloads_eq s s' : se_streams s' = se_streams s → se_written s' = se_written s → same_payloads s s'.
Proof. intros Hs Hw. split; [done |]. left. by rw /payloads Hs. Qed.
Lemma emitInputStatus_streams s i status reason :
  se_streams (emitInputStatus s i status reason) = se_streams s ∧ se_written (emitInputStatus s i status reason) = se_written s.
Proof. rw /emitInputStatus. destruct (String.eqb _ _), (se_registered s); done. Qed.
Lemma input_streams s i : se_streams (deliverInput s i) = se_streams s ∧ se_written (deliverInput s i) = se_written s.
Proof.
  assert (∀ x, se_streams (reserve_key s x) = se_streams s ∧ se_written (reserve_key s x) = se_written s) as Hk.
  { intros x. rw /reserve_key. by destruct (dedupe x). }
  destruct (deliverInput_case s i); [done | apply emitInputStatus_streams | apply Hk |].
  destruct (emitInputStatus_streams (queue_input (reserve_key s (stamped s i)) (stamped s i)) (stamped s i) "received" "")
    as [-> ->]. apply Hk.
Qed.
Lemma step_same_payloads s l s' : sstep s l = Some s' → (∀ wr, l ≠ LDeliver wr) → same_payloads s s'.
Proof.
  intros H Hl. destruct l; simpl in H; try by destruct (Hl wr).
  all: rw ?/provisioned ?/removeFailedSession ?/run_attached ?/run_spawned
    ?/run_spawn_failed ?/run_exited ?/run_result ?/markStopped ?/run_done ?/delete_begin ?/delete_finish in H.
  all: step_inv H; rw ?/stopAll; try (repeat case_match; simplify_eq/=; by apply same_payloads_eq).
  - apply same_payloads_eq; apply input_streams.
  - rw /drain_take in H. repeat case_match; step_inv H; by apply same_payloads_eq.
  - rw /reportInputFailure in H. destruct (se_failing s !! k) as [[input reason]|]; simpl in H; [|done].
    injection H as <-. destruct (String.eqb _ _); [by apply same_payloads_eq |].
    match goal with |- same_payloads s (emitInputStatus ?s1 _ _ _) =>
      destruct (emitInputStatus_streams s1 input "failed" reason) end. by apply same_payloads_eq.
  - by apply same_payloads_start.
  - by apply (same_payloads_update (set_phase s r RAttached)).
  - apply (same_payloads_update (set_phase s r RRunning)), start_frame_payload.
  - destruct (bool_decide (ru_phase r0 = RAttached)); [| by apply same_payloads_eq].
    by apply (same_payloads_update s (ru_exec r0) (λ e, (nextSeq e).1)).
  - by apply (same_payloads_update (set_phase s r RExited)).
  - rw /restart_begin. destruct (se_registered s); [| by apply same_payloads_eq].
    by apply same_payloads_eq; destruct (ns_run (se_s s)).
  - destruct (restart_finish_inv _ _ _ _ _ E) as (found & _ & _ & [->| ->]);
      [by apply same_payloads_eq | by apply same_payloads_start].
  - destruct (se_registered s); [simpl | by apply same_payloads_eq].
    case_bool_decide; apply same_payloads_eq; by destruct (ns_run (se_s s)).
Qed.

Lemma frame_of_payload i seq f : frame_of i seq = Some f →
  frame_of i 0 = Some (payload f) ∧ fr_type f ≠ "start".
Proof. rw /frame_of. repeat case_match; intros; simplify_eq; done. Qed.
Lemma deliver_payload e i wr e' err : deliver e i wr = (e', err) →
  match err with
  | None => ∃ f, frame_of i 0 = Some f ∧ input_payloads e' = input_payloads e ++ [f]
  | Some _ => input_payloads e' = input_payloads e
  end.
Proof.
  rw /deliver. destruct (frame_of i (sx_seq e)) as [f|] eqn:Hf; [| by intros [= <- <-]].
  destruct (frame_of_payload _ _ _ Hf) as [H0 Ht]. rw /writeFrame /=.
  destruct (sx_closed e), (sx_stdin e), wr; intros [= <- <-]; try done.
  exists (payload f). split; [done |].
  rw /input_payloads /= filter_app filter_cons_True // map_app //.
Qed.
Lemma streams_inv_deliver s wr s' : drain_deliver s wr = Some s' → streams_inv s → streams_inv s'.
Proof.
  rw /drain_deliver. destruct (se_hand s) as [[input i]|]; [|done].
  destruct (se_streams s !! i) as [e|] eqn:He; simpl; [|done].
  destruct (deliver e input wr) as [e' err] eqn:Hd. pose proof (deliver_payload _ _ _ _ _ Hd) as Hp.
  intros H [Hall Hord].
  assert (se_streams s' = <[i:=e']> (se_streams s)) as Hs by (destruct err as [[]|]; by injection H as <-).
  assert (∀ x, x ∈ <[i:=e']> (se_streams s) → x = e' ∨ x ∈ se_streams s) as Hin.
  { intros x (j & Hj)%list_elem_of_lookup. destruct (decide (i = j)) as [<-|].
    - left. rw list_lookup_insert_eq in Hj; [by injection Hj | by eapply lookup_lt_Some].
    - right. rw list_lookup_insert_ne // in Hj. by eapply list_elem_of_lookup_2. }
  pose proof (list_elem_of_lookup_2 _ _ _ He) as Hein.
  assert (concat (payloads s) = concat (map input_payloads (take i (se_streams s)))
    ++ input_payloads e ++ concat (map input_payloads (drop (S i) (se_streams s)))) as Hc.
  { rw /payloads -{1}(take_drop_middle _ _ _ He) map_app concat_app //. }
  assert (concat (payloads s') = concat (map input_payloads (take i (se_streams s)))
    ++ input_payloads e' ++ concat (map input_payloads (drop (S i) (se_streams s)))) as Hc'.
  { rw /payloads Hs insert_take_drop ?map_app ?concat_app //. by eapply lookup_lt_Some. }
  rw -/(payloads s) Hc in Hall. destruct err as [err|].
  - assert (se_written s' = se_written s) as Hw by (destruct err; by injection H as <-).
    split; [by rw -/(payloads s') Hc' /sent_payloads Hw Hp |].
    intros x. rw Hs /sent_payloads Hw => /Hin [->|?]; [rw Hp |]; by apply Hord.
  - assert (se_written s' = se_written s ++ [input]) as Hw by (by injection H as <-).
    destruct Hp as (f & Hf & Hp).
    assert (sent_payloads s' = sent_payloads s ++ [f]) as Hsent.
    { rw /sent_payloads Hw omap_app /= Hf //. }
    split; [rw -/(payloads s') Hc' Hsent Hp -Hall; solve_Permutation |].
    intros x. rw Hs Hsent => /Hin [->|?].
    + rw Hp. apply sublist_app; [by apply Hord | done].
    + by apply sublist_inserts_r, Hord.
Qed.
Lemma streams_inv_step s l s' : streams_inv s → sstep s l = Some s' → streams_inv s'.
Proof.
  intros Hi H. assert ((∃ wr, l = LDeliver wr) ∨ ∀ wr, l ≠ LDeliver wr) as [[wr ->]|Hl]
    by (destruct l; naive_solver); [by eapply streams_inv_deliver |].
  destruct (step_same_payloads _ _ _ H Hl) as [Hw Hp].
  destruct Hi as [Hall Hord]. rw -/(payloads s) in Hall.
  assert (sent_payloads s' = sent_payloads s) as Hsent by by rw /sent_payloads Hw.
  split; rw ?Hsent.
  - rw -/(payloads s'). destruct Hp as [->| ->]; [done |]. by rw concat_app /= !app_nil_r.
  - intros e He. apply (list_elem_of_fmap_2 input_payloads) in He.
    change (input_payloads e ∈ payloads s') in He. assert (input_payloads e ∈ payloads s ∨ input_payloads e = []) as [Hin|Hn].
    { destruct Hp as [Hp|Hp]; rw Hp in He; [by left | set_solver]. }
    + apply list_elem_of_fmap in Hin as (e0 & -> & ?). by apply Hord.
    + rw Hn. apply sublist_nil_l.
Qed.

(** C1: For every interleaving of inputs, the drainer,
    write failures, spawns, exits, restarts, connection drops and deletion:
    the frames the node took over are exactly those written, in hand, queued,
    about to be reported or reported as failed; what is written or still on
    its way is in arrival order; every runtime was sent, in arrival order,
    the frames of the messages recorded as written and nothing else (its start
    frame apart); a frame with an id that was given up has had a failed status
    sent, and every other one a received status. *)
Theorem session_input_fifo spec llm ls s :
  srun (new_session spec llm) ls s →
  se_accepted s ≡ₚ owned_frames s ++ se_failed s ∧
  live_frames s `sublist_of` se_accepted s ∧
  concat (map input_payloads (se_streams s)) ≡ₚ sent_payloads s ∧
  (∀ e, e ∈ se_streams s → input_payloads e `sublist_of` sent_payloads s) ∧
  (∀ i, i ∈ se_failed s → messageID i ≠ "" → status_sent s i "failed") ∧
  (∀ i, i ∈ se_accepted s → messageID i ≠ "" →
     status_sent s i "received" ∨ i ∈ failing_frames s ++ se_failed s).
Proof.
  intros H.
  assert (pipeline_inv s) as [].
  { eapply trace_run_invariant; [apply pipeline_inv_step | apply (pipeline_inv_new spec llm) | exact H]. }
  assert (streams_inv s) as [].
  { eapply trace_run_invariant; [apply streams_inv_step | | exact H].
    split; [done | by intros e ?%not_elem_of_nil]. }
  by split_and!.
Qed.

(** *** One execution of a message is delivered at most once *)
Definition execution_of (i : NodeSessionInput) : option (string * N) :=
  if String.eqb (messageID i) "" then None else Some (messageID i, attempt_of i).
Definition executions (l : list NodeSessionInput) : list (string * N) := omap execution_of l.
(** Only human messages carry a client message id. *)
Definition well_kinded (l : slabel) : Prop :=
  match l with LInput i => messageID i ≠ "" → is_human i | _ => True end.

Lemma messageKey_inj i j : messageID i ≠ "" → messageID j ≠ "" →
  messageKey i = messageKey j ↔ execution_of i = execution_of j.
Proof.
  intros Hi Hj. rw /messageKey /execution_of.
  destruct (String.eqb_spec (messageID i) ""); [done |]. destruct (String.eqb_spec (messageID j) ""); [done |].
  split; [| by intros [= -> ->]]. intros H.
  apply (append_sep_inj is_digit _ _ _ _ ":"%char) in H as [-> ->%itoa_inj]; [done | done | apply itoa_digits..].
Qed.
Lemma execution_of_some i : messageID i ≠ "" → execution_of i = Some (messageID i, attempt_of i).
Proof. intros. rw /execution_of. by destruct (String.eqb_spec (messageID i) ""). Qed.
Lemma stamped_same s i :
  messageID (stamped s i) = messageID i ∧ attempt_of (stamped s i) = attempt_of i ∧
  is_human (stamped s i) = is_human i.
Proof. rw /stamped. destruct (is_human i) eqn:Hh; [|done]. rw /stampInputSnapshot. repeat case_match; by rw ?Hh. Qed.

Record keys_inv (s : sess) : Prop := {
  ki_once : NoDup (executions (owned_frames s));
  ki_seen i : messageID i ≠ "" →
    messageKey i ∈ ns_seen (se_s s) ↔ execution_of i ∈ Some <$> executions (owned_frames s)
}.
Lemma execution_elem i l : messageID i ≠ "" →
  execution_of i ∈ Some <$> executions l ↔ (messageID i, attempt_of i) ∈ executions l.
Proof. intros Hi. rw execution_of_some //. apply list_elem_of_fmap_inj, _. Qed.
Lemma keys_inv_same s s' :
  owned_frames s' ≡ₚ owned_frames s → ns_seen (se_s s') = ns_seen (se_s s) → keys_inv s → keys_inv s'.
Proof.
  intros Ho Hs [Honce Hseen]. split; [by rw /executions Ho |].
  intros i Hi. rw Hs Hseen // /executions Ho //.
Qed.
Lemma keys_inv_accept s s' input :
  keys_inv s → (messageID input ≠ "" → is_human input) → (dedupe input → messageKey input ∉ ns_seen (se_s s)) →
  owned_frames s' ≡ₚ input :: owned_frames s → ns_seen (se_s s') = ns_seen (se_s (reserve_key s input)) → keys_inv s'.
Proof.
  intros [Honce Hseen] Hk Hnew Ho Hs. rw /reserve_key in Hs.
  assert (executions (owned_frames s') ≡ₚ executions (input :: owned_frames s)) as He by by rw /executions Ho.
  rw /dedupe in Hs, Hnew. destruct (String.eqb_spec (messageID input) "") as [Hid|Hid]; simpl in Hs, Hnew.
  - assert (executions (input :: owned_frames s) = executions (owned_frames s)) as Heq.
    { rw /executions /= /execution_of. by rw Hid. }
    rw Heq in He. split; [by rw He |]. intros i Hi. rw Hs Hseen // He //.
  - rw (Is_true_true_1 _ (Hk Hid)) /= in Hs, Hnew. pose proof (Hnew I) as Hn.
    assert (executions (input :: owned_frames s) = (messageID input, attempt_of input) :: executions (owned_frames s)) as Heq.
    { rw /executions /= execution_of_some //. }
    rw Heq in He. rw Hseen // execution_elem // in Hn. split; [rw He; by constructor |].
    intros i Hi. rw Hs elem_of_union elem_of_singleton messageKey_inj // Hseen // !execution_elem // He elem_of_cons.
    by rw !execution_of_some // (inj_iff Some).
Qed.
Lemma keys_inv_input s i : (messageID i ≠ "" → is_human i) → keys_inv s → keys_inv (deliverInput s i).
Proof.
  intros Hk H. destruct (stamped_same s i) as (Hid & _ & Hh).
  assert (messageID (stamped s i) ≠ "" → is_human (stamped s i)) as Hk' by by rw Hid Hh.
  destruct (deliverInput_case s i) as [| |Hnew|Hnew]; [done | | |].
  - pose proof (untouched_moves _ _ (untouched_emitInputStatus s (stamped s i) "received" "")) as [].
    by apply (keys_inv_same s).
  - apply (keys_inv_accept s _ (stamped s i)); [done.. | apply refuse_input_owned | done].
  - set (s1 := queue_input _ _).
    pose proof (untouched_moves _ _ (untouched_emitInputStatus s1 (stamped s i) "received" "")) as [].
    apply (keys_inv_accept s _ (stamped s i)); [done.. | | by rw mv_seen0].
    rw mv_owned0. apply queue_input_owned.
Qed.
Lemma elem_of_tail {A} (x y : A) (l : list A) : y ∉ l → (x = y ∨ x ∈ l) ∧ x ≠ y ↔ x ∈ l.
Proof. intros Hn. split; [by intros [[|] ?] |]. intros H. split; [by right |]. by intros ->. Qed.
Lemma keys_inv_report s k s' : reportInputFailure s k = Some s' → keys_inv s → keys_inv s'.
Proof.
  rw /reportInputFailure. destruct (se_failing s !! k) as [[input reason]|] eqn:Hk; simpl; [|done].
  set (s1 := s <| se_failing := _ |> <| se_failed := _ |>). intros [= <-] [Honce Hseen].
  assert (owned_frames s ≡ₚ input :: owned_frames s1) as Hperm.
  { rw /owned_frames /failing_frames (delete_Permutation (se_failing s) _ _ Hk) /=. solve_Permutation. }
  assert (executions (owned_frames s) ≡ₚ executions (input :: owned_frames s1)) as He by by rw /executions Hperm.
  destruct (String.eqb_spec (messageID input) "") as [Hid|Hid].
  - assert (executions (input :: owned_frames s1) = executions (owned_frames s1)) as Heq.
    { rw /executions /= /execution_of. by rw Hid. }
    rw Heq in He. split; [by rw -He |]. intros i Hi. rw Hseen // He //.
  - assert (executions (input :: owned_frames s1) = (messageID input, attempt_of input) :: executions (owned_frames s1)) as Heq.
    { rw /executions /= execution_of_some //. }
    rw Heq in He. rw He in Honce. apply NoDup_cons in Honce as [Hn Honce].
    set (s2 := s1 <| se_s := _ |>).
    pose proof (untouched_moves _ _ (untouched_emitInputStatus s2 input "failed" reason)) as [].
    eapply keys_inv_same; [exact mv_owned0 | exact mv_seen0 |]. split; [done |].
    intros i Hi. rw elem_of_difference elem_of_singleton messageKey_inj // Hseen // !execution_elem // He elem_of_cons.
    rw !execution_of_some // (inj_iff Some). by apply elem_of_tail.
Qed.
Lemma keys_inv_step s l s' : well_kinded l → keys_inv s → sstep s l = Some s' → keys_inv s'.
Proof.
  intros Hk Hi H. destruct l.
  all: try (edestruct step_moves as []; [exact H | done | done |]; by eapply keys_inv_same).
  - simplify_eq/=. by apply keys_inv_input.
  - by eapply keys_inv_report.
Qed.
Lemma keys_inv_run spec llm ls s : Forall well_kinded ls → srun (new_session spec llm) ls s → keys_inv s.
Proof.
  intros HP H. eapply trace_run_invariant_labels; [apply keys_inv_step | exact HP | | exact H].
  split; [constructor |]. intros i Hi. split; [by intros ?%not_elem_of_empty | by intros ?%not_elem_of_nil].
Qed.

(** C5: Under the hypothesis that only human messages carry a client message
    id (a cancel or eof frame does not: [control_frame_frees_key] is what
    happens otherwise), in every interleaving no execution (id, attempt) of a message is
    written to a runtime twice; a further frame of an execution the node
    holds or has written changes neither queue nor runtimes, and a frame of
    any other execution on a registered session is taken over: queued or, on
    a session without stdin, handed to the failure report. *)
Theorem session_message_once spec llm ls s :
  srun (new_session spec llm) ls s → Forall well_kinded ls →
  NoDup (executions (se_written s)) ∧
  ∀ i, messageID i ≠ "" → is_human i → se_registered s = true →
    if bool_decide ((messageID i, attempt_of i) ∈ executions (owned_frames s))
    then owned_frames (deliverInput s i) = owned_frames s ∧ se_streams (deliverInput s i) = se_streams s
    else owned_frames (deliverInput s i) ≡ₚ stamped s i :: owned_frames s.
Proof.
  intros Hr HP. pose proof (keys_inv_run _ _ _ _ HP Hr) as [Honce Hseen]. split.
  { rw /owned_frames /live_frames /executions -!app_assoc omap_app in Honce. by apply NoDup_app in Honce as []. }
  intros i Hi Hh Hreg. destruct (stamped_same s i) as (Hid & Hat & Hhs).
  assert (dedupe (stamped s i) = true) as Hd.
  { rw /dedupe Hid Hhs. destruct (String.eqb_spec (messageID i) ""); [done | by apply Is_true_true]. }
  assert (messageKey (stamped s i) ∈ ns_seen (se_s s) ↔ (messageID i, attempt_of i) ∈ executions (owned_frames s)) as Hkey.
  { by rw Hseen ?Hid // execution_elem ?Hid ?Hat. }
  rw /deliverInput Hreg -/(stamped s i). simpl negb. rw Hd andb_true_l. case_bool_decide as Hin.
  - rw bool_decide_eq_true_2; [| by apply Hkey].
    pose proof (untouched_emitInputStatus s (stamped s i) "received" "") as [[= _ _ _ Hw Hh' Hp Hf] _].
    split; [by rw /owned_frames /live_frames /hand_frames /failing_frames Hw Hh' Hp Hf |].
    apply emitInputStatus_streams.
  - rw bool_decide_eq_false_2; [| by rw Hkey].
    assert (owned_frames (emitInputStatus (queue_input (reserve_key s (stamped s i)) (stamped s i)) (stamped s i) "received" "")
      ≡ₚ stamped s i :: owned_frames s) as Hq.
    { rw (mv_owned _ _ (untouched_moves _ _ (untouched_emitInputStatus _ _ _ _))).
      apply queue_input_owned. }
    destruct (ns_executor _) as [[]|]; [done | apply refuse_input_owned | done].
Qed.

(** ** Runs that are alive at the same time

    Two things make a second run start beside a live one: the loss of the
    connection, which marks the session startable while its process is still
    exiting, and a start or restart that begins while a restart is waiting
    (by a command, or by the end of provisioning, which starts the runtime from
    its own goroutine).  [overlap] counts them; without one there is never a
    second run. *)
Definition over_phase (ph : run_phase) : bool := bool_decide (ph = RStopped) || bool_decide (ph = RDone).
Definition over (x : run) : bool := over_phase (ru_phase x).
Definition alive (ph : run_phase) : Prop := over_phase ph = false.
Definition live_count (phs : list run_phase) : nat := length (filter alive phs).
Definition live_runs (s : sess) : nat := live_count (map ru_phase (se_runs s)).
Definition is_running (s : sess) : nat := if bool_decide (ns_state (se_s s) = sessionRunning) then 1 else 0.
Definition overlap (s : sess) (l : slabel) : nat :=
  match l with
  | LStopAll => is_running s
  | LStart _ | LRestartBegin => match se_restarts s with [] => 0 | _ => 1 end
  | _ => 0
  end.
Fixpoint overlaps (s : sess) (ls : list slabel) : nat :=
  match ls with
  | [] => 0
  | l :: ls => overlap s l + match sstep s l with Some s' => overlaps s' ls | None => 0 end
  end.
(** What a step does to the lifecycle state. *)
Definition life (s : sess) := (ns_run (se_s s), ns_state (se_s s), se_restarts s, map ru_phase (se_runs s)).
(** Restarts that wait behind another one. *)
Definition queued_restarts (s : sess) : nat := pred (length (se_restarts s)).
(** The run a restart found, if any, is over. *)
Definition ended (s : sess) (found : option nat) : Prop :=
  match found with Some r => ∀ ph, phase_of s r = Some ph → ¬ alive ph | None => True end.
Record lives (e : nat) (s : sess) : Prop := {
  lv_bound : live_runs s + queued_restarts s ≤ e + is_running s;
  lv_current : ns_state (se_s s) = sessionRunning → ∃ r ph, ns_run (se_s s) = Some r ∧ phase_of s r = Some ph ∧ alive ph;
  lv_found found : found ∈ se_restarts s → ended s found → live_runs s + queued_restarts s ≤ e
}.
#[local] Instance alive_dec ph : Decision (alive ph).
Proof. unfold alive. apply _. Defined.
Lemma live_count_insert phs r ph ph' : phs !! r = Some ph →
  live_count (<[r := ph']> phs) + (if over_phase ph then 0 else 1) = live_count phs + (if over_phase ph' then 0 else 1).
Proof.
  unfold live_count, alive. revert r. induction phs as [|x phs IH]; intros [|r]; try done; cbn [lookup list_lookup].
  - intros [= ->]. cbn. destruct (over_phase ph) eqn:E1, (over_phase ph') eqn:E2; cbn; repeat case_decide; cbn in *; try done; lia.
  - intros H. specialize (IH r H). change (<[S r := ph']> (x :: phs)) with (x :: <[r := ph']> phs).
    rw !filter_cons. destruct (decide (over_phase x = false)); cbn [length]; lia.
Qed.
Lemma phase_of_life s r : phase_of s r = map ru_phase (se_runs s) !! r.
Proof. by rw /phase_of list_lookup_fmap. Qed.
Lemma lives_same e s s' : life s' = life s → lives e s → lives e s'.
Proof.
  intros [= Hr Hst Hre Hph] [Hb Hc Hf].
  assert (∀ r, phase_of s' r = phase_of s r) as Hp by (intros r; by rw !phase_of_life Hph).
  split; rw /live_runs /queued_restarts /is_running ?Hst ?Hre ?Hph ?Hr.
  - exact Hb.
  - intros H. destruct (Hc H) as (r & ph & H1 & H2 & H3). exists r, ph. by rw Hp.
  - intros found Hin He. apply (Hf found Hin). destruct found as [r|]; [|done]. intros ph. rw -Hp. apply He.
Qed.
Lemma lives_more e e' s : e ≤ e' → lives e s → lives e' s.
Proof. intros He [Hb Hc Hf]. split; [lia|done|]. intros found Hin Hend. specialize (Hf found Hin Hend). lia. Qed.
Lemma set_phase_of s r ph r' : phase_of (set_phase s r ph) r' =
  if bool_decide (r = r') then (λ _, ph) <$> phase_of s r' else phase_of s r'.
Proof.
  rw /phase_of /set_phase /=. case_bool_decide as Hr.
  - subst. rw list_lookup_alter_eq. by destruct (se_runs s !! r').
  - by rw list_lookup_alter_ne.
Qed.
Lemma live_set_phase s r ph ph' : phase_of s r = Some ph →
  live_runs (set_phase s r ph') + (if over_phase ph then 0 else 1) = live_runs s + (if over_phase ph' then 0 else 1).
Proof.
  intros Hp. rw phase_of_life in Hp. rw -(live_count_insert _ _ _ ph' Hp). do 2 f_equal. rw /live_runs /set_phase /=. f_equal.
  apply list_eq. intros i. rw list_lookup_fmap. destruct (decide (i = r)) as [->|Hi].
  - rw list_lookup_alter_eq list_lookup_insert_eq; [|by eapply lookup_lt_Some].
    rw list_lookup_fmap in Hp. by destruct (se_runs s !! r).
  - by rw list_lookup_alter_ne // list_lookup_insert_ne // list_lookup_fmap.
Qed.
(** A run that is alive moves on and stays alive. *)
Lemma lives_phase e s s' r ph ph' :
  life s' = life (set_phase s r ph') → phase_of s r = Some ph → alive ph → alive ph' → lives e s → lives e s'.
Proof.
  intros Hl Hp Ha Ha' [Hb Hc Hf]. apply (lives_same _ _ _ Hl).
  pose proof (live_set_phase s r ph ph' Hp) as Hn. rw Ha Ha' in Hn.
  assert (live_runs (set_phase s r ph') = live_runs s) as Hlive by lia.
  split; rw ?Hlive; [exact Hb| |].
  - intros H. destruct (Hc H) as (r0 & ph0 & H1 & H2 & H3). exists r0. rw set_phase_of. case_bool_decide.
    + subst r0. exists ph'. rw Hp. done.
    + exists ph0. done.
  - intros found Hin He. apply (Hf found Hin). destruct found as [r0|]; [|done]. intros ph0 Hp0.
    destruct (decide (r = r0)) as [<-|Hne].
    + exfalso. apply (He ph'); [|done]. rw set_phase_of bool_decide_eq_true_2 // Hp. done.
    + apply He. by rw set_phase_of bool_decide_eq_false_2.
Qed.
(** A start adds a run only when the session is not in the running state. *)
Lemma lives_start e s sel : lives e s → 
  (ns_state (se_s s) ≠ sessionRunning → se_restarts s ≠ [] → live_runs s + queued_restarts s < e) → lives e (startRuntime s sel).1.
Proof.
  intros Hl Hpend. pose proof Hl as [Hb Hc Hf]. rw /startRuntime. destruct (se_registered s); [simpl | done].
  assert (ns_state (se_s s) ≠ sessionRunning → ∀ s' x, life s' = (Some (length (se_runs s)), sessionRunning, se_restarts s,
    map ru_phase (se_runs s ++ [mkRun x RSpawning false])) → lives e s') as Hnew.
  { intros Hst s' x [= Hr Hst' Hre Hph].
    assert (live_runs s' = live_runs s + 1) as Hlive.
    { rw /live_runs Hph map_app. unfold live_count. rw filter_app length_app. done. }
    rw /is_running bool_decide_eq_false_2 // in Hb.
    split; rw ?Hlive /queued_restarts ?Hre; fold (queued_restarts s).
    - rw /is_running Hst' bool_decide_eq_true_2 //. lia.
    - intros _. exists (length (se_runs s)), RSpawning. rw Hr phase_of_life Hph map_app lookup_app_r length_map // Nat.sub_diag. done.
    - intros found Hin _. assert (se_restarts s ≠ []) as Hne by (intros Hnil; rw Hnil in Hin; by apply not_elem_of_nil in Hin).
      specialize (Hpend Hst Hne). lia. }
  destruct (ns_state (se_s s)) eqn:Hst; try done; (destruct sel; [by eapply Hnew|by apply (lives_same _ s)]).
Qed.
Lemma lives_restart e s k reset sel p : restart_finish s k reset sel = Some p → lives e s → lives e p.1.
Proof.
  intros (found & Hf & Hov & Hp)%restart_finish_inv [Hb Hc Hfd].
  assert (live_runs s + queued_restarts s ≤ e) as Hle.
  { apply (Hfd found); [by apply list_elem_of_lookup; exists k|]. destruct found as [r|]; [|done].
    intros ph Hph. rw /run_over Hph in Hov. go_bool. simplify_eq. rw /alive /=. done. }
  assert (length (delete k (se_restarts s)) = pred (length (se_restarts s))) as Hlen.
  { pose proof (lookup_lt_Some _ _ _ Hf). rw length_delete; [|done]. lia. }
  assert (∀ s', life s' = (ns_run (se_s s), ns_state (se_s s'), delete k (se_restarts s), map ru_phase (se_runs s)) →
    (ns_state (se_s s') = sessionRunning → ns_state (se_s s) = sessionRunning) → lives e s' ∧
    (ns_state (se_s s') ≠ sessionRunning → se_restarts s' ≠ [] → live_runs s' + queued_restarts s' < e)) as Hgo.
  { intros s' [= Hr Hre Hph] Hrun.
    assert (live_runs s' = live_runs s) as Hlive by (by rw /live_runs Hph).
    assert (queued_restarts s' = pred (queued_restarts s)) as Hq by (by rw /queued_restarts Hre Hlen).
    split.
    - split; rw ?Hlive ?Hq.
      + lia.
      + intros H. destruct (Hc (Hrun H)) as (r & ph & H1 & H2 & H3). exists r, ph. rw Hr !phase_of_life Hph -phase_of_life. done.
      + intros _ _ _. lia.
    - intros _ Hne. rw Hlive Hq. assert (0 < queued_restarts s); [|lia]. rw /queued_restarts -Hlen -Hre.
      destruct (se_restarts s'); [done|cbn; lia]. }
  destruct Hp as [->| ->].
  - apply Hgo; done.
  - apply lives_start; apply Hgo; done.
Qed.
Lemma emitInputStatus_life s i status reason : life (emitInputStatus s i status reason) = life s.
Proof. rw /emitInputStatus. by destruct (String.eqb _ _), (se_registered s). Qed.
Lemma update_stream_life s x f : life (update_stream s x f) = life s.
Proof. by destruct x. Qed.
Lemma cancel_run_life s r : life (cancel_run s r) = life s.
Proof. destruct r as [r|]; [| done]. rw /life /=. f_equal. by apply map_alter_same. Qed.
Lemma input_life s i : life (deliverInput s i) = life s.
Proof.
  assert (∀ x, life (reserve_key s x) = life s) as Hk by (intros x; rw /reserve_key; by destruct (dedupe x)).
  destruct (deliverInput_case s i); [done | apply emitInputStatus_life | apply Hk |].
  rw emitInputStatus_life -(Hk (stamped s i)) //.
Qed.
(** The labels of the input pipeline and of the configuration. *)
Lemma pipeline_life s l s' : sstep s l = Some s' →
  match l with LInput _ | LTake | LDeliver _ | LReport _ | LConfigure _ _ _ _ | LDeleteFinish => life s' = life s | _ => True end.
Proof.
  intros H. destruct l; try done; simpl in H; [step_inv H; apply input_life | ..].
  - rw /drain_take in H. repeat case_match; step_inv H; done.
  - rw /drain_deliver in H. repeat case_match; step_inv H; repeat case_match; by simplify_eq.
  - rw /reportInputFailure in H. destruct (se_failing s !! k) as [[input reason]|]; simpl in H; [|done].
    injection H as <-. destruct (String.eqb _ _); [done | by rw emitInputStatus_life].
  - rw /delete_finish in H. by step_inv H.
  - step_inv H. rw /life /=. rw /configure. destruct cmd, wr; simpl; try done; by destruct (isSystemEnv _), file.
Qed.
Lemma is_running_le s : is_running s ≤ 1.
Proof. rw /is_running. case_bool_decide; lia. Qed.
Lemma lives_stop e s r s' : markStopped s r = Some s' → lives e s → lives e s'.
Proof.
  rw /markStopped. destruct (se_runs s !! r) as [x|] eqn:Hx; simpl; [|done]. case_bool_decide as Hph; [|done].
  intros [= <-] [Hb Hc Hf]. assert (phase_of s r = Some RFailed) as Hp by by rw /phase_of Hx /= Hph.
  pose proof (live_set_phase s r RFailed RStopped Hp : _ + 1 = _ + 0) as Hn.
  set (s1 := if bool_decide _ then _ else _).
  assert (live_runs s1 = live_runs (set_phase s r RStopped)) as H1 by (subst s1; by destruct (bool_decide _)).
  assert (queued_restarts s1 = queued_restarts s) as H2 by (subst s1; by destruct (bool_decide _)).
  assert (ns_state (se_s s1) ≠ sessionRunning) as H3.
  { subst s1. case_bool_decide; [done|]. done. }
  pose proof (is_running_le s) as H4.
  split; [|by intros ?%H3|intros _ _ _]; lia.
Qed.
(** A run that is over closes runDone. *)
Lemma lives_ended e s r : phase_of s r = Some RStopped → lives e s → lives e (set_phase s r RDone).
Proof.
  intros Hp [Hb Hc Hf]. pose proof (live_set_phase s r RStopped RDone Hp : _ + 0 = _ + 0) as Hn.
  assert (live_runs (set_phase s r RDone) = live_runs s) as Hlive by lia.
  split; rw ?Hlive; [exact Hb| |].
  - intros H. destruct (Hc H) as (r0 & ph0 & H1 & H2 & H3). exists r0, ph0. rw set_phase_of bool_decide_eq_false_2 //.
    intros <-. rw Hp in H2. by injection H2 as <-.
  - intros found Hin He. apply (Hf found Hin). destruct found as [r0|]; [|done]. intros ph0 Hp0.
    destruct (decide (r = r0)) as [<-|Hne].
    + rw Hp in Hp0. by injection Hp0 as <-.
    + apply He. by rw set_phase_of bool_decide_eq_false_2.
Qed.
Lemma lives_restart_begin e s : lives e s → lives (e + overlap s LRestartBegin) (restart_begin s).
Proof.
  intros Hl. rw /restart_begin. destruct (se_registered s); [|eapply lives_more; [|exact Hl]; lia].
  eapply lives_same; [apply cancel_run_life|]. destruct Hl as [Hb Hc Hf].
  set (s1 := s <| se_restarts := _ |>).
  assert (queued_restarts s1 = queued_restarts s + overlap s LRestartBegin) as Hq.
  { rw /queued_restarts /s1 /= length_app /=. destruct (se_restarts s); cbn; lia. }
  change (live_runs s1) with (live_runs s) in *.
  split; rw ?Hq; change (live_runs s1) with (live_runs s); change (is_running s1) with (is_running s); [lia|exact Hc|].
  intros found [Hin|Hin]%elem_of_app He.
  - specialize (Hf found Hin He). lia.
  - apply list_elem_of_singleton in Hin as ->. destruct (decide (ns_state (se_s s) = sessionRunning)) as [Hst|Hst].
    + exfalso. destruct (Hc Hst) as (r & ph & Hr & Hp & Ha). rw Hr in He. by apply (He ph).
    + rw /is_running bool_decide_eq_false_2 // in Hb. lia.
Qed.
(** The loss of the connection: the session may be started again at once. *)
Lemma lives_stopAll e s : lives e s → lives (e + is_running s) (stopAll s).
Proof.
  intros Hl. rw /stopAll. destruct (se_registered s); cbn [negb]; [|eapply lives_more; [|exact Hl]; lia].
  eapply lives_same; [apply cancel_run_life|]. case_bool_decide as Hst; [|eapply lives_more; [|exact Hl]; lia].
  destruct Hl as [Hb Hc Hf]. split; [|done|].
  - change (live_runs s + queued_restarts s ≤ e + is_running s + 0). lia.
  - intros found _ _. exact Hb.
Qed.
Lemma lives_step e s l s' : lives e s → sstep s l = Some s' → lives (e + overlap s l) s'.
Proof.
  intros Hi H. pose proof (pipeline_life _ _ _ H) as Hl. destruct l; simpl in H; cbn [overlap]; rw ?Nat.add_0_r.
  all: try by apply (lives_same _ s).
  all: clear Hl; rw ?/run_attached ?/run_spawned ?/run_spawn_failed ?/run_exited ?/run_result ?/run_done
          ?/provisioned ?/removeFailedSession ?/delete_begin ?/delete_finish in H; step_inv H; go_bool.
  - case_bool_decide as Hst; [|by apply (lives_same _ s)]. destruct Hi as [Hb Hc Hf]. split; [|done|exact Hf].
    rw /is_running Hst /= in Hb. exact Hb.
  - by apply (lives_same _ s).
  - apply lives_start.
    + eapply lives_more; [|exact Hi]. lia.
    + intros Hst Hne. destruct Hi as [Hb _ _]. rw /is_running bool_decide_eq_false_2 // in Hb.
      destruct (se_restarts s); [done|]. lia.
  - eapply (lives_phase _ s _ r _ RAttached); [apply update_stream_life | by rw /phase_of E | by rw H | done..].
  - assert (alive (ru_phase r0)).
    { rw E0. rw /start_phase. by destruct (is_stream _). }
    eapply (lives_phase _ s _ r _ RRunning); [apply update_stream_life | by rw /phase_of E | done..].
  - assert (alive (ru_phase r0)) by (by destruct E0 as [->| ->]).
    eapply (lives_phase _ s _ r _ RFailed); [| by rw /phase_of E | done..].
    destruct (bool_decide (ru_phase r0 = RAttached)); [| done]. by destruct (ru_exec r0).
  - eapply (lives_phase _ s _ r RRunning RExited); [apply update_stream_life | by rw /phase_of E /= E0 | done..].
  - by eapply (lives_phase _ s _ r RExited RFailed); [| rw /phase_of E /= E0 | ..].
  - by eapply lives_stop.
  - apply lives_ended; [|done]. by rw /phase_of E /= E0.
  - by apply lives_restart_begin.
  - by eapply lives_restart.
  - by apply lives_stopAll.
  - apply (lives_same _ s); [| done]. rw /life /= map_map //.
Qed.
Lemma lives_run e s ls s' : lives e s → srun s ls s' → lives (e + overlaps s ls) s'.
Proof.
  intros Hi Hr. revert e Hi. induction Hr as [s|s s1 s2 l ls Hstep Hr IH]; intros e Hi; [by rw Nat.add_0_r|].
  cbn [overlaps]. rw Hstep Nat.add_assoc. apply IH. by apply lives_step.
Qed.
Lemma two_live phs r r' ph ph' :
  phs !! r = Some ph → alive ph → phs !! r' = Some ph' → alive ph' → r' ≠ r → 2 ≤ live_count phs.
Proof.
  intros H Ha H' Ha' Hne. pose proof (live_count_insert phs r ph RDone H) as H1.
  pose proof (live_count_insert (<[r := RDone]> phs) r' ph' RDone) as H2.
  rw list_lookup_insert_ne // in H2. specialize (H2 H'). rw Ha in H1. rw Ha' in H2.
  change (over_phase RDone) with true in H1, H2. cbv iota in H1, H2. lia.
Qed.

(** C8: In every interleaving, the runs of a session that are alive (spawning,
    attached, running, or exited but not yet marked stopped) are at most one
    more than the overlaps so far: the losses of the connection while a run
    was current, and the starts and restarts that began while a restart was
    waiting for the old run, the automatic start after provisioning
    included.  When there was no overlap, a live run is the only one, it is
    the session's current run, and the session is in the running state. *)
Theorem session_one_live_run spec llm ls s :
  srun (new_session spec llm) ls s →
  live_runs s ≤ 1 + overlaps (new_session spec llm) ls ∧
  (overlaps (new_session spec llm) ls = 0 → ∀ r x, se_runs s !! r = Some x → over x = false →
    ns_run (se_s s) = Some r ∧ ns_state (se_s s) = sessionRunning ∧
    ∀ r' x', se_runs s !! r' = Some x' → over x' = false → r' = r).
Proof.
  intros Hr. assert (lives 0 (new_session spec llm)) as Hi.
  { split; [done..|]. by intros found ?%not_elem_of_nil. }
  destruct (lives_run 0 _ _ _ Hi Hr) as [Hb Hc _]. cbn [Nat.add] in Hb. pose proof (is_running_le s) as Hle. split; [lia|].
  intros H0 r x Hx Ho. rw H0 in Hb.
  assert (∀ r x, se_runs s !! r = Some x → map ru_phase (se_runs s) !! r = Some (ru_phase x)) as Hm.
  { intros r' x' H. by rw list_lookup_fmap H. }
  assert (∀ r' x', se_runs s !! r' = Some x' → over x' = false → r' = r) as Huniq.
  { intros r' x' Hx' Ho'. destruct (decide (r' = r)) as [|Hne]; [done|].
    pose proof (two_live _ _ _ _ _ (Hm _ _ Hx) Ho (Hm _ _ Hx') Ho' Hne) as H2. fold (live_runs s) in H2. lia. }
  assert (1 ≤ live_runs s) as H1.
  { pose proof (live_count_insert _ _ _ RDone (Hm _ _ Hx)) as H1. rw /over in Ho. rw Ho in H1.
    change (over_phase RDone) with true in H1. cbv iota in H1. fold (live_runs s) in H1. lia. }
  assert (ns_state (se_s s) = sessionRunning) as Hst.
  { rw /is_running in Hb. case_bool_decide; [done|lia]. }
  destruct (Hc Hst) as (r0 & ph & Hr0 & Hp & Ha). rw /phase_of in Hp.
  destruct (se_runs s !! r0) as [x0|] eqn:E; [|done]. injection Hp as <-. split_and!; [|done|exact Huniq]. by rw Hr0 (Huniq r0 x0 E Ha).
Qed.

(** ** Configuration commands *)
Lemma recordRevision_spec s revision :
  recordRevisionLocked s revision =
  (s <| ns_appliedRevision := Z.max (ns_appliedRevision s) revision |>
     <| ns_effectiveRevision := Z.max (ns_appliedRevision s) revision |>,
   mkConfigResult (Z.max (ns_appliedRevision s) revision) (Z.max (ns_appliedRevision s) revision) false).
Proof.
  rw /recordRevisionLocked. destruct (ns_appliedRevision s <? revision)%Z eqn:E; go_bool.
  - by rw Z.max_r; [| lia].
  - by rw Z.max_l; [| lia].
Qed.
Definition readable (file : activation_file) : Prop := match file with ActUnreadable _ => False | _ => True end.
(** Two commands in a row, each with the outcome of its write. *)
Definition configure2 (s : nodeSession) (file : activation_file) (c1 : config_cmd * Z) (c2 : config_cmd * Z)
  : nodeSession * activation_file :=
  let '(s1, file1, _) := configure s file c1.1 c1.2 None in
  let '(s2, file2, _) := configure s1 file1 c2.1 c2.2 None in (s2, file2).

Definition at_revision (s : nodeSession) (m : Z) : nodeSession :=
  s <| ns_appliedRevision := m |> <| ns_effectiveRevision := m |>.
Definition file_lists (file : activation_file) : list string * list string :=
  match file with ActParsed sk pl => (default [] sk, default [] pl) | _ => ([], []) end.
Lemma configure_skills s file names r : isSystemEnv (ns_spec s) = true → readable file →
  (configure s file (ApplySkills names) r None).1 =
  (at_revision s (Z.max (ns_appliedRevision s) r),
   ActParsed (Some (normalizeActivationNames (trimmed_names names))) (Some (file_lists file).2)).
Proof.
  intros He Hf. rw /configure He. destruct file; [| done |]; rw /writeRuntimeActivationConfig recordRevision_spec //.
Qed.
Lemma configure_plugins s file names r : isSystemEnv (ns_spec s) = true → readable file →
  (configure s file (ApplyPlugins names) r None).1 =
  (at_revision s (Z.max (ns_appliedRevision s) r),
   ActParsed (Some (file_lists file).1) (Some (normalizeActivationNames (trimmed_names names)))).
Proof.
  intros He Hf. rw /configure He. destruct file; [| done |]; rw /writeRuntimeActivationConfig recordRevision_spec //.
Qed.
Lemma configure2_eq s file c1 c2 s1 file1 :
  (configure s file c1.1 c1.2 None).1 = (s1, file1) →
  configure2 s file c1 c2 = (configure s1 file1 c2.1 c2.2 None).1.
Proof.
  rw /configure2. destruct (configure s file _ _ _) as [[]]. intros [= -> ->]. by destruct (configure s1 _ _ _ _) as [[]].
Qed.

(** A config command that fails leaves the
    activation file and the revisions alone; one that succeeds makes the
    larger of the two revisions both applied and effective and never asks for
    a restart.  On a system environment the skill and the plugin commands
    commute: in either order the file ends with both lists and the session
    with the largest revision. *)
Theorem session_config_commands s file cmd revision wr :
  match configure s file cmd revision wr with
  | (s', file', Err _) =>
      file' = file ∧ ns_appliedRevision s' = ns_appliedRevision s ∧ ns_effectiveRevision s' = ns_effectiveRevision s
  | (s', _, Ok r) =>
      let m := Z.max (ns_appliedRevision s) revision in
      ns_appliedRevision s' = m ∧ ns_effectiveRevision s' = m ∧ r = mkConfigResult m m false
  end ∧
  ∀ skills plugins r1 r2, isSystemEnv (ns_spec s) = true → readable file →
    configure2 s file (ApplySkills skills, r1) (ApplyPlugins plugins, r2) =
    configure2 s file (ApplyPlugins plugins, r2) (ApplySkills skills, r1) ∧
    (configure2 s file (ApplySkills skills, r1) (ApplyPlugins plugins, r2)).2 =
      ActParsed (Some (normalizeActivationNames (trimmed_names skills)))
                (Some (normalizeActivationNames (trimmed_names plugins))).
Proof.
  split.
  - rw /configure. destruct cmd, wr; rw ?recordRevision_spec //=;
      destruct (isSystemEnv _), file; rw ?recordRevision_spec //=.
  - intros skills plugins r1 r2 Henv Hf.
    rw (configure2_eq _ _ (ApplySkills skills, r1) _ _ _ (configure_skills s file skills r1 Henv Hf)).
    rw (configure2_eq _ _ (ApplyPlugins plugins, r2) _ _ _ (configure_plugins s file plugins r2 Henv Hf)).
    rw configure_skills // configure_plugins //. split; [| done]. f_equal.
    rw /at_revision /=. by rw -!Z.max_assoc (Z.max_comm r1 r2).
Qed.

(** ** Concrete runs *)
Fixpoint steps (s : sess) (ls : list slabel) : option sess :=
  match ls with [] => Some s | l :: ls => s' ← sstep s l; steps s' ls end.
Lemma steps_srun s ls s' : steps s ls = Some s' → srun s ls s'.
Proof.
  revert s. induction ls as [|l ls IH]; simpl; intros s; [intros [= ->]; constructor |].
  destruct (sstep s l) as [s1|] eqn:Hs; simpl; [|done]. intros. econstructor; [exact Hs | by apply IH].
Qed.
Module SessionRuns.
Definition spec : NodeCreateSession :=
  mkCreate "s1" "t1" "claude" ∅ "" "" None "" "" true false "" "" [] [].
Definition s0 : sess := new_session spec None.
Definition msg (id text : string) (attempt : N) : NodeSessionInput := mkInput "" text id attempt "" "" None.
Definition stream : result exec_kind := Ok KStream.
Definition up (r : nat) : list slabel := [LStart stream; LAttached r; LSpawned r].
Definition down (r : nat) : list slabel := [LExited r; LResult r 0 None; LStopped r; LDone r].
Definition phases (s : sess) : list run_phase := map ru_phase (se_runs s).
End SessionRuns.

(** A drop and a start while the old process is still exiting: two runs are
    alive; the old run's end fails the message queued for the new one and
    marks the session stopped, so that a further start spawns a third
    process beside the second. *)
Lemma reconnect_overlaps_runs :
  ∃ s, steps SessionRuns.s0
         (LProvisioned :: SessionRuns.up 0 ++ [LStopAll; LStart SessionRuns.stream; LInput (SessionRuns.msg "m" "hi" 1);
          LExited 0; LResult 0 0 None; LReport 0; LStopped 0; LAttached 1; LSpawned 1; LStart SessionRuns.stream]) = Some s ∧
    SessionRuns.phases s = [RStopped; RRunning; RSpawning] ∧
    se_failed s = [SessionRuns.msg "m" "hi" 1] ∧ ns_pending (se_s s) = [].
Proof. eexists. split; [vm_compute; reflexivity |]. done. Qed.

(** A restart waits for the old run, provisioning ends and starts the runtime
    from its own goroutine, and the restart starts it again: two runs are
    alive although each command came after the answer to the one before. *)
Lemma autostart_overlaps_restart :
  ∃ s, steps SessionRuns.s0 [LRestartBegin; LProvisioned; LStart SessionRuns.stream; LRestart 0 None SessionRuns.stream] = Some s ∧
    SessionRuns.phases s = [RSpawning; RSpawning] ∧ live_runs s = 2.
Proof. eexists. split; [vm_compute; reflexivity |]. done. Qed.

(** A control frame that carries the id and attempt of a message already
    written: its own failed write un-reserves the key of that message, and the
    replay of the message is written a second time. *)
Lemma control_frame_frees_key :
  let cancel := SessionRuns.msg "m" "" 1 <| in_Kind := "cancel" |> in
  ∃ s, steps SessionRuns.s0 (LProvisioned :: SessionRuns.up 0 ++
         [LInput (SessionRuns.msg "m" "hi" 1); LTake; LDeliver None; LInput cancel; LTake; LDeliver (Some "broken pipe"); LReport 0;
          LInput (SessionRuns.msg "m" "hi" 1); LTake; LDeliver None]) = Some s ∧
    map messageKey (se_written s) = ["m:1"; "m:1"].
Proof. eexists. split; [vm_compute; reflexivity |]. done. Qed.

(** A message that arrives between the attachment of stdin and the start
    frame is written before the start frame. *)
Lemma message_before_start_frame :
  ∃ s e, steps SessionRuns.s0 [LProvisioned; LStart SessionRuns.stream; LAttached 0; LInput (SessionRuns.msg "m" "hi" 1);
           LTake; LDeliver None; LSpawned 0] = Some s ∧
    se_streams s = [e] ∧ map fr_type (sx_frames e) = ["human_message"; "start"].
Proof. do 2 eexists. split; [vm_compute; reflexivity |]. split; [reflexivity |]. done. Qed.

(** After a failed spawn the executor stays, its stdin never attached and
    never closed: a message is acknowledged and stays queued, and the drainer
    returns without taking or failing it. *)
Lemma input_after_failed_spawn_sticks :
  ∃ s, steps SessionRuns.s0 [LProvisioned; LStart SessionRuns.stream; LSpawnFailed 0 "no runtime"; LStopped 0; LDone 0;
         LInput (SessionRuns.msg "m" "hi" 1)] = Some s ∧
    ns_pending (se_s s) = [SessionRuns.msg "m" "hi" 1] ∧ status_sent s (SessionRuns.msg "m" "hi" 1) "received" ∧
    SessionRuns.phases s = [RDone] ∧ drain_take s = None.
Proof.
  eexists. split; [vm_compute; reflexivity |]. split; [done |]. split; [| done].
  do 2 eexists. by repeat constructor.
Qed.

(** A message acknowledged during provisioning is still queued, and nothing
    is reported, when provisioning fails and the session is removed; nothing
    that can still happen to the removed session takes it. *)
Lemma provision_failure_abandons_input :
  ∃ s, steps SessionRuns.s0 [LInput (SessionRuns.msg "m" "hi" 1); LProvisionFailed] = Some s ∧
    status_sent s (SessionRuns.msg "m" "hi" 1) "received" ∧
    ns_pending (se_s s) = [SessionRuns.msg "m" "hi" 1] ∧ se_registered s = false ∧
    delete_begin s = None ∧ drain_take s = None ∧ (startRuntime s SessionRuns.stream).1 = s.
Proof.
  eexists. split; [vm_compute; reflexivity |]. split; [| done]. do 2 eexists. by repeat constructor.
Qed.

(** A status sent after deletion restarts the sequence numbers at zero. *)
Lemma deleted_session_restarts_sequence :
  ∃ s, steps SessionRuns.s0 [LInput (SessionRuns.msg "a" "hi" 1); LInput (SessionRuns.msg "b" "ho" 1); LDelete; LDeleteFinish;
         LReport 0; LReport 0] = Some s ∧
    omap (λ e, match e with EStatus seq _ _ _ _ => Some seq | _ => None end) (se_out s) = [0; 1; 0; 0]%Z.
Proof. eexists. split; [vm_compute; reflexivity |]. done. Qed.

(** A restart during provisioning starts the runtime that a start would have
    refused. *)
Lemma restart_overtakes_provisioning :
  ∃ s, steps SessionRuns.s0 [LRestartBegin; LRestart 0 None SessionRuns.stream] = Some s ∧
    se_provisioning s = true ∧ ns_state (se_s s) = sessionRunning ∧ SessionRuns.phases s = [RSpawning] ∧
    steps SessionRuns.s0 [LStart SessionRuns.stream] = Some SessionRuns.s0.
Proof. eexists. split; [vm_compute; reflexivity |]. done. Qed.

Module SessionWitness.
Import SessionRuns.
(** Two messages and a replay: the first is written, the second fails with the exit. *)
Definition trace : list slabel :=
  [LInput (msg "a" "one" 0); LProvisioned] ++ up 0 ++
  [LTake; LDeliver None; LInput (msg "a" "one" 1); LExited 0; LInput (msg "b" "two" 1); LTake; LReport 0; LResult 0 0 None; LStopped 0].
Definition final : sess := Eval vm_compute in default s0 (steps s0 trace).
Lemma session_input_fifo_witness :
  se_accepted final ≡ₚ owned_frames final ++ se_failed final ∧
  length (se_accepted final) = 2 ∧ length (se_written final) = 1 ∧ length (se_failed final) = 1.
Proof.
  split; [| done]. destruct (session_input_fifo spec None trace final) as [H _]; [| exact H].
  apply steps_srun. vm_compute. reflexivity.
Defined.
Lemma session_message_once_witness :
  NoDup (executions (se_written final)) ∧ executions (se_written final) = [("a", 1%N)].
Proof.
  split; [| vm_compute; reflexivity]. destruct (session_message_once spec None trace final) as [H _]; [| | exact H].
  - apply steps_srun. vm_compute. reflexivity.
  - repeat (apply Forall_cons; split; [try exact I; intros _; exact I |]). apply Forall_nil. exact I.
Defined.
Definition restarted : list slabel := LProvisioned :: up 0 ++ [LRestartBegin] ++ down 0 ++ [LRestart 0 None stream].
Definition after_restart : sess := Eval vm_compute in default s0 (steps s0 restarted).
Lemma session_one_live_run_witness :
  ns_run (se_s after_restart) = Some 1 ∧ ns_state (se_s after_restart) = sessionRunning ∧
  length (se_runs after_restart) = 2 ∧ live_runs after_restart = 1.
Proof.
  destruct (session_one_live_run spec None restarted after_restart) as [_ H].
  - apply steps_srun. vm_compute. reflexivity.
  - destruct (H ltac:(vm_compute; reflexivity) 1 (mkRun (XStream 1) RSpawning false)) as (H1 & H2 & _); [reflexivity..|].
    split; [exact H1 |]. split; [exact H2 |]. split; vm_compute; reflexivity.
Defined.
Definition env_session : nodeSession :=
  mkSession (mkCreate "s1" "t1" "claude" ∅ "system" "" None "" "" true false "" "" [] [])
    sessionRunning None "" 3 3 None None 0 ∅ [].
Lemma session_config_commands_witness :
  (configure2 env_session ActMissing (ApplySkills [" a "; ""], 5%Z) (ApplyPlugins ["p"], 4%Z)).2 =
  ActParsed (Some ["a"]) (Some ["p"]).
Proof.
  destruct (session_config_commands env_session ActMissing ApplyMCPs 0 None) as [_ H].
  rw (proj2 (H [" a "; ""] ["p"] 5%Z 4%Z eq_refl I)). vm_compute. reflexivity.
Defined.
End SessionWitness.
