(* ===== verification/Terminal.v ===== *)
(** * Terminal: host shells and their replay buffers (common/agent/terminal.go)

    A [TerminalManager] keeps one [terminalSession] and one bounded
    [terminalBuffer] per open shell.  A pump goroutine per shell reads the
    PTY, numbers each chunk, buffers it and emits it; Attach replays the
    buffer after a reconnect; a reaper closes shells nobody has watched for
    half an hour.  Sessions are heap objects, so pumps and pending calls hold
    pointers (positions in [y_sessions]) and the registry maps ids to them.

    A label of [tstep] is one critical section, one atomic load or store, or
    one outcome of the PTY or of [emit].  [markAttached], [markDetached] and
    the reaper's test are therefore several labels: they are several atomic
    operations in the code.  Get followed by an operation on the session
    (Input, Resize, Close, Interrupt) is one label. *)
From S2P Require Import Prelude GoStrings.
From Stdlib Require Import Ascii.

(** ** Constants *)
Definition defaultTermCols : Z := 80.
Definition defaultTermRows : Z := 24.
Definition termReadChunk : Z := 32 * 1024.
Definition termReplayLimit : Z := 256 * 1024.
Definition termDetachTimeout : Z := 30 * 60 * 10 ^ 9.   (** 30 * time.Minute *)

(** os.UserHomeDir() fails as [None] *)
Definition resolveTerminalCwd (home : option string) (cwd : string) : string :=
  if negb (String.eqb (TrimSpace cwd) "") then TrimSpace cwd
  else default "" home.

(** ** The shell of terminal_unix.go *)
Definition resolveUnixShell (SHELL : string) (stat_ok : string → bool) (requested : string)
  : string * list string :=
  if negb (String.eqb (TrimSpace requested) "") then (TrimSpace requested, ["-l"; "-i"])
  else if negb (String.eqb (TrimSpace SHELL) "") then (TrimSpace SHELL, ["-l"; "-i"])
  else match list_find (λ c, stat_ok c = true) ["/bin/bash"; "/bin/sh"] with
       | Some (_, candidate) => (candidate, ["-l"; "-i"])
       | None => ("/bin/sh", ["-l"; "-i"])
       end.

(** ** terminalBuffer *)
Record terminalEntry := mkEntry { e_seq : Z; e_data : string }.
#[export] Instance terminalEntry_eq_dec : EqDecision terminalEntry.
Proof. solve_decision. Defined.

Record terminalBuffer := mkBuffer { b_entries : list terminalEntry; b_limit : Z; b_size : Z }.
Definition newTerminalBuffer (limit : Z) : terminalBuffer := mkBuffer [] limit 0.

(** the loop [for b.size > b.limit && len(b.entries) > 0] *)
Fixpoint evict (limit size : Z) (es : list terminalEntry) : Z * list terminalEntry :=
  match es with
  | [] => (size, [])
  | e :: es' =>
      if (limit <? size)%Z then evict limit (size - blen (e_data e)) es' else (size, es)
  end.
Definition buffer_append (b : terminalBuffer) (seq : Z) (data : string) : terminalBuffer :=
  let '(size, es) := evict (b_limit b) (b_size b + blen data) (b_entries b ++ [mkEntry seq data]) in
  mkBuffer es (b_limit b) size.

Definition replay (b : terminalBuffer) (afterSeq : Z) : list terminalEntry * bool :=
  match b_entries b with
  | [] => ([], false)
  | e :: _ =>
      (filter (λ e, (afterSeq < e_seq e)%Z) (b_entries b), (uint64_add afterSeq 1 <? e_seq e)%Z)
  end.

(** ** terminalSession *)
Record terminalSession := mkTerm {
  t_id : string;
  t_pty : nat;                  (** the handle startPlatformPTY returned *)
  t_closed : bool;              (** closeOnce has run *)
  t_attached : bool;
  t_detachedAt : Z;             (** unix nanoseconds, 0 when attached *)
  t_seq : Z;                    (** uint64 *)
  t_lineBuf : string;
  t_lastCommand : string;
  t_lastCommandT : option Z;
  t_createdT : Z
}.
#[export] Instance eta_terminalSession : Settable terminalSession := λ t,
  mkTerm (t_id t) (t_pty t) (t_closed t) (t_attached t) (t_detachedAt t) (t_seq t)
    (t_lineBuf t) (t_lastCommand t) (t_lastCommandT t) (t_createdT t).

(** *** recordInput *)
Definition drop_last (s : string) : string :=
  match string_reverse s with String _ r => string_reverse r | EmptyString => "" end.
Definition printable (b : ascii) : bool := (0x20 <=? code b)%N && (code b <? 0x7f)%N.
Definition recordByte (now : Z) (s : terminalSession) (b : ascii) : terminalSession :=
  if is_code 10 b || is_code 13 b then
    let line := TrimSpace (t_lineBuf s) in
    let s1 := s <| t_lineBuf := "" |> in
    if negb (String.eqb line "") then s1 <| t_lastCommand := line |> <| t_lastCommandT := Some now |>
    else s1
  else if is_code 0x7f b || is_code 8 b then s <| t_lineBuf := drop_last (t_lineBuf s) |>
  else if is_code 3 b then s <| t_lineBuf := "" |>
  else if is_code 0x1b b then s
  else if printable b then s <| t_lineBuf := t_lineBuf s +:+ String b "" |>
  else s.
Fixpoint recordInput (now : Z) (s : terminalSession) (data : string) : terminalSession :=
  match data with
  | EmptyString => s
  | String b data' => recordInput now (recordByte now s b) data'
  end.

(** *** status *)
Record terminalStatus := mkStatus {
  st_id : string; st_command : string; st_started : option Z; st_created : Z; st_attached : bool }.
Definition status (s : terminalSession) : terminalStatus :=
  mkStatus (t_id s) (t_lastCommand s) (t_lastCommandT s) (t_createdT s) (t_attached s).

(** ** What the manager does to the outside *)
Inductive frame :=
| TerminalOutput (id data : string) (seq : Z) (truncated : bool)
| TerminalExit (id : string) (exitCode : Z) (err : string)
| TerminalListResult (requestId : string) (terminals : list terminalStatus).

(** Which goroutine emits: a session's pump, a pending Attach, the dispatcher. *)
Inductive origin := FromPump (p : nat) | FromAttach (k : nat) | FromDispatch.
#[export] Instance origin_eq_dec : EqDecision origin.
Proof. solve_decision. Defined.
(** One call of [emit]: who, what, and whether the stream took it. *)
Record emission := mkEmit { m_from : origin; m_frame : frame; m_ok : bool }.

Inductive pty_op :=
| PtyStart (shell cwd : string) (cols rows : Z) (env : list string)
| PtyWrite (data : string)
| PtyResize (cols rows : Z)
| PtyClose.

(** ** Goroutines *)
Inductive pump_pc :=
| PReading
| PEmit (seq : Z) (data : string) (err : bool)   (** buffered, about to emit *)
| PMark1 (err : bool)                            (** emitted: attached.Store(true) *)
| PMark2 (err : bool)                            (** detachedAt.Store(0) *)
| PWait                                          (** the read loop ended *)
| PExit (code : Z) (msg : string)                (** removed, about to emitExit *)
| PDone.
Inductive attach_pc :=
| AFound (p : nat) (id : string) (after : Z)
| AReplay (p : nat) (id : string) (after : Z) (buf : option nat)
| AEmit (p : nat) (id : string) (es : list terminalEntry) (truncated : bool)
| AMark2 (p : nat)
| ADone.
(** DetachAll over its snapshot; the flag is set between Swap and Store. *)
Record detach_pc := mkDetach { d_todo : list nat; d_swapped : bool }.
Inductive reap_pc :=
| RIdle
| RScan (todo : list nat) (loaded : bool) (picked : list nat)   (** holds m.mu *)
| RClose (picked : list nat).

Record tsys := mkTsys {
  y_sessions : list terminalSession;
  y_bufs : list terminalBuffer;
  y_pumps : list pump_pc;
  y_terms : gmap string nat;
  y_buffers : gmap string nat;
  y_opens : list (option (string * nat));   (** Opens between their two checks *)
  y_attaches : list attach_pc;
  y_detaches : list detach_pc;
  y_reap : reap_pc;
  y_npty : nat;
  y_ops : list (nat * pty_op);
  y_log : list emission
}.
#[export] Instance eta_tsys : Settable tsys := λ s,
  mkTsys (y_sessions s) (y_bufs s) (y_pumps s) (y_terms s) (y_buffers s) (y_opens s)
    (y_attaches s) (y_detaches s) (y_reap s) (y_npty s) (y_ops s) (y_log s).

(** NewTerminalManager *)
Definition tinit : tsys := mkTsys [] [] [] ∅ ∅ [] [] [] RIdle 0 [] [].

(** ** State updates *)
Definition upd_session (f : terminalSession → terminalSession) (p : nat) (s : tsys) : tsys :=
  s <| y_sessions := alter f p (y_sessions s) |>.
Definition set_pump (p : nat) (pc : pump_pc) (s : tsys) : tsys :=
  s <| y_pumps := <[p := pc]> (y_pumps s) |>.
Definition set_attach (k : nat) (pc : attach_pc) (s : tsys) : tsys :=
  s <| y_attaches := <[k := pc]> (y_attaches s) |>.
Definition set_detach (k : nat) (pc : detach_pc) (s : tsys) : tsys :=
  s <| y_detaches := <[k := pc]> (y_detaches s) |>.
Definition emit (o : origin) (f : frame) (ok : bool) (s : tsys) : tsys :=
  s <| y_log := y_log s ++ [mkEmit o f ok] |>.
Definition pty_do (h : nat) (op : pty_op) (s : tsys) : tsys :=
  s <| y_ops := y_ops s ++ [(h, op)] |>.
Definition mu_free (s : tsys) : bool :=
  match y_reap s with RScan _ _ _ => false | _ => true end.

(** closeOnce.Do(pty.Close) *)
Definition close (p : nat) (s : tsys) : tsys :=
  match y_sessions s !! p with
  | Some t =>
      if t_closed t then s
      else pty_do (t_pty t) PtyClose (upd_session (λ t, t <| t_closed := true |>) p s)
  | None => s
  end.
Definition remove (id : string) (s : tsys) : tsys :=
  s <| y_terms := delete id (y_terms s) |> <| y_buffers := delete id (y_buffers s) |>.
(** get: an empty id is never looked up *)
Definition get (id : string) (s : tsys) : option nat :=
  if String.eqb id "" then None else y_terms s !! id.
Definition emitOutput (o : origin) (id data : string) (seq : Z) (truncated ok : bool) : tsys → tsys :=
  emit o (TerminalOutput id data seq truncated) ok.
Definition emitExit (o : origin) (id : string) (code : Z) (msg : string) (ok : bool) : tsys → tsys :=
  emit o (TerminalExit id (int32_of code) msg) ok.

(** ** Open *)
Record OpenSpec := mkOpen {
  o_id : string; o_shell : string; o_cwd : string; o_size : option (Z * Z) }.
Definition open_size (size : option (Z * Z)) : Z * Z :=
  match size with
  | None => (defaultTermCols, defaultTermRows)
  | Some (c, r) =>
      (if (0 <? uint16_of c)%Z then uint16_of c else defaultTermCols,
       if (0 <? uint16_of r)%Z then uint16_of r else defaultTermRows)
  end.
(** up to and including startPlatformPTY; [started] is what it returns and
    [ok] the outcome of the exit frame, if one is sent *)
Definition Open_start (spec : OpenSpec) (env : list string) (started : result ()) (ok : bool)
    (s : tsys) : tsys :=
  if String.eqb (o_id spec) "" then s
  else match y_terms s !! o_id spec with
  | Some _ => s
  | None =>
      let '(cols, rows) := open_size (o_size spec) in
      let s1 := pty_do (y_npty s) (PtyStart (o_shell spec) (o_cwd spec) cols rows env) s
                <| y_npty := S (y_npty s) |> in
      match started with
      | Err e => emitExit FromDispatch (o_id spec) (-1) e ok s1
      | Ok _ => s1 <| y_opens := y_opens s ++ [Some (o_id spec, y_npty s)] |>
      end
  end.
Definition new_session (id : string) (h : nat) (now stamp : Z) : terminalSession :=
  mkTerm id h false false stamp 0 "" "" None now.
(** the registration, under m.mu, and the start of the pump *)
Definition Open_register (id : string) (h : nat) (now stamp : Z) (s : tsys) : tsys :=
  match y_terms s !! id with
  | Some _ => pty_do h PtyClose s
  | None =>
      let p := length (y_sessions s) in
      s <| y_sessions := y_sessions s ++ [new_session id h now stamp] |>
        <| y_bufs := y_bufs s ++ [newTerminalBuffer termReplayLimit] |>
        <| y_pumps := y_pumps s ++ [PReading] |>
        <| y_terms := <[id := p]> (y_terms s) |>
        <| y_buffers := <[id := p]> (y_buffers s) |>
  end.

(** ** Attach *)
Definition Attach_find (id : string) (after : Z) (ok : bool) (s : tsys) : tsys :=
  if String.eqb id "" then s
  else match y_terms s !! id with
  | None => emitExit FromDispatch id (-1) "terminal_not_found" ok s
  | Some p => s <| y_attaches := y_attaches s ++ [AFound p id after] |>
  end.
(** replaying, one emit at a time, then the two stores of markAttached *)
Definition Attach_step (k : nat) (pc : attach_pc) (ok : bool) (s : tsys) : option tsys :=
  match pc with
  | AFound p id after => Some (set_attach k (AReplay p id after (y_buffers s !! id)) s)
  | AReplay p id after None => Some (set_attach k (AEmit p id [] false) s)
  | AReplay p id after (Some b) =>
      buf ← y_bufs s !! b;
      let '(es, truncated) := replay buf after in
      Some (set_attach k (AEmit p id es truncated) s)
  | AEmit p id (e :: es) truncated =>
      Some (emitOutput (FromAttach k) id (e_data e) (e_seq e) truncated ok
             (set_attach k (AEmit p id es false) s))
  | AEmit p id [] _ =>
      Some (upd_session (λ t, t <| t_attached := true |>) p (set_attach k (AMark2 p) s))
  | AMark2 p => Some (upd_session (λ t, t <| t_detachedAt := 0%Z |>) p (set_attach k ADone s))
  | ADone => None
  end.

(** ** pump *)
(** one Read of [data] (empty for n = 0), [err] when it also returned an error *)
Definition after_read (err : bool) : pump_pc := if err then PWait else PReading.
Definition pump_read (p : nat) (t : terminalSession) (data : string) (err : bool) (s : tsys) : tsys :=
  if String.eqb data "" then set_pump p (after_read err) s
  else
    let seq := uint64_add (t_seq t) 1 in
    let s1 := upd_session (λ t, t <| t_seq := seq |>) p s in
    let s2 := match y_buffers s !! t_id t with
              | Some b => s1 <| y_bufs := alter (λ b, buffer_append b seq data) b (y_bufs s) |>
              | None => s1
              end in
    set_pump p (PEmit seq data err) s2.
Definition pump_step (p : nat) (t : terminalSession) (pc : pump_pc) (ok : bool) (s : tsys)
  : option tsys :=
  match pc with
  | PEmit seq data err =>
      Some (set_pump p (if ok then PMark1 err else after_read err)
             (emit (FromPump p) (TerminalOutput (t_id t) data seq false) ok s))
  | PMark1 err => Some (upd_session (λ t, t <| t_attached := true |>) p (set_pump p (PMark2 err) s))
  | PMark2 err =>
      Some (upd_session (λ t, t <| t_detachedAt := 0%Z |>) p (set_pump p (after_read err) s))
  | PExit code msg => Some (set_pump p PDone (emitExit (FromPump p) (t_id t) code msg ok s))
  | _ => None
  end.

(** ** Input, Resize, Close, Interrupt, List *)
Definition Input (id data : string) (now : Z) (s : tsys) : tsys :=
  match get id s with
  | None => s
  | Some p =>
      match y_sessions s !! p with
      | None => s
      | Some t => upd_session (λ t, recordInput now t data) p (pty_do (t_pty t) (PtyWrite data) s)
      end
  end.
Definition Resize (id : string) (size : option (Z * Z)) (s : tsys) : tsys :=
  match get id s, size with
  | Some p, Some (c, r) =>
      if (uint16_of c =? 0)%Z || (uint16_of r =? 0)%Z then s
      else match y_sessions s !! p with
           | Some t => pty_do (t_pty t) (PtyResize (uint16_of c) (uint16_of r)) s
           | None => s
           end
  | _, _ => s
  end.
Definition Close (id : string) (s : tsys) : tsys :=
  match get id s with Some p => close p s | None => s end.
(** [wrote] says whether the write of Ctrl-C succeeded *)
Definition Interrupt (id : string) (wrote : bool) (s : tsys) : tsys :=
  match get id s with
  | None => s
  | Some p =>
      match y_sessions s !! p with
      | None => s
      | Some t =>
          let s1 := pty_do (t_pty t) (PtyWrite (String "003" "")) s in
          if wrote then upd_session (λ t, t <| t_lineBuf := "" |>) p s1 else s1
      end
  end.
Section range.
Context `{MapRange nat}.
Definition live_sessions (s : tsys) : list nat := (map_range (y_terms s)).*2.
Definition List_ (requestId : string) (ok : bool) (s : tsys) : tsys :=
  emit FromDispatch
    (TerminalListResult requestId (status <$> omap (λ p, y_sessions s !! p) (live_sessions s))) ok s.
Definition ActiveTerminalIDs (s : tsys) : list string := (map_range (y_terms s)).*1.
Definition CloseAll (s : tsys) : tsys := foldl (λ s p, close p s) s (live_sessions s).
Definition DetachAll (s : tsys) : tsys :=
  s <| y_detaches := y_detaches s ++ [mkDetach (live_sessions s) false] |>.
(** markDetached on the head of the snapshot: Swap(false), then Store(now) *)
Definition Detach_step (k : nat) (pc : detach_pc) (now : Z) (s : tsys) : option tsys :=
  match d_todo pc with
  | [] => None
  | p :: todo =>
      if d_swapped pc then
        Some (upd_session (λ t, t <| t_detachedAt := now |>) p (set_detach k (mkDetach todo false) s))
      else
        t ← y_sessions s !! p;
        if t_attached t then
          Some (upd_session (λ t, t <| t_attached := false |>) p
                 (set_detach k (mkDetach (p :: todo) true) s))
        else Some (set_detach k (mkDetach todo false) s)
  end.

(** ** reapDetached: two loads of detachedAt per session, then the closes *)
Definition Reap_step (now : Z) (s : tsys) : option tsys :=
  match y_reap s with
  | RIdle => Some (s <| y_reap := RScan (live_sessions s) false [] |>)
  | RScan [] _ picked => Some (s <| y_reap := RClose picked |>)
  | RScan (p :: todo) false picked =>
      t ← y_sessions s !! p;
      Some (s <| y_reap := if (t_detachedAt t =? 0)%Z then RScan todo false picked
                           else RScan (p :: todo) true picked |>)
  | RScan (p :: todo) true picked =>
      t ← y_sessions s !! p;
      Some (s <| y_reap :=
        if (now - t_detachedAt t <? termDetachTimeout)%Z then RScan todo false picked
        else RScan todo false (picked ++ [p]) |>)
  | RClose [] => Some (s <| y_reap := RIdle |>)
  | RClose (p :: ps) => Some (close p (s <| y_reap := RClose ps |>))
  end.

Inductive tlabel :=
| LOpen (spec : OpenSpec) (env : list string) (started : result ()) (ok : bool)
| LOpenRegister (k : nat) (now stamp : Z)
| LAttach (id : string) (after : Z) (ok : bool)
| LAttachStep (k : nat) (ok : bool)
| LRead (p : nat) (data : string) (err : bool)
| LPump (p : nat) (ok : bool)
| LWait (p : nat) (code : Z) (msg : string)     (** Wait returned; remove *)
| LInput (id data : string) (now : Z)
| LResize (id : string) (size : option (Z * Z))
| LClose (id : string)
| LInterrupt (id : string) (wrote : bool)
| LList (requestId : string) (ok : bool)
| LCloseAll
| LDetachAll
| LDetachStep (k : nat) (now : Z)
| LReap (now : Z).

(** The labels that take m.mu wait while the reaper holds it. *)
Definition takes_mu (l : tlabel) : bool :=
  match l with
  | LAttachStep _ _ | LRead _ _ _ | LPump _ _ | LDetachStep _ _ | LReap _ => false
  | _ => true
  end.

Definition tstep_body (s : tsys) (l : tlabel) : option tsys :=
  match l with
  | LOpen spec env started ok => Some (Open_start spec env started ok s)
  | LOpenRegister k now stamp =>
      o ← y_opens s !! k;
      '(id, h) ← o;
      Some (Open_register id h now stamp (s <| y_opens := <[k := None]> (y_opens s) |>))
  | LAttach id after ok => Some (Attach_find id after ok s)
  | LAttachStep k ok => pc ← y_attaches s !! k; Attach_step k pc ok s
  | LRead p data err =>
      pc ← y_pumps s !! p;
      t ← y_sessions s !! p;
      match pc with
      | PReading => if (blen data <=? termReadChunk)%Z then Some (pump_read p t data err s) else None
      | _ => None
      end
  | LPump p ok => pc ← y_pumps s !! p; t ← y_sessions s !! p; pump_step p t pc ok s
  | LWait p code msg =>
      pc ← y_pumps s !! p;
      t ← y_sessions s !! p;
      match pc with
      | PWait => Some (set_pump p (PExit code msg) (remove (t_id t) s))
      | _ => None
      end
  | LInput id data now => Some (Input id data now s)
  | LResize id size => Some (Resize id size s)
  | LClose id => Some (Close id s)
  | LInterrupt id wrote => Some (Interrupt id wrote s)
  | LList requestId ok => Some (List_ requestId ok s)
  | LCloseAll => Some (CloseAll s)
  | LDetachAll => Some (DetachAll s)
  | LDetachStep k now => pc ← y_detaches s !! k; Detach_step k pc now s
  | LReap now => Reap_step now s
  end.
Definition tstep (s : tsys) (l : tlabel) : option tsys :=
  if takes_mu l && negb (mu_free s) then None else tstep_body s l.
Definition trun := trace_run (fun_step tstep).
End range.

(** ** Specification vocabulary *)

(** The chunks the shell of session [p] has written. *)
Definition chunk_of (p : nat) (l : tlabel) : list string :=
  match l with
  | LRead q data _ => if bool_decide (p = q) && negb (String.eqb data "") then [data] else []
  | _ => []
  end.
Definition output_of (p : nat) (ls : list tlabel) : list string := ls ≫= chunk_of p.
(** Chunks under their sequence numbers, from 1. *)
Definition numbered (chunks : list string) : list terminalEntry :=
  imap (λ i d, mkEntry (Z.of_nat (S i)) d) chunks.
Definition total (es : list terminalEntry) : Z := foldr (λ e n, (blen (e_data e) + n)%Z) 0%Z es.
(** The longest tail of a stream whose bytes fit. *)
Fixpoint retained (limit : Z) (es : list terminalEntry) : list terminalEntry :=
  match es with
  | [] => []
  | _ :: es' => if (total es <=? limit)%Z then es else retained limit es'
  end.
