(* ===== verification/TerminalProofs.v ===== *)
(** * TerminalProofs: theorems about host terminals

    The buffer of a terminal refines the abstract "longest tail of the output
    that fits" ([retained]); from that follow what a reattach replays and how
    much memory a terminal can hold.  The rest follows the registry, the
    order of a shell's frames, the reaper and the recorded command line. *)
From S2P Require Import Prelude GoStrings Terminal.
From Stdlib Require Import Ascii.

(** ** The buffer *)
Lemma total_nonneg es : (0 ≤ total es)%Z.
Proof. induction es as [|e es IH]; simpl; [done|]. pose proof (blen_nonneg (e_data e)). lia. Qed.
Lemma total_app es1 es2 : (total (es1 ++ es2) = total es1 + total es2)%Z.
Proof. induction es1 as [|e es IH]; simpl; [done|]. rw IH. lia. Qed.

Lemma retained_cons limit e es :
  retained limit (e :: es) = if (total (e :: es) <=? limit)%Z then e :: es else retained limit es.
Proof. done. Qed.
Lemma retained_fit limit es : (total es ≤ limit)%Z → retained limit es = es.
Proof. destruct es as [|e es]; [done|]. intros H%Z.leb_le. by rw retained_cons H. Qed.

Lemma evict_retained limit es :
  evict limit (total es) es = (total (retained limit es), retained limit es).
Proof.
  induction es as [|e es IH]; [done|]. rw retained_cons.
  cbn [evict]. destruct (total (e :: es) <=? limit)%Z eqn:E; go_bool.
  - by rw (proj2 (Z.ltb_ge _ _) E).
  - rw (proj2 (Z.ltb_lt _ _) E).
    replace (total (e :: es) - blen (e_data e))%Z with (total es) by (simpl; lia). done.
Qed.

Lemma retained_snoc limit es e :
  retained limit (retained limit es ++ [e]) = retained limit (es ++ [e]).
Proof.
  induction es as [|x es IH]; [done|]. rw retained_cons.
  destruct (total (x :: es) <=? limit)%Z eqn:E; go_bool; [done|]. rw IH.
  change ((x :: es) ++ [e]) with (x :: (es ++ [e])). rw retained_cons.
  pose proof (total_nonneg [e]). change (x :: (es ++ [e])) with ((x :: es) ++ [e]). rw total_app.
  by rw (proj2 (Z.leb_gt _ _)); [|lia].
Qed.

(** The concrete buffer that represents a stream. *)
Definition buffer_of (limit : Z) (es : list terminalEntry) : terminalBuffer :=
  mkBuffer (retained limit es) limit (total (retained limit es)).

Lemma buffer_append_refines limit es seq data :
  buffer_append (buffer_of limit es) seq data = buffer_of limit (es ++ [mkEntry seq data]).
Proof.
  unfold buffer_append, buffer_of. simpl.
  replace (total (retained limit es) + blen data)%Z
    with (total (retained limit es ++ [mkEntry seq data])) by (rw total_app /=; lia).
  by rw evict_retained retained_snoc.
Qed.

Lemma retained_total limit es : (0 ≤ limit)%Z → (total (retained limit es) ≤ limit)%Z.
Proof.
  intros Hl. induction es as [|e es IH]; [done|]. rw retained_cons.
  by destruct (_ <=? _)%Z eqn:E; go_bool.
Qed.

Lemma retained_drop limit es : ∃ k, retained limit es = drop k es ∧ k ≤ length es.
Proof.
  induction es as [|e es [k [Hk Hl]]]; [by exists 0|]. rw retained_cons.
  destruct (_ <=? _)%Z; [exists 0; split; [done|lia]|]. exists (S k). simpl. split; [done|lia].
Qed.

Lemma retained_nonempty limit es e :
  (blen (e_data e) ≤ limit)%Z → retained limit (es ++ [e]) ≠ [].
Proof.
  intros He. induction es as [|x es IH].
  - rw retained_fit; [done|simpl; lia].
  - change ((x :: es) ++ [e]) with (x :: (es ++ [e])). rw retained_cons. by destruct (_ <=? _)%Z.
Qed.

(** ** Numbered streams *)
Lemma numbered_snoc cs d :
  numbered (cs ++ [d]) = numbered cs ++ [mkEntry (Z.of_nat (S (length cs))) d].
Proof. unfold numbered. rw imap_app /=. by rw Nat.add_0_r. Qed.
Lemma length_numbered cs : length (numbered cs) = length cs.
Proof. apply length_imap. Qed.

Lemma filter_numbered_drop (cs : list string) k (a : Z) :
  (0 ≤ a)%Z →
  filter (λ e, (a < e_seq e)%Z) (drop k (numbered cs)) = drop (Nat.max k (Z.to_nat a)) (numbered cs).
Proof.
  intros Ha. induction cs as [|d cs IH] using rev_ind; [by rw !drop_nil|].
  rw numbered_snoc. rw !drop_app filter_app IH. f_equal. rw length_numbered.
  destruct (decide (k ≤ length cs)) as [Hk|Hk].
  - replace (k - length cs) with 0 by lia. rw drop_0 filter_cons filter_nil /=. case_decide as Hd.
    + replace (_ - length cs) with 0; [done|]. lia.
    + rw drop_ge; [done|]. simpl. lia.
  - rw !drop_ge; [done|simpl; lia|simpl; lia].
Qed.

(** Replaying from the representation of a stream. *)
Lemma head_drop_numbered cs k e es :
  drop k (numbered cs) = e :: es → e_seq e = Z.of_nat (S k).
Proof.
  intros H. assert (numbered cs !! k = Some e) as Hk.
  { rw -(Nat.add_0_r k) -lookup_drop H. done. }
  unfold numbered in Hk. rw list_lookup_imap in Hk.
  destruct (cs !! k); by simplify_eq/=.
Qed.

Lemma replay_numbered limit cs after :
  (0 ≤ after < 2 ^ 64 - 1)%Z →
  retained limit (numbered cs) ≠ [] →
  ∃ k, retained limit (numbered cs) = drop k (numbered cs) ∧
    replay (buffer_of limit (numbered cs)) after =
      (drop (Nat.max k (Z.to_nat after)) (numbered cs), bool_decide (Z.to_nat after < k)).
Proof.
  intros Ha Hne. destruct (retained_drop limit (numbered cs)) as [k [Hk _]].
  exists k. split; [done|]. unfold replay, buffer_of. cbn [b_entries].
  destruct (retained limit (numbered cs)) as [|e es] eqn:E; [done|]. rw Hk.
  f_equal; [apply filter_numbered_drop; lia|].
  symmetry in Hk. rw (head_drop_numbered _ _ _ _ Hk) uint64_add_small; [|lia].
  destruct (Z.ltb_spec (after + 1) (Z.of_nat (S k))); symmetry;
    [apply bool_decide_eq_true|apply bool_decide_eq_false]; lia.
Qed.

(** ** The invariant of the manager *)
Definition alive (pc : pump_pc) : bool :=
  match pc with PExit _ _ | PDone => false | _ => true end.
(** The frames of one pump. *)
Definition pump_frames (p : nat) (log : list emission) : list frame :=
  m_frame <$> filter (λ m, m_from m = FromPump p) log.
Definition outputs (id : string) (es : list terminalEntry) : list frame :=
  (λ e, TerminalOutput id (e_data e) (e_seq e) false) <$> es.
(** What a pump at [pc] has emitted of the chunks it read. *)
Definition frames_ok (id : string) (pc : pump_pc) (cs : list string) (fs : list frame) : Prop :=
  match pc with
  | PEmit seq data _ =>
      ∃ pre, cs = pre ++ [data] ∧ seq = Z.of_nat (length cs) ∧ fs = outputs id (numbered pre)
  | PDone => ∃ code msg, fs = outputs id (numbered cs) ++ [TerminalExit id code msg]
  | _ => fs = outputs id (numbered cs)
  end.

Definition skey (t : terminalSession) : string * Z := (t_id t, t_seq t).

Record tinv (ls : list tlabel) (s : tsys) : Prop := {
  ti_pumps : length (y_pumps s) = length (y_sessions s);
  ti_bufs : length (y_bufs s) = length (y_sessions s);
  ti_terms id p : y_terms s !! id = Some p →
    ∃ t pc, y_sessions s !! p = Some t ∧ t_id t = id ∧ y_pumps s !! p = Some pc ∧ alive pc = true;
  ti_reg p t pc : y_sessions s !! p = Some t → y_pumps s !! p = Some pc → alive pc = true →
    y_terms s !! t_id t = Some p;
  ti_same : y_buffers s = y_terms s;
  ti_seq p t : y_sessions s !! p = Some t → t_seq t = Z.of_nat (length (output_of p ls));
  ti_buf p b : y_bufs s !! p = Some b → b = buffer_of termReplayLimit (numbered (output_of p ls));
  ti_fresh p : length (y_sessions s) ≤ p → output_of p ls = [];
  ti_log p t pc : y_sessions s !! p = Some t → y_pumps s !! p = Some pc →
    frames_ok (t_id t) pc (output_of p ls) (pump_frames p (y_log s));
  ti_quiet p : length (y_sessions s) ≤ p → pump_frames p (y_log s) = []
}.

(** *** Steps that leave the core alone *)
Record quiet (s s' : tsys) : Prop := {
  qu_sessions : skey <$> y_sessions s' = skey <$> y_sessions s;
  qu_bufs : y_bufs s' = y_bufs s;
  qu_pumps : y_pumps s' = y_pumps s;
  qu_terms : y_terms s' = y_terms s;
  qu_buffers : y_buffers s' = y_buffers s;
  qu_log p : pump_frames p (y_log s') = pump_frames p (y_log s)
}.
#[export] Instance quiet_refl : Reflexive quiet.
Proof. done. Qed.
#[export] Instance quiet_trans : Transitive quiet.
Proof. intros s1 s2 s3 [] []. split; congruence. Qed.

Lemma pump_frames_snoc p log m :
  pump_frames p (log ++ [m]) =
    pump_frames p log ++ (if bool_decide (m_from m = FromPump p) then [m_frame m] else []).
Proof.
  unfold pump_frames. rw filter_app fmap_app filter_cons filter_nil.
  case_decide; case_bool_decide; done.
Qed.

Create HintDb term.
Lemma quiet_upd f p s : (∀ t, skey (f t) = skey t) → quiet s (upd_session f p s).
Proof.
  intros Hf. split; try done. cbn. apply list_eq. intros i.
  rw !list_lookup_fmap. destruct (decide (p = i)) as [->|Hne].
  - rw list_lookup_alter_eq. destruct (y_sessions s !! i); simpl; [by rw Hf|done].
  - by rw list_lookup_alter_ne.
Qed.
Lemma quiet_emit o f ok s : (∀ p, o ≠ FromPump p) → quiet s (emit o f ok s).
Proof.
  intros Ho. split; try done. intros p.
  change (pump_frames p (y_log s ++ [mkEmit o f ok]) = pump_frames p (y_log s)).
  rw pump_frames_snoc bool_decide_eq_false_2; [by rw app_nil_r|]. apply Ho.
Qed.
Lemma quiet_upd_after f p s s1 :
  quiet s s1 → (∀ t, skey (f t) = skey t) → quiet s (upd_session f p s1).
Proof. intros Hs Hf. etrans; [exact Hs|]. by apply quiet_upd. Qed.
Lemma quiet_pty h op s : quiet s (pty_do h op s).
Proof. done. Qed.
Lemma quiet_set_attach k pc s : quiet s (set_attach k pc s).
Proof. done. Qed.
Lemma quiet_set_detach k pc s : quiet s (set_detach k pc s).
Proof. done. Qed.
Lemma quiet_close p s : quiet s (close p s).
Proof.
  unfold close. destruct (y_sessions s !! p) as [t|]; [|done]. destruct (t_closed t); [done|].
  etrans; [by apply (quiet_upd (λ t, t <| t_closed := true |>) p)|]. done.
Qed.

Lemma skey_lookup (ss ss' : list terminalSession) (p : nat) t :
  skey <$> ss' = skey <$> ss → ss' !! p = Some t →
  ∃ t0, ss !! p = Some t0 ∧ skey t0 = skey t.
Proof.
  intros H Hp. apply (f_equal (.!! p)) in H. rw !list_lookup_fmap Hp in H.
  destruct (ss !! p) as [t0|]; [|done]. exists t0. split; [done|]. simpl in H. congruence.
Qed.

Lemma output_of_snoc p ls l : output_of p (ls ++ [l]) = output_of p ls ++ chunk_of p l.
Proof. unfold output_of. rw bind_app /=. by rw app_nil_r. Qed.

Lemma tinv_quiet ls s l s' :
  quiet s s' → (∀ p, chunk_of p l = []) → tinv ls s → tinv (ls ++ [l]) s'.
Proof.
  intros [Hs Hb Hp Ht Hbu Hlog] Hl [I1 I2 I3 I4 I5 I6 I7 I8 I9 I10].
  assert (∀ p, output_of p (ls ++ [l]) = output_of p ls) as Ho.
  { intros p. by rw output_of_snoc Hl app_nil_r. }
  assert (length (y_sessions s') = length (y_sessions s)) as Hlen.
  { by rw -(length_fmap skey) Hs length_fmap. }
  split; try (rw ?Hp ?Hb ?Hlen; done).
  - rw Ht Hp. intros id p H. destruct (I3 _ _ H) as (t & pc & Ht1 & Hid & Hpc & Ha).
    symmetry in Hs. destruct (skey_lookup _ _ _ _ Hs Ht1) as (t' & Ht' & [= Hk _]).
    exists t', pc. split_and!; try done. congruence.
  - rw Ht Hp. intros p t pc H1 H2 H3. destruct (skey_lookup _ _ _ _ Hs H1) as (t' & Ht' & [= Hk _]).
    rw -Hk. by eapply I4.
  - congruence.
  - intros p t H. rw Ho. destruct (skey_lookup _ _ _ _ Hs H) as (t' & Ht' & [= _ Hk]).
    rw -Hk. by apply I6.
  - intros p b. rw Ho Hb. apply I7.
  - intros p. rw Ho Hlen. apply I8.
  - intros p t pc H1 H2. rw Ho Hlog. destruct (skey_lookup _ _ _ _ Hs H1) as (t' & Ht' & [= Hk _]).
    rw -Hk. apply I9; congruence.
  - intros p. rw Hlog Hlen. apply I10.
Qed.

Section system.
Context `{MapRange nat}.

Lemma quiet_Open_start spec env started ok s : quiet s (Open_start spec env started ok s).
Proof.
  unfold Open_start. repeat case_match; try done.
  unfold emitExit. etrans; [|by apply quiet_emit]. done.
Qed.
Lemma quiet_Attach_find id after ok s : quiet s (Attach_find id after ok s).
Proof. unfold Attach_find. repeat case_match; try done. by apply quiet_emit. Qed.
Lemma quiet_Attach_step k pc ok s s' : Attach_step k pc ok s = Some s' → quiet s s'.
Proof.
  destruct pc as [| p id after [b|] | p id [|e es] tr | |]; simpl; intros Hs; simplify_eq; try done.
  - destruct (y_bufs s !! b) as [buf|]; simpl in Hs; [|done]. destruct (replay buf after).
    by simplify_eq.
  - by apply quiet_upd_after.
  - etrans; [|by apply quiet_emit]. done.
  - by apply quiet_upd_after.
Qed.
Lemma quiet_Input id data now s : quiet s (Input id data now s).
Proof.
  unfold Input. repeat case_match; try done.
  etrans; [|apply quiet_upd]; [done|]. clear. intros t. revert t.
  induction data as [|b data IH]; intros t; [done|]. cbn [recordInput]. rw IH.
  unfold recordByte. by repeat case_match.
Qed.
Lemma quiet_CloseAll s : quiet s (CloseAll s).
Proof.
  unfold CloseAll. generalize (live_sessions s). intros l. revert s.
  induction l as [|p l IH]; intros s; [done|]. simpl. etrans; [|apply IH]. apply quiet_close.
Qed.
Lemma quiet_Detach_step k pc now s s' : Detach_step k pc now s = Some s' → quiet s s'.
Proof.
  unfold Detach_step. intros Hs. destruct (d_todo pc) as [|p todo]; [done|].
  destruct (d_swapped pc); [simplify_eq; by apply quiet_upd_after|].
  destruct (y_sessions s !! p) as [t|]; simpl in Hs; [|done].
  destruct (t_attached t); simplify_eq; [by apply quiet_upd_after|done].
Qed.
Lemma quiet_Reap_step now s s' : Reap_step now s = Some s' → quiet s s'.
Proof.
  unfold Reap_step. intros Hs. destruct (y_reap s) as [|[|p todo] [] picked|[|p ps]];
    simplify_option_eq; try done.
  etrans; [|apply quiet_close]. done.
Qed.
Lemma quiet_Interrupt id wrote s : quiet s (Interrupt id wrote s).
Proof.
  unfold Interrupt. repeat case_match; try done.
  by apply quiet_upd_after.
Qed.

(** *** The other steps *)
Lemma lookup_snoc_inv {A} (l : list A) x i y :
  (l ++ [x]) !! i = Some y → l !! i = Some y ∨ (i = length l ∧ y = x).
Proof.
  intros [Hl|[Hl Hx]]%lookup_app_Some; [by left|]. right.
  destruct (i - length l) eqn:E; simpl in Hx; simplify_eq; split; [lia|done].
Qed.

Lemma tinv_register ls s k now stamp id h :
  tinv ls s → tinv (ls ++ [LOpenRegister k now stamp]) (Open_register id h now stamp s).
Proof.
  intros I. unfold Open_register. destruct (y_terms s !! id) eqn:Eid.
  { by apply (tinv_quiet _ s). }
  destruct I as [I1 I2 I3 I4 I5 I6 I7 I8 I9 I10].
  assert (∀ p, output_of p (ls ++ [LOpenRegister k now stamp]) = output_of p ls) as Ho.
  { intros p. by rw output_of_snoc app_nil_r. }
  split; cbn -[pump_frames].
  - rw !length_app I1. done.
  - rw !length_app I2. done.
  - intros id' p. destruct (decide (id = id')) as [<-|Hne].
    + rw lookup_insert_eq. intros [= <-]. exists (new_session id h now stamp), PReading.
      split_and!; [by rw list_lookup_middle|done|by rw list_lookup_middle|done].
    + rw lookup_insert_ne; [|done]. intros Hp. destruct (I3 _ _ Hp) as (t & pc & ? & ? & ? & ?).
      exists t, pc. split_and!; try done; by apply lookup_app_l_Some.
  - intros p t pc [Ht|[-> ->]]%lookup_snoc_inv Hpc Ha.
    + assert (y_pumps s !! p = Some pc) as Hpc'.
      { apply lookup_snoc_inv in Hpc as [?|[-> _]]; [done|].
        apply lookup_lt_Some in Ht. lia. }
      pose proof (I4 _ _ _ Ht Hpc' Ha). rw lookup_insert_ne; [done|]. intros ->. congruence.
    + by rw lookup_insert_eq.
  - by rw I5.
  - intros p t [Ht|[-> ->]]%lookup_snoc_inv; rw Ho; [by apply I6|]. by rw I8.
  - intros p b [Hb|[-> ->]]%lookup_snoc_inv; rw Ho; [by apply I7|]. rw I8; [done|]. lia.
  - intros p. rw length_app Ho. intros. apply I8. lia.
  - intros p t pc [Ht|[-> ->]]%lookup_snoc_inv Hpc; rw Ho.
    + apply I9; [done|]. apply lookup_snoc_inv in Hpc as [?|[-> _]]; [done|].
      apply lookup_lt_Some in Ht. lia.
    + apply lookup_snoc_inv in Hpc as [Hpc|[_ ->]]; [apply lookup_lt_Some in Hpc; lia|].
      rw (I8 (length (y_sessions s))); [|lia]. cbn -[pump_frames]. by apply I10.
  - intros p. rw length_app. intros. apply I10. lia.
Qed.

Lemma lookup_set_pump (l : list pump_pc) p pc q pc' :
  <[p := pc]> l !! q = Some pc' → (p = q ∧ pc' = pc) ∨ (p ≠ q ∧ l !! q = Some pc').
Proof.
  destruct (decide (p = q)) as [<-|Hne]; [|rw list_lookup_insert_ne; naive_solver].
  intros [(_ & ? & _)|[[] _]]%list_lookup_insert_Some; auto.
Qed.

(** Moving a pump, with its frames, its session's key and its buffer. *)
Lemma tinv_pump ls l s s' p t pc pc' :
  tinv ls s →
  y_sessions s !! p = Some t → y_pumps s !! p = Some pc → alive pc = alive pc' →
  (∀ q, q ≠ p → chunk_of q l = []) →
  (∀ q, q ≠ p → skey <$> y_sessions s' !! q = skey <$> y_sessions s !! q) →
  (∃ t', y_sessions s' !! p = Some t' ∧ t_id t' = t_id t ∧
         t_seq t' = Z.of_nat (length (output_of p (ls ++ [l])))) →
  length (y_sessions s') = length (y_sessions s) →
  length (y_bufs s') = length (y_bufs s) →
  (∀ q, q ≠ p → y_bufs s' !! q = y_bufs s !! q) →
  (∀ b, y_bufs s' !! p = Some b →
        b = buffer_of termReplayLimit (numbered (output_of p (ls ++ [l])))) →
  y_pumps s' = <[p := pc']> (y_pumps s) →
  y_terms s' = y_terms s → y_buffers s' = y_buffers s →
  (∀ q, q ≠ p → pump_frames q (y_log s') = pump_frames q (y_log s)) →
  frames_ok (t_id t) pc' (output_of p (ls ++ [l])) (pump_frames p (y_log s')) →
  tinv (ls ++ [l]) s'.
Proof.
  intros [I1 I2 I3 I4 I5 I6 I7 I8 I9 I10] Ht Hpc Ha Hl Hs (t' & Ht' & Hid & Hseq) Hlen Hlb Hb Hbp
    Hp Hte Hbu Hlog Hfr.
  assert (∀ q, q ≠ p → output_of q (ls ++ [l]) = output_of q ls) as Ho.
  { intros q Hq. by rw output_of_snoc Hl // app_nil_r. }
  assert (∀ q u, q ≠ p → y_sessions s' !! q = Some u →
    ∃ u0, y_sessions s !! q = Some u0 ∧ t_id u0 = t_id u ∧ t_seq u0 = t_seq u) as Hback.
  { intros q u Hq Hu. specialize (Hs q Hq). rw Hu in Hs.
    destruct (y_sessions s !! q) as [u0|]; [|done]. exists u0. injection Hs as -> ->. done. }
  pose proof (lookup_lt_Some _ _ _ Ht) as Hlt.
  split.
  - by rw Hp length_insert Hlen.
  - by rw Hlb Hlen.
  - rw Hte. intros id q Hq. destruct (I3 _ _ Hq) as (u & upc & Hu & Huid & Hupc & Hua). rw Hp.
    destruct (decide (q = p)) as [->|Hne].
    + exists t', pc'. split_and!; try done; [congruence| |congruence].
      rw list_lookup_insert_eq; [done|]. by rw I1.
    + specialize (Hs q Hne). rw Hu in Hs. destruct (y_sessions s' !! q) as [u'|]; [|done].
      injection Hs as Hk _. exists u', upc.
      split_and!; [done|congruence|by rw list_lookup_insert_ne|done].
  - rw Hte Hp. intros q u upc Hu [[<- ->]|[Hne Hq]]%lookup_set_pump Hua.
    + assert (u = t') as -> by congruence. rw Hid. eapply I4; [done|done|congruence].
    + destruct (Hback q u) as (u0 & Hu0 & <- & _); [done|done|]. by eapply I4.
  - congruence.
  - intros q u Hu. destruct (decide (q = p)) as [->|Hne]; [congruence|]. rw Ho; [|done].
    destruct (Hback q u) as (u0 & Hu0 & _ & <-); [done|done|]. by apply I6.
  - intros q b. destruct (decide (q = p)) as [->|Hne]; [apply Hbp|]. rw Ho // Hb //. apply I7.
  - intros q. rw Hlen. intros Hq. rw Ho; [|lia]. by apply I8.
  - rw Hp. intros q u upc Hu [[<- ->]|[Hne Hq]]%lookup_set_pump.
    + assert (u = t') as -> by congruence. by rw Hid.
    + destruct (Hback q u) as (u0 & Hu0 & <- & _); [done|done|].
      rw Ho; [|done]. rw Hlog; [|done]. by apply I9.
  - intros q. rw Hlen. intros Hq. rw Hlog; [|lia]. by apply I10.
Qed.

Lemma chunk_of_other p q data err : q ≠ p → chunk_of q (LRead p data err) = [].
Proof. intros Hne. simpl. by rw bool_decide_eq_false_2. Qed.
Lemma chunk_of_read p data err : data ≠ "" → chunk_of p (LRead p data err) = [data].
Proof. intros Hd. simpl. rw bool_decide_eq_true_2; [|done]. by destruct (String.eqb_spec data ""). Qed.
Lemma output_of_le p ls : length (output_of p ls) ≤ length ls.
Proof.
  induction ls as [|l ls IH] using rev_ind; [done|]. rw output_of_snoc !length_app /=.
  assert (length (chunk_of p l) ≤ 1); [|lia]. destruct l; simpl; try lia. case_match; simpl; lia.
Qed.

Lemma tinv_read ls s p t data err :
  (Z.of_nat (length ls) < 2 ^ 64 - 1)%Z →
  tinv ls s → y_sessions s !! p = Some t → y_pumps s !! p = Some PReading →
  tinv (ls ++ [LRead p data err]) (pump_read p t data err s).
Proof.
  intros Hb I Ht Hpc. pose proof (output_of_le p ls) as Hle.
  assert (y_buffers s !! t_id t = Some p) as Hbuf.
  { rw (ti_same _ _ I). by apply (ti_reg _ _ I p t PReading). }
  pose proof (ti_log _ _ I _ _ _ Ht Hpc) as Hfr. pose proof (ti_seq _ _ I _ _ Ht) as Hsq.
  unfold pump_read. destruct (String.eqb_spec data "") as [->|Hd].
  - assert (output_of p (ls ++ [LRead p "" err]) = output_of p ls) as Ho.
    { rw output_of_snoc /= andb_false_r. by rw app_nil_r. }
    eapply (tinv_pump _ _ s _ p t PReading (after_read err)); try done; rw ?Ho; try done.
    + by destruct err.
    + intros q Hq. by apply chunk_of_other.
    + by exists t.
    + by apply (ti_buf _ _ I).
    + by destruct err.
  - rw Hbuf. assert (output_of p (ls ++ [LRead p data err]) = output_of p ls ++ [data]) as Ho.
    { rw output_of_snoc. f_equal. by apply chunk_of_read. }
    rw Hsq uint64_add_small; [|lia].
    assert (Z.of_nat (length (output_of p ls)) + 1 = Z.of_nat (S (length (output_of p ls))))%Z as -> by lia.
    eapply (tinv_pump _ _ s _ p t PReading (PEmit _ data err)); try done; rw ?Ho; cbn -[pump_frames chunk_of buffer_of numbered].
    + intros q Hq. by apply chunk_of_other.
    + intros q Hq. by rw list_lookup_alter_ne.
    + rw list_lookup_alter_eq Ht. eexists. split; [done|]. simpl. split; [done|].
      rw length_app /=. lia.
    + by rw length_alter.
    + by rw length_alter.
    + intros q Hq. by rw list_lookup_alter_ne.
    + intros b. rw list_lookup_alter_eq. destruct (y_bufs s !! p) as [b0|] eqn:Eb; [|done].
      intros [= <-]. rw (ti_buf _ _ I _ _ Eb) buffer_append_refines numbered_snoc. done.
    + exists (output_of p ls). split_and!; [done|rw length_app /=; lia|done].
Qed.

Lemma pump_frames_emit_other p q f ok s :
  q ≠ p → pump_frames q (y_log (emit (FromPump p) f ok s)) = pump_frames q (y_log s).
Proof.
  intros Hq. change (pump_frames q (y_log s ++ [mkEmit (FromPump p) f ok]) = pump_frames q (y_log s)).
  rw pump_frames_snoc bool_decide_eq_false_2; [by rw app_nil_r|]. simpl. congruence.
Qed.
Lemma pump_frames_emit_self p f ok s :
  pump_frames p (y_log (emit (FromPump p) f ok s)) = pump_frames p (y_log s) ++ [f].
Proof.
  change (pump_frames p (y_log s ++ [mkEmit (FromPump p) f ok]) = pump_frames p (y_log s) ++ [f]).
  by rw pump_frames_snoc bool_decide_eq_true_2.
Qed.

Lemma tinv_pump_step ls s s' p t pc ok :
  tinv ls s → y_sessions s !! p = Some t → y_pumps s !! p = Some pc →
  pump_step p t pc ok s = Some s' → tinv (ls ++ [LPump p ok]) s'.
Proof.
  intros I Ht Hpc Hs.
  pose proof (ti_log _ _ I _ _ _ Ht Hpc) as Hfr. pose proof (ti_seq _ _ I _ _ Ht) as Hsq.
  assert (output_of p (ls ++ [LPump p ok]) = output_of p ls) as Ho.
  { by rw output_of_snoc app_nil_r. }
  destruct pc as [|seq data err|err|err| |code msg|]; simpl in Hs; simplify_eq.
  - destruct Hfr as (pre & Hpre & -> & Hfr).
    eapply (tinv_pump _ _ s _ p t _ (if ok then PMark1 err else after_read err)); try done; rw ?Ho; try done.
    + by destruct ok, err.
    + by exists t.
    + by apply (ti_buf _ _ I).
    + intros q Hq. by apply pump_frames_emit_other.
    + assert (pump_frames p (y_log s) ++ [TerminalOutput (t_id t) data (Z.of_nat (length (output_of p ls))) false]
        = outputs (t_id t) (numbered (output_of p ls))) as Heq.
      { rw Hfr Hpre numbered_snoc /outputs fmap_app length_app /=. do 4 f_equal. lia. }
      rw -(pump_frames_emit_self p _ ok) in Heq. by destruct ok, err.
  - eapply (tinv_pump _ _ s _ p t _ (PMark2 err)); try done; rw ?Ho; cbn -[pump_frames]; try done.
    + intros q Hq. by rw list_lookup_alter_ne.
    + rw list_lookup_alter_eq Ht. eexists. split; [done|]. by simpl.
    + by rw length_alter.
    + by apply (ti_buf _ _ I).
  - eapply (tinv_pump _ _ s _ p t _ (after_read err)); try done; rw ?Ho; cbn -[pump_frames]; try done.
    + by destruct err.
    + intros q Hq. by rw list_lookup_alter_ne.
    + rw list_lookup_alter_eq Ht. eexists. split; [done|]. by simpl.
    + by rw length_alter.
    + by apply (ti_buf _ _ I).
    + by destruct err.
  - eapply (tinv_pump _ _ s _ p t _ PDone); try done; rw ?Ho; try done.
    + by exists t.
    + by apply (ti_buf _ _ I).
    + intros q Hq. by apply pump_frames_emit_other.
    + exists (int32_of code), msg. simpl in Hfr. rw -Hfr.
      by rw -(pump_frames_emit_self _ _ ok).
Qed.

Lemma tinv_wait ls s p t code msg :
  tinv ls s → y_sessions s !! p = Some t → y_pumps s !! p = Some PWait →
  tinv (ls ++ [LWait p code msg]) (set_pump p (PExit code msg) (remove (t_id t) s)).
Proof.
  intros I Ht Hpc. pose proof (ti_log _ _ I _ _ _ Ht Hpc) as Hfr.
  pose proof (ti_reg _ _ I _ _ _ Ht Hpc eq_refl) as Hreg.
  assert (∀ q, output_of q (ls ++ [LWait p code msg]) = output_of q ls) as Ho.
  { intros q. by rw output_of_snoc app_nil_r. }
  destruct I as [I1 I2 I3 I4 I5 I6 I7 I8 I9 I10].
  split; cbn -[pump_frames]; rw ?length_insert; try done.
  - intros id q [Hne Hq]%lookup_delete_Some. destruct (I3 _ _ Hq) as (u & pc & ? & ? & ? & ?).
    exists u, pc. split_and!; try done. rw list_lookup_insert_ne; [done|]. intros ->. congruence.
  - intros q u pc Hu [[<- ->]|[Hne Hq]]%lookup_set_pump Ha; [done|].
    pose proof (I4 _ _ _ Hu Hq Ha). rw lookup_delete_ne; [done|]. congruence.
  - by rw I5.
  - intros q u. rw Ho. apply I6.
  - intros q b. rw Ho. apply I7.
  - intros q. rw Ho. apply I8.
  - intros q u pc Hu. rw Ho. intros [[<- ->]|[Hne Hq]]%lookup_set_pump; [|by apply I9].
    assert (u = t) as -> by congruence. done.
Qed.

Lemma tinv_step ls s l s' :
  (Z.of_nat (length ls) < 2 ^ 64 - 1)%Z →
  tinv ls s → tstep s l = Some s' → tinv (ls ++ [l]) s'.
Proof.
  intros Hb I Hs. unfold tstep in Hs. destruct (_ && _); [done|].
  destruct l as [spec env st ok|k now stamp|id after ok|k ok|p data err|p ok|p code msg|id data now
    |id size|id|id wrote|rid ok| | |k now|now]; simpl in Hs.
  - simplify_eq. eapply tinv_quiet; [apply quiet_Open_start|done|done].
  - destruct (y_opens s !! k) as [[[id h]|]|]; simpl in Hs; simplify_eq.
    apply tinv_register. destruct I; by split.
  - simplify_eq. eapply tinv_quiet; [apply quiet_Attach_find|done|done].
  - destruct (y_attaches s !! k) as [pc|]; simpl in Hs; [|done].
    eapply tinv_quiet; [by eapply quiet_Attach_step|done|done].
  - destruct (y_pumps s !! p) as [pc|] eqn:Hpc; simpl in Hs; [|done].
    destruct (y_sessions s !! p) as [t|] eqn:Ht; simpl in Hs; [|done].
    destruct pc; try done. case_match; simplify_eq. by apply tinv_read.
  - destruct (y_pumps s !! p) as [pc|] eqn:Hpc; simpl in Hs; [|done].
    destruct (y_sessions s !! p) as [t|] eqn:Ht; simpl in Hs; [|done]. by eapply tinv_pump_step.
  - destruct (y_pumps s !! p) as [pc|] eqn:Hpc; simpl in Hs; [|done].
    destruct (y_sessions s !! p) as [t|] eqn:Ht; simpl in Hs; [|done].
    destruct pc; simplify_eq. by apply tinv_wait.
  - simplify_eq. eapply tinv_quiet; [apply quiet_Input|done|done].
  - simplify_eq. eapply (tinv_quiet _ s); [|done|done]. unfold Resize. by repeat case_match.
  - simplify_eq. eapply (tinv_quiet _ s); [|done|done]. unfold Close. case_match; [apply quiet_close|done].
  - simplify_eq. eapply tinv_quiet; [apply quiet_Interrupt|done|done].
  - simplify_eq. eapply tinv_quiet; [by apply quiet_emit|done|done].
  - simplify_eq. eapply tinv_quiet; [apply quiet_CloseAll|done|done].
  - simplify_eq. by eapply (tinv_quiet _ s).
  - destruct (y_detaches s !! k) as [pc|]; simpl in Hs; [|done].
    eapply tinv_quiet; [by eapply quiet_Detach_step|done|done].
  - eapply tinv_quiet; [by eapply quiet_Reap_step|done|done].
Qed.

Lemma tinv_init : tinv [] tinit.
Proof. by split. Qed.

Lemma tinv_run ls s :
  (Z.of_nat (length ls) < 2 ^ 64)%Z → trun tinit ls s → tinv ls s.
Proof.
  intros Hb Hr. revert Hb.
  apply (trace_run_history (fun_step tstep) (λ ls s, (Z.of_nat (length ls) < 2 ^ 64)%Z → tinv ls s)
    ) with (pre := []) (s := tinit); [|intros _; apply tinv_init|exact Hr].
  intros pre s1 l s2 I Hs. rw length_app /=. intros Hlen.
  eapply tinv_step; [lia|apply I; lia|exact Hs].
Qed.

(** ** Chunks are bounded by the read buffer *)
Lemma chunks_bounded_run ls s p :
  trun tinit ls s → Forall (λ d, (blen d ≤ termReadChunk)%Z) (output_of p ls).
Proof.
  apply (trace_run_history (fun_step tstep)
    (λ ls _, Forall (λ d, (blen d ≤ termReadChunk)%Z) (output_of p ls))) with (pre := []); [|done].
  intros pre s1 l s2 IH Hs. rw output_of_snoc. apply Forall_app. split; [done|].
  destruct l as [| | | |q data err| | | | | | | | | | |]; simpl; try done.
  case_match; [|done]. constructor; [|done].
  unfold fun_step, tstep, tstep_body in Hs. cbn [takes_mu andb] in Hs.
  destruct (y_pumps s1 !! q) as [pc|]; simpl in Hs; [|done].
  destruct (y_sessions s1 !! q) as [t|]; simpl in Hs; [|done].
  destruct pc; try done. case_match; go_bool; done.
Qed.

Lemma retained_output_nonempty ls s p :
  trun tinit ls s → output_of p ls ≠ [] →
  retained termReplayLimit (numbered (output_of p ls)) ≠ [].
Proof.
  intros Hr Hne. pose proof (chunks_bounded_run _ _ p Hr) as Hb.
  destruct (output_of p ls) as [|d cs _] using rev_ind; [done|].
  rw numbered_snoc. apply retained_nonempty. simpl.
  apply Forall_app in Hb as [_ Hb]. inversion Hb. unfold termReadChunk, termReplayLimit in *. lia.
Qed.

(** ** What a reattach sends *)
Definition attach_frames (k : nat) (log : list emission) : list frame :=
  m_frame <$> filter (λ m, m_from m = FromAttach k) log.
(** The frames of a replay: only the first can carry the truncation mark. *)
Definition replay_frames (id : string) (es : list terminalEntry) (truncated : bool) : list frame :=
  imap (λ i e, TerminalOutput id (e_data e) (e_seq e) (truncated && (i =? 0))) es.
(** [es] answers "what came after chunk number [after]" of [chunks]: all of
    it, or, when marked, all of it but a non-empty oldest part that no longer
    fits the buffer. *)
Definition answers (after : Z) (chunks : list string) (es : list terminalEntry) (truncated : bool) : Prop :=
  let wanted := drop (Z.to_nat after) (numbered chunks) in
  if truncated then
    ∃ lost, lost ≠ [] ∧ wanted = lost ++ es ∧ (termReplayLimit < total wanted)%Z
  else es = wanted.

Lemma attach_frames_snoc k log m :
  attach_frames k (log ++ [m]) =
    attach_frames k log ++ (if bool_decide (m_from m = FromAttach k) then [m_frame m] else []).
Proof.
  unfold attach_frames. rw filter_app fmap_app filter_cons filter_nil.
  case_decide; case_bool_decide; done.
Qed.
Lemma replay_frames_cons id e es truncated :
  replay_frames id (e :: es) truncated =
    TerminalOutput id (e_data e) (e_seq e) truncated :: replay_frames id es false.
Proof. unfold replay_frames. simpl. rw andb_true_r. f_equal. apply imap_ext. intros. simpl. by rw andb_false_r. Qed.

Lemma retained_lost limit es k :
  retained limit es = drop k es → k ≤ length es → ∀ j, j < k → (limit < total (drop j es))%Z.
Proof.
  revert k. induction es as [|e es IH]; intros k Hk Hle j Hj; [simpl in *; lia|].
  rw retained_cons in Hk. destruct (total (e :: es) <=? limit)%Z eqn:E; go_bool.
  - destruct k as [|k]; [lia|]. exfalso. apply (f_equal length) in Hk.
    rw length_drop /= in Hk. simpl in Hle. lia.
  - destruct j as [|j]; [done|]. destruct k as [|k]; [lia|]. simpl.
    apply (IH k); [done|simpl in Hle; lia|lia].
Qed.

Lemma replay_answers ls s b buf after es truncated :
  (Z.of_nat (length ls) < 2 ^ 64)%Z → trun tinit ls s → (0 ≤ after < 2 ^ 64 - 1)%Z →
  y_bufs s !! b = Some buf → replay buf after = (es, truncated) →
  answers after (output_of b ls) es truncated.
Proof.
  intros Hlen Hr Ha Hb Hre. pose proof (tinv_run _ _ Hlen Hr) as I.
  pose proof (ti_buf _ _ I _ _ Hb) as ->. unfold answers.
  destruct (decide (output_of b ls = [])) as [Hnil|Hne].
  { rw Hnil in Hre |- *. cbn in Hre. injection Hre as <- <-. by rw drop_nil. }
  pose proof (retained_output_nonempty _ _ _ Hr Hne) as Hret.
  destruct (retained_drop termReplayLimit (numbered (output_of b ls))) as [k [Hk Hkl]].
  destruct (replay_numbered termReplayLimit (output_of b ls) after Ha Hret) as (k' & Hk' & Hrep).
  rw Hrep in Hre. injection Hre as <- Htr. clear Hk Hkl k.
  assert (k' < length (numbered (output_of b ls))) as Hlt.
  { destruct (decide (k' < length (numbered (output_of b ls)))); [done|].
    rw drop_ge in Hk'; [congruence|lia]. }
  destruct truncated.
  - apply bool_decide_eq_true in Htr. rw Nat.max_l; [|lia].
    exists (take (k' - Z.to_nat after) (drop (Z.to_nat after) (numbered (output_of b ls)))).
    split_and!.
    + intros Hn. apply (f_equal length) in Hn. rw length_take length_drop /= in Hn. lia.
    + rw -{1}(take_drop (k' - Z.to_nat after) (drop (Z.to_nat after) _)). f_equal.
      rw drop_drop. f_equal. lia.
    + apply (retained_lost _ _ k'); [done|lia|lia].
  - apply bool_decide_eq_false in Htr. rw Nat.max_r; [done|lia].
Qed.

(** *** Following one Attach through a run *)
(** [s'] does not touch the k-th Attach. *)
Definition attach_kept (k : nat) (s s' : tsys) : Prop :=
  (∀ pc, y_attaches s !! k = Some pc → y_attaches s' !! k = Some pc) ∧
  attach_frames k (y_log s') = attach_frames k (y_log s).

Lemma attach_kept_eq k s s' :
  y_attaches s' = y_attaches s → y_log s' = y_log s → attach_kept k s s'.
Proof. by intros Ha Hl; split; rw ?Ha ?Hl. Qed.
Lemma attach_kept_emit k o f ok s s' :
  o ≠ FromAttach k → y_attaches s' = y_attaches s → y_log s' = y_log s →
  attach_kept k s (emit o f ok s').
Proof.
  intros Ho Ha Hl. split.
  - intros pc. change (y_attaches (emit o f ok s')) with (y_attaches s'). by rw Ha.
  - change (y_log (emit o f ok s')) with (y_log s' ++ [mkEmit o f ok]).
    rw attach_frames_snoc bool_decide_eq_false_2; [|done]. by rw app_nil_r Hl.
Qed.
Lemma close_attaches p s : y_attaches (close p s) = y_attaches s ∧ y_log (close p s) = y_log s.
Proof. unfold close. by repeat case_match. Qed.
Lemma CloseAll_attaches s : y_attaches (CloseAll s) = y_attaches s ∧ y_log (CloseAll s) = y_log s.
Proof.
  unfold CloseAll. generalize (live_sessions s). intros l. revert s.
  induction l as [|p l IH]; intros s; [done|]. simpl. destruct (IH (close p s)) as [-> ->].
  apply close_attaches.
Qed.
Lemma Attach_step_kept k k' pc ok s s' :
  k ≠ k' → Attach_step k' pc ok s = Some s' → attach_kept k s s'.
Proof.
  intros Hne Hs. assert (∀ pc', attach_kept k s (set_attach k' pc' s)) as Hset.
  { intros pc'. split; [|done]. intros pc0. cbn. by rw list_lookup_insert_ne. }
  destruct pc as [| p id after [b|] | p id [|e es] tr | |]; simpl in Hs; simplify_eq; try apply Hset.
  - destruct (y_bufs s !! b) as [buf|]; simpl in Hs; [|done]. destruct (replay buf after).
    simplify_eq. apply Hset.
  - destruct (Hset (AEmit p id es false)) as [H1 H2]. split; [exact H1|]. rw -H2.
    change (y_log (emitOutput ?o ?id ?d ?q ?t ok ?s1)) with (y_log s1 ++ [mkEmit o (TerminalOutput id d q t) ok]).
    rw attach_frames_snoc bool_decide_eq_false_2; [by rw app_nil_r|]. simpl. congruence.
Qed.

Lemma attach_other k s l s' :
  (∀ ok, l ≠ LAttachStep k ok) → tstep s l = Some s' → attach_kept k s s'.
Proof.
  intros Hl Hs. unfold tstep in Hs. destruct (_ && _); [done|].
  destruct l as [spec env st ok|k' now stamp|id after ok|k' ok|p data err|p ok|p code msg|id data now
    |id size|id|id wrote|rid ok| | |k' now|now]; cbn [tstep_body] in Hs.
  - simplify_eq. unfold Open_start. repeat case_match; try by apply attach_kept_eq.
    by apply attach_kept_emit.
  - destruct (y_opens s !! k') as [[[id h]|]|]; cbn in Hs; simplify_eq.
    unfold Open_register. case_match; by apply attach_kept_eq.
  - simplify_eq. unfold Attach_find. repeat case_match; [by apply attach_kept_eq| |by apply attach_kept_emit].
    split; [|done]. intros pc Hpc. cbn. by apply lookup_app_l_Some.
  - destruct (y_attaches s !! k') as [pc|]; cbn in Hs; [|done].
    eapply Attach_step_kept; [|done]. intros ->. by destruct (Hl ok).
  - destruct (y_pumps s !! p) as [pc|] eqn:Hpc; cbn in Hs; [|done].
    destruct (y_sessions s !! p) as [t|] eqn:Ht; cbn in Hs; [|done].
    destruct pc; try done. case_match; simplify_eq. unfold pump_read.
    repeat case_match; by apply attach_kept_eq.
  - destruct (y_pumps s !! p) as [pc|] eqn:Hpc; cbn in Hs; [|done].
    destruct (y_sessions s !! p) as [t|] eqn:Ht; cbn in Hs; [|done].
    destruct pc; cbn in Hs; simplify_eq; try by apply attach_kept_eq.
    + by apply (attach_kept_emit k (FromPump p)).
    + by apply (attach_kept_emit k (FromPump p)).
  - destruct (y_pumps s !! p) as [pc|] eqn:Hpc; cbn in Hs; [|done].
    destruct (y_sessions s !! p) as [t|] eqn:Ht; cbn in Hs; [|done].
    destruct pc; simplify_eq. by apply attach_kept_eq.
  - simplify_eq. unfold Input. repeat case_match; by apply attach_kept_eq.
  - simplify_eq. unfold Resize. repeat case_match; by apply attach_kept_eq.
  - simplify_eq. unfold Close. case_match; [|done]. apply attach_kept_eq; apply close_attaches.
  - simplify_eq. unfold Interrupt. repeat case_match; by apply attach_kept_eq.
  - simplify_eq. by apply attach_kept_emit.
  - simplify_eq. apply attach_kept_eq; apply CloseAll_attaches.
  - simplify_eq. by apply attach_kept_eq.
  - destruct (y_detaches s !! k') as [pc|]; cbn in Hs; [|done]. unfold Detach_step in Hs.
    repeat (case_match; simplify_option_eq; try done); by apply attach_kept_eq.
  - unfold Reap_step in Hs. destruct (y_reap s) as [|[|p todo] [] picked|[|p ps]];
      simplify_option_eq; try by apply attach_kept_eq.
    apply attach_kept_eq; etrans; try apply close_attaches; done.
Qed.

Definition attach_finished (pc : attach_pc) : bool :=
  match pc with AMark2 _ | ADone => true | _ => false end.

Lemma attach_label k l : (∃ ok, l = LAttachStep k ok) ∨ (∀ ok, l ≠ LAttachStep k ok).
Proof.
  destruct l as [| | |k' ok| | | | | | | | | | | |]; try (by right).
  destruct (decide (k' = k)) as [->|]; [left; by exists ok|right; congruence].
Qed.

Lemma attach_finished_run k s ls s' pc :
  trun s ls s' → y_attaches s !! k = Some pc → attach_finished pc = true →
  attach_frames k (y_log s') = attach_frames k (y_log s).
Proof.
  intros Hr. revert pc. induction Hr as [s|s l s1 ls s2 Hs Hr IH]; intros pc Hk Hf; [done|].
  destruct (attach_label k l) as [[ok ->]|Hl].
  - unfold fun_step, tstep, tstep_body in Hs. cbn in Hs. rw Hk in Hs.
    destruct pc; try done. cbn in Hs. simplify_eq.
    rw (IH ADone); [done| |done]. cbn. rw list_lookup_insert_eq; [done|]. by eapply lookup_lt_Some.
  - destruct (attach_other k s l s1 Hl Hs) as [H1 H2].
    rw (IH pc); [done|by apply H1|done].
Qed.

Lemma attach_emit_run k s ls s' p id es truncated pc' :
  trun s ls s' → y_attaches s !! k = Some (AEmit p id es truncated) →
  y_attaches s' !! k = Some pc' → attach_finished pc' = true →
  attach_frames k (y_log s') = attach_frames k (y_log s) ++ replay_frames id es truncated.
Proof.
  intros Hr. revert es truncated. induction Hr as [s|s l s1 ls s2 Hs Hr IH]; intros es truncated Hk Hk' Hf.
  { by simplify_eq. }
  destruct (attach_label k l) as [[ok ->]|Hl].
  - unfold fun_step, tstep, tstep_body in Hs. cbn [takes_mu andb] in Hs. rw Hk in Hs.
    pose proof (lookup_lt_Some _ _ _ Hk) as Hlt. destruct es as [|e es]; cbn in Hs; simplify_eq.
    + rw (attach_finished_run k _ _ _ (AMark2 p) Hr); [|by apply list_lookup_insert_eq|done].
      by rw app_nil_r.
    + rw (IH es false); [|by apply list_lookup_insert_eq|done|done].
      rw replay_frames_cons cons_middle app_assoc. f_equal.
      change (y_log (emitOutput ?o ?id ?d ?q ?t ok ?s1)) with (y_log s1 ++ [mkEmit o (TerminalOutput id d q t) ok]).
      by rw attach_frames_snoc bool_decide_eq_true_2.
  - destruct (attach_other k s l s1 Hl Hs) as [H1 <-]. by apply IH; [apply H1|..].
Qed.

(** C35: An Attach that found the terminal's buffer, whatever
    interleaves with it until it finishes, emits for the terminal exactly the
    chunks after the requested sequence number that the shell had written at
    some moment of the Attach, in order and once each; the oldest of them are
    missing only if together they exceed the 256 KiB of the buffer, and then
    the first frame, and only it, says that the replay is truncated. *)
Theorem terminal_reattach_complete ls s k p id after b ls2 s' pc' :
  (Z.of_nat (length ls + length ls2) < 2 ^ 64)%Z → (0 ≤ after < 2 ^ 64 - 1)%Z →
  trun tinit ls s → y_attaches s !! k = Some (AReplay p id after (Some b)) →
  trun s ls2 s' → y_attaches s' !! k = Some pc' → attach_finished pc' = true →
  ∃ ls_a ls_b es truncated, ls2 = ls_a ++ ls_b ∧
    answers after (output_of b (ls ++ ls_a)) es truncated ∧
    attach_frames k (y_log s') = attach_frames k (y_log s) ++ replay_frames id es truncated.
Proof.
  intros Hlen Ha Hr Hk Hr2. revert ls Hlen Hr Hk.
  induction Hr2 as [s|s l s1 ls2 s2 Hs Hr2 IH]; intros ls Hlen Hr Hk Hk' Hf; [by simplify_eq|].
  simpl in Hlen. destruct (attach_label k l) as [[ok ->]|Hl].
  - pose proof Hs as Hs0. unfold fun_step, tstep, tstep_body in Hs. cbn [takes_mu andb] in Hs.
    rw Hk in Hs. cbn in Hs. destruct (y_bufs s !! b) as [buf|] eqn:Hb; cbn in Hs; [|done].
    destruct (replay buf after) as [es tr] eqn:Hre. simplify_eq.
    exists [], (LAttachStep k ok :: ls2), es, tr. rw app_nil_r. split_and!; [done| |].
    + eapply replay_answers; [lia|done|done|done|done].
    + eapply (attach_emit_run k _ ls2 s2 p id es tr pc' Hr2); [|done|done].
      apply list_lookup_insert_eq. by eapply lookup_lt_Some.
  - destruct (attach_other k s l s1 Hl Hs) as [H1 <-].
    destruct (IH (ls ++ [l])) as (la & lb & es & tr & -> & Hans & Hfr); [|by eapply trace_run_snoc|by apply H1|done|done|].
    { rw length_app /=. lia. }
    exists (l :: la), lb, es, tr. split_and!; [done| |done]. by rw cons_middle app_assoc.
Qed.

(** C39: In every state reached in fewer than 2^64 steps the replay buffer of every
    terminal is the longest tail of what its shell has written, chunk by chunk
    under sequence numbers counted from 1, that fits in 256 KiB; its size
    counter is the number of bytes it holds; and the buffer found under a
    registered id is the one of the registered session. *)
Theorem terminal_buffer_refines ls s p t :
  (Z.of_nat (length ls) < 2 ^ 64)%Z → trun tinit ls s → y_sessions s !! p = Some t →
  ∃ b, y_bufs s !! p = Some b ∧
    b_entries b = retained termReplayLimit (numbered (output_of p ls)) ∧
    b_size b = total (b_entries b) ∧ (b_size b ≤ termReplayLimit)%Z ∧
    y_buffers s = y_terms s.
Proof.
  intros Hlen Hr Ht. pose proof (tinv_run _ _ Hlen Hr) as I.
  destruct (lookup_lt_is_Some_2 (y_bufs s) p) as [b Hb].
  { rw (ti_bufs _ _ I). by eapply lookup_lt_Some. }
  exists b. pose proof (ti_buf _ _ I _ _ Hb) as ->.
  split_and!; [done|done|done|by apply retained_total|apply (ti_same _ _ I)].
Qed.

(** In every reachable state the pump of a shell has emitted its
    output chunks in order, each once under its sequence number, all of them
    but possibly the last one read; an exit frame is emitted at most once,
    only after everything the shell wrote and only when the terminal is no
    longer registered. *)
Theorem terminal_output_then_exit ls s p t :
  (Z.of_nat (length ls) < 2 ^ 64)%Z → trun tinit ls s → y_sessions s !! p = Some t →
  let chunks := output_of p ls in
  ∃ n exits,
    pump_frames p (y_log s) = outputs (t_id t) (take n (numbered chunks)) ++ exits ∧
    length chunks ≤ S n ∧
    (exits = [] ∨
     ∃ code msg, exits = [TerminalExit (t_id t) code msg] ∧ n = length chunks ∧
       y_terms s !! t_id t ≠ Some p).
Proof.
  intros Hlen Hr Ht chunks. pose proof (tinv_run _ _ Hlen Hr) as I.
  destruct (lookup_lt_is_Some_2 (y_pumps s) p) as [pc Hpc].
  { rw (ti_pumps _ _ I). by eapply lookup_lt_Some. }
  pose proof (ti_log _ _ I _ _ _ Ht Hpc) as Hfr. fold chunks in Hfr.
  assert (take (length chunks) (numbered chunks) = numbered chunks) as Hall.
  { apply take_ge. by rw length_numbered. }
  destruct pc as [|seq data err|err|err| |code msg|];
    try (exists (length chunks), []; rw Hall app_nil_r; split_and!; [done|lia|by left]).
  - destruct Hfr as (pre & Hpre & -> & Hfr). exists (length pre), [].
    rw app_nil_r Hpre numbered_snoc take_app_length'; [|by rw length_numbered].
    rw length_app /=. split_and!; [done|lia|by left].
  - destruct Hfr as (code & msg & Hfr). exists (length chunks), [TerminalExit (t_id t) code msg].
    rw Hall. split_and!; [done|lia|right]. exists code, msg. split_and!; [done|done|].
    intros Hreg. destruct (ti_terms _ _ I _ _ Hreg) as (t' & pc & _ & _ & Hpc' & Ha).
    by simplify_eq.
Qed.

(** ** The reaper *)
(** reapDetached's test, had it loaded detachedAt once. *)
Definition stale (now : Z) (s : tsys) (p : nat) : bool :=
  match y_sessions s !! p with
  | Some t => negb (t_detachedAt t =? 0)%Z && negb (now - t_detachedAt t <? termDetachTimeout)%Z
  | None => false
  end.

Lemma exec_app (s : tsys) ls1 ls2 :
  exec tstep s (ls1 ++ ls2) = (s' ← exec tstep s ls1; exec tstep s' ls2).
Proof.
  revert s. induction ls1 as [|l ls1 IH]; intros s; [done|]. simpl.
  destruct (tstep s l); simpl; [apply IH|done].
Qed.

Lemma reap_scan_tail now s todo picked :
  Forall (λ p, is_Some (y_sessions s !! p)) todo →
  ∃ n, exec tstep (s <| y_reap := RScan todo false picked |>) (replicate n (LReap now)) =
       Some (s <| y_reap := RClose (picked ++ filter (λ p, stale now s p = true) todo) |>).
Proof.
  revert picked. induction todo as [|p todo IH]; intros picked Hall.
  { exists 1. cbn. by rw app_nil_r. }
  inversion Hall as [|? ? [t Ht] Htl]; subst. rw filter_cons /stale Ht.
  destruct (t_detachedAt t =? 0)%Z eqn:Ez.
  - destruct (IH picked Htl) as [n Hn]. exists (S n). rw -Hn. cbn. rw Ht. cbn. by rw Ez.
  - destruct (now - t_detachedAt t <? termDetachTimeout)%Z eqn:Et.
    + destruct (IH picked Htl) as [n Hn]. exists (S (S n)). rw -Hn. cbn. rw Ht. cbn. rw Ez. cbn.
      rw Ht. cbn. by rw Et.
    + destruct (IH (picked ++ [p]) Htl) as [n Hn]. exists (S (S n)). cbn. rw Ht. cbn. rw Ez. cbn.
      rw Ht. cbn. rw Et. rw Hn. by rw -app_assoc.
Qed.

(** A reaper pass that no other goroutine interrupts selects exactly
    the registered terminals whose stream has been down for thirty minutes or
    more. *)
Theorem reap_scan_exact ls s now :
  (Z.of_nat (length ls) < 2 ^ 64)%Z → trun tinit ls s → y_reap s = RIdle →
  ∃ n, exec tstep s (replicate n (LReap now)) =
       Some (s <| y_reap := RClose (filter (λ p, stale now s p = true) (live_sessions s)) |>).
Proof.
  intros Hlen Hr Hidle. pose proof (tinv_run _ _ Hlen Hr) as I.
  destruct (reap_scan_tail now s (live_sessions s) []) as [n Hn].
  { apply Forall_forall. intros p ([id q] & -> & Hp)%list_elem_of_fmap. simpl.
    apply elem_of_map_range in Hp. destruct (ti_terms _ _ I _ _ Hp) as (t & _ & Ht & _). by exists t. }
  exists (S n). rw -Hn. cbn [replicate exec].
  assert (tstep s (LReap now) = Some (s <| y_reap := RScan (live_sessions s) false [] |>)) as ->; [|done].
  unfold tstep, tstep_body, Reap_step. by rw Hidle.
Qed.

(** ** The window sizes given to a PTY *)
Definition window_ok (op : nat * pty_op) : Prop :=
  match op.2 with
  | PtyStart _ _ c r _ | PtyResize c r => (0 < c < 2 ^ 16 ∧ 0 < r < 2 ^ 16)%Z
  | _ => True
  end.
Lemma uint16_of_bounds a : (0 ≤ uint16_of a < 2 ^ 16)%Z.
Proof. apply Z.mod_pos_bound. done. Qed.
Lemma open_size_ok size : (0 < (open_size size).1 < 2 ^ 16 ∧ 0 < (open_size size).2 < 2 ^ 16)%Z.
Proof.
  destruct size as [[c r]|]; [|done]. simpl.
  pose proof (uint16_of_bounds c). pose proof (uint16_of_bounds r).
  unfold defaultTermCols, defaultTermRows. repeat case_match; go_bool; lia.
Qed.

Definition ops_ok (s : tsys) : Prop := Forall window_ok (y_ops s).
Lemma ops_ok_do h op s s' :
  ops_ok s → y_ops s' = y_ops s ++ [(h, op)] → window_ok (h, op) → ops_ok s'.
Proof. unfold ops_ok. intros Hs -> Hop. apply Forall_app. split; [done|by constructor]. Qed.
Lemma ops_ok_same s s' : ops_ok s → y_ops s' = y_ops s → ops_ok s'.
Proof. by unfold ops_ok; intros ? ->. Qed.
Lemma ops_ok_close p s : ops_ok s → ops_ok (close p s).
Proof.
  unfold close. intros Hs. repeat case_match; try done. by eapply ops_ok_do.
Qed.

Lemma ops_ok_Open_start spec env st ok s : ops_ok s → ops_ok (Open_start spec env st ok s).
Proof.
  intros Hi. unfold Open_start. case_match; [done|]. case_match; [done|].
  pose proof (open_size_ok (o_size spec)) as Hz.
  destruct (open_size (o_size spec)) as [c r] eqn:E. case_match; by eapply ops_ok_do.
Qed.
Lemma ops_ok_Resize id size s : ops_ok s → ops_ok (Resize id size s).
Proof.
  intros Hi. unfold Resize. destruct (get id s) as [p|]; [|done]. destruct size as [[c r]|]; [|done].
  destruct ((uint16_of c =? 0)%Z || (uint16_of r =? 0)%Z) eqn:E; [done|]. go_bool.
  case_match; [|done]. eapply ops_ok_do; [done|done|].
  pose proof (uint16_of_bounds c). pose proof (uint16_of_bounds r). cbn. lia.
Qed.

(** Every window size handed to a PTY, when a shell starts and on
    every resize, has between 1 and 65535 columns and rows, whatever 32-bit
    sizes the server sends (a size that is zero modulo 2^16 falls back to
    80x24 on open and is ignored on resize). *)
Theorem terminal_window_bounds ls s : trun tinit ls s → Forall window_ok (y_ops s).
Proof.
  apply (trace_run_invariant (fun_step tstep) ops_ok); [|by apply Forall_nil].
  intros s0 l s1 Hi Hs. unfold fun_step, tstep in Hs. destruct (_ && _); [done|].
  destruct l as [spec env st ok|k' now stamp|id after ok|k' ok|p data err|p ok|p code msg|id data now
    |id size|id|id wrote|rid ok| | |k' now|now]; cbn [tstep_body] in Hs.
  - simplify_eq. by apply ops_ok_Open_start.
  - destruct (y_opens s0 !! k') as [[[id h]|]|]; cbn in Hs; simplify_eq.
    unfold Open_register. case_match; [by eapply ops_ok_do|by eapply ops_ok_same].
  - simplify_eq. unfold Attach_find. repeat case_match; by eapply ops_ok_same.
  - destruct (y_attaches s0 !! k') as [pc|]; cbn in Hs; [|done].
    destruct pc as [|? ? ? []|? ? []| |]; cbn in Hs; simplify_eq; try by eapply ops_ok_same.
    destruct (y_bufs s0 !! n) as [b|]; cbn in Hs; [|done]. destruct (replay b after). by simplify_eq.
  - destruct (y_pumps s0 !! p) as [pc|]; cbn in Hs; [|done].
    destruct (y_sessions s0 !! p) as [t|]; cbn in Hs; [|done].
    destruct pc; try done. case_match; simplify_eq. unfold pump_read. repeat case_match; by eapply ops_ok_same.
  - destruct (y_pumps s0 !! p) as [pc|]; cbn in Hs; [|done].
    destruct (y_sessions s0 !! p) as [t|]; cbn in Hs; [|done].
    destruct pc; cbn in Hs; simplify_eq; by eapply ops_ok_same.
  - destruct (y_pumps s0 !! p) as [pc|]; cbn in Hs; [|done].
    destruct (y_sessions s0 !! p) as [t|]; cbn in Hs; [|done].
    destruct pc; simplify_eq. by eapply ops_ok_same.
  - simplify_eq. unfold Input. repeat case_match; try done. by eapply ops_ok_do.
  - simplify_eq. by apply ops_ok_Resize.
  - simplify_eq. unfold Close. case_match; [by apply ops_ok_close|done].
  - simplify_eq. unfold Interrupt. repeat case_match; try done; by eapply ops_ok_do.
  - simplify_eq. by eapply ops_ok_same.
  - simplify_eq. unfold CloseAll. generalize (live_sessions s0). intros l. revert s0 Hi.
    induction l as [|p l IH]; intros s0 Hi; [done|]. simpl. by apply IH, ops_ok_close.
  - simplify_eq. by eapply ops_ok_same.
  - destruct (y_detaches s0 !! k') as [pc|]; cbn in Hs; [|done]. unfold Detach_step in Hs.
    repeat (case_match; simplify_option_eq; try done).
  - unfold Reap_step in Hs. destruct (y_reap s0) as [|[|p todo] [] picked|[|p ps]];
      simplify_option_eq; try by eapply ops_ok_same. by apply ops_ok_close.
Qed.
End system.

(** ** The recorded command line *)
Lemma recordInput_app now s a b : recordInput now s (a +:+ b) = recordInput now (recordInput now s a) b.
Proof. revert s. induction a as [|c a IH]; intros s; [done|]. exact (IH (recordByte now s c)). Qed.

Lemma recordByte_printable now s b :
  printable b = true → recordByte now s b = s <| t_lineBuf := t_lineBuf s +:+ String b "" |>.
Proof.
  intros Hp. pose proof Hp as [H1%N.leb_le H2%N.ltb_lt]%andb_true_iff. unfold recordByte, is_code.
  destruct (N.eqb_spec (code b) 10); [lia|]. destruct (N.eqb_spec (code b) 13); [lia|].
  destruct (N.eqb_spec (code b) 0x7f); [lia|]. destruct (N.eqb_spec (code b) 8); [lia|].
  destruct (N.eqb_spec (code b) 3); [lia|]. destruct (N.eqb_spec (code b) 0x1b); [lia|].
  cbn [orb]. by rw Hp.
Qed.

Lemma recordInput_printable now s line :
  all_chars printable line = true →
  recordInput now s line = s <| t_lineBuf := t_lineBuf s +:+ line |>.
Proof.
  revert s. induction line as [|b line IH]; intros s Hp.
  { destruct s; cbn. by rw string_app_nil_r. }
  cbn [all_chars] in Hp. go_bool. cbn [recordInput]. rw recordByte_printable; [|done]. rw IH; [|done].
  destruct s. cbn -[String.app]. by rw -string_app_assoc.
Qed.

(** Typing a line and return records it, without surrounding blanks; a blank
    line keeps the previous command. *)
Lemma recordInput_line now s line :
  all_chars printable line = true →
  let s' := recordInput now s (line +:+ String "013" "") in
  let cmd := TrimSpace (t_lineBuf s +:+ line) in
  t_lineBuf s' = "" ∧
  t_lastCommand s' = (if String.eqb cmd "" then t_lastCommand s else cmd) ∧
  t_lastCommandT s' = (if String.eqb cmd "" then t_lastCommandT s else Some now).
Proof.
  intros Hp s' cmd. subst s'. rw recordInput_app (recordInput_printable _ _ line); [|done].
  unfold recordInput, recordByte. cbn -[TrimSpace String.eqb String.app]. fold cmd.
  by destruct (String.eqb cmd "").
Qed.

(** The arrow-up key is ESC [ A: its last two bytes enter the recorded line. *)
Lemma recordInput_arrow_key :
  t_lastCommand (recordInput 5 (new_session "t" 0 0 0) (String "027" "[Als" +:+ String "013" "")) = "[Als".
Proof. reflexivity. Qed.

(** ** Concrete runs *)
Definition demo_spec : OpenSpec := mkOpen "t1" "" "" (Some (65616, 0)%Z).
(** minutes after some time in 2001 *)
Definition at_min (n : Z) : Z := 10 ^ 18 + n * 60 * 10 ^ 9.
Definition demo_open : list tlabel := [LOpen demo_spec [] (Ok ()) true; LOpenRegister 0 (at_min 5) (at_min 5)].
(** A chunk sent, a drop, one chunk while the stream is down, a reattach. *)
Definition demo_reconnect : list tlabel :=
  demo_open ++
  [LRead 0 "one" false; LPump 0 true; LPump 0 true; LPump 0 true;
   LDetachAll; LDetachStep 0 (at_min 6); LDetachStep 0 (at_min 6);
   LRead 0 "two" false; LPump 0 false; LAttach "t1" 1 true; LAttachStep 0 true].
Definition demo_replayed : list tlabel := [LAttachStep 0 true; LAttachStep 0 true; LAttachStep 0 true].
Definition state_after (s : tsys) (ls : list tlabel) : tsys := default tinit (exec tstep s ls).
Lemma run_after s ls : exec tstep s ls = Some (state_after s ls) → trun s ls (state_after s ls).
Proof. apply exec_run. Qed.

Definition reconnected : tsys := state_after tinit demo_reconnect.
Lemma reconnected_run : trun tinit demo_reconnect reconnected.
Proof. apply run_after. vm_compute. reflexivity. Qed.
Definition session_of (s : tsys) (p : nat) : terminalSession :=
  default (new_session "" 0 0 0) (y_sessions s !! p).

Lemma terminal_buffer_refines_witness :
  ∃ b, y_bufs reconnected !! 0 = Some b ∧ b_entries b = [mkEntry 1 "one"; mkEntry 2 "two"] ∧ b_size b = 6%Z.
Proof.
  destruct (terminal_buffer_refines demo_reconnect reconnected 0 (session_of reconnected 0))
    as (b & Hb & He & Hs & _); [vm_compute; reflexivity|apply reconnected_run|vm_compute; reflexivity|].
  exists b. rw Hs He. split_and!; [exact Hb|vm_compute; reflexivity|vm_compute; reflexivity].
Defined.

Lemma terminal_reattach_complete_witness :
  ∃ es truncated,
    attach_frames 0 (y_log (state_after reconnected demo_replayed)) = replay_frames "t1" es truncated ∧
    attach_frames 0 (y_log (state_after reconnected demo_replayed)) = [TerminalOutput "t1" "two" 2 false].
Proof.
  destruct (terminal_reattach_complete demo_reconnect reconnected 0 0 "t1" 1 0 demo_replayed
    (state_after reconnected demo_replayed) (AMark2 0)) as (la & lb & es & tr & _ & _ & Hfr);
    [vm_compute; reflexivity|lia|apply reconnected_run|vm_compute; reflexivity
    |apply run_after; vm_compute; reflexivity|vm_compute; reflexivity|reflexivity|].
  exists es, tr. split; [exact Hfr|vm_compute; reflexivity].
Defined.

Lemma terminal_output_then_exit_witness :
  ∃ n exits, pump_frames 0 (y_log reconnected) =
    outputs "t1" (take n [mkEntry 1 "one"; mkEntry 2 "two"]) ++ exits.
Proof.
  destruct (terminal_output_then_exit demo_reconnect reconnected 0 (session_of reconnected 0))
    as (n & exits & Hfr & _); [vm_compute; reflexivity|apply reconnected_run|vm_compute; reflexivity|].
  exists n, exits. exact Hfr.
Defined.

Lemma reap_scan_exact_witness :
  ∃ n, exec tstep (state_after tinit demo_open) (replicate n (LReap (at_min 35))) =
    Some (state_after tinit demo_open <| y_reap := RClose [0] |>).
Proof.
  destruct (reap_scan_exact demo_open (state_after tinit demo_open) (at_min 35)) as [n Hn];
    [vm_compute; reflexivity|apply run_after; vm_compute; reflexivity|vm_compute; reflexivity|].
  exists n. exact Hn.
Defined.

Lemma terminal_window_bounds_witness :
  Forall window_ok (y_ops reconnected) ∧ y_ops reconnected = [(0, PtyStart "" "" 80 24 [])].
Proof.
  split; [exact (terminal_window_bounds demo_reconnect reconnected reconnected_run)|vm_compute; reflexivity].
Defined.

(** ** Races *)

(** DetachAll running between the two stores of a pump's markAttached. *)
Definition race_detach : list tlabel :=
  demo_open ++
  [LRead 0 "one" false; LPump 0 true; LPump 0 true;
   LDetachAll; LDetachStep 0 (at_min 6); LDetachStep 0 (at_min 6); LPump 0 true].

(** When the stream drops between the two stores of a pump's
    markAttached, the terminal ends up detached with a zero detach time: it is
    registered and unattached, and no reaper pass at any later time selects
    it. *)
Theorem terminal_detach_race_leaks :
  ∃ s t, trun tinit race_detach s ∧ y_terms s !! "t1" = Some 0 ∧ y_sessions s !! 0 = Some t ∧
    y_pumps s = [PReading] ∧ t_attached t = false ∧
    ∀ now, ∃ n, exec tstep s (replicate n (LReap now)) = Some (s <| y_reap := RClose [] |>).
Proof.
  exists (state_after tinit race_detach), (session_of (state_after tinit race_detach) 0).
  split; [apply run_after; vm_compute; reflexivity|].
  do 4 (split; [vm_compute; reflexivity|]). intros now. exists 3. vm_compute. reflexivity.
Qed.

(** The reaper between its two loads while the pump marks the terminal attached. *)
Definition race_reap : list tlabel :=
  demo_open ++
  [LReap (at_min 5 + 1); LReap (at_min 5 + 1);
   LRead 0 "one" false; LPump 0 true; LPump 0 true; LPump 0 true;
   LReap (at_min 5 + 2); LReap (at_min 5 + 2); LReap (at_min 5 + 2)].

(** The reaper loads detachedAt twice: a terminal opened
    two nanoseconds ago whose output the stream has just accepted is closed,
    attached, because the second load reads zero and the time since the epoch
    exceeds the timeout. *)
Theorem terminal_reaper_kills_attached :
  ∃ s t, trun tinit race_reap s ∧ y_sessions s !! 0 = Some t ∧
    t_createdT t = (at_min 5) ∧ t_attached t = true ∧ t_closed t = true ∧
    last (y_ops s) = Some (t_pty t, PtyClose).
Proof.
  exists (state_after tinit race_reap), (session_of (state_after tinit race_reap) 0).
  split; [apply run_after; vm_compute; reflexivity|]. repeat split.
Qed.
