(* ===== verification/ProtoText.v ===== *)
(** * ProtoText: keeping upstream frames marshalable (common/agent/prototext.go)

    protobuf refuses to marshal a message that holds a string which is not
    valid UTF-8.  [SanitizeProtoStrings] repairs the strings of a frame before
    it is sent.  A protobuf message is its populated fields; [pvalue] has one
    constructor per kind of field the walk distinguishes.  The GBK decoder
    (golang.org/x/text) is a parameter. *)
From S2P Require Import Prelude GoStrings.
From Stdlib Require Import Ascii.

(** ** utf8.ValidString and strings.ToValidUTF8 *)
Definition good_rune (r : rune) : bool := match r with RInvalid _ => false | _ => true end.
Definition ValidString (s : string) : bool := forallb good_rune (runes s).

Definition rune_bytes (r : rune) : string :=
  match r with RAscii c => String c "" | RMulti enc => enc | RInvalid c => String c "" end.
Definition replacement : string := String "239" (String "191" (String "189" "")).  (** U+FFFD *)
(** a run of invalid bytes becomes one replacement *)
Fixpoint to_valid (in_run : bool) (rs : list rune) : string :=
  match rs with
  | [] => ""
  | RInvalid _ :: rs => if in_run then to_valid true rs else replacement +:+ to_valid true rs
  | r :: rs => rune_bytes r +:+ to_valid false rs
  end.
Definition ToValidUTF8 (s : string) : string := to_valid false (runes s).

(** A rune that decoding can produce. *)
Definition wf_rune (r : rune) : Prop :=
  match r with
  | RAscii c => (code c <? 0x80)%N = true
  | RInvalid _ => False
  | RMulti enc =>
      (∃ a b, enc = String a (String b "") ∧ ok2 a b = true) ∨
      (∃ a b c, enc = String a (String b (String c "")) ∧ ok3 a b c = true) ∨
      (∃ a b c d, enc = String a (String b (String c (String d ""))) ∧ ok4 a b c d = true)
  end.

Lemma ok2_lead a b : ok2 a b = true → (code a <? 0x80)%N = false.
Proof.
  unfold ok2, in_range. intros H. apply andb_true_iff in H as [[H%N.leb_le _]%andb_true_iff _].
  apply N.ltb_ge. lia.
Qed.
Lemma ok3_lead a b c : ok3 a b c = true → (code a <? 0x80)%N = false ∧ ok2 a b = false.
Proof.
  unfold ok3, ok2, is_code, in_range. intros H. apply andb_true_iff in H as [H _].
  assert (0xE0 ≤ code a)%N as Hle.
  { repeat (apply orb_true_iff in H as [H|H]);
      repeat match goal with H : (_ && _) = true |- _ => apply andb_true_iff in H as [? ?] end.
    - match goal with H : (code a =? _)%N = true |- _ => apply N.eqb_eq in H end. lia.
    - match goal with H : (code a =? _)%N = true |- _ => apply N.eqb_eq in H end. lia.
    - match goal with H : (_ || _) = true |- _ => apply orb_true_iff in H as [H|H] end;
        apply andb_true_iff in H as [H%N.leb_le _]; lia. }
  split; [apply N.ltb_ge; lia|]. rw (proj2 (N.leb_gt (code a) 0xDF)); [|lia]. by rw andb_false_r.
Qed.
Lemma ok4_lead a b c d :
  ok4 a b c d = true → (code a <? 0x80)%N = false ∧ ok2 a b = false ∧ ok3 a b c = false.
Proof.
  intros H. assert (0xF0 ≤ code a)%N as Hle.
  { unfold ok4, is_code, in_range in H. apply andb_true_iff in H as [[H _]%andb_true_iff _].
    repeat (apply orb_true_iff in H as [H|H]);
      repeat match goal with H : (_ && _) = true |- _ => apply andb_true_iff in H as [? ?] end;
      repeat match goal with
        | H : (code a =? _)%N = true |- _ => apply N.eqb_eq in H
        | H : (_ <=? code a)%N = true |- _ => apply N.leb_le in H end; lia. }
  split; [apply N.ltb_ge; lia|]. unfold ok2, ok3, is_code, in_range.
  rw (proj2 (N.leb_gt (code a) 0xDF)); [|lia].
  rw (proj2 (N.eqb_neq (code a) 0xE0)); [|lia]. rw (proj2 (N.eqb_neq (code a) 0xED)); [|lia].
  rw (proj2 (N.leb_gt (code a) 0xEC)); [|lia]. rw (proj2 (N.leb_gt (code a) 0xEF)); [|lia].
  by rw !andb_false_r.
Qed.

Lemma runes_cons r s : wf_rune r → runes (rune_bytes r +:+ s) = r :: runes s.
Proof.
  destruct r as [c|enc|c]; simpl; [| |done].
  - intros Hc. change (String c "" +:+ s) with (String c s). cbn [runes]. by rw Hc.
  - intros [(a & b & -> & H)|[(a & b & c & -> & H)|(a & b & c & d & -> & H)]].
    + change (String a (String b "") +:+ s) with (String a (String b s)). cbn [runes].
      by rw (ok2_lead _ _ H) H.
    + change (String a (String b (String c "")) +:+ s) with (String a (String b (String c s))).
      destruct (ok3_lead _ _ _ H) as [H1 H2]. cbn [runes]. by rw H1 H2 H.
    + change (String a (String b (String c (String d ""))) +:+ s)
        with (String a (String b (String c (String d s)))).
      destruct (ok4_lead _ _ _ _ H) as (H1 & H2 & H3). cbn [runes]. by rw H1 H2 H3 H.
Qed.

Lemma runes_wf n s :
  String.length s ≤ n → Forall (λ r, good_rune r = true → wf_rune r) (runes s).
Proof.
  revert s. induction n as [|n IH]; intros s Hn; destruct s as [|a s1]; simpl in Hn; try lia; try done.
  cbn [runes]. destruct (code a <? 0x80)%N eqn:E; [constructor; [done|]; apply IH; lia|].
  destruct s1 as [|b s2]; [by constructor|]. simpl in Hn.
  destruct (ok2 a b) eqn:E2; [constructor; [intros _; left; eauto|apply IH; lia]|].
  destruct s2 as [|c s3]; [constructor; [done|apply IH; simpl; lia]|]. simpl in Hn.
  destruct (ok3 a b c) eqn:E3; [constructor; [intros _; right; left; eauto 6|apply IH; lia]|].
  destruct s3 as [|d s4]; [constructor; [done|apply IH; simpl; lia]|]. simpl in Hn.
  destruct (ok4 a b c d) eqn:E4; [constructor; [intros _; right; right; eauto 8|apply IH; lia]|].
  constructor; [done|apply IH; simpl; lia].
Qed.

Lemma replacement_wf : wf_rune (RMulti replacement).
Proof. right. left. by exists "239"%char, "191"%char, "189"%char. Qed.

Lemma to_valid_good b rs :
  Forall (λ r, good_rune r = true → wf_rune r) rs → ValidString (to_valid b rs) = true.
Proof.
  unfold ValidString. revert b. induction rs as [|r rs IH]; intros b Hall; [done|].
  inversion Hall as [|? ? Hr Hrs]; subst.
  destruct r as [c|enc|c]; cbn [to_valid].
  - rw runes_cons; [|by apply Hr]. cbn. by apply IH.
  - rw (runes_cons (RMulti enc)); [|by apply Hr]. cbn. by apply IH.
  - destruct b; [by apply IH|]. rw (runes_cons (RMulti replacement)); [|apply replacement_wf].
    cbn. by apply IH.
Qed.
Lemma ToValidUTF8_valid s : ValidString (ToValidUTF8 s) = true.
Proof. apply to_valid_good. by eapply runes_wf. Qed.

(** ** Messages *)
Inductive pvalue :=
| PString (s : string)
| PStrings (l : list string)                       (** repeated string *)
| PStrMap (m : list (string * string))             (** map<string, string> *)
| PScalar (n : Z)                                  (** numbers, booleans, enums *)
| PBytes (b : string)
| PMessage (fields : list (string * pvalue))
| PMessages (l : list (list (string * pvalue)))    (** repeated message *)
| PMsgMap (m : list (string * list (string * pvalue))).
Definition pmsg : Type := list (string * pvalue).

Section gbk.
(** simplifiedchinese.GBK.NewDecoder(), [None] when it fails *)
Variable gbk : string → option string.

Definition SanitizeUTF8 (s : string) : string :=
  if String.eqb s "" || ValidString s then s
  else match gbk s with
       | Some decoded => if ValidString decoded then decoded else ToValidUTF8 s
       | None => ToValidUTF8 s
       end.

(** each branch tests the string before it repairs it *)
Definition fix_string (s : string) : string := if ValidString s then s else SanitizeUTF8 s.

Fixpoint sanitizeReflect (v : pvalue) : pvalue :=
  match v with
  | PStrMap m => PStrMap (map (λ kv, (kv.1, fix_string kv.2)) m)
  | PMsgMap m => PMsgMap m                        (** MapValue().Kind() != StringKind *)
  | PStrings l => PStrings (map fix_string l)
  | PMessages l => PMessages l                    (** Kind() != StringKind *)
  | PString s => PString (fix_string s)
  | PMessage fs => PMessage (map (λ kv, (kv.1, sanitizeReflect kv.2)) fs)
  | PScalar n => PScalar n
  | PBytes b => PBytes b
  end.
Definition SanitizeProtoStrings (m : pmsg) : pmsg :=
  map (λ kv, (kv.1, sanitizeReflect kv.2)) m.

(** ** What protobuf marshals *)
Fixpoint marshalable_value (v : pvalue) : bool :=
  match v with
  | PString s => ValidString s
  | PStrings l => forallb ValidString l
  | PStrMap m => forallb (λ kv, ValidString kv.1 && ValidString kv.2) m
  | PScalar _ | PBytes _ => true
  | PMessage fs => forallb (λ kv, marshalable_value kv.2) fs
  | PMessages l => forallb (forallb (λ kv, marshalable_value kv.2)) l
  | PMsgMap m => forallb (λ kv, ValidString kv.1 && forallb (λ f, marshalable_value f.2) kv.2) m
  end.
Definition marshalable (m : pmsg) : bool := forallb (λ kv, marshalable_value kv.2) m.

(** The parts of a message the walk does not repair are in order: repeated
    messages, map keys and maps of messages. *)
Fixpoint reachable_ok (v : pvalue) : bool :=
  match v with
  | PString _ | PStrings _ | PScalar _ | PBytes _ => true
  | PStrMap m => forallb (λ kv, ValidString kv.1) m
  | PMessage fs => forallb (λ kv, reachable_ok kv.2) fs
  | PMessages _ | PMsgMap _ => marshalable_value v
  end.

Section ind.
Variable P : pvalue → Prop.
Hypothesis HS : ∀ s, P (PString s).
Hypothesis HL : ∀ l, P (PStrings l).
Hypothesis HM : ∀ m, P (PStrMap m).
Hypothesis HN : ∀ n, P (PScalar n).
Hypothesis HB : ∀ b, P (PBytes b).
Hypothesis HG : ∀ fs, Forall (λ kv, P kv.2) fs → P (PMessage fs).
Hypothesis HR : ∀ l, P (PMessages l).
Hypothesis HW : ∀ m, P (PMsgMap m).
(** Induction through singular messages. *)
Fixpoint pvalue_walk (v : pvalue) : P v :=
  match v with
  | PString s => HS s
  | PStrings l => HL l
  | PStrMap m => HM m
  | PScalar n => HN n
  | PBytes b => HB b
  | PMessage fs =>
      HG fs ((fix go (fs : list (string * pvalue)) : Forall (λ kv, P kv.2) fs :=
        match fs with
        | [] => List.Forall_nil _
        | (k, v) :: fs => List.Forall_cons _ (k, v) fs (pvalue_walk v) (go fs)
        end) fs)
  | PMessages l => HR l
  | PMsgMap m => HW m
  end.
End ind.

Lemma fix_string_valid s : ValidString (fix_string s) = true.
Proof.
  unfold fix_string. destruct (ValidString s) eqn:E; [done|]. unfold SanitizeUTF8.
  rw E. destruct (String.eqb_spec s "") as [->|]; [done|]. simpl.
  destruct (gbk s) as [d|]; [|apply ToValidUTF8_valid].
  destruct (ValidString d) eqn:Ed; [done|apply ToValidUTF8_valid].
Qed.

Lemma forallb_map_Forall {A} (f : A → A) (P : A → bool) l :
  Forall (λ x, P (f x) = true) l → forallb P (map f l) = true.
Proof. induction 1 as [|x l Hx _ IH]; simpl; [done|]. by rw Hx IH. Qed.
Lemma forallb_Forall {A} (P : A → bool) l : forallb P l = true ↔ Forall (λ x, P x = true) l.
Proof.
  split; [|induction 1 as [|x l Hx _ IH]; simpl; [done|]; by rw Hx IH].
  induction l as [|x l IH]; simpl; [done|]. intros [Hx Hl]%andb_true_iff. constructor; auto.
Qed.

Lemma sanitize_value_marshalable v :
  reachable_ok v = true → marshalable_value (sanitizeReflect v) = true.
Proof.
  induction v using pvalue_walk; simpl; intros Hr; try done.
  - apply fix_string_valid.
  - apply forallb_map_Forall, Forall_forall. intros. apply fix_string_valid.
  - apply forallb_map_Forall. apply forallb_Forall in Hr. eapply Forall_impl; [exact Hr|].
    intros [k s] Hk. simpl in *. by rw Hk fix_string_valid.
  - apply forallb_map_Forall. apply forallb_Forall in Hr.
    eapply Forall_impl; [exact (proj2 (Forall_and _ _) (conj H Hr))|]. intros [k v] [H1 H2]. by apply H1.
Qed.

(** Every upstream frame whose invalid text lies in strings, repeated
    strings, map values and nested messages marshals after
    [SanitizeProtoStrings], whatever the GBK decoder answers. *)
Theorem sanitize_marshalable m :
  Forall (λ kv, reachable_ok kv.2 = true) m → marshalable (SanitizeProtoStrings m) = true.
Proof.
  intros Hall. apply forallb_map_Forall. eapply Forall_impl; [exact Hall|].
  intros [k v]. apply sanitize_value_marshalable.
Qed.

Lemma fix_string_id s : ValidString s = true → fix_string s = s.
Proof. unfold fix_string. by intros ->. Qed.
Lemma map_id_Forall {A} (f : A → A) l : Forall (λ x, f x = x) l → map f l = l.
Proof. induction 1 as [|x l Hx _ IH]; simpl; [done|]. by rw Hx IH. Qed.
Lemma sanitize_value_id v : marshalable_value v = true → sanitizeReflect v = v.
Proof.
  induction v using pvalue_walk; simpl; intros Hm; try done; f_equal.
  - by apply fix_string_id.
  - apply map_id_Forall. apply forallb_Forall in Hm. eapply Forall_impl; [exact Hm|]. apply fix_string_id.
  - apply map_id_Forall. apply forallb_Forall in Hm. eapply Forall_impl; [exact Hm|].
    intros [k s] [_ Hs]%andb_true_iff. simpl in *. by rw fix_string_id.
  - apply map_id_Forall. apply forallb_Forall in Hm.
    eapply Forall_impl; [exact (proj2 (Forall_and _ _) (conj H Hm))|]. intros [k v] [H1 H2].
    simpl in *. by rw H1.
Qed.
(** A frame that already marshals is not changed. *)
Lemma sanitize_id m : marshalable m = true → SanitizeProtoStrings m = m.
Proof.
  unfold marshalable. intros Hm%forallb_Forall. apply map_id_Forall.
  eapply Forall_impl; [exact Hm|]. intros [k v] Hv. simpl in *. by rw sanitize_value_id.
Qed.

(** Text inside a repeated message is never repaired: a frame that
    carries a list of messages with one invalid string does not marshal after
    [SanitizeProtoStrings]. *)
Theorem sanitize_skips_repeated name l :
  marshalable_value (PMessages l) = false →
  marshalable (SanitizeProtoStrings [(name, PMessages l)]) = false.
Proof. intros Hl. unfold marshalable. simpl in *. by rw Hl. Qed.
End gbk.

(** "\xd6\xd0", the GBK encoding of a character, which is not UTF-8. *)
Definition gbk_text : string := String "214" (String "208" "").
Lemma sanitize_marshalable_witness :
  marshalable [("error", PString gbk_text)] = false ∧
  marshalable (SanitizeProtoStrings (λ _, None) [("error", PString gbk_text)]) = true.
Proof.
  split; [vm_compute; reflexivity|].
  apply (sanitize_marshalable (λ _, None) [("error", PString gbk_text)]).
  constructor; [reflexivity|constructor].
Defined.
Lemma sanitize_skips_repeated_witness :
  marshalable (SanitizeProtoStrings (λ _, Some "x")
    [("sessions", PMessages [[("error", PString gbk_text)]])]) = false.
Proof. apply sanitize_skips_repeated. vm_compute. reflexivity. Defined.
