(* ===== verification/NodeClient.v ===== *)
(** * NodeClient: the node's connection to the server (common/agent/client.go,
    with ioscap.go, netinfo.go, downloadproxy.go and prototext.go)

    [Run] dials, registers and serves one stream after another with an
    exponential backoff; heartbeats, the public-IP resolver and the handler's
    goroutines share the stream through [EmitUpstream].  [cstep] has one label
    per critical section of Client.mu, per message received and per outcome of
    a send, so that any goroutine may emit between any two steps of [serve].

    Frames on the wire are protobuf messages ([ProtoText.pmsg]); sending one
    fails when the network does or when it does not marshal. *)
From S2P Require Import Prelude GoStrings ProtoText Totp.
From Stdlib Require Import Ascii.

(** ** Options and the host *)
Inductive NodeRole := NODE_ROLE_EXECUTION | NODE_ROLE_MANAGEMENT | NODE_ROLE_IOS_HOST.
Inductive NodeStatus :=
| NODE_STATUS_UNSPECIFIED | NODE_STATUS_PENDING | NODE_STATUS_APPROVED | NODE_STATUS_REVOKED.
#[export] Instance NodeStatus_eq_dec : EqDecision NodeStatus.
Proof. solve_decision. Defined.

Record Options := mkOptions {
  Server : string; NodeID : string; Secret : string; NodeName : string; Role : string;
  Version : string; Providers : list string; Labels : gmap string string;
  SystemEnvAllowed : bool; IosMgmtAllowed : bool; IosMgmtMode : string; WorkRoot : string;
  MinBackoff : Z; MaxBackoff : Z;
  Docker : bool; TLSInsecure : bool; Heartbeat : Z
}.

(** What the capability probes answer. *)
Record host := mkHost {
  h_os : string; h_arch : string; h_docker : bool; h_editors : list pmsg;
  h_systemLabels : gmap string string; h_localIPv4 : string;
  h_editorLabels : gmap string string; h_hostToolLabels : gmap string string;
  h_usbmuxd : bool; h_startupMethod : string
}.

Definition nodeRoleToProto (role : string) : NodeRole :=
  if String.eqb role "management" then NODE_ROLE_MANAGEMENT
  else if String.eqb role "ios_host" then NODE_ROLE_IOS_HOST
  else NODE_ROLE_EXECUTION.

(** *** ioscap.go *)
Definition normalizeIosMgmt (value : string) : string :=
  let v := ToLower (TrimSpace value) in
  if existsb (String.eqb v) [""; "auto"] then "auto"
  else if existsb (String.eqb v) ["on"; "true"; "1"; "yes"] then "on"
  else if existsb (String.eqb v) ["off"; "false"; "0"; "no"] then "off"
  else "".
Definition IosMgmtProbed (mode : string) : bool := String.eqb (normalizeIosMgmt mode) "auto".
Definition ResolveIosMgmtCapability (usbmuxd : bool) (value : string) : result bool :=
  let m := normalizeIosMgmt value in
  if String.eqb m "auto" then Ok usbmuxd
  else if String.eqb m "on" then Ok true
  else if String.eqb m "off" then Ok false
  else Err ("invalid --ios " +:+ value).
(** [env] is USBMUXD_SOCKET_ADDRESS *)
Definition usbmuxdProbeAddr (windows : bool) (env : string) : string * string :=
  let override := TrimSpace env in
  if negb (String.eqb override "") then
    match Index override "://" with
    | Some i => (ToLower (take_bytes i override), drop_bytes (i + 3) override)
    | None => if Contains override ":" then ("tcp", override) else ("unix", override)
    end
  else if windows then ("tcp", "127.0.0.1:27015")
  else ("unix", "/var/run/usbmuxd").

Definition resolveIosMgmt (o : Options) (h : host) : bool :=
  if IosMgmtProbed (IosMgmtMode o) then h_usbmuxd h else IosMgmtAllowed o.

(** *** capabilityLabels *)
Definition internalNetworkLabels (h : host) : gmap string string :=
  if negb (String.eqb (h_localIPv4 h) "") then {[ "internal_ip" := h_localIPv4 h ]} else ∅.
(** [labels[k] = v], guarded *)
Definition put_if (b : bool) (k v : string) (labels : gmap string string) : gmap string string :=
  if b then <[k := v]> labels else labels.
Definition capabilityLabels (o : Options) (h : host) : gmap string string :=
  let labels := h_systemLabels h in
  let labels := internalNetworkLabels h ∪ labels in
  let labels := h_editorLabels h ∪ labels in
  let labels := h_hostToolLabels h ∪ labels in
  let labels := put_if (negb (String.eqb (TrimSpace (Version o)) "")) "client_version" (TrimSpace (Version o)) labels in
  let labels := Labels o ∪ labels in
  let labels := <["terminal" := "true"]> labels in
  let labels := <["host_exec" := "true"]> labels in
  let labels := <["file_upload" := "true"]> labels in
  let labels := <["tool_run" := "true"]> labels in
  let labels := <["tool_run_runtime_v2" := "true"]> labels in
  let labels := put_if (SystemEnvAllowed o) "system_env" "true" labels in
  let labels := put_if (resolveIosMgmt o h) "ios_mgmt" "true" labels in
  let labels := <["startup_method" := h_startupMethod h]> labels in
  put_if (negb (String.eqb (TrimSpace (WorkRoot o)) "")) "work_root" (TrimSpace (WorkRoot o)) labels.

(** ** Upstream frames *)
Inductive upkind := KRegister | KHeartbeat | KCommandAck | KUpgradeEvent | KOther.
#[export] Instance upkind_eq_dec : EqDecision upkind.
Proof. solve_decision. Defined.
Record upframe := mkUp { u_kind : upkind; u_body : pmsg }.

Definition bool_field (b : bool) : pvalue := PScalar (if b then 1 else 0).
Definition role_field (r : NodeRole) : pvalue :=
  PScalar match r with NODE_ROLE_EXECUTION => 1 | NODE_ROLE_MANAGEMENT => 2 | NODE_ROLE_IOS_HOST => 4 end.
Definition NodeCapabilities (o : Options) (h : host) : pmsg :=
  [("os", PString (h_os h)); ("arch", PString (h_arch h)); ("docker", bool_field (h_docker h));
   ("providers", PStrings (Providers o)); ("editors", PMessages (h_editors h));
   ("labels", PStrMap (map_to_list (capabilityLabels o h)))].
Definition register_frame (o : Options) (h : host) (code : string) : upframe :=
  mkUp KRegister
    [("node_id", PString (NodeID o)); ("totp_code", PString code); ("node_name", PString (NodeName o));
     ("role", role_field (nodeRoleToProto (Role o))); ("capabilities", PMessage (NodeCapabilities o h))].
(** [register]: the frame it sends, or the error before it sends anything *)
Definition register (o : Options) (h : host) (serverTime : Z) : result upframe :=
  match DecodeSecret (Secret o) with
  | Err e => Err ("decode node secret: " +:+ e)
  | Ok secret => Ok (register_frame o h (Generate secret serverTime))
  end.

(** *** Acks; [cmdErr] is nil as [None] *)
Definition ack_frame (frameID : string) (cmdErr : option string) (fields : pmsg) : upframe :=
  mkUp KCommandAck
    ([("server_frame_id", PString frameID); ("ok", bool_field (bool_decide (cmdErr = None)))] ++ fields ++
     match cmdErr with Some e => [("error", PString e)] | None => [] end).
Definition SendAck frameID cmdErr (sessions : list pmsg) : upframe :=
  ack_frame frameID cmdErr [("sessions", PMessages sessions)].
Definition SendConfigAck frameID cmdErr (appliedRevision effectiveRevision : Z) (restartRequired : bool) : upframe :=
  ack_frame frameID cmdErr
    [("applied_revision", PScalar appliedRevision); ("effective_revision", PScalar effectiveRevision);
     ("restart_required", bool_field restartRequired)].
Definition SendEditorAck frameID cmdErr (editorVersion : string) : upframe :=
  ack_frame frameID cmdErr [("editor_version", PString editorVersion)].
Definition SendHostToolAck frameID cmdErr (nodeVersion npmVersion xcodebuildVersion : string) : upframe :=
  ack_frame frameID cmdErr
    [("node_version", PString nodeVersion); ("npm_version", PString npmVersion);
     ("xcodebuild_version", PString xcodebuildVersion)].
(** the payload of these three is dropped on error *)
Definition on_success (cmdErr : option string) (fields : pmsg) : pmsg :=
  match cmdErr with Some _ => [] | None => fields end.
Definition SendRefreshLabelsAck frameID cmdErr (caps : pmsg) : upframe :=
  ack_frame frameID cmdErr (on_success cmdErr [("refreshed_capabilities", PMessage caps)]).
Definition SendEnvironmentInventoryAck frameID cmdErr (inventory : list pmsg) : upframe :=
  ack_frame frameID cmdErr (on_success cmdErr [("environment_inventory", PMessages inventory)]).
Definition SendSystemEnvInventoryAck frameID cmdErr (inventory : list pmsg) : upframe :=
  ack_frame frameID cmdErr (on_success cmdErr [("system_env_inventory", PMessages inventory)]).
Definition refreshLabels (o : Options) (h : host) (frameID : string) : upframe :=
  SendRefreshLabelsAck frameID None (NodeCapabilities o h).
(** one call of the closure of UpgradeEventEmitter; returns the counter *)
Definition UpgradeEvent (serverFrameID kind : string) (seq : Z) (stage message : string)
    (percent currentBytes totalBytes : Z) (reportedAt : string) : Z * upframe :=
  let seq := (seq + 1)%Z in
  (seq, mkUp KUpgradeEvent
    [("server_frame_id", PString serverFrameID); ("kind", PString kind); ("seq", PScalar seq);
     ("stage", PString stage); ("message", PString message); ("percent", PScalar (int32_of percent));
     ("current_bytes", PScalar currentBytes); ("total_bytes", PScalar totalBytes);
     ("reported_at", PString reportedAt)]).

(** ** The client's state *)
Record publicIPState := mkPublicIP {
  configRevision : Z; ipv4URLs : list string; ipv6URLs : list string;
  ipv4 : string; ipv6 : string; ipv4ResolvedAt : string; ipv6ResolvedAt : string;
  ipv4Disabled : bool; ipv6Disabled : bool
}.
#[export] Instance eta_publicIPState : Settable publicIPState := λ p,
  mkPublicIP (configRevision p) (ipv4URLs p) (ipv6URLs p) (ipv4 p) (ipv6 p)
    (ipv4ResolvedAt p) (ipv6ResolvedAt p) (ipv4Disabled p) (ipv6Disabled p).
Record proxyState := mkProxy {
  px_revision : Z; px_mode : string; px_url : string; px_urlPrefix : string }.
Record client := mkClient {
  c_nodeID : string;
  c_stream : option nat;        (** currentStream *)
  c_registered : bool;
  c_approved : bool;
  c_publicIP : publicIPState;
  c_wake : bool;                (** publicIPWake holds a token *)
  c_proxy : proxyState;
  c_gatewayOrigin : string
}.
#[export] Instance eta_client : Settable client := λ c,
  mkClient (c_nodeID c) (c_stream c) (c_registered c) (c_approved c) (c_publicIP c)
    (c_wake c) (c_proxy c) (c_gatewayOrigin c).
Definition NewClient : client :=
  mkClient "" None false false (mkPublicIP 0 [] [] "" "" "" "" false false) false (mkProxy 0 "" "" "") "".

Definition setCurrentStream (s : option nat) (c : client) : client := c <| c_stream := s |>.
Definition setRegistered (v : bool) (c : client) : client := c <| c_registered := v |>.
Definition setNodeID (id : string) (c : client) : client := c <| c_nodeID := id |>.
Definition setApproved (v : bool) (c : client) : client := c <| c_approved := v |>.

(** *** GatewayOrigin *)
Definition announceGateway (origin : string) (c : client) : client :=
  if negb (String.eqb (TrimSpace origin) "")
  then c <| c_gatewayOrigin := TrimRightChar "/" (TrimSpace origin) |> else c.
Definition GatewayOrigin (o : Options) (c : client) : string :=
  let origin := TrimSpace (c_gatewayOrigin c) in
  if negb (String.eqb origin "") then TrimRightChar "/" origin
  else TrimRightChar "/" (TrimSpace (Server o)).

(** *** Egress proxy *)
Definition applyNodeProxyConfig (config : proxyState) (c : client) : client :=
  if (px_revision config <=? px_revision (c_proxy c))%Z && negb (px_revision (c_proxy c) =? 0)%Z then c
  else c <| c_proxy := config |>.
Record proxySpec := mkSpec { sp_mode : string; sp_url : string; sp_urlPrefix : string }.
Definition DownloadProxy (c : client) : proxySpec :=
  mkSpec (px_mode (c_proxy c)) (px_url (c_proxy c)) (px_urlPrefix (c_proxy c)).
Definition resolveDownloadURL (spec : proxySpec) (rawURL : string) : string :=
  if String.eqb (sp_mode spec) "url_prefix" && negb (String.eqb (sp_urlPrefix spec) "")
  then TrimRightChar "/" (sp_urlPrefix spec) +:+ "/" +:+ TrimLeftChar "/" rawURL
  else rawURL.
Definition ResolveDownloadURL (c : client) (rawURL : string) : string :=
  resolveDownloadURL (DownloadProxy c) rawURL.
(** Which http.Client a download gets; net/url's parse is an argument and
    answers scheme and host. *)
Inductive http_client := H1Direct | DefaultClient | H1Proxy (url : string) | Socks5 (url : string).
Definition httpClientForProxy (parse : string → option (string * string)) (socks_ok : bool)
    (spec : proxySpec) : result http_client :=
  if String.eqb (sp_mode spec) "" || String.eqb (sp_mode spec) "direct" then Ok H1Direct
  else if String.eqb (sp_mode spec) "url_prefix" then Ok DefaultClient
  else if negb (String.eqb (sp_mode spec) "network") then
    Err ("download: unsupported proxy_mode " +:+ sp_mode spec)
  else match parse (sp_url spec) with
  | None => Err "download: invalid proxy_url"
  | Some (scheme, hst) =>
      if String.eqb hst "" then Err "download: invalid proxy_url"
      else if String.eqb scheme "http" || String.eqb scheme "https" then Ok (H1Proxy (sp_url spec))
      else if String.eqb scheme "socks5" || String.eqb scheme "socks5h" then
        (if socks_ok then Ok (Socks5 (sp_url spec)) else Err "download: socks5 dialer")
      else Err ("download: unsupported proxy scheme " +:+ scheme)
  end.

(** *** Public IP *)
Record publicIPConfig := mkIPConfig { ic_revision : Z; ic_ipv4 : list string; ic_ipv6 : list string }.
Definition is_nil {A} (l : list A) : bool := match l with [] => true | _ => false end.
Definition applyPublicIPConfig (config : publicIPConfig) (c : client) : client :=
  let p := c_publicIP c in
  if (ic_revision config <=? configRevision p)%Z then c
  else
    let off4 := is_nil (ic_ipv4 config) in
    let off6 := is_nil (ic_ipv6 config) in
    c <| c_publicIP := mkPublicIP (ic_revision config) (ic_ipv4 config) (ic_ipv6 config)
           (if off4 then "" else ipv4 p) (if off6 then "" else ipv6 p)
           (if off4 then "" else ipv4ResolvedAt p) (if off6 then "" else ipv6ResolvedAt p)
           off4 off6 |>
      <| c_wake := true |>.
Definition updatePublicIPResult (revision : Z) (v4 : bool) (ip now : string) (c : client) : client :=
  let p := c_publicIP c in
  if negb (revision =? configRevision p)%Z then c
  else if v4 then c <| c_publicIP := p <| ipv4 := ip |> <| ipv4ResolvedAt := now |> <| ipv4Disabled := false |> |>
  else c <| c_publicIP := p <| ipv6 := ip |> <| ipv6ResolvedAt := now |> <| ipv6Disabled := false |> |>.
Definition publicIPReport (c : client) : option pmsg :=
  let p := c_publicIP c in
  if (configRevision p =? 0)%Z then None
  else Some [("config_revision", PScalar (configRevision p)); ("ipv4", PString (ipv4 p));
             ("ipv6", PString (ipv6 p)); ("ipv4_resolved_at", PString (ipv4ResolvedAt p));
             ("ipv6_resolved_at", PString (ipv6ResolvedAt p));
             ("ipv4_disabled", bool_field (ipv4Disabled p)); ("ipv6_disabled", bool_field (ipv6Disabled p))].

(** netinfo.go: the sources in order, until one address has three votes *)
Definition publicIPConsensusVotes : nat := 3.
Fixpoint count_votes (fetch : string → result string) (votes : gmap string nat) (failures : nat)
    (urls : list string) : result string :=
  match urls with
  | [] => Err ("no address reached 3 votes (" +:+ itoa (N.of_nat failures) +:+ " sources failed)")
  | rawURL :: urls =>
      match fetch rawURL with
      | Err _ => count_votes fetch votes (S failures) urls
      | Ok ip =>
          let n := S (default 0%nat (votes !! ip)) in
          if (publicIPConsensusVotes <=? n)%nat then Ok ip
          else count_votes fetch (<[ip := n]> votes) failures urls
      end
  end.
Definition resolvePublicIP (fetch : string → result string) (urls : list string) : result string :=
  count_votes fetch ∅ 0%nat urls.

(** ** The connection loop *)
Inductive downframe :=
| DServerHello (serverTime : result Z) (gatewayOrigin : string)   (** time.Parse's answer *)
| DRegistered (nodeID : string) (status : NodeStatus)
| DPublicIPLookupConfig (config : publicIPConfig)
| DNodeProxyConfig (config : proxyState)
| DError (message : string) (terminal : bool)
| DRefreshLabels (serverFrameID : string)
| DCommand (payload : string).

(** Where Run and serve are. [t] is startedAt, [n] the stream. *)
Inductive run_pc :=
| AtTop
| AtHello (n : nat) (t : Z)
| AtRegister (n : nat) (t : Z) (serverTime : Z)
| AtAck (n : nat) (t : Z)
| AtGate (n : nat) (t : Z) (status : NodeStatus)     (** before setRegistered(true) *)
| AtStatus (n : nat) (t : Z) (status : NodeStatus)   (** before the REVOKED test *)
| Serving (n : nat) (t : Z)                          (** head of dispatchLoop *)
| Receiving (n : nat) (t : Z)                        (** in stream.Receive *)
| Unwinding (n : nat) (t : Z)                        (** dispatchLoop returned *)
| Closing (n : nat) (t : Z)                          (** deferred setRegistered(false) *)
| Detaching (n : nat) (t : Z)                        (** deferred setCurrentStream(nil) *)
| Lost (t : Z)                                       (** serve returned *)
| Sleeping
| Returned.

Record ip_job := mkJob { j_revision : Z; j_v4 : bool; j_urls : list string }.

Record csys := mkCsys {
  k_client : client;
  k_pc : run_pc;
  k_backoff : Z;
  k_ctx : bool;                 (** Run's context is cancelled *)
  k_cancelled : bool;           (** streamCtx was cancelled *)
  k_heartbeat : bool;           (** heartbeatLoop is running *)
  k_resolver : bool;            (** publicIPLoop is running *)
  k_jobs : list ip_job;         (** its lookups under way *)
  k_streams : nat;
  k_wire : list (nat * upframe * bool);   (** every Send, with its outcome *)
  k_stops : nat;                (** calls of handler.StopAll *)
  k_serves : nat;               (** times the dispatch loop was entered *)
  k_sleeps : list Z;
  k_handled : list string
}.
#[export] Instance eta_csys : Settable csys := λ s,
  mkCsys (k_client s) (k_pc s) (k_backoff s) (k_ctx s) (k_cancelled s) (k_heartbeat s)
    (k_resolver s) (k_jobs s) (k_streams s) (k_wire s) (k_stops s) (k_serves s) (k_sleeps s) (k_handled s).

Inductive clabel :=
| LDial (now : Z) (ok : bool)                    (** loop head, NodeConnect, Send(nil) *)
| LHello (r : option downframe)                  (** Receive; [None] is an error *)
| LRegister (h : host) (ok : bool)
| LAck (r : option downframe)
| LGate
| LStatus
| LLoop                                          (** the test of ctx.Err() *)
| LRecv (r : option downframe)
| LHeartbeat (body : pmsg) (ok : bool)
| LHeartbeatExit
| LRefreshIPs
| LIPResult (i : nat) (fetch : string → result string) (now : string)
| LResolverExit
| LJoin                                          (** wg.Wait and StopAll *)
| LUnregister
| LDetach
| LBackoff (now : Z)
| LSlept
| LCancel                                        (** Run's context is cancelled *)
| LEmit (f : upframe) (ok : bool).               (** EmitUpstream by any goroutine *)

Section system.
Variable o : Options.
Variable gbk : string → option string.

(** stream.Send *)
Definition send (n : nat) (f : upframe) (ok : bool) (s : csys) : csys * bool :=
  let sent := ok && marshalable (u_body f) in
  (s <| k_wire := k_wire s ++ [(n, f, sent)] |>, sent).
(** EmitUpstream: [false] is ErrStreamGone or a failed send *)
Definition EmitUpstream (f : upframe) (ok : bool) (s : csys) : csys * bool :=
  match c_stream (k_client s), c_registered (k_client s) with
  | Some n, true => send n (mkUp (u_kind f) (SanitizeProtoStrings gbk (u_body f))) ok s
  | _, _ => (s, false)
  end.

Definition goto (pc : run_pc) (s : csys) : csys := s <| k_pc := pc |>.
Definition on_client (f : client → client) (s : csys) : csys := s <| k_client := f (k_client s) |>.
(** ctx.Err() of streamCtx *)
Definition stream_done (s : csys) : bool := k_ctx s || k_cancelled s.

Definition dispatch (n : nat) (t : Z) (f : downframe) (s : csys) : csys :=
  match f with
  | DPublicIPLookupConfig config => on_client (applyPublicIPConfig config) s
  | DNodeProxyConfig config => on_client (applyNodeProxyConfig config) s
  | DError _ terminal => if terminal then goto (Unwinding n t) s else s
  | DRefreshLabels _ => s        (** the reply is an [LEmit] of its own goroutine *)
  | DCommand payload => s <| k_handled := k_handled s ++ [payload] |>
  | DServerHello _ _ | DRegistered _ _ => s <| k_handled := k_handled s ++ [""] |>
  end.

Definition next_backoff (b : Z) : Z :=
  if (MaxBackoff o <? b * 2)%Z then MaxBackoff o else (b * 2)%Z.

Definition cstep (s : csys) (l : clabel) : option csys :=
  match l, k_pc s with
  | LDial now ok, AtTop =>
      if k_ctx s then Some (goto Returned s)
      else
        let n := k_streams s in
        let s1 := on_client (setCurrentStream (Some n)) s
                  <| k_streams := S n |> <| k_cancelled := false |> in
        Some (goto (if ok then AtHello n now else Detaching n now) s1)
  | LHello r, AtHello n t =>
      match r with
      | Some (DServerHello (Ok serverTime) origin) =>
          Some (goto (AtRegister n t serverTime) (on_client (announceGateway origin) s))
      | _ => Some (goto (Detaching n t) s)
      end
  | LRegister h ok, AtRegister n t serverTime =>
      match register o h serverTime with
      | Err _ => Some (goto (Detaching n t) s)
      | Ok f =>
          let '(s1, sent) := send n f ok s in
          Some (goto (if sent then AtAck n t else Detaching n t) s1)
      end
  | LAck r, AtAck n t =>
      match r with
      | Some (DRegistered id status) => Some (goto (AtGate n t status) (on_client (setNodeID id) s))
      | _ => Some (goto (Detaching n t) s)
      end
  | LGate, AtGate n t status => Some (goto (AtStatus n t status) (on_client (setRegistered true) s))
  | LStatus, AtStatus n t status =>
      if bool_decide (status = NODE_STATUS_REVOKED) then Some (goto (Closing n t) s)
      else Some (goto (Serving n t) (on_client (setApproved (bool_decide (status = NODE_STATUS_APPROVED))) s)
                 <| k_heartbeat := true |> <| k_resolver := true |> <| k_serves := S (k_serves s) |>)
  | LLoop, Serving n t => Some (goto (if stream_done s then Unwinding n t else Receiving n t) s)
  | LRecv r, Receiving n t =>
      match r with
      | None => Some (goto (Unwinding n t) s)
      | Some f => Some (dispatch n t f (goto (Serving n t) s))
      end
  | LHeartbeat body ok, _ =>
      if k_heartbeat s then
        let '(s1, sent) := EmitUpstream (mkUp KHeartbeat body) ok s in
        if sent then Some s1 else Some (s1 <| k_cancelled := true |> <| k_heartbeat := false |>)
      else None
  | LHeartbeatExit, pc =>
      match pc with
      | Unwinding _ _ => if k_heartbeat s then Some (s <| k_heartbeat := false |>) else None
      | _ => if k_heartbeat s && stream_done s then Some (s <| k_heartbeat := false |>) else None
      end
  | LRefreshIPs, _ =>
      if k_resolver s && is_nil (k_jobs s) then
        let p := c_publicIP (k_client s) in
        let s1 := on_client (λ c, c <| c_wake := false |>) s in
        if (configRevision p =? 0)%Z then Some s1
        else Some (s1 <| k_jobs :=
          (if is_nil (ipv4URLs p) then [] else [mkJob (configRevision p) true (ipv4URLs p)]) ++
          (if is_nil (ipv6URLs p) then [] else [mkJob (configRevision p) false (ipv6URLs p)]) |>)
      else None
  | LIPResult i fetch now, _ =>
      j ← k_jobs s !! i;
      let s1 := s <| k_jobs := take i (k_jobs s) ++ drop (S i) (k_jobs s) |> in
      match resolvePublicIP fetch (j_urls j) with
      | Err _ => Some s1
      | Ok ip => Some (on_client (updatePublicIPResult (j_revision j) (j_v4 j) ip now) s1)
      end
  | LResolverExit, pc =>
      let ended := match pc with Unwinding _ _ => true | _ => stream_done s end in
      if k_resolver s && is_nil (k_jobs s) && ended then Some (s <| k_resolver := false |>) else None
  | LJoin, Unwinding n t =>
      if k_heartbeat s || k_resolver s then None
      else Some (goto (Closing n t) s <| k_stops := S (k_stops s) |>)
  | LUnregister, Closing n t => Some (goto (Detaching n t) (on_client (setRegistered false) s))
  | LDetach, Detaching n t => Some (goto (Lost t) (on_client (setCurrentStream None) s))
  | LBackoff now, Lost t =>
      if k_ctx s then Some (goto Returned s)
      else
        let b := if (MaxBackoff o <? now - t)%Z then MinBackoff o else k_backoff s in
        Some (goto Sleeping s <| k_backoff := b |> <| k_sleeps := k_sleeps s ++ [b] |>)
  | LSlept, Sleeping =>
      if k_ctx s then Some (goto Returned s)
      else Some (goto AtTop s <| k_backoff := next_backoff (k_backoff s) |>)
  | LCancel, _ => Some (s <| k_ctx := true |>)
  | LEmit f ok, _ =>
      if bool_decide (u_kind f = KRegister) then None else Some (EmitUpstream f ok s).1
  | _, _ => None
  end.

Definition cinit : csys :=
  mkCsys NewClient AtTop (MinBackoff o) false false false false [] 0%nat [] 0%nat 0%nat [] [].
Definition crun := trace_run (fun_step cstep).
End system.

(** ** WaitApproved

    A waiter blocked on the condition variable, its helper goroutine that
    broadcasts when the context is cancelled, and setApproved.  Broadcast takes
    no lock; the waiter joins the notify list and releases the mutex in one
    step ([wait] of sync.Cond). *)
Module WaitApproved.
Inductive wpc :=
| WLock                  (** before mu.Lock *)
| WLoop                  (** at the loop test, holding mu *)
| WSpawned               (** helper started, before cond.Wait, holding mu *)
| WWaiting               (** on the notify list *)
| WNotified              (** to re-acquire mu and close(stop) *)
| WReturned (ok : bool). (** nil or ctx.Err() *)
Record wsys := mkW {
  w_approved : bool; w_ctx : bool; w_pc : wpc;
  w_helper : bool;       (** the current helper is in its select *)
  w_stale : nat;         (** helpers whose stop channel is closed *)
  w_pending : nat        (** setApproved calls about to broadcast *)
}.
#[export] Instance eta_wsys : Settable wsys := λ s,
  mkW (w_approved s) (w_ctx s) (w_pc s) (w_helper s) (w_stale s) (w_pending s).
Inductive wlabel := LWaiter | LSetApproved (v : bool) | LBroadcast | LHelper | LStale | LCancelCtx.

Definition holds_mu (pc : wpc) : bool := match pc with WLoop | WSpawned => true | _ => false end.
Definition broadcast (s : wsys) : wsys :=
  match w_pc s with WWaiting => s <| w_pc := WNotified |> | _ => s end.
Definition wstep (s : wsys) (l : wlabel) : option wsys :=
  match l with
  | LWaiter =>
      match w_pc s with
      | WLock => Some (s <| w_pc := WLoop |>)
      | WLoop =>
          if w_approved s then Some (s <| w_pc := WReturned true |>)
          else if w_ctx s then Some (s <| w_pc := WReturned false |>)
          else Some (s <| w_pc := WSpawned |> <| w_helper := true |>)
      | WSpawned => Some (s <| w_pc := WWaiting |>)
      | WNotified =>
          Some (s <| w_pc := WLoop |> <| w_stale := (w_stale s + if w_helper s then 1 else 0)%nat |>
                  <| w_helper := false |>)
      | WWaiting | WReturned _ => None
      end
  | LSetApproved v =>
      if holds_mu (w_pc s) then None
      else Some (s <| w_approved := v |>
                   <| w_pending := (w_pending s + if v && negb (w_approved s) then 1 else 0)%nat |>)
  | LBroadcast =>
      match w_pending s with O => None | S n => Some (broadcast (s <| w_pending := n |>)) end
  | LHelper =>
      if w_helper s && w_ctx s then Some (broadcast (s <| w_helper := false |>)) else None
  | LStale =>
      match w_stale s with
      | O => None
      | S n => let s1 := s <| w_stale := n |> in Some (if w_ctx s then broadcast s1 else s1)
      end
  | LCancelCtx => Some (s <| w_ctx := true |>)
  end.
Definition winit : wsys := mkW false false WLock false 0%nat 0%nat.
Definition wrun := trace_run (fun_step wstep).
End WaitApproved.
