(* ===== verification/NodeClientProofs.v ===== *)
(** * NodeClientProofs: theorems about the connection to the server

    The order of frames on a stream, the reconnect delays, what configuration
    pushes leave behind, the capability labels, the public-IP vote, and the
    waiting for approval. *)
From S2P Require Import Prelude GoStrings ProtoText Totp NodeClient.
From Stdlib Require Import Ascii.
Local Close Scope Z_scope.

(** ** The stream *)
Definition pc_stream (pc : run_pc) : option nat :=
  match pc with
  | AtHello n _ | AtRegister n _ _ | AtAck n _ | AtGate n _ _ | AtStatus n _ _
  | Serving n _ | Receiving n _ | Unwinding n _ | Closing n _ | Detaching n _ => Some n
  | AtTop | Lost _ | Sleeping | Returned => None
  end.
(** The gate of EmitUpstream is open. *)
Definition gate (pc : run_pc) : bool :=
  match pc with AtStatus _ _ _ | Serving _ _ | Receiving _ _ | Unwinding _ _ | Closing _ _ => true | _ => false end.
Definition before_register (pc : run_pc) : bool :=
  match pc with AtHello _ _ | AtRegister _ _ _ => true | _ => false end.
Definition after_register (pc : run_pc) : bool :=
  match pc with AtAck _ _ | AtGate _ _ _ => true | _ => gate pc end.
Definition in_dispatch (pc : run_pc) : bool :=
  match pc with Serving _ _ | Receiving _ _ | Unwinding _ _ => true | _ => false end.

(** The frames handed to stream [n], in order. *)
Definition frames_on (n : nat) (wire : list (nat * upframe * bool)) : list upframe :=
  (λ e, e.1.2) <$> filter (λ e, e.1.1 = n) wire.
Definition registered_first (fs : list upframe) : Prop :=
  ∃ f rest, fs = f :: rest ∧ u_kind f = KRegister ∧ Forall (λ f, u_kind f ≠ KRegister) rest.

Lemma frames_on_snoc n wire m f b :
  frames_on n (wire ++ [(m, f, b)]) = frames_on n wire ++ (if bool_decide (m = n) then [f] else []).
Proof.
  unfold frames_on. rw filter_app fmap_app filter_cons filter_nil /=.
  case_decide; case_bool_decide; done.
Qed.
Lemma frames_on_fresh n wire : Forall (λ e, e.1.1 < n) wire → frames_on n wire = [].
Proof.
  induction 1 as [|e wire He _ IH]; [done|]. unfold frames_on in *. rw filter_cons.
  case_decide; [lia|done].
Qed.
Lemma registered_first_snoc fs f :
  registered_first fs → u_kind f ≠ KRegister → registered_first (fs ++ [f]).
Proof.
  intros (r & rest & -> & Hr & Hrest) Hf. exists r, (rest ++ [f]).
  split_and!; [done|done|]. apply Forall_app. by split; [|constructor].
Qed.

Record cinv (s : csys) : Prop := {
  ci_stream : c_stream (k_client s) = pc_stream (k_pc s);
  ci_gate : c_registered (k_client s) = gate (k_pc s);
  ci_wire : Forall (λ e, e.1.1 < k_streams s) (k_wire s);
  ci_pc n : pc_stream (k_pc s) = Some n → n < k_streams s;
  ci_first n : registered_first (frames_on n (k_wire s)) ∨ frames_on n (k_wire s) = [];
  ci_before n : pc_stream (k_pc s) = Some n → before_register (k_pc s) = true →
    frames_on n (k_wire s) = [];
  ci_after n : pc_stream (k_pc s) = Some n → after_register (k_pc s) = true →
    registered_first (frames_on n (k_wire s));
  ci_stops : k_serves s = k_stops s + (if in_dispatch (k_pc s) then 1 else 0);
  ci_loops : k_heartbeat s || k_resolver s = true → in_dispatch (k_pc s) = true
}.

Section system.
Variable o : Options.
Variable gbk : string → option string.

(** Moving from one program point to another on the same stream. *)
Lemma cinv_move s s' :
  cinv s →
  c_stream (k_client s') = c_stream (k_client s) →
  pc_stream (k_pc s') = pc_stream (k_pc s) →
  c_registered (k_client s') = gate (k_pc s') →
  k_wire s' = k_wire s → k_streams s' = k_streams s →
  (before_register (k_pc s') = true → before_register (k_pc s) = true) →
  (after_register (k_pc s') = true → after_register (k_pc s) = true) →
  k_serves s' + (k_stops s + (if in_dispatch (k_pc s) then 1 else 0)) =
    k_stops s' + (if in_dispatch (k_pc s') then 1 else 0) + k_serves s →
  (k_heartbeat s' || k_resolver s' = true →
    k_heartbeat s || k_resolver s = true ∧ in_dispatch (k_pc s) = in_dispatch (k_pc s')
    ∨ in_dispatch (k_pc s') = true) →
  cinv s'.
Proof.
  intros [I1 I2 I3 I4 I5 I6 I7 I8 I9] H1 H2 H3 H4 H5 H6 H7 H8 H9.
  split; rw ?H4 ?H5 ?H2; try done.
  - by rw H1.
  - intros n Hn Hb. auto.
  - intros n Hn Ha. auto.
  - clear -I8 H8. lia.
  - intros Hl. destruct (H9 Hl) as [[Ha <-]|]; auto.
Qed.

(** A frame emitted on the current stream. *)
Lemma cinv_emit f ok s :
  cinv s → u_kind f ≠ KRegister → cinv (EmitUpstream gbk f ok s).1.
Proof.
  intros I Hf. unfold EmitUpstream. destruct (c_stream (k_client s)) as [n|] eqn:En; [|done].
  destruct (c_registered (k_client s)) eqn:Er; [|done].
  destruct I as [I1 I2 I3 I4 I5 I6 I7 I8 I9].
  assert (pc_stream (k_pc s) = Some n) as Hpc by congruence.
  assert (gate (k_pc s) = true) as Hg by congruence.
  assert (registered_first (frames_on n (k_wire s))) as Hr.
  { apply I7; [done|]. by destruct (k_pc s). }
  split; cbn -[frames_on]; try done.
  - apply Forall_app. split; [done|]. constructor; [|done]. by apply I4.
  - intros m. rw frames_on_snoc. case_bool_decide as Hm; [subst m|by rw app_nil_r].
    left. by apply registered_first_snoc.
  - intros m Hm Hb. by destruct (k_pc s).
  - intros m Hm Ha. assert (m = n) as -> by congruence. rw frames_on_snoc bool_decide_eq_true_2; [|done].
    by apply registered_first_snoc.
Qed.

Ltac client_move s Ep :=
  apply (cinv_move s); cbn [k_client k_pc k_wire k_streams k_serves k_stops k_heartbeat k_resolver
    goto on_client set_field]; cbn; rw ?Ep; cbn.

Lemma cinv_dial now ok s s' : cinv s → cstep o gbk s (LDial now ok) = Some s' → cinv s'.
Proof.
  intros I Hs. cbv beta iota delta [cstep] in Hs. destruct (k_pc s) eqn:Ep; try done.
  pose proof (ci_gate _ I) as Hg. rw Ep in Hg.
  destruct (k_ctx s).
  { simplify_eq. client_move s Ep; try done; [clear; lia|by left]. }
  destruct I as [I1 I2 I3 I4 I5 I6 I7 I8 I9]. rw Ep in I1 I2 I4 I6 I7 I8 I9. cbn in I8, I9.
  assert (frames_on (k_streams s) (k_wire s) = []) as Hf by by apply frames_on_fresh.
  assert (Forall (λ e, e.1.1 < S (k_streams s)) (k_wire s)) as HS.
  { eapply Forall_impl; [exact I3|]. clear. intros e. simpl. lia. }
  cbv zeta in Hs. destruct ok; injection Hs as <-; split; cbn -[frames_on]; try done.
  all: intros n [= <-]; ((clear; lia) || done).
Qed.

Lemma cinv_register h ok s s' : cinv s → cstep o gbk s (LRegister h ok) = Some s' → cinv s'.
Proof.
  intros I Hs. cbv beta iota delta [cstep] in Hs. destruct (k_pc s) eqn:Ep; try done.
  pose proof (ci_gate _ I) as Hg. rw Ep in Hg.
  destruct (register o h serverTime) as [f|] eqn:Ef.
  2: { simplify_eq. client_move s Ep; try done; [clear; lia|by left]. }
  assert (u_kind f = KRegister) as Hk.
  { unfold register in Ef. destruct (DecodeSecret (Secret o)); [|done]. by injection Ef as <-. }
  clear Ef. destruct I as [I1 I2 I3 I4 I5 I6 I7 I8 I9]. rw Ep in I1 I2 I4 I6 I7 I8 I9. cbn in I8, I9.
  assert (registered_first (frames_on n (k_wire s) ++ [f])) as Hr.
  { rw (I6 n); [|done|done]. exists f, []. by split_and!. }
  assert (∀ b m, registered_first (frames_on m (k_wire s ++ [(n, f, b)])) ∨
                 frames_on m (k_wire s ++ [(n, f, b)]) = []) as Hw.
  { intros b m. rw frames_on_snoc. case_bool_decide; [subst m; by left|rw app_nil_r; apply I5]. }
  cbv beta iota zeta delta [send] in Hs.
  destruct (ok && marshalable (u_body f)); injection Hs as <-; split; cbn -[frames_on]; try done.
  1,3: apply Forall_app; split; [done|]; constructor; [by apply I4|done].
  all: intros m [= <-] _; by rw frames_on_snoc bool_decide_eq_true_2.
Qed.

Lemma cinv_dispatch n t f s :
  cinv s → k_pc s = Serving n t → cinv (dispatch n t f s).
Proof.
  intros I Ep. pose proof (ci_gate _ I) as Hg. rw Ep in Hg. unfold dispatch.
  assert (∀ c, c_stream c = c_stream (k_client s) → c_registered c = c_registered (k_client s) →
    cinv (on_client (λ _, c) s)) as Hc.
  { intros c H1 H2. client_move s Ep; try done; [by rw H2|clear; lia|by right]. }
  destruct f as [| |cfg|cfg|msg term| |]; try done.
  - client_move s Ep; try done; [clear; lia|by right].
  - client_move s Ep; try done; [clear; lia|by right].
  - apply (Hc (applyPublicIPConfig cfg (k_client s))); unfold applyPublicIPConfig; by case_match.
  - apply (Hc (applyNodeProxyConfig cfg (k_client s))); unfold applyNodeProxyConfig; by case_match.
  - destruct term; [|done]. client_move s Ep; try done; [clear; lia|by right].
  - client_move s Ep; try done; [clear; lia|by right].
Qed.

Ltac cstep_cases Hs := cbv beta iota zeta delta [cstep] in Hs.

Lemma cinv_serve_step s l s' :
  cinv s → cstep o gbk s l = Some s' →
  match l with
  | LHello _ | LAck _ | LGate | LStatus | LLoop | LJoin | LUnregister | LDetach | LBackoff _ | LSlept => cinv s'
  | _ => True
  end.
Proof.
  intros I Hs. pose proof (ci_gate _ I) as Hg. pose proof (ci_loops _ I) as Hl.
  destruct l as [now ok|r|h ok|r| | | |r|body ok| | |i fetch now| | | | |now| | |f ok]; try done;
    cstep_cases Hs; destruct (k_pc s) eqn:Ep; try done; cbn in Hl, Hg.
  - destruct r as [[[t0|e] origin| | | | | |]|]; injection Hs as <-; client_move s Ep;
      try done; try (clear; lia); try (by left).
    + unfold announceGateway. by case_match.
    + unfold announceGateway. by case_match.
  - destruct r as [[| | | | | |]|]; injection Hs as <-; client_move s Ep;
      try done; try (clear; lia); by left.
  - injection Hs as <-. client_move s Ep; try done; [clear; lia|by left].
  - destruct (bool_decide _); injection Hs as <-; client_move s Ep; try done; try (clear; lia); try (by left); by right.
  - destruct (stream_done s); injection Hs as <-; client_move s Ep; try done; try (clear; lia); by right.
  - destruct (k_heartbeat s) eqn:Eh; [done|]. destruct (k_resolver s) eqn:Er; [done|].
    injection Hs as <-. client_move s Ep; try done; [clear; lia|]. by rw Eh Er.
  - injection Hs as <-. client_move s Ep; try done; [clear; lia|by left].
  - injection Hs as <-. destruct I as [I1 I2 I3 I4 I5 I6 I7 I8 I9]. rw Ep in I8 I9.
    by split; cbn; rw ?Ep.
  - destruct (k_ctx s); injection Hs as <-; client_move s Ep; try done; try (clear; lia); by left.
  - destruct (k_ctx s); injection Hs as <-; client_move s Ep; try done; try (clear; lia); by left.
Qed.

Lemma cinv_step s l s' : cinv s → cstep o gbk s l = Some s' → cinv s'.
Proof.
  intros I Hs. pose proof (cinv_serve_step s l s' I Hs) as Hserve.
  pose proof (ci_gate _ I) as Hg. pose proof (ci_loops _ I) as Hl.
  assert (∀ s2, k_client s2 = k_client s → k_pc s2 = k_pc s → k_wire s2 = k_wire s →
    k_streams s2 = k_streams s → k_serves s2 = k_serves s → k_stops s2 = k_stops s →
    (k_heartbeat s2 || k_resolver s2 = true → k_heartbeat s || k_resolver s = true) → cinv s2) as Hsame.
  { intros s2 H1 H2 H3 H4 H5 H6 H7. apply (cinv_move s); rw ?H1 ?H2 ?H3 ?H4 ?H5 ?H6; try done;
      [clear; lia|]. left. auto. }
  destruct l as [now ok|r|h ok|r| | | |r|body ok| | |i fetch now| | | | |now| | |f ok];
    try exact Hserve; clear Hserve.
  - by eapply cinv_dial.
  - by eapply cinv_register.
  - cstep_cases Hs. destruct (k_pc s) eqn:Ep; try done.
    assert (cinv (goto (Unwinding n t) s)).
    { client_move s Ep; try done; [clear; lia|by right]. }
    destruct r as [f|]; [|by injection Hs as <-]. injection Hs as <-. apply cinv_dispatch; [|done].
    client_move s Ep; try done; [clear; lia|by right].
  - cstep_cases Hs. destruct (k_heartbeat s) eqn:Eh; [|by destruct (k_pc s)].
    assert (cinv (EmitUpstream gbk (mkUp KHeartbeat body) ok s).1) as He by by apply cinv_emit.
    destruct (EmitUpstream gbk (mkUp KHeartbeat body) ok s) as [s1 sent] eqn:Em.
    assert (Hs' : (if sent then Some s1 else Some (s1 <| k_cancelled := true |> <| k_heartbeat := false |>)) = Some s')
      by by destruct (k_pc s).
    destruct sent; injection Hs' as <-; [done|]. apply (cinv_move s1); try done; [apply (ci_gate _ He)|cbn; clear; lia|].
    cbn. intros Hr. right. by apply (ci_loops _ He), orb_true_iff; right.
  - cstep_cases Hs.
    assert (s' = s <| k_heartbeat := false |>) as ->.
    { destruct (k_pc s), (k_heartbeat s); try done; repeat case_match; congruence. }
    apply Hsame; try done. cbn. intros ->. by rw orb_true_r.
  - cstep_cases Hs.
    destruct (k_resolver s && is_nil (k_jobs s)); [|by destruct (k_pc s)].
    assert (k_client s' = (k_client s) <| c_wake := false |> ∧ s' = s <| k_client := k_client s' |> <| k_jobs := k_jobs s' |>) as [Hc ->].
    { destruct (k_pc s), (configRevision (c_publicIP (k_client s)) =? 0)%Z; injection Hs as <-; by destruct s. }
    apply (cinv_move s); cbn; rw ?Hc; try done; [clear; lia|by left; split; auto].
  - cstep_cases Hs.
    assert (∃ j, k_jobs s !! i = Some j ∧
      (s' = s <| k_jobs := take i (k_jobs s) ++ drop (S i) (k_jobs s) |> ∨
       ∃ ip, s' = on_client (updatePublicIPResult (j_revision j) (j_v4 j) ip now)
                    (s <| k_jobs := take i (k_jobs s) ++ drop (S i) (k_jobs s) |>))) as (j & Hj & Hc).
    { destruct (k_jobs s !! i) as [j|]; [|by destruct (k_pc s)]. exists j. split; [done|].
      cbn [mbind option_bind] in Hs. destruct (resolvePublicIP fetch (j_urls j)) as [ip|];
        destruct (k_pc s); injection Hs as <-; eauto. }
    destruct Hc as [->|[ip ->]]; [by apply Hsame|].
    assert (∀ c, c_stream (updatePublicIPResult (j_revision j) (j_v4 j) ip now c) = c_stream c ∧
      c_registered (updatePublicIPResult (j_revision j) (j_v4 j) ip now c) = c_registered c) as Hu.
    { intros c. unfold updatePublicIPResult. by repeat case_match. }
    apply (cinv_move s); cbn; try done; [apply Hu|rw (proj2 (Hu _)); done|clear; lia|by left; split; auto].
  - cstep_cases Hs.
    assert (s' = s <| k_resolver := false |>) as ->.
    { destruct (k_pc s); repeat case_match; congruence. }
    apply Hsame; try done. cbn. rw orb_false_r. intros ->. done.
  - assert (s' = s <| k_ctx := true |>) as -> by (cstep_cases Hs; destruct (k_pc s); congruence).
    by apply Hsame.
  - assert (u_kind f ≠ KRegister ∧ s' = (EmitUpstream gbk f ok s).1) as [Hf ->].
    { cstep_cases Hs. case_bool_decide; [by destruct (k_pc s)|]. split; [done|]. destruct (k_pc s); congruence. }
    by apply cinv_emit.
Qed.

Lemma cinv_init : cinv (cinit o).
Proof. split; try done. intros n. by right. Qed.
Lemma cinv_run ls s : crun o gbk (cinit o) ls s → cinv s.
Proof.
  apply (trace_run_invariant (fun_step (cstep o gbk)) cinv); [|apply cinv_init].
  intros s0 l s1. apply cinv_step.
Qed.

(** ** Reconnect delays *)
Lemma EmitUpstream_wire f ok s : ∃ w, (EmitUpstream gbk f ok s).1 = s <| k_wire := w |>.
Proof.
  unfold EmitUpstream. destruct (c_stream (k_client s)); [destruct (c_registered (k_client s))|].
  - eexists. reflexivity.
  - exists (k_wire s). by destruct s.
  - exists (k_wire s). by destruct s.
Qed.

(** What a step does to the delays. *)
Definition delay_step (s s' : csys) : Prop :=
  (k_backoff s' = k_backoff s ∧ k_sleeps s' = k_sleeps s ∧
    (k_pc s' = k_pc s ∨ k_pc s' = Returned ∨ (k_pc s ≠ Sleeping ∧ k_pc s' ≠ Sleeping ∧ k_pc s ≠ Returned))) ∨
  (k_pc s ≠ Sleeping ∧ k_pc s ≠ Returned ∧ k_pc s' = Sleeping ∧
    k_sleeps s' = k_sleeps s ++ [k_backoff s'] ∧
    (k_backoff s' = MinBackoff o ∨ k_backoff s' = k_backoff s)) ∨
  (k_pc s = Sleeping ∧ k_pc s' = AtTop ∧ k_sleeps s' = k_sleeps s ∧
    k_backoff s' = next_backoff o (k_backoff s)).

Lemma cstep_delay s l s' : cstep o gbk s l = Some s' → delay_step s s'.
Proof.
  intros Hs. unfold delay_step.
  destruct l as [now ok|r|h ok|r| | | |r|body ok| | |i fetch now| | | | |now| | |f ok]; cstep_cases Hs.
  - destruct (k_pc s) eqn:Ep; try done. destruct (k_ctx s), ok; injection Hs as <-; left; cbn; rw ?Ep; naive_solver.
  - destruct (k_pc s) eqn:Ep; try done.
    destruct r as [[[t0|e] origin| | | | | |]|]; injection Hs as <-; left; cbn; rw ?Ep; naive_solver.
  - destruct (k_pc s) eqn:Ep; try done. destruct (register o h serverTime) as [f|]; [unfold send in Hs; destruct (ok && _)|];
      injection Hs as <-; left; cbn; rw ?Ep; naive_solver.
  - destruct (k_pc s) eqn:Ep; try done. destruct r as [[| | | | | |]|]; injection Hs as <-; left; cbn; rw ?Ep; naive_solver.
  - destruct (k_pc s) eqn:Ep; try done. injection Hs as <-. left; cbn; rw ?Ep; naive_solver.
  - destruct (k_pc s) eqn:Ep; try done. destruct (bool_decide _); injection Hs as <-; left; cbn; rw ?Ep; naive_solver.
  - destruct (k_pc s) eqn:Ep; try done. destruct (stream_done s); injection Hs as <-; left; cbn; rw ?Ep; naive_solver.
  - destruct (k_pc s) eqn:Ep; try done. destruct r as [f|].
    + injection Hs as <-. left.
      destruct f as [| |cfg|cfg|msg []| |]; cbn; rw ?Ep; naive_solver.
    + injection Hs as <-; left; cbn; rw ?Ep; naive_solver.
  - left. destruct (k_heartbeat s); [|by destruct (k_pc s)].
    destruct (EmitUpstream_wire (mkUp KHeartbeat body) ok s) as [w Hw].
    destruct (EmitUpstream gbk (mkUp KHeartbeat body) ok s) as [s1 sent]. cbn in Hw. subst s1.
    destruct sent; destruct (k_pc s) eqn:Ep; injection Hs as <-; cbn; rw ?Ep; auto.
  - left. assert (s' = s <| k_heartbeat := false |>) as ->.
    { destruct (k_pc s), (k_heartbeat s); try done; repeat case_match; congruence. }
    cbn. auto.
  - left. destruct (k_resolver s && is_nil (k_jobs s)); [|by destruct (k_pc s)].
    destruct (k_pc s) eqn:Ep, (configRevision (c_publicIP (k_client s)) =? 0)%Z; injection Hs as <-; cbn; rw ?Ep; auto.
  - left. destruct (k_jobs s !! i) as [j|]; [|by destruct (k_pc s)]. cbn [mbind option_bind] in Hs.
    destruct (resolvePublicIP fetch (j_urls j)) as [ip|]; destruct (k_pc s) eqn:Ep; injection Hs as <-; cbn; rw ?Ep; auto.
  - left. assert (s' = s <| k_resolver := false |>) as ->.
    { destruct (k_pc s); repeat case_match; congruence. }
    cbn. auto.
  - left. destruct (k_pc s) eqn:Ep; try done. case_match; [done|]. injection Hs as <-; cbn; rw ?Ep; naive_solver.
  - left. destruct (k_pc s) eqn:Ep; try done. injection Hs as <-; cbn; rw ?Ep; naive_solver.
  - left. destruct (k_pc s) eqn:Ep; try done. injection Hs as <-; cbn; rw ?Ep; naive_solver.
  - destruct (k_pc s) eqn:Ep; try done. destruct (k_ctx s); injection Hs as <-; cbn; [left; naive_solver|].
    right. left. split_and!; try done. case_match; auto.
  - destruct (k_pc s) eqn:Ep; try done. destruct (k_ctx s); injection Hs as <-; cbn; [left; naive_solver|].
    right. right. done.
  - left. assert (s' = s <| k_ctx := true |>) as -> by (destruct (k_pc s); congruence). cbn. auto.
  - left. case_bool_decide; [by destruct (k_pc s)|].
    destruct (EmitUpstream_wire f ok s) as [w Hw].
    assert (s' = (EmitUpstream gbk f ok s).1) as -> by (destruct (k_pc s); congruence).
    rw Hw. cbn. auto.
Qed.

(** The delays are Min, then each Min again or twice the last, capped. *)
Definition delays_ok (l : list Z) : Prop :=
  (∀ d, head l = Some d → d = MinBackoff o) ∧
  (∀ i a b, l !! i = Some a → l !! S i = Some b → b = MinBackoff o ∨ b = next_backoff o a).
Definition after_delays (l : list Z) : Z :=
  match last l with None => MinBackoff o | Some d => next_backoff o d end.
Definition delay_inv (s : csys) : Prop :=
  delays_ok (k_sleeps s) ∧
  match k_pc s with
  | Sleeping => last (k_sleeps s) = Some (k_backoff s)
  | Returned => True
  | _ => k_backoff s = after_delays (k_sleeps s)
  end.

Lemma delays_ok_snoc l d :
  delays_ok l → d = MinBackoff o ∨ d = after_delays l → delays_ok (l ++ [d]).
Proof.
  intros [Hh Hn] Hd. split.
  - destruct l as [|x l]; simpl; [|apply Hh]. intros ? [= <-]. by destruct Hd.
  - intros i a b Ha [Hb|[Hlen Hb]]%lookup_app_Some.
    + apply (Hn i); [|done]. rw lookup_app_l in Ha; [done|]. apply lookup_lt_Some in Hb. lia.
    + destruct (S i - length l) as [|j] eqn:E; simpl in Hb; simplify_eq.
      assert (last l = Some a) as Hlast.
      { rw last_lookup. replace (pred (length l)) with i by lia.
        rw lookup_app_l in Ha; [done|lia]. }
      unfold after_delays in Hd. by rw Hlast in Hd.
Qed.

Lemma delay_inv_step s l s' : delay_inv s → cstep o gbk s l = Some s' → delay_inv s'.
Proof.
  intros [Hok Hpc] Hs. unfold delay_inv.
  destruct (cstep_delay _ _ _ Hs) as [(-> & -> & Hp)|[(H1 & H2 & -> & Hsl & Hb)|(Hp & -> & -> & ->)]].
  - split; [done|]. destruct Hp as [-> | [-> | (H1 & H2 & H3)]]; [done|done|].
    destruct (k_pc s); try done; by destruct (k_pc s').
  - rw Hsl. split; [|by rw last_snoc]. apply delays_ok_snoc; [done|].
    destruct Hb as [-> | ->]; [by left|right]. by destruct (k_pc s).
  - split; [done|]. rw Hp in Hpc. unfold after_delays. by rw Hpc.
Qed.

Lemma delay_inv_init : delay_inv (cinit o).
Proof. split; [|done]. split; [done|]. intros i a b Ha. by rw lookup_nil in Ha. Qed.

Lemma next_backoff_bounds b :
  (0 < MinBackoff o ≤ MaxBackoff o)%Z → (MinBackoff o ≤ b ≤ MaxBackoff o)%Z →
  (MinBackoff o ≤ next_backoff o b ≤ MaxBackoff o)%Z.
Proof. unfold next_backoff. intros. case_match; go_bool; lia. Qed.

(** Every delay between two connection attempts lies between
    MinBackoff and MaxBackoff; the first is MinBackoff, and each later one is
    twice the one before, capped at MaxBackoff, or MinBackoff again after a
    long connection. *)
Theorem client_backoff_bounds ls s :
  (0 < MinBackoff o ≤ MaxBackoff o)%Z → crun o gbk (cinit o) ls s →
  delays_ok (k_sleeps s) ∧ Forall (λ d, MinBackoff o ≤ d ≤ MaxBackoff o)%Z (k_sleeps s).
Proof.
  intros Hb Hr.
  assert (delay_inv s) as [Hok _].
  { eapply (trace_run_invariant (fun_step (cstep o gbk)) delay_inv); [|by apply delay_inv_init|exact Hr].
    intros s0 l s1. apply delay_inv_step. }
  split; [done|]. apply Forall_lookup. intros i d Hd. revert d Hd.
  induction i as [|i IH]; intros d Hd.
  - rw (proj1 Hok d); [lia|]. by destruct (k_sleeps s).
  - destruct (lookup_lt_is_Some_2 (k_sleeps s) i) as [a Ha]; [apply lookup_lt_Some in Hd; lia|].
    destruct (proj2 Hok _ _ _ Ha Hd) as [->| ->]; [lia|]. apply next_backoff_bounds; [done|by apply IH].
Qed.

(** C34: On every stream, whatever the other goroutines emit and however
    the calls interleave, the first frame handed to the stream is the register
    frame and no other register frame follows; frames emitted before the
    server's registration ack are refused; and every connection that reached
    the dispatch loop stops the handler exactly once when it is over. *)
Theorem client_register_first ls s :
  crun o gbk (cinit o) ls s →
  (∀ n, frames_on n (k_wire s) = [] ∨ registered_first (frames_on n (k_wire s))) ∧
  (gate (k_pc s) = false → ∀ f ok, EmitUpstream gbk f ok s = (s, false)) ∧
  k_serves s = k_stops s + (if in_dispatch (k_pc s) then 1 else 0).
Proof.
  intros Hr. apply cinv_run in Hr as I. split_and!.
  - intros n. destruct (ci_first _ I n); auto.
  - intros Hg f ok. unfold EmitUpstream. rw (ci_gate _ I) Hg. by destruct (c_stream (k_client s)).
  - apply (ci_stops _ I).
Qed.

(** ** Configuration pushes *)
Definition pushed_proxies (ls : list clabel) : list proxyState :=
  ls ≫= λ l, match l with LRecv (Some (DNodeProxyConfig c)) => [c] | _ => [] end.
Definition pushed_lookups (ls : list clabel) : list publicIPConfig :=
  ls ≫= λ l, match l with LRecv (Some (DPublicIPLookupConfig c)) => [c] | _ => [] end.

(** What a step does to the pushed configuration. *)
Inductive config_step (s s' : csys) : clabel → Prop :=
| cfg_same l :
    c_proxy (k_client s') = c_proxy (k_client s) → c_publicIP (k_client s') = c_publicIP (k_client s) →
    k_jobs s' = k_jobs s → pushed_proxies [l] = [] → pushed_lookups [l] = [] → config_step s s' l
| cfg_proxy cfg :
    k_client s' = applyNodeProxyConfig cfg (k_client s) → k_jobs s' = k_jobs s →
    config_step s s' (LRecv (Some (DNodeProxyConfig cfg)))
| cfg_lookup cfg :
    k_client s' = applyPublicIPConfig cfg (k_client s) → k_jobs s' = k_jobs s →
    config_step s s' (LRecv (Some (DPublicIPLookupConfig cfg)))
| cfg_refresh :
    c_proxy (k_client s') = c_proxy (k_client s) → c_publicIP (k_client s') = c_publicIP (k_client s) →
    (configRevision (c_publicIP (k_client s)) = 0%Z → k_jobs s' = []) →
    Forall (λ j, j_revision j = configRevision (c_publicIP (k_client s)) ∧ j_urls j ≠ [] ∧
                 j_urls j = (if j_v4 j then ipv4URLs else ipv6URLs) (c_publicIP (k_client s))) (k_jobs s') →
    config_step s s' LRefreshIPs
| cfg_result i fetch now j :
    k_jobs s !! i = Some j → k_jobs s' = take i (k_jobs s) ++ drop (S i) (k_jobs s) →
    (k_client s' = k_client s ∨
     ∃ ip, k_client s' = updatePublicIPResult (j_revision j) (j_v4 j) ip now (k_client s)) →
    config_step s s' (LIPResult i fetch now).

Lemma refresh_jobs_ok p :
  Forall (λ j, j_revision j = configRevision p ∧ j_urls j ≠ [] ∧
               j_urls j = (if j_v4 j then ipv4URLs else ipv6URLs) p)
    ((if is_nil (ipv4URLs p) then [] else [mkJob (configRevision p) true (ipv4URLs p)]) ++
     (if is_nil (ipv6URLs p) then [] else [mkJob (configRevision p) false (ipv6URLs p)])).
Proof.
  destruct (ipv4URLs p) eqn:E4; destruct (ipv6URLs p) eqn:E6; cbn; repeat constructor; done.
Qed.

Lemma cstep_config s l s' : cstep o gbk s l = Some s' → config_step s s' l.
Proof.
  intros Hs. destruct l as [now ok|r|h ok|r| | | |r|body ok| | |i fetch now| | | | |now| | |f ok]; cstep_cases Hs.
  - destruct (k_pc s); try done. destruct (k_ctx s), ok; injection Hs as <-; by constructor.
  - destruct (k_pc s); try done.
    destruct r as [[[t0|e] origin| | | | | |]|]; injection Hs as <-; constructor; try done;
      cbn; unfold announceGateway; by case_match.
  - destruct (k_pc s); try done. destruct (register o h serverTime) as [f|]; [unfold send in Hs; destruct (ok && _)|];
      injection Hs as <-; by constructor.
  - destruct (k_pc s); try done. destruct r as [[| | | | | |]|]; injection Hs as <-; by constructor.
  - destruct (k_pc s); try done. injection Hs as <-. by constructor.
  - destruct (k_pc s); try done. destruct (bool_decide _); injection Hs as <-; by constructor.
  - destruct (k_pc s); try done. destruct (stream_done s); injection Hs as <-; by constructor.
  - destruct (k_pc s); try done. destruct r as [f|]; injection Hs as <-; [|by constructor].
    destruct f as [| |cfg|cfg|msg []| |]; by constructor.
  - destruct (k_heartbeat s); [|by destruct (k_pc s)].
    destruct (EmitUpstream_wire (mkUp KHeartbeat body) ok s) as [w Hw].
    destruct (EmitUpstream gbk (mkUp KHeartbeat body) ok s) as [s1 sent]. cbn in Hw. subst s1.
    destruct sent; destruct (k_pc s); injection Hs as <-; by constructor.
  - assert (s' = s <| k_heartbeat := false |>) as ->; [|by constructor].
    destruct (k_pc s), (k_heartbeat s); try done; repeat case_match; congruence.
  - destruct (k_resolver s && is_nil (k_jobs s)) eqn:Er; [|by destruct (k_pc s)].
    pose proof (refresh_jobs_ok (c_publicIP (k_client s))) as Hj.
    apply andb_true_iff in Er as [_ Er].
    destruct (configRevision (c_publicIP (k_client s)) =? 0)%Z eqn:Ez; go_bool;
      destruct (k_pc s); injection Hs as <-; apply cfg_refresh; try done; cbn;
      destruct (k_jobs s); by try apply Forall_nil_2.
  - destruct (k_jobs s !! i) as [j|] eqn:Ej; [|by destruct (k_pc s)]. cbn [mbind option_bind] in Hs.
    destruct (resolvePublicIP fetch (j_urls j)) as [ip|]; destruct (k_pc s); injection Hs as <-;
      (eapply cfg_result; [done|done|]); cbn; eauto.
  - assert (s' = s <| k_resolver := false |>) as ->; [|by constructor].
    destruct (k_pc s); repeat case_match; congruence.
  - destruct (k_pc s); try done. case_match; [done|]. injection Hs as <-. by constructor.
  - destruct (k_pc s); try done. injection Hs as <-. by constructor.
  - destruct (k_pc s); try done. injection Hs as <-. by constructor.
  - destruct (k_pc s); try done. destruct (k_ctx s); injection Hs as <-; by constructor.
  - destruct (k_pc s); try done. destruct (k_ctx s); injection Hs as <-; by constructor.
  - assert (s' = s <| k_ctx := true |>) as -> by (destruct (k_pc s); congruence). by constructor.
  - case_bool_decide; [by destruct (k_pc s)|].
    destruct (EmitUpstream_wire f ok s) as [w Hw].
    assert (s' = (EmitUpstream gbk f ok s).1) as -> by (destruct (k_pc s); congruence).
    rw Hw. by constructor.
Qed.

(** [p] is the first of the newest configurations pushed. *)
Definition newest {A} (rev : A → Z) (p : A) (l : list A) : Prop :=
  ∃ l1 l2, l = l1 ++ p :: l2 ∧ Forall (λ q, rev q < rev p)%Z l1 ∧ Forall (λ q, rev q ≤ rev p)%Z l2.

Lemma newest_keep {A} (rev : A → Z) p l q :
  newest rev p l → (rev q ≤ rev p)%Z → newest rev p (l ++ [q]).
Proof.
  intros (l1 & l2 & -> & H1 & H2) Hq. exists l1, (l2 ++ [q]).
  rw -app_assoc. split_and!; [done|done|]. apply Forall_app. by split; [|constructor].
Qed.
Lemma newest_replace {A} (rev : A → Z) p l q :
  newest rev p l → (rev p < rev q)%Z → newest rev q (l ++ [q]).
Proof.
  intros (l1 & l2 & -> & H1 & H2) Hq. exists (l1 ++ p :: l2), []. split_and!; [done| |done].
  apply Forall_app. split; [|constructor; [done|]]; (eapply Forall_impl; [eassumption|]); simpl; lia.
Qed.
Lemma newest_first {A} (rev : A → Z) (q : A) : newest rev q [q].
Proof. by exists [], []. Qed.

Lemma bind_snoc_nil {A B} (f : A → list B) l x : f x = [] → (l ++ [x]) ≫= f = l ≫= f.
Proof. intros Hx. rw bind_app /= Hx. by rw !app_nil_r. Qed.
Lemma bind_snoc_one {A B} (f : A → list B) l x y : f x = [y] → (l ++ [x]) ≫= f = (l ≫= f) ++ [y].
Proof. intros Hx. rw bind_app /= Hx. done. Qed.

(** Once the server has pushed egress-proxy configurations, with
    revisions above zero, the one in force is the first pushed with the
    greatest revision, across any number of reconnects; before that downloads
    go direct. *)
Theorem client_proxy_newest ls s :
  crun o gbk (cinit o) ls s → Forall (λ c, 0 < px_revision c)%Z (pushed_proxies ls) →
  (pushed_proxies ls = [] ∧ c_proxy (k_client s) = mkProxy 0 "" "" "") ∨
  newest px_revision (c_proxy (k_client s)) (pushed_proxies ls).
Proof.
  intros Hr.
  apply (trace_run_history (fun_step (cstep o gbk)) (λ ls s,
    Forall (λ c, 0 < px_revision c)%Z (pushed_proxies ls) →
    (pushed_proxies ls = [] ∧ c_proxy (k_client s) = mkProxy 0 "" "" "") ∨
    newest px_revision (c_proxy (k_client s)) (pushed_proxies ls))) with (pre := []) (s := cinit o);
    [|by left|exact Hr].
  clear Hr ls s. intros ls s l s' IH Hs%cstep_config.
  assert (Hnil : ∀ l, pushed_proxies [l] = [] → pushed_proxies (ls ++ [l]) = pushed_proxies ls).
  { intros l0 Hl0. unfold pushed_proxies. apply bind_snoc_nil. cbn in Hl0. by rw app_nil_r in Hl0. }
  destruct Hs as [l Hp _ _ Hl _|cfg Hc _|cfg Hc _|Hp _ _ _|i fetch now j _ _ Hc].
  - by rw (Hnil l Hl) Hp.
  - assert (pushed_proxies (ls ++ [LRecv (Some (DNodeProxyConfig cfg))]) = pushed_proxies ls ++ [cfg]) as ->
      by by apply bind_snoc_one.
    intros [Hall Hcfg]%Forall_app. inversion Hcfg as [|? ? Hpos _]; subst.
    right. rw Hc. unfold applyNodeProxyConfig. destruct (IH Hall) as [[Hn Hz]|Hn].
    + rw Hn Hz /=. rw andb_false_r. apply newest_first.
    + destruct (_ && _) eqn:E; go_bool; [by apply newest_keep|]. cbn.
      apply (newest_replace _ (c_proxy (k_client s))); [done|].
      assert (0 < px_revision (c_proxy (k_client s)))%Z.
      { destruct Hn as (l1 & l2 & Hl & _). rw Hl in Hall. apply Forall_app in Hall as [_ Hall]. by inversion Hall. }
      apply andb_false_iff in E as [E|E]; go_bool; lia.
  - rw (Hnil (LRecv (Some (DPublicIPLookupConfig cfg))) eq_refl) Hc. unfold applyPublicIPConfig. by case_match.
  - by rw (Hnil LRefreshIPs eq_refl) Hp.
  - rw (Hnil (LIPResult i fetch now) eq_refl). destruct Hc as [-> | [ip ->]]; [done|].
    unfold updatePublicIPResult. by repeat case_match.
Qed.

(** ** Public IP *)
(** One address family: its flag says whether it has sources, and a family
    without sources reports nothing. *)
Definition family_ok (urls : list string) (ip at_ : string) (disabled : bool) : Prop :=
  disabled = is_nil urls ∧ (disabled = true → ip = "" ∧ at_ = "").
Record ip_inv (ls : list clabel) (s : csys) : Prop := {
  ii_config :
    let p := c_publicIP (k_client s) in
    (configRevision p = 0%Z ∧ Forall (λ c, ic_revision c ≤ 0)%Z (pushed_lookups ls)) ∨
    (∃ c, newest ic_revision c (pushed_lookups ls) ∧ (0 < ic_revision c)%Z ∧
       configRevision p = ic_revision c ∧ ipv4URLs p = ic_ipv4 c ∧ ipv6URLs p = ic_ipv6 c ∧
       family_ok (ipv4URLs p) (ipv4 p) (ipv4ResolvedAt p) (ipv4Disabled p) ∧
       family_ok (ipv6URLs p) (ipv6 p) (ipv6ResolvedAt p) (ipv6Disabled p));
  ii_jobs : Forall (λ j, (0 < j_revision j ≤ configRevision (c_publicIP (k_client s)))%Z ∧
    (j_revision j = configRevision (c_publicIP (k_client s)) →
      j_urls j ≠ [] ∧ j_urls j = (if j_v4 j then ipv4URLs else ipv6URLs) (c_publicIP (k_client s)))) (k_jobs s)
}.

Lemma newest_above {A} (rev : A → Z) l q :
  Forall (λ c, rev c ≤ 0)%Z l → (0 < rev q)%Z → newest rev q (l ++ [q]).
Proof.
  intros Hl Hq. exists l, []. split_and!; [done| |done]. eapply Forall_impl; [exact Hl|]. simpl. lia.
Qed.

Lemma ip_inv_lookup ls s s' cfg :
  ip_inv ls s → k_client s' = applyPublicIPConfig cfg (k_client s) → k_jobs s' = k_jobs s →
  ip_inv (ls ++ [LRecv (Some (DPublicIPLookupConfig cfg))]) s'.
Proof.
  intros [I1 I2] Hc Hj.
  assert (pushed_lookups (ls ++ [LRecv (Some (DPublicIPLookupConfig cfg))]) = pushed_lookups ls ++ [cfg]) as Hp
    by by apply bind_snoc_one.
  unfold applyPublicIPConfig in Hc. cbv zeta in Hc.
  destruct (ic_revision cfg <=? configRevision (c_publicIP (k_client s)))%Z eqn:E; go_bool.
  - split; rw Hc ?Hj ?Hp; [|done]. destruct I1 as [[H0 Hall]|(c & Hn & Hpos & Hr & Hrest)].
    + left. split; [done|]. apply Forall_app. split; [done|]. constructor; [lia|done].
    + right. exists c. split; [|done]. apply newest_keep; [done|lia].
  - split; rw Hc ?Hj ?Hp; cbn.
    + right. exists cfg. assert (0 < ic_revision cfg)%Z as Hpos.
      { destruct I1 as [[H0 _]|(c & _ & Hpos & Hr & _)]; lia. }
      split_and!; try done.
      * destruct I1 as [[H0 Hall]|(c & Hn & _ & Hr & _)]; [by apply newest_above|].
        apply (newest_replace _ c); [done|lia].
      * by destruct (ic_ipv4 cfg).
      * by destruct (ic_ipv6 cfg).
    + eapply Forall_impl; [exact I2|]. intros j [Hle _]. split; [lia|]. lia.
Qed.

Lemma ip_inv_result ls s s' i fetch now j :
  ip_inv ls s → k_jobs s !! i = Some j → k_jobs s' = take i (k_jobs s) ++ drop (S i) (k_jobs s) →
  (k_client s' = k_client s ∨
   ∃ ip, k_client s' = updatePublicIPResult (j_revision j) (j_v4 j) ip now (k_client s)) →
  ip_inv (ls ++ [LIPResult i fetch now]) s'.
Proof.
  intros [I1 I2] Hi Hj Hc.
  assert (pushed_lookups (ls ++ [LIPResult i fetch now]) = pushed_lookups ls) as Hp by by apply bind_snoc_nil.
  pose proof (proj1 (Forall_lookup _ _) I2 i j Hi) as [Hjr Hju].
  assert (Forall (λ j, (0 < j_revision j ≤ configRevision (c_publicIP (k_client s)))%Z ∧
    (j_revision j = configRevision (c_publicIP (k_client s)) →
      j_urls j ≠ [] ∧ j_urls j = (if j_v4 j then ipv4URLs else ipv6URLs) (c_publicIP (k_client s)))) (k_jobs s')) as I2'.
  { rw Hj. apply Forall_app. split; [by apply Forall_take|by apply Forall_drop]. }
  assert (k_client s' = k_client s → ip_inv (ls ++ [LIPResult i fetch now]) s') as Hsame.
  { intros Heq. by split; rw Heq ?Hp. }
  destruct Hc as [Hc|[ip Hc]]; [auto|]. unfold updatePublicIPResult in Hc. cbv zeta in Hc.
  destruct (negb _) eqn:E; [auto|]. go_bool. destruct (Hju E) as [Hne Hurl].
  destruct I1 as [[H0 _]|(c & Hn & Hpos & Hr & H4 & H6 & F4 & F6)]; [clear -Hjr H0; lia|].
  assert (∀ a b, family_ok (j_urls j) a b false) as Hf.
  { intros a b. split; [by destruct (j_urls j)|done]. }
  destruct (j_v4 j); split; rw Hc ?Hp; cbn.
  - right. exists c. split_and!; try done. rw -Hurl. apply Hf.
  - eapply Forall_impl; [exact I2'|]. cbv beta. intros j'. destruct (j_v4 j'); exact (λ H, H).
  - right. exists c. split_and!; try done. rw -Hurl. apply Hf.
  - eapply Forall_impl; [exact I2'|]. cbv beta. intros j'. destruct (j_v4 j'); exact (λ H, H).
Qed.

Lemma ip_inv_step ls s l s' : ip_inv ls s → cstep o gbk s l = Some s' → ip_inv (ls ++ [l]) s'.
Proof.
  intros I Hs%cstep_config.
  assert (Hnil : ∀ l, pushed_lookups [l] = [] → pushed_lookups (ls ++ [l]) = pushed_lookups ls).
  { intros l0 Hl0. unfold pushed_lookups. apply bind_snoc_nil. cbn in Hl0. by rw app_nil_r in Hl0. }
  destruct Hs as [l _ Hp Hj _ Hl|cfg Hc Hj|cfg Hc Hj|_ Hp Hz Hj|i fetch now j Hi Hj Hc].
  - destruct I as [I1 I2]. by split; rw Hp ?Hj ?(Hnil l Hl).
  - destruct I as [I1 I2].
    assert (c_publicIP (k_client s') = c_publicIP (k_client s)) as Hp.
    { rw Hc. unfold applyNodeProxyConfig. by case_match. }
    by split; rw Hp ?Hj ?(Hnil (LRecv (Some (DNodeProxyConfig cfg))) eq_refl).
  - by eapply ip_inv_lookup.
  - destruct I as [I1 I2]. split; rw Hp ?(Hnil LRefreshIPs eq_refl); [done|].
    destruct I1 as [[H0 _]|(c & _ & Hpos & Hr & _)].
    { rw (Hz H0). by apply Forall_nil_2. }
    eapply Forall_impl; [exact Hj|]. intros j (Hjr & Hne & Hu). split; [clear -Hjr Hpos Hr; lia|done].
  - by eapply ip_inv_result.
Qed.

(** The public-IP configuration in force is the newest the server
    pushed, results of lookups started under an older one never enter it, and
    an address family without sources is reported as disabled, with no
    address and no time, while one with sources is not. *)
Theorem client_public_ip_current ls s :
  crun o gbk (cinit o) ls s →
  let p := c_publicIP (k_client s) in
  (publicIPReport (k_client s) = None ∧ Forall (λ c, ic_revision c ≤ 0)%Z (pushed_lookups ls)) ∨
  (∃ c, newest ic_revision c (pushed_lookups ls) ∧
     configRevision p = ic_revision c ∧ ipv4URLs p = ic_ipv4 c ∧ ipv6URLs p = ic_ipv6 c ∧
     family_ok (ic_ipv4 c) (ipv4 p) (ipv4ResolvedAt p) (ipv4Disabled p) ∧
     family_ok (ic_ipv6 c) (ipv6 p) (ipv6ResolvedAt p) (ipv6Disabled p)).
Proof.
  intros Hr p.
  assert (ip_inv ls s) as [[[H0 Hall]|(c & Hn & _ & Hrev & H4 & H6 & F4 & F6)] _].
  { apply (trace_run_history (fun_step (cstep o gbk)) ip_inv) with (pre := []) (s := cinit o); [| |exact Hr].
    - intros. by eapply ip_inv_step.
    - split; [by left|by apply Forall_nil_2]. }
  - left. split; [|done]. unfold publicIPReport. by rw H0.
  - right. exists c. rw -H4 -H6. by split_and!.
Qed.

(** ** The vote *)
Definition votes_for (fetch : string → result string) (ip : string) (urls : list string) : nat :=
  length (filter (λ u, match fetch u with Ok a => String.eqb a ip | Err _ => false end = true) urls).

Lemma votes_for_cons fetch ip u urls :
  votes_for fetch ip (u :: urls) =
    (match fetch u with Ok a => if bool_decide (a = ip) then 1 else 0 | Err _ => 0 end) + votes_for fetch ip urls.
Proof.
  unfold votes_for. rw filter_cons. destruct (fetch u) as [a|]; [|done].
  rw -bool_decide_eqb_string. by destruct (bool_decide (a = ip)).
Qed.

Lemma count_votes_spec fetch urls votes failures :
  (∀ ip, default 0 (votes !! ip) < publicIPConsensusVotes) →
  match count_votes fetch votes failures urls with
  | Ok ip => ∃ l1 l2, urls = l1 ++ l2 ∧
      default 0 (votes !! ip) + votes_for fetch ip l1 = publicIPConsensusVotes ∧
      ∀ ip', ip' ≠ ip → default 0 (votes !! ip') + votes_for fetch ip' l1 < publicIPConsensusVotes
  | Err _ => ∀ ip, default 0 (votes !! ip) + votes_for fetch ip urls < publicIPConsensusVotes
  end.
Proof.
  revert votes failures. induction urls as [|u urls IH]; intros votes failures Hv; cbn [count_votes].
  { intros ip. specialize (Hv ip). change (votes_for fetch ip []) with 0. lia. }
  destruct (fetch u) as [ip0|e] eqn:Ef.
  - destruct (publicIPConsensusVotes <=? S (default 0 (votes !! ip0))) eqn:E.
    + apply Nat.leb_le in E. exists [u], urls. split; [done|].
      rw votes_for_cons Ef bool_decide_eq_true_2 //. change (votes_for fetch ?x []) with 0.
      pose proof (Hv ip0). split; [lia|]. intros ip' Hne. rw votes_for_cons Ef bool_decide_eq_false_2 //.
      change (votes_for fetch ip' []) with 0. specialize (Hv ip'). lia.
    + apply Nat.leb_gt in E. specialize (IH (<[ip0 := S (default 0 (votes !! ip0))]> votes) failures).
      assert (∀ ip, default 0 (<[ip0 := S (default 0 (votes !! ip0))]> votes !! ip) =
        (if bool_decide (ip0 = ip) then 1 else 0) + default 0 (votes !! ip)) as Hd.
      { intros ip. case_bool_decide as Hip; [subst; by rw lookup_insert_eq|by rw lookup_insert_ne]. }
      specialize (IH ltac:(intros ip; rw Hd; specialize (Hv ip); case_bool_decide as Hip; [subst; lia|lia])).
      destruct (count_votes _ _ _ _) as [ip|e].
      * destruct IH as (l1 & l2 & -> & Hip & Hoth). exists (u :: l1), l2. split; [done|].
        rw votes_for_cons Ef. rw Hd in Hip. split; [clear -Hip; lia|].
        intros ip' Hne. specialize (Hoth ip' Hne). rw Hd in Hoth. rw votes_for_cons Ef. clear -Hoth. lia.
      * intros ip. specialize (IH ip). rw Hd in IH. rw votes_for_cons Ef. clear -IH. lia.
  - specialize (IH votes (S failures) Hv). destruct (count_votes _ _ _ _) as [ip|e'].
    + destruct IH as (l1 & l2 & -> & Hip & Hoth). exists (u :: l1), l2. split; [done|].
      rw votes_for_cons Ef. split; [done|]. intros ip' Hne. rw votes_for_cons Ef. by apply Hoth.
    + intros ip. rw votes_for_cons Ef. apply IH.
Qed.

(** A resolved address is the first that three entries of the source
    list answered, reading them in order and counting failures as no answer;
    resolution fails exactly when no address is answered by three entries. *)
Theorem public_ip_consensus fetch urls :
  match resolvePublicIP fetch urls with
  | Ok ip => ∃ l1 l2, urls = l1 ++ l2 ∧ votes_for fetch ip l1 = publicIPConsensusVotes ∧
      ∀ ip', ip' ≠ ip → votes_for fetch ip' l1 < publicIPConsensusVotes
  | Err _ => ∀ ip, votes_for fetch ip urls < publicIPConsensusVotes
  end.
Proof.
  pose proof (count_votes_spec fetch urls ∅ 0) as Hspec. unfold resolvePublicIP.
  specialize (Hspec ltac:(intros ip; rw lookup_empty; cbn; unfold publicIPConsensusVotes; lia)).
  destruct (count_votes fetch ∅ 0 urls) as [ip|e].
  - destruct Hspec as (l1 & l2 & Hl & Hip & Hoth). rw lookup_empty in Hip. exists l1, l2.
    split_and!; [done|done|]. intros ip' Hne. specialize (Hoth ip' Hne). by rw lookup_empty in Hoth.
  - intros ip. specialize (Hspec ip). by rw lookup_empty in Hspec.
Qed.

(** ** Capability labels *)
(** What the binary and its flags state. *)
Definition binary_labels (o : Options) (h : host) : gmap string string :=
  put_if (negb (String.eqb (TrimSpace (WorkRoot o)) "")) "work_root" (TrimSpace (WorkRoot o))
    (<["startup_method" := h_startupMethod h]>
      (put_if (resolveIosMgmt o h) "ios_mgmt" "true"
        (put_if (SystemEnvAllowed o) "system_env" "true"
          (list_to_map [("tool_run_runtime_v2", "true"); ("tool_run", "true"); ("file_upload", "true");
                        ("host_exec", "true"); ("terminal", "true")])))).
Lemma put_if_union b k v (m1 m2 : gmap string string) : put_if b k v (m1 ∪ m2) = put_if b k v m1 ∪ m2.
Proof. destruct b; [|done]. apply insert_union_l. Qed.
(** The advertised labels, key by key: what the binary and its flags
    state wins over the operator's labels, these over the client version, and
    this over the host-tool, editor, network and system probes, in that
    order. *)
Theorem capability_labels_precedence h k :
  capabilityLabels o h !! k =
    (binary_labels o h ∪ Labels o ∪
     put_if (negb (String.eqb (TrimSpace (Version o)) "")) "client_version" (TrimSpace (Version o)) ∅ ∪
     h_hostToolLabels h ∪ h_editorLabels h ∪ internalNetworkLabels h ∪ h_systemLabels h) !! k.
Proof.
  f_equal. unfold capabilityLabels. cbv zeta.
  set (base := h_hostToolLabels h ∪ (h_editorLabels h ∪ (internalNetworkLabels h ∪ h_systemLabels h))).
  rw -{1}(left_id_L ∅ (∪) base) put_if_union -(left_id_L ∅ (∪) (Labels o ∪ _)).
  rw !insert_union_l !put_if_union !insert_union_l !put_if_union.
  unfold base, binary_labels. cbn [list_to_map foldr fst snd]. by rw -!assoc_L.
Qed.

(** ** Registration *)

(** C40: The one-time code in the register frame is derived from the time the
    server announced: where the secret decodes, a server whose clock is within
    the validation window of the time it sent, and whose replay cache has not
    seen this code of the node yet, accepts it, however wrong the node's own
    clock is. *)
Theorem register_code_accepted h secret serverTime now f cache :
  DecodeSecret (Secret o) = Ok secret → register o h serverTime = Ok f →
  (Z.abs (counter_at serverTime - counter_at now) ≤ StepWindow)%Z →
  rc_seen (pruneLocked cache now) !! claim_key (NodeID o) (Generate secret serverTime) = None →
  ∃ code cache', ("totp_code", PString code) ∈ u_body f ∧ ("node_id", PString (NodeID o)) ∈ u_body f ∧
    Validate secret code now (Some cache) (NodeID o) = (Some cache', true).
Proof.
  intros Hs Hf Hw Hfresh. unfold register in Hf. rw Hs in Hf. injection Hf as <-.
  destruct (Validate_fresh secret serverTime now cache (NodeID o) Hw Hfresh) as (cache' & Hv & _).
  exists (Generate secret serverTime), cache'. unfold register_frame, u_body.
  split; [right; left|]. split; [left|exact Hv].
Qed.
End system.

(** ** WaitApproved *)
Section wait.
Import WaitApproved.

Lemma broadcast_approved s : w_approved (broadcast s) = w_approved s.
Proof. unfold broadcast. by destruct (w_pc s). Qed.
Lemma broadcast_returned s ok : w_pc (broadcast s) = WReturned ok → w_pc s = WReturned ok.
Proof. unfold broadcast. destruct (w_pc s) eqn:E; cbn; congruence. Qed.

(** A waiter that returned without error saw the approval. *)
Lemma wait_approved_sound ls s :
  wrun winit ls s → w_pc s = WReturned true → LSetApproved true ∈ ls.
Proof.
  intros Hr. cut ((w_approved s = true → LSetApproved true ∈ ls) ∧
                  (w_pc s = WReturned true → LSetApproved true ∈ ls)); [tauto|].
  apply (trace_run_history (fun_step wstep) (λ ls s,
    (w_approved s = true → LSetApproved true ∈ ls) ∧
    (w_pc s = WReturned true → LSetApproved true ∈ ls))) with (pre := []) (s := winit); [|done|exact Hr].
  clear. intros ls s l s' [H1 H2] Hs. unfold fun_step in Hs.
  rw !elem_of_app. destruct l as [|v| | | |]; cbn in Hs.
  - destruct (w_pc s) eqn:Ep; try done; repeat case_match; injection Hs as <-; cbn;
      split; intros; left; try done; first [by auto | exfalso; congruence].
  - case_match; [done|]. injection Hs as <-. cbn. split; [|intros; left; auto].
    intros ->. right. by apply list_elem_of_singleton.
  - destruct (w_pending s); [done|]. injection Hs as <-. split; [rw broadcast_approved|intros Hr%broadcast_returned];
      left; auto.
  - destruct (w_helper s && w_ctx s); [|done]. injection Hs as <-.
    split; [rw broadcast_approved|intros Hr%broadcast_returned]; left; auto.
  - destruct (w_stale s); [done|]. destruct (w_ctx s); injection Hs as <-; [|split; intros; left; auto].
    split; [rw broadcast_approved|intros Hr%broadcast_returned]; left; auto.
  - injection Hs as <-. cbn. split; intros; left; auto.
Qed.

(** The context is cancelled, and the helper broadcasts, before the waiter has
    joined the notify list. *)
Definition lost_wakeup : list wlabel := [LWaiter; LWaiter; LCancelCtx; LHelper; LWaiter].

(** WaitApproved can miss the cancellation of its context: after this
    interleaving the context is cancelled and the waiter is on the condition
    variable, and as long as the node is not approved nothing wakes it up. *)
Theorem wait_approved_lost_wakeup :
  ∃ s, wrun winit lost_wakeup s ∧ w_ctx s = true ∧
    ∀ ls s', Forall (λ l, l ≠ LSetApproved true) ls → wrun s ls s' → w_pc s' = WWaiting.
Proof.
  eexists. split; [apply exec_run; reflexivity|]. split; [done|]. intros ls s' Hall Hr.
  cut (w_pc s' = WWaiting ∧ w_helper s' = false ∧ w_stale s' = 0 ∧ w_pending s' = 0); [tauto|].
  apply (trace_run_invariant_labels (fun_step wstep) (λ l, l ≠ LSetApproved true)
    (λ s, w_pc s = WWaiting ∧ w_helper s = false ∧ w_stale s = 0 ∧ w_pending s = 0))
    with (2 := Hall) (4 := Hr); [|done].
  clear. intros s l s' Hl (Hpc & Hh & Hst & Hp) Hs. unfold fun_step in Hs.
  destruct l as [|[]| | | |]; cbn in Hs; rw ?Hpc ?Hh ?Hst ?Hp in Hs; try done.
  - cbn in Hs. injection Hs as <-. done.
  - injection Hs as <-. done.
Qed.
End wait.

(** ** Concrete runs *)
Definition demo_options : Options :=
  mkOptions "https://gw.example/" "node-1" "JBSWY3DPEHPK3PXP" "box" "execution" "1.2" ["codex"]
    {[ "terminal" := "no"; "zone" := "lab" ]} false false "off" "/w" (10 ^ 9) (30 * 10 ^ 9)
    false false (15 * 10 ^ 9).
Definition demo_host : host :=
  mkHost "linux" "amd64" false [] ∅ "10.0.0.2" ∅ ∅ false "standalone".
Definition no_gbk (_ : string) : option string := None.
Definition demo_connect (t : Z) (status : NodeStatus) : list clabel :=
  [LDial t true; LHello (Some (DServerHello (Ok (59 * second)%Z) "https://data.example/"));
   LRegister demo_host true; LAck (Some (DRegistered "node-1" status)); LGate; LStatus].
Definition demo_drop (t : Z) : list clabel :=
  [LLoop; LRecv None; LHeartbeatExit; LResolverExit; LJoin; LUnregister; LDetach; LBackoff t].
Definition demo_proxy : proxyState := mkProxy 3 "network" "http://p:1" "".
Definition demo_session : list clabel :=
  demo_connect 0 NODE_STATUS_APPROVED ++
  [LEmit (SendEditorAck "f1" (Some gbk_text) "") true; LLoop; LRecv (Some (DNodeProxyConfig demo_proxy));
   LLoop; LRecv (Some (DPublicIPLookupConfig (mkIPConfig 7 ["a"; "a"; "a"] []))); LRefreshIPs;
   LIPResult 0 (λ _, Ok "1.2.3.4") "t"] ++ demo_drop (10 ^ 9) ++ [LSlept] ++
  demo_connect (10 ^ 9) NODE_STATUS_REVOKED ++ [LUnregister; LDetach; LBackoff (2 * 10 ^ 9)%Z].
Definition demo_end : csys :=
  default (cinit demo_options) (exec (cstep demo_options no_gbk) (cinit demo_options) demo_session).
Lemma demo_run : crun demo_options no_gbk (cinit demo_options) demo_session demo_end.
Proof. apply exec_run. vm_compute. reflexivity. Qed.

Lemma client_register_first_witness :
  (∀ n, frames_on n (k_wire demo_end) = [] ∨ registered_first (frames_on n (k_wire demo_end))) ∧
  u_kind <$> frames_on 0 (k_wire demo_end) = [KRegister; KCommandAck] ∧ k_stops demo_end = 1.
Proof.
  destruct (client_register_first demo_options no_gbk demo_session demo_end demo_run) as [H _].
  split; [exact H|]. split; vm_compute; reflexivity.
Defined.
Lemma client_backoff_bounds_witness :
  delays_ok demo_options (k_sleeps demo_end) ∧ k_sleeps demo_end = [10 ^ 9; 2 * 10 ^ 9]%Z.
Proof.
  destruct (client_backoff_bounds demo_options no_gbk demo_session demo_end ltac:(cbn; lia) demo_run) as [H _].
  split; [exact H|vm_compute; reflexivity].
Defined.
Lemma client_proxy_newest_witness :
  newest px_revision (c_proxy (k_client demo_end)) [demo_proxy] ∧ c_proxy (k_client demo_end) = demo_proxy.
Proof.
  destruct (client_proxy_newest demo_options no_gbk demo_session demo_end demo_run) as [[H _]|H].
  - repeat constructor.
  - discriminate H.
  - split; [exact H|vm_compute; reflexivity].
Defined.
Lemma client_public_ip_current_witness :
  ∃ c, newest ic_revision c (pushed_lookups demo_session) ∧
    ipv4 (c_publicIP (k_client demo_end)) = "1.2.3.4" ∧ ipv6Disabled (c_publicIP (k_client demo_end)) = true.
Proof.
  destruct (client_public_ip_current demo_options no_gbk demo_session demo_end demo_run) as [[H _]|(c & Hc & _)].
  - vm_compute in H. discriminate H.
  - exists c. split; [exact Hc|]. split; vm_compute; reflexivity.
Defined.
Lemma register_code_accepted_witness :
  ∃ secret code cache', DecodeSecret "JBSWY3DPEHPK3PXP" = Ok secret ∧
    Validate secret code (100 * second)%Z (Some NewReplayCache) "node-1" = (Some cache', true).
Proof.
  destruct (DecodeSecret "JBSWY3DPEHPK3PXP") as [secret|e] eqn:Es; [|vm_compute in Es; discriminate Es].
  destruct (register_code_accepted demo_options demo_host secret (59 * second) (100 * second)
    (register_frame demo_options demo_host (Generate secret (59 * second))) NewReplayCache)
    as (code & cache' & _ & _ & Hv);
    [exact Es|unfold register; rw Es; reflexivity|vm_compute; discriminate|reflexivity|].
  exists secret, code, cache'. split; [reflexivity|exact Hv].
Defined.

(** A node that was approved and whose next registration is
    answered REVOKED keeps reporting itself approved: the status of a revoked
    registration is not recorded. *)
Theorem client_revoked_stays_approved :
  ∃ ls s, crun demo_options no_gbk (cinit demo_options) ls s ∧ k_pc s = Sleeping ∧
    last (omap (λ l, match l with LAck (Some (DRegistered _ st)) => Some st | _ => None end) ls)
      = Some NODE_STATUS_REVOKED ∧
    c_approved (k_client s) = true.
Proof.
  exists demo_session, demo_end. split; [apply demo_run|].
  split; [vm_compute; reflexivity|]. split; vm_compute; reflexivity.
Qed.

(** Three entries naming the same source are a consensus. *)
Lemma public_ip_same_source_votes :
  resolvePublicIP (λ _, Ok "1.2.3.4") ["https://one.example"; "https://one.example"; "https://one.example"]
    = Ok "1.2.3.4".
Proof. reflexivity. Qed.
