(* ===== verification/GitWorkspace.v ===== *)
(** * GitWorkspace: git arguments and redaction (common/workspaces/git_workspace.go)

    The regular expressions are given by scanners.  [redactURLUserInfo] matches
    a letter, scheme characters, [://], characters other than slash, question
    mark and hash, and an '@'.  Since the replacement keeps the scheme, a
    match is decided at the [://], by whether a letter precedes it in the
    current run of scheme characters and an '@' follows it before the end of
    the authority; the greedy group extends to the last such '@'.  net/url's parsing (SplitGitCredentialURL, gitConfigURLOrigin) is not
    modelled: [GitAuthHeaderArgs] takes the origin as an argument. *)
From S2P Require Import Prelude GoStrings.
From Stdlib Require Import Ascii.

Definition GitWorkspaceTempDirName : string := ".agent-compose-git-clone".

Record GitWorkspaceConfig := mkGitConfig {
  g_URL : string; g_Branch : string; g_Commit : string; g_Credential : string;
  g_Username : string; g_Password : string; g_CloneTarget : string;
  g_CreateBranch : bool; g_NewBranch : string
}.

(** os.ReadDir's answer; [Missing] is os.IsNotExist. *)
Inductive dir_read := Entries (names : list string) | Missing | ReadError (e : string).
Definition HostWorkspaceInitialized (r : dir_read) : result bool :=
  match r with
  | Missing => Ok false
  | ReadError e => Err ("read workspace root: " +:+ e)
  | Entries names =>
      Ok (existsb (λ n, negb (String.eqb n ".agent-compose" || String.eqb n GitWorkspaceTempDirName)) names)
  end.
(** os.Stat and os.RemoveAll; the flag says whether the tree was removed *)
Definition ResetStaleWorkspace (stat : dir_read) (rm : result ()) : result bool :=
  match stat with
  | Missing => Ok false
  | ReadError e => Err ("stat workspace root: " +:+ e)
  | Entries _ => match rm with Ok _ => Ok true | Err e => Err ("reset stale workspace: " +:+ e) end
  end.

Definition GitCloneArgs (cloneURL : string) (cfg : GitWorkspaceConfig) (clonePath : string) : list string :=
  ["clone"; "--depth"; "1"; "--recurse-submodules"; "--shallow-submodules"] ++
  (if negb (String.eqb (TrimSpace (g_Branch cfg)) "") then ["--branch"; TrimSpace (g_Branch cfg)] else []) ++
  [cloneURL; clonePath].
Definition GitCommitFetchArgs (commit : string) : list string :=
  ["fetch"; "--depth"; "1"; "origin"; commit].

(** ** url.QueryEscape *)
Definition hex_digit (n : N) : ascii :=
  if (n <? 10)%N then ascii_of_N (48 + n) else ascii_of_N (55 + n).
Definition unreserved (c : ascii) : bool :=
  is_lower c || is_upper c || is_digit c || existsb (Ascii.eqb c) ["-"; "_"; "."; "~"]%char.
Fixpoint QueryEscape (s : string) : string :=
  match s with
  | EmptyString => ""
  | String c s =>
      if Ascii.eqb c " " then String "+" (QueryEscape s)
      else if unreserved c then String c (QueryEscape s)
      else String "%" (String (hex_digit (code c / 16)) (String (hex_digit (code c mod 16)) (QueryEscape s)))
  end.

Definition ApplyGitCredentials (cloneURL : string) (cfg : GitWorkspaceConfig) : string :=
  let trimmedURL := TrimSpace cloneURL in
  if String.eqb trimmedURL "" then ""
  else
    let user := TrimSpace (g_Username cfg) in
    let pass := TrimSpace (g_Password cfg) in
    let credential :=
      if String.eqb (TrimSpace (g_Credential cfg)) "" then
        (if negb (String.eqb user "") || negb (String.eqb pass "")
         then QueryEscape user +:+ ":" +:+ QueryEscape pass else "")
      else TrimSpace (g_Credential cfg) in
    if String.eqb credential "" then trimmedURL
    else if Contains trimmedURL "@" then trimmedURL
    else if HasPrefix trimmedURL "https://"
         then "https://" +:+ credential +:+ "@" +:+ TrimPrefix trimmedURL "https://"
    else if HasPrefix trimmedURL "http://"
         then "http://" +:+ credential +:+ "@" +:+ TrimPrefix trimmedURL "http://"
    else trimmedURL.

(** ** base64.StdEncoding *)
Definition b64_char (n : N) : ascii :=
  if (n <? 26)%N then ascii_of_N (65 + n)
  else if (n <? 52)%N then ascii_of_N (71 + n)
  else if (n <? 62)%N then ascii_of_N (n - 4)
  else if (n =? 62)%N then "+"%char else "/"%char.
Fixpoint base64 (s : string) : string :=
  match s with
  | EmptyString => ""
  | String a EmptyString =>
      String (b64_char (code a / 4)) (String (b64_char (code a mod 4 * 16)) "==")
  | String a (String b EmptyString) =>
      String (b64_char (code a / 4)) (String (b64_char (code a mod 4 * 16 + code b / 16))
        (String (b64_char (code b mod 16 * 4)) "="))
  | String a (String b (String c s)) =>
      String (b64_char (code a / 4)) (String (b64_char (code a mod 4 * 16 + code b / 16))
        (String (b64_char (code b mod 16 * 4 + code c / 64)) (String (b64_char (code c mod 64)) (base64 s))))
  end.

(** [origin] is gitConfigURLOrigin(remoteURL) *)
Definition GitAuthHeaderArgs (username password origin : string) : list string :=
  let user := TrimSpace username in
  let pass := TrimSpace password in
  if String.eqb user "" && String.eqb pass "" then []
  else
    let key := if negb (String.eqb origin "") then "http." +:+ origin +:+ ".extraHeader" else "http.extraHeader" in
    ["-c"; key +:+ "=Authorization: Basic " +:+ base64 (user +:+ ":" +:+ pass)].

(** ** RedactGitURL *)
Definition scheme_letter (c : ascii) : bool := is_lower c || is_upper c.
Definition scheme_char (c : ascii) : bool :=
  scheme_letter c || is_digit c || existsb (Ascii.eqb c) ["+"; "."; "-"]%char.
(** the end of an authority *)
Definition authority_end (c : ascii) : bool := existsb (Ascii.eqb c) ["/"; "?"; "#"]%char.
(** bytes up to and including the last '@' of the authority that starts here *)
Fixpoint userinfo_len (s : string) : option nat :=
  match s with
  | EmptyString => None
  | String c s =>
      if authority_end c then None
      else match userinfo_len s with
           | Some n => Some (S n)
           | None => if Ascii.eqb c "@" then Some 1 else None
           end
  end.
(** [seen]: a letter precedes, in the current run of scheme characters *)
Definition seen_step (seen : bool) (c : ascii) : bool := scheme_char c && (seen || scheme_letter c).
(** [skip] bytes belong to a match already replaced *)
Fixpoint redact_urls (skip : nat) (seen : bool) (s : string) : string :=
  match s with
  | EmptyString => ""
  | String c s' =>
      match skip with
      | S n => redact_urls n false s'
      | O =>
          if seen && HasPrefix s "://" then
            match userinfo_len (drop_bytes 3 s) with
            | Some n => "://***@" +:+ redact_urls (2 + n) false s'
            | None => String c (redact_urls 0 false s')
            end
          else String c (redact_urls 0 (seen_step seen c) s')
      end
  end.
Definition RedactGitURL (s : string) : string := redact_urls 0 false s.

(** ** redactAuthHeaderArg: "http.", characters other than '=' and white
    space that end in "extraHeader", "=Authorization:", optional white space,
    a word, white space, and the word to replace *)
Definition is_ws (c : ascii) : bool := existsb (λ n, is_code n c) [9; 10; 12; 13; 32]%N.
Fixpoint span_len (P : ascii → bool) (s : string) : nat :=
  match s with
  | String c s' => if P c then S (span_len P s') else 0
  | EmptyString => 0
  end.
Definition has_suffix (s suffix : string) : bool := HasPrefix (string_reverse s) (string_reverse suffix).
(** lengths of the kept group and of the secret, at an "http." *)
Definition auth_header (s : string) : option (nat * nat) :=
  if negb (HasPrefix s "http.") then None
  else
    let k := span_len (λ c, negb (Ascii.eqb c "=") && negb (is_ws c)) (drop_bytes 5 s) in
    let name := take_bytes k (drop_bytes 5 s) in
    let s1 := drop_bytes (5 + k) s in
    if has_suffix name "extraHeader" && HasPrefix s1 "=Authorization:" then
      let s2 := drop_bytes 15 s1 in
      let a := span_len is_ws s2 in
      let b := span_len (λ c, negb (is_ws c)) (drop_bytes a s2) in
      let c := span_len is_ws (drop_bytes (a + b) s2) in
      let d := span_len (λ c, negb (is_ws c)) (drop_bytes (a + b + c) s2) in
      if (0 <? b) && (0 <? c) && (0 <? d) then Some (5 + k + 15 + a + b + c, d) else None
    else None.
Fixpoint redact_headers (skip : nat) (s : string) : string :=
  match s with
  | EmptyString => ""
  | String c s' =>
      match skip with
      | S n => redact_headers n s'
      | O =>
          match auth_header s with
          | Some (kept, secret) =>
              take_bytes kept s +:+ "***" +:+ redact_headers (kept + secret - 1) s'
          | None => String c (redact_headers 0 s')
          end
      end
  end.
Definition RedactGitSecrets (s : string) : string := redact_headers 0 (RedactGitURL s).

Example redact_ex1 : RedactGitURL "git clone https://tok:x@y@host/a b://u@c" = "git clone https://***@host/a b://***@c".
Proof. reflexivity. Qed.
Example redact_ex2 :
  RedactGitSecrets "git -c http.http://h:1.extraHeader=Authorization: Basic dTpw clone x"
  = "git -c http.http://h:1.extraHeader=Authorization: Basic *** clone x".
Proof. reflexivity. Qed.
Example base64_ex : base64 "user:pass" = "dXNlcjpwYXNz" ∧ base64 "ab:" = "YWI6" ∧ base64 "a:" = "YTo=".
Proof. repeat split. Qed.

(** ** Redaction of URLs is complete *)
(** The state of the scanner after [pre]. *)
Fixpoint seen_after (seen : bool) (pre : string) : bool :=
  match pre with
  | EmptyString => seen
  | String c pre => seen_after (seen_step seen c) pre
  end.
(** [pre] ends in the scheme of a URL *)
Definition ends_in_scheme (pre : string) : bool := seen_after false pre.
Definition in_authority (u : string) : bool := all_chars (λ c, negb (authority_end c)) u.

Lemma userinfo_len_app u post : in_authority u = true → userinfo_len (u +:+ String "@" post) ≠ None.
Proof.
  induction u as [|c u IH]; intros Hu.
  - change (userinfo_len (String "@" post) ≠ None). cbn. by destruct (userinfo_len post).
  - unfold in_authority in Hu. cbn [all_chars] in Hu. apply andb_true_iff in Hu as [Hc%negb_true_iff Hu].
    change (userinfo_len (String c (u +:+ String "@" post)) ≠ None). cbn [userinfo_len]. rw Hc.
    specialize (IH Hu). by destruct (userinfo_len (u +:+ String "@" post)).
Qed.

Lemma redact_urls_no_at skip seen s :
  userinfo_len (drop_bytes skip s) = None → userinfo_len (redact_urls skip seen s) = None.
Proof.
  revert skip seen. induction s as [|c s IH]; intros skip seen Hs; [done|].
  destruct skip as [|n]; [|by apply IH]. cbn [redact_urls].
  assert (∀ b, userinfo_len (String c (redact_urls 0 b s)) = None) as Hc.
  { intros b. cbn [drop_bytes userinfo_len] in *. destruct (authority_end c); [done|].
    rw (IH 0 b); [by destruct (userinfo_len s); case_match|]. change (drop_bytes 0 s) with s.
    destruct s; [done|]. by destruct (userinfo_len (String a s)). }
  destruct (seen && HasPrefix (String c s) "://"); [|apply Hc].
  destruct (userinfo_len (drop_bytes 3 (String c s))); [done|apply Hc].
Qed.

Lemma redact_urls_slash s : redact_urls 0 false (String "/" s) = String "/" (redact_urls 0 false s).
Proof. done. Qed.

Lemma redact_urls_slashes s t :
  redact_urls 0 false s = String "/" (String "/" t) → HasPrefix s "//" = true.
Proof.
  destruct s as [|c [|d s]]; cbn [redact_urls andb]; intros Ht; [done|done|].
  injection Ht as -> Ht. change (seen_step false "/") with false in Ht.
  cbn [redact_urls andb] in Ht. injection Ht as -> _. exact (HasPrefix_app "//" s).
Qed.

Lemma userinfo_len_last s n : userinfo_len s = Some n → userinfo_len (drop_bytes n s) = None.
Proof.
  revert n. induction s as [|c s IH]; intros n; [done|]. cbn [userinfo_len].
  destruct (authority_end c); [done|]. destruct (userinfo_len s) as [m|] eqn:E.
  - intros [= <-]. by apply IH.
  - destruct (Ascii.eqb c "@"); [|done]. intros [= <-]. by destruct s.
Qed.

Lemma in_authority_app u c v : in_authority (u +:+ String c v) = in_authority u && in_authority (String c v).
Proof. apply all_chars_app. Qed.

(** What follows a replaced userinfo up to the end of the authority has no '@'. *)
Lemma stars_unique u post rest :
  in_authority u = true → userinfo_len rest = None →
  "***@" +:+ rest = u +:+ String "@" post → u = "***".
Proof.
  intros Hu Hrest He.
  destruct u as [|u0 [|u1 [|u2 [|u3 u]]]]; try discriminate He.
  - by injection He as <- <- <- _.
  - exfalso. injection He as <- <- <- <- He. unfold in_authority in Hu. cbn [all_chars] in Hu. go_bool.
    apply (userinfo_len_app u post); [done|].
    by rw -He.
Qed.

Lemma redact_urls_complete skip seen s pre u post :
  (skip = 0 ∨ seen = false) →
  redact_urls skip seen s = pre +:+ "://" +:+ u +:+ String "@" post →
  seen_after seen pre = true → in_authority u = true → u = "***".
Proof.
  revert skip seen pre. induction s as [|c s IH]; intros skip seen pre Hss Hs Hseen Hu.
  { by destruct pre. }
  destruct skip as [|n].
  2: { destruct Hss as [? | ->]; [done|]. eapply (IH n false pre); [by right|done|done|done]. }
  clear Hss. cbn [redact_urls] in Hs. destruct (seen && HasPrefix (String c s) "://") eqn:Em.
  - apply andb_true_iff in Em as [-> Hp]. apply HasPrefix_spec in Hp as [t Ht].
    change (String c s = String ":" (String "/" (String "/" t))) in Ht. injection Ht as -> ->.
    change (drop_bytes 3 (String ":" (String "/" (String "/" t)))) with t in Hs.
    destruct (userinfo_len t) as [n|] eqn:Eu.
    + assert (userinfo_len (redact_urls (2 + n) false (String "/" (String "/" t))) = None) as Hno.
      { apply redact_urls_no_at. exact (userinfo_len_last t n Eu). }
      destruct pre as [|p0 [|p1 [|p2 [|p3 [|p4 [|p5 [|p6 pre]]]]]]]; try discriminate Hs.
      * injection Hs as Hs. eapply stars_unique; [done|exact Hno|exact Hs].
      * injection Hs as <- <- <- <- <- <- <- Hs.
        eapply (IH (2 + n) false pre); [by right|exact Hs|exact Hseen|done].
    + destruct pre as [|p pre].
      * injection Hs as Hs. exfalso. apply (userinfo_len_app u post); [done|].
        change (redact_urls 0 false t = u +:+ String "@" post) in Hs. rw -Hs.
        by apply redact_urls_no_at.
      * injection Hs as <- Hs. eapply (IH 0 false pre); [by left|exact Hs|exact Hseen|done].
  - destruct pre as [|p pre].
    + injection Hs as -> Hs. cbn in Hseen. subst seen. exfalso.
      change (redact_urls 0 false s = String "/" (String "/" (u +:+ String "@" post))) in Hs.
      apply redact_urls_slashes, HasPrefix_spec in Hs as [t ->].
      change (HasPrefix ("://" +:+ t) "://" = false) in Em. by rw HasPrefix_app in Em.
    + injection Hs as -> Hs. eapply (IH 0 (seen_step seen p) pre); [by left|exact Hs|exact Hseen|done].
Qed.

(** After [RedactGitURL] the text holds no URL with a user part other
    than the mask: wherever a scheme, [://], some characters of an authority
    and an '@' occur in its result, those characters are three stars. *)
Theorem redact_url_complete s pre u post :
  RedactGitURL s = pre +:+ "://" +:+ u +:+ String "@" post →
  ends_in_scheme pre = true → in_authority u = true → u = "***".
Proof. apply (redact_urls_complete 0 false). by left. Qed.
Lemma redact_url_complete_witness :
  RedactGitURL "fatal: https://tok:x@y@host/a" = "fatal: https" +:+ "://" +:+ "***" +:+ String "@" "host/a" ∧
  "***" = "***".
Proof.
  split; [reflexivity|].
  apply (redact_url_complete "fatal: https://tok:x@y@host/a" "fatal: https" "***" "host/a"); reflexivity.
Defined.

(** ** Redaction of the Authorization header *)
Lemma redact_urls_id skip seen s :
  all_chars (λ c, negb (Ascii.eqb c "@")) s = true → skip = 0 → redact_urls skip seen s = s.
Proof.
  intros Hs ->. revert seen. induction s as [|c s IH]; intros seen; [done|].
  assert (∀ t, all_chars (λ c, negb (Ascii.eqb c "@")) t = true → userinfo_len t = None) as Hnone.
  { clear. induction t as [|c t IH]; [done|]. cbn [all_chars userinfo_len]. intros [Hc%negb_true_iff Ht]%andb_true_iff.
    rw (IH Ht) Hc. by case_match. }
  assert (∀ n t, all_chars (λ c, negb (Ascii.eqb c "@")) t = true →
    all_chars (λ c, negb (Ascii.eqb c "@")) (drop_bytes n t) = true) as Hdrop.
  { clear. induction n as [|n IH]; intros t Ht; [done|]. destruct t as [|c t]; [done|].
    cbn [all_chars] in Ht. apply andb_true_iff in Ht as [_ Ht]. by apply IH. }
  pose proof Hs as Hs0. cbn [all_chars] in Hs. apply andb_true_iff in Hs as [_ Hs]. cbn [redact_urls].
  rw (Hnone (drop_bytes 3 (String c s))); [|by apply Hdrop]. rw !IH //. by case_match.
Qed.

Lemma span_len_app P a b :
  all_chars P a = true → span_len P (a +:+ b) = String.length a + span_len P b.
Proof.
  induction a as [|c a IH]; intros Ha; [done|]. cbn [all_chars] in Ha. apply andb_true_iff in Ha as [Hc Ha].
  change (span_len P (String c (a +:+ b)) = S (String.length a) + span_len P b). cbn [span_len].
  rw Hc IH //.
Qed.
Lemma drop_bytes_add n m s : drop_bytes (n + m) s = drop_bytes m (drop_bytes n s).
Proof. revert s. induction n as [|n IH]; intros s; [done|]. destruct s; [by destruct m|apply IH]. Qed.

Definition word (s : string) : bool := all_chars (λ c, negb (is_ws c)) s.
Definition starts_ws (s : string) : Prop := match s with EmptyString => True | String c _ => is_ws c = true end.
Lemma span_word_end s : starts_ws s → span_len (λ c, negb (is_ws c)) s = 0.
Proof. destruct s as [|c s]; [done|]. cbn. by intros ->. Qed.

(** An argument as GitAuthHeaderArgs builds it, at the head of a text. *)
Lemma auth_header_match name enc post :
  all_chars (λ c, negb (Ascii.eqb c "=") && negb (is_ws c)) name = true →
  has_suffix name "extraHeader" = true → word enc = true → enc ≠ "" → starts_ws post →
  auth_header ("http." +:+ name +:+ "=Authorization: Basic " +:+ enc +:+ post) =
    Some (5 + String.length name + 22, String.length enc).
Proof.
  intros Hn Hsuf He Hne Hp. unfold auth_header. rw HasPrefix_app. cbn [negb].
  change (drop_bytes 5 ("http." +:+ ?x)) with x.
  rw (span_len_app _ name) //.
  change (span_len ?P ("=Authorization: Basic " +:+ ?x)) with 0. rw Nat.add_0_r.
  rw take_bytes_app Hsuf drop_bytes_add. change (drop_bytes 5 ("http." +:+ ?x)) with x.
  rw drop_bytes_app. set (tail := "=Authorization: Basic " +:+ enc +:+ post).
  assert (tail = "=Authorization:" +:+ (" Basic " +:+ enc +:+ post)) as Ht by done.
  rw Ht HasPrefix_app. cbn [andb]. change (drop_bytes 15 ("=Authorization:" +:+ ?x)) with x.
  change (span_len is_ws (" Basic " +:+ ?x)) with 1.
  change (drop_bytes 1 (" Basic " +:+ ?x)) with ("Basic " +:+ x).
  change (span_len (λ c, negb (is_ws c)) ("Basic " +:+ ?x)) with 5.
  change (drop_bytes (1 + 5) (" Basic " +:+ ?x)) with (" " +:+ x).
  assert (span_len is_ws (" " +:+ enc +:+ post) = 1) as ->.
  { destruct enc as [|c enc]; [done|]. unfold word in He. cbn [all_chars] in He.
    apply andb_true_iff in He as [Hc%negb_true_iff _].
    change (S (span_len is_ws (String c (enc +:+ post))) = 1). cbn [span_len]. by rw Hc. }
  change (drop_bytes (1 + 5 + 1) (" Basic " +:+ ?x)) with x.
  rw (span_len_app _ enc) // span_word_end // Nat.add_0_r.
  destruct enc as [|c enc]; [done|]. cbn. do 2 f_equal. lia.
Qed.

Lemma redact_headers_skip n s t : n = String.length s → redact_headers n (s +:+ t) = redact_headers 0 t.
Proof. intros ->. induction s as [|c s IH]; [by destruct t|exact IH]. Qed.

Lemma redact_headers_before pre s :
  Index (pre +:+ s) "http." = Some (String.length pre) →
  redact_headers 0 (pre +:+ s) = pre +:+ redact_headers 0 s.
Proof.
  induction pre as [|c pre IH]; intros Hi; [done|].
  change (Index (String c (pre +:+ s)) "http." = Some (S (String.length pre))) in Hi.
  change (redact_headers 0 (String c (pre +:+ s)) = String c (pre +:+ redact_headers 0 s)).
  cbn [Index] in Hi. destruct (HasPrefix (String c (pre +:+ s)) "http.") eqn:Eh; [done|].
  cbn [redact_headers]. unfold auth_header. rw Eh. cbn [negb]. rw IH; [done|].
  by destruct (Index (pre +:+ s) "http."); simplify_eq/=.
Qed.

Lemma HasPrefix_app_long sub s b :
  String.length sub ≤ String.length s → HasPrefix (s +:+ b) sub = HasPrefix s sub.
Proof.
  revert s. induction sub as [|c sub IH]; intros s Hl; [by destruct s, b|].
  destruct s as [|d s]; simpl in Hl; [lia|].
  change (Ascii.eqb c d && HasPrefix (s +:+ b) sub = Ascii.eqb c d && HasPrefix s sub).
  rw IH //. lia.
Qed.
Lemma Index_long s sub i : Index s sub = Some i → i + String.length sub ≤ String.length s.
Proof.
  revert i. induction s as [|c s IH]; intros i; cbn [Index].
  - destruct (HasPrefix "" sub) eqn:E; [|done]. intros [= <-].
    apply HasPrefix_spec in E as [t E]. apply (f_equal String.length) in E. rw string_length_app in E. simpl in *. lia.
  - destruct (HasPrefix (String c s) sub) eqn:E.
    + intros [= <-]. apply HasPrefix_spec in E as [t ->]. rw string_length_app. lia.
    + destruct (Index s sub) as [j|]; [|done]. intros [= <-]. specialize (IH j eq_refl). simpl. lia.
Qed.
Lemma Index_app_stable s b sub i : Index s sub = Some i → Index (s +:+ b) sub = Some i.
Proof.
  revert i. induction s as [|c s IH]; intros i Hi; pose proof (Index_long _ _ _ Hi) as Hl.
  - destruct sub; [|simpl in Hl; lia]. cbn in Hi. simplify_eq. by destruct b.
  - change (Index (String c (s +:+ b)) sub = Some i). cbn [Index] in Hi |- *.
    change (String c (s +:+ b)) with (String c s +:+ b). rw HasPrefix_app_long; [|lia].
    destruct (HasPrefix (String c s) sub); [done|].
    destruct (Index s sub) as [j|]; [|done]. by rw (IH j).
Qed.

Definition b64_ok (c : ascii) : bool := negb (is_ws c) && negb (Ascii.eqb c "@").
Lemma alnum_b64_ok c : is_digit c || is_upper c || is_lower c = true → b64_ok c = true.
Proof. by destruct c as [[] [] [] [] [] [] [] []]; vm_compute. Qed.
Lemma b64_char_ok n : b64_ok (b64_char n) = true.
Proof.
  unfold b64_char.
  assert (Hall : ∀ m, (48 ≤ m < 58 ∨ 65 ≤ m < 91 ∨ 97 ≤ m < 123)%N → b64_ok (ascii_of_N m) = true).
  { intros m Hm. apply alnum_b64_ok. unfold is_digit, is_upper, is_lower, in_range, code.
    rw N_ascii_embedding; [|lia]. apply orb_true_iff.
    destruct Hm as [Hm|[Hm|Hm]]; [left; apply orb_true_iff; left|left; apply orb_true_iff; right|right];
      apply andb_true_iff; split; apply N.leb_le; lia. }
  destruct (N.ltb_spec n 26); [apply Hall; lia|].
  destruct (N.ltb_spec n 52); [apply Hall; lia|].
  destruct (N.ltb_spec n 62); [apply Hall; lia|]. by case_match.
Qed.
Lemma base64_ok n s : String.length s ≤ n → all_chars b64_ok (base64 s) = true ∧ (s ≠ "" → base64 s ≠ "").
Proof.
  revert s. induction n as [|n IH]; intros s Hn; destruct s as [|a [|b [|c s]]]; simpl in Hn; try lia; try done.
  - split; [|done]. cbn. by rw !b64_char_ok.
  - split; [|done]. cbn. by rw !b64_char_ok.
  - split; [|done]. cbn [base64 all_chars]. rw !b64_char_ok. cbn [andb]. apply IH. lia.
Qed.

Definition no_at (s : string) : bool := all_chars (λ c, negb (Ascii.eqb c "@")) s.
(** The configuration key of the header. *)
Definition header_key (origin : string) : string :=
  if negb (String.eqb origin "") then "http." +:+ origin +:+ ".extraHeader" else "http.extraHeader".
Definition header_name (origin : string) : string :=
  if negb (String.eqb origin "") then origin +:+ ".extraHeader" else "extraHeader".
Lemma header_key_name origin : header_key origin = "http." +:+ header_name origin.
Proof. unfold header_key, header_name. by case_match. Qed.
Lemma header_name_suffix origin : has_suffix (header_name origin) "extraHeader" = true.
Proof.
  unfold header_name, has_suffix. case_match; [|done].
  rw (_ : origin +:+ ".extraHeader" = (origin +:+ ".") +:+ "extraHeader"); [|by rw -string_app_assoc].
  rw string_reverse_app. apply HasPrefix_app.
Qed.

(** The credential that GitAuthHeaderArgs puts on a git command line is
    masked wherever that command line is quoted: in a text whose first "http."
    is the argument's, [RedactGitSecrets] keeps everything up to the scheme
    word of the header and replaces the encoded credential by three stars. *)
Theorem auth_header_redacted username password origin pre post :
  TrimSpace username +:+ TrimSpace password ≠ "" →
  all_chars (λ c, negb (Ascii.eqb c "=") && negb (is_ws c)) origin = true →
  no_at (pre +:+ origin +:+ post) = true → starts_ws post →
  Index (pre +:+ "http.") "http." = Some (String.length pre) →
  ∃ secret, GitAuthHeaderArgs username password origin =
      ["-c"; header_key origin +:+ "=Authorization: Basic " +:+ secret] ∧
    RedactGitSecrets (pre +:+ (header_key origin +:+ "=Authorization: Basic " +:+ secret) +:+ post) =
      pre +:+ header_key origin +:+ "=Authorization: Basic " +:+ "***" +:+ redact_headers 0 post.
Proof.
  intros Hcred Ho Hat Hp Hi. set (enc := base64 (TrimSpace username +:+ ":" +:+ TrimSpace password)).
  exists enc. split.
  { unfold GitAuthHeaderArgs, header_key. fold enc.
    destruct (String.eqb_spec (TrimSpace username) ""), (String.eqb_spec (TrimSpace password) ""); try done.
    exfalso. apply Hcred. by rw e e0. }
  destruct (base64_ok _ (TrimSpace username +:+ ":" +:+ TrimSpace password) (le_n _)) as [Hok Hne].
  fold enc in Hok, Hne. specialize (Hne ltac:(by destruct (TrimSpace username))).
  assert (all_chars (λ c, negb (Ascii.eqb c "=") && negb (is_ws c)) (header_name origin) = true) as Hname.
  { unfold header_name. case_match; [|done]. by rw all_chars_app Ho. }
  assert (word enc = true ∧ no_at enc = true) as [Hw Hna].
  { clear -Hok. unfold word, no_at. induction enc as [|c enc IH]; [done|]. cbn [all_chars] in *.
    apply andb_true_iff in Hok as [[-> ->]%andb_true_iff Hok]. by apply IH. }
  assert (no_at (header_name origin) = true ∧ no_at pre = true ∧ no_at post = true) as (Hnn & Hnp & Hnpost).
  { unfold no_at in *. rw !all_chars_app in Hat. go_bool. split_and!; try done.
    unfold header_name. case_match; [|done]. rw all_chars_app. apply andb_true_iff. by split. }
  unfold RedactGitSecrets, RedactGitURL. rw redact_urls_id //.
  2: { fold (no_at (pre +:+ (header_key origin +:+ "=Authorization: Basic " +:+ enc) +:+ post)).
    rw header_key_name. unfold no_at in *. rw !all_chars_app Hnp Hnn Hna Hnpost. done. }
  rw header_key_name -!string_app_assoc redact_headers_before.
  2: { rw string_app_assoc. by apply Index_app_stable. }
  f_equal.
  set (s := header_name origin +:+ "=Authorization: Basic " +:+ enc +:+ post).
  change (redact_headers 0 (String "h" ("ttp." +:+ s)) = "http." +:+ header_name origin +:+ "=Authorization: Basic " +:+ "***" +:+ redact_headers 0 post).
  cbn [redact_headers]. change (String "h" ("ttp." +:+ s)) with ("http." +:+ s). unfold s.
  rw auth_header_match //; [|apply header_name_suffix].
  set (kept := "http." +:+ header_name origin +:+ "=Authorization: Basic ").
  assert ("http." +:+ header_name origin +:+ "=Authorization: Basic " +:+ enc +:+ post = kept +:+ (enc +:+ post)) as ->.
  { unfold kept. by rw !string_app_assoc. }
  assert (5 + String.length (header_name origin) + 22 = String.length kept) as ->.
  { unfold kept. rw !string_length_app. simpl. lia. }
  rw take_bytes_app. unfold kept at 1. rw -!string_app_assoc. do 4 f_equal.
  rw (_ : "ttp." +:+ header_name origin +:+ "=Authorization: Basic " +:+ enc +:+ post =
       ("ttp." +:+ header_name origin +:+ "=Authorization: Basic " +:+ enc) +:+ post); [|by rw !string_app_assoc].
  apply redact_headers_skip. unfold kept. rw !string_length_app. simpl. lia.
Qed.
Lemma auth_header_redacted_witness :
  ∃ secret, RedactGitSecrets ("git -c " +:+ (header_key "http://h:1" +:+ "=Authorization: Basic " +:+ secret) +:+ " clone") =
    "git -c http.http://h:1.extraHeader=Authorization: Basic *** clone".
Proof.
  destruct (auth_header_redacted "bot" "pw" "http://h:1" "git -c " " clone") as (secret & _ & H);
    [discriminate|reflexivity|reflexivity|reflexivity|reflexivity|].
  exists secret. exact H.
Defined.
