(* ===== verification/Archive.v ===== *)
(** * Archive: fetching and unpacking a source archive (common/build/archive.go)

    Extraction is the list of file system operations it performs, each of
    which the host may refuse.  Operations name paths; what a path denotes
    depends on the symbolic links created so far, so [resolve] follows them
    the way the kernel does when an operation runs. *)
From S2P Require Import Prelude GoStrings GoPath.
From Stdlib Require Import Ascii.

Definition maxArchiveBytes : Z := 2 ^ 31.   (** 2 << 30 *)

(** ** safeJoin (filepath.FromSlash is the identity off Windows) *)
Definition escapes (name : string) : string := "archive: entry escapes destination: " +:+ name.
Definition safeJoin (root name : string) : result string :=
  let clean := Clean name in
  if String.eqb clean "." then Ok root
  else if IsAbs clean || HasPrefix clean ".." then Err (escapes name)
  else
    let target := Join [root; clean] in
    if negb (String.eqb target root) && negb (HasPrefix target (root +:+ "/")) then Err (escapes name)
    else Ok target.

(** ** Entries and operations; modes are decimal: 511 is 0777, 493 is 0755, 448
    is 0700, 420 is 0644, 384 is 0600 and 73 is 0111 *)
Inductive tar_type := TypeDir | TypeReg | TypeSymlink | TypeOther.
Record tar_entry := mkTar { th_name : string; th_type : tar_type; th_mode : Z; th_link : string; th_data : string }.
Record zip_entry := mkZip { zf_name : string; zf_dir : bool; zf_mode : Z; zf_data : string }.
Inductive fs_op :=
| MkdirAll (p : string) (mode : Z)
| WriteFile (p : string) (mode : Z) (data : string)   (** OpenFile, Copy, Close *)
| RemoveOne (p : string)
| Symlink (link p : string).

Section extract.
(** Whether the host lets an operation succeed. *)
Variable os : fs_op → bool.

(** One tar entry: the operations it performs; [None] continues the loop. *)
Definition tar_entry_ops (root : string) (h : tar_entry) : list fs_op * option string :=
  match safeJoin root (th_name h) with
  | Err e => ([], Some e)
  | Ok target =>
      match th_type h with
      | TypeDir =>
          let op := MkdirAll target (Z.lor (Z.land (th_mode h) 511) 448) in
          ([op], if os op then None else Some "mkdir")
      | TypeReg =>
          let op1 := MkdirAll (Dir target) 493 in
          let op2 := WriteFile target (Z.lor (Z.land (th_mode h) 511) 384) (th_data h) in
          if os op1 then ([op1; op2], if os op2 then None else Some "write") else ([op1], Some "mkdir")
      | TypeSymlink =>
          if String.eqb (th_link h) "" || IsAbs (th_link h) then ([], None)
          else
            let op1 := MkdirAll (Dir target) 493 in
            if os op1 then ([op1; RemoveOne target; Symlink (th_link h) target], None)
            else ([op1], Some "mkdir")
      | TypeOther => ([], None)
      end
  end.
(** The reader's entries, then EOF or its error. *)
Fixpoint extractTarGz (root : string) (entries : list tar_entry) (readErr : option string)
  : list fs_op * result () :=
  match entries with
  | [] => ([], match readErr with None => Ok () | Some e => Err ("archive: tar: " +:+ e) end)
  | h :: entries =>
      let '(ops, err) := tar_entry_ops root h in
      match err with
      | Some e => (ops, Err e)
      | None => let '(ops', r) := extractTarGz root entries readErr in (ops ++ ops', r)
      end
  end.

Definition zip_entry_ops (root : string) (z : zip_entry) : list fs_op * option string :=
  match safeJoin root (zf_name z) with
  | Err e => ([], Some e)
  | Ok target =>
      if zf_dir z then
        let op := MkdirAll target 493 in ([op], if os op then None else Some "mkdir")
      else
        let mode := if negb (Z.land (zf_mode z) 73 =? 0)%Z then 493%Z else 420%Z in
        let op1 := MkdirAll (Dir target) 493 in
        let op2 := WriteFile target mode (zf_data z) in
        if os op1 then ([op1; op2], if os op2 then None else Some "write") else ([op1], Some "mkdir")
  end.
Fixpoint extractZip (root : string) (entries : list zip_entry) : list fs_op * result () :=
  match entries with
  | [] => ([], Ok ())
  | z :: entries =>
      let '(ops, err) := zip_entry_ops root z in
      match err with
      | Some e => (ops, Err e)
      | None => let '(ops', r) := extractZip root entries in (ops ++ ops', r)
      end
  end.

(** ** extractArchive: dispatch on the first bytes; the readers' views of the
    file are arguments *)
Inductive archive_format := FormatGzip | FormatZip | FormatUnknown.
Definition archive_magic (head : string) : archive_format :=
  match head with
  | String a (String b rest) =>
      if is_code 0x1f a && is_code 0x8b b then FormatGzip
      else if (4 <=? blen head)%Z && Ascii.eqb a "P" && Ascii.eqb b "K" then FormatZip
      else FormatUnknown
  | _ => FormatUnknown
  end.
Definition extractArchive (head dest : string) (tar : result (list tar_entry * option string))
    (zip : result (list zip_entry)) : list fs_op * result () :=
  match archive_magic (take_bytes 4 head) with
  | FormatGzip =>
      match tar with
      | Err e => ([], Err ("archive: gzip: " +:+ e))
      | Ok (entries, readErr) => extractTarGz (Clean dest) entries readErr
      end
  | FormatZip =>
      match zip with
      | Err e => ([], Err ("archive: zip: " +:+ e))
      | Ok entries => extractZip (Clean dest) entries
      end
  | FormatUnknown => ([], Err "archive: unrecognized format (expected gzip or zip)")
  end.
End extract.

(** ** downloadArchive *)
Inductive http_reply :=
| TransportError (e : string)
| Reply (status : Z) (body : string) (readErr : option string).  (** all bytes it yields, and how it ends *)
(** The bytes written to the file and the result. *)
Definition downloadArchive (reply : http_reply) (open_ok : bool) : Z * result () :=
  match reply with
  | TransportError e => (0%Z, Err ("archive: download failed: " +:+ e))
  | Reply status body readErr =>
      if (status <? 200)%Z || (300 <=? status)%Z then
        (0%Z, Err ("archive: download rejected: HTTP " +:+ itoa (Z.to_N status) +:+ " " +:+ TrimSpace (take_bytes 512 body)))
      else if negb open_ok then (0%Z, Err "archive: create archive file")
      else
        let n := Z.min (blen body) (maxArchiveBytes + 1) in
        match readErr with
        | Some e => if (blen body <? maxArchiveBytes + 1)%Z then (n, Err ("archive: download interrupted: " +:+ e))
                    else (n, Err "archive: download exceeds 2147483648 bytes")
        | None => if (maxArchiveBytes <? n)%Z then (n, Err "archive: download exceeds 2147483648 bytes")
                  else (n, Ok ())
        end
  end.

(** ** filepath.Rel on components *)
Fixpoint strip_common (a b : list string) : list string * list string :=
  match a, b with
  | x :: a', y :: b' => if String.eqb x y then strip_common a' b' else (a, b)
  | _, _ => (a, b)
  end.
Definition Rel (base targ : string) : option string :=
  if negb (Bool.eqb (IsAbs base) (IsAbs targ)) then None
  else
    let '(b, t) := strip_common (comps base) (comps targ) in
    match b with
    | w :: _ => if String.eqb w ".." then None else Some (join_slash (map (λ _, "..") b ++ t))
    | [] => Some (match t with [] => "." | _ => join_slash t end)
    end.

(** os.ReadDir(root): names with their IsDir, [None] on error *)
Definition singleSubdir (root : string) (entries : option (list (string * bool))) : option string :=
  match entries with
  | Some [(name, true)] => Some (Join [root; name])
  | _ => None
  end.
(** strings.Trim(strings.TrimSpace(s), "/") *)
Definition trim_subdir (subdir : string) : string := TrimChar "/" (TrimSpace subdir).
(** the project root below the extraction directory; [is_dir] is os.Stat *)
Definition project_root (rawRoot subdir : string) (entries : option (list (string * bool)))
    (is_dir : string → bool) : result string :=
  let projectRoot := default rawRoot (singleSubdir rawRoot entries) in
  let sub := trim_subdir subdir in
  let checked :=
    if negb (String.eqb sub "") then
      let p := Join [projectRoot; sub] in
      match Rel rawRoot p with
      | None => Err ("archive: source_subdir " +:+ subdir +:+ " escapes the extracted tree")
      | Some rel => if HasPrefix rel ".." then Err ("archive: source_subdir " +:+ subdir +:+ " escapes the extracted tree")
                    else Ok p
      end
    else Ok projectRoot in
  match checked with
  | Err e => Err e
  | Ok p => if is_dir p then Ok p else Err ("archive: project root not found (subdir=" +:+ subdir +:+ ")")
  end.

(** ** What a path denotes

    Symbolic links by the components of their path, with the components of
    their (relative) target, which is resolved from the directory that holds
    the link.  The fuel bounds the components walked; the kernel gives up after
    following 40 links. *)
Definition link_table : Type := list (list string * list string).
Definition link_at (links : link_table) (p : list string) : option (list string) :=
  snd ∘ snd <$> list_find (λ l, l.1 = p) links.
Fixpoint resolve (fuel : nat) (links : link_table) (here todo : list string) : option (list string) :=
  match fuel with
  | O => None
  | S fuel =>
      match todo with
      | [] => Some here
      | w :: todo =>
          if String.eqb w ".." then resolve fuel links (removelast here) todo
          else match link_at links (here ++ [w]) with
               | Some target => resolve fuel links here (target ++ todo)
               | None => resolve fuel links (here ++ [w]) todo
               end
      end
  end.
Definition walk_fuel : nat := 4096.
Definition link_target (link : string) : list string :=
  filter (λ w, w ≠ "" ∧ w ≠ ".") (split_slash link).
(** the directory entry a path names, its last component not followed *)
Definition entry_of (links : link_table) (p : string) : option (list string) :=
  match rev (comps p) with
  | [] => Some []
  | w :: up => d ← resolve walk_fuel links [] (rev up); Some (d ++ [w])
  end.
(** the place an operation creates, writes or removes *)
Definition touched (links : link_table) (op : fs_op) : option (list string) :=
  match op with
  | MkdirAll p _ | WriteFile p _ _ => resolve walk_fuel links [] (comps p)
  | RemoveOne p | Symlink _ p => entry_of links p
  end.
Definition links_after (links : link_table) (op : fs_op) : link_table :=
  match op with
  | Symlink link p =>
      match entry_of links p with Some e => (e, link_target link) :: links | None => links end
  | RemoveOne p =>
      match entry_of links p with Some e => filter (λ l, l.1 ≠ e) links | None => links end
  | _ => links
  end.
Fixpoint places (links : link_table) (ops : list fs_op) : list (option (list string)) :=
  match ops with
  | [] => []
  | op :: ops => touched links op :: places (links_after links op) ops
  end.

(** ** Lexical containment of an entry's target *)
Definition inside (root p : string) : Prop :=
  IsAbs p = IsAbs root ∧ ∃ ws, Forall (λ w, safe_segment w = true) ws ∧ comps p = comps root ++ ws.

Lemma inside_refl root : inside root root.
Proof. split; [done|]. exists []. by rw app_nil_r. Qed.
Lemma within_inside root p : within root p → inside root p.
Proof. intros (ws & _ & Hs & Ha & Hc). split; [done|]. by exists ws. Qed.

Lemma comps_no_up name :
  IsAbs (Clean name) = false → HasPrefix (Clean name) ".." = false → Clean name ≠ "." →
  comps name ≠ [] ∧ Forall (λ w, safe_segment w = true) (comps name) ∧ Clean name = join_slash (comps name).
Proof.
  intros Ha Hp Hd. unfold Clean in *. destruct (String.eqb_spec name "") as [|Hname]; [done|].
  fold (comps name) in *. destruct (IsAbs name) eqn:En; [done|].
  pose proof (comps_shape name) as Hsh. rw En in Hsh.
  destruct (comps name) as [|c cs] eqn:Ec; [done|]. split; [done|]. split; [|done].
  destruct Hsh as (n & ws & Hc & _ & Hs). destruct n as [|n]; [by rw Hc|].
  exfalso. injection Hc as -> _. cbn [render] in Hp. destruct cs as [|c' cs].
  - done.
  - rw join_slash_cons // HasPrefix_app // in Hp.
Qed.

Lemma Join_two root s : root ≠ "" → Join [root; s] = Clean (root +:+ String slash s).
Proof. intros Hr. unfold Join. by destruct (String.eqb_spec root ""). Qed.

(** What [safeJoin] answers. *)
Lemma safeJoin_spec root name target :
  root ≠ "" → safeJoin root name = Ok target →
  target = root ∨
  ∃ ws, ws ≠ [] ∧ Forall (λ w, safe_segment w = true) ws ∧
    target = render (IsAbs root) (comps root ++ ws) ∧ within root target.
Proof.
  intros Hr. unfold safeJoin. destruct (String.eqb_spec (Clean name) ".") as [|Hd]; [intros [= <-]; by left|].
  destruct (IsAbs (Clean name) || HasPrefix (Clean name) "..") eqn:E; [done|]. go_bool.
  destruct (comps_no_up name) as (Hne & Hs & Hc); [done|done|done|].
  destruct (negb _ && negb _); [done|]. intros Ht.
  assert (target = Join [root; Clean name]) as Ht' by congruence.
  assert (target = Join (root :: comps name)) as Hj.
  { rw Ht' Hc Join_two //. unfold Join.
    destruct (String.eqb_spec root ""); [done|]. by rw join_slash_cons. }
  right. exists (comps name). rw Hj. split_and!; [done|done|by apply Join_safe|by apply Join_within].
Qed.

(** The directory of an absolute path below the root. *)
Lemma Dir_render cs w :
  clean_shape true (cs ++ [w]) → comps (Dir (render true (cs ++ [w]))) = cs ∧ IsAbs (Dir (render true (cs ++ [w]))) = true.
Proof.
  intros Hs. pose proof (shape_no_slash _ _ Hs) as Hn.
  assert (clean_shape true cs) as Hs'.
  { destruct Hs as (n & ws & Hc & Hr & Hall). rw (Hr eq_refl) in Hc. simpl in Hc. exists 0, cs.
    split_and!; [done|done|]. rw -Hc in Hall. by apply Forall_app in Hall as [? _]. }
  assert (split_slash (render true (cs ++ [w])) = "" :: cs ++ [w]) as Hsplit.
  { unfold render. change (String slash (join_slash (cs ++ [w]))) with ("" +:+ String slash (join_slash (cs ++ [w]))).
    rw split_slash_app_any split_join //. by destruct cs. }
  assert (rev ("" :: cs ++ [w]) = w :: rev ("" :: cs)) as Hrev.
  { change ("" :: cs ++ [w]) with (("" :: cs) ++ [w]). by rw rev_app_distr. }
  unfold Dir. rw Hsplit Hrev. cbv iota. rw rev_involutive. cbv iota.
  set (p := join_slash (("" :: cs) ++ [""])).
  assert (p = String slash (join_slash (cs ++ [""]))) as Hp by (unfold p; by destruct cs).
  assert (split_slash p = "" :: cs ++ [""]) as Hpsplit.
  { rw Hp. change (String slash (join_slash (cs ++ [""]))) with ("" +:+ String slash (join_slash (cs ++ [""]))).
    rw split_slash_app_any split_join; [done|by destruct cs|].
    apply Forall_app in Hn as [Hn _]. apply Forall_app. by split; [|constructor]. }
  assert (clean_components true ("" :: cs ++ [""]) = cs) as Hcc.
  { unfold clean_components. cbn [foldl clean_step]. change (clean_step true [] "") with (@nil string).
    rw foldl_app. cbn [foldl]. change (clean_step true ?o "") with o. by apply clean_shape_idem. }
  assert (Clean p = render true cs) as ->.
  { unfold Clean. rw Hpsplit (_ : String.eqb p "" = false); [|by rw Hp].
    rw (_ : IsAbs p = true); [|by rw Hp]. by rw Hcc. }
  destruct cs as [|c cs]; [done|]. destruct (render_comps true (c :: cs)) as [H1 H2]; [done|done|]. by rw H2.
Qed.

Lemma Dir_inside root target ws :
  IsAbs root = true → ws ≠ [] → Forall (λ w, safe_segment w = true) ws →
  target = render (IsAbs root) (comps root ++ ws) → inside root (Dir target).
Proof.
  intros Ha Hne Hs ->. rw Ha. destruct ws as [|w ws _] using rev_ind; [done|].
  apply Forall_app in Hs as [Hs Hw].
  assert (clean_shape true ((comps root ++ ws) ++ [w])) as Hsh.
  { pose proof (comps_shape root) as Hr. rw Ha in Hr.
    apply clean_shape_app; [|by constructor; inversion Hw]. by apply clean_shape_app. }
  rw app_assoc. destruct (Dir_render _ _ Hsh) as [Hc Hab]. split; [congruence|]. exists ws. by split.
Qed.

(** ** Extraction *)
Definition op_path (op : fs_op) : string :=
  match op with MkdirAll p _ | WriteFile p _ _ | RemoveOne p | Symlink _ p => p end.
Definition is_symlink (h : tar_entry) : bool := match th_type h with TypeSymlink => true | _ => false end.
Definition creates_link (op : fs_op) : bool := match op with Symlink _ _ => true | _ => false end.

Section extraction.
Variable os : fs_op → bool.
Variable root : string.
Hypothesis Hroot : IsAbs root = true.

Lemma root_nonempty : root ≠ "".
Proof. pose proof Hroot as Hr. intros H. by rw H in Hr. Qed.
Local Hint Resolve root_nonempty : core.

(** An entry named "." stands for the root; its parent directory, which
    exists, is then passed to MkdirAll. *)
Definition op_ok (op : fs_op) : Prop := inside root (op_path op) ∨ op_path op = Dir root.

Lemma target_ok name target :
  safeJoin root name = Ok target →
  inside root target ∧ (inside root (Dir target) ∨ Dir target = Dir root).
Proof.
  intros Hj. destruct (safeJoin_spec root name target) as [-> | (ws & Hne & Hs & Ht & Hw)]; [done|done| |].
  - split; [apply inside_refl|by right].
  - split; [by apply within_inside|]. left. by eapply Dir_inside.
Qed.

Lemma tar_entry_inside h : Forall op_ok (tar_entry_ops os root h).1.
Proof.
  unfold tar_entry_ops. destruct (safeJoin root (th_name h)) as [target|] eqn:Ej; [|done].
  destruct (target_ok _ _ Ej) as [Ht Hd].
  destruct (th_type h); repeat case_match; cbn;
    repeat first [apply Forall_nil_2|apply Forall_cons_2]; first [done|by left].
Qed.
Lemma zip_entry_inside z : Forall op_ok (zip_entry_ops os root z).1.
Proof.
  unfold zip_entry_ops. destruct (safeJoin root (zf_name z)) as [target|] eqn:Ej; [|done].
  destruct (target_ok _ _ Ej) as [Ht Hd]. repeat case_match; cbn;
    repeat first [apply Forall_nil_2|apply Forall_cons_2]; first [done|by left].
Qed.
Lemma tar_inside entries readErr : Forall op_ok (extractTarGz os root entries readErr).1.
Proof.
  induction entries as [|h entries IH]; [done|]. cbn [extractTarGz].
  pose proof (tar_entry_inside h) as Hh. destruct (tar_entry_ops os root h) as [ops [e|]]; [done|].
  destruct (extractTarGz os root entries readErr). by apply Forall_app.
Qed.
Lemma zip_inside entries : Forall op_ok (extractZip os root entries).1.
Proof.
  induction entries as [|z entries IH]; [done|]. cbn [extractZip].
  pose proof (zip_entry_inside z) as Hz. destruct (zip_entry_ops os root z) as [ops [e|]]; [done|].
  destruct (extractZip os root entries). by apply Forall_app.
Qed.

Lemma tar_no_links entries readErr :
  Forall (λ h, is_symlink h = false) entries →
  Forall (λ op, creates_link op = false) (extractTarGz os root entries readErr).1.
Proof.
  induction 1 as [|h entries Hh Hes IH]; [done|]. cbn [extractTarGz].
  assert (Forall (λ op, creates_link op = false) (tar_entry_ops os root h).1) as Ho.
  { unfold tar_entry_ops. destruct (safeJoin root (th_name h)); [|done]. unfold is_symlink in Hh.
    destruct (th_type h); try done; repeat case_match; repeat constructor. }
  destruct (tar_entry_ops os root h) as [ops [e|]]; [done|].
  destruct (extractTarGz os root entries readErr). by apply Forall_app.
Qed.
Lemma zip_no_links entries : Forall (λ op, creates_link op = false) (extractZip os root entries).1.
Proof.
  induction entries as [|z entries IH]; [done|]. cbn [extractZip].
  assert (Forall (λ op, creates_link op = false) (zip_entry_ops os root z).1) as Ho.
  { unfold zip_entry_ops. destruct (safeJoin root (zf_name z)); [|done]. repeat case_match; repeat constructor. }
  destruct (zip_entry_ops os root z) as [ops [e|]]; [done|].
  destruct (extractZip os root entries). by apply Forall_app.
Qed.

#[local] Opaque walk_fuel.
(** Without links a path denotes its components. *)
Lemma resolve_no_links fuel here todo q :
  Forall (λ w, w ≠ "..") todo → resolve fuel [] here todo = Some q → q = here ++ todo.
Proof.
  revert here todo. induction fuel as [|fuel IH]; intros here todo Hall; [done|]. cbn [resolve].
  destruct todo as [|w todo]; [intros [= <-]; by rw app_nil_r|]. inversion Hall; subst.
  destruct (String.eqb_spec w ".."); [done|]. cbn. intros Hq. rw (IH (here ++ [w]) todo) //. by rw -app_assoc.
Qed.

Lemma abs_comps_safe p : IsAbs p = true → Forall (λ w, w ≠ "..") (comps p).
Proof.
  intros Ha. destruct (comps_shape p) as (n & ws & Hc & Hn & Hs). rw (Hn Ha) in Hc. simpl in Hc. rw Hc.
  eapply Forall_impl; [exact Hs|]. intros w Hw ->. done.
Qed.

Lemma places_no_links ops :
  Forall (λ op, creates_link op = false) ops → places [] ops = map (touched []) ops.
Proof.
  induction 1 as [|op ops Ho _ IH]; [done|]. cbn [places map]. f_equal. rw -IH. f_equal.
  destruct op; try done. cbn. by case_match.
Qed.

Lemma touched_no_links op q :
  inside root (op_path op) → touched [] op = Some q → comps root `prefix_of` q ∨ q = comps (op_path op).
Proof.
  intros [Ha (ws & Hs & Hc)] Hq. right. rw Hroot in Ha.
  pose proof (abs_comps_safe _ Ha) as Hup.
  assert (∀ p, p = op_path op → resolve walk_fuel [] [] (comps p) = Some q → q = comps (op_path op)) as Hres.
  { intros p ->. apply resolve_no_links. done. }
  assert (∀ p, p = op_path op → entry_of [] p = Some q → q = comps (op_path op)) as Hent.
  { intros p ->. unfold entry_of. destruct (comps (op_path op)) as [|w cs _] using rev_ind; [by intros [= <-]|].
    apply Forall_app in Hup as [Hup _]. rw rev_app_distr.
    change (rev [w] ++ rev cs) with (w :: rev cs). cbv iota. rw rev_involutive.
    destruct (resolve walk_fuel [] [] cs) as [d|] eqn:Ed; [|done]. cbn [mbind option_bind]. intros [= <-].
    by rw (resolve_no_links _ _ _ _ Hup Ed). }
  destruct op; cbn [touched op_path] in *; eauto.
Qed.

(** The places of a link-free list of operations. *)
Lemma places_inside ops i op q :
  Forall op_ok ops → Forall (λ op, creates_link op = false) ops →
  ops !! i = Some op → op_path op ≠ Dir root → places [] ops !! i = Some (Some q) →
  comps root `prefix_of` q.
Proof.
  intros Hok Hnl Hi Hd. rw places_no_links // list_lookup_fmap Hi. intros [= Hq].
  destruct (proj1 (Forall_lookup _ _) Hok i op Hi) as [Hin|]; [|done].
  destruct (touched_no_links _ _ Hin Hq) as [ | ->]; [done|].
  destruct Hin as [_ (ws & _ & ->)]. by apply prefix_app_r.
Qed.
End extraction.

(** Unpacking an archive names only paths at or below the extraction
    directory (or, for an entry named ".", asks for its existing parent),
    whatever the names in the archive; and what a zip archive, or a tar
    archive without symbolic links, creates or writes in a fresh directory
    really is below it. *)
Theorem archive_extract_inside os root tar readErr zip :
  IsAbs root = true →
  let tops := (extractTarGz os root tar readErr).1 in
  let zops := (extractZip os root zip).1 in
  Forall (op_ok root) tops ∧ Forall (op_ok root) zops ∧
  ∀ ops i op q, (ops = zops ∨ (ops = tops ∧ Forall (λ h, is_symlink h = false) tar)) →
    ops !! i = Some op → op_path op ≠ Dir root → places [] ops !! i = Some (Some q) →
    comps root `prefix_of` q.
Proof.
  intros Hr tops zops. split_and!; [by apply tar_inside|by apply zip_inside|].
  intros ops i op q [-> | [-> Hnl]] Hi Hd Hq; (eapply places_inside; [done| | |exact Hi|done|exact Hq]).
  - by apply zip_inside.
  - apply zip_no_links.
  - by apply tar_inside.
  - by apply tar_no_links.
Qed.

(** An archive whose first entry is a relative link out of the tree. *)
Definition evil_tar : list tar_entry :=
  [mkTar "p/out" TypeSymlink 511 "../../../.ssh" ""; mkTar "p/out/authorized_keys" TypeReg 420 "" "key"].

(** A tar archive can write outside the extraction directory: a
    relative symbolic link is accepted whatever it points at, and the next
    entry is written through it. *)
Theorem archive_symlink_escapes :
  let root := "/tmp/b/src.dl/.extract" in
  let '(ops, r) := extractTarGz (λ _, true) root evil_tar None in
  r = Ok () ∧ last ops = Some (WriteFile (root +:+ "/p/out/authorized_keys") 420 "key") ∧
  last (places [] ops) = Some (Some ["tmp"; "b"; ".ssh"; "authorized_keys"]) ∧
  ¬ comps root `prefix_of` ["tmp"; "b"; ".ssh"; "authorized_keys"].
Proof.
  vm_compute. split_and!; [done|done|done|]. intros [k Hk]. discriminate Hk.
Qed.

Lemma archive_extract_inside_witness :
  comps "/b" `prefix_of` ["b"; "a"; "x"].
Proof.
  destruct (archive_extract_inside (λ _, true) "/b" [] None [mkZip "a/x" false 420 "hi"] eq_refl) as (_ & _ & H).
  apply (H _ 1 (WriteFile "/b/a/x" 420 "hi") ["b"; "a"; "x"] (or_introl eq_refl) eq_refl);
    [discriminate|vm_compute; reflexivity].
Defined.

(** A download never puts more than 2 GiB plus one byte on disk, and
    one that succeeds had a 2xx status and stored the whole body, of at most
    2 GiB. *)
Theorem archive_download_bounded reply open_ok :
  let '(written, r) := downloadArchive reply open_ok in
  (0 ≤ written ≤ maxArchiveBytes + 1)%Z ∧
  (r = Ok () → ∃ status body, reply = Reply status body None ∧ (200 ≤ status < 300)%Z ∧
     written = blen body ∧ (written ≤ maxArchiveBytes)%Z).
Proof.
  unfold downloadArchive. destruct reply as [e|status body readErr]; [split; [unfold maxArchiveBytes; lia|done]|].
  pose proof (blen_nonneg body).
  destruct ((status <? 200)%Z || (300 <=? status)%Z) eqn:Es; [split; [unfold maxArchiveBytes; lia|done]|]. go_bool.
  destruct open_ok; cbn [negb]; [|split; [unfold maxArchiveBytes; lia|done]]. cbv zeta.
  assert (0 ≤ Z.min (blen body) (maxArchiveBytes + 1) ≤ maxArchiveBytes + 1)%Z as Hb by (unfold maxArchiveBytes; lia).
  destruct readErr as [e|]; [destruct (blen body <? maxArchiveBytes + 1)%Z; (split; [exact Hb|done])|].
  destruct (maxArchiveBytes <? Z.min (blen body) (maxArchiveBytes + 1))%Z eqn:Em; go_bool; split; try done.
  intros _. exists status, body. split_and!; [done|lia|lia|lia|lia].
Qed.

(** ** The project root *)
Lemma strip_common_spec a b b' t : strip_common a b = (b', t) → ∃ c, a = c ++ b' ∧ b = c ++ t.
Proof.
  revert b. induction a as [|x a IH]; intros b; cbn [strip_common]; [intros [= <- <-]; by exists []|].
  destruct b as [|y b]; [intros [= <- <-]; by exists []|].
  destruct (String.eqb_spec x y) as [->|]; [|intros [= <- <-]; by exists []].
  intros Hs. destruct (IH _ Hs) as (c & -> & ->). by exists (y :: c).
Qed.

Lemma Rel_below base targ rel :
  Rel base targ = Some rel → HasPrefix rel ".." = false →
  IsAbs targ = IsAbs base ∧ ∃ t, comps targ = comps base ++ t.
Proof.
  unfold Rel. destruct (Bool.eqb (IsAbs base) (IsAbs targ)) eqn:Ea; [|done]. cbn [negb].
  apply Bool.eqb_prop in Ea. destruct (strip_common (comps base) (comps targ)) as [b t] eqn:Es.
  destruct (strip_common_spec _ _ _ _ Es) as (c & Hb & Ht). destruct b as [|w b].
  - intros _ _. split; [done|]. exists t. by rw Hb Ht app_nil_r.
  - destruct (String.eqb w ".."); [done|]. intros Hr Hp. exfalso.
    assert (HasPrefix rel ".." = true); [|congruence].
    injection Hr as <-. cbn [map app]. destruct (map (λ _, "..") b ++ t) as [|x l]; [done|].
    by rw join_slash_cons.
Qed.

(** The project root handed to the build is the extraction directory or
    lies below it, for any archive layout and any requested subdirectory. *)
Theorem archive_root_inside rawRoot subdir entries is_dir p :
  IsAbs rawRoot = true → Forall (λ e, safe_segment e.1 = true) (default [] entries) →
  project_root rawRoot subdir entries is_dir = Ok p →
  IsAbs p = true ∧ comps rawRoot `prefix_of` comps p ∧ is_dir p = true.
Proof.
  intros Ha Hnames. assert (rawRoot ≠ "") as Hne by (intros ->; done).
  assert (inside rawRoot (default rawRoot (singleSubdir rawRoot entries))) as Hin.
  { unfold singleSubdir. destruct entries as [[|[name []] []]|]; try apply inside_refl.
    cbn in *. apply within_inside, (Join_within rawRoot [name]); [done|done|].
    by inversion Hnames; constructor. }
  unfold project_root. cbv zeta. set (root := default rawRoot _) in *.
  intros Hp.
  assert (∀ q, IsAbs q = IsAbs rawRoot → (∃ t, comps q = comps rawRoot ++ t) →
    (if is_dir q then Ok q else Err ("archive: project root not found (subdir=" +:+ subdir +:+ ")")) = Ok p →
    IsAbs p = true ∧ comps rawRoot `prefix_of` comps p ∧ is_dir p = true) as Hfin.
  { intros q Hq [t Hc]. destruct (is_dir q) eqn:Ed; [|done]. intros [= <-].
    rw Hc. split_and!; [congruence|by apply prefix_app_r|done]. }
  destruct (negb (String.eqb (trim_subdir subdir) "")).
  - destruct (Rel rawRoot (Join [root; trim_subdir subdir])) as [rel|] eqn:Er; [|done].
    destruct (HasPrefix rel "..") eqn:Ep; [done|]. destruct (Rel_below _ _ _ Er Ep) as [H1 H2].
    exact (Hfin _ H1 H2 Hp).
  - destruct Hin as [H1 (t & _ & Hc)]. exact (Hfin _ H1 (ex_intro _ t Hc) Hp).
Qed.
Lemma archive_root_inside_witness :
  comps "/w/.extract" `prefix_of` comps "/w/.extract/repo-1/ios/app".
Proof.
  destruct (archive_root_inside "/w/.extract" " ios/app/ " (Some [("repo-1", true)]) (λ _, true)
    "/w/.extract/repo-1/ios/app") as (_ & H & _);
    [reflexivity|constructor; [reflexivity|constructor]|vm_compute; reflexivity|exact H].
Defined.
(** A subdirectory whose name merely begins with two dots is refused. *)
Lemma archive_dotdot_name_refused :
  safeJoin "/b" "..data/x" = Err (escapes "..data/x").
Proof. reflexivity. Qed.
