(* ===== verification/BuildRunner.v ===== *)
(** * BuildRunner: build jobs (common/build/runner.go, handler.go)

    [runBuild] is the pipeline of one build as a function of what the host
    answers ([build_host]): it threads the frames emitted, the commands run,
    the directories removed and the number of times the context was consulted.
    The table of running builds is [rstep], one label per critical section of
    Runner.mu.  Fetching an archive is [Archive], redaction [GitWorkspace]. *)
From S2P Require Import Prelude GoStrings GoPath GitWorkspace Archive.
From Stdlib Require Import Ascii.

Record BuildRequest := mkBuild {
  br_id : string; br_sourceUrl : string; br_sourceRef : string; br_sourceKind : string;
  br_sourceSubdir : string; br_noProxy : bool; br_steps : list string; br_glob : string;
  br_artifactName : string; br_uploadUrl : string; br_uploadToken : string; br_timeout : Z
}.

(** ** Text *)
Definition logTailBytes : nat := 4096.   (** 4 << 10 *)
Definition ellipsis : string := String "226" (String "128" (String "166" "")).
Definition newline : string := String "010" "".
Definition tail (s : string) (max : nat) : string :=
  let s := TrimSpace s in
  if String.length s <=? max then s
  else
    let cut := drop_bytes (String.length s - max) s in
    let cut := match Index cut newline with Some i => drop_bytes (i + 1) cut | None => cut end in
    ellipsis +:+ cut.
Definition pem_marker : string := "-----BEGIN".
Definition redactPEM (s : string) : string :=
  match Index s pem_marker with
  | Some i => take_bytes i s +:+ "[redacted key material]"
  | None => s
  end.
Definition logTail (out : string) : string := redactPEM (RedactGitSecrets (tail out logTailBytes)).
Definition redactErr (err : option string) : string :=
  match err with None => "" | Some e => redactPEM (RedactGitSecrets e) end.
Fixpoint until_eol (s : string) : string :=
  match s with
  | EmptyString => ""
  | String c s => if is_code 10 c || is_code 13 c then "" else String c (until_eol s)
  end.
Definition firstLine (s : string) : string := TrimSpace (until_eol s).
Definition refLabel (ref : string) : string := if String.eqb ref "" then "default branch" else ref.
Definition file_rune (r : rune) : string :=
  match r with
  | RAscii c => if is_lower c || is_upper c || is_digit c || Ascii.eqb c "-" || Ascii.eqb c "_"
                then String c "" else "-"
  | _ => "-"
  end.
Definition sanitizeFileName (s : string) : string :=
  let out := foldr (λ r acc, file_rune r +:+ acc) "" (runes s) in
  if 48 <? String.length out then drop_bytes (String.length out - 48) out else out.

(** ** globOne; filepath.Glob and os.Stat are the host's *)
Definition globOne (glob : string → result (list string)) (stat : string → result bool)
    (dir pattern : string) : result string :=
  let pattern := TrimSpace pattern in
  if String.eqb pattern "" then Err "artifact_glob is empty"
  else match glob (Join [dir; pattern]) with
  | Err e => Err ("bad artifact_glob " +:+ pattern +:+ ": " +:+ e)
  | Ok [] => Err ("artifact_glob " +:+ pattern +:+ " matched nothing")
  | Ok [m] =>
      match stat m with
      | Err e => Err e
      | Ok true => Err ("artifact_glob " +:+ pattern +:+ " matched a directory")
      | Ok false => Ok m
      end
  | Ok matches => Err ("artifact_glob " +:+ pattern +:+ " matched " +:+ itoa (N.of_nat (length matches)) +:+ " files")
  end.

(** ** Frames, outcomes and the state of a build *)
Inductive build_frame :=
| BuildEvent (id : string) (seq : Z) (stage message : string) (percent : Z) (tail : string)
| BuildResult (id : string) (ok : bool) (errorCode errorMessage : string) (retryable : bool)
    (stageReached sha : string) (size : Z).

Record buildOutcome := mkOutcome {
  oc_stage : string; oc_errCode : string; oc_err : option string; oc_retryable : bool;
  oc_sha : string; oc_size : Z; oc_logTail : string
}.
Definition failed (stage code : string) (err : string) : buildOutcome :=
  mkOutcome stage code (Some err) false "" 0 "".

Inductive command := mkCommand (dir name : string) (args : list string).
Record bstate := mkState {
  b_seq : Z; b_out : list build_frame; b_looks : nat; b_cmds : list command;
  b_fs : list fs_op; b_uploads : list (string * string * string); b_removed : list string
}.
#[export] Instance eta_bstate : Settable bstate := λ s,
  mkState (b_seq s) (b_out s) (b_looks s) (b_cmds s) (b_fs s) (b_uploads s) (b_removed s).
Definition binit : bstate := mkState 0 [] 0 [] [] [] [].

Record proxySpec := mkProxySpec { ps_mode : string; ps_url : string; ps_prefix : string }.
Record build_host := mkBHost {
  bh_tmp : result string;                          (** os.MkdirTemp *)
  bh_proxy : option proxySpec;                     (** [None]: no client *)
  bh_proxyClient : string → option string;         (** HTTPClientForProxyURL's error *)
  bh_ctx : nat → option string;                    (** ctx.Err() at each look *)
  bh_exec : nat → string * option string;          (** output and error of the n-th command *)
  bh_mkdir : string → option string;
  bh_reply : string → http_reply; bh_openArchive : bool; bh_head : string;
  bh_tar : result (list tar_entry * option string); bh_zip : result (list zip_entry);
  bh_os : fs_op → bool; bh_readDir : string → option (list (string * bool)); bh_isDir : string → bool;
  bh_rename : option string;
  bh_glob : string → result (list string); bh_stat : string → result bool;
  bh_sha : string → result (string * Z); bh_upload : option string
}.

Section pipeline.
Variable h : build_host.
Variable req : BuildRequest.

Definition event (stage msg : string) (percent : Z) (tail : string) (st : bstate) : bstate :=
  let seq := (b_seq st + 1)%Z in
  st <| b_seq := seq |> <| b_out := b_out st ++ [BuildEvent (br_id req) seq stage msg (int32_of percent) tail] |>.
(** ctx.Err() *)
Definition look (st : bstate) : option string * bstate :=
  (bh_ctx h (b_looks st), st <| b_looks := S (b_looks st) |>).
Definition exec_cmd (dir name : string) (args : list string) (st : bstate) : (string * option string) * bstate :=
  (bh_exec h (length (b_cmds st)), st <| b_cmds := b_cmds st ++ [mkCommand dir name args] |>).
(** a failed operation is reported as cancelled when the context is *)
Definition or_cancelled (stage : string) (out : buildOutcome) (st : bstate) : buildOutcome * bstate :=
  let '(c, st) := look st in
  match c with Some e => (failed stage "cancelled" e, st) | None => (out, st) end.

(** the egress rewrite shared by both sources *)
Definition prefixed (spec : proxySpec) (url : string) : string :=
  TrimRightChar "/" (ps_prefix spec) +:+ "/" +:+ TrimLeftChar "/" url.
Definition egress : option proxySpec := if br_noProxy req then None else bh_proxy h.

(** *** acquireGit: [None] on success *)
Definition clone_url : string :=
  let url := TrimSpace (br_sourceUrl req) in
  match egress with
  | Some spec => if String.eqb (ps_mode spec) "url_prefix" && negb (String.eqb (ps_prefix spec) "")
                 then prefixed spec url else url
  | None => url
  end.
Definition proxy_args : list string :=
  match egress with
  | Some spec =>
      if String.eqb (ps_mode spec) "url_prefix" && negb (String.eqb (ps_prefix spec) "") then []
      else if String.eqb (ps_mode spec) "network" && negb (String.eqb (ps_url spec) "")
      then ["-c"; "https.proxy=" +:+ ps_url spec; "-c"; "http.proxy=" +:+ ps_url spec] else []
  | None => []
  end.
Definition acquireGit (dest : string) (st : bstate) : option buildOutcome * bstate :=
  let ref := TrimSpace (br_sourceRef req) in
  let args := proxy_args ++ ["clone"; "--depth"; "1"] ++
              (if negb (String.eqb ref "") then ["--branch"; ref] else []) ++ [clone_url; "src"] in
  let st := event "cloning" ("git clone " +:+ RedactGitURL clone_url +:+ " @ " +:+ refLabel ref) 5 "" st in
  let '((out, err), st) := exec_cmd (Dir dest) "git" args st in
  match err with
  | None => (None, st)
  | Some e =>
      let '(o, st) := or_cancelled "cloning" (mkOutcome "cloning" "clone_failed" (Some e) true "" 0 (logTail out)) st in
      (Some o, st)
  end.

(** *** fetchArchive, with the stage messages it reports *)
Definition fetchArchive (url destDir subdir : string) (st : bstate) : result string * bstate :=
  match bh_mkdir h destDir with
  | Some e => (Err ("archive: prepare dir: " +:+ e), st)
  | None =>
      let st := event "cloning" ("downloading " +:+ url) 8 "" st in
      match (downloadArchive (bh_reply h url) (bh_openArchive h)).2 with
      | Err e => (Err e, st)
      | Ok _ =>
          let rawRoot := Join [destDir; ".extract"] in
          match bh_mkdir h rawRoot with
          | Some e => (Err e, st)
          | None =>
              let st := event "cloning" "extracting archive" 8 "" st in
              let '(ops, r) := extractArchive (bh_os h) (bh_head h) rawRoot (bh_tar h) (bh_zip h) in
              let st := st <| b_fs := b_fs st ++ ops |> in
              match r with
              | Err e => (Err e, st)
              | Ok _ => (project_root rawRoot subdir (bh_readDir h rawRoot) (bh_isDir h), st)
              end
          end
      end
  end.
Definition archive_url : string :=
  let url := TrimSpace (br_sourceUrl req) in
  match egress with
  | Some spec => if String.eqb (ps_mode spec) "url_prefix" && negb (String.eqb (ps_prefix spec) "")
                 then prefixed spec url else url
  | None => url
  end.
Definition archive_client_error : option string :=
  match egress with
  | Some spec => if String.eqb (ps_mode spec) "network" then bh_proxyClient h (ps_url spec) else None
  | None => None
  end.
Definition acquireArchive (dest : string) (st : bstate) : option buildOutcome * bstate :=
  match archive_client_error with
  | Some e => (Some (failed "cloning" "source_failed" e), st)
  | None =>
      let st := event "cloning" ("download " +:+ RedactGitURL archive_url) 5 "" st in
      let '(r, st) := fetchArchive archive_url (dest +:+ ".dl") (br_sourceSubdir req) st in
      match r with
      | Err e =>
          let '(o, st) := or_cancelled "cloning"
            (mkOutcome "cloning" "source_failed" (Some e) true "" 0 (redactErr (Some e))) st in
          (Some o, st)
      | Ok projectRoot =>
          match bh_rename h with
          | Some e => (Some (failed "cloning" "source_failed" e), st)
          | None => (None, st)
          end
      end
  end.

(** *** the steps *)
Fixpoint run_steps (srcDir : string) (total : nat) (i : nat) (steps : list string) (st : bstate)
  : option buildOutcome * bstate :=
  match steps with
  | [] => (None, st)
  | step :: steps =>
      let '(c, st) := look st in
      match c with
      | Some e => (Some (failed "building" "cancelled" e), st)
      | None =>
          let percent := (10 + 90 * Z.of_nat i / Z.max (Z.of_nat total) 1)%Z in
          let st := event "building" ("step " +:+ itoa (N.of_nat (S i)) +:+ "/" +:+ itoa (N.of_nat total) +:+ ": " +:+ firstLine step)
                      percent "" st in
          let '((out, err), st) := exec_cmd srcDir "sh" ["-c"; step] st in
          match err with
          | None => run_steps srcDir total (S i) steps st
          | Some e =>
              let '(o, st) := or_cancelled "building"
                (mkOutcome "building" "step_failed" (Some e) false "" 0 (logTail out)) st in
              (Some o, st)
          end
      end
  end.

(** *** packaging and upload *)
Definition package_upload (srcDir : string) (st : bstate) : buildOutcome * bstate :=
  match globOne (bh_glob h) (bh_stat h) srcDir (br_glob req) with
  | Err e => (failed "packaging" "artifact_not_found" e, st)
  | Ok artifact =>
      match bh_sha h artifact with
      | Err e => (failed "packaging" "artifact_read_failed" e, st)
      | Ok (sum, size) =>
          let st := event "uploading" ("upload " +:+ Base artifact +:+ " (" +:+ itoa (Z.to_N size) +:+ " bytes)") 95 "" st in
          let st := st <| b_uploads := b_uploads st ++ [(br_uploadUrl req, br_uploadToken req, artifact)] |> in
          match bh_upload h with
          | None => (mkOutcome "completed" "" None false sum size "", st)
          | Some e => or_cancelled "uploading" (mkOutcome "uploading" "upload_failed" (Some e) true sum size "") st
          end
      end
  end.

Definition is_archive : bool := EqualFold (TrimSpace (br_sourceKind req)) "archive".
Definition pipeline (srcDir : string) (st : bstate) : buildOutcome * bstate :=
  let '(fail, st) := if is_archive then acquireArchive srcDir st else acquireGit srcDir st in
  match fail with
  | Some out => (out, st)
  | None =>
      let '(fail, st) := run_steps srcDir (length (br_steps req)) 0 (br_steps req) st in
      match fail with
      | Some out => (out, st)
      | None => package_upload srcDir st
      end
  end.
Definition runBuild (st : bstate) : buildOutcome * bstate :=
  match bh_tmp h with
  | Err e => (failed "cloning" "workdir_failed" e, st)
  | Ok workDir =>
      let st := event "queued" "build accepted" 0 "" st in
      let '(out, st) := pipeline (Join [workDir; "src"]) st in
      (out, st <| b_removed := b_removed st ++ [workDir] |>)
  end.

Definition finish (out : buildOutcome) (st : bstate) : bstate :=
  let ok := bool_decide (oc_err out = None) && String.eqb (oc_errCode out) "" in
  let msg := if ok then "build complete: " +:+ Base (br_artifactName req) else "build failed: " +:+ oc_errCode out in
  let st := event (oc_stage out) msg (if ok then 100%Z else 0%Z) (oc_logTail out) st in
  st <| b_out := b_out st ++ [BuildResult (br_id req) ok (oc_errCode out) (redactErr (oc_err out))
          (oc_retryable out) (oc_stage out) (oc_sha out) (oc_size out)] |>.
(** the goroutine of Start *)
Definition build_job : bstate := let '(out, st) := runBuild binit in finish out st.
End pipeline.

(** ** The table of builds *)
(** Start's validation; the text of the error *)
Definition Start_check (req : BuildRequest) : option string :=
  if String.eqb (br_id req) "" then Some "build: build_id is required"
  else if String.eqb (br_sourceUrl req) "" then Some "build: source_url is required"
  else if negb (existsb (String.eqb (ToLower (TrimSpace (br_sourceKind req)))) [""; "git"; "archive"])
       then Some ("build: unknown source_kind " +:+ br_sourceKind req)
  else match br_steps req with
  | [] => Some "build: steps is required"
  | _ => if String.eqb (br_uploadUrl req) "" || String.eqb (br_uploadToken req) ""
         then Some "build: upload_url and upload_token are required" else None
  end.
(** time.Duration(req.GetTimeoutSeconds()) * time.Second in int64, thirty
    minutes when not positive *)
Definition build_timeout (req : BuildRequest) : Z :=
  let timeout := int64_of (br_timeout req * 10 ^ 9) in
  if (timeout <=? 0)%Z then (30 * 60 * 10 ^ 9)%Z else timeout.

Inductive job_phase := JRunning | JReported | JGone.
#[export] Instance job_phase_eq_dec : EqDecision job_phase.
Proof. solve_decision. Defined.
Record buildJob := mkBJob {
  bj_req : BuildRequest; bj_stream : nat;   (** the stream whose context is the parent *)
  bj_cancelled : bool; bj_phase : job_phase
}.
#[export] Instance eta_buildJob : Settable buildJob := λ j,
  mkBJob (bj_req j) (bj_stream j) (bj_cancelled j) (bj_phase j).
Record rsys := mkRsys {
  r_jobs : list buildJob;                   (** every job ever started *)
  r_table : gmap string nat;                (** Runner.jobs *)
  r_results : list (nat * bool);            (** result frames: job, accepted by the stream *)
  r_acks : list (string * option string)    (** SendAck *)
}.
#[export] Instance eta_rsys : Settable rsys := λ s, mkRsys (r_jobs s) (r_table s) (r_results s) (r_acks s).
Definition rinit : rsys := mkRsys [] ∅ [] [].

Inductive build_payload := NodeBuild (req : BuildRequest) | NodeBuildCancel (id : string) | OtherFrame.
Inductive rlabel :=
| LFrame (stream : nat) (frameID : string) (payload : build_payload)
| LReport (k : nat) (ok : bool)             (** finish: the result frame *)
| LExit (k : nat)                           (** the deferred delete *)
| LStopAll
| LStreamDrop (stream : nat).               (** the stream context is cancelled *)

Definition Start (stream : nat) (req : BuildRequest) (s : rsys) : option string * rsys :=
  match Start_check req with
  | Some e => (Some e, s)
  | None =>
      match r_table s !! br_id req with
      | Some _ => (None, s)
      | None =>
          (None, s <| r_jobs := r_jobs s ++ [mkBJob req stream false JRunning] |>
                   <| r_table := <[br_id req := length (r_jobs s)]> (r_table s) |>)
      end
  end.
Definition cancel_job (k : nat) (s : rsys) : rsys :=
  s <| r_jobs := alter (λ j, j <| bj_cancelled := true |>) k (r_jobs s) |>.
Definition Cancel (id : string) (s : rsys) : rsys :=
  match r_table s !! id with Some k => cancel_job k s | None => s end.
Definition HandleBuildFrame (stream : nat) (frameID : string) (p : build_payload) (s : rsys) : rsys * bool :=
  match p with
  | NodeBuild req =>
      let '(err, s) := Start stream req s in (s <| r_acks := r_acks s ++ [(frameID, err)] |>, true)
  | NodeBuildCancel id =>
      let s := Cancel id s in (s <| r_acks := r_acks s ++ [(frameID, None)] |>, true)
  | OtherFrame => (s, false)
  end.
Definition set_phase (k : nat) (ph : job_phase) (s : rsys) : rsys :=
  s <| r_jobs := alter (λ j, j <| bj_phase := ph |>) k (r_jobs s) |>.
Definition rstep (s : rsys) (l : rlabel) : option rsys :=
  match l with
  | LFrame stream frameID p => Some (HandleBuildFrame stream frameID p s).1
  | LReport k ok =>
      j ← r_jobs s !! k;
      match bj_phase j with
      | JRunning => Some (set_phase k JReported s <| r_results := r_results s ++ [(k, ok)] |>)
      | _ => None
      end
  | LExit k =>
      j ← r_jobs s !! k;
      match bj_phase j with
      | JReported => Some (set_phase k JGone s <| r_table := delete (br_id (bj_req j)) (r_table s) |>)
      | _ => None
      end
  | LStopAll =>
      Some (s <| r_jobs := map (λ j, match bj_phase j with JGone => j | _ => j <| bj_cancelled := true |> end) (r_jobs s) |>)
  | LStreamDrop stream =>
      Some (s <| r_jobs := map (λ j, if bj_stream j =? stream then j <| bj_cancelled := true |> else j) (r_jobs s) |>)
  end.
Definition rrun := trace_run (fun_step rstep).
