(* ===== verification/Sha256.v ===== *)
(** * Sha256: crypto/sha256 and encoding/hex of the standard library

    The digests that uploads and upgrades are checked against
    (common/agent/host_file_upload.go, selfupgrade.go, runtimeupgrade.go), so
    that the checks evaluate; padding and words are those of [Totp.Sha1]. *)
From S2P Require Import Prelude GoStrings Totp.
From Stdlib Require Import Ascii.
Local Open Scope Z_scope.

Definition rotr (n x : Z) : Z := Sha1.rotl (32 - n) x.
(** The constants are the first 32 bits of the fractional parts of the cube
    roots of the first 64 primes, and of the square roots of the first 8. *)
Definition prime (n : Z) : bool :=
  forallb (λ d, negb (n mod d =? 0)) (map Z.of_nat (seq 2 (Z.to_nat (n - 2)))).
Definition primes : list Z := Eval vm_compute in filter (λ n, Is_true (prime n)) (map Z.of_nat (seq 2 310)).
(** the greatest [r < 2 ^ bits] with [r ^ k <= n] *)
Fixpoint root (k n : Z) (bits : nat) (r : Z) : Z :=
  match bits with
  | O => r
  | S bits => let r' := r + 2 ^ Z.of_nat bits in root k n bits (if r' ^ k <=? n then r' else r)
  end.
Definition root_bits (k p : Z) : Z := Sha1.w32 (root k (p * 2 ^ (32 * k)) 40 0).
Definition K : list Z := Eval vm_compute in map (root_bits 3) primes.

Definition sigma0 (x : Z) : Z := Z.lxor (Z.lxor (rotr 7 x) (rotr 18 x)) (Z.shiftr x 3).
Definition sigma1 (x : Z) : Z := Z.lxor (Z.lxor (rotr 17 x) (rotr 19 x)) (Z.shiftr x 10).
Definition Sigma0 (x : Z) : Z := Z.lxor (Z.lxor (rotr 2 x) (rotr 13 x)) (rotr 22 x).
Definition Sigma1 (x : Z) : Z := Z.lxor (Z.lxor (rotr 6 x) (rotr 11 x)) (rotr 25 x).

(** the schedule, most recent word first *)
Fixpoint schedule (n : nat) (ws : list Z) : list Z :=
  match n with
  | O => ws
  | S n =>
      let w i := nth i ws 0 in
      schedule n (Sha1.w32 (sigma1 (w 1%nat) + w 6%nat + sigma0 (w 14%nat) + w 15%nat) :: ws)
  end.

Record digest := mkDigest { d_a : Z; d_b : Z; d_c : Z; d_d : Z; d_e : Z; d_f : Z; d_g : Z; d_h : Z }.
Definition round (st : digest) (kw : Z * Z) : digest :=
  let '(k, w) := kw in
  let ch := Z.lxor (Z.land (d_e st) (d_f st)) (Z.land (Z.lxor (d_e st) Sha1.mask32) (d_g st)) in
  let maj := Z.lxor (Z.lxor (Z.land (d_a st) (d_b st)) (Z.land (d_a st) (d_c st))) (Z.land (d_b st) (d_c st)) in
  let t1 := d_h st + Sigma1 (d_e st) + ch + k + w in
  let t2 := Sigma0 (d_a st) + maj in
  mkDigest (Sha1.w32 (t1 + t2)) (d_a st) (d_b st) (d_c st) (Sha1.w32 (d_d st + t1)) (d_e st) (d_f st) (d_g st).
Definition block (h : digest) (b : list Z) : digest :=
  let words := map Sha1.be_word (Sha1.chunks 16 4 b) in
  let r := foldl round h (zip K (rev (schedule 48 (rev words)))) in
  mkDigest (Sha1.w32 (d_a h + d_a r)) (Sha1.w32 (d_b h + d_b r)) (Sha1.w32 (d_c h + d_c r)) (Sha1.w32 (d_d h + d_d r))
    (Sha1.w32 (d_e h + d_e r)) (Sha1.w32 (d_f h + d_f r)) (Sha1.w32 (d_g h + d_g r)) (Sha1.w32 (d_h h + d_h r)).
Definition init : digest := Eval vm_compute in
  let r i := root_bits 2 (nth i primes 0) in
  mkDigest (r 0%nat) (r 1%nat) (r 2%nat) (r 3%nat) (r 4%nat) (r 5%nat) (r 6%nat) (r 7%nat).
Definition sum (msg : list Z) : list Z :=
  let p := Sha1.pad msg in
  let r := foldl block init (Sha1.chunks (length p) 64 p) in
  concat (map (Sha1.be_bytes 4) [d_a r; d_b r; d_c r; d_d r; d_e r; d_f r; d_g r; d_h r]).

(** ** encoding/hex *)
Definition hex_char (n : Z) : ascii :=
  ascii_of_N (Z.to_N (if n <? 10 then n + 48 else n + 87)).
Fixpoint hex (bs : list Z) : string :=
  match bs with
  | [] => ""
  | b :: bs => String (hex_char (b / 16)) (String (hex_char (b mod 16)) (hex bs))
  end.
Fixpoint bytes_of (s : string) : list Z :=
  match s with EmptyString => [] | String c s => Z.of_N (N_of_ascii c) :: bytes_of s end.

(** hex.EncodeToString(sha256.Sum256([]byte(s))) *)
Definition sha256hex (s : string) : string := hex (sum (bytes_of s)).

Example sha256_vectors :
  sha256hex "" = "e3b0c44298fc1c149afbf4c8996fb92427ae41e4649b934ca495991b7852b855" ∧
  sha256hex "abc" = "ba7816bf8f01cfea414140de5dae2223b00361a396177a9cb410ff61f20015ad" ∧
  sha256hex "abcdbcdecdefdefgefghfghighijhijkijkljklmklmnlmnomnopnopq" =
    "248d6a61d20638b8e5c026930c3e6039a33ce45964ff2167f6ecedd419db06c1".
Proof. vm_compute. done. Qed.
