(* ===== verification/FileUpload.v ===== *)
(** * FileUpload: chunked uploads to the host (common/agent/host_file_upload.go)

    Every chunk is a call of [RunFileUpload] in a goroutine of its own.  A
    call first finds or creates its session under uploadSessionsMu, then works
    under the session's mutex; the mutex is the session's own, so the calls of
    other uploads run between the os.Stat of a destination and the os.Rename
    onto it.  [ustep] has a label for each of the three: [ULBegin], [ULChunk]
    and [ULRename], and a call that is about to rename keeps the mutex
    ([us_renaming]).  Files are inodes and directory entries: a handle keeps
    its inode when the path is renamed or removed, and O_TRUNC empties the
    inode the path has. *)
From S2P Require Import Prelude GoStrings GoPath Sha256.
From Stdlib Require Import Ascii.

Definition maxUploadChunkBytes : Z := 1024 * 1024.
Definition maxUploadTotalBytes : Z := 10 * 1024 * 1024.

Record uploadReq := mkUpload {
  uq_id : string; uq_path : string; uq_offset : Z; uq_data : string; uq_final : bool;
  uq_total : Z; uq_sha : string; uq_overwrite : bool
}.
Record uploadResult := mkUploadResult {
  ur_id : string; ur_path : string; ur_ok : bool; ur_written : Z; ur_error : string }.

(** ** Names *)
Definition nul : ascii := "000".
Fixpoint before_last_dot (name : string) : option string :=
  match name with
  | EmptyString => None
  | String c rest =>
      match before_last_dot rest with
      | Some stem => Some (String c stem)
      | None => if Ascii.eqb c "." then Some "" else None
      end
  end.
Definition reserved : list string :=
  ["CON"; "PRN"; "AUX"; "NUL";
   "COM1"; "COM2"; "COM3"; "COM4"; "COM5"; "COM6"; "COM7"; "COM8"; "COM9";
   "LPT1"; "LPT2"; "LPT3"; "LPT4"; "LPT5"; "LPT6"; "LPT7"; "LPT8"; "LPT9"].
Definition isWindowsReservedName (name : string) : bool :=
  negb (String.eqb name "") && existsb (String.eqb (ToUpper (default name (before_last_dot name)))) reserved.
Fixpoint check_parts (parts : list string) : option string :=
  match parts with
  | [] => None
  | part :: parts =>
      if String.eqb part ".." then Some "path traversal is not allowed"
      else if isWindowsReservedName part then Some "reserved name is not allowed"
      else check_parts parts
  end.
(** off Windows *)
Definition validateUploadPath (p : string) : option string :=
  if String.eqb p "" then Some "path is required"
  else if negb (all_chars (λ c, negb (Ascii.eqb c nul)) p) then Some "invalid path"
  else
    let cleaned := Clean p in
    if negb (IsAbs cleaned) then Some "absolute path required"
    else if HasPrefix cleaned "//" then Some "invalid path"
    else check_parts (split_slash cleaned).
Definition upload_rune (r : rune) : string :=
  match r with
  | RAscii c => if is_lower c || is_upper c || is_digit c || Ascii.eqb c "-" then String c "" else "-"
  | _ => "-"
  end.
Definition sanitizeUploadID (id : string) : string :=
  let b := foldr (λ r acc, upload_rune r +:+ acc) "" (runes id) in
  if String.eqb b "" then "upload" else b.

Definition upload_key (req : uploadReq) : string := TrimSpace (uq_id req).
Definition dest_of (req : uploadReq) : string := TrimSpace (uq_path req).
Definition tmp_of (req : uploadReq) : string :=
  dest_of req +:+ ".upload-" +:+ sanitizeUploadID (upload_key req) +:+ ".tmp".

(** ** Files *)
Record fs := mkFs { f_paths : gmap string nat; f_inodes : list string }.
#[export] Instance eta_fs : Settable fs := λ f, mkFs (f_paths f) (f_inodes f).
Definition content_at (f : fs) (p : string) : option string := i ← f_paths f !! p; f_inodes f !! i.
(** OpenFile(p, O_CREATE|O_WRONLY|O_TRUNC) *)
Definition create_trunc (p : string) (f : fs) : nat * fs :=
  match f_paths f !! p with
  | Some i => (i, f <| f_inodes := <[i := ""]> (f_inodes f) |>)
  | None =>
      let i := length (f_inodes f) in
      (i, mkFs (<[p := i]> (f_paths f)) (f_inodes f ++ [""]))
  end.
Fixpoint zeros (n : nat) : string := match n with O => "" | S n => String nul (zeros n) end.
Definition write_at (off : nat) (data content : string) : string :=
  take_bytes off content +:+ zeros (off - String.length content) +:+ data +:+
  drop_bytes (off + String.length data) content.
Definition write (i off : nat) (data : string) (f : fs) : fs :=
  f <| f_inodes := alter (write_at off data) i (f_inodes f) |>.
Definition unlink (p : string) (f : fs) : fs := f <| f_paths := delete p (f_paths f) |>.
Definition rename (p q : string) (f : fs) : option fs :=
  i ← f_paths f !! p; Some (f <| f_paths := <[q := i]> (delete p (f_paths f)) |>).

(** ** Sessions *)
(** What the operating system answers to one call; [None] and [true] are
    success. *)
Record uhost := mkUHost {
  uh_open : option string;
  uh_cancelled : bool;                 (** ctx.Done() *)
  uh_write : option (nat * string);    (** bytes written before the error *)
  uh_read : option string;             (** reading the file back *)
  uh_close : option string;
  uh_stat : option string;             (** an error other than ErrNotExist *)
  uh_rename : option string;
  uh_remove : bool
}.
Record uploadSession := mkUSess {
  us_id : string; us_tmp : string;
  us_file : option nat;                (** the inode of the open handle *)
  us_written : Z;                      (** also the handle's offset *)
  us_renaming : option uploadReq       (** the call that holds the mutex, about to rename *)
}.
#[export] Instance eta_uploadSession : Settable uploadSession := λ u,
  mkUSess (us_id u) (us_tmp u) (us_file u) (us_written u) (us_renaming u).
Record usys := mkUsys {
  u_table : gmap string nat;                       (** uploadSessions *)
  u_sess : list uploadSession;                     (** every session made *)
  u_fs : fs;
  u_calls : list (option (nat * uploadReq));       (** calls between the two locks *)
  u_acks : list (option nat * uploadReq * uploadResult)   (** results, with the session that served them *)
}.
#[export] Instance eta_usys : Settable usys := λ s,
  mkUsys (u_table s) (u_sess s) (u_fs s) (u_calls s) (u_acks s).
Definition uinit (f : fs) : usys := mkUsys ∅ [] f [] [].

Definition fail_result (req : uploadReq) (written : Z) (e : string) : uploadResult :=
  mkUploadResult (uq_id req) (uq_path req) false written e.
Definition ok_result (req : uploadReq) (written : Z) : uploadResult :=
  mkUploadResult (uq_id req) (uq_path req) true written "".
(** the checks before any lock *)
Definition upload_check (req : uploadReq) : option string :=
  if String.eqb (upload_key req) "" || String.eqb (dest_of req) "" then Some "upload_id and path are required"
  else match validateUploadPath (dest_of req) with
  | Some e => Some e
  | None =>
      if (maxUploadTotalBytes <? uq_total req)%Z then Some "upload exceeds 10485760 byte limit"
      else if (maxUploadChunkBytes <? blen (uq_data req))%Z then Some "chunk exceeds 1048576 byte limit"
      else None
  end.
Definition ack (k : option nat) (req : uploadReq) (res : uploadResult) (s : usys) : usys :=
  s <| u_acks := u_acks s ++ [(k, req, res)] |>.
Definition call (k : nat) (req : uploadReq) (s : usys) : usys :=
  s <| u_calls := u_calls s ++ [Some (k, req)] |>.
Definition upload_begin (h : uhost) (req : uploadReq) (s : usys) : usys :=
  match upload_check req with
  | Some e => ack None req (fail_result req 0 e) s
  | None =>
      match u_table s !! upload_key req with
      | Some k => call k req s
      | None =>
          match uh_open h with
          | Some e => ack None req (fail_result req 0 ("create temp file: " +:+ e)) s
          | None =>
              let '(i, f) := create_trunc (tmp_of req) (u_fs s) in
              let k := length (u_sess s) in
              call k req
                (s <| u_fs := f |>
                   <| u_sess := u_sess s ++ [mkUSess (upload_key req) (tmp_of req) (Some i) 0 None] |>
                   <| u_table := <[upload_key req := k]> (u_table s) |>)
          end
      end
  end.

Definition upd_sess (f : uploadSession → uploadSession) (k : nat) (s : usys) : usys :=
  s <| u_sess := alter f k (u_sess s) |>.
Definition dropUploadSession (k : nat) (id : string) (s : usys) : usys :=
  if bool_decide (u_table s !! id = Some k) then s <| u_table := delete id (u_table s) |> else s.
(** os.Remove(tmpPath), whose error is ignored *)
Definition remove_tmp (h : uhost) (tmp : string) (s : usys) : usys :=
  if uh_remove h then s <| u_fs := unlink tmp (u_fs s) |> else s.
Definition close_file (k : nat) (s : usys) : usys := upd_sess (λ u, u <| us_file := None |>) k s.
Definition abortUpload (h : uhost) (k : nat) (u : uploadSession) (s : usys) : usys :=
  dropUploadSession k (us_id u) (remove_tmp h (us_tmp u) (close_file k s)).
(** the hash of what the path names, [None] when it matches *)
Definition verifyUploadChecksum (h : uhost) (tmp expectedHex : string) (f : fs) : option string :=
  match content_at f tmp, uh_read h with
  | None, _ => Some "open for checksum"
  | Some _, Some e => Some ("checksum read: " +:+ e)
  | Some content, None =>
      if EqualFold (sha256hex content) expectedHex then None
      else Some ("checksum mismatch: expected " +:+ expectedHex +:+ " got " +:+ sha256hex content)
  end.

(** *** the final chunk, after its data has been written, up to the look at
    the destination; [None]: the call goes on to [upload_rename] *)
Definition upload_commit (h : uhost) (k : nat) (req : uploadReq) (u : uploadSession) (s : usys) : usys * option uploadResult :=
  let fail e s := (s, Some (fail_result req (us_written u) e)) in
  let abort e := fail e (abortUpload h k u s) in
  if negb (us_written u =? uq_total req)%Z then abort "size mismatch"
  else
    match (if negb (String.eqb (uq_sha req) "") then verifyUploadChecksum h (us_tmp u) (uq_sha req) (u_fs s) else None) with
    | Some e => abort e
    | None =>
        match uh_close h with
        | Some e => abort ("close temp: " +:+ e)
        | None =>
            let s := close_file k s in
            let refuse e := fail e (dropUploadSession k (us_id u) (remove_tmp h (us_tmp u) s)) in
            let go := (upd_sess (λ u, u <| us_renaming := Some req |>) k s, None) in
            if negb (uq_overwrite req) then
              match uh_stat h with
              | Some e => refuse ("stat destination: " +:+ e)
              | None => if bool_decide (is_Some (f_paths (u_fs s) !! dest_of req))
                        then refuse "destination exists and overwrite is false" else go
              end
            else go
        end
    end.
(** *** os.Rename onto the destination and the end of the call *)
Definition upload_rename (h : uhost) (k : nat) (req : uploadReq) (u : uploadSession) (s : usys) : usys * uploadResult :=
  let s := upd_sess (λ u, u <| us_renaming := None |>) k s in
  match uh_rename h, rename (us_tmp u) (dest_of req) (u_fs s) with
  | None, Some f => (dropUploadSession k (us_id u) (s <| u_fs := f |>), ok_result req (us_written u))
  | _, _ => (dropUploadSession k (us_id u) (remove_tmp h (us_tmp u) s), fail_result req (us_written u) "rename")
  end.
(** *** one chunk, under the session's mutex *)
Definition upload_chunk (h : uhost) (k : nat) (req : uploadReq) (u : uploadSession) (s : usys) : usys * option uploadResult :=
  let failed e s := (abortUpload h k u s, Some (fail_result req 0 e)) in
  match us_file u with
  | None => (s, Some (fail_result req 0 "upload session closed; restart with a new upload_id"))
  | Some i =>
      if negb (uq_offset req =? us_written u)%Z then failed "offset mismatch" s
      else if uh_cancelled h then failed "canceled" s
      else
        let off := Z.to_nat (us_written u) in
        match (if String.eqb (uq_data req) "" then None else uh_write h) with
        | Some (n, e) => failed ("write: " +:+ e) (s <| u_fs := write i off (take_bytes n (uq_data req)) (u_fs s) |>)
        | None =>
            let written := (us_written u + blen (uq_data req))%Z in
            let u1 := u <| us_written := written |> in
            let s1 := upd_sess (λ _, u1) k (s <| u_fs := write i off (uq_data req) (u_fs s) |>) in
            if negb (uq_final req) then (s1, Some (ok_result req written)) else upload_commit h k req u1 s1
        end
  end.

(** [ULRename k]: the call that holds the mutex of session [k] *)
Inductive ulabel := ULBegin (h : uhost) (req : uploadReq) | ULChunk (c : nat) (h : uhost) | ULRename (k : nat) (h : uhost).
Definition free (u : uploadSession) : bool := match us_renaming u with None => true | Some _ => false end.
Definition ustep (s : usys) (l : ulabel) : option usys :=
  match l with
  | ULBegin h req => Some (upload_begin h req s)
  | ULChunk c h =>
      p ← u_calls s !! c;
      '(k, req) ← p;
      u ← u_sess s !! k;
      if negb (free u) then None
      else
        let '(s1, res) := upload_chunk h k req u (s <| u_calls := <[c := None]> (u_calls s) |>) in
        Some (match res with Some res => ack (Some k) req res s1 | None => s1 end)
  | ULRename k h =>
      u ← u_sess s !! k;
      req ← us_renaming u;
      let '(s1, res) := upload_rename h k req u s in
      Some (ack (Some k) req res s1)
  end.
Definition urun := trace_run (fun_step ustep).
