(* ===== verification/FileUploadProofs.v ===== *)
(** * FileUploadProofs: what an upload delivers

    Invariant of the upload sessions under every interleaving of calls, the
    contents of a delivered file, and the ways a well-behaved or a
    misbehaving caller gets something else than the code intends. *)
From S2P Require Import Prelude GoStrings GoPath Sha256 FileUpload.
Open Scope nat_scope.
From Stdlib Require Import Ascii.

(** ** Vocabulary *)
(** The data of the chunks that session [k] acknowledged, in order. *)
Definition took (k : nat) (a : option nat * uploadReq * uploadResult) : string :=
  let '(k', req, res) := a in
  if bool_decide (k' = Some k) && ur_ok res then uq_data req else "".
Definition accepted (k : nat) (s : usys) : string := foldr (λ a acc, took k a +:+ acc) "" (u_acks s).
Definition requests (ls : list ulabel) : list uploadReq :=
  ls ≫= λ l, match l with ULBegin _ req => [req] | _ => [] end.
(** Uploads that do not step on each other's temporary files, with
    destinations in clean form, so that two spellings are two files. *)
Definition separate (R : uploadReq → Prop) : Prop :=
  ∀ r1 r2, R r1 → R r2 →
    (tmp_of r1 = tmp_of r2 → upload_key r1 = upload_key r2) ∧ dest_of r1 ≠ tmp_of r2 ∧ Clean (dest_of r1) = dest_of r1.
(** another upload to the destination of [req] *)
Definition rival (R : uploadReq → Prop) (req : uploadReq) : Prop :=
  ∃ r, R r ∧ dest_of r = dest_of req ∧ upload_key r ≠ upload_key req.
(** No hard links: a file has one name. *)
Definition one_name (f : fs) : Prop :=
  (∀ p q i, f_paths f !! p = Some i → f_paths f !! q = Some i → p = q) ∧
  (∀ p i, f_paths f !! p = Some i → i < length (f_inodes f)).

Lemma accepted_snoc k s a : accepted k (s <| u_acks := u_acks s ++ [a] |>) = accepted k s +:+ took k a.
Proof.
  unfold accepted. cbn [u_acks set_field]. induction (u_acks s) as [|b l IH]; cbn.
  - by rw string_app_nil_r.
  - by rw IH string_app_assoc.
Qed.
Lemma zeros_0 n c : zeros (n - String.length c) = "" ∨ String.length c < n.
Proof. destruct (decide (String.length c < n)); [by right|left]. by replace (n - String.length c) with 0 by lia. Qed.
Lemma take_bytes_all s : take_bytes (String.length s) s = s.
Proof. induction s as [|c s IH]; [done|]. cbn. by rw IH. Qed.
Lemma drop_bytes_all n s : String.length s ≤ n → drop_bytes n s = "".
Proof. revert s. induction n as [|n IH]; intros [|c s] H; cbn in *; try done; [lia|]. apply IH. lia. Qed.
Lemma write_at_end data c : write_at (String.length c) data c = c +:+ data.
Proof.
  unfold write_at. rw take_bytes_all Nat.sub_diag drop_bytes_all; [cbn; by rw string_app_nil_r|lia].
Qed.

(** ** What a call does to its own session and to the others *)
(** [s'] differs from [s] by the end of session [k] (of [u], open on [i]). *)
Record ended (k : nat) (u : uploadSession) (i : nat) (s s' : usys) : Prop := {
  en_sess j : j ≠ k → u_sess s' !! j = u_sess s !! j;
  en_len : length (u_sess s') = length (u_sess s);
  en_own : ∃ u', u_sess s' !! k = Some u' ∧ us_file u' = None ∧ us_renaming u' = None ∧ us_id u' = us_id u ∧ us_tmp u' = us_tmp u;
  en_table id : id ≠ us_id u → u_table s' !! id = u_table s !! id;
  en_shrink id j : u_table s' !! id = Some j → u_table s !! id = Some j;
  en_inodes j : j ≠ i → f_inodes (u_fs s') !! j = f_inodes (u_fs s) !! j;
  en_count : length (f_inodes (u_fs s')) = length (f_inodes (u_fs s));
  en_calls : u_calls s' = u_calls s;
  en_acks : u_acks s' = u_acks s
}.
Lemma drop_fs k id s : u_fs (dropUploadSession k id s) = u_fs s.
Proof. unfold dropUploadSession. by case_match. Qed.
Lemma ended_drop k u i s s' : ended k u i s s' → ended k u i s (dropUploadSession k (us_id u) s').
Proof.
  intros E. unfold dropUploadSession. case_match; [|done]. destruct E. split; try done.
  - intros id Hid. cbn. rw lookup_delete_ne; auto.
  - intros id j. cbn. rw lookup_delete_Some. intros [_ Hj]. auto.
Qed.
Lemma ended_paths k u i s s' f :
  ended k u i s s' → f_inodes f = f_inodes (u_fs s') → ended k u i s (s' <| u_fs := f |>).
Proof. intros [] Hf. by split; try done; cbn; rw Hf. Qed.
Lemma ended_remove h k u i s s' : ended k u i s s' → ended k u i s (remove_tmp h (us_tmp u) s').
Proof. intros E. unfold remove_tmp. case_match; [|done]. by apply ended_paths. Qed.
Lemma ended_close k u i s : u_sess s !! k = Some u → us_renaming u = None → ended k u i s (close_file k s).
Proof.
  intros Hk Hr. split; try done; cbn.
  - intros j Hj. by rw list_lookup_alter_ne.
  - apply length_alter.
  - rw list_lookup_alter_eq Hk. by eexists.
Qed.
Lemma ended_unlock k u i s :
  u_sess s !! k = Some u → us_file u = None → ended k u i s (upd_sess (λ u, u <| us_renaming := None |>) k s).
Proof.
  intros Hk Hf. split; try done; cbn.
  - intros j Hj. by rw list_lookup_alter_ne.
  - apply length_alter.
  - rw list_lookup_alter_eq Hk. by eexists.
Qed.
Lemma ended_abort h k u i s : u_sess s !! k = Some u → us_renaming u = None → ended k u i s (abortUpload h k u s).
Proof. intros Hk Hr. by apply ended_drop, ended_remove, ended_close. Qed.
Lemma abort_paths h k u s :
  f_paths (u_fs (abortUpload h k u s)) = f_paths (u_fs s) ∨
  f_paths (u_fs (abortUpload h k u s)) = delete (us_tmp u) (f_paths (u_fs s)).
Proof. unfold abortUpload. rw drop_fs. unfold remove_tmp. case_match; [right|left]; done. Qed.
Lemma abort_inodes h k u s : f_inodes (u_fs (abortUpload h k u s)) = f_inodes (u_fs s).
Proof. unfold abortUpload. rw drop_fs. unfold remove_tmp. by case_match. Qed.

(** [p'] is [p] with the temporary file possibly removed. *)
Definition tidied (tmp : string) (p p' : gmap string nat) : Prop := p' = p ∨ p' = delete tmp p.
Lemma refuse_tidied h k id tmp s s' :
  u_fs s' = u_fs s → tidied tmp (f_paths (u_fs s)) (f_paths (u_fs (dropUploadSession k id (remove_tmp h tmp s')))).
Proof. intros Hs. rw drop_fs. unfold remove_tmp, tidied. case_match; [right|left]; cbn; by rw Hs. Qed.
Lemma refuse_inodes h k id tmp s : f_inodes (u_fs (dropUploadSession k id (remove_tmp h tmp s))) = f_inodes (u_fs s).
Proof. rw drop_fs. unfold remove_tmp. by case_match. Qed.
Lemma verified h tmp sha f :
  (if negb (String.eqb sha "") then verifyUploadChecksum h tmp sha f else None) = None → sha ≠ "" →
  ∃ c, content_at f tmp = Some c ∧ EqualFold (sha256hex c) sha = true.
Proof.
  intros H Hne. apply String.eqb_neq in Hne. rw Hne /= in H. unfold verifyUploadChecksum in H.
  destruct (content_at _ _) as [c|]; [|done]. destruct (uh_read h); [done|]. exists c. by case_match.
Qed.
(** the look at the destination was passed: the call keeps the mutex *)
Record passed (req : uploadReq) (u : uploadSession) (k : nat) (s s' : usys) : Prop := {
  pa_state : s' = upd_sess (λ u, u <| us_renaming := Some req |>) k (close_file k s);
  pa_size : us_written u = uq_total req;
  pa_sha : uq_sha req ≠ "" →
    ∃ c, content_at (u_fs s) (us_tmp u) = Some c ∧ EqualFold (sha256hex c) (uq_sha req) = true;
  pa_fresh : uq_overwrite req = false → f_paths (u_fs s) !! dest_of req = None
}.
Lemma upload_commit_spec h k req u i s s' o :
  u_sess s !! k = Some u → us_renaming u = None → upload_commit h k req u s = (s', o) →
  (∃ res, o = Some res ∧ ur_ok res = false ∧ ended k u i s s' ∧ tidied (us_tmp u) (f_paths (u_fs s)) (f_paths (u_fs s'))) ∨
  (o = None ∧ passed req u k s s').
Proof.
  intros Hk Hr Hc. unfold upload_commit in Hc.
  assert (∀ e, (abortUpload h k u s, Some (fail_result req (us_written u) e)) = (s', o) →
    ∃ res, o = Some res ∧ ur_ok res = false ∧ ended k u i s s' ∧ tidied (us_tmp u) (f_paths (u_fs s)) (f_paths (u_fs s'))) as Habort.
  { intros e [= <- <-]. eexists. split_and!; [done|done|by apply ended_abort|apply abort_paths]. }
  destruct (us_written u =? uq_total req)%Z eqn:Esz; cbn [negb] in Hc; [|left; exact (Habort _ Hc)]. go_bool.
  destruct (if negb (String.eqb (uq_sha req) "") then _ else None) eqn:Esha; [left; exact (Habort _ Hc)|].
  destruct (uh_close h); [left; exact (Habort _ Hc)|]. clear Habort.
  assert (∀ e, (dropUploadSession k (us_id u) (remove_tmp h (us_tmp u) (close_file k s)), Some (fail_result req (us_written u) e)) = (s', o) →
    ∃ res, o = Some res ∧ ur_ok res = false ∧ ended k u i s s' ∧ tidied (us_tmp u) (f_paths (u_fs s)) (f_paths (u_fs s'))) as Hrefuse.
  { intros e [= <- <-]. eexists. split_and!; [done|done|by apply ended_drop, ended_remove, ended_close|by apply refuse_tidied]. }
  pose proof (verified _ _ _ _ Esha) as Hsha.
  destruct (uq_overwrite req) eqn:Eov; cbn [negb] in Hc; [right; injection Hc as <- <-; split; [done|]; by split; try congruence|].
  destruct (uh_stat h); [left; exact (Hrefuse _ Hc)|]. case_bool_decide as Hex; [left; exact (Hrefuse _ Hc)|].
  right. injection Hc as <- <-. split; [done|]. split; [done|done|done|]. intros _. by apply eq_None_not_Some.
Qed.
Lemma upload_rename_spec h k req u i s s' res :
  u_sess s !! k = Some u → us_file u = None → upload_rename h k req u s = (s', res) →
  ended k u i s s' ∧ f_inodes (u_fs s') = f_inodes (u_fs s) ∧
  ((ur_ok res = false ∧ tidied (us_tmp u) (f_paths (u_fs s)) (f_paths (u_fs s'))) ∨
   (ur_ok res = true ∧ ∃ j, f_paths (u_fs s) !! us_tmp u = Some j ∧
      f_paths (u_fs s') = <[dest_of req := j]> (delete (us_tmp u) (f_paths (u_fs s))))).
Proof.
  intros Hk Hf Hc. unfold upload_rename in Hc. set (s0 := upd_sess _ k s) in Hc.
  assert (ended k u i s s0) as E0 by (by apply ended_unlock). change (u_fs s0) with (u_fs s) in Hc.
  assert ((dropUploadSession k (us_id u) (remove_tmp h (us_tmp u) s0), fail_result req (us_written u) "rename") = (s', res) →
    ended k u i s s' ∧ f_inodes (u_fs s') = f_inodes (u_fs s) ∧ ur_ok res = false ∧ tidied (us_tmp u) (f_paths (u_fs s)) (f_paths (u_fs s'))) as Hrefuse.
  { intros [= <- <-]. split_and!; [by apply ended_drop, ended_remove|by rw refuse_inodes|done|by apply (refuse_tidied h k _ _ s s0)]. }
  unfold rename in Hc. destruct (uh_rename h); [naive_solver|].
  destruct (f_paths (u_fs s) !! us_tmp u) as [j|] eqn:Ej; cbn in Hc; [|naive_solver]. injection Hc as <- <-. rw drop_fs.
  split; [by apply ended_drop, ended_paths|]. split; [done|]. right. split; [done|]. by exists j.
Qed.

Section separate_uploads.
Variable R : uploadReq → Prop.
Hypothesis Hsep : separate R.

(** A session at work has an open handle or is about to be renamed. *)
Definition at_work (u : uploadSession) : Prop := is_Some (us_file u) ∨ is_Some (us_renaming u).
(** the data of the call that holds the mutex, not yet acknowledged *)
Definition held (u : uploadSession) : string := match us_renaming u with Some r => uq_data r | None => "" end.
Record working (s : usys) (k : nat) (u : uploadSession) (i : nat) : Prop := {
  wk_file j : us_file u = Some j → j = i;
  wk_table : u_table s !! us_id u = Some k;
  wk_path : f_paths (u_fs s) !! us_tmp u = Some i;
  wk_data : f_inodes (u_fs s) !! i = Some (accepted k s +:+ held u);
  wk_written : us_written u = blen (accepted k s +:+ held u)
}.
Record renaming (s : usys) (k : nat) (u : uploadSession) (req : uploadReq) : Prop := {
  rn_file : us_file u = None;
  rn_req : R req ∧ upload_check req = None ∧ upload_key req = us_id u ∧ uq_final req = true;
  rn_size : us_written u = uq_total req;
  rn_sha : uq_sha req ≠ "" → EqualFold (sha256hex (accepted k s +:+ uq_data req)) (uq_sha req) = true;
  rn_fresh : uq_overwrite req = false → f_paths (u_fs s) !! dest_of req = None ∨ rival R req
}.
Record uinv (s : usys) : Prop := {
  ui_fs : one_name (u_fs s);
  ui_work k u : u_sess s !! k = Some u → at_work u → ∃ i, working s k u i;
  ui_rename k u req : u_sess s !! k = Some u → us_renaming u = Some req → renaming s k u req;
  ui_table id k : u_table s !! id = Some k → ∃ u, u_sess s !! k = Some u ∧ us_id u = id;
  ui_named k u : u_sess s !! k = Some u → ∃ r, R r ∧ us_tmp u = tmp_of r ∧ us_id u = upload_key r;
  ui_calls c k r : u_calls s !! c = Some (Some (k, r)) →
    R r ∧ upload_check r = None ∧ ∃ u, u_sess s !! k = Some u ∧ us_id u = upload_key r;
  ui_acks : Forall (λ a, match a.1.1 with Some k => k < length (u_sess s) | None => True end) (u_acks s)
}.

Lemma open_working s k u i : uinv s → u_sess s !! k = Some u → us_file u = Some i → working s k u i ∧ us_renaming u = None.
Proof.
  intros I Hk Hf. destruct (ui_work _ I _ _ Hk) as [j W]; [left; by rw Hf|]. assert (i = j) as -> by by apply W.
  split; [done|]. destruct (us_renaming u) eqn:E; [|done]. apply (ui_rename _ I _ _ _ Hk) in E as []. congruence.
Qed.
(** Another session at work has another temporary file and another inode. *)
Lemma working_apart s k1 k2 u1 u2 i1 i2 :
  uinv s → k1 ≠ k2 → u_sess s !! k1 = Some u1 → u_sess s !! k2 = Some u2 →
  working s k1 u1 i1 → working s k2 u2 i2 → us_tmp u1 ≠ us_tmp u2 ∧ i1 ≠ i2 ∧ us_id u1 ≠ us_id u2.
Proof.
  intros I Hne H1 H2 W1 W2.
  assert (us_id u1 ≠ us_id u2) as Hid by (intros E; apply Hne; pose proof (wk_table _ _ _ _ W1); pose proof (wk_table _ _ _ _ W2); congruence).
  assert (us_tmp u1 ≠ us_tmp u2) as Ht.
  { destruct (ui_named _ I _ _ H1) as (r1 & R1 & -> & D1). destruct (ui_named _ I _ _ H2) as (r2 & R2 & -> & D2).
    intros E. apply Hid. rw D1 D2. by apply (Hsep r1 r2). }
  split_and!; [done| |done]. intros ->. apply Ht. by eapply (proj1 (ui_fs _ I)); eapply wk_path.
Qed.

Lemma accepted_same k s s' : u_acks s' = u_acks s → accepted k s' = accepted k s.
Proof. unfold accepted. by intros ->. Qed.
Lemma accepted_other k j s req res : k ≠ j → accepted j (ack (Some k) req res s) = accepted j s.
Proof. intros Hne. rw accepted_snoc. cbn. rw bool_decide_eq_false_2 /= ?string_app_nil_r; [done|congruence]. Qed.
Lemma accepted_refused k s req res : ur_ok res = false → accepted k (ack (Some k) req res s) = accepted k s.
Proof. intros Hr. rw accepted_snoc. cbn. by rw Hr andb_false_r string_app_nil_r. Qed.
Lemma accepted_ok k s req res : ur_ok res = true → accepted k (ack (Some k) req res s) = accepted k s +:+ uq_data req.
Proof. intros Hr. rw accepted_snoc. cbn. by rw Hr bool_decide_eq_true_2. Qed.

Lemma one_name_tidied tmp f f' :
  one_name f → tidied tmp (f_paths f) (f_paths f') → length (f_inodes f') = length (f_inodes f) → one_name f'.
Proof.
  intros [Hi Hb] [Ht|Ht] Hl; (split; [intros p q i|intros p i]); rw Ht ?Hl; [apply Hi|apply Hb| |];
    rw !lookup_delete_Some; naive_solver.
Qed.
Lemma one_name_rename tmp dest i f f' :
  one_name f → f_paths f !! tmp = Some i → f_paths f' = <[dest := i]> (delete tmp (f_paths f)) →
  length (f_inodes f') = length (f_inodes f) → one_name f'.
Proof.
  intros [Hi Hb] Ht Hp Hl.
  assert (∀ p j, f_paths f' !! p = Some j → (p = dest ∧ j = i) ∨ (p ≠ dest ∧ p ≠ tmp ∧ f_paths f !! p = Some j)) as Hlook.
  { intros p j. rw Hp. destruct (decide (p = dest)) as [-> | Hne].
    - rw lookup_insert_eq. naive_solver.
    - rw lookup_insert_ne // lookup_delete_Some. naive_solver. }
  split.
  - intros p q j [[-> ->]|(H1 & H2 & H3)]%Hlook [[-> ?]|(H4 & H5 & H6)]%Hlook; subst; eauto; exfalso; eauto.
  - intros p j [[-> ->]|(_ & _ & H)]%Hlook; rw Hl; eauto.
Qed.

Lemma uinv_ended k u i s s' req res :
  uinv s → u_sess s !! k = Some u → working s k u i → ended k u i s s' → one_name (u_fs s') →
  (∀ r, R r → tmp_of r ≠ us_tmp u → f_paths (u_fs s') !! tmp_of r = f_paths (u_fs s) !! tmp_of r) →
  (∀ r, R r → upload_key r ≠ us_id u → f_paths (u_fs s) !! dest_of r = None → f_paths (u_fs s') !! dest_of r = None ∨ rival R r) →
  uinv (ack (Some k) req res s').
Proof.
  intros I Hk W E Ho Hp Hd.
  assert (∀ j u', j ≠ k → u_sess s' !! j = Some u' → u_sess s !! j = Some u') as Hs.
  { intros j u' Hj. by rw (en_sess _ _ _ _ _ E j Hj). }
  assert (∀ j, j ≠ k → accepted j (ack (Some k) req res s') = accepted j s) as Ha.
  { intros j Hj. by rw accepted_other // (accepted_same _ s s' (en_acks _ _ _ _ _ E)). }
  destruct (en_own _ _ _ _ _ E) as (v & Hv & Fv & Rv & Iv & Tv).
  assert (∀ j w, u_sess s !! j = Some w → ∃ w', u_sess s' !! j = Some w' ∧ us_id w' = us_id w) as Hids.
  { intros j w Hw. destruct (decide (j = k)) as [-> | Hne]; [exists v; split; [done|congruence]|].
    exists w. by rw (en_sess _ _ _ _ _ E j Hne). }
  split; cbn [u_sess u_table u_fs u_calls u_acks ack set_field].
  - done.
  - intros j w Hj Hw. destruct (decide (j = k)) as [-> | Hne]; [exfalso; destruct Hw as [[]|[]]; congruence|]. apply Hs in Hj; [|done].
    destruct (ui_work _ I _ _ Hj Hw) as [i2 W2]. exists i2.
    destruct (working_apart s j k w u i2 i I Hne Hj Hk W2 W) as (N1 & N2 & N3).
    destruct W2 as [F2 T2 P2 C2 L2]. split; rw ?Ha //.
    + cbn. by rw (en_table _ _ _ _ _ E).
    + destruct (ui_named _ I _ _ Hj) as (r & Hr & Er & _). cbn. rw Er Hp // -?Er //.
    + cbn. by rw (en_inodes _ _ _ _ _ E).
  - intros j w r Hj Hw. destruct (decide (j = k)) as [-> | Hne]; [congruence|]. apply Hs in Hj; [|done].
    destruct (ui_work _ I _ _ Hj) as [i2 W2]; [right; by rw Hw|].
    destruct (working_apart s j k w u i2 i I Hne Hj Hk W2 W) as (N1 & N2 & N3).
    destruct (ui_rename _ I _ _ _ Hj Hw) as [G1 (G2 & G3 & G4 & G5) G6 G7 G8]. split; rw ?Ha //. cbn.
    intros Hov. destruct (G8 Hov) as [Hnone|Hrival]; [|by right]. apply Hd; [done|congruence|done].
  - intros id j Hj. apply (en_shrink _ _ _ _ _ E) in Hj. apply (ui_table _ I) in Hj as (w & Hw & <-). by apply Hids.
  - intros j w Hj. destruct (decide (j = k)) as [-> | Hne].
    + assert (w = v) as -> by congruence. rw Tv Iv. by eapply (ui_named _ I).
    + by eapply (ui_named _ I), Hs.
  - intros c j r. rw (en_calls _ _ _ _ _ E). intros Hc. destruct (ui_calls _ I _ _ _ Hc) as (? & ? & w & Hw & <-).
    split_and!; [done|done|]. by apply Hids.
  - rw (en_acks _ _ _ _ _ E) (en_len _ _ _ _ _ E). apply Forall_app. split; [apply (ui_acks _ I)|].
    constructor; [|done]. cbn. by eapply lookup_lt_Some.
Qed.
Lemma uinv_fail_ack k s req res :
  uinv s → ur_ok res = false → match k with Some k => k < length (u_sess s) | None => True end → uinv (ack k req res s).
Proof.
  intros I Hr Hk. destruct I as [I1 I2 Ir It I3 I4 I5].
  assert (∀ j, accepted j (ack k req res s) = accepted j s) as Ha.
  { intros j. destruct k as [k|].
    - destruct (decide (k = j)) as [-> | ?]; [by apply accepted_refused|by apply accepted_other].
    - rw accepted_snoc. by rw string_app_nil_r. }
  split; try done.
  - intros j u Hj Hf. destruct (I2 _ _ Hj Hf) as [i []]. exists i. by split; rw ?Ha.
  - intros j u r Hj Hf. destruct (Ir _ _ _ Hj Hf) as []. by split; rw ?Ha.
  - apply Forall_app. split; [done|]. by constructor.
Qed.
Lemma tidied_tmp tmp p p' q : tidied tmp p p' → q ≠ tmp → p' !! q = p !! q.
Proof. intros [-> | ->] Hq; [done|]. by rw lookup_delete_ne. Qed.

(** the state after the data of a chunk has been written *)
Definition wrote (k : nat) (u1 : uploadSession) (i off : nat) (data : string) (s : usys) : usys :=
  upd_sess (λ _, u1) k (s <| u_fs := write i off data (u_fs s) |>).
Lemma ended_wrote k u u1 i off data s s' :
  u_sess s !! k = Some u → us_id u1 = us_id u → us_tmp u1 = us_tmp u →
  ended k u1 i (wrote k u1 i off data s) s' → ended k u i s s'.
Proof.
  intros Hk Hid Ht [E1 E2 E3 E4 Es E5 E6 E7 E8]. cbn in *. rw length_alter in E2. rw length_alter in E6. split; try done.
  - intros j Hj. by rw E1 // list_lookup_alter_ne.
  - rw Hid Ht in E3. done.
  - by rw -Hid.
  - intros j Hj. by rw E5 // list_lookup_alter_ne.
Qed.
Lemma ended_write k u i off data s s' :
  ended k u i (s <| u_fs := write i off data (u_fs s) |>) s' → ended k u i s s'.
Proof.
  intros [E1 E2 E3 E4 Es E5 E6 E7 E8]. cbn in *. rw length_alter in E6. split; try done.
  intros j Hj. by rw E5 // list_lookup_alter_ne.
Qed.
Lemma one_name_inodes f f' :
  one_name f → f_paths f' = f_paths f → length (f_inodes f') = length (f_inodes f) → one_name f'.
Proof. intros H Hp Hl. apply (one_name_tidied "" f); [done|by left|done]. Qed.
Lemma content_inode i f f' p :
  (∀ q, f_paths f !! q = Some i → q ≠ p) → f_paths f' !! p = f_paths f !! p →
  (∀ j, j ≠ i → f_inodes f' !! j = f_inodes f !! j) → content_at f' p = content_at f p.
Proof.
  intros Hi Hp Hj. unfold content_at. rw Hp. destruct (f_paths f !! p) as [j|] eqn:E; [|done]. cbn.
  apply Hj. intros ->. by eapply Hi.
Qed.

Record outcome (k : nat) (req : uploadReq) (s s' : usys) (res : uploadResult) : Prop := {
  oc_inv : uinv (ack (Some k) req res s');
  oc_frame p : (∀ r, R r → p ≠ tmp_of r) → content_at (u_fs s') p ≠ content_at (u_fs s) p →
    ur_ok res = true ∧ uq_final req = true ∧ p = dest_of req;
  oc_final : ur_ok res = true → uq_final req = true →
    let content := accepted k s +:+ uq_data req in
    content_at (u_fs s') (dest_of req) = Some content ∧ blen content = uq_total req ∧
    (uq_sha req ≠ "" → EqualFold (sha256hex content) (uq_sha req) = true) ∧
    (uq_overwrite req = false → content_at (u_fs s) (dest_of req) = None ∨ rival R req);
  oc_acks : u_acks s' = u_acks s
}.
Lemma not_own_inode s k u i p :
  uinv s → u_sess s !! k = Some u → working s k u i → (∀ r, R r → p ≠ tmp_of r) →
  p ≠ us_tmp u ∧ ∀ q, f_paths (u_fs s) !! q = Some i → q ≠ p.
Proof.
  intros I Hk W Hp. destruct (ui_named _ I _ _ Hk) as (r & Hr & Er & _).
  assert (p ≠ us_tmp u) as Hne by (rw Er; by apply Hp). split; [done|].
  intros q Hq ->. apply Hne. eapply (proj1 (ui_fs _ I)); [exact Hq|apply W].
Qed.
Lemma outcome_failed k u i req s s' res :
  uinv s → u_sess s !! k = Some u → working s k u i → ended k u i s s' →
  tidied (us_tmp u) (f_paths (u_fs s)) (f_paths (u_fs s')) → ur_ok res = false → outcome k req s s' res.
Proof.
  intros I Hk W E Ht Hr. split; [| |by rw Hr|apply (en_acks _ _ _ _ _ E)].
  - eapply uinv_ended; try done.
    + eapply one_name_tidied; [apply (ui_fs _ I)|done|apply (en_count _ _ _ _ _ E)].
    + intros r HR Hne. by eapply tidied_tmp.
    + intros r HR _ Hn. left. destruct Ht as [-> | ->]; [done|]. rw lookup_delete_None. by right.
  - intros p Hp Hc. exfalso. apply Hc. destruct (not_own_inode s k u i p I Hk W Hp) as [Hne Hq].
    apply (content_inode i); [done|by eapply tidied_tmp|apply (en_inodes _ _ _ _ _ E)].
Qed.
(** [s'] differs from [s] by the data of a chunk and by session [k], now [u']. *)
Record advanced (k : nat) (u u' : uploadSession) (i : nat) (data : string) (s s' : usys) : Prop := {
  ad_sess : u_sess s' = <[k := u']> (u_sess s);
  ad_fs : u_fs s' = write i (Z.to_nat (us_written u)) data (u_fs s);
  ad_table : u_table s' = u_table s;
  ad_calls : u_calls s' = u_calls s;
  ad_same : us_id u' = us_id u ∧ us_tmp u' = us_tmp u;
  ad_file : us_file u' = Some i ∨ us_file u' = None;
  ad_written : us_written u' = (us_written u + blen data)%Z;
  ad_data : accepted k s' +:+ held u' = accepted k s +:+ data;
  ad_other j : j ≠ k → accepted j s' = accepted j s;
  ad_acks : Forall (λ a, match a.1.1 with Some k => k < length (u_sess s) | None => True end) (u_acks s');
  ad_rename req : us_renaming u' = Some req → renaming s' k u' req
}.
Lemma advanced_data k u u' i data s s' :
  uinv s → u_sess s !! k = Some u → us_file u = Some i → advanced k u u' i data s s' →
  f_inodes (u_fs s') !! i = Some (accepted k s +:+ data).
Proof.
  intros I Hk Hf A. destruct (open_working _ _ _ _ I Hk Hf) as [W Hr]. unfold held in W. destruct W as [_ _ _ C L]. unfold held in C, L. rw Hr in C, L.
  rw string_app_nil_r in C. rw string_app_nil_r in L.
  rw (ad_fs _ _ _ _ _ _ _ A). cbn. rw list_lookup_alter_eq C /= L. unfold blen. by rw Nat2Z.id write_at_end.
Qed.
Lemma uinv_advanced k u u' i data s s' :
  uinv s → u_sess s !! k = Some u → us_file u = Some i → advanced k u u' i data s s' → uinv s'.
Proof.
  intros I Hk Hf A. destruct (open_working _ _ _ _ I Hk Hf) as [W Hr].
  pose proof (advanced_data _ _ _ _ _ _ _ I Hk Hf A) as Hdata. destruct A as [A1 A2 A3 A4 [A5 A5'] A6 A7 A8 A9 A10 A11].
  assert (k < length (u_sess s)) as Hlt by by eapply lookup_lt_Some.
  assert (∀ j w, j ≠ k → u_sess s' !! j = Some w → u_sess s !! j = Some w) as Hs by (intros j w Hj; by rw A1 list_lookup_insert_ne).
  assert (u_sess s' !! k = Some u') as Hk' by (rw A1; by apply list_lookup_insert_eq).
  assert (∀ j w, u_sess s !! j = Some w → ∃ w', u_sess s' !! j = Some w' ∧ us_id w' = us_id w) as Hids.
  { intros j w Hw. destruct (decide (j = k)) as [-> | Hne]; [exists u'; split; [done|congruence]|]. exists w. by rw A1 list_lookup_insert_ne. }
  assert (f_paths (u_fs s') = f_paths (u_fs s)) as Hp by by rw A2.
  split.
  - eapply one_name_inodes; [apply (ui_fs _ I)|done|]. rw A2. apply length_alter.
  - intros j w Hj Hw. destruct (decide (j = k)) as [-> | Hne].
    + assert (w = u') as -> by congruence. exists i. destruct W as [_ T P _ L]. split; rw ?Hp ?A3 ?A5 ?A5' ?A8 //.
      * intros i' Hi. destruct A6; congruence.
      * rw A7 blen_app L. unfold held. by rw Hr string_app_nil_r.
    + apply Hs in Hj; [|done]. destruct (ui_work _ I _ _ Hj Hw) as [i2 W2].
      destruct (working_apart s j k w u i2 i I Hne Hj Hk W2 W) as (N1 & N2 & N3). exists i2.
      destruct W2 as [F2 T2 P2 C2 L2]. split; rw ?Hp ?A3 ?A9 //. rw A2. cbn. by rw list_lookup_alter_ne.
  - intros j w r Hj Hw. destruct (decide (j = k)) as [-> | Hne].
    + assert (w = u') as -> by congruence. by apply A11.
    + apply Hs in Hj; [|done]. destruct (ui_rename _ I _ _ _ Hj Hw). by split; rw ?Hp ?A9.
  - intros id j. rw A3. intros (w & Hw & <-)%(ui_table _ I). by apply Hids.
  - intros j w Hj. destruct (decide (j = k)) as [-> | Hne].
    + assert (w = u') as -> by congruence. rw A5 A5'. exact (ui_named _ I _ _ Hk).
    + by eapply (ui_named _ I), Hs.
  - intros c j r. rw A4. intros (? & ? & w & Hw & <-)%(ui_calls _ I). split_and!; [done|done|]. by apply Hids.
  - by rw A1 length_insert.
Qed.
Lemma advanced_frame k u u' i data s s' p :
  uinv s → u_sess s !! k = Some u → us_file u = Some i → advanced k u u' i data s s' → (∀ r, R r → p ≠ tmp_of r) →
  content_at (u_fs s') p = content_at (u_fs s) p.
Proof.
  intros I Hk Hf A Hp. destruct (open_working _ _ _ _ I Hk Hf) as [W _].
  destruct (not_own_inode s k u i p I Hk W Hp) as [Hne Hq]. rw (ad_fs _ _ _ _ _ _ _ A).
  apply (content_inode i); [done|done|]. intros j Hj. cbn. by rw list_lookup_alter_ne.
Qed.
Lemma alter_is_insert {A} (f : A → A) (k : nat) (a : A) (l : list A) : l !! k = Some a → alter f k l = <[k := f a]> l.
Proof.
  intros Hk. apply list_eq. intros j. destruct (decide (j = k)) as [-> | Hne].
  - rw list_lookup_alter_eq Hk list_lookup_insert_eq //. by eapply lookup_lt_Some.
  - by rw list_lookup_alter_ne // list_lookup_insert_ne.
Qed.
Lemma outcome_more k u i req s :
  uinv s → u_sess s !! k = Some u → us_file u = Some i → uq_final req = false →
  let u1 := u <| us_written := (us_written u + blen (uq_data req))%Z |> in
  outcome k req s (wrote k u1 i (Z.to_nat (us_written u)) (uq_data req) s) (ok_result req (us_written u1)).
Proof.
  intros I Hk Hf Hfin u1. destruct (open_working _ _ _ _ I Hk Hf) as [_ Hr]. set (s1 := wrote _ _ _ _ _ _).
  assert (advanced k u u1 i (uq_data req) s (ack (Some k) req (ok_result req (us_written u1)) s1)) as A.
  { split; try done.
    - cbn. by rw (alter_is_insert _ _ u).
    - by left.
    - rw accepted_ok // (accepted_same _ s) //. unfold held. by rw /= Hr string_app_nil_r.
    - intros j Hj. by rw accepted_other.
    - apply Forall_app. split; [apply (ui_acks _ I)|]. constructor; [|done]. by eapply lookup_lt_Some.
    - cbn. by rw Hr. }
  split; [by eapply uinv_advanced| |by rw Hfin|done]. intros p Hp Hc. exfalso. apply Hc. exact (advanced_frame _ _ _ _ _ _ _ p I Hk Hf A Hp).
Qed.
Lemma passed_advanced k u i req s s' :
  uinv s → R req → upload_check req = None → us_id u = upload_key req → uq_final req = true →
  u_sess s !! k = Some u → us_file u = Some i →
  let u1 := u <| us_written := (us_written u + blen (uq_data req))%Z |> in
  passed req u1 k (wrote k u1 i (Z.to_nat (us_written u)) (uq_data req) s) s' →
  advanced k u (u1 <| us_file := None |> <| us_renaming := Some req |>) i (uq_data req) s s'.
Proof.
  intros I HR Hch Hid Hfin Hk Hf u1 [-> P2 P3 P4]. set (s1 := wrote _ _ _ _ _ _) in *.
  destruct (open_working _ _ _ _ I Hk Hf) as [[_ T P C L] Hr]. unfold held in C, L. rw Hr string_app_nil_r in C. rw Hr string_app_nil_r in L.
  assert (content_at (u_fs s1) (us_tmp u1) = Some (accepted k s +:+ uq_data req)) as Hcon.
  { unfold content_at. cbn. rw P /= list_lookup_alter_eq C /= L. unfold blen. by rw Nat2Z.id write_at_end. }
  split; try done.
  - cbn. apply list_eq. intros j. destruct (decide (j = k)) as [-> | Hne].
    + rw !list_lookup_alter_eq Hk list_lookup_insert_eq //. by eapply lookup_lt_Some.
    + by rw !list_lookup_alter_ne // list_lookup_insert_ne.
  - by right.
  - apply (ui_acks _ I).
  - cbn. intros r [= <-]. split; try done.
    + intros Hs. destruct (P3 Hs) as (c & Hc & He). rw Hcon in Hc. by injection Hc as <-.
    + intros Ho. left. by apply P4.
Qed.
Lemma upload_chunk_outcome h k u req s s' o :
  uinv s → R req → upload_check req = None → us_id u = upload_key req →
  u_sess s !! k = Some u → us_renaming u = None → upload_chunk h k req u s = (s', o) →
  (∃ res, o = Some res ∧ outcome k req s s' res) ∨
  (o = None ∧ uinv s' ∧ u_acks s' = u_acks s ∧ ∀ p, (∀ r, R r → p ≠ tmp_of r) → content_at (u_fs s') p = content_at (u_fs s) p).
Proof.
  intros I HR Hch Hid Hk Hr Hc. unfold upload_chunk in Hc. destruct (us_file u) as [i|] eqn:Hf.
  2: { injection Hc as <- <-. left. eexists. split; [done|]. split; [|done|done|done]. apply uinv_fail_ack; [done|done|]. by eapply lookup_lt_Some. }
  destruct (open_working _ _ _ _ I Hk Hf) as [W _].
  assert (∀ e, outcome k req s (abortUpload h k u s) (fail_result req 0 e)) as Habort.
  { intros e. eapply outcome_failed; [done|done|done|by apply ended_abort|apply abort_paths|done]. }
  destruct (negb _); [injection Hc as <- <-; left; by eexists|]. destruct (uh_cancelled h); [injection Hc as <- <-; left; by eexists|].
  destruct (if String.eqb (uq_data req) "" then None else uh_write h) as [[n e]|].
  { injection Hc as <- <-. left. eexists. split; [done|].
    eapply outcome_failed; [done|done|done|eapply ended_write, ended_abort; done| |done].
    exact (abort_paths h k u (s <| u_fs := write i _ _ (u_fs s) |>)). }
  set (u1 := u <| us_written := _ |>) in Hc. set (s1 := upd_sess _ k _) in Hc.
  destruct (uq_final req) eqn:Hfin; cbn [negb] in Hc.
  - assert (u_sess s1 !! k = Some u1) as Hk1 by (cbn; by rw list_lookup_alter_eq Hk).
    destruct (upload_commit_spec h k req u1 i s1 s' o Hk1 Hr Hc) as [(res & -> & Hok & E & Ht)|[-> P]].
    + left. exists res. split; [done|]. eapply outcome_failed; try done.
      exact (ended_wrote k u u1 i _ _ s s' Hk eq_refl eq_refl E).
    + right. pose proof (passed_advanced k u i req s s' I HR Hch Hid Hfin Hk Hf P) as A.
      split_and!; [done|by eapply uinv_advanced|by rw (pa_state _ _ _ _ _ P)|]. intros p. by eapply advanced_frame.
  - injection Hc as <- <-. left. eexists. split; [done|]. by apply outcome_more.
Qed.
Lemma upload_rename_outcome h k u req s s' res :
  uinv s → u_sess s !! k = Some u → us_renaming u = Some req → upload_rename h k req u s = (s', res) → outcome k req s s' res.
Proof.
  intros I Hk Hr Hc. destruct (ui_work _ I _ _ Hk) as [i W]; [right; by rw Hr|].
  destruct (ui_rename _ I _ _ _ Hk Hr) as [Q1 (Q2 & Q3 & Q4 & Q5) Q6 Q7 Q8].
  destruct (upload_rename_spec h k req u i s s' res Hk Q1 Hc) as (E & Hin & [[Hok Ht]|[Hok (j & D4 & D5)]]); [by eapply outcome_failed|].
  destruct W as [W1 T P C L]. assert (j = i) as -> by congruence. unfold held in C, L. rw Hr in C, L.
  assert (dest_of req ≠ us_tmp u) as Hdt.
  { destruct (ui_named _ I _ _ Hk) as (r & Hr' & -> & _). by apply (Hsep req r). }
  assert (∀ p, p ≠ us_tmp u → p ≠ dest_of req → f_paths (u_fs s') !! p = f_paths (u_fs s) !! p) as Hp.
  { intros p H1 H2. by rw D5 lookup_insert_ne // lookup_delete_ne. }
  assert (working s k u i) as W by (split; [done..| |]; unfold held; by rw Hr).
  split; [| | |apply (en_acks _ _ _ _ _ E)].
  - eapply uinv_ended; try done.
    + eapply one_name_rename; [apply (ui_fs _ I)|exact P|exact D5|apply (en_count _ _ _ _ _ E)].
    + intros r Hr' Hne. apply Hp; [done|]. apply not_eq_sym. by apply (Hsep req r).
    + intros r HR Hkey Hn. destruct (decide (dest_of r = dest_of req)) as [Heq|Hne].
      * right. exists req. split_and!; [done|done|congruence].
      * left. rw Hp; [done| |done]. destruct (ui_named _ I _ _ Hk) as (r' & Hr' & -> & _). by apply (Hsep r r').
  - intros p Hp' Hcp. destruct (decide (p = dest_of req)) as [-> | Hne]; [done|]. exfalso. apply Hcp.
    destruct (not_own_inode s k u i p I Hk W Hp') as [Hnt Hq].
    apply (content_inode i); [done|by apply Hp|apply (en_inodes _ _ _ _ _ E)].
  - intros _ _. cbv zeta. split_and!; [|congruence|done|].
    + unfold content_at. by rw D5 lookup_insert_eq /= Hin C.
    + intros Ho. destruct (Q8 Ho) as [Hn|]; [left|by right]. unfold content_at. by rw Hn.
Qed.
Lemma create_trunc_spec p f i f' :
  one_name f → create_trunc p f = (i, f') →
  one_name f' ∧ f_paths f' !! p = Some i ∧ f_inodes f' !! i = Some "" ∧
  (∀ q, q ≠ p → f_paths f' !! q = f_paths f !! q ∧ content_at f' q = content_at f q) ∧
  (∀ q j, f_paths f !! q = Some j → q ≠ p → f_inodes f' !! j = f_inodes f !! j).
Proof.
  intros [Hi Hb] Hc. unfold create_trunc in Hc. destruct (f_paths f !! p) as [i0|] eqn:E; injection Hc as <- <-.
  - assert (∀ q j, f_paths f !! q = Some j → q ≠ p → (<[i0:="" ]> (f_inodes f)) !! j = f_inodes f !! j) as Hj.
    { intros q j Hq Hne. apply list_lookup_insert_ne. intros ->. apply Hne. by eapply Hi. }
    split_and!; cbn; try done.
    + split; cbn; [done|]. intros q j. rw length_insert. apply Hb.
    + apply list_lookup_insert_eq. by eapply Hb.
    + intros q Hne. split; [done|]. unfold content_at. cbn. destruct (f_paths f !! q) as [j|] eqn:Eq; [|done]. by eapply Hj.
  - split_and!; cbn.
    + split; cbn.
      * intros q q' j. rw !lookup_insert_Some. intros [[<- <-]|[N1 H1]] [[<- H2]|[N2 H2]]; try done; eauto.
        -- apply Hb in H2. lia.
        -- subst j. apply Hb in H1. lia.
      * intros q j. rw lookup_insert_Some length_app /=. intros [[_ <-]|[_ H]]; [lia|]. apply Hb in H. lia.
    + apply lookup_insert_eq.
    + by rw list_lookup_middle.
    + intros q Hne. unfold content_at. cbn. rw lookup_insert_ne //. split; [done|].
      destruct (f_paths f !! q) as [j|] eqn:Eq; [|done]. cbn. apply lookup_app_l. by eapply Hb.
    + intros q j Hq Hne. apply lookup_app_l. by eapply Hb.
Qed.
Lemma accepted_fresh s k : uinv s → length (u_sess s) ≤ k → accepted k s = "".
Proof.
  intros I Hk. unfold accepted. pose proof (ui_acks _ I) as Ha. induction Ha as [|a l Hl _ IH]; [done|]. cbn.
  rw IH. destruct a as [[[j|] r] res]; cbn in *; [|done]. rw bool_decide_eq_false_2; [done|]. intros [= ->]. lia.
Qed.
Lemma uinv_call k req s :
  uinv s → R req → upload_check req = None → (∃ u, u_sess s !! k = Some u ∧ us_id u = upload_key req) → uinv (call k req s).
Proof.
  intros [I1 I2 Ir It I3 I4 I5] HR Hc Hk. split; try done.
  { intros j u Hj Hw. destruct (I2 _ _ Hj Hw) as [i []]. by exists i. }
  { intros j u r Hj Hw. by destruct (Ir _ _ _ Hj Hw). }
  intros c j r [H|[_ H]]%lookup_app_Some; [by eapply I4|].
  apply list_lookup_singleton_Some in H as [_ [= <- <-]]. done.
Qed.
Lemma uinv_begin h req s :
  uinv s → R req →
  uinv (upload_begin h req s) ∧
  ∀ p, p ≠ tmp_of req → content_at (u_fs (upload_begin h req s)) p = content_at (u_fs s) p.
Proof.
  intros I HR. unfold upload_begin. destruct (upload_check req) eqn:Hch; [by split; [apply uinv_fail_ack|]|].
  destruct (u_table s !! upload_key req) as [k|] eqn:Ht.
  { split; [|done]. apply uinv_call; [done..|]. by apply (ui_table _ I). }
  destruct (uh_open h); [by split; [apply uinv_fail_ack|]|].
  destruct (create_trunc (tmp_of req) (u_fs s)) as [i f] eqn:Ec.
  destruct (create_trunc_spec _ _ _ _ (ui_fs _ I) Ec) as (H1 & H2 & H3 & H4 & H5).
  set (k0 := length (u_sess s)). set (u0 := mkUSess (upload_key req) (tmp_of req) (Some i) 0 None).
  assert (Hold : ∀ k u, u_sess s !! k = Some u → (u_sess s ++ [u0]) !! k = Some u) by (intros k u Hk; by apply lookup_app_l_Some).
  assert (Hnew : (u_sess s ++ [u0]) !! k0 = Some u0) by (by rw list_lookup_middle).
  split; [|intros p Hp; cbn; by apply H4].
  apply uinv_call; [|done|done|by exists u0].
  split; cbn [u_sess u_table u_fs u_calls u_acks set_field].
  - done.
  - intros k u [Hk|[Hl Hk]]%lookup_app_Some Hw.
    + destruct (ui_work _ I _ _ Hk Hw) as [j [F T P C L]].
      assert (us_tmp u ≠ tmp_of req) as Hnt.
      { destruct (ui_named _ I _ _ Hk) as (r & Hr & Er & Ek). rw Er. intros Heq.
        rw Ek (proj1 (Hsep r req Hr HR) Heq) Ht in T. done. }
      exists j. split; cbn [u_table u_fs set_field]; [done| |by rw (proj1 (H4 _ Hnt))|by rw (H5 _ _ P Hnt)|done].
      rw lookup_insert_ne //. intros Heq. rw -Heq Ht in T. done.
    + apply list_lookup_singleton_Some in Hk as [Hk <-].
      assert (k = k0) as -> by (unfold k0; clear -Hl Hk; lia). exists i.
      split; cbn [u_table u_fs set_field us_id us_tmp us_written u0]; rw ?(accepted_same _ s) // ?(accepted_fresh s) //.
      * intros j. cbn. by intros [= ->].
      * by rw lookup_insert_eq.
  - intros k u r [Hk|[Hl Hk]]%lookup_app_Some Hw; [|by apply list_lookup_singleton_Some in Hk as [_ <-]].
    destruct (ui_rename _ I _ _ _ Hk Hw) as [G1 G2 G3 G4 G5]. split; try done. intros Ho. destruct (G5 Ho) as [Hn|]; [left|by right].
    cbn. rw (proj1 (H4 _ _)); [done|]. by apply (Hsep r req); [apply G2|].
  - intros id k [[<- <-]|[Hne Hk]]%lookup_insert_Some; [by exists u0|].
    apply (ui_table _ I) in Hk as (u & Hu & <-). exists u. split; [by apply Hold|done].
  - intros k u [Hk|[Hl Hk]]%lookup_app_Some; [by eapply (ui_named _ I)|].
    apply list_lookup_singleton_Some in Hk as [_ <-]. by exists req.
  - intros c k r Hc. destruct (ui_calls _ I _ _ _ Hc) as (? & ? & u & Hu & He). split_and!; [done|done|]. exists u. split; [by apply Hold|done].
  - eapply Forall_impl; [apply (ui_acks _ I)|]. intros [[[k|] ?] ?]; cbn; rw ?length_app /=; lia.
Qed.
End separate_uploads.

Lemma uinv_init R f : one_name f → uinv R (uinit f).
Proof. by split. Qed.
Lemma labels_requests ls l :
  Forall (λ l0, match l0 with ULBegin _ req => req ∈ requests (ls ++ [l]) | _ => True end) ls.
Proof.
  apply Forall_forall. intros [h req|c h|k h] Hin; [|done|done]. unfold requests. rw bind_app. apply elem_of_app. left.
  apply list_elem_of_bind. exists (ULBegin h req). split; [by left|done].
Qed.
Lemma check_total req : upload_check req = None → (uq_total req ≤ maxUploadTotalBytes)%Z.
Proof. unfold upload_check. intros H. repeat case_match; try done. by go_bool. Qed.
Lemma uinv_forget R c s : uinv R s → uinv R (s <| u_calls := <[c := None]> (u_calls s) |>).
Proof.
  intros [I1 I2 Ir It I3 I4 I5]. split; try done.
  - intros j u Hj Hw. destruct (I2 _ _ Hj Hw) as [i []]. by exists i.
  - intros j u r Hj Hw. by destruct (Ir _ _ _ Hj Hw).
  - intros c' k r Hc. cbn in Hc. apply list_lookup_insert_Some in Hc as [(_ & [=] & _)|[_ Hc]]. by eapply I4.
Qed.
(** A step acknowledges a call, or leaves every file but the temporary ones. *)
Lemma ustep_outcome R (Hsep : separate R) l s s' :
  match l with ULBegin _ req => R req | _ => True end → uinv R s → ustep s l = Some s' →
  (∃ k req res s1, R req ∧ upload_check req = None ∧ s' = ack (Some k) req res s1 ∧ outcome R k req s s1 res) ∨
  (uinv R s' ∧ (∀ k req res, u_acks s' ≠ u_acks s ++ [(Some k, req, res)]) ∧
   ∀ p, (∀ r, R r → p ≠ tmp_of r) → content_at (u_fs s') p = content_at (u_fs s) p).
Proof.
  intros HP I Hs. destruct l as [h req|c h|k h]; cbn [ustep] in Hs.
  - injection Hs as <-. right. destruct (uinv_begin R Hsep h req s I HP) as [I' Hframe]. split_and!; [done| |intros p Hp; by apply Hframe, Hp].
    intros k req' res. unfold upload_begin. repeat case_match; cbn; intros Heq;
      first [by apply app_inv_head in Heq|apply (f_equal length) in Heq; rw length_app /= in Heq; lia].
  - destruct (u_calls s !! c) as [[[k req]|]|] eqn:Ec; [|done|done]. cbn in Hs.
    destruct (u_sess s !! k) as [u|] eqn:Ek; [|done]. cbn in Hs. unfold free in Hs. destruct (us_renaming u) eqn:Er; [done|]. cbn [negb] in Hs.
    destruct (upload_chunk h k req u _) as [s1 o] eqn:Eu. injection Hs as <-.
    destruct (ui_calls _ _ I _ _ _ Ec) as (HR & Hch & u' & Hu' & Hid). assert (u' = u) as -> by congruence.
    destruct (upload_chunk_outcome R Hsep h k u req _ s1 o (uinv_forget R c s I) HR Hch Hid Ek Er Eu) as [(res & -> & O)|(-> & I1 & Ha & Hf)].
    + left. exists k, req, res, s1. split_and!; [done..|]. by destruct O.
    + right. split_and!; [done| |done]. intros k' req' res'. rw Ha. cbn. intros H%(f_equal length). rw length_app /= in H. lia.
  - destruct (u_sess s !! k) as [u|] eqn:Ek; [|done]. cbn in Hs. destruct (us_renaming u) as [req|] eqn:Er; [|done]. cbn in Hs.
    destruct (upload_rename h k req u s) as [s1 res] eqn:Eu. injection Hs as <-. left.
    destruct (rn_req _ _ _ _ _ (ui_rename _ _ I _ _ _ Ek Er)) as (HR & Hch & _).
    exists k, req, res, s1. split_and!; [done..|]. by eapply upload_rename_outcome.
Qed.
Lemma uinv_step R (Hsep : separate R) s l s' :
  match l with ULBegin _ req => R req | _ => True end → uinv R s → ustep s l = Some s' → uinv R s'.
Proof.
  intros HP I Hs. destruct (ustep_outcome R Hsep l s s' HP I Hs) as [(k & req & res & s1 & _ & _ & -> & O)|[? _]]; [apply O|done].
Qed.

(** C33: As long as every destination is a clean path, no two uploads share a
    temporary file and none targets another's, and different clean paths are
    different files (no hard or symbolic links), the only files an upload changes are its own temporary
    file and, at its acknowledged final chunk, its destination; and then the
    destination holds exactly the acknowledged chunks in order, has the
    announced size, at most 10 MiB, has the announced SHA-256 if there was
    one, and did not exist before unless overwriting was allowed or another
    upload has the same destination.  This holds under every interleaving of
    calls, also between a look at a destination and the renaming onto it, and
    every failure of the host, where only uploads change these files. *)
Theorem upload_delivers f ls l s s' :
  one_name f → separate (λ r, r ∈ requests (ls ++ [l])) →
  urun (uinit f) ls s → ustep s l = Some s' →
  (∀ p, (∀ r, r ∈ requests (ls ++ [l]) → p ≠ tmp_of r) → content_at (u_fs s') p ≠ content_at (u_fs s) p →
     ∃ k req res, u_acks s' = u_acks s ++ [(Some k, req, res)] ∧ ur_ok res = true ∧ uq_final req = true ∧ p = dest_of req) ∧
  (∀ k req res, u_acks s' = u_acks s ++ [(Some k, req, res)] → ur_ok res = true → uq_final req = true →
     content_at (u_fs s') (dest_of req) = Some (accepted k s') ∧
     blen (accepted k s') = uq_total req ∧ (uq_total req ≤ maxUploadTotalBytes)%Z ∧
     (uq_sha req ≠ "" → EqualFold (sha256hex (accepted k s')) (uq_sha req) = true) ∧
     (uq_overwrite req = false →
        content_at (u_fs s) (dest_of req) = None ∨
        ∃ r, r ∈ requests (ls ++ [l]) ∧ dest_of r = dest_of req ∧ upload_key r ≠ upload_key req)).
Proof.
  intros Hf Hsep Hr Hs. set (R := λ r, r ∈ requests (ls ++ [l])) in *.
  assert (uinv R s) as I.
  { apply (trace_run_invariant_labels (fun_step ustep) (λ l, match l with ULBegin _ req => R req | _ => True end) (uinv R))
      with (s := uinit f) (ls := ls); [|apply labels_requests|by apply uinv_init|exact Hr].
    intros s0 l0 s1 HP I Hst. by eapply uinv_step. }
  assert (match l with ULBegin _ req => R req | _ => True end) as HP.
  { destruct l as [h req|c h|k h]; [|done|done]. unfold R, requests. rw bind_app. set_solver. }
  destruct (ustep_outcome R Hsep l s s' HP I Hs) as [(k & req & res & s1 & HR & Hch & -> & O)|(_ & Hno & Hframe)].
  - split.
    + intros p Hp Hc. destruct (oc_frame _ _ _ _ _ _ O p Hp Hc) as (H1 & H2 & H3).
      exists k, req, res. cbn. by rw (oc_acks _ _ _ _ _ _ O).
    + intros k' req' res' Hl Hok Hfin. cbn in Hl. rw (oc_acks _ _ _ _ _ _ O) in Hl. apply app_inj_2 in Hl as [_ Hl]; [|done].
      injection Hl as <- <- <-. destruct (oc_final _ _ _ _ _ _ O Hok Hfin) as (F1 & F2 & F3 & F4).
      rw accepted_ok //. rw (accepted_same k s s1 (oc_acks _ _ _ _ _ _ O)). split_and!; try done. by apply check_total.
  - split; [intros p Hp Hc; exfalso; by apply Hc, Hframe|]. intros k req res Ha. by apply Hno in Ha.
Qed.

(** ** Evaluated runs *)
Definition fine : uhost := mkUHost None false None None None None None true.
Definition empty_fs : fs := mkFs ∅ [].
Definition chunk (id data : string) (off : Z) (final : bool) (total : Z) (sha : string) : uploadReq :=
  mkUpload id "/srv/app.bin" off data final total sha false.
Definition hello_sha : string := "2cf24dba5fb0a30e26e83b2ac5b9e29e1b161e5c1fa7425e73043362938b9824".
Definition demo_upload : list ulabel :=
  [ULBegin fine (chunk "u1" "hel" 0 false 5 ""); ULChunk 0 fine; ULBegin fine (chunk "u1" "lo" 3 true 5 hello_sha); ULChunk 1 fine].
Definition demo_before : usys := default (uinit empty_fs) (exec ustep (uinit empty_fs) demo_upload).
Definition demo_after : usys := default (uinit empty_fs) (ustep demo_before (ULRename 0 fine)).

Lemma upload_delivers_witness :
  content_at (u_fs demo_after) "/srv/app.bin" = Some "hello" ∧ accepted 0 demo_after = "hello" ∧ u_table demo_after = ∅.
Proof.
  destruct (upload_delivers empty_fs demo_upload (ULRename 0 fine) demo_before demo_after) as [_ H].
  - split; [by intros p q i|by intros p i].
  - intros r1 r2 H1 H2.
    assert (∀ r, r ∈ requests (demo_upload ++ [ULRename 0 fine]) →
      r = chunk "u1" "hel" 0 false 5 "" ∨ r = chunk "u1" "lo" 3 true 5 hello_sha) as Hc.
    { intros r Hr. apply elem_of_cons in Hr as [-> | Hr]; [by left|]. apply list_elem_of_singleton in Hr as ->. by right. }
    split; [by destruct (Hc r1 H1) as [-> | ->], (Hc r2 H2) as [-> | ->]|].
    destruct (Hc r1 H1) as [-> | ->], (Hc r2 H2) as [-> | ->]; vm_compute; done.
  - apply exec_run. vm_compute. reflexivity.
  - vm_compute. reflexivity.
  - destruct (H 0 (chunk "u1" "lo" 3 true 5 hello_sha) (ok_result (chunk "u1" "lo" 3 true 5 hello_sha) 5)) as (Hd & _);
      [vm_compute; reflexivity|done|done|].
    split; [exact Hd|]. split; vm_compute; reflexivity.
Defined.

(** Chunks sent back to back are handled by goroutines of their own: if
    the second one gets the session first, its offset does not match, the
    upload is aborted, and the first one then finds the session closed,
    although the server sent both in order. *)
Theorem upload_chunks_race :
  ∃ s, urun (uinit empty_fs)
    [ULBegin fine (chunk "u1" "hel" 0 false 5 ""); ULBegin fine (chunk "u1" "lo" 3 true 5 "");
     ULChunk 1 fine; ULChunk 0 fine] s ∧
    map (λ a, (ur_ok a.2, ur_error a.2)) (u_acks s) =
      [(false, "offset mismatch"); (false, "upload session closed; restart with a new upload_id")] ∧
    content_at (u_fs s) "/srv/app.bin" = None ∧ u_table s = ∅.
Proof. eexists. split; [apply exec_run; vm_compute; reflexivity|]. vm_compute. done. Qed.

(** Two uploads to one path whose ids differ only in characters that are
    replaced share their temporary file: after one has been delivered, a
    chunk of the other is written into the delivered file. *)
Theorem upload_ids_collide :
  ∃ s, urun (uinit empty_fs)
    [ULBegin fine (chunk "job.1" "AAAA" 0 false 6 ""); ULChunk 0 fine;
     ULBegin fine (chunk "job_1" "BB" 0 true 2 ""); ULChunk 1 fine; ULRename 1 fine;
     ULBegin fine (chunk "job.1" "CC" 4 true 6 ""); ULChunk 2 fine] s ∧
    map (λ a, ur_ok a.2) (u_acks s) = [true; true; false] ∧
    content_at (u_fs s) "/srv/app.bin" = Some ("BB" +:+ zeros 2 +:+ "CC").
Proof. eexists. split; [apply exec_run; vm_compute; reflexivity|]. vm_compute. done. Qed.

(** Two uploads to one path, neither allowed to overwrite: when both look at
    the destination before either renames, both are acknowledged and the
    second replaces the file the first delivered. *)
Theorem upload_overwrites_race :
  ∃ s s', urun (uinit empty_fs)
    [ULBegin fine (chunk "u1" "one" 0 true 3 ""); ULBegin fine (chunk "u2" "two" 0 true 3 "");
     ULChunk 0 fine; ULChunk 1 fine; ULRename 0 fine] s ∧ content_at (u_fs s) "/srv/app.bin" = Some "one" ∧
    urun s [ULRename 1 fine] s' ∧ map (λ a, (uq_overwrite a.1.2, ur_ok a.2)) (u_acks s') = [(false, true); (false, true)] ∧
    content_at (u_fs s') "/srv/app.bin" = Some "two".
Proof.
  eexists _, _. split; [apply exec_run; vm_compute; reflexivity|]. split; [vm_compute; reflexivity|].
  split; [apply exec_run; vm_compute; reflexivity|]. vm_compute. done.
Qed.

(** *** The size limit *)
Lemma more_data d w s i :
  (blen d ≤ maxUploadChunkBytes)%Z →
  u_table s !! "u1" = Some 0 → u_sess s = [mkUSess "u1" "/srv/app.bin.upload-u1.tmp" (Some i) w None] →
  ∃ ls s' res, urun s ls s' ∧ u_table s' !! "u1" = Some 0 ∧ u_acks s' = u_acks s ++ [res] ∧ ur_ok res.2 = true ∧
    u_sess s' = [mkUSess "u1" "/srv/app.bin.upload-u1.tmp" (Some i) (w + blen d) None].
Proof.
  intros Hd Ht Hs. set (r := chunk "u1" d w false 0 "").
  assert (upload_check r = None) as Hc.
  { unfold upload_check. change (validateUploadPath (dest_of r)) with (@None string). cbn -[Z.ltb blen maxUploadChunkBytes].
    destruct (Z.ltb_spec maxUploadChunkBytes (blen d)); [lia|done]. }
  set (s1 := call 0 r s). set (n := length (u_calls s)).
  assert (u_calls s1 !! n = Some (Some (0, r))) as Hn by (cbn; by rw list_lookup_middle).
  exists [ULBegin fine r; ULChunk n fine]. eexists _, _. split.
  - apply exec_run. cbn [exec ustep]. unfold upload_begin. rw Hc. cbn [mbind option_bind].
    change (upload_key r) with "u1". rw Ht. cbv beta iota. fold s1. rw Hn. cbn [mbind option_bind].
    change (u_sess s1) with (u_sess s). rw Hs. cbn [lookup list_lookup mbind option_bind free us_renaming negb].
    unfold upload_chunk. cbn [us_file us_written uq_offset r chunk]. rw Z.eqb_refl. cbn [negb uh_cancelled uh_write fine uq_final].
    destruct (String.eqb (uq_data r) ""); reflexivity.
  - cbn. rw Hs. cbn. split_and!; done.
Qed.

(** Only the announced total is compared with the 10 MiB limit, and only
    the final chunk compares it with what was written: a caller that never
    sends one writes as many chunks as it likes, each acknowledged. *)
Theorem upload_size_unbounded d n :
  (blen d ≤ maxUploadChunkBytes)%Z →
  ∃ ls s u, urun (uinit empty_fs) ls s ∧ u_sess s = [u] ∧ is_Some (us_file u) ∧
    us_written u = (Z.of_nat (S n) * blen d)%Z ∧ length (u_acks s) = S n ∧ Forall (λ a, ur_ok a.2 = true) (u_acks s).
Proof.
  intros Hd.
  assert (∃ ls s, urun (uinit empty_fs) ls s ∧ u_table s !! "u1" = Some 0 ∧ length (u_acks s) = S n ∧
    Forall (λ a, ur_ok a.2 = true) (u_acks s) ∧
    u_sess s = [mkUSess "u1" "/srv/app.bin.upload-u1.tmp" (Some 0) (Z.of_nat (S n) * blen d) None]) as (ls & s & H1 & H2 & H3 & H4 & H5);
    [|exists ls, s; eexists; split_and!; [done|exact H5|done..]].
  induction n as [|n (ls & s & H1 & H2 & H3 & H4 & H5)].
  - assert (∃ s0 r0, urun (uinit empty_fs) [ULBegin fine (chunk "u1" "" 0 false 0 "")] s0 ∧ u_table s0 !! "u1" = Some 0 ∧
      u_acks s0 = [] ∧ r0 = () ∧ u_sess s0 = [mkUSess "u1" "/srv/app.bin.upload-u1.tmp" (Some 0) 0 None]) as (s0 & _ & R0 & T0 & A0 & _ & S0).
    { eexists _, (). split; [apply exec_run; vm_compute; reflexivity|]. vm_compute. done. }
    destruct (more_data d 0 s0 0 Hd T0 S0) as (ls & s & res & R1 & T1 & A1 & O1 & S1).
    eexists _, s. split; [eapply trace_run_app; [exact R0|exact R1]|]. rw A1 A0. split_and!; [done|done|by constructor|].
    rw S1. do 3 f_equal. lia.
  - destruct (more_data d _ s 0 Hd H2 H5) as (ls1 & s1 & res & R1 & T1 & A1 & O1 & S1).
    eexists _, s1. split; [eapply trace_run_app; [exact H1|exact R1]|]. rw A1 length_app H3 /=. split_and!; [done|lia| |].
    + apply Forall_app. split; [done|]. by constructor.
    + rw S1. do 3 f_equal. lia.
Qed.
Lemma upload_size_unbounded_witness :
  ∃ ls s u, urun (uinit empty_fs) ls s ∧ u_sess s = [u] ∧ us_written u = 21%Z.
Proof.
  destruct (upload_size_unbounded "seven b" 2) as (ls & s & u & H1 & H2 & _ & H3 & _); [vm_compute; done|].
  exists ls, s, u. split; [exact H1|]. split; [exact H2|exact H3].
Defined.
