(* ===== verification/ToolRun.v ===== *)
(** * ToolRun: long-running tools (common/agent/toolrun.go)

    A [ToolRunManager] spawns processes keyed by run id and streams their
    output.  [Start] runs in the dispatch loop, the two pumps and the waiter of
    a run are goroutines of their own.  A label of [xstep] is one critical
    section of the manager's mutex, one send, one read or one event of the
    process, so everything interleaves as it can in the program.  A run is a
    position in [x_runs]; the tables [m.runs] and [m.cancel] map ids to runs. *)
From S2P Require Import Prelude GoStrings.
From Stdlib Require Import Ascii.

Definition defaultToolRunChunk : Z := 16 * 1024.
Definition defaultStopGrace : Z := 5 * 10 ^ 9.

Inductive NodeToolRunKind := KSTARTED | KSTDOUT | KSTDERR | KEXITED.
#[export] Instance NodeToolRunKind_eq_dec : EqDecision NodeToolRunKind.
Proof. solve_decision. Defined.
Record toolEvent := mkTool {
  te_run : string; te_kind : NodeToolRunKind; te_data : string; te_exit : Z; te_error : string;
  te_revision : Z; te_pid : Z
}.
Record toolReq := mkToolReq {
  tq_run : string; tq_binary : string; tq_args : list string; tq_cwd : string;
  tq_env : gmap string string; tq_chunk : Z; tq_revision : Z
}.

(** the per-event cap *)
Definition chunk_size (req : toolReq) : Z :=
  if (tq_chunk req <=? 0)%Z then defaultToolRunChunk else tq_chunk req.
(** os.UserHomeDir() fails as [None]; "" leaves the directory to the node's *)
Definition run_dir (home : option string) (req : toolReq) : string :=
  if negb (String.eqb (TrimSpace (tq_cwd req)) "") then TrimSpace (tq_cwd req) else default "" home.
Definition mergeEnv `{MapRange string} (environ : list string) (extra : gmap string string) : list string :=
  foldl (λ env kv, let k := TrimSpace kv.1 in
           if String.eqb k "" then env else env ++ [k +:+ "=" +:+ kv.2]) environ (map_range extra).
Definition stop_grace (graceMs : Z) : Z :=
  if (graceMs * 10 ^ 6 <=? 0)%Z then defaultStopGrace else (graceMs * 10 ^ 6)%Z.

(** ** Runs *)
(** what cmd.Wait returns *)
Inductive wait_err := WaitNil | WaitExit (code : Z) | WaitCanceled | WaitOther (msg : string).
Definition exit_of (w : wait_err) : Z * string :=
  match w with
  | WaitNil => (0%Z, "")
  | WaitExit code => (code, "")
  | WaitCanceled => ((-1)%Z, "stopped")
  | WaitOther msg => ((-1)%Z, msg)
  end.
Inductive run_phase :=
| RSpawned                          (** the process exists, not registered *)
| RReplacing (old : nat)            (** unlocked, about to call existing() *)
| RRelock                           (** about to register *)
| RRegistered                       (** about to emit STARTED *)
| RRunning                          (** pumps and waiter started *)
| RWaited (w : wait_err)            (** Wait returned and cancel() called *)
| RRemoved (w : wait_err)           (** deleted from the tables *)
| RDone.
Record toolRun := mkRun {
  xr_id : string; xr_revision : Z; xr_pid : Z; xr_chunk : Z;
  xr_phase : run_phase;
  xr_out : bool; xr_err : bool;     (** the pump of stdout, of stderr has ended *)
  xr_cancelled : bool;              (** runCtx is cancelled *)
  xr_interrupts : nat; xr_kills : nat
}.
#[export] Instance eta_toolRun : Settable toolRun := λ r,
  mkRun (xr_id r) (xr_revision r) (xr_pid r) (xr_chunk r) (xr_phase r) (xr_out r) (xr_err r) (xr_cancelled r)
    (xr_interrupts r) (xr_kills r).

Record xsys := mkXsys {
  x_runs : list toolRun;
  x_table : gmap string nat;        (** m.runs *)
  x_cancel : gmap string nat;       (** m.cancel *)
  x_timers : list nat;              (** pending time.AfterFunc of Stop *)
  x_stopping : list (list string);  (** StopAll calls: the ids still to stop *)
  x_log : list (option nat * toolEvent)   (** emitted events, by the run that emits them *)
}.
#[export] Instance eta_xsys : Settable xsys := λ s,
  mkXsys (x_runs s) (x_table s) (x_cancel s) (x_timers s) (x_stopping s) (x_log s).
(** NewToolRunManager *)
Definition xinit : xsys := mkXsys [] ∅ ∅ [] [] [].

Definition upd_run (f : toolRun → toolRun) (k : nat) (s : xsys) : xsys := s <| x_runs := alter f k (x_runs s) |>.
Definition set_phase (ph : run_phase) (k : nat) (s : xsys) : xsys := upd_run (λ r, r <| xr_phase := ph |>) k s.
Definition emit (k : option nat) (ev : toolEvent) (s : xsys) : xsys := s <| x_log := x_log s ++ [(k, ev)] |>.
Definition emitExitRevision (k : option nat) (runID : string) (code : Z) (msg : string) (revision : Z) : xsys → xsys :=
  emit k (mkTool runID KEXITED "" (int32_of code) msg revision 0).
Definition emitExit (k : option nat) (runID : string) (code : Z) (msg : string) : xsys → xsys :=
  emitExitRevision k runID code msg 0.

(** ** Start *)
(** up to and including cmd.Start; [spawned] is its answer, or the failure of
    a pipe, with the text the exit event carries *)
Definition Start_spawn (req : toolReq) (spawned : result Z) (s : xsys) : xsys :=
  let runID := TrimSpace (tq_run req) in
  if String.eqb runID "" then s
  else if String.eqb (TrimSpace (tq_binary req)) "" then emitExit None runID (-1) "binary_path is required" s
  else match spawned with
  | Err e => emitExit None runID (-1) e s
  | Ok pid =>
      s <| x_runs := x_runs s ++ [mkRun runID (tq_revision req) pid (chunk_size req) RSpawned false false false 0 0] |>
  end.
Definition register (k : nat) (r : toolRun) (s : xsys) : xsys :=
  set_phase RRegistered k s <| x_table := <[xr_id r := k]> (x_table s) |> <| x_cancel := <[xr_id r := k]> (x_cancel s) |>.
(** the section that looks for a run of the same id *)
Definition Start_lookup (k : nat) (r : toolRun) (s : xsys) : xsys :=
  match x_cancel s !! xr_id r with
  | Some old => set_phase (RReplacing old) k s
  | None => register k r s
  end.
Definition Start_step (k : nat) (r : toolRun) (s : xsys) : option xsys :=
  match xr_phase r with
  | RSpawned => Some (Start_lookup k r s)
  | RReplacing old => Some (set_phase RRelock k (upd_run (λ r, r <| xr_cancelled := true |>) old s))
  | RRelock => Some (register k r s)
  | RRegistered =>
      Some (set_phase RRunning k (emit (Some k) (mkTool (xr_id r) KSTARTED "" 0 "" (xr_revision r) (xr_pid r)) s))
  | _ => None
  end.

(** ** The goroutines of a run *)
(** one Read of a pump: at most a chunk of bytes, [eof] when it also ended *)
Definition pump (err : bool) (data : string) (eof : bool) (k : nat) (r : toolRun) (s : xsys) : option xsys :=
  let kind := if err then KSTDERR else KSTDOUT in
  match xr_phase r with
  | RRunning =>
      if (if err then xr_err r else xr_out r) || (xr_chunk r <? blen data)%Z then None
      else
        let s1 := if String.eqb data "" then s
                  else emit (Some k) (mkTool (xr_id r) kind data 0 "" 0 0) s in
        Some (if eof then upd_run (λ r, if err then r <| xr_err := true |> else r <| xr_out := true |>) k s1 else s1)
  | _ => None
  end.
(** wg.Wait, cmd.Wait, cancel *)
Definition wait (w : wait_err) (k : nat) (r : toolRun) (s : xsys) : option xsys :=
  match xr_phase r with
  | RRunning =>
      if xr_out r && xr_err r then Some (set_phase (RWaited w) k (upd_run (λ r, r <| xr_cancelled := true |>) k s))
      else None
  | _ => None
  end.
Definition reap (k : nat) (r : toolRun) (s : xsys) : option xsys :=
  match xr_phase r with
  | RWaited w =>
      Some (set_phase (RRemoved w) k s <| x_table := delete (xr_id r) (x_table s) |>
              <| x_cancel := delete (xr_id r) (x_cancel s) |>)
  | RRemoved w =>
      let '(code, msg) := exit_of w in
      Some (set_phase RDone k (emitExitRevision (Some k) (xr_id r) code msg (xr_revision r) s))
  | _ => None
  end.

(** ** Stop, StopAll, ActiveRuns *)
(** the lookup, the interrupt and the timer *)
Definition Stop (runID : string) (s : xsys) : xsys :=
  let runID := TrimSpace runID in
  if String.eqb runID "" then s
  else match x_table s !! runID with
  | None => s
  | Some k => upd_run (λ r, r <| xr_interrupts := S (xr_interrupts r) |>) k s <| x_timers := x_timers s ++ [k] |>
  end.
(** the timer's function: Kill and runCtx() *)
Definition fire (k : nat) (s : xsys) : xsys :=
  upd_run (λ r, r <| xr_kills := S (xr_kills r) |> <| xr_cancelled := true |>) k s.
Section range.
Context `{MapRange nat}.
Definition StopAll (s : xsys) : xsys :=
  s <| x_stopping := x_stopping s ++ [(map_range (x_table s)).*1] |>.
Definition ActiveRuns (s : xsys) : list (string * Z * Z) :=
  omap (λ '(runID, k), r ← x_runs s !! k; Some (runID, xr_revision r, xr_pid r)) (map_range (x_table s)).

Inductive xlabel :=
| XStart (req : toolReq) (spawned : result Z)
| XStartStep (k : nat)
| XRead (k : nat) (err : bool) (data : string) (eof : bool)
| XWait (k : nat) (w : wait_err)
| XReap (k : nat)
| XStop (runID : string)
| XTimer (i : nat)
| XStopAll
| XStopNext (i : nat).
Definition xstep (s : xsys) (l : xlabel) : option xsys :=
  match l with
  | XStart req spawned => Some (Start_spawn req spawned s)
  | XStartStep k => r ← x_runs s !! k; Start_step k r s
  | XRead k err data eof => r ← x_runs s !! k; pump err data eof k r s
  | XWait k w => r ← x_runs s !! k; wait w k r s
  | XReap k => r ← x_runs s !! k; reap k r s
  | XStop runID => Some (Stop runID s)
  | XTimer i =>
      k ← x_timers s !! i;
      Some (fire k (s <| x_timers := take i (x_timers s) ++ drop (S i) (x_timers s) |>))
  | XStopAll => Some (StopAll s)
  | XStopNext i =>
      ids ← x_stopping s !! i;
      match ids with
      | [] => None
      | id :: ids => Some (Stop id (s <| x_stopping := <[i := ids]> (x_stopping s) |>))
      end
  end.
Definition xrun := trace_run (fun_step xstep).
End range.
