(* ===== verification/ToolRunProofs.v ===== *)
(** * ToolRunProofs: the event stream of a run and the table of runs *)
From S2P Require Import Prelude GoStrings ToolRun.
From Stdlib Require Import Ascii.

(** ** Vocabulary *)
Definition events_of (k : nat) (s : xsys) : list toolEvent :=
  omap (λ x, if bool_decide (x.1 = Some k) then Some x.2 else None) (x_log s).
(** What the process of run [k] has written, as read by its pumps. *)
Definition read_by (k : nat) (err : bool) (l : xlabel) : string :=
  match l with
  | XRead k' err' data _ => if bool_decide (k' = k) && Bool.eqb err' err then data else ""
  | _ => ""
  end.
Definition written (k : nat) (err : bool) (ls : list xlabel) : string := foldr (λ l acc, read_by k err l +:+ acc) "" ls.
Definition text (kind : NodeToolRunKind) (evs : list toolEvent) : string :=
  foldr (λ e acc, (if bool_decide (te_kind e = kind) then te_data e else "") +:+ acc) "" evs.
Definition started_event (r : toolRun) : toolEvent := mkTool (xr_id r) KSTARTED "" 0 "" (xr_revision r) (xr_pid r).
Definition exited_event (r : toolRun) (code : Z) (msg : string) : toolEvent :=
  mkTool (xr_id r) KEXITED "" (int32_of code) msg (xr_revision r) 0.
Definition is_chunk (r : toolRun) (e : toolEvent) : Prop :=
  te_run e = xr_id r ∧ (te_kind e = KSTDOUT ∨ te_kind e = KSTDERR) ∧ (0 < blen (te_data e) ≤ xr_chunk r)%Z.

Inductive stage := Before | During | After.
Definition stage_of (ph : run_phase) : stage :=
  match ph with
  | RSpawned | RReplacing _ | RRelock | RRegistered => Before
  | RRunning | RWaited _ | RRemoved _ => During
  | RDone => After
  end.
(** The events a run may have emitted at a stage of its life. *)
Definition stream_ok (r : toolRun) (out err : string) (evs : list toolEvent) : Prop :=
  ∃ chunks, Forall (is_chunk r) chunks ∧ text KSTDOUT chunks = out ∧ text KSTDERR chunks = err ∧
    match stage_of (xr_phase r) with
    | Before => evs = [] ∧ chunks = []
    | During => evs = started_event r :: chunks
    | After => ∃ code msg, evs = started_event r :: chunks ++ [exited_event r code msg]
    end.

(** ** Bookkeeping *)
Definition skel (r : toolRun) : string * Z * Z * Z * stage :=
  (xr_id r, xr_revision r, xr_pid r, xr_chunk r, stage_of (xr_phase r)).
Lemma stream_ok_skel r r' out err evs : skel r' = skel r → stream_ok r out err evs → stream_ok r' out err evs.
Proof.
  intros [= H1 H2 H3 H4 H5] (cs & Hc & Ho & He & Hs). exists cs. rw H5. split_and!; try done.
  - eapply Forall_impl; [exact Hc|]. unfold is_chunk. by rw H1 H4.
  - unfold started_event, exited_event in *. by rw H1 H2 H3.
Qed.
Lemma events_emit k k' e s :
  events_of k (emit k' e s) = events_of k s ++ (if bool_decide (k' = Some k) then [e] else []).
Proof. unfold events_of. cbn. rw omap_app /=. by case_bool_decide. Qed.
Lemma written_snoc k err ls l : written k err (ls ++ [l]) = written k err ls +:+ read_by k err l.
Proof.
  unfold written. induction ls as [|l' ls IH]; cbn; [by rw string_app_nil_r|]. by rw IH string_app_assoc.
Qed.
Lemma text_snoc kind evs e : text kind (evs ++ [e]) = text kind evs +:+ (if bool_decide (te_kind e = kind) then te_data e else "").
Proof. unfold text. induction evs as [|e' evs IH]; cbn; [by rw string_app_nil_r|]. by rw IH string_app_assoc. Qed.

Record sinv (ls : list xlabel) (s : xsys) : Prop := {
  si_run k r : x_runs s !! k = Some r → stream_ok r (written k false ls) (written k true ls) (events_of k s);
  si_none k : length (x_runs s) ≤ k → written k false ls = "" ∧ written k true ls = "" ∧ events_of k s = []
}.
(** A step that neither emits for a run nor reads. *)
Lemma sinv_quiet ls s l s' :
  sinv ls s → skel <$> x_runs s' = skel <$> x_runs s → (∀ k, events_of k s' = events_of k s) →
  (∀ k err, read_by k err l = "") → sinv (ls ++ [l]) s'.
Proof.
  intros [I1 I2] Hsk He Hr.
  assert (∀ k err, written k err (ls ++ [l]) = written k err ls) as Hw.
  { intros k err. by rw written_snoc Hr string_app_nil_r. }
  split.
  - intros k r Hk. pose proof (f_equal (.!! k) Hsk) as Hkk. rw !list_lookup_fmap Hk in Hkk.
    destruct (x_runs s !! k) as [r0|] eqn:E; [|done]. cbn in Hkk. injection Hkk as Hkk.
    rw !Hw He. apply (stream_ok_skel r0); [|by apply I1]. unfold skel. congruence.
  - intros k Hk. rw !Hw He. apply I2. by rw -(length_fmap skel) -Hsk length_fmap.
Qed.
Lemma skel_alter (f : toolRun → toolRun) (k : nat) (l : list toolRun) :
  (∀ r, l !! k = Some r → skel (f r) = skel r) → skel <$> alter f k l = skel <$> l.
Proof.
  intros Hf. apply list_eq. intros i. rw !list_lookup_fmap. destruct (decide (k = i)) as [-> | Hne].
  - rw list_lookup_alter_eq. destruct (l !! i) as [r|] eqn:E; [|done]. cbn. by rw Hf.
  - by rw list_lookup_alter_ne.
Qed.
(** A step that changes the run [k] alone and emits for it alone. *)
Lemma sinv_own ls s l s' k r r' e :
  sinv ls s → x_runs s !! k = Some r → x_runs s' !! k = Some r' →
  (∀ j, j ≠ k → x_runs s' !! j = x_runs s !! j) → length (x_runs s') = length (x_runs s) →
  x_log s' = x_log s ++ [(Some k, e)] → (∀ j err, j ≠ k → read_by j err l = "") →
  stream_ok r' (written k false (ls ++ [l])) (written k true (ls ++ [l])) (events_of k s ++ [e]) →
  sinv (ls ++ [l]) s'.
Proof.
  intros [I1 I2] Hr Hr' Hj Hl Hlog Hread Hok.
  assert (∀ j, events_of j s' = events_of j s ++ (if bool_decide (k = j) then [e] else [])) as He.
  { intros j. unfold events_of. rw Hlog omap_app /=. do 2 case_bool_decide; congruence. }
  split.
  - intros j rj Hk. destruct (decide (j = k)) as [-> | Hne].
    + assert (rj = r') as -> by congruence. by rw He bool_decide_eq_true_2.
    + rw He bool_decide_eq_false_2 // app_nil_r !written_snoc !Hread // !string_app_nil_r. apply I1. by rw -Hj.
  - intros j Hjl. assert (j ≠ k) as Hne. { intros ->. apply lookup_lt_Some in Hr. lia. }
    rw He bool_decide_eq_false_2 // app_nil_r !written_snoc !Hread // !string_app_nil_r. apply I2. lia.
Qed.

Section steps.
Context `{MapRange nat}.

Lemma skel_set_phase ph k s :
  (∀ r, x_runs s !! k = Some r → stage_of ph = stage_of (xr_phase r)) →
  skel <$> x_runs (set_phase ph k s) = skel <$> x_runs s.
Proof. intros Hs. apply skel_alter. intros r Hr. unfold skel. cbn. by rw (Hs r Hr). Qed.
Lemma skel_stop id s : skel <$> x_runs (Stop id s) = skel <$> x_runs s ∧ x_log (Stop id s) = x_log s.
Proof.
  unfold Stop. destruct (String.eqb _ _); [done|]. destruct (x_table s !! _); [|done].
  split; [|done]. by apply skel_alter.
Qed.
Lemma sinv_start ls req spawned s : sinv ls s → sinv (ls ++ [XStart req spawned]) (Start_spawn req spawned s).
Proof.
  intros I. unfold Start_spawn.
  assert (∀ k id code msg, events_of k (emitExit None id code msg s) = events_of k s) as Hex.
  { intros. unfold emitExit, emitExitRevision. rw events_emit. by rw app_nil_r. }
  destruct (String.eqb _ _); [by apply (sinv_quiet ls s)|].
  destruct (String.eqb _ _); [apply (sinv_quiet ls s); try done; auto|].
  destruct spawned as [pid|e]; [|apply (sinv_quiet ls s); try done; auto].
  destruct I as [I1 I2]. split; cbn [x_runs set_field].
  - intros k r Hk. rw !written_snoc /= !string_app_nil_r.
    apply lookup_app_Some in Hk as [Hk|[Hl Hk]]; [by apply I1|].
    apply list_lookup_singleton_Some in Hk as [Hk <-]. destruct (I2 k Hl) as (H1 & H2 & H3).
    exists []. rw H1 H2. split_and!; done.
  - intros k Hk. rw !written_snoc /= !string_app_nil_r. apply I2. rw length_app /= in Hk. lia.
Qed.
Lemma sinv_start_step ls k r s s' :
  sinv ls s → x_runs s !! k = Some r → Start_step k r s = Some s' → sinv (ls ++ [XStartStep k]) s'.
Proof.
  intros I Hk Hs. unfold Start_step in Hs. destruct (xr_phase r) eqn:Ep; try done; injection Hs as <-.
  - unfold Start_lookup. destruct (x_cancel s !! xr_id r); apply (sinv_quiet ls s); try done;
      apply skel_set_phase; intros r'; rw Hk; intros [= <-]; by rw Ep.
  - apply (sinv_quiet ls s); try done. rw skel_set_phase; [by apply skel_alter|].
    intros r' Hr'. cbn in Hr'. destruct (decide (old = k)) as [-> | Hne].
    + rw list_lookup_alter_eq Hk in Hr'. injection Hr' as <-. cbn. by rw Ep.
    + rw list_lookup_alter_ne // Hk in Hr'. injection Hr' as <-. by rw Ep.
  - apply (sinv_quiet ls s); try done. apply skel_set_phase. intros r'. rw Hk. intros [= <-]. by rw Ep.
  - destruct (si_run _ _ I k r Hk) as (cs & Hc & Ho & He & Hst). rw Ep /= in Hst. destruct Hst as [Hev ->].
    eapply (sinv_own ls s _ _ k r); [done|done| | | | |done|].
    + cbn. by rw list_lookup_alter_eq Hk.
    + intros j Hj. cbn. by rw list_lookup_alter_ne.
    + cbn. apply length_alter.
    + done.
    + exists []. rw !written_snoc /= !string_app_nil_r Hev. done.
Qed.
Lemma sinv_read ls k err data eof r s s' :
  sinv ls s → x_runs s !! k = Some r → pump err data eof k r s = Some s' → sinv (ls ++ [XRead k err data eof]) s'.
Proof.
  intros I Hk Hs. unfold pump in Hs. destruct (xr_phase r) eqn:Ep; try done.
  destruct ((if err then xr_err r else xr_out r) || (xr_chunk r <? blen data)%Z) eqn:Eg; [done|].
  apply orb_false_iff in Eg as [_ Eg]. go_bool.
  set (fl := λ r : toolRun, if err then r <| xr_err := true |> else r <| xr_out := true |>) in *.
  assert (skel (fl r) = skel r) as Hfl by by destruct err.
  destruct (String.eqb data "") eqn:Ed; go_bool; injection Hs as <-.
  - subst data. apply (sinv_quiet ls s); [done| |by destruct eof|].
    + destruct eof; [|done]. apply skel_alter. intros r' _. by destruct err.
    + intros j e. cbn. by case_match.
  - destruct (si_run _ _ I k r Hk) as (cs & Hc & Ho & He & Hst). rw Ep /= in Hst.
    set (e := mkTool (xr_id r) (if err then KSTDERR else KSTDOUT) data 0 "" 0 0).
    eapply (sinv_own ls s _ _ k r (if eof then fl r else r) e); [done|done| | | | | |].
    + destruct eof; cbn; [by rw list_lookup_alter_eq Hk|done].
    + intros j Hj. destruct eof; cbn; [by rw list_lookup_alter_ne|done].
    + destruct eof; cbn; [apply length_alter|done].
    + by destruct eof.
    + intros j e' Hj. cbn. by rw bool_decide_eq_false_2.
    + apply (stream_ok_skel r); [by destruct eof|]. exists (cs ++ [e]). rw Ep /= Hst.
      split_and!; [|rw text_snoc Ho written_snoc|rw text_snoc He written_snoc|done].
      * apply Forall_app. split; [done|]. constructor; [|done]. split_and!; [done|by destruct err; [right|left]| |done].
        cbn. destruct data; [done|]. unfold blen. cbn [String.length]. lia.
      * f_equal. cbn. rw (bool_decide_eq_true_2 (k = k)) //. by destruct err.
      * f_equal. cbn. rw (bool_decide_eq_true_2 (k = k)) //. by destruct err.
Qed.
Lemma sinv_reap ls k r s s' :
  sinv ls s → x_runs s !! k = Some r → reap k r s = Some s' → sinv (ls ++ [XReap k]) s'.
Proof.
  intros I Hk Hs. unfold reap in Hs. destruct (xr_phase r) as [| | | | |w|w|] eqn:Ep; try done.
  - injection Hs as <-. apply (sinv_quiet ls s); try done. apply skel_set_phase. intros r'. rw Hk. intros [= <-]. by rw Ep.
  - destruct (exit_of w) as [code msg]. injection Hs as <-.
    destruct (si_run _ _ I k r Hk) as (cs & Hc & Ho & He & Hst). rw Ep /= in Hst.
    eapply (sinv_own ls s _ _ k r); [done|done| | | | |done|].
    + cbn. by rw list_lookup_alter_eq Hk.
    + intros j Hj. cbn. by rw list_lookup_alter_ne.
    + cbn. apply length_alter.
    + done.
    + exists cs. rw !written_snoc /= !string_app_nil_r Hst. split_and!; try done. by exists code, msg.
Qed.
Lemma sinv_step ls s l s' : sinv ls s → xstep s l = Some s' → sinv (ls ++ [l]) s'.
Proof.
  intros I Hs. destruct l as [req sp|k|k err data eof|k w|k|id|i| |i]; cbn [xstep] in Hs.
  - injection Hs as <-. by apply sinv_start.
  - destruct (x_runs s !! k) as [r|] eqn:E; [|done]. by eapply sinv_start_step.
  - destruct (x_runs s !! k) as [r|] eqn:E; [|done]. by eapply sinv_read.
  - destruct (x_runs s !! k) as [r|] eqn:E; [|done]. cbn in Hs. unfold wait in Hs.
    destruct (xr_phase r) eqn:Ep; try done. destruct (xr_out r && xr_err r); [|done]. injection Hs as <-.
    apply (sinv_quiet ls s); try done. rw skel_set_phase; [by apply skel_alter|].
    intros r' Hr'. cbn in Hr'. rw list_lookup_alter_eq E in Hr'. injection Hr' as <-. cbn. by rw Ep.
  - destruct (x_runs s !! k) as [r|] eqn:E; [|done]. by eapply sinv_reap.
  - injection Hs as <-. destruct (skel_stop id s) as [H1 H2]. apply (sinv_quiet ls s); try done.
    intros k. unfold events_of. by rw H2.
  - destruct (x_timers s !! i) as [k|]; [|done]. injection Hs as <-. apply (sinv_quiet ls s); try done. by apply skel_alter.
  - injection Hs as <-. by apply (sinv_quiet ls s).
  - destruct (x_stopping s !! i) as [[|id ids]|]; [done| |done]. injection Hs as <-.
    destruct (skel_stop id (s <| x_stopping := <[i := ids]> (x_stopping s) |>)) as [H1 H2].
    apply (sinv_quiet ls s); try done. intros k. unfold events_of. by rw H2.
Qed.

(** Under every interleaving, a run has emitted nothing before it is
    registered, then one STARTED event with its revision and process id, then
    its output in chunks of at most the requested size, each stream in the
    order and with exactly the bytes its pump read, and, when it is over, one
    EXITED event with its revision, last. *)
Theorem tool_run_stream ls s k r :
  xrun xinit ls s → x_runs s !! k = Some r →
  stream_ok r (written k false ls) (written k true ls) (events_of k s).
Proof.
  intros Hr Hk. assert (sinv ls s) as I; [|by apply I].
  apply (trace_run_history (fun_step xstep) sinv) with (pre := []) (s := xinit); [|by split|exact Hr].
  intros pre s0 l s1. apply sinv_step.
Qed.

(** ** The table *)
Definition start_ids (ls : list xlabel) : list string :=
  ls ≫= λ l, match l with XStart req _ => [TrimSpace (tq_run req)] | _ => [] end.
Definition tabled (ph : run_phase) : bool :=
  match ph with RRegistered | RRunning | RWaited _ => true | _ => false end.
Definition exact (s : xsys) : Prop :=
  x_cancel s = x_table s ∧
  ∀ id k, x_table s !! id = Some k ↔ ∃ r, x_runs s !! k = Some r ∧ xr_id r = id ∧ tabled (xr_phase r) = true.
Definition ykey (r : toolRun) : string * bool := (xr_id r, tabled (xr_phase r)).

Lemma exact_same s s' :
  exact s → ykey <$> x_runs s' = ykey <$> x_runs s → x_table s' = x_table s → x_cancel s' = x_cancel s → exact s'.
Proof.
  intros [E1 E2] Hk Ht Hc. split; [by rw Ht Hc|]. intros id k. rw Ht E2.
  pose proof (f_equal (.!! k) Hk) as Hkk. rw !list_lookup_fmap in Hkk.
  split; intros (r & Hr & Hid & Htb); rw Hr /= in Hkk.
  - destruct (x_runs s' !! k) as [r'|]; [|done]. injection Hkk as H1 H2. exists r'. by rw H1 H2.
  - destruct (x_runs s !! k) as [r'|]; [|done]. injection Hkk as H1 H2. exists r'. by rw -H1 -H2.
Qed.
Lemma ykey_alter (f : toolRun → toolRun) (k : nat) (l : list toolRun) :
  (∀ r, l !! k = Some r → ykey (f r) = ykey r) → ykey <$> alter f k l = ykey <$> l.
Proof.
  intros Hf. apply list_eq. intros i. rw !list_lookup_fmap. destruct (decide (k = i)) as [-> | Hne].
  - rw list_lookup_alter_eq. destruct (l !! i) as [r|] eqn:E; [|done]. cbn. by rw Hf.
  - by rw list_lookup_alter_ne.
Qed.
Lemma run_set_phase ph k s j r' :
  x_runs (set_phase ph k s) !! j = Some r' ↔
  ∃ r, x_runs s !! j = Some r ∧ r' = (if bool_decide (j = k) then r <| xr_phase := ph |> else r).
Proof.
  cbn. case_bool_decide as Hj.
  - subst j. rw list_lookup_alter_eq. destruct (x_runs s !! k); cbn; naive_solver.
  - rw list_lookup_alter_ne //. naive_solver.
Qed.
Lemma same_id s j k r r' :
  NoDup (xr_id <$> x_runs s) → x_runs s !! j = Some r → x_runs s !! k = Some r' → xr_id r = xr_id r' → j = k.
Proof.
  intros Hn Hj Hk Hid. eapply NoDup_lookup; [exact Hn| |]; rw list_lookup_fmap ?Hj ?Hk /=; [done|by rw Hid].
Qed.
Lemma exact_register k r s :
  exact s → NoDup (xr_id <$> x_runs s) → x_runs s !! k = Some r → exact (register k r s).
Proof.
  intros [E1 E2] Hn Hk. split; [cbn; by rw E1|]. intros id j. cbn [register x_table set_field].
  change (x_runs (register k r s)) with (x_runs (set_phase RRegistered k s)).
  setoid_rewrite run_set_phase. rw lookup_insert_Some E2. split.
  - intros [[<- <-]|(Hne & r0 & Hr0 & Hid & Ht)].
    + eexists. split; [exists r; split; [done|reflexivity]|]. by rw bool_decide_eq_true_2.
    + exists r0. split; [exists r0; split; [done|]|done]. rw bool_decide_eq_false_2 //. intros ->. apply Hne. congruence.
  - intros (r' & (r0 & Hr0 & ->) & Hid & Ht). case_bool_decide as Hj.
    + left. subst j. cbn in Hid. split; [congruence|done].
    + right. split; [|by exists r0]. intros Heq. apply Hj. eapply same_id; [done|exact Hr0|exact Hk|congruence].
Qed.
Lemma exact_reap k r w s :
  exact s → NoDup (xr_id <$> x_runs s) → x_runs s !! k = Some r →
  exact (set_phase (RRemoved w) k s <| x_table := delete (xr_id r) (x_table s) |> <| x_cancel := delete (xr_id r) (x_cancel s) |>).
Proof.
  intros [E1 E2] Hn Hk. split; [cbn; by rw E1|]. intros id j. cbn [x_table set_field].
  change (x_runs _) with (x_runs (set_phase (RRemoved w) k s)).
  setoid_rewrite run_set_phase. rw lookup_delete_Some E2. split.
  - intros (Hne & r0 & Hr0 & Hid & Ht). exists r0. split; [exists r0; split; [done|]|done].
    rw bool_decide_eq_false_2 //. intros ->. apply Hne. congruence.
  - intros (r' & (r0 & Hr0 & ->) & Hid & Ht). case_bool_decide as Hj; [done|].
    split; [|by exists r0]. intros Heq. apply Hj. eapply same_id; [done|exact Hr0|exact Hk|congruence].
Qed.

Definition tool_inv (ls : list xlabel) (s : xsys) : Prop :=
  (xr_id <$> x_runs s) `sublist_of` start_ids ls ∧ (NoDup (start_ids ls) → exact s).
Lemma start_ids_snoc ls l :
  start_ids (ls ++ [l]) = start_ids ls ++ match l with XStart req _ => [TrimSpace (tq_run req)] | _ => [] end.
Proof. unfold start_ids. rw bind_app /=. by rw app_nil_r. Qed.
(** A step that starts no run and keeps the ids. *)
Lemma tool_inv_keep ls l s s' :
  tool_inv ls s → match l with XStart _ _ => False | _ => True end → xr_id <$> x_runs s' = xr_id <$> x_runs s →
  (NoDup (xr_id <$> x_runs s) → exact s → exact s') → tool_inv (ls ++ [l]) s'.
Proof.
  intros [J1 J2] Hl Hid He. assert (start_ids (ls ++ [l]) = start_ids ls) as Hs.
  { rw start_ids_snoc. destruct l; [done|apply app_nil_r..]. }
  split; rw Hs ?Hid //. intros Hn. apply He; [|auto]. by eapply sublist_NoDup.
Qed.
Lemma ids_skel s s' : skel <$> x_runs s' = skel <$> x_runs s → xr_id <$> x_runs s' = xr_id <$> x_runs s.
Proof.
  intros Hs. apply list_eq. intros i. rw !list_lookup_fmap. pose proof (f_equal (.!! i) Hs) as Hi.
  rw !list_lookup_fmap in Hi. unfold skel in Hi. destruct (x_runs s' !! i), (x_runs s !! i); cbn in *; congruence.
Qed.
Lemma ids_alter (f : toolRun → toolRun) k (l : list toolRun) :
  (∀ r, xr_id (f r) = xr_id r) → xr_id <$> alter f k l = xr_id <$> l.
Proof.
  intros Hf. apply list_eq. intros i. rw !list_lookup_fmap. destruct (decide (k = i)) as [-> | Hne].
  - rw list_lookup_alter_eq. destruct (l !! i) as [r|]; [|done]. cbn. by rw Hf.
  - by rw list_lookup_alter_ne.
Qed.
Lemma exact_phase ph k r s :
  exact s → x_runs s !! k = Some r → tabled ph = tabled (xr_phase r) → exact (set_phase ph k s).
Proof.
  intros E Hk Ht. apply (exact_same s); try done. apply ykey_alter. intros r'. rw Hk. intros [= <-]. unfold ykey. cbn. by rw Ht.
Qed.
Lemma exact_upd f k s : exact s → (∀ r, ykey (f r) = ykey r) → exact (upd_run f k s).
Proof. intros E Hf. apply (exact_same s); try done. by apply ykey_alter. Qed.
Lemma exact_stop id s : exact s → exact (Stop id s).
Proof.
  intros E. unfold Stop. destruct (String.eqb _ _); [done|]. destruct (x_table s !! _) as [k|]; [|done].
  apply (exact_same (upd_run (λ r, r <| xr_interrupts := S (xr_interrupts r) |>) k s)); try done. by apply exact_upd.
Qed.
Lemma tool_inv_start ls req sp s : tool_inv ls s → tool_inv (ls ++ [XStart req sp]) (Start_spawn req sp s).
Proof.
  intros [J1 J2]. unfold tool_inv. rw start_ids_snoc.
  assert (NoDup (start_ids ls ++ [TrimSpace (tq_run req)]) → exact s) as He.
  { intros Hn. apply J2. by eapply NoDup_app in Hn as (Hn & _). }
  assert ((xr_id <$> x_runs s) `sublist_of` start_ids ls ++ [TrimSpace (tq_run req)]) as Hs by by apply sublist_inserts_r.
  unfold Start_spawn. destruct (String.eqb _ _); [done|]. destruct (String.eqb _ _); [done|].
  destruct sp as [pid|e]; [|done]. split.
  - cbn. rw fmap_app. by apply sublist_app.
  - intros Hn. destruct (He Hn) as [E1 E2]. split; [done|]. intros id k. cbn [x_runs x_table set_field]. rw E2.
    split; intros (r & Hr & Hid & Ht); exists r; (split; [|done]).
    + by apply lookup_app_l_Some.
    + apply lookup_app_Some in Hr as [Hr|[_ Hr]]; [done|].
      apply list_lookup_singleton_Some in Hr as [_ <-]. done.
Qed.
Lemma tool_inv_start_step ls k r s s' :
  tool_inv ls s → x_runs s !! k = Some r → Start_step k r s = Some s' → tool_inv (ls ++ [XStartStep k]) s'.
Proof.
  intros J Hk Hs. unfold Start_step in Hs. destruct (xr_phase r) eqn:Ep; try done; injection Hs as <-.
  - unfold Start_lookup. destruct (x_cancel s !! xr_id r) as [old|] eqn:Eo.
    + apply (tool_inv_keep ls _ s); [done|done|by apply ids_alter|]. intros _ E. eapply exact_phase; [done|done|by rw Ep].
    + apply (tool_inv_keep ls _ s); [done|done|by apply ids_alter|]. intros Hn E. by apply exact_register.
  - apply (tool_inv_keep ls _ s); [done|done|cbn; by rw !ids_alter|]. intros _ E.
    set (s1 := upd_run (λ r, r <| xr_cancelled := true |>) old s).
    assert (∃ r1, x_runs s1 !! k = Some r1 ∧ xr_phase r1 = RReplacing old) as (r1 & Hr1 & Ep1).
    { cbn. destruct (decide (old = k)) as [-> | Hne]; [rw list_lookup_alter_eq Hk|rw list_lookup_alter_ne // Hk]; by eexists. }
    eapply exact_phase; [by apply exact_upd|exact Hr1|by rw Ep1].
  - apply (tool_inv_keep ls _ s); [done|done|by apply ids_alter|]. intros Hn E. by apply exact_register.
  - apply (tool_inv_keep ls _ s); [done|done|by apply ids_alter|]. intros _ E.
    apply (exact_same (set_phase RRunning k s)); try done. eapply exact_phase; [done|done|by rw Ep].
Qed.
Lemma tool_inv_step ls s l s' : tool_inv ls s → xstep s l = Some s' → tool_inv (ls ++ [l]) s'.
Proof.
  intros J Hs. destruct l as [req sp|k|k err data eof|k w|k|id|i| |i]; cbn [xstep] in Hs.
  - injection Hs as <-. by apply tool_inv_start.
  - destruct (x_runs s !! k) as [r|] eqn:E; [|done]. by eapply tool_inv_start_step.
  - destruct (x_runs s !! k) as [r|] eqn:Er; [|done]. cbn in Hs. unfold pump in Hs.
    destruct (xr_phase r); try done. destruct (_ || _); [done|]. injection Hs as <-.
    assert (∀ r, ykey (if err then r <| xr_err := true |> else r <| xr_out := true |>) = ykey r) as Hy by by destruct err.
    apply (tool_inv_keep ls _ s); [done|done| |].
    + destruct eof; [|by destruct (String.eqb data "")]. cbn [upd_run x_runs set_field].
      rw ids_alter; [|by destruct err]. by destruct (String.eqb data "").
    + intros _ E. destruct eof, (String.eqb data ""); try (apply exact_upd; [|done]); by apply (exact_same s).
  - destruct (x_runs s !! k) as [r|] eqn:Er; [|done]. cbn in Hs. unfold wait in Hs.
    destruct (xr_phase r) eqn:Ep; try done. destruct (_ && _); [|done]. injection Hs as <-.
    apply (tool_inv_keep ls _ s); [done|done|cbn; by rw !ids_alter|]. intros _ E.
    eapply exact_phase; [by apply exact_upd|cbn; by rw list_lookup_alter_eq Er|cbn; by rw Ep].
  - destruct (x_runs s !! k) as [r|] eqn:Er; [|done]. cbn in Hs. unfold reap in Hs. destruct (xr_phase r) as [| | | | |w|w|] eqn:Ep; try done.
    + injection Hs as <-. apply (tool_inv_keep ls _ s); [done|done|by apply ids_alter|]. intros Hn E. by apply exact_reap.
    + destruct (exit_of w). injection Hs as <-. apply (tool_inv_keep ls _ s); [done|done|by apply ids_alter|]. intros _ E.
      apply (exact_same (set_phase RDone k s)); try done. eapply exact_phase; [done|done|by rw Ep].
  - injection Hs as <-. apply (tool_inv_keep ls _ s); [done|done|apply ids_skel, skel_stop|]. intros _ E. by apply exact_stop.
  - destruct (x_timers s !! i) as [k|]; [|done]. injection Hs as <-.
    apply (tool_inv_keep ls _ s); [done|done|by apply ids_alter|]. intros _ E. apply exact_upd; [|done]. by apply (exact_same s).
  - injection Hs as <-. by apply (tool_inv_keep ls _ s).
  - destruct (x_stopping s !! i) as [[|id ids]|]; [done| |done]. injection Hs as <-.
    apply (tool_inv_keep ls _ s); [done|done| |].
    + apply ids_skel. exact (proj1 (skel_stop id (s <| x_stopping := <[i := ids]> (x_stopping s) |>))).
    + intros _ E. apply exact_stop. by apply (exact_same s).
Qed.

(** When every start carries a run id of its own, the table holds exactly
    the runs that were registered and whose process has not been reaped, so
    the heartbeat reports exactly those, and a stop of any of them interrupts
    its process and arms the timer that kills it. *)
Theorem tool_table_exact ls s :
  xrun xinit ls s → NoDup (start_ids ls) →
  (∀ id k, x_table s !! id = Some k ↔
     ∃ r, x_runs s !! k = Some r ∧ xr_id r = id ∧ tabled (xr_phase r) = true) ∧
  (∀ x, x ∈ ActiveRuns s ↔ ∃ k r, x_runs s !! k = Some r ∧ tabled (xr_phase r) = true ∧ x = (xr_id r, xr_revision r, xr_pid r)) ∧
  (∀ k r id, x_runs s !! k = Some r → tabled (xr_phase r) = true → TrimSpace id = xr_id r → xr_id r ≠ "" →
     x_timers (Stop id s) = x_timers s ++ [k] ∧
     xr_interrupts <$> x_runs (Stop id s) !! k = Some (S (xr_interrupts r))).
Proof.
  intros Hr Hn. assert (tool_inv ls s) as [_ He].
  { apply (trace_run_history (fun_step xstep) tool_inv) with (pre := []) (s := xinit); [|split|exact Hr].
    - intros pre s0 l s1. apply tool_inv_step.
    - by apply sublist_nil_l.
    - intros _. split; [done|]. intros id k. split; [done|]. by intros (r & Hr0 & _). }
  destruct (He Hn) as [_ E]. split_and!; [done| |].
  - intros x. unfold ActiveRuns. rw list_elem_of_omap. split.
    + intros ([id k] & Hin & Hx). apply elem_of_map_range, E in Hin as (r & Hr0 & Hid & Ht). rw Hr0 /= in Hx.
      injection Hx as <-. exists k, r. by rw Hid.
    + intros (k & r & Hr0 & Ht & ->). exists (xr_id r, k). split; [apply elem_of_map_range, E; by exists r|]. by rw Hr0.
  - intros k r id Hr0 Ht Hid Hne. unfold Stop. rw Hid. apply String.eqb_neq in Hne. rw Hne.
    assert (x_table s !! xr_id r = Some k) as -> by (apply E; by exists r).
    split; [done|]. cbn. by rw list_lookup_alter_eq Hr0.
Qed.
End steps.

(** ** Evaluated runs *)
Definition frpc (rev : Z) : toolReq := mkToolReq "tunnel-1" "/opt/frpc" ["-c"; "frpc.ini"] "" ∅ 0 rev.
Definition launch (rev pid : Z) (k : nat) : list xlabel := [XStart (frpc rev) (Ok pid); XStartStep k; XStartStep k].
Definition demo_tool : list xlabel :=
  launch 1 100 0 ++ [XRead 0 false "up" false; XRead 0 true "warn" true; XStop "tunnel-1"; XRead 0 false "" true; XTimer 0;
   XWait 0 (WaitExit 2); XReap 0].
Definition demo_tool_state : xsys := default xinit (exec xstep xinit demo_tool).
Lemma demo_tool_run : xrun xinit demo_tool demo_tool_state.
Proof. apply exec_run. vm_compute. reflexivity. Qed.
Definition demo_tool_last : toolRun :=
  mkRun "tunnel-1" 1 100 defaultToolRunChunk (RRemoved (WaitExit 2)) true true true 1 1.
Lemma tool_run_stream_witness :
  x_runs demo_tool_state !! 0 = Some demo_tool_last ∧ written 0 false demo_tool = "up" ∧
  written 0 true demo_tool = "warn" ∧
  stream_ok demo_tool_last (written 0 false demo_tool) (written 0 true demo_tool) (events_of 0 demo_tool_state).
Proof.
  assert (x_runs demo_tool_state !! 0 = Some demo_tool_last) as Hr by (vm_compute; reflexivity).
  split; [exact Hr|]. split; [vm_compute; reflexivity|]. split; [vm_compute; reflexivity|].
  exact (tool_run_stream demo_tool demo_tool_state 0 demo_tool_last demo_tool_run Hr).
Defined.
Definition demo_live : xsys := default xinit (exec xstep xinit (launch 7 100 0)).
Definition demo_live_run : toolRun := mkRun "tunnel-1" 7 100 defaultToolRunChunk RRunning false false false 0 0.
Lemma tool_table_exact_witness :
  ActiveRuns demo_live = [("tunnel-1", 7%Z, 100%Z)] ∧ x_timers (Stop " tunnel-1" demo_live) = x_timers demo_live ++ [0].
Proof.
  assert (x_runs demo_live !! 0 = Some demo_live_run) as Hr by (vm_compute; reflexivity).
  assert (TrimSpace " tunnel-1" = xr_id demo_live_run) as Ht by (vm_compute; reflexivity).
  split; [vm_compute; reflexivity|].
  destruct (tool_table_exact (launch 7 100 0) demo_live) as (_ & _ & H).
  - apply exec_run. vm_compute. reflexivity.
  - assert (start_ids (launch 7 100 0) = ["tunnel-1"]) as -> by (vm_compute; reflexivity). apply NoDup_singleton.
  - destruct (H 0 demo_live_run " tunnel-1" Hr eq_refl Ht) as [Hx _]; [done|exact Hx].
Defined.

(** Starting a run id again cancels the old process, but when that one
    is reaped its waiter deletes the id from the tables whoever holds it: the
    new process keeps running while no heartbeat reports it and no stop, nor
    StopAll, reaches it. *)
Theorem tool_duplicate_orphans :
  ∃ s r, xrun xinit
    (launch 1 100 0 ++ [XStart (frpc 2) (Ok 200%Z); XStartStep 1; XStartStep 1; XStartStep 1; XStartStep 1;
     XRead 0 false "" true; XRead 0 true "" true; XWait 0 (WaitExit (-1)); XReap 0; XReap 0]) s ∧
    x_runs s !! 1 = Some r ∧ xr_phase r = RRunning ∧ xr_pid r = 200%Z ∧ xr_cancelled r = false ∧
    ActiveRuns s = [] ∧ (∀ id, Stop id s = s) ∧ x_stopping (StopAll s) = x_stopping s ++ [[]].
Proof.
  eexists _, _. split; [apply exec_run; vm_compute; reflexivity|].
  split; [vm_compute; reflexivity|]. split_and!; try reflexivity.
  intros id. unfold Stop. by destruct (String.eqb _ _).
Qed.
