(* ===== verification/LocalState.v ===== *)
(** * LocalState: the node's own configuration and the host-wide lock
    (common/agent/localconfig.go, localstate.go, lock_owner.go, configio.go)

    Which credentials a start uses and whether they may be stored
    ([ResolveLocalConfig]), and how a process becomes the one node of its host
    ([AcquireInstance]), as functions of what the host answers.  The latter
    lists the operations it performs, in order. *)
From S2P Require Import Prelude GoStrings GoPath.
From Stdlib Require Import Ascii.

(** ** configio.go: where the state lives *)
(** [env] is the override variable; os.UserConfigDir and os.UserHomeDir fail as [None] *)
Definition ResolveStateDir (env : string) (configDir home : option string) (subdir : string) : option string :=
  if negb (String.eqb (TrimSpace env) "") then Some (TrimSpace env)
  else
    let base :=
      match configDir with
      | Some d => if negb (String.eqb (TrimSpace d) "") then Some d else None
      | None => None
      end in
    let base :=
      match base with
      | Some d => Some d
      | None => h ← home; if String.eqb (TrimSpace h) "" then None else Some (Join [h; ".config"])
      end in
    d ← base;
    Some (Join ([d; "agent-compose"] ++ (if String.eqb (TrimSpace subdir) "" then [] else [TrimSpace subdir]))).

(** ** LocalConfig *)
Record LocalConfig := mkLocal {
  lc_server : string; lc_nodeID : string; lc_secret : string; lc_role : string; lc_nodeName : string;
  lc_workRoot : string; lc_providers : string; lc_agentImage : string; lc_executionBin : string;
  lc_labels : string; lc_tlsInsecure : bool
}.
#[export] Instance eta_LocalConfig : Settable LocalConfig := λ c,
  mkLocal (lc_server c) (lc_nodeID c) (lc_secret c) (lc_role c) (lc_nodeName c) (lc_workRoot c) (lc_providers c)
    (lc_agentImage c) (lc_executionBin c) (lc_labels c) (lc_tlsInsecure c).
#[export] Instance LocalConfig_eq_dec : EqDecision LocalConfig.
Proof. solve_decision. Defined.

Definition trim_server (s : string) : string := TrimRightChar "/" (TrimSpace s).
Definition SameCredentials (c : option LocalConfig) (server nodeID secret role : string) : bool :=
  match c with
  | None => false
  | Some c => String.eqb (lc_server c) (trim_server server) && String.eqb (lc_nodeID c) (TrimSpace nodeID) &&
              String.eqb (lc_secret c) (TrimSpace secret) && String.eqb (lc_role c) (TrimSpace role)
  end.
Definition Describe (c : option LocalConfig) : string :=
  match c with
  | None => "(none)"
  | Some c =>
      let name := if String.eqb (lc_nodeName c) "" then "-" else lc_nodeName c in
      "node_id=" +:+ lc_nodeID c +:+ " role=" +:+ lc_role c +:+ " name=" +:+ name +:+ " server=" +:+ lc_server c
  end.

(** ** ResolveLocalConfig *)
Record InstallOptions := mkInstall {
  io_install : bool; io_assumeYes : bool;
  io_terminal : bool;                    (** inputIsTerminal(In) *)
  io_line : result string                (** what the prompt reads; EOF is not an error *)
}.
Record ResolvedConfig := mkResolved { rc_config : LocalConfig; rc_persist : bool; rc_rebind : bool }.
Definition or_else (a b : string) : string := if String.eqb a "" then b else a.
Definition mergeLocalExtras (dst src : LocalConfig) : LocalConfig :=
  dst <| lc_nodeName := or_else (lc_nodeName dst) (lc_nodeName src) |>
      <| lc_workRoot := or_else (lc_workRoot dst) (lc_workRoot src) |>
      <| lc_providers := or_else (lc_providers dst) (lc_providers src) |>
      <| lc_agentImage := or_else (lc_agentImage dst) (lc_agentImage src) |>
      <| lc_executionBin := or_else (lc_executionBin dst) (lc_executionBin src) |>
      <| lc_labels := or_else (lc_labels dst) (lc_labels src) |>.
Definition ErrInstallCancelled : string := "node install cancelled".
Definition confirmRebind (opt : InstallOptions) : result bool :=
  if io_assumeYes opt then Ok true
  else if negb (io_terminal opt) then
    Err "existing node data found; interactive confirmation is required (or pass --yes with --install for approved automation)"
  else match io_line opt with
  | Err e => Err e
  | Ok line => Ok (existsb (String.eqb (ToLower (TrimSpace line))) ["y"; "yes"])
  end.
Definition trim_candidate (c : LocalConfig) : LocalConfig :=
  c <| lc_server := trim_server (lc_server c) |> <| lc_nodeID := TrimSpace (lc_nodeID c) |>
    <| lc_secret := TrimSpace (lc_secret c) |> <| lc_role := TrimSpace (lc_role c) |>.
(** [loaded] is LoadLocalConfig's answer: an error, no file, or the configuration *)
Definition ResolveLocalConfig (loaded : result (option LocalConfig)) (candidate : LocalConfig) (opt : InstallOptions)
  : result ResolvedConfig :=
  match loaded with
  | Err e => Err e
  | Ok old =>
      let c := trim_candidate candidate in
      let install := io_install opt || io_assumeYes opt in
      let no s := String.eqb s "" in
      if no (lc_server c) && no (lc_nodeID c) && no (lc_secret c) then
        match old with
        | None => Err "node is not installed on this machine; run the installer once with --install --server ... --node-id ... --secret ..."
        | Some o =>
            if negb (no (lc_role c)) && negb (String.eqb (lc_role o) (lc_role c))
            then Err ("this machine is installed as a " +:+ lc_role o +:+ " node; start the " +:+ lc_role o +:+ " node binary instead")
            else Ok (mkResolved o false false)
        end
      else if no (lc_server c) || no (lc_nodeID c) || no (lc_secret c)
      then Err "--server, --node-id and --secret must be supplied together"
      else
        match old with
        | None => Ok (mkResolved c install false)
        | Some o =>
            if SameCredentials old (lc_server c) (lc_nodeID c) (lc_secret c) (lc_role c)
            then Ok (mkResolved (mergeLocalExtras c o) install false)
            else if negb install then
              Err ("supplied credentials differ from the node installed here (" +:+ Describe old +:+ "); rerun with --install to replace it")
            else match confirmRebind opt with
            | Err e => Err e
            | Ok false => Err ErrInstallCancelled
            | Ok true => Ok (mkResolved c true true)
            end
        end
  end.

(** ** The host-wide lock *)
Record ownerInfo := mkOwner { ow_pid : Z; ow_executable : string }.
Definition noOwner : ownerInfo := mkOwner 0 "".
Record lock_host := mkLockHost {
  lk_try : nat → result bool;          (** the n-th tryPlatformLock: held? *)
  lk_write : nat → option string;      (** writeOwner after the n-th try *)
  lk_owner : result ownerInfo;         (** readOwner *)
  lk_alive : Z → bool;
  lk_path : Z → option string;         (** the process image, where available *)
  lk_cwd : option string;              (** os.Getwd *)
  lk_stop : option string;             (** stopProcess *)
  lk_now : nat → Z                     (** the clock at each look, in nanoseconds *)
}.
Definition Abs (cwd : option string) (p : string) : option string :=
  if IsAbs p then Some (Clean p) else d ← cwd; Some (Join [d; p]).
Definition known_names : list string :=
  ["node-execution"; "agent-compose-node-execution"; "agent-compose-node-management"; "node-ios"].
Definition trustedOwner (h : lock_host) (info : ownerInfo) : bool :=
  if (ow_pid info <=? 0)%Z || String.eqb (TrimSpace (ow_executable info)) "" then false
  else
    let base := ToLower (Base (ow_executable info)) in
    if negb (existsb (HasPrefix base) known_names) || negb (lk_alive h (ow_pid info)) then false
    else match lk_path h (ow_pid info) with
    | None => true
    | Some actual =>
        match Abs (lk_cwd h) (ow_executable info), Abs (lk_cwd h) actual with
        | Some recorded, Some actualAbs => EqualFold recorded actualAbs
        | _, _ => false
        end
    end.

Inductive lock_op := OTryLock (held : bool) | OWriteOwner (ok : bool) | ORelease | OStop (pid : Z).
Definition ErrAlreadyRunning : string := "an Agent Compose node is already running on this machine".
(** one try: [Some r] ends the call *)
Definition try_once (h : lock_host) (n : nat) : list lock_op * option (result ()) :=
  match lk_try h n with
  | Err e => ([], Some (Err e))
  | Ok false => ([OTryLock false], None)
  | Ok true =>
      match lk_write h n with
      | Some e => ([OTryLock true; OWriteOwner false; ORelease], Some (Err e))
      | None => ([OTryLock true; OWriteOwner true], Some (Ok ()))
      end
  end.
Definition lock_wait : Z := 10 * 10 ^ 9.       (** 10 * time.Second *)
Definition lock_poll : Z := 100 * 10 ^ 6.      (** 100 * time.Millisecond *)
(** the loop [for time.Now().Before(deadline)]; [None] is fuel run out *)
Fixpoint retry_lock (h : lock_host) (fuel n : nat) (deadline pid : Z) : option (list lock_op * result ()) :=
  match fuel with
  | O => None
  | S fuel =>
      if negb (lk_now h n <? deadline)%Z then
        Some ([], Err ("old node pid " +:+ itoa (Z.to_N pid) +:+ " did not release the host lock"))
      else
        match try_once h n with
        | (ops, Some r) => Some (ops, r)
        | (ops, None) => '(ops', r) ← retry_lock h fuel (S n) deadline pid; Some (ops ++ ops', r)
        end
  end.
Definition retry_fuel : nat := 101.
Definition AcquireInstance (h : lock_host) (replace : bool) : option (list lock_op * result ()) :=
  match try_once h 0 with
  | (ops, Some r) => Some (ops, r)
  | (ops, None) =>
      if negb replace then Some (ops, Err ErrAlreadyRunning)
      else
        let owner := match lk_owner h with Ok o => o | Err _ => noOwner end in
        if negb (trustedOwner h owner) then
          Some (ops, Err "another node holds the host lock but its process could not be verified; stop it manually before rebinding")
        else match lk_stop h with
        | Some e => Some (ops ++ [OStop (ow_pid owner)], Err ("stop old node: " +:+ e))
        | None =>
            '(ops', r) ← retry_lock h retry_fuel 1 (lk_now h 0 + lock_wait)%Z (ow_pid owner);
            Some (ops ++ [OStop (ow_pid owner)] ++ ops', r)
        end
  end.
(** Instance.Close: removeOwner and release, once *)
Definition instance_close (closed : bool) : list lock_op := if closed then [] else [ORelease].

(** ** Properties *)
(** The sleep of 100 ms between two looks at the clock. *)
Definition clock_law (h : lock_host) : Prop := ∀ n, (lk_now h n + lock_poll ≤ lk_now h (S n))%Z.
(** Tries that got the lock, minus releases. *)
Definition holding (ops : list lock_op) : Z :=
  foldr (λ o n, (n + match o with OTryLock true => 1 | ORelease => -1 | _ => 0 end)%Z) 0%Z ops.
Lemma holding_app a b : holding (a ++ b) = (holding a + holding b)%Z.
Proof. unfold holding. induction a as [|o a IH]; cbn; [done|]. rw IH. lia. Qed.
Definition holds_iff (ops : list lock_op) (r : result ()) : Prop :=
  match r with
  | Ok _ => holding ops = 1%Z ∧ last ops = Some (OWriteOwner true)
  | Err _ => holding ops = 0%Z
  end.
Definition stops (ops : list lock_op) : list Z := omap (λ o, match o with OStop p => Some p | _ => None end) ops.

Lemma clock_advance h n : clock_law h → (lk_now h 0 + Z.of_nat n * lock_poll ≤ lk_now h n)%Z.
Proof.
  intros Hc. induction n as [|n IH]; [lia|]. specialize (Hc n). unfold lock_poll in *. lia.
Qed.
Lemma try_once_spec h n ops r :
  try_once h n = (ops, r) →
  stops ops = [] ∧ match r with Some r => holds_iff ops r | None => holding ops = 0%Z end.
Proof.
  unfold try_once. destruct (lk_try h n) as [[]|]; [destruct (lk_write h n)|..]; intros [= <- <-]; done.
Qed.
Lemma retry_lock_spec h fuel n pid :
  clock_law h → 0 < fuel → 101 ≤ fuel + n →
  ∃ ops r, retry_lock h fuel (S n) (lk_now h 0 + lock_wait) pid = Some (ops, r) ∧ stops ops = [] ∧ holds_iff ops r.
Proof.
  intros Hc. revert n. induction fuel as [|fuel IH]; intros n Hf Hn; [lia|].
  cbn [retry_lock]. destruct (lk_now h (S n) <? lk_now h 0 + lock_wait)%Z eqn:Et; cbn [negb]; [|by eexists _, _].
  go_bool. pose proof (clock_advance h (S n) Hc) as Ha. unfold lock_wait, lock_poll in Et, Ha.
  destruct (try_once h (S n)) as [ops r] eqn:Eo. destruct (try_once_spec _ _ _ _ Eo) as [Hs Hh].
  destruct r as [r|]; [by eexists _, _|].
  destruct (IH (S n)) as (ops' & r' & Hr & Hs' & Hh'); [lia|lia|].
  rw Hr. cbn. eexists _, _. split; [reflexivity|]. split.
  - unfold stops in *. by rw omap_app Hs Hs'.
  - destruct r'; cbn in *; rw holding_app Hh; [|lia].
    destruct Hh' as [H1 H2]. split; [lia|]. rw last_app H2. done.
Qed.

(** Acquiring the host lock always comes to an end, within the ten
    seconds it waits for an old node; it succeeds holding the lock exactly
    once with its owner record just written, and fails holding nothing; and a
    process is stopped at most once, only when replacing was asked for, the
    lock was busy, and the recorded owner is alive under one of the node's
    program names (and, where the host shows it, the same program file). *)
Theorem acquire_lock_outcome h replace :
  clock_law h →
  ∃ ops r, AcquireInstance h replace = Some (ops, r) ∧ holds_iff ops r ∧
    (stops ops = [] ∨
     ∃ owner, stops ops = [ow_pid owner] ∧ replace = true ∧ lk_try h 0 = Ok false ∧ lk_owner h = Ok owner ∧
       trustedOwner h owner = true ∧ (0 < ow_pid owner)%Z ∧ lk_alive h (ow_pid owner) = true).
Proof.
  intros Hc. unfold AcquireInstance. destruct (try_once h 0) as [ops r] eqn:Eo.
  destruct (try_once_spec _ _ _ _ Eo) as [Hs Hh].
  destruct r as [r|]; [exists ops, r; auto|]. destruct replace; cbn [negb]; [|eexists _, _; split; [reflexivity|]; auto].
  destruct (trustedOwner h _) eqn:Et; cbn [negb]; [|eexists _, _; split; [reflexivity|]; auto].
  assert (∃ owner, lk_owner h = Ok owner ∧ (0 < ow_pid owner)%Z ∧ lk_alive h (ow_pid owner) = true) as (owner & Ho & Hp & Ha).
  { destruct (lk_owner h) as [o|]; [|done]. exists o. unfold trustedOwner in Et.
    destruct (ow_pid o <=? 0)%Z eqn:Ep; [done|]. go_bool. cbn in Et. destruct (lk_alive h (ow_pid o)); [done|].
    by rw orb_true_r in Et; destruct (String.eqb _ _). }
  rw Ho in Et *.
  assert (lk_try h 0 = Ok false) as Ht.
  { unfold try_once in Eo. destruct (lk_try h 0) as [[]|]; [destruct (lk_write h 0)| |]; done. }
  assert (∀ ops', stops ops' = [] → stops (ops ++ [OStop (ow_pid owner)] ++ ops') = [ow_pid owner]) as Hst.
  { intros ops' Ho'. unfold stops in *. by rw !omap_app Hs Ho'. }
  destruct (lk_stop h) as [e|].
  - eexists _, _. split; [reflexivity|]. cbn. rw holding_app Hh. split; [done|]. right. exists owner.
    specialize (Hst [] eq_refl). by rw app_nil_r in Hst.
  - destruct (retry_lock_spec h retry_fuel 0 (ow_pid owner) Hc) as (ops' & r & Hr & Hs' & Hh'); [unfold retry_fuel; lia..|].
    rw Hr. cbn [mbind option_bind]. eexists _, _. split; [reflexivity|]. split.
    + rw app_assoc. destruct r; cbn [holds_iff] in *; rw !holding_app Hh.
      * destruct Hh' as [H1 H2]. split; [cbn; lia|]. rw last_app H2. done.
      * cbn. lia.
    + right. exists owner. split_and!; auto.
Qed.
Definition busy_host : lock_host :=
  mkLockHost (λ n, Ok (n =? 3)) (λ _, None) (Ok (mkOwner 42 "/opt/node-execution")) (λ _, true)
    (λ _, Some "/opt/Node-Execution") (Some "/root") None (λ n, (Z.of_nat n * lock_poll)%Z).
Lemma acquire_lock_outcome_witness :
  ∃ ops, AcquireInstance busy_host true = Some (ops, Ok ()) ∧ stops ops = [42%Z] ∧ holding ops = 1%Z.
Proof.
  destruct (acquire_lock_outcome busy_host true) as (ops & r & Ha & Hh & _).
  - intros n. cbn. unfold lock_poll. lia.
  - assert (r = Ok ()) as -> by (vm_compute in Ha; injection Ha as _ <-; reflexivity).
    exists ops. split; [exact Ha|]. split; [|exact (proj1 Hh)].
    vm_compute in Ha. injection Ha as <-. reflexivity.
Defined.

(** *** Credentials *)
Definition same_node (old c : LocalConfig) : bool :=
  SameCredentials (Some old) (lc_server c) (lc_nodeID c) (lc_secret c) (lc_role c).
(** The operator's consent to replace an installed node. *)
Definition consent (opt : InstallOptions) : Prop :=
  io_assumeYes opt = true ∨
  (io_install opt = true ∧ io_terminal opt = true ∧
   ∃ line, io_line opt = Ok line ∧ ToLower (TrimSpace line) ∈ ["y"; "yes"]).

Lemma existsb_In x l : existsb (String.eqb x) l = true → x ∈ l.
Proof. intros (y & Hy & Hx)%existsb_exists. apply String.eqb_eq in Hx as ->. by apply list_elem_of_In. Qed.
(** What a start with the installed configuration [old] may do: without
    credentials it runs the stored configuration as it is and stores nothing;
    with other credentials than the stored ones it succeeds only as an
    approved rebind, which stores exactly the new ones; with the same ones it
    keeps them, whoever answers; and it stores something only when installing. *)
Theorem resolve_config_decision old c opt r :
  ResolveLocalConfig (Ok (Some old)) c opt = Ok r →
  (rc_persist r = true → io_install opt || io_assumeYes opt = true) ∧
  (rc_rebind r = true → consent opt ∧ rc_persist r = true ∧ rc_config r = trim_candidate c ∧
     same_node old (trim_candidate c) = false) ∧
  (rc_rebind r = false → rc_config r = old ∨ same_node old (rc_config r) = true) ∧
  (trim_server (lc_server c) = "" → r = mkResolved old false false).
Proof.
  unfold ResolveLocalConfig. cbv zeta. set (c1 := trim_candidate c).
  assert (lc_server c1 = trim_server (lc_server c)) as Hsv by done.
  destruct (String.eqb (lc_server c1) "") eqn:E1, (String.eqb (lc_nodeID c1) "") eqn:E2, (String.eqb (lc_secret c1) "") eqn:E3;
    cbn [andb orb]; try done.
  - destruct (negb _ && negb _); [done|]. intros [= <-]. cbn [rc_persist rc_rebind rc_config]. split_and!; try done. by left.
  - go_bool. destruct (SameCredentials (Some old) _ _ _ _) eqn:Es.
    + intros [= <-]. cbn [rc_persist rc_rebind rc_config]. split_and!; [done|done| |by rw -Hsv].
      intros _. by right.
    + destruct (io_install opt || io_assumeYes opt) eqn:Ei; cbn [negb]; [|done].
      destruct (confirmRebind opt) as [[]|] eqn:Ec; try done. intros [= <-]. cbn [rc_persist rc_rebind rc_config].
      split_and!; [done| |done|by rw -Hsv].
      intros _. split_and!; [|done|done|].
      * unfold confirmRebind in Ec. destruct (io_assumeYes opt) eqn:Ey; [by left|right].
        destruct (io_terminal opt); [|done]. cbn in Ec. destruct (io_line opt) as [line|] eqn:El; [|done].
        split_and!; [by rw orb_false_r in Ei|done|]. exists line. split; [done|]. injection Ec as Ec. by apply existsb_In.
      * done.
Qed.

Definition installed : LocalConfig := mkLocal "https://a" "n1" "s1" "execution" "box" "/w" "" "" "" "gpu=1" true.
Definition other : LocalConfig := mkLocal " https://b/ " "n2" "s2" "execution" "" "" "" "" "" "" false.
Definition asked (line : string) : InstallOptions := mkInstall true false true (Ok line).
Lemma resolve_config_decision_witness :
  ∃ r, ResolveLocalConfig (Ok (Some installed)) other (asked " Yes ") = Ok r ∧ rc_rebind r = true ∧
    consent (asked " Yes ") ∧ lc_server (rc_config r) = "https://b".
Proof.
  eexists. split; [vm_compute; reflexivity|]. split; [reflexivity|].
  destruct (resolve_config_decision installed other (asked " Yes ") _ eq_refl) as (_ & H & _).
  split; [exact (proj1 (H eq_refl))|vm_compute; reflexivity].
Defined.

(** Repeating the installation with the same credentials keeps the stored
    extras that are not given again, except one: the TLS flag is not among
    the merged fields, so it is cleared. *)
Lemma reinstall_clears_tls_flag :
  ∃ r, ResolveLocalConfig (Ok (Some installed)) (installed <| lc_labels := "" |> <| lc_tlsInsecure := false |>)
         (mkInstall true false false (Err "")) = Ok r ∧ rc_persist r = true ∧
    lc_labels (rc_config r) = lc_labels installed ∧ lc_tlsInsecure (rc_config r) = false ∧ lc_tlsInsecure installed = true.
Proof. eexists. vm_compute. done. Qed.
