(* ===== verification/XcodeJob.v ===== *)
(** * XcodeJob: installing Xcode (common/agent/xcodejob.go)

    The pipeline of one job is written in a small state and early-return
    monad: [M A] threads the frames emitted, the commands run, the number of
    downloads and the directories made and removed, and a [Halt] is a
    [return] from the middle of [runJob].  What the host answers is the
    argument [xhost].  Progress messages are kept as templates with their
    arguments ([note]), and error texts that embed formatted byte counts or
    paths are shortened.  The table of running jobs is [jstep]. *)
From S2P Require Import Prelude GoStrings GoPath Totp ProtoText NodeClient.
From Stdlib Require Import Ascii.
Open Scope nat_scope.

Record xcodeReq := mkXcode {
  xq_id : string; xq_tool : string; xq_target : string; xq_url : string; xq_size : Z; xq_sha : string;
  xq_proxyMode : string; xq_proxyURL : string; xq_proxyPrefix : string; xq_timeout : Z
}.

(** ** Text *)
Definition xcodeLogTailBytes : nat := 4096.   (** 4 << 10 *)
Definition xellipsis : string := String "226" (String "128" (String "166" "")).
Definition xcodeTail (s : string) (max : nat) : string :=
  let s := TrimSpace s in
  if String.length s <=? max then s
  else
    let cut := drop_bytes (String.length s - max) s in
    let cut := match Index cut (String "010" "") with Some i => drop_bytes (i + 1) cut | None => cut end in
    xellipsis +:+ cut.
Definition redactXcodeSecrets (s : string) : string :=
  match Index s "-----BEGIN" with
  | Some i => take_bytes i s +:+ "[redacted key material]"
  | None => s
  end.
Definition xcodeLogTail (out : string) : string := redactXcodeSecrets (xcodeTail out xcodeLogTailBytes).
Fixpoint before_eol (s : string) : string :=
  match s with
  | EmptyString => ""
  | String c s => if is_code 10 c || is_code 13 c then "" else String c (before_eol s)
  end.
Definition firstXcodeLine (out : string) : string := before_eol (TrimSpace out).

(** ** Versions *)
(** the scan of digits with at most one dot, after the first digit *)
Fixpoint version_run (dot some : bool) (s : string) : string :=
  match s with
  | EmptyString => ""
  | String c s =>
      if is_digit c then String c (version_run dot true s)
      else if Ascii.eqb c "." && negb dot && some then String c (version_run true true s)
      else ""
  end.
Definition strip_xcode (s : string) : string := TrimSpace (TrimPrefix (TrimSpace s) "Xcode").
(** strings.Split(s, "."), as far as two parts *)
Fixpoint split_dot (s : string) : string * option string :=
  match s with
  | EmptyString => ("", None)
  | String c s =>
      if Ascii.eqb c "." then ("", Some s)
      else let '(a, b) := split_dot s in (String c a, b)
  end.
Definition maxInt : Z := 2 ^ 63 - 1.
Fixpoint digits_val (acc : Z) (s : string) : Z :=
  match s with
  | EmptyString => acc
  | String c s => digits_val (acc * 10 + (Z.of_N (code c) - 48)) s
  end.
(** strconv.Atoi on digits: the value, and whether it is in range *)
Definition Atoi (s : string) : Z * bool :=
  let v := digits_val 0 s in if (v <=? maxInt)%Z then (v, true) else (maxInt, false).
Definition xcodeVersionParts (s : string) : option (Z * Z) :=
  let '(major, minor) := split_dot (TrimChar "." (version_run false false (strip_xcode s))) in
  if String.eqb major "" then None
  else match Atoi major with
  | (_, false) => None
  | (v, true) => Some (v, match minor with Some m => (Atoi m).1 | None => 0%Z end)
  end.
Definition satisfiesXcodeTarget (current target : string) : bool :=
  match xcodeVersionParts (firstXcodeLine current), xcodeVersionParts target with
  | Some (cmaj, cmin), Some (tmaj, tmin) => (tmaj <? cmaj)%Z || ((cmaj =? tmaj)%Z && (tmin <=? cmin)%Z)
  | _, _ => false
  end.
Definition versionSlug (target : string) : string :=
  let slug := TrimChar "." (version_run false false (strip_xcode target)) in
  if negb (String.eqb slug "") then slug else "Xcode".
Definition job_rune (r : rune) : string :=
  match r with
  | RAscii c => if is_lower c || is_upper c || is_digit c || Ascii.eqb c "-" || Ascii.eqb c "_" then String c "" else "-"
  | _ => "-"
  end.
Definition sanitizeXcodeJobID (s : string) : string :=
  let out := foldr (λ r acc, job_rune r +:+ acc) "" (runes s) in
  if 48 <? String.length out then drop_bytes (String.length out - 48) out else out.

(** ** Frames and outcomes *)
Inductive note :=
| NChecking | NRetry (attempt : nat) | NDownload (target : string) (size : Z) | NProgress (cur total : Z) (percent : option Z)
| NVerifying | NExtracting | NStillExtracting (minutes : nat) | NMoving (dest : string) | NActivating
| NActivated (mode devDir : string) | NFirstLaunch | NFirstLaunchFailed | NProbing
| NInstalled (line : string) | NFailed (code : string).
Inductive xframe :=
| HostToolJobEvent (id : string) (seq : Z) (stage : string) (msg : note) (percent : Z) (tail : string) (cur total : Z)
| HostToolJobResult (id : string) (ok : bool) (errorCode errorMessage : string) (retryable : bool)
    (stageReached version appPath : string).
Record xcodeOutcome := mkXOut {
  xo_stage : string; xo_errCode : string; xo_err : option string; xo_retryable : bool;
  xo_version : string; xo_appPath : string; xo_tail : string
}.
Definition xfailed (stage code err : string) : xcodeOutcome := mkXOut stage code (Some err) false "" "" "".
Definition xretry (stage code err : string) : xcodeOutcome := mkXOut stage code (Some err) true "" "" "".

(** ** What the host answers *)
Inductive read_end := ReadMore | ReadEOF | ReadError (e : string).
Record dl_read := mkDlRead {
  dr_bytes : Z;                        (** bytes read and written *)
  dr_write : option string;            (** the write's error *)
  dr_due : bool;                       (** five seconds since the last event *)
  dr_end : read_end
}.
Inductive dl_reply := DlError (e : string) | DlStatus (code : Z) | DlBody (contentLength : Z) (reads : list dl_read).
Record dl_host := mkDl {
  dl_client : option string;           (** httpClientForProxy and NewRequest *)
  dl_answer : dl_reply;
  dl_open : option string; dl_close : option string; dl_rename : option string
}.
Record xhost := mkXHost {
  xh_goos : string;
  xh_ctx : nat → option string;                 (** ctx.Err() at each look *)
  xh_exec : nat → string * option string;       (** the n-th command *)
  xh_apps : list string;                        (** discoverXcodeApps *)
  xh_toolchain : string → bool;                 (** os.Stat of a developer dir's xcodebuild *)
  xh_activate : string → string;                (** xcode-select or DEVELOPER_DIR *)
  xh_tmp : result string;
  xh_free : option Z;                           (** freeDiskBytes *)
  xh_mkdir : nat → option string;               (** per attempt *)
  xh_dl : nat → dl_host;
  xh_sha : nat → option string;                 (** verifySHA256's error *)
  xh_size : nat → option Z;                     (** os.Stat of the file *)
  xh_head : nat → result string;                (** its first four bytes *)
  xh_xip : nat → nat * (string * option string);   (** heartbeats, then the command or the context *)
  xh_extracted : nat → list string;             (** filterXcodeCandidates of the attempt's dir *)
  xh_destExists : bool; xh_move : option string;
  xh_proxy : option proxySpec
}.

Record xst := mkXst {
  x_seq : Z; x_out : list xframe; x_looks : nat; x_cmds : list (string * string * list string);
  x_downloads : nat; x_made : list string; x_removed : list string;
  x_activated : list string            (** developer dirs given to activateDeveloperDir *)
}.
#[export] Instance eta_xst : Settable xst := λ s,
  mkXst (x_seq s) (x_out s) (x_looks s) (x_cmds s) (x_downloads s) (x_made s) (x_removed s) (x_activated s).
Definition xst0 : xst := mkXst 0 [] 0 [] 0 [] [] [].

(** ** The monad *)
Inductive flow (A : Type) := Next (a : A) | Halt (out : xcodeOutcome).
Arguments Next {A} a.
Arguments Halt {A} out.
Definition M (A : Type) : Type := xst → flow A * xst.
#[export] Instance M_ret : MRet M := λ A a s, (Next a, s).
#[export] Instance M_bind : MBind M := λ A B f m s,
  match m s with
  | (Next a, s') => f a s'
  | (Halt out, s') => (Halt out, s')
  end.
Definition halt {A} (out : xcodeOutcome) : M A := λ s, (Halt out, s).
Definition update (f : xst → xst) : M () := λ s, (Next (), f s).
(** [defer f]: on every way out *)
Definition deferred {A} (f : xst → xst) (m : M A) : M A := λ s, let '(r, s') := m s in (r, f s').

Section job.
Variable h : xhost.
Variable req : xcodeReq.

Definition eventBytes (stage : string) (msg : note) (percent : Z) (tail : string) (cur total : Z) : M () :=
  update (λ s, let seq := (x_seq s + 1)%Z in
    s <| x_seq := seq |>
      <| x_out := x_out s ++ [HostToolJobEvent (TrimSpace (xq_id req)) seq stage msg (int32_of percent) tail cur total] |>).
Definition event (stage : string) (msg : note) (percent : Z) (tail : string) : M () := eventBytes stage msg percent tail 0 0.
(** ctx.Err() *)
Definition look : M (option string) := λ s, (Next (xh_ctx h (x_looks s)), s <| x_looks := S (x_looks s) |>).
Definition exec (dir name : string) (args : list string) : M (string * option string) :=
  λ s, (Next (xh_exec h (length (x_cmds s))), s <| x_cmds := x_cmds s ++ [(dir, name, args)] |>).
(** [if ctx.Err() != nil { return cancelled }; return out] *)
Definition or_cancelled {A} (stage : string) (out : xcodeOutcome) : M A :=
  c ← look; match c with Some e => halt (xfailed stage "cancelled" e) | None => halt out end.

(** *** Detection *)
Definition probeXcodeVersion : M string :=
  r ← exec "" "xcodebuild" ["-version"];
  mret (match r with (out, None) => TrimSpace out | (_, Some _) => "" end).
(** how it was activated *)
Definition activateDeveloperDir (devDir : string) : M string :=
  λ s, (Next (xh_activate h devDir), s <| x_activated := x_activated s ++ [devDir] |>).
Fixpoint try_apps (apps : list string) : M string :=
  match apps with
  | [] => mret ""
  | app :: apps =>
      let devDir := Join [app; "Contents"; "Developer"] in
      if negb (xh_toolchain h devDir) then try_apps apps
      else
        _ ← activateDeveloperDir devDir;
        v ← probeXcodeVersion;
        if negb (String.eqb v "") then mret v else try_apps apps
  end.
Definition detectInstalledXcode : M string :=
  v ← probeXcodeVersion; if negb (String.eqb v "") then mret v else try_apps (xh_apps h).

(** *** Download *)
Definition downloadProgress (cur total : Z) : M () :=
  let frac := Z.quot (int64_of (65 * cur)) total in
  let frac := if (frac <? 0)%Z then 0%Z else frac in
  let frac := if (65 <? frac)%Z then 65%Z else frac in
  if (0 <? total)%Z then eventBytes "downloading" (NProgress cur total (Some frac)) (5 + frac) "" cur total
  else eventBytes "downloading" (NProgress cur total None) 5 "" cur total.
(** the read loop: bytes written, or the error it returns *)
Fixpoint read_loop (reads : list dl_read) (n lastSizeEmit total : Z) : M (result Z) :=
  c ← look;
  match c with
  | Some e => mret (Err e)
  | None =>
      match reads with
      | [] => mret (Ok n)
      | r :: reads =>
          match (if (0 <? dr_bytes r)%Z then dr_write r else None) with
          | Some e => mret (Err ("write: " +:+ e))
          | None =>
              let n1 := if (0 <? dr_bytes r)%Z then (n + dr_bytes r)%Z else n in
              let emit := (0 <? dr_bytes r)%Z && ((32 * 2 ^ 20 <=? n1 - lastSizeEmit)%Z || dr_due r) in
              _ ← (if emit then downloadProgress n1 total else mret ());
              match dr_end r with
              | ReadEOF => mret (Ok n1)
              | ReadError e => mret (Err ("download: " +:+ e))
              | ReadMore => read_loop reads n1 (if emit then n1 else lastSizeEmit) total
              end
          end
      end
  end.
Definition downloadXip (d : dl_host) (total : Z) : M (result ()) :=
  _ ← update (λ s, s <| x_downloads := S (x_downloads s) |>);
  match dl_client d with
  | Some e => mret (Err ("build http client: " +:+ e))
  | None =>
      match dl_answer d with
      | DlError e => mret (Err ("download: " +:+ e))
      | DlStatus code => mret (Err ("download: status " +:+ itoa (Z.to_N code)))
      | DlBody contentLength reads =>
          let total := if (0 <? contentLength)%Z && (total <=? 0)%Z then contentLength else total in
          match dl_open d with
          | Some e => mret (Err ("create: " +:+ e))
          | None =>
              r ← read_loop reads 0 0 total;
              match r with
              | Err e => mret (Err e)
              | Ok n =>
                  match dl_close d with
                  | Some e => mret (Err ("close: " +:+ e))
                  | None =>
                      if (0 <? total)%Z && negb (n =? total)%Z then mret (Err "truncated")
                      else match dl_rename d with
                      | Some e => mret (Err ("finalize: " +:+ e))
                      | None => _ ← downloadProgress n total; mret (Ok ())
                      end
                  end
              end
          end
      end
  end.
Definition xarMagic : string := "xar!".
Definition checkXipMagic (head : result string) : option string :=
  match head with
  | Err e => Some e
  | Ok b => if String.eqb b xarMagic then None else Some "not a xip"
  end.
Definition job_proxy : proxySpec :=
  let spec := mkSpec (TrimSpace (xq_proxyMode req)) (TrimSpace (xq_proxyURL req)) (TrimSpace (xq_proxyPrefix req)) in
  if String.eqb (sp_mode spec) "" && String.eqb (sp_url spec) "" && String.eqb (sp_urlPrefix spec) ""
  then default spec (xh_proxy h) else spec.

(** *** Attempts *)
Definition maxAttempts : nat := 3.
(** the checks before extraction: [Some] is what is wrong with the file *)
Definition verify_file (n : nat) : option string :=
  if negb (String.eqb (TrimSpace (xq_sha req)) "") then xh_sha h n
  else if (0 <? xq_size req)%Z then
    match xh_size h n with
    | Some size => if negb (size =? xq_size req)%Z then Some "size mismatch" else None
    | None => None
    end
  else None.
Definition bad_file (n : nat) (e : string) : M (option string) :=
  let fail := halt (xretry "verifying" "download_failed" e) in
  if n <? maxAttempts then c ← look; match c with None => mret None | Some _ => fail end else fail.
Fixpoint heartbeats (minute todo : nat) : M () :=
  match todo with
  | O => mret ()
  | S todo => _ ← event "extracting" (NStillExtracting minute) 78 ""; heartbeats (S minute) todo
  end.
Definition xip_advice : string := "解压失败（.xip 未通过 Apple 签名校验或损坏）。已自动重试 3 次仍失败：出口代理/镜像在传输大文件时截断或改写是最常见原因，请为该节点更换或关闭下载代理后重试；若本机可手动安装 Xcode（App Store 或手动解压 .xip 到 /Applications），完成后点「检测」即可识别。".
Definition attempt_dir (workDir : string) (n : nat) : string := Join [workDir; "try" +:+ itoa (N.of_nat n)].
(** one round of the loop: [None] is [continue], [Some app] is [break] *)
Definition attempt (workDir : string) (n : nat) : M (option string) :=
  c ← look;
  match c with
  | Some e => halt (xfailed "downloading" "cancelled" e)
  | None =>
      match xh_mkdir h n with
      | Some e => halt (xfailed "checking" "workdir_failed" e)
      | None =>
          _ ← update (λ s, s <| x_made := x_made s ++ [attempt_dir workDir n] |>);
          _ ← (if 1 <? n then
                 _ ← update (λ s, s <| x_removed := x_removed s ++ [attempt_dir workDir (n - 1)] |>);
                 event "downloading" (NRetry n) 5 ""
               else mret ());
          _ ← event "downloading" (NDownload (xq_target req) (xq_size req)) 5 "";
          d ← downloadXip (xh_dl h n) (xq_size req);
          match d with
          | Err e => or_cancelled "downloading" (xretry "downloading" "download_failed" e)
          | Ok _ =>
              _ ← event "verifying" NVerifying 72 "";
              match verify_file n with
              | Some e => bad_file n e
              | None =>
                  match checkXipMagic (xh_head h n) with
                  | Some e => bad_file n e
                  | None =>
                      _ ← event "extracting" NExtracting 75 "";
                      let '(beats, (out, err)) := xh_xip h n in
                      _ ← update (λ s, s <| x_cmds := x_cmds s ++ [(attempt_dir workDir n, "xip", ["-x"; Join [attempt_dir workDir n; "Xcode.xip"]])] |>);
                      _ ← heartbeats 1 beats;
                      let found := match err with None => head (xh_extracted h n) | Some _ => None end in
                      match found with
                      | Some app => mret (Some app)
                      | None =>
                          let e := match err with Some e => e | None => ".xip 解压完成但未在产物中找到 Xcode.app" end in
                          c ← look;
                          match c with
                          | Some e => halt (xfailed "extracting" "cancelled" e)
                          | None =>
                              if n <? maxAttempts then mret None
                              else halt (mkXOut "extracting" "extract_failed" (Some (xip_advice +:+ String "010" "" +:+ e)) false "" "" (xcodeLogTail out))
                          end
                      end
                  end
              end
          end
      end
  end.
Fixpoint attempts (workDir : string) (todo n : nat) : M string :=
  match todo with
  | O => mret ""
  | S todo => r ← attempt workDir n; match r with Some app => mret app | None => attempts workDir todo (S n) end
  end.

(** *** From the extracted app on; acceptXcodeLicenseBestEffort, whose outcome is
    ignored, is left out *)
Definition standard_dest : string := "/Applications/Xcode.app".
Definition moveXcodeApp (dest : string) : result string :=
  if xh_destExists h then Err "exists" else match xh_move h with Some e => Err e | None => Ok dest end.
Definition probe_error : string := "安装后 xcodebuild 仍无法运行：可能需要 sudo xcodebuild -license accept 或完成首次启动".
Definition install_app (app : string) : M xcodeOutcome :=
  _ ← event "moving" (NMoving standard_dest) 92 "";
  match moveXcodeApp standard_dest with
  | Err e => or_cancelled "moving" (xfailed "moving" "move_failed" e)
  | Ok dest =>
      let devDir := Join [dest; "Contents"; "Developer"] in
      if negb (xh_toolchain h devDir) then halt (xfailed "activating" "extract_failed" "no toolchain")
      else
        _ ← event "activating" NActivating 95 "";
        r ← exec "" "sudo" ["-n"; "xcode-select"; "-s"; devDir];
        mode ← (match r.2 with None => mret "xcode-select" | Some _ => activateDeveloperDir devDir end);
        _ ← event "activating" (NActivated mode devDir) 96 "";
        r ← exec "" "xcodebuild" ["-runFirstLaunch"];
        _ ← (match r.2 with
             | Some _ => event "activating" NFirstLaunchFailed 96 (xcodeLogTail r.1)
             | None => event "activating" NFirstLaunch 96 ""
             end);
        _ ← event "probing" NProbing 98 "";
        ver ← probeXcodeVersion;
        if String.eqb ver "" then halt (mkXOut "probing" "probe_failed" (Some probe_error) false "" dest "")
        else mret (mkXOut "completed" "" None false ver dest "")
  end.
Definition disk_need : Z := int64_of (xq_size req * 3 + 10 * 2 ^ 30).
Definition download_install (workDir : string) : M xcodeOutcome :=
  let short := if (0 <? xq_size req)%Z then match xh_free h with Some free => (free <? disk_need)%Z | None => false end else false in
  if short then halt (xfailed "checking" "insufficient_space" "disk")
  else app ← attempts workDir maxAttempts 1; install_app app.
Definition runJob : M xcodeOutcome :=
  _ ← event "checking" NChecking 2 "";
  if negb (String.eqb (xh_goos h) "darwin") then halt (xfailed "checking" "not_darwin" "Xcode 只能安装在 macOS 主机上")
  else
    cur ← detectInstalledXcode;
    if negb (String.eqb cur "") && satisfiesXcodeTarget cur (xq_target req)
    then mret (mkXOut "checking" "" None false cur "" "")
    else match xh_tmp h with
    | Err e => halt (xfailed "checking" "workdir_failed" e)
    | Ok workDir => deferred (λ s, s <| x_removed := x_removed s ++ [workDir] |>) (download_install workDir)
    end.

Definition error_message (out : xcodeOutcome) (e : string) : string :=
  let msg := redactXcodeSecrets e in
  let tail := TrimSpace (xo_tail out) in
  if negb (String.eqb tail "") then TrimSpace (msg +:+ String "010" "" +:+ tail) else msg.
Definition finish (out : xcodeOutcome) : M () :=
  let ok := bool_decide (xo_err out = None) && String.eqb (xo_errCode out) "" in
  _ ← event (xo_stage out) (if ok then NInstalled (firstXcodeLine (xo_version out)) else NFailed (xo_errCode out))
        (if ok then 100 else 0)%Z (xo_tail out);
  update (λ s, s <| x_out := x_out s ++
    [HostToolJobResult (TrimSpace (xq_id req)) ok (xo_errCode out)
       (match xo_err out with Some e => error_message out e | None => "" end)
       (xo_retryable out) (xo_stage out) (xo_version out) (xo_appPath out)] |>).
(** the goroutine of Start *)
Definition outcome_of (r : flow xcodeOutcome) : xcodeOutcome := match r with Next o | Halt o => o end.
Definition xcode_job : xst := let '(r, s) := runJob xst0 in (finish (outcome_of r) s).2.
End job.

(** ** The table of jobs *)
Definition Start_check (req : xcodeReq) : option string :=
  if String.eqb (TrimSpace (xq_id req)) "" then Some "xcode-job: job_id is required"
  else if negb (String.eqb (TrimSpace (xq_tool req)) "xcode") then Some ("xcode-job: unsupported tool " +:+ xq_tool req)
  else
    let url := TrimSpace (xq_url req) in
    if negb (HasPrefix url "https://") || negb (HasSuffix (ToLower url) ".xip")
    then Some ("xcode-job: download_url must be an https .xip link, got " +:+ url) else None.
(** in int64 nanoseconds; four hours when not positive *)
Definition job_timeout (req : xcodeReq) : Z :=
  let timeout := int64_of (xq_timeout req * 10 ^ 9) in
  if (timeout <=? 0)%Z then (4 * 3600 * 10 ^ 9)%Z else timeout.

Record xjob := mkXJob { xj_req : xcodeReq; xj_cancelled : bool; xj_live : bool }.
#[export] Instance eta_xjob : Settable xjob := λ j, mkXJob (xj_req j) (xj_cancelled j) (xj_live j).
Record jsys := mkJsys {
  j_jobs : list xjob;                       (** every job started *)
  j_table : gmap string nat;                (** XcodeJobRunner.jobs *)
  j_acks : list (string * option string)
}.
#[export] Instance eta_jsys : Settable jsys := λ s, mkJsys (j_jobs s) (j_table s) (j_acks s).
Definition jinit : jsys := mkJsys [] ∅ [].
Definition Start (req : xcodeReq) (s : jsys) : option string * jsys :=
  match Start_check req with
  | Some e => (Some e, s)
  | None =>
      let jobID := TrimSpace (xq_id req) in
      match j_table s !! jobID with
      | Some _ => (None, s)
      | None =>
          if 0 <? size (j_table s)
          then (Some "xcode-job: another Xcode install is already running on this host", s)
          else (None, s <| j_jobs := j_jobs s ++ [mkXJob req false true] |>
                        <| j_table := <[jobID := length (j_jobs s)]> (j_table s) |>)
      end
  end.
Definition cancel_xjob (k : nat) (s : jsys) : jsys :=
  s <| j_jobs := alter (λ j, j <| xj_cancelled := true |>) k (j_jobs s) |>.
Definition Cancel (jobID : string) (s : jsys) : jsys :=
  match j_table s !! jobID with Some k => cancel_xjob k s | None => s end.
Inductive xpayload := HostToolJob (req : xcodeReq) | HostToolJobCancel (jobID : string) | OtherPayload.
Definition HandleHostToolJobFrame (frameID : string) (p : xpayload) (s : jsys) : jsys * bool :=
  match p with
  | HostToolJob req =>
      let '(err, s) := Start req s in (s <| j_acks := j_acks s ++ [(frameID, err)] |>, true)
  | HostToolJobCancel id =>
      let s := Cancel id s in (s <| j_acks := j_acks s ++ [(frameID, None)] |>, true)
  | OtherPayload => (s, false)
  end.
(** the deferred deletion when a job's goroutine ends *)
Definition job_end (k : nat) (j : xjob) (s : jsys) : jsys :=
  s <| j_jobs := alter (λ j, j <| xj_live := false |>) k (j_jobs s) |>
    <| j_table := delete (TrimSpace (xq_id (xj_req j))) (j_table s) |>.
Definition StopAll (s : jsys) : jsys := foldr (λ '(_, k), cancel_xjob k) s (map_to_list (j_table s)).
Inductive jlabel := JFrame (frameID : string) (p : xpayload) | JEnd (k : nat) | JStopAll.
Definition jstep (s : jsys) (l : jlabel) : option jsys :=
  match l with
  | JFrame frameID p => Some (HandleHostToolJobFrame frameID p s).1
  | JEnd k => j ← j_jobs s !! k; if xj_live j then Some (job_end k j s) else None
  | JStopAll => Some (StopAll s)
  end.
Definition jrun := trace_run (fun_step jstep).
