(* ===== verification/XcodeJobProofs.v ===== *)
(** * XcodeJobProofs: one Xcode installation and the table of jobs

    Claims about the pipeline are proved rule by rule over the monad: a
    relation between the states before and after ([always]), and what can be
    said of early returns ([halts]). *)
From S2P Require Import Prelude GoStrings GoPath Totp ProtoText NodeClient XcodeJob.
From Stdlib Require Import Ascii.
Open Scope nat_scope.

(** ** Rules *)
Definition always {A} (P : xst → xst → Prop) (m : M A) : Prop := ∀ s r s', m s = (r, s') → P s s'.
Definition halts {A} (Q : xcodeOutcome → Prop) (m : M A) : Prop := ∀ s out s', m s = (Halt out, s') → Q out.

Lemma bind_inv {A B} (m : M A) (f : A → M B) s r s' :
  (m ≫= f) s = (r, s') →
  (∃ a s1, m s = (Next a, s1) ∧ f a s1 = (r, s')) ∨ (∃ out, m s = (Halt out, s') ∧ r = Halt out).
Proof.
  unfold mbind, M_bind. destruct (m s) as [[a|out] s1]; [left; by exists a, s1|intros [= <- <-]; right; by exists out].
Qed.
Section rules.
Context (P : xst → xst → Prop) `{!PreOrder P}.
Lemma always_ret {A} (a : A) : always P (mret a).
Proof. intros s r s' [= _ <-]. reflexivity. Qed.
Lemma always_halt {A} out : always P (halt out : M A).
Proof. intros s r s' [= _ <-]. reflexivity. Qed.
Lemma always_bind {A B} (m : M A) (f : A → M B) : always P m → (∀ a, always P (f a)) → always P (m ≫= f).
Proof.
  intros Hm Hf s r s' [(a & s1 & H1 & H2)|(out & H1 & ->)]%bind_inv; [|by eapply Hm].
  etrans; [by eapply Hm|by eapply Hf].
Qed.
Lemma always_update f : (∀ s, P s (f s)) → always P (update f).
Proof. intros Hf s r s' [= _ <-]. apply Hf. Qed.
End rules.
Section halting.
Context (Q : xcodeOutcome → Prop).
Lemma halts_ret {A} (a : A) : halts Q (mret a).
Proof. by intros s out s'. Qed.
Lemma halts_halt {A} out : Q out → halts Q (halt out : M A).
Proof. by intros Hq s o s' [= <- _]. Qed.
Lemma halts_bind {A B} (m : M A) (f : A → M B) : halts Q m → (∀ a, halts Q (f a)) → halts Q (m ≫= f).
Proof.
  intros Hm Hf s out s' [(a & s1 & H1 & H2)|(o & H1 & [= ->])]%bind_inv; [by eapply Hf|by eapply Hm].
Qed.
Lemma halts_update f : halts Q (update f).
Proof. by intros s out s'. Qed.
End halting.

Section job.
Variable h : xhost.
Variable req : xcodeReq.
Let id := TrimSpace (xq_id req).

(** ** What a stage may do to the state *)
Definition is_event (i : nat) (f : xframe) : Prop :=
  ∃ stage msg percent tl cur total,
    f = HostToolJobEvent id (Z.of_nat (S i)) stage msg percent tl cur total ∧ (0 ≤ percent ≤ 100)%Z.
Record numbered (s : xst) : Prop := {
  nu_seq : x_seq s = Z.of_nat (length (x_out s));
  nu_events i f : x_out s !! i = Some f → is_event i f
}.
(** [quiet]: only numbered events, commands and looks. *)
Record quiet (s s' : xst) : Prop := {
  qu_num : numbered s → numbered s';
  qu_down : x_downloads s' = x_downloads s;
  qu_made : x_made s' = x_made s
}.
#[local] Instance quiet_preorder : PreOrder quiet.
Proof.
  split; [by split|]. intros a b c [H1 H2 H3] [H4 H5 H6]. split; [auto|congruence..].
Qed.
Lemma quiet_same s s' :
  x_seq s' = x_seq s → x_out s' = x_out s → x_downloads s' = x_downloads s → x_made s' = x_made s → quiet s s'.
Proof. intros H1 H2 H3 H4. split; [|done..]. intros [Hs He]. split; rw ?H1 ?H2; done. Qed.
Lemma quiet_event stage msg percent tl cur total :
  (0 ≤ percent ≤ 100)%Z → always quiet (eventBytes req stage msg percent tl cur total).
Proof.
  intros Hp s r s' [= _ <-]. split; [|done..]. intros [Hs He]. split; cbn.
  - rw length_app /= Hs. lia.
  - intros i f [Hf|[Hl Hf]]%lookup_app_Some; [by apply He|].
    apply list_lookup_singleton_Some in Hf as [Hi <-]. do 6 eexists. split; [|exact Hp].
    f_equal; [rw Hs; lia|]. unfold int32_of. rw Z.mod_small; lia.
Qed.
Lemma quiet_look : always quiet (look h).
Proof. intros s r s' [= _ <-]. by apply quiet_same. Qed.
Lemma quiet_exec dir name args : always quiet (exec h dir name args).
Proof. intros s r s' [= _ <-]. by apply quiet_same. Qed.
Lemma quiet_activate d : always quiet (activateDeveloperDir h d).
Proof. intros s r s' [= _ <-]. by apply quiet_same. Qed.
Lemma quiet_or_cancelled {A} stage out : always quiet (or_cancelled h stage out : M A).
Proof. apply always_bind; [apply _|apply quiet_look|]. intros [e|]; apply always_halt; apply _. Qed.
Create HintDb quiet.
Hint Resolve quiet_look quiet_exec quiet_activate quiet_or_cancelled : quiet.
Ltac quiet :=
  repeat first
    [ apply always_bind; [apply _| |intros ?]
    | apply always_ret; apply _ | apply always_halt; apply _
    | apply quiet_event; lia | solve [auto with quiet] | case_match ].

Lemma quiet_probe : always quiet (probeXcodeVersion h).
Proof. unfold probeXcodeVersion. quiet. Qed.
Lemma quiet_apps apps : always quiet (try_apps h apps).
Proof. induction apps as [|a apps IH]; cbn [try_apps]; [quiet|]. case_match; [done|]. pose proof quiet_probe. quiet. Qed.
Lemma quiet_detect : always quiet (detectInstalledXcode h).
Proof. unfold detectInstalledXcode. pose proof quiet_probe. pose proof (quiet_apps (xh_apps h)). quiet. Qed.
Lemma quiet_progress cur total : always quiet (downloadProgress req cur total).
Proof. unfold downloadProgress. set (q := Z.quot _ _). clearbody q. repeat case_match; go_bool; apply quiet_event; lia. Qed.
Lemma quiet_reads reads n l total : always quiet (read_loop h req reads n l total).
Proof.
  revert n l. induction reads as [|r reads IH]; intros n l; cbn [read_loop]; [quiet|].
  pose proof quiet_progress. quiet; apply IH.
Qed.
Lemma quiet_heartbeats m n : always quiet (heartbeats req m n).
Proof. revert m. induction n as [|n IH]; intros m; cbn [heartbeats]; unfold event; quiet. Qed.
Lemma quiet_bad_file n e : always quiet (bad_file h n e).
Proof. unfold bad_file. quiet. Qed.
Lemma quiet_cmds (f : xst → list (string * string * list string)) : always quiet (update (λ s, s <| x_cmds := f s |>)).
Proof. apply always_update. intros s. by apply quiet_same. Qed.
Hint Resolve quiet_probe quiet_detect quiet_reads quiet_progress quiet_heartbeats quiet_bad_file quiet_cmds : quiet.

(** [spends w k]: at most [k] downloads, and new directories of attempts only. *)
Record spends (w : string) (k : nat) (s s' : xst) : Prop := {
  sp_num : numbered s → numbered s';
  sp_down : x_downloads s' ≤ x_downloads s + k;
  sp_made d : d ∈ x_made s' → d ∈ x_made s ∨ ∃ n, 1 ≤ n ≤ maxAttempts ∧ d = attempt_dir w n
}.
Lemma quiet_spends {A} w k (m : M A) : always quiet m → always (spends w k) m.
Proof. intros Hm s r s' [H1 H2 H3]%Hm. split; [done|lia|]. rw H3. auto. Qed.
Lemma spends_bind {A B} w j k (m : M A) (f : A → M B) :
  always (spends w j) m → (∀ a, always (spends w k) (f a)) → always (spends w (j + k)) (m ≫= f).
Proof.
  intros Hm Hf s r s' [(a & s1 & [H1 H2 H3]%Hm & [H4 H5 H6]%Hf)|(out & [H1 H2 H3]%Hm & ->)]%bind_inv.
  - split; [auto|lia|]. intros d [Hd|Hd]%H6; [by apply H3|by right].
  - split; [auto|lia|exact H3].
Qed.
Lemma spends_then {A B} w k (m : M A) (f : A → M B) :
  always quiet m → (∀ a, always (spends w k) (f a)) → always (spends w k) (m ≫= f).
Proof. intros Hm. apply (spends_bind w 0 k). by apply quiet_spends. Qed.
Ltac spends := repeat first
  [ apply spends_then; [solve [unfold event; auto with quiet; quiet]|intros ?]
  | solve [apply quiet_spends; unfold event; quiet]
  | match goal with |- always _ (match ?x with _ => _ end) => destruct x eqn:? end ].

Lemma spends_download w d total : always (spends w 1) (downloadXip h req d total).
Proof.
  unfold downloadXip. apply (spends_bind w 1 0).
  - intros s r s' [= _ <-]. split; cbn; [intros [? ?]; by split|lia|auto].
  - intros _. apply quiet_spends. quiet.
Qed.
Lemma spends_attempt w n : 1 ≤ n ≤ maxAttempts → always (spends w 1) (attempt h req w n).
Proof.
  intros Hn. unfold attempt. spends. apply (spends_bind w 0 1).
  { intros s r s' [= _ <-]. split; cbn; [intros [? ?]; by split|lia|].
    intros d. rw elem_of_app list_elem_of_singleton. intros [?| ->]; eauto. }
  intros _. apply (spends_bind w 0 1).
  { case_match; [|spends]. apply (spends_bind w 0 0); [|intros _; spends].
    intros s r s' [= _ <-]. split; cbn; [intros [? ?]; by split|lia|auto]. }
  intros _. spends. apply (spends_bind w 1 0); [apply spends_download|]. intros [[]|e]; spends.
Qed.
Lemma spends_attempts w todo n : 1 ≤ n → n + todo ≤ S maxAttempts → always (spends w todo) (attempts h req w todo n).
Proof.
  revert n. induction todo as [|todo IH]; intros n Hn Hm; cbn [attempts]; [spends|].
  apply (spends_bind w 1 todo); [apply spends_attempt; lia|]. intros [app|]; [spends|]. apply IH; lia.
Qed.
Lemma quiet_install app : always quiet (install_app h req app).
Proof. unfold install_app, event. quiet. Qed.
Lemma spends_install w : always (spends w maxAttempts) (download_install h req w).
Proof.
  unfold download_install. case_match; [spends|]. apply (spends_bind w maxAttempts 0).
  - apply spends_attempts; lia.
  - intros app. apply quiet_spends, quiet_install.
Qed.

(** *** The whole job *)
Definition cleaned (s : xst) : Prop :=
  x_made s = [] ∨
  ∃ w, xh_tmp h = Ok w ∧ last (x_removed s) = Some w ∧
       ∀ d, d ∈ x_made s → ∃ n, 1 ≤ n ≤ maxAttempts ∧ d = attempt_dir w n.
Lemma runJob_state r s :
  runJob h req xst0 = (r, s) → numbered s ∧ x_downloads s ≤ maxAttempts ∧ cleaned s.
Proof.
  assert (Hq0 : ∀ s, quiet xst0 s → numbered s ∧ x_downloads s ≤ maxAttempts ∧ cleaned s).
  { intros s1 [H1 H2 H3]. split; [apply H1; by split|]. split; [rw H2; cbn; lia|]. left. by rw H3. }
  unfold runJob. intros [([] & s1 & H1 & H2)|(out & H1 & ->)]%bind_inv;
    apply quiet_event in H1 as Hq; [|lia|by apply Hq0|lia].
  destruct (negb _); [injection H2 as _ <-; by apply Hq0|].
  apply bind_inv in H2 as [(cur & s2 & H2 & H3)|(out & H2 & ->)]; apply quiet_detect in H2 as Hq2;
    [|apply Hq0; by etrans].
  assert (Hq3 : quiet xst0 s2) by (by etrans).
  destruct (negb _ && _); [injection H3 as _ <-; by apply Hq0|].
  destruct (xh_tmp h) as [w|e] eqn:Ew; [|injection H3 as _ <-; by apply Hq0].
  unfold deferred in H3. destruct (download_install h req w s2) as [r3 s3] eqn:E3. injection H3 as _ <-.
  apply spends_install in E3 as [H4 H5 H6]. destruct (Hq0 _ Hq3) as (Hn & _ & _). destruct Hq3 as [_ Hd Hm].
  split; [|split].
  - by destruct (H4 Hn).
  - cbn. rw Hd in H5. exact H5.
  - right. exists w. split; [exact Ew|]. split; [apply last_snoc|]. intros d [Hin|?]%H6; [|done].
    rw Hm in Hin. by apply not_elem_of_nil in Hin.
Qed.

(** ** What an early return says *)
Definition reports_error : xcodeOutcome → Prop := λ o, xo_err o ≠ None.
Create HintDb halting.
Ltac halting := repeat first
  [ solve [auto with halting] | apply halts_bind; [|intros ?] | apply halts_ret | apply halts_halt; discriminate
  | by apply halts_update | by intros ? ? ? [=] | case_match ].
Lemma halts_cancelled {A} stage out : reports_error out → halts reports_error (or_cancelled h stage out : M A).
Proof. intros Ho. unfold or_cancelled. apply halts_bind; [by intros ? ? ? [=]|]. intros [e|]; by apply halts_halt. Qed.
Lemma halts_apps apps : halts reports_error (try_apps h apps).
Proof. induction apps; cbn [try_apps]; unfold probeXcodeVersion; halting. Qed.
Lemma halts_reads reads n l total : halts reports_error (read_loop h req reads n l total).
Proof. revert n l. induction reads; intros n l; cbn [read_loop]; unfold downloadProgress; halting. Qed.
Lemma halts_heartbeats m n : halts reports_error (heartbeats req m n).
Proof. revert m. induction n; intros m; cbn [heartbeats]; halting. Qed.
Hint Resolve halts_apps halts_reads halts_heartbeats : halting.
Lemma halts_attempt w n : halts reports_error (attempt h req w n).
Proof.
  unfold attempt, downloadXip, bad_file, downloadProgress. halting; try (by apply halts_cancelled).
Qed.
Lemma halts_attempts w todo n : halts reports_error (attempts h req w todo n).
Proof. revert n. induction todo; intros n; cbn [attempts]; [halting|]. pose proof (halts_attempt w). halting. Qed.
Lemma halts_run : halts reports_error (runJob h req).
Proof.
  pose proof halts_attempts. unfold runJob, detectInstalledXcode, probeXcodeVersion.
  apply halts_bind; [halting|intros _]. case_match; [halting|]. apply halts_bind; [halting|intros cur].
  case_match; [halting|]. destruct (xh_tmp h) as [w|e]; [|halting]. intros s out s'. unfold deferred.
  destruct (download_install h req w s) as [r s1] eqn:E. intros [= -> _]. revert E.
  cut (halts reports_error (download_install h req w)); [intros Hh E; by eapply Hh|].
  unfold download_install, install_app, probeXcodeVersion. halting.
Qed.

(** ** What a success says *)
Fixpoint received (reads : list dl_read) : Z :=
  match reads with
  | [] => 0
  | r :: reads => Z.max 0 (dr_bytes r) + received reads
  end%Z.
(** the whole body arrived, as long as announced *)
Definition downloaded (d : dl_host) : Prop :=
  dl_client d = None ∧ dl_open d = None ∧ dl_close d = None ∧ dl_rename d = None ∧
  ∃ contentLength reads k,
    dl_answer d = DlBody contentLength reads ∧
    let total := if (0 <? contentLength)%Z && (xq_size req <=? 0)%Z then contentLength else xq_size req in
    ((0 < total)%Z → received (take k reads) = total).
Definition usable (n : nat) (app : string) : Prop :=
  xh_mkdir h n = None ∧ downloaded (xh_dl h n) ∧ verify_file h req n = None ∧ xh_head h n = Ok xarMagic ∧
  (xh_xip h n).2.2 = None ∧ head (xh_extracted h n) = Some app.

Lemma bind_next {A B} (m : M A) (f : A → M B) s b s' :
  (m ≫= f) s = (Next b, s') → ∃ a s1, m s = (Next a, s1) ∧ f a s1 = (Next b, s').
Proof. by intros [?|(out & _ & [=])]%bind_inv. Qed.
Lemma read_loop_received reads n l total s m s' :
  read_loop h req reads n l total s = (Next (Ok m), s') → ∃ k, m = (n + received (take k reads))%Z.
Proof.
  revert n l s. induction reads as [|r reads IH]; intros n l s; cbn [read_loop];
    intros ([e|] & s1 & _ & H)%bind_next; try discriminate H.
  { injection H as <- _. exists 0. cbn. lia. }
  destruct (if (0 <? dr_bytes r)%Z then dr_write r else None); [discriminate H|].
  apply bind_next in H as ([] & s2 & _ & H).
  set (n1 := if (0 <? dr_bytes r)%Z then _ else _) in H.
  assert (Hn1 : n1 = (n + Z.max 0 (dr_bytes r))%Z) by (subst n1; destruct (0 <? dr_bytes r)%Z eqn:Eb; lia).
  destruct (dr_end r); [|injection H as <- _|discriminate H].
  - apply IH in H as [k ->]. exists (S k). cbn. lia.
  - exists 1. cbn. rw take_0 /=. lia.
Qed.
Lemma downloadXip_ok d s s' : downloadXip h req d (xq_size req) s = (Next (Ok ()), s') → downloaded d.
Proof.
  unfold downloadXip, downloaded. intros ([] & s1 & _ & H)%bind_next.
  destruct (dl_client d); [discriminate H|]. destruct (dl_answer d) as [e|code|cl reads]; [discriminate H..|].
  destruct (dl_open d); [discriminate H|]. apply bind_next in H as ([n|e] & s2 & H1 & H); [|discriminate H].
  destruct (dl_close d); [discriminate H|]. apply read_loop_received in H1 as [k ->].
  destruct (_ && negb _) eqn:E in H; [discriminate H|]. destruct (dl_rename d); [discriminate H|].
  do 4 (split; [done|]). exists cl, reads, k. split; [done|]. cbn zeta. intros Ht. go_bool. lia.
Qed.
Lemma bad_file_next n e s r s' : bad_file h n e s = (Next r, s') → r = None ∧ n < maxAttempts.
Proof.
  unfold bad_file. destruct (n <? maxAttempts) eqn:E; [|discriminate]. intros ([c|] & s1 & _ & H)%bind_next; [discriminate H|].
  injection H as <- _. go_bool. split; [done|lia].
Qed.
Lemma attempt_next w n s r s' :
  attempt h req w n s = (Next r, s') → match r with Some app => usable n app | None => n < maxAttempts end.
Proof.
  unfold attempt. intros ([e|] & s1 & _ & H)%bind_next; [discriminate H|].
  destruct (xh_mkdir h n) eqn:Em; [discriminate H|].
  do 3 apply bind_next in H as ([] & ? & _ & H). apply bind_next in H as ([[]|e] & s2 & Hd & H).
  2:{ apply bind_next in H as ([c|] & ? & _ & H); discriminate H. }
  apply downloadXip_ok in Hd. apply bind_next in H as ([] & ? & _ & H).
  destruct (verify_file h req n) eqn:Ev; [by apply bad_file_next in H as [-> ?]|].
  destruct (checkXipMagic (xh_head h n)) eqn:Ec; [by apply bad_file_next in H as [-> ?]|].
  apply bind_next in H as ([] & ? & _ & H). destruct (xh_xip h n) as [beats [out err]] eqn:Ex.
  do 2 apply bind_next in H as ([] & ? & _ & H).
  destruct (match err with None => head (xh_extracted h n) | Some _ => None end) as [app|] eqn:Ef.
  - injection H as <- _. destruct err; [discriminate Ef|]. unfold usable. rw Ex. split_and!; try done.
    unfold checkXipMagic in Ec. destruct (xh_head h n) as [b|]; [|done]. destruct (String.eqb_spec b xarMagic); by subst.
  - apply bind_next in H as ([c|] & ? & _ & H); [discriminate H|]. destruct (n <? maxAttempts) eqn:En; [|discriminate H].
    injection H as <- _. go_bool. lia.
Qed.
Lemma attempts_next w todo n s app s' :
  n + todo = S maxAttempts → 1 ≤ n ≤ maxAttempts → attempts h req w todo n s = (Next app, s') →
  ∃ k, 1 ≤ k ≤ maxAttempts ∧ usable k app.
Proof.
  revert n s. induction todo as [|todo IH]; intros n s Ht Hn; [lia|]. cbn [attempts].
  intros ([a|] & s1 & H1%attempt_next & H)%bind_next.
  - injection H as <- _. eauto.
  - eapply IH; [| |exact H]; lia.
Qed.
End job.

(** the frame [finish] sends last *)
Definition result_frame (req : xcodeReq) (o : xcodeOutcome) : xframe :=
  HostToolJobResult (TrimSpace (xq_id req)) (bool_decide (xo_err o = None) && String.eqb (xo_errCode o) "") (xo_errCode o)
    (match xo_err o with Some e => error_message o e | None => "" end)
    (xo_retryable o) (xo_stage o) (xo_version o) (xo_appPath o).
Lemma finish_state req o s :
  ∃ s1, quiet req s s1 ∧ x_out s1 ≠ [] ∧ x_removed s1 = x_removed s ∧
        (finish req o s).2 = s1 <| x_out := x_out s1 ++ [result_frame req o] |>.
Proof.
  set (ok := bool_decide (xo_err o = None) && String.eqb (xo_errCode o) "").
  set (percent := if ok then 100%Z else 0%Z).
  set (msg := if ok then NInstalled (firstXcodeLine (xo_version o)) else NFailed (xo_errCode o)).
  exists (event req (xo_stage o) msg percent (xo_tail o) s).2. split_and!; [| |done|done].
  - eapply (quiet_event req (xo_stage o) msg percent); [subst percent; by destruct ok|reflexivity].
  - cbn. by destruct (x_out s).
Qed.

(** Whatever the host answers, an Xcode job emits progress events numbered from
    1 with percentages from 0 to 100 and then, last, exactly one result; it
    downloads at most three times, and if it made an attempt directory then
    the last thing it removes is the work directory, which all of them are in. *)
Theorem xcode_one_result h req :
  let s := xcode_job h req in
  (∃ events ok code msg retryable stage version app,
     x_out s = events ++ [HostToolJobResult (TrimSpace (xq_id req)) ok code msg retryable stage version app] ∧
     events ≠ [] ∧ ∀ i f, events !! i = Some f → is_event req i f) ∧
  x_downloads s ≤ maxAttempts ∧
  (x_made s = [] ∨
   ∃ w, xh_tmp h = Ok w ∧ last (x_removed s) = Some w ∧
        ∀ d, d ∈ x_made s → ∃ n, 1 ≤ n ≤ maxAttempts ∧ d = attempt_dir w n).
Proof.
  cbn zeta. unfold xcode_job. destruct (runJob h req xst0) as [r s] eqn:E.
  apply runJob_state in E as (Hn & Hd & Hc).
  destruct (finish_state req (outcome_of r) s) as (s1 & [Hn1 Hd1 Hm1] & Hne & Hr1 & ->).
  destruct (Hn1 Hn) as [_ Hev]. unfold result_frame. cbn. split; [|split].
  - do 8 eexists. split; [reflexivity|done].
  - by rw Hd1.
  - unfold cleaned in Hc. by rw Hm1 Hr1.
Qed.

(** A successful result means: the host is a Mac and some Xcode answers with a
    version; and either that Xcode satisfied the requested version and nothing
    was downloaded, or one of the three attempts downloaded every announced
    byte, passed the checksum (or size) and the archive's magic number, and
    expanded to an app, which was moved to /Applications/Xcode.app, free until
    then, and has a toolchain. *)
Theorem xcode_success_means h req id msg retryable stage version app :
  last (x_out (xcode_job h req)) = Some (HostToolJobResult id true "" msg retryable stage version app) →
  xh_goos h = "darwin" ∧ version ≠ "" ∧ msg = "" ∧
  ((stage = "checking" ∧ app = "" ∧ x_downloads (xcode_job h req) = 0 ∧ satisfiesXcodeTarget version (xq_target req) = true) ∨
   (stage = "completed" ∧ app = standard_dest ∧ xh_destExists h = false ∧ xh_move h = None ∧
    xh_toolchain h (Join [standard_dest; "Contents"; "Developer"]) = true ∧
    ∃ n a, 1 ≤ n ≤ maxAttempts ∧ usable h req n a)).
Proof.
  unfold xcode_job. destruct (runJob h req xst0) as [r s] eqn:E.
  destruct (finish_state req (outcome_of r) s) as (s1 & [_ Hd1 _] & _ & _ & ->). cbn. rw last_snoc Hd1.
  intros [= _ Hok _ <- _ <- <- <-]. apply andb_prop in Hok as [Hok _]. apply bool_decide_eq_true in Hok. rw Hok.
  destruct r as [o|o]; cbn [outcome_of] in *; [|by destruct (halts_run h req _ _ _ E)].
  unfold runJob in E. apply bind_next in E as ([] & s0 & E1 & E).
  destruct (String.eqb_spec (xh_goos h) "darwin") as [Hg|]; [|discriminate E]. split; [done|].
  apply bind_next in E as (cur & s2 & E2 & E).
  destruct (negb (String.eqb cur "") && satisfiesXcodeTarget cur (xq_target req)) eqn:Ec in E.
  - injection E as <- <-. cbn. apply andb_prop in Ec as [Hne Hsat].
    split; [by destruct (String.eqb_spec cur "")|]. split; [done|]. left. split_and!; try done.
    apply quiet_event with (req := req) in E1 as [_ Hd0 _]; [|lia]. apply (quiet_detect h req) in E2 as [_ Hd2 _].
    by rw Hd2 Hd0.
  - destruct (xh_tmp h) as [w|e]; [|discriminate E]. unfold deferred in E.
    destruct (download_install h req w s2) as [r3 s3] eqn:E3. injection E as -> _.
    unfold download_install in E3. destruct (if (0 <? xq_size req)%Z then _ else _); [discriminate E3|].
    apply bind_next in E3 as (a & s4 & Ha & E3). apply attempts_next in Ha as (n & Hn & Hu); [|unfold maxAttempts; lia..].
    unfold install_app in E3. apply bind_next in E3 as ([] & ? & _ & E3). unfold moveXcodeApp in E3.
    destruct (xh_destExists h) eqn:Ed; [apply bind_next in E3 as ([] & ? & _ & E3); discriminate E3|].
    destruct (xh_move h) eqn:Em; [apply bind_next in E3 as ([] & ? & _ & E3); discriminate E3|].
    destruct (xh_toolchain h _) eqn:Et in E3; [|discriminate E3]. cbn [negb] in E3.
    do 7 apply bind_next in E3 as (? & ? & _ & E3). apply bind_next in E3 as (ver & ? & _ & E3).
    destruct (String.eqb_spec ver "") as [|Hv]; [discriminate E3|]. injection E3 as <- _. cbn.
    split; [done|]. split; [done|]. right. split_and!; try done. by exists n, a.
Qed.

(** ** The table of jobs *)
Definition job_key (j : xjob) : string := TrimSpace (xq_id (xj_req j)).
Definition tabled_iff (s : jsys) : Prop :=
  ∀ id k, j_table s !! id = Some k ↔ ∃ j, j_jobs s !! k = Some j ∧ xj_live j = true ∧ job_key j = id.
Record jinv (s : jsys) : Prop := {
  ji_table : tabled_iff s;
  ji_one : size (j_table s) ≤ 1
}.
Lemma cancel_xjob_jobs k s i j :
  j_jobs (cancel_xjob k s) !! i = Some j →
  ∃ j0, j_jobs s !! i = Some j0 ∧ xj_live j = xj_live j0 ∧ xj_req j = xj_req j0 ∧ (xj_cancelled j0 → xj_cancelled j).
Proof.
  cbn. destruct (decide (i = k)) as [-> |]; [|rw list_lookup_alter_ne //; eauto].
  rw list_lookup_alter_eq. destruct (j_jobs s !! k) as [j0|]; cbn; [|done]. intros [= <-]. by exists j0.
Qed.
Lemma cancel_xjob_keeps k s i j0 :
  j_jobs s !! i = Some j0 →
  ∃ j, j_jobs (cancel_xjob k s) !! i = Some j ∧ xj_live j = xj_live j0 ∧ xj_req j = xj_req j0.
Proof.
  intros Hi. cbn. destruct (decide (i = k)) as [-> |]; [|rw list_lookup_alter_ne //; eauto].
  rw list_lookup_alter_eq Hi /=. by eexists.
Qed.
Lemma jinv_cancel k s : jinv s → jinv (cancel_xjob k s).
Proof.
  intros [Ht Hs]. split; [|exact Hs]. intros id i. cbn [j_table cancel_xjob]. etrans; [apply Ht|]. unfold job_key. split.
  - intros (j & Hj & Hl & Hid). destruct (cancel_xjob_keeps k s i j Hj) as (j' & Hj' & Hl' & Hr').
    exists j'. by rw Hl' Hr'.
  - intros (j & Hj & Hl & Hid). apply cancel_xjob_jobs in Hj as (j0 & Hj0 & Hl0 & Hr0 & _).
    exists j0. by rw -Hl0 -Hr0.
Qed.
Lemma jinv_acks s a : jinv s → jinv (s <| j_acks := a |>).
Proof. intros [Ht Hs]. by split. Qed.
Lemma jinv_start req s : jinv s → jinv (Start req s).2.
Proof.
  intros I. unfold Start. destruct (Start_check req); [done|]. destruct (j_table s !! _) eqn:E; [done|].
  destruct (0 <? size (j_table s)) eqn:E0; [done|]. destruct I as [Ht _].
  assert (j_table s = ∅) as He by (apply map_size_empty_iff; go_bool; lia). split; cbn.
  - intros id k. cbn. rw He lookup_insert_Some lookup_empty. split.
    + intros [[<- <-]|[_ [=]]]. eexists. split; [by apply list_lookup_middle|done].
    + intros (j & [Hj|[Hk Hj]]%lookup_app_Some & Hl & <-).
      * assert (j_table s !! job_key j = Some k) as Hx by (apply Ht; eauto). rw He lookup_empty in Hx. done.
      * apply list_lookup_singleton_Some in Hj as [Hi <-]. left. split; [done|]. lia.
  - rw He insert_empty map_size_singleton. lia.
Qed.
Lemma jinv_end k j s : j_jobs s !! k = Some j → xj_live j = true → jinv s → jinv (job_end k j s).
Proof.
  intros Hk Hl [Ht Hs]. split; cbn; [|etrans; [by apply map_subseteq_size, delete_subseteq|done]].
  assert (j_table s !! job_key j = Some k) as Hjk by (apply Ht; eauto).
  intros id i. cbn. fold (job_key j). rw lookup_delete_Some. split.
  - intros [Hne Hi]. destruct (proj1 (Ht id i) Hi) as (j0 & Hj0 & Hl0 & Hid).
    exists j0. split; [|done]. rw list_lookup_alter_ne; [done|]. intros <-. congruence.
  - intros (j0 & Hj0 & Hl0 & Hid). destruct (decide (k = i)) as [<- |Hki].
    + rw list_lookup_alter_eq Hk /= in Hj0. injection Hj0 as <-. discriminate Hl0.
    + rw list_lookup_alter_ne // in Hj0. assert (j_table s !! id = Some i) as Hi by (apply Ht; eauto).
      split; [|done]. congruence.
Qed.
Lemma jinv_step s l s' : jinv s → jstep s l = Some s' → jinv s'.
Proof.
  intros I Hs. destruct l as [frameID [req|id|]|k|]; cbn in Hs.
  - pose proof (jinv_start req s I) as I'. destruct (Start req s) as [e s1]. injection Hs as <-. by apply jinv_acks.
  - injection Hs as <-. apply jinv_acks. unfold Cancel. case_match; [by apply jinv_cancel|done].
  - by injection Hs as <-.
  - destruct (j_jobs s !! k) as [j|] eqn:Ej; [|done]. cbn in Hs. destruct (xj_live j) eqn:El; [|done].
    injection Hs as <-. by apply jinv_end.
  - injection Hs as <-. unfold StopAll. induction (map_to_list _) as [|[id k] m IH]; cbn; [done|]. by apply jinv_cancel.
Qed.

(** At most one Xcode job runs on a host at a time: under every order of
    start, cancel and shutdown frames and of jobs ending, two live jobs are the
    same job, and the table names exactly it. A start while another job runs is
    refused and starts nothing; a cancel reaches the named job's context. *)
Theorem xcode_one_job ls s :
  jrun jinit ls s →
  (∀ id k, j_table s !! id = Some k ↔ ∃ j, j_jobs s !! k = Some j ∧ xj_live j = true ∧ TrimSpace (xq_id (xj_req j)) = id) ∧
  (∀ i k j j', j_jobs s !! i = Some j → xj_live j = true → j_jobs s !! k = Some j' → xj_live j' = true → i = k) ∧
  (∀ k j req, j_jobs s !! k = Some j → xj_live j = true → (Start req s).2 = s) ∧
  (∀ k j, j_jobs s !! k = Some j → xj_live j = true →
     xj_cancelled <$> j_jobs (Cancel (TrimSpace (xq_id (xj_req j))) s) !! k = Some true).
Proof.
  intros Hr. assert (jinv s) as [Ht Hs].
  { apply (trace_run_invariant (fun_step jstep) jinv) with (s := jinit) (ls := ls); [by intros ???; apply jinv_step| |exact Hr].
    split; [|cbn; rw map_size_empty; lia]. intros id k. cbn. split; [done|]. by intros (j & Hj & _). }
  split_and!; [exact Ht| | |].
  - intros i k j j' Hi Hl Hk Hl'. assert (j_table s !! job_key j = Some i) as H1 by (apply Ht; eauto).
    assert (j_table s !! job_key j' = Some k) as H2 by (apply Ht; eauto).
    destruct (decide (job_key j = job_key j')) as [He|Hne]; [congruence|].
    assert (size ({[job_key j := i; job_key j' := k]} : gmap string nat) ≤ size (j_table s)) as Hle.
    { apply map_subseteq_size. apply insert_subseteq_l; [done|]. by apply map_singleton_subseteq_l. }
    rw map_size_insert_None in Hle; [rw map_size_singleton in Hle; lia|]. by apply lookup_singleton_ne.
  - intros k j req Hk Hl. assert (j_table s !! job_key j = Some k) as H1 by (apply Ht; eauto).
    unfold Start. destruct (Start_check req); [done|]. destruct (j_table s !! TrimSpace _); [done|].
    destruct (0 <? size (j_table s)) eqn:E; [done|]. go_bool.
    assert (j_table s = ∅) as He by (apply map_size_empty_iff; lia). rw He lookup_empty in H1. done.
  - intros k j Hk Hl. assert (j_table s !! job_key j = Some k) as H1 by (apply Ht; eauto). unfold Cancel.
    fold (job_key j). rw H1. cbn. by rw list_lookup_alter_eq Hk.
Qed.

(** ** Evaluated jobs *)
Definition demo_xreq : xcodeReq :=
  mkXcode " job-1 " "xcode" "16.2" "https://download.example/Xcode_16.2.xip" 100 "ab12" "" "" "" 0.
Definition demo_dl : dl_host :=
  mkDl None (DlBody 100 [mkDlRead 60 None true ReadMore; mkDlRead 40 None false ReadEOF]) None None None.
(** no Xcode yet; the first file fails its checksum, the second is good *)
Definition demo_xhost : xhost := {|
  xh_goos := "darwin"; xh_ctx := λ _, None;
  xh_exec := λ n, match n with 0 => ("", Some "not found") | 4 => ("Xcode 16.2" +:+ String "010" "Build version 16C5032a", None) | _ => ("", None) end;
  xh_apps := []; xh_toolchain := λ d, String.eqb d "/Applications/Xcode.app/Contents/Developer";
  xh_activate := λ _, "DEVELOPER_DIR"; xh_tmp := Ok "/tmp/x"; xh_free := None; xh_mkdir := λ _, None;
  xh_dl := λ _, demo_dl; xh_sha := λ n, match n with 1 => Some "sha256 mismatch" | _ => None end;
  xh_size := λ _, None; xh_head := λ _, Ok "xar!"; xh_xip := λ _, (2, ("", None));
  xh_extracted := λ _, ["/tmp/x/try2/Xcode.app"]; xh_destExists := false; xh_move := None; xh_proxy := None |}.
Definition demo_version : string := "Xcode 16.2" +:+ String "010" "Build version 16C5032a".
Lemma xcode_success_means_witness :
  last (x_out (xcode_job demo_xhost demo_xreq)) =
    Some (HostToolJobResult "job-1" true "" "" false "completed" demo_version standard_dest) ∧
  x_downloads (xcode_job demo_xhost demo_xreq) = 2 ∧
  ∃ n a, 1 ≤ n ≤ maxAttempts ∧ usable demo_xhost demo_xreq n a.
Proof.
  assert (E : last (x_out (xcode_job demo_xhost demo_xreq)) =
    Some (HostToolJobResult "job-1" true "" "" false "completed" demo_version standard_dest)) by (vm_compute; reflexivity).
  split; [exact E|]. split; [vm_compute; reflexivity|].
  destruct (xcode_success_means _ _ _ _ _ _ _ _ E) as (_ & _ & _ & [(H & _)|(_ & _ & _ & _ & _ & H)]); [discriminate H|exact H].
Defined.

Definition demo_jobs : list jlabel :=
  [JFrame "f1" (HostToolJob demo_xreq); JFrame "f2" (HostToolJobCancel "job-1")].
Definition demo_jsys : jsys := mkJsys [mkXJob demo_xreq true true] {["job-1" := 0]} [("f1", None); ("f2", None)].
Lemma xcode_one_job_witness : jrun jinit demo_jobs demo_jsys ∧ (Start (mkXcode "job-2" "xcode" "16.2" "https://x/y.xip" 0 "" "" "" "" 0) demo_jsys).2 = demo_jsys.
Proof.
  assert (Hr : jrun jinit demo_jobs demo_jsys) by (apply exec_run; vm_compute; reflexivity).
  split; [exact Hr|]. apply (xcode_one_job _ _ Hr) with (k := 0) (j := mkXJob demo_xreq true true); reflexivity.
Defined.
