(* ===== verification/EditorConfig.v ===== *)
(** * EditorConfig: what a session writes for its editor (execution/editorconfig.go)

    The configuration files of the editors as a store from path to content.  A
    file written as JSON is kept as the value it encodes ([CJson]; the fields
    of an object are the canonical list of a map, since Go sorts them); any
    other file is its text.  The host decides which operations fail and what a
    failed write leaves behind.  A write to a nil map panics ([CPanic]). *)
From S2P Require Import Prelude GoStrings GoPath GoJson Workspace.
From Stdlib Require Import Ascii.
Open Scope nat_scope.

Inductive content := CText (text : string) | CJson (v : json).
Definition files := gmap string content.
Inductive cresult := COk | CErr (e : string) | CPanic.
Record chost := mkChost {
  ch_mkdir : string → option string;                       (** os.MkdirAll *)
  ch_write : string → option (string * option content);    (** os.WriteFile: the error and what is left *)
  ch_remove : string → option string;                      (** os.Remove on a file that exists *)
  ch_read : string → option string;                        (** os.ReadFile on a file that exists *)
  ch_float : string → option string                        (** a JSON number read as a float64 and printed again; [None]: out of range *)
}.

(** ** Requests *)
Record EnvVarSpec := mkEnvVar { ev_name : string; ev_value : string }.
Record MCPServerSpec := mkMcp {
  mcp_name : string; mcp_type : string; mcp_command : string; mcp_args : list string; mcp_env : list EnvVarSpec;
  mcp_url : string; mcp_transport : string; mcp_headers : list EnvVarSpec
}.
Record NodeLLMConfig := mkLlm {
  llm_endpoint : string; llm_model : string; llm_protocol : string; llm_apiKey : string; llm_extra : gmap string string
}.

(** ** Helpers *)
Definition isRemoteMCP (mcp : MCPServerSpec) : bool :=
  if EqualFold (TrimSpace (mcp_type mcp)) "local" then false
  else if negb (String.eqb (TrimSpace (mcp_command mcp)) "") then false
  else negb (String.eqb (TrimSpace (mcp_url mcp)) "").
Definition no_items {A} (l : list A) : bool := match l with [] => true | _ => false end.
Definition no_keys {A} (m : gmap string A) : bool := size m =? 0.
Definition one_of (s : string) (names : list string) : bool := existsb (String.eqb s) names.
(** The default branch keeps a name of another alphabet as [ToLower] does. *)
Definition normalizeProvider (provider : string) : string :=
  let p := ToLower (TrimSpace provider) in
  if one_of p ["claude"; "claude-code"; "claude_code"] then "claude"
  else if String.eqb p "codex" then "codex"
  else if one_of p ["gemini"; "gemini-cli"; "gemini_cli"] then "gemini"
  else if one_of p ["opencode"; "open-code"; "open_code"] then "opencode"
  else if one_of p ["cursor"; "cursor-agent"; "cursor_agent"] then "cursor"
  else p.
Definition normalizeWireAPI (protocol : string) : string :=
  let p := ToLower (TrimSpace protocol) in
  if one_of p ["chat"; "chat_completions"; "chat-completions"] then "chat"
  else if one_of p ["responses"; ""] then "responses" else p.
Definition ends_with (s suffix : string) : bool := HasPrefix (string_reverse s) (string_reverse suffix).
(** the text before the first ? or # *)
Fixpoint before_query (s : string) : string :=
  match s with
  | EmptyString => ""
  | String c s => if Ascii.eqb c "?" || Ascii.eqb c "#" then "" else String c (before_query s)
  end.
Definition normalizeRuntimeTransport (transport url : string) : string :=
  let t := ToLower (TrimSpace transport) in
  if String.eqb t "sse" then "sse"
  else if one_of t ["http"; "streamable_http"; "streamable-http"] then "http"
  else if ends_with (TrimRightChar "/" (before_query (ToLower (TrimSpace url)))) "/sse" then "sse" else "http".
(** The specs are changed in place; the origin is what the hello frame announced. *)
Definition resolveMCPURLs (gatewayOrigin : string) (mcps : list MCPServerSpec) : list MCPServerSpec :=
  let origin := TrimSpace gatewayOrigin in
  if String.eqb origin "" then mcps
  else
    let origin := TrimRightChar "/" origin in
    map (λ mcp,
      let url := TrimSpace (mcp_url mcp) in
      if negb (isRemoteMCP mcp) || String.eqb url "" || negb (HasPrefix url "/") then mcp
      else mkMcp (mcp_name mcp) (mcp_type mcp) (mcp_command mcp) (mcp_args mcp) (mcp_env mcp)
             (origin +:+ url) (mcp_transport mcp) (mcp_headers mcp)) mcps.

(** ** JSON objects *)
Definition obj (m : gmap string json) : json := JObject (map_to_list m).
Definition to_map (l : list (string * json)) : gmap string json := list_to_map (rev l).
(** strings of a request are marshalled as they are; Go replaces what is not UTF-8 *)
Definition strs (l : list string) : json := JArray (map JString l).

Definition writeFile (h : chost) (path : string) (c : content) (wrap : string) (fs : files) : cresult * files :=
  match ch_write h path with
  | Some (e, kept) => (CErr (wrap +:+ e), partial_alter (λ _, kept) path fs)
  | None => (COk, <[path := c]> fs)
  end.
(** os.Remove with os.IsNotExist forgiven *)
Definition removeFile (h : chost) (path : string) (wrap : string) (fs : files) : cresult * files :=
  match fs !! path with
  | None => (COk, fs)
  | Some _ =>
      match ch_remove h path with
      | Some e => (CErr (wrap +:+ e), fs)
      | None => (COk, delete path fs)
      end
  end.

(** ** The runtime's own files *)
Definition runtimeMCPConfigPath (stateRoot : string) : string := Join [stateRoot; "agents"; "mcp"; "config.json"].
Definition agentSystemPromptPath (stateRoot : string) : string :=
  Join [stateRoot; "agents"; "system-prompts"; "system-prompt.txt"].
Definition writeAgentSystemPrompt (h : chost) (stateRoot prompt : string) (fs : files) : cresult * files :=
  let path := agentSystemPromptPath stateRoot in
  match ch_mkdir h (Dir path) with
  | Some e => (CErr ("create agent system prompt dir: " +:+ e), fs)
  | None => writeFile h path (CText prompt) "write agent system prompt: " fs
  end.
Definition runtimeEnvMap (items : list EnvVarSpec) : option json :=
  let out : gmap string json := foldl (λ out item,
    let name := TrimSpace (ev_name item) in
    if String.eqb name "" then out else <[name := obj {["value" := JString (ev_value item)]}]> out) ∅ items in
  if no_keys out then None else Some (obj out).
Definition with_opt (key : string) (v : option json) (m : gmap string json) : gmap string json :=
  match v with Some v => <[key := v]> m | None => m end.
Definition runtime_entry (mcp : MCPServerSpec) : json :=
  if isRemoteMCP mcp then
    obj (with_opt "headers" (runtimeEnvMap (mcp_headers mcp))
      {["type" := JString "remote";
        "transport" := JString (normalizeRuntimeTransport (mcp_transport mcp) (mcp_url mcp));
        "url" := JString (TrimSpace (mcp_url mcp))]})
  else
    obj (with_opt "env" (runtimeEnvMap (mcp_env mcp))
      (with_opt "args" (if no_items (mcp_args mcp) then None else Some (strs (mcp_args mcp)))
        {["type" := JString "local"; "command" := JString (TrimSpace (mcp_command mcp))]})).
(** one entry per trimmed name, the last one winning *)
Definition servers (entry : MCPServerSpec → json) (mcps : list MCPServerSpec) : gmap string json :=
  foldl (λ out mcp, let name := TrimSpace (mcp_name mcp) in
    if String.eqb name "" then out else <[name := entry mcp]> out) ∅ mcps.
Definition writeRuntimeMCPConfig (h : chost) (stateRoot : string) (mcps : list MCPServerSpec) (fs : files) : cresult * files :=
  let path := runtimeMCPConfigPath stateRoot in
  let m := servers runtime_entry mcps in
  if no_keys m then removeFile h path "remove runtime mcp config: " fs
  else match ch_mkdir h (Dir path) with
  | Some e => (CErr ("create runtime mcp config dir: " +:+ e), fs)
  | None => writeFile h path (CJson (obj {["mcps" := obj m]})) "write runtime mcp config: " fs
  end.

(** ** Managed text blocks *)
Definition codexManagedMCPStart : string := "# agent-compose managed mcp start".
Definition codexManagedMCPEnd : string := "# agent-compose managed mcp end".
Definition newline : string := String "010" "".
Definition replaceManagedTextBlock (existing start finish block : string) : string :=
  let absent :=
    if String.eqb block "" then existing
    else if String.eqb (TrimSpace existing) "" then block
    else TrimRightChar "010" existing +:+ newline +:+ newline +:+ block +:+ newline in
  match Index existing start, Index existing finish with
  | Some s, Some e =>
      if s <? e then
        let before := take_bytes s existing in
        let after := drop_bytes (e + String.length finish) existing in
        if String.eqb block "" then TrimRightChar "010" before +:+ TrimLeftChar "010" after
        else before +:+ block +:+ after
      else absent
  | _, _ => absent
  end.
Definition extractManagedTextBlock (existing start finish : string) : string :=
  match Index existing start, Index existing finish with
  | Some s, Some e => if s <? e then take_bytes (e + String.length finish - s) (drop_bytes s existing) else ""
  | _, _ => ""
  end.

(** ** Quoting *)
Definition hex_low (n : N) : ascii := ascii_of_N (if (n <? 10)%N then n + 48 else n + 87)%N.
Definition hex2 (c : ascii) : string := String (hex_low (code c / 16)%N) (String (hex_low (code c mod 16)%N) "").
Definition dquote : string := String "034" "".
Definition short_escape (c : ascii) : option ascii :=
  if is_code 7 c then Some "a"%char else if is_code 8 c then Some "b"%char else if is_code 12 c then Some "f"%char
  else if is_code 10 c then Some "n"%char else if is_code 13 c then Some "r"%char else if is_code 9 c then Some "t"%char
  else if is_code 11 c then Some "v"%char else None.
Section quoting.
(** strconv.Quote on a rune of several bytes: itself when unicode.IsPrint, else its escape *)
Variable quote_rune : string → string.
Definition quote_one (r : rune) : string :=
  match r with
  | RAscii c =>
      if is_code 34 c || is_code 92 c then String "\" (String c "")
      else if in_range 32 126 c then String c ""
      else match short_escape c with Some e => String "\" (String e "") | None => "\x" +:+ hex2 c end
  | RMulti enc => quote_rune enc
  | RInvalid c => "\x" +:+ hex2 c
  end.
(** fmt's %q *)
Definition q (s : string) : string := dquote +:+ foldr (λ r acc, quote_one r +:+ acc) "" (runes s) +:+ dquote.
End quoting.
(** a string in json.Marshal's output *)
Definition json_one (r : rune) : string :=
  match r with
  | RAscii c =>
      if is_code 34 c || is_code 92 c then String "\" (String c "")
      else if Ascii.eqb c "<" || Ascii.eqb c ">" || Ascii.eqb c "&" || (code c <? 32)%N then
        match short_escape c with
        | Some e => if is_code 7 c || is_code 11 c then "\u00" +:+ hex2 c else String "\" (String e "")
        | None => "\u00" +:+ hex2 c
        end
      else String c ""
  | RMulti enc =>
      if String.eqb enc (String "226" (String "128" (String "168" ""))) then "\u2028"
      else if String.eqb enc (String "226" (String "128" (String "169" ""))) then "\u2029" else enc
  | RInvalid _ => "\ufffd"
  end.
Definition json_quote (s : string) : string := dquote +:+ foldr (λ r acc, json_one r +:+ acc) "" (runes s) +:+ dquote.
Definition json_strings (l : list string) : string := "[" +:+ concat_sep "," (map json_quote l) +:+ "]".

Section codex.
Variable quote_rune : string → string.
Local Abbreviation q := (q quote_rune).

(** ** codex (TOML) *)
Definition codexConfigPath (home : string) : string := Join [home; ".codex"; "config.toml"].
Definition by_name (a b : MCPServerSpec) : Prop := Is_true (String.leb (mcp_name a) (mcp_name b)).
Definition vars_block (vars : list EnvVarSpec) : string :=
  foldr (λ v acc, ev_name v +:+ " = " +:+ q (ev_value v) +:+ newline +:+ acc) "" vars.
Definition codex_server (mcp : MCPServerSpec) : string :=
  let name := TrimSpace (mcp_name mcp) in
  if String.eqb name "" then ""
  else
    "[mcp_servers." +:+ name +:+ "]" +:+ newline +:+
    (if isRemoteMCP mcp then
       "url = " +:+ q (TrimSpace (mcp_url mcp)) +:+ newline +:+
       (if no_items (mcp_headers mcp) then ""
        else "[mcp_servers." +:+ name +:+ ".http_headers]" +:+ newline +:+ vars_block (mcp_headers mcp))
     else
       "command = " +:+ q (TrimSpace (mcp_command mcp)) +:+ newline +:+
       (if no_items (mcp_args mcp) then "" else "args = " +:+ json_strings (mcp_args mcp) +:+ newline) +:+
       (if no_items (mcp_env mcp) then ""
        else "[mcp_servers." +:+ name +:+ ".env]" +:+ newline +:+ vars_block (mcp_env mcp))).
(** sort.Slice leaves the order of equal names open; here it is the given one *)
Definition buildCodexManagedMCPBlock (mcps : list MCPServerSpec) : string :=
  if no_items (mcps) then ""
  else codexManagedMCPStart +:+ newline +:+
       foldr (λ mcp acc, codex_server mcp +:+ acc) "" (merge_sort by_name mcps) +:+ codexManagedMCPEnd.
(** os.ReadFile with its error dropped; our own JSON files are elsewhere *)
Definition text_of (h : chost) (path : string) (fs : files) : string :=
  match ch_read h path, fs !! path with
  | None, Some (CText t) => t
  | _, _ => ""
  end.
Definition writeCodexMCPConfig (h : chost) (home : string) (mcps : list MCPServerSpec) (fs : files) : cresult * files :=
  let path := codexConfigPath home in
  match ch_mkdir h (Dir path) with
  | Some e => (CErr ("create codex config dir: " +:+ e), fs)
  | None =>
      let merged := replaceManagedTextBlock (text_of h path fs) codexManagedMCPStart codexManagedMCPEnd
                      (buildCodexManagedMCPBlock mcps) in
      if String.eqb (TrimSpace merged) "" then removeFile h path "remove codex config: " fs
      else writeFile h path (CText merged) "write codex mcp config: " fs
  end.

Definition codexModelCatalogFilename : string := "ai-lubricant-model-catalog.json".
(** a row as json.Unmarshal reads it, and the number of a JSON number *)
Record codexCatalogRow := mkRow { cr_name : string; cr_model : string; cr_contextWindow : Z }.
Definition catalog_entry (priority : nat) (row : codexCatalogRow) : option json :=
  if String.eqb (TrimSpace (cr_model row)) "" then None
  else
    let name := if String.eqb (TrimSpace (cr_name row)) "" then cr_model row else TrimSpace (cr_name row) in
    let ctx := if (cr_contextWindow row <=? 0)%Z then 128000%Z else cr_contextWindow row in
    let num z := JNumber (itoa (Z.to_N z)) in
    Some (obj {["slug" := JString (cr_model row); "display_name" := JString name; "description" := JString name;
                "context_window" := num ctx; "max_context_window" := num ctx; "priority" := num (Z.of_nat priority);
                "additional_speed_tiers" := JArray []; "service_tiers" := JArray []; "availability_nux" := JNull;
                "upgrade" := JNull]}).
(** [decode]: json.Unmarshal into []codexCatalogRow *)
Definition writeCodexModelCatalog (decode : string → option (list codexCatalogRow)) (h : chost) (home raw : string) (fs : files)
  : string * files :=
  let raw := TrimSpace raw in
  if String.eqb raw "" then ("", fs)
  else match decode raw with
  | None => ("", fs)
  | Some rows =>
      let entries := omap id (imap (λ i row, catalog_entry (1000 + i) row) rows) in
      if no_items (entries) then ("", fs)
      else
        let dir := Dir (codexConfigPath home) in
        match ch_mkdir h dir with
        | Some _ => ("", fs)
        | None =>
            match writeFile h (Join [dir; codexModelCatalogFilename]) (CJson (obj {["models" := JArray entries]})) "" fs with
            | (COk, fs) => ("model_catalog_json = " +:+ q codexModelCatalogFilename +:+ newline, fs)
            | (_, fs) => ("", fs)
            end
        end
  end.
Fixpoint catalog_line (lines : list string) : string :=
  match lines with
  | [] => ""
  | line :: lines => if HasPrefix (TrimSpace line) "model_catalog_json" then line +:+ newline else catalog_line lines
  end.
Definition existingModelCatalogField (existing : string) : string := catalog_line (Split1 "010" existing).
Definition llmKeyEnvVar : string := "AGENT_COMPOSE_LLM_KEY".
Definition line (s : string) : string := s +:+ newline.
Definition codex_head (baseURL model wireAPI reasoningEffort catalog : string) : string :=
  line ("model_provider = " +:+ q "agent_compose") +:+ line ("model = " +:+ q model) +:+
  (if String.eqb reasoningEffort "" then "" else line ("model_reasoning_effort = " +:+ q reasoningEffort)) +:+
  catalog +:+
  newline +:+ line "[model_providers.agent_compose]" +:+ line ("name = " +:+ q "agent-compose") +:+
  line ("base_url = " +:+ q baseURL) +:+ line ("env_key = " +:+ q llmKeyEnvVar) +:+ line ("wire_api = " +:+ q wireAPI) +:+
  line "request_max_retries = 30" +:+ line "stream_max_retries = 50" +:+ line "stream_idle_timeout_ms = 120000" +:+
  newline +:+ line "[shell_environment_policy]" +:+ line ("inherit = " +:+ q "all") +:+
  newline +:+ line "[history]" +:+ line ("persistence = " +:+ q "save-all").
Definition extra (llm : NodeLLMConfig) (key : string) : string := default "" (llm_extra llm !! key).
(** the head of the file: the catalog line just written, or the one already there *)
Definition codex_head_of (existing catalogHead : string) (llm : NodeLLMConfig) : string :=
  codex_head (TrimRightChar "/" (TrimSpace (llm_endpoint llm))) (TrimSpace (llm_model llm))
    (normalizeWireAPI (llm_protocol llm)) (TrimSpace (extra llm "REASONING_EFFORT"))
    (if String.eqb catalogHead "" then existingModelCatalogField existing else catalogHead).
Definition writeCodexRuntimeConfig (decode : string → option (list codexCatalogRow)) (h : chost) (home : string)
    (llm : NodeLLMConfig) (fs : files) : cresult * files :=
  let baseURL := TrimRightChar "/" (TrimSpace (llm_endpoint llm)) in
  if String.eqb baseURL "" then (COk, fs)
  else
    let path := codexConfigPath home in
    match ch_mkdir h (Dir path) with
    | Some e => (CErr ("create codex config dir: " +:+ e), fs)
    | None =>
        let existing := text_of h path fs in
        let managed := extractManagedTextBlock existing codexManagedMCPStart codexManagedMCPEnd in
        let '(catalogHead, fs) := writeCodexModelCatalog decode h home (extra llm "CODEX_MODEL_CATALOG") fs in
        let out := codex_head_of existing catalogHead llm in
        let out := if String.eqb managed "" then out else out +:+ newline +:+ managed +:+ newline in
        writeFile h path (CText out) "write codex config: " fs
    end.

(** ** opencode (JSON) *)
Definition openCodeConfigPath (home : string) : string := Join [home; ".config"; "opencode"; "opencode.json"].
(** json.Unmarshal into an [any]: a number becomes a float64, the last of
    several equal keys wins; a number out of range is an error *)
Fixpoint decode_any (h : chost) (v : json) : option json :=
  match v with
  | JNumber t => JNumber <$> ch_float h t
  | JArray l =>
      JArray <$> (fix go l := match l with [] => Some [] | v :: l => v ← decode_any h v; l ← go l; Some (v :: l) end) l
  | JObject l =>
      (λ l, obj (to_map l)) <$>
        (fix go l := match l with [] => Some [] | (k, v) :: l => v ← decode_any h v; l ← go l; Some ((k, v) :: l) end) l
  | _ => Some v
  end.
(** the payload, [None] for a nil map: what reading "null" leaves *)
Definition loadOpenCodeConfig (h : chost) (path : string) (fs : files) : result (option (gmap string json)) :=
  match fs !! path with
  | None => Ok (Some ∅)
  | Some c =>
      match ch_read h path with
      | Some e => Err e
      | None =>
          let of_json v := match decode_any h v with
            | Some (JObject l) => Some (to_map l)
            | Some JNull => None
            | _ => Some ∅
            end in
          match c with
          | CJson v => Ok (of_json v)
          | CText t => if String.eqb (TrimSpace t) "" then Ok (Some ∅)
                       else Ok (match parse t with Some v => of_json v | None => Some ∅ end)
          end
      end
  end.
Definition saveOpenCodeConfig (h : chost) (path : string) (payload : option (gmap string json)) (fs : files) : cresult * files :=
  match ch_mkdir h (Dir path) with
  | Some e => (CErr ("create opencode config dir: " +:+ e), fs)
  | None => writeFile h path (CJson (match payload with Some m => obj m | None => JNull end)) "write opencode config: " fs
  end.
(** payload["provider"].(map[string]any) *)
Definition provider_map (payload : gmap string json) : gmap string json :=
  match payload !! "provider" with Some (JObject l) => to_map l | _ => ∅ end.
Definition agent_compose_provider (baseURL apiKey : string) : json :=
  obj {["options" := obj {["baseURL" := JString baseURL; "apiKey" := JString apiKey]}]}.
Definition with_llm (baseURL apiKey model : string) (payload : gmap string json) : gmap string json :=
  let payload := <["provider" := obj (<["agent-compose" := agent_compose_provider baseURL apiKey]> (provider_map payload))]> payload in
  if String.eqb model "" then payload else <["model" := JString ("agent-compose/" +:+ model)]> payload.
Definition writeOpenCodeRuntimeConfig (h : chost) (home : string) (llm : NodeLLMConfig) (fs : files) : cresult * files :=
  let baseURL := TrimRightChar "/" (TrimSpace (llm_endpoint llm)) in
  if String.eqb baseURL "" then (COk, fs)
  else
    let path := openCodeConfigPath home in
    match loadOpenCodeConfig h path fs with
    | Err e => (CErr e, fs)
    | Ok None => (CPanic, fs)
    | Ok (Some payload) =>
        saveOpenCodeConfig h path (Some (with_llm baseURL (TrimSpace (llm_apiKey llm)) (TrimSpace (llm_model llm)) payload)) fs
    end.
Definition var_map (vars : list EnvVarSpec) : json :=
  obj (foldl (λ m v, <[ev_name v := JString (ev_value v)]> m) ∅ vars).
Definition opt_vars (vars : list EnvVarSpec) : option json := if no_items (vars) then None else Some (var_map vars).
Definition opencode_entry (mcp : MCPServerSpec) : json :=
  if isRemoteMCP mcp then
    obj (with_opt "headers" (opt_vars (mcp_headers mcp)) {["type" := JString "remote"; "url" := JString (TrimSpace (mcp_url mcp))]})
  else
    obj (with_opt "environment" (opt_vars (mcp_env mcp))
      {["type" := JString "local"; "command" := strs (TrimSpace (mcp_command mcp) :: mcp_args mcp)]}).
Definition with_mcps (m payload : gmap string json) : gmap string json :=
  if no_keys m then delete "mcp" payload else <["mcp" := obj m]> payload.
Definition writeOpenCodeMCPConfig (h : chost) (home : string) (mcps : list MCPServerSpec) (fs : files) : cresult * files :=
  let path := openCodeConfigPath home in
  match loadOpenCodeConfig h path fs with
  | Err e => (CErr e, fs)
  | Ok payload =>
      let m := servers opencode_entry mcps in
      match payload with
      | None => if no_keys m then saveOpenCodeConfig h path None fs else (CPanic, fs)
      | Some payload => saveOpenCodeConfig h path (Some (with_mcps m payload)) fs
      end
  end.

(** ** claude (.mcp.json) *)
Definition claude_entry (mcp : MCPServerSpec) : json :=
  if isRemoteMCP mcp then
    obj (with_opt "headers" (opt_vars (mcp_headers mcp)) {["type" := JString "http"; "url" := JString (TrimSpace (mcp_url mcp))]})
  else
    obj (with_opt "env" (opt_vars (mcp_env mcp))
      (with_opt "args" (if no_items (mcp_args mcp) then None else Some (strs (mcp_args mcp)))
        {["command" := JString (TrimSpace (mcp_command mcp))]})).
Definition claudeMCPPath (home : string) : string := Join [home; ".mcp.json"].
Definition writeClaudeMCPConfig (h : chost) (home : string) (mcps : list MCPServerSpec) (fs : files) : cresult * files :=
  let path := claudeMCPPath home in
  if no_items (mcps) then removeFile h path "remove claude mcp config: " fs
  else match ch_mkdir h (Dir path) with
  | Some e => (CErr ("create claude config dir: " +:+ e), fs)
  | None => writeFile h path (CJson (obj {["mcpServers" := obj (servers claude_entry mcps)]})) "write claude mcp config: " fs
  end.

(** ** The session's writers *)
Record econf := mkEconf {
  ec_provider : string; ec_home : string; ec_stateRoot : string; ec_spec : option NodeCreateSession
}.
Definition writeLLMConfig (decode : string → option (list codexCatalogRow)) (h : chost) (s : econf)
    (llm : option NodeLLMConfig) (fs : files) : cresult * files :=
  match llm with
  | None => (COk, fs)
  | Some llm =>
      let p := normalizeProvider (ec_provider s) in
      if String.eqb p "codex" then writeCodexRuntimeConfig decode h (ec_home s) llm fs
      else if String.eqb p "opencode" then writeOpenCodeRuntimeConfig h (ec_home s) llm fs
      else (COk, fs)
  end.
Definition writeMCPConfig (gatewayOrigin : string) (h : chost) (s : econf) (mcps : list MCPServerSpec) (fs : files)
  : cresult * files :=
  let mcps := resolveMCPURLs gatewayOrigin mcps in
  match writeRuntimeMCPConfig h (ec_stateRoot s) mcps fs with
  | (COk, fs) =>
      if match ec_spec s with Some spec => isSharedEnv spec | None => false end then (COk, fs)
      else
        let p := normalizeProvider (ec_provider s) in
        if String.eqb p "codex" then writeCodexMCPConfig h (ec_home s) mcps fs
        else if String.eqb p "opencode" then writeOpenCodeMCPConfig h (ec_home s) mcps fs
        else if String.eqb p "claude" then writeClaudeMCPConfig h (ec_home s) mcps fs
        else (COk, fs)
  | failed => failed
  end.
End codex.
