(* ===== verification/EditorConfigProofs.v ===== *)
(** * EditorConfigProofs: managed blocks, and the configuration files as maps

    A rewritten managed block is read back as it was written, whatever was
    there before, and the JSON writers change only their own keys. *)
From S2P Require Import Prelude GoStrings GoPath GoJson Workspace GitWorkspace EditorConfig.
From Stdlib Require Import Ascii.
Open Scope nat_scope.

(** ** Occurrences *)
(** [sub] occurs in [s] at byte [j] *)
Definition occurs (s sub : string) (j : nat) : bool := HasPrefix (drop_bytes j s) sub.
Lemma drop_bytes_0 s : drop_bytes 0 s = s.
Proof. by destruct s. Qed.
Lemma Index_first s sub i :
  i + String.length sub ≤ String.length s → occurs s sub i = true → (∀ j, j < i → occurs s sub j = false) → Index s sub = Some i.
Proof.
  revert s. induction i as [|i IH]; intros s Hl Hi Hj; unfold occurs in *.
  - rw drop_bytes_0 in Hi. destruct s; cbn [Index]; by rw Hi.
  - pose proof (Hj 0 ltac:(lia)) as H0. rw drop_bytes_0 in H0. destruct s as [|c s]; [cbn in Hl; lia|].
    cbn [Index]. rw H0. rw (IH s); [done|cbn in Hl; lia|exact Hi|]. intros j Hlt. apply (Hj (S j)). lia.
Qed.
Lemma Index_occurs s sub i : Index s sub = Some i → occurs s sub i = true.
Proof.
  revert i. induction s as [|c s IH]; intros i; cbn [Index]; unfold occurs.
  - destruct (HasPrefix "" sub) eqn:E; [|done]. by intros [= <-].
  - destruct (HasPrefix (String c s) sub) eqn:E; [by intros [= <-]|].
    destruct (Index s sub) as [k|]; [|done]. intros [= <-]. by apply IH.
Qed.
Lemma Index_before s sub i j : Index s sub = Some i → j < i → occurs s sub j = false.
Proof.
  revert i j. induction s as [|c s IH]; intros i j; cbn [Index]; unfold occurs.
  - destruct (HasPrefix "" sub) eqn:E; [|done]. intros [= <-]. lia.
  - destruct (HasPrefix (String c s) sub) eqn:E; [intros [= <-]; lia|].
    destruct (Index s sub) as [k|] eqn:Ek; [|done]. intros [= <-] Hj. destruct j as [|j]; [by rw drop_bytes_0|].
    apply (IH k j); [done|lia].
Qed.
Lemma Index_none s sub j : Index s sub = None → occurs s sub j = false.
Proof.
  revert j. induction s as [|c s IH]; intros j; cbn [Index]; unfold occurs.
  - destruct (HasPrefix "" sub) eqn:E; [done|]. intros _. by destruct j.
  - destruct (HasPrefix (String c s) sub) eqn:E; [done|]. destruct (Index s sub) eqn:Ek; [done|]. intros _.
    destruct j as [|j]; [by rw drop_bytes_0|]. by apply IH.
Qed.
Lemma drop_bytes_past a s : drop_bytes (String.length a + s) a = "".
Proof. induction a as [|c a IH]; [by destruct s|]. exact IH. Qed.
Lemma drop_app_le j a s : j ≤ String.length a → drop_bytes j (a +:+ s) = drop_bytes j a +:+ s.
Proof.
  revert a. induction j as [|j IH]; intros a Hj; [by rw !drop_bytes_0|]. destruct a as [|c a]; [cbn in Hj; lia|].
  apply IH. cbn in Hj. lia.
Qed.
Lemma HasPrefix_app_local x t sub : String.length sub ≤ String.length x → HasPrefix (x +:+ t) sub = HasPrefix x sub.
Proof.
  revert x. induction sub as [|c sub IH]; intros x Hl; [by destruct x, t|]. destruct x as [|d x]; [cbn in Hl; lia|].
  change (Ascii.eqb c d && HasPrefix (x +:+ t) sub = Ascii.eqb c d && HasPrefix x sub). rw IH; [done|cbn in Hl; lia].
Qed.
(** An occurrence is decided by the text up to its end. *)
Lemma occurs_app_l a t sub j : j + String.length sub ≤ String.length a → occurs (a +:+ t) sub j = occurs a sub j.
Proof.
  intros Hl. unfold occurs. rw drop_app_le; [|lia]. apply HasPrefix_app_local. rw length_drop_bytes. lia.
Qed.
Lemma occurs_app_r a t sub j : occurs (a +:+ t) sub (String.length a + j) = occurs t sub j.
Proof.
  unfold occurs. f_equal. induction a as [|c a IH]; [done|]. exact IH.
Qed.

(** ** Trimming keeps what is not a space *)
Section kept.
Variable P : ascii → bool.
Hypothesis space1_P : ∀ a, space1 a = true → P a = true.
Lemma trim_leading_all sp2 sp3 n s :
  (∀ a b, sp2 a b = true → P a && P b = true) → (∀ a b c, sp3 a b c = true → P a && P b && P c = true) →
  String.length s ≤ n → all_chars P (trim_leading sp2 sp3 s) = all_chars P s.
Proof.
  intros H2 H3. revert s. induction n as [|n IH]; intros [|a s]; try done; [cbn; lia|]. cbn [String.length]. intros Hl.
  cbn [trim_leading all_chars]. destruct (space1 a) eqn:E1; [rw IH; [|lia]; by rw (space1_P a)|].
  destruct s as [|b s]; [done|]. destruct (sp2 a b) eqn:E2.
  { apply H2, andb_prop in E2 as [Ha Hb]. cbn in Hl. rw IH; [|lia]. cbn [all_chars]. by rw Ha Hb. }
  destruct s as [|c s]; [done|]. destruct (sp3 a b c) eqn:E3; [|done].
  apply H3, andb_prop in E3 as [[Ha Hb]%andb_prop Hc]. cbn in Hl. rw IH; [|lia]. cbn [all_chars]. by rw Ha Hb Hc.
Qed.
Hypothesis high_P : ∀ a, (128 <=? code a)%N = true → P a = true.
Lemma space2_P a b : space2 a b = true → P a && P b = true.
Proof.
  unfold space2, is_code. rw !andb_true_iff !orb_true_iff !N.eqb_eq. intros H.
  rw !high_P; [done|apply N.leb_le; lia..].
Qed.
Lemma space3_P a b c : space3 a b c = true → P a && P b && P c = true.
Proof.
  unfold space3, is_code, in_range. rw !orb_true_iff !andb_true_iff !orb_true_iff !andb_true_iff !N.eqb_eq !N.leb_le.
  intros H. rw !high_P; [done|apply N.leb_le; lia..].
Qed.
Lemma TrimSpace_all s : all_chars P (TrimSpace s) = all_chars P s.
Proof.
  unfold TrimSpace, TrimRightSpace, TrimLeftSpace. rw all_chars_rev (trim_leading_all _ _ (String.length (string_reverse (trim_leading space2 space3 s)))); [| | |lia].
  - rw all_chars_rev (trim_leading_all _ _ (String.length s)); [done|apply space2_P|apply space3_P|lia].
  - intros a b H%space2_P. by rw andb_comm.
  - intros a b c H%space3_P. apply andb_prop in H as [[Hc Hb]%andb_prop Ha]. by rw Ha Hb Hc.
Qed.
End kept.

(** ** Blocks between markers *)
Section blocks.
Variables start finish : string.
Definition no_newline (s : string) : Prop := all_chars (λ c, negb (Ascii.eqb c "010")) s = true.
Hypothesis start_line : no_newline start.
Hypothesis finish_line : no_newline finish.
Hypothesis finish_short : 0 < String.length finish ≤ String.length start.

(** a block as this program builds it: its first end marker is its end *)
Definition block_ok (b : string) : Prop :=
  HasPrefix b start = true ∧ Index b finish = Some (String.length b - String.length finish) ∧
  String.length finish < String.length b.
Definition unmarked (t : string) : Prop := Index t start = None ∧ Index t finish = None.
(** a file without markers, or with one block in order *)
Definition text_ok (t : string) : Prop :=
  unmarked t ∨ ∃ s e, Index t start = Some s ∧ Index t finish = Some e ∧ s < e.

(** text before which no marker comes: appending the block makes it the first *)
Definition opens (p : string) : Prop :=
  ∀ j, j < String.length p → occurs (p +:+ start) start j = false ∧ occurs (p +:+ start) finish j = false.
Lemma opens_index p b a :
  opens p → block_ok b →
  Index (p +:+ b +:+ a) start = Some (String.length p) ∧
  Index (p +:+ b +:+ a) finish = Some (String.length p + (String.length b - String.length finish)).
Proof.
  intros Hp (Hb & He & Hl). apply HasPrefix_spec in Hb as [t ->]. pose proof (Index_long _ _ _ He) as Hbl.
  assert (Hpre : ∀ sub j, String.length sub ≤ String.length start → j < String.length p →
    occurs (p +:+ (start +:+ t) +:+ a) sub j = occurs (p +:+ start) sub j).
  { intros sub j Hs Hj. rw -(string_app_assoc start t a) (string_app_assoc p start). apply occurs_app_l. rw string_length_app. lia. }
  split; apply Index_first.
  - rw !string_length_app. lia.
  - rw -(Nat.add_0_r (String.length p)) occurs_app_r -string_app_assoc. unfold occurs. rw drop_bytes_0. apply HasPrefix_app.
  - intros j Hj. rw Hpre //. by apply Hp.
  - rw !string_length_app. rw string_length_app in Hl. lia.
  - rw occurs_app_r occurs_app_l; [by apply Index_occurs|lia].
  - intros j Hj. destruct (decide (j < String.length p)) as [Hlt|Hge]; [rw Hpre //; [by apply Hp|lia]|].
    replace j with (String.length p + (j - String.length p)) by lia. rw occurs_app_r occurs_app_l; [|lia].
    eapply Index_before; [exact He|lia].
Qed.

(** A marker has no newline, so it cannot cover one. *)
Lemma occurs_newline t u sub j :
  no_newline sub → j ≤ String.length t < j + String.length sub → occurs (t +:+ newline +:+ u) sub j = false.
Proof.
  intros Hs Hj. unfold occurs. rw drop_app_le; [|lia].
  assert (Hd : String.length (drop_bytes j t) < String.length sub) by (rw length_drop_bytes; lia).
  revert Hd Hs. generalize (drop_bytes j t). clear. intros x. revert sub.
  induction x as [|c x IH]; intros [|d sub] Hl Hs; try (cbn in Hl; lia); unfold no_newline in Hs; cbn in Hs; go_bool.
  - change (Ascii.eqb d "010" && HasPrefix u sub = false). by rw H.
  - change (Ascii.eqb d c && HasPrefix (x +:+ newline +:+ u) sub = false).
    rw IH; [by rw andb_false_r|cbn in Hl; lia|done].
Qed.
Lemma opens_nil : opens "".
Proof. intros j Hj. cbn in Hj. lia. Qed.
Lemma occurs_unmarked t sub u j :
  no_newline sub → 0 < String.length sub → (∀ j, occurs t sub j = false) → j < String.length t + 1 →
  occurs (t +:+ newline +:+ u) sub j = false.
Proof.
  intros Hs Hl Ht Hj. destruct (decide (j + String.length sub ≤ String.length t)) as [Hle|Hgt].
  - by rw occurs_app_l.
  - apply occurs_newline; [done|lia].
Qed.
(** a line end after unmarked text *)
Lemma opens_line t :
  (∀ j, occurs t start j = false) → (∀ j, occurs t finish j = false) → opens (t +:+ newline).
Proof.
  intros Hs Hf j Hj. rw string_length_app /= in Hj. rw -!string_app_assoc.
  split; apply occurs_unmarked; try done; lia.
Qed.
(** the text before a block found in place *)
Lemma opens_before t s e : Index t start = Some s → Index t finish = Some e → s < e → opens (take_bytes s t).
Proof.
  intros Hs He Hlt j Hj. pose proof (Index_long _ _ _ Hs) as Hl. rw length_take_bytes in Hj.
  pose proof (Index_occurs _ _ _ Hs) as Ho. apply HasPrefix_spec in Ho as [u Hu].
  assert (Ht : t = (take_bytes s t +:+ start) +:+ u) by (rw -string_app_assoc -Hu; by rw take_drop_bytes).
  assert (Hlen : String.length (take_bytes s t +:+ start) = s + String.length start).
  { rw string_length_app length_take_bytes. lia. }
  split.
  - rw -(occurs_app_l _ u); [|lia]. rw -Ht. eapply Index_before; [exact Hs|lia].
  - rw -(occurs_app_l _ u); [|lia]. rw -Ht. eapply Index_before; [exact He|lia].
Qed.
Lemma TrimLeftChar_suffix c s : ∃ p, s = p +:+ TrimLeftChar c s.
Proof.
  induction s as [|d s [p IH]]; [by exists ""|]. cbn [TrimLeftChar]. destruct (Ascii.eqb d c); [|by exists ""].
  exists (String d p). change (String d s = String d (p +:+ TrimLeftChar c s)). by rw -IH.
Qed.
Lemma TrimRightChar_prefix c s : ∃ p, s = TrimRightChar c s +:+ p.
Proof.
  destruct (TrimLeftChar_suffix c (string_reverse s)) as [p Hp]. exists (string_reverse p). unfold TrimRightChar.
  rw -string_reverse_app -Hp. by rw string_reverse_involutive.
Qed.
Lemma occurs_trimmed c t sub j : 0 < String.length sub → (∀ j, occurs t sub j = false) → occurs (TrimRightChar c t) sub j = false.
Proof.
  intros Hl Ht. destruct (TrimRightChar_prefix c t) as [p Hp]. destruct (occurs (TrimRightChar c t) sub j) eqn:E; [|done].
  specialize (Ht j). rw Hp in Ht.
  destruct (decide (j + String.length sub ≤ String.length (TrimRightChar c t))) as [Hle|Hgt].
  - rw occurs_app_l // in Ht. congruence.
  - exfalso. unfold occurs in E. apply HasPrefix_spec in E as [u Hu]. apply (f_equal String.length) in Hu.
    rw length_drop_bytes string_length_app in Hu. lia.
Qed.

Lemma occurs_line t sub j :
  no_newline sub → 0 < String.length sub → (∀ j, occurs t sub j = false) → occurs (t +:+ newline) sub j = false.
Proof.
  intros Hs Hl Ht. destruct (decide (j < String.length t + 1)) as [Hj|Hj].
  - rw -(string_app_nil_r newline). by apply occurs_unmarked.
  - unfold occurs. replace j with (String.length (t +:+ newline) + (j - String.length t - 1)) by (rw string_length_app /=; lia).
    rw drop_bytes_past. destruct sub; [cbn in Hl; lia|done].
Qed.

(** What replacing does, as text before, block and text after. *)
Lemma replace_shape t :
  text_ok t → ∃ p a, opens p ∧ ∀ b, b ≠ "" → replaceManagedTextBlock t start finish b = p +:+ b +:+ a.
Proof.
  intros [[Hs Hf]|(s & e & Hs & Hf & Hlt)]; unfold replaceManagedTextBlock; rw Hs ?Hf.
  - destruct (String.eqb (TrimSpace t) "").
    + exists "", "". split; [apply opens_nil|]. intros b Hb. apply String.eqb_neq in Hb. rw Hb. by rw string_app_nil_r.
    + exists ((TrimRightChar "010" t +:+ newline) +:+ newline), newline. split.
      * apply opens_line; intros j; (apply occurs_line; [done|lia|]); intros j'; (apply occurs_trimmed; [lia|]);
          intros; by apply Index_none.
      * intros b Hb. apply String.eqb_neq in Hb. rw Hb. by rw -!string_app_assoc.
  - exists (take_bytes s t), (drop_bytes (e + String.length finish) t). split; [by eapply opens_before|].
    intros b Hb. apply Nat.ltb_lt in Hlt. rw Hlt. apply String.eqb_neq in Hb. by rw Hb.
Qed.

Lemma take_app_length b a : take_bytes (String.length b) (b +:+ a) = b.
Proof. induction b as [|c b IH]; [by destruct a|]. exact (f_equal (String c) IH). Qed.
Lemma drop_app_length b a : drop_bytes (String.length b) (b +:+ a) = a.
Proof. induction b as [|c b IH]; [by destruct a|]. exact IH. Qed.
Lemma block_nonempty b : block_ok b → b ≠ "".
Proof. intros (_ & _ & Hl) ->. cbn in Hl. lia. Qed.
Lemma framed_extract p b a : opens p → block_ok b → extractManagedTextBlock (p +:+ b +:+ a) start finish = b.
Proof.
  intros Hp Hb. destruct (opens_index p b a Hp Hb) as [H1 H2]. destruct Hb as (_ & _ & Hl).
  unfold extractManagedTextBlock. rw H1 H2.
  assert ((String.length p <? String.length p + (String.length b - String.length finish)) = true) as -> by (apply Nat.ltb_lt; lia).
  rw drop_app_length (_ : _ + _ - _ = String.length b); [|lia]. apply take_app_length.
Qed.
Lemma framed_replace p b a b' :
  opens p → block_ok b → b' ≠ "" → replaceManagedTextBlock (p +:+ b +:+ a) start finish b' = p +:+ b' +:+ a.
Proof.
  intros Hp Hb Hb'. destruct (opens_index p b a Hp Hb) as [H1 H2]. destruct Hb as (_ & _ & Hl).
  unfold replaceManagedTextBlock. rw H1 H2.
  assert ((String.length p <? String.length p + (String.length b - String.length finish)) = true) as -> by (apply Nat.ltb_lt; lia).
  apply String.eqb_neq in Hb'. rw Hb' take_app_length. do 2 f_equal.
  rw (_ : _ + _ = String.length (p +:+ b)); [|rw string_length_app; lia]. by rw string_app_assoc drop_app_length.
Qed.
Lemma framed_ok p b a : opens p → block_ok b → text_ok (p +:+ b +:+ a).
Proof.
  intros Hp Hb. destruct (opens_index p b a Hp Hb) as [H1 H2]. destruct Hb as (_ & _ & Hl). right.
  do 2 eexists. split_and!; [exact H1|exact H2|lia].
Qed.
End blocks.

(** ** The codex markers *)
Definition managed_ok : string → Prop := block_ok codexManagedMCPStart codexManagedMCPEnd.
Definition config_ok : string → Prop := text_ok codexManagedMCPStart codexManagedMCPEnd.
Definition no_marker : string → Prop := unmarked codexManagedMCPStart codexManagedMCPEnd.
Lemma codex_markers :
  no_newline codexManagedMCPStart ∧ no_newline codexManagedMCPEnd ∧
  0 < String.length codexManagedMCPEnd ≤ String.length codexManagedMCPStart.
Proof. split; [done|]. split; [done|]. cbn. lia. Qed.
Lemma managed_nonempty b : managed_ok b → b ≠ "".
Proof. destruct codex_markers as (H1 & H2 & H3). by eapply block_nonempty. Qed.
Lemma replaced_codex t :
  config_ok t → ∃ p a, opens codexManagedMCPStart codexManagedMCPEnd p ∧
    ∀ b, b ≠ "" → replaceManagedTextBlock t codexManagedMCPStart codexManagedMCPEnd b = p +:+ b +:+ a.
Proof. destruct codex_markers as (H1 & H2 & H3). by apply replace_shape. Qed.
Lemma after_head t : no_marker t → opens codexManagedMCPStart codexManagedMCPEnd (t +:+ newline).
Proof.
  destruct codex_markers as (H1 & H2 & H3). intros [Hs Hf]. apply opens_line; try done; intros j; by apply Index_none.
Qed.

(** A managed block is read back as it was written, whatever file without
    markers or with one block it was written into; the last of several writes
    wins, leaving the rest of the file as one write would; and it survives a
    rewrite of the head of the file. *)
Theorem managed_block_roundtrip t b b' head :
  config_ok t → managed_ok b → managed_ok b' → no_marker head →
  let replace x y := replaceManagedTextBlock x codexManagedMCPStart codexManagedMCPEnd y in
  let extract x := extractManagedTextBlock x codexManagedMCPStart codexManagedMCPEnd in
  extract (replace t b) = b ∧ replace (replace t b) b' = replace t b' ∧
  extract (head +:+ newline +:+ b +:+ newline) = b.
Proof.
  intros Ht Hb Hb' Hh. destruct (replaced_codex t Ht) as (p & a & Hp & Hr). destruct codex_markers as (H1 & H2 & H3). cbn beta zeta.
  pose proof (managed_nonempty b Hb) as Hn. pose proof (managed_nonempty b' Hb') as Hn'.
  rw (Hr b Hn) (Hr b' Hn'). split_and!; [by apply framed_extract|by apply framed_replace|].
  rw string_app_assoc. apply framed_extract; try done. by apply after_head.
Qed.

(** ** The codex writers *)
Lemma writeFile_ok h path c wrap fs fs' : writeFile h path c wrap fs = (COk, fs') → fs' = <[path := c]> fs.
Proof. unfold writeFile. destruct (ch_write h path) as [[e k]|]; [done|]. by intros [= <-]. Qed.
Lemma text_of_write h path t wrap fs fs' :
  ch_read h path = None → writeFile h path (CText t) wrap fs = (COk, fs') → text_of h path fs' = t.
Proof. intros Hr ->%writeFile_ok. unfold text_of. by rw Hr lookup_insert_eq. Qed.
(** a block has a character that is not a space *)
Lemma block_not_blank p b a : managed_ok b → TrimSpace (p +:+ b +:+ a) ≠ "".
Proof.
  intros (Hb & _ & _) E. set (P := λ c, negb (Ascii.eqb c "#")).
  assert (all_chars P (TrimSpace (p +:+ b +:+ a)) = true) as Ht by (by rw E).
  rw TrimSpace_all in Ht.
  - rw !all_chars_app in Ht. apply HasPrefix_spec in Hb as [u ->]. rw all_chars_app in Ht.
    apply andb_prop in Ht as [_ [[Ht _]%andb_prop _]%andb_prop]. done.
  - intros c Hc. unfold P. by destruct (Ascii.eqb_spec c "#") as [-> |].
  - intros c Hc. unfold P. by destruct (Ascii.eqb_spec c "#") as [-> |].
Qed.
Section codex.
Variable quote_rune : string → string.
(** After an MCP write and a later LLM write of a codex session, the managed
    block of config.toml is exactly the block of the servers given, whatever
    the file held before (no markers, or one block), as long as the head the
    LLM write produces holds no marker itself. *)
Theorem codex_mcp_survives_llm decode h home mcps llm fs fs1 fs2 :
  let path := codexConfigPath home in
  let block := buildCodexManagedMCPBlock quote_rune mcps in
  let catalog := (writeCodexModelCatalog quote_rune decode h home (extra llm "CODEX_MODEL_CATALOG") fs1).1 in
  ch_read h path = None → config_ok (text_of h path fs) → managed_ok block →
  no_marker (codex_head_of quote_rune (text_of h path fs1) catalog llm) →
  writeCodexMCPConfig quote_rune h home mcps fs = (COk, fs1) →
  writeCodexRuntimeConfig quote_rune decode h home llm fs1 = (COk, fs2) →
  extractManagedTextBlock (text_of h path fs2) codexManagedMCPStart codexManagedMCPEnd = block.
Proof.
  cbn zeta. set (path := codexConfigPath home). set (block := buildCodexManagedMCPBlock quote_rune mcps).
  intros Hread Ht Hb Hh Hm Hl. destruct (replaced_codex _ Ht) as (p & a & Hp & Hr).
  pose proof (managed_nonempty block Hb) as Hn.
  assert (text_of h path fs1 = p +:+ block +:+ a) as E1.
  { unfold writeCodexMCPConfig in Hm. fold path block in Hm. destruct (ch_mkdir h (Dir path)); [done|].
    rw (Hr block Hn) in Hm. pose proof (block_not_blank p block a Hb) as Hne. apply String.eqb_neq in Hne. rw Hne in Hm.
    by eapply text_of_write. }
  unfold writeCodexRuntimeConfig in Hl. fold path in Hl. rw E1 in Hl, Hh.
  assert (extractManagedTextBlock (p +:+ block +:+ a) codexManagedMCPStart codexManagedMCPEnd = block) as Ex.
  { destruct codex_markers as (H1 & H2 & H3). by apply framed_extract. }
  rw Ex in Hl. destruct (String.eqb (TrimRightChar _ _) "").
  { injection Hl as <-. by rw E1. }
  destruct (ch_mkdir h (Dir path)); [done|].
  destruct (writeCodexModelCatalog _ _ _ _ _ _) as [catalog fs3]. cbn [fst] in Hh. apply String.eqb_neq in Hn. rw Hn in Hl.
  apply (text_of_write _ _ _ _ _ _ Hread) in Hl as ->. rw string_app_assoc.
  destruct codex_markers as (H1 & H2 & H3). apply framed_extract; try done. by apply after_head.
Qed.
End codex.

(** Removing the block joins the line before it and the line after it. *)
Lemma managed_block_removal_joins_lines :
  replaceManagedTextBlock
    ("a = 1" +:+ newline +:+ codexManagedMCPStart +:+ newline +:+ codexManagedMCPEnd +:+ newline +:+ "[history]")
    codexManagedMCPStart codexManagedMCPEnd "" = "a = 1[history]".
Proof. reflexivity. Qed.

(** ** One entry per server *)
Lemma servers_snoc entry mcps mcp :
  servers entry (mcps ++ [mcp]) =
  (if String.eqb (TrimSpace (mcp_name mcp)) "" then servers entry mcps
   else <[TrimSpace (mcp_name mcp) := entry mcp]> (servers entry mcps)).
Proof. unfold servers. by rw foldl_app. Qed.
Lemma servers_lookup entry mcps name :
  servers entry mcps !! name =
  (if String.eqb name "" then None else entry <$> last (filter (λ mcp, TrimSpace (mcp_name mcp) = name) mcps)).
Proof.
  induction mcps as [|mcp mcps IH] using rev_ind; [by destruct (String.eqb name "")|].
  rw servers_snoc filter_app. destruct (String.eqb_spec (TrimSpace (mcp_name mcp)) "") as [He|Hne].
  - rw IH. destruct (String.eqb_spec name "") as [|Hn]; [done|].
    rw (filter_cons_False _ mcp); [by rw app_nil_r|]. congruence.
  - destruct (decide (TrimSpace (mcp_name mcp) = name)) as [<- |Hn].
    + rw lookup_insert_eq. apply String.eqb_neq in Hne. rw Hne (filter_cons_True _ mcp) // last_snoc. done.
    + rw lookup_insert_ne // IH (filter_cons_False _ mcp) // app_nil_r. done.
Qed.

Lemma removeFile_ok h path wrap fs fs' : removeFile h path wrap fs = (COk, fs') → fs' = delete path fs.
Proof.
  unfold removeFile. destruct (fs !! path) eqn:E; [|intros [= <-]; by rw delete_id].
  destruct (ch_remove h path); [done|]. by intros [= <-].
Qed.
(** a writer changes no file but its own *)
Definition only (path : string) (w : files → cresult * files) : Prop :=
  ∀ fs r fs', w fs = (r, fs') → ∀ p, p ≠ path → fs' !! p = fs !! p.
Lemma only_write h path c wrap : only path (writeFile h path c wrap).
Proof.
  intros fs r fs'. unfold writeFile. destruct (ch_write h path) as [[e k]|]; intros [= _ <-] p Hp.
  - by rw lookup_partial_alter_ne.
  - by rw lookup_insert_ne.
Qed.
Lemma only_remove h path wrap : only path (removeFile h path wrap).
Proof.
  intros fs r fs'. unfold removeFile. destruct (fs !! path); [destruct (ch_remove h path)|]; intros [= _ <-] p Hp; try done.
  by rw lookup_delete_ne.
Qed.
Lemma only_codex quote_rune h home mcps : only (codexConfigPath home) (writeCodexMCPConfig quote_rune h home mcps).
Proof.
  intros fs r fs'. unfold writeCodexMCPConfig. destruct (ch_mkdir h _); [by intros [= _ <-]|].
  destruct (String.eqb _ ""); [apply only_remove|apply only_write].
Qed.
Lemma only_save h path payload : only path (saveOpenCodeConfig h path payload).
Proof. intros fs r fs'. unfold saveOpenCodeConfig. destruct (ch_mkdir h _); [by intros [= _ <-]|apply only_write]. Qed.
Lemma only_opencode h home mcps : only (openCodeConfigPath home) (writeOpenCodeMCPConfig h home mcps).
Proof.
  intros fs r fs'. unfold writeOpenCodeMCPConfig. destruct (loadOpenCodeConfig h _ fs) as [[m|]|e].
  - apply only_save.
  - destruct (no_keys _); [apply only_save|by intros [= _ <-]].
  - by intros [= _ <-].
Qed.
Lemma only_claude h home mcps : only (claudeMCPPath home) (writeClaudeMCPConfig h home mcps).
Proof.
  intros fs r fs'. unfold writeClaudeMCPConfig. destruct (no_items mcps); [apply only_remove|].
  destruct (ch_mkdir h _); [by intros [= _ <-]|apply only_write].
Qed.
Lemma runtime_written h root mcps fs fs' :
  writeRuntimeMCPConfig h root mcps fs = (COk, fs') →
  fs' !! runtimeMCPConfigPath root =
    if no_keys (servers runtime_entry mcps) then None else Some (CJson (obj {["mcps" := obj (servers runtime_entry mcps)]})).
Proof.
  unfold writeRuntimeMCPConfig. destruct (no_keys _).
  - intros ->%removeFile_ok. by rw lookup_delete_eq.
  - destruct (ch_mkdir h _); [done|]. intros ->%writeFile_ok. by rw lookup_insert_eq.
Qed.
Lemma claude_written h home mcps fs fs' :
  writeClaudeMCPConfig h home mcps fs = (COk, fs') →
  fs' !! claudeMCPPath home = if no_items mcps then None else Some (CJson (obj {["mcpServers" := obj (servers claude_entry mcps)]})).
Proof.
  unfold writeClaudeMCPConfig. destruct (no_items mcps).
  - intros ->%removeFile_ok. by rw lookup_delete_eq.
  - destruct (ch_mkdir h _); [done|]. intros ->%writeFile_ok. by rw lookup_insert_eq.
Qed.

(** A successful MCP write leaves the runtime's file with exactly the named
    servers of the request, each as its last specification gives it with a
    relative URL resolved against the gateway, and no file when there is none;
    a claude session's own file then holds the same names. *)
Theorem mcp_config_exact quote_rune origin h s mcps fs fs' :
  writeMCPConfig quote_rune origin h s mcps fs = (COk, fs') →
  runtimeMCPConfigPath (ec_stateRoot s) ∉ [codexConfigPath (ec_home s); openCodeConfigPath (ec_home s); claudeMCPPath (ec_home s)] →
  let specs := resolveMCPURLs origin mcps in
  let spec_of name := if String.eqb name "" then None else last (filter (λ mcp, TrimSpace (mcp_name mcp) = name) specs) in
  (∃ m : gmap string json, (∀ name, m !! name = runtime_entry <$> spec_of name) ∧
     fs' !! runtimeMCPConfigPath (ec_stateRoot s) = if no_keys m then None else Some (CJson (obj {["mcps" := obj m]}))) ∧
  (normalizeProvider (ec_provider s) = "claude" → match ec_spec s with Some spec => isSharedEnv spec | None => false end = false →
   if no_items specs then fs' !! claudeMCPPath (ec_home s) = None
   else ∃ m : gmap string json, (∀ name, m !! name = claude_entry <$> spec_of name) ∧
     fs' !! claudeMCPPath (ec_home s) = Some (CJson (obj {["mcpServers" := obj m]}))).
Proof.
  rw !not_elem_of_cons. intros Hw (Hc & Ho & Hl & _). cbn zeta. set (specs := resolveMCPURLs origin mcps).
  assert (Hs : ∀ entry name, servers entry specs !! name =
    entry <$> (if String.eqb name "" then None else last (filter (λ mcp, TrimSpace (mcp_name mcp) = name) specs))).
  { intros entry name. rw servers_lookup. by destruct (String.eqb name ""). }
  unfold writeMCPConfig in Hw. fold specs in Hw.
  destruct (writeRuntimeMCPConfig h (ec_stateRoot s) specs fs) as [[|e|] fs1] eqn:E; [|done..].
  apply runtime_written in E. split.
  - exists (servers runtime_entry specs). split; [intros; apply Hs|]. rw -E.
    destruct (match ec_spec s with Some _ => _ | None => _ end); [by injection Hw as <-|].
    destruct (String.eqb _ "codex"); [by eapply only_codex|]. destruct (String.eqb _ "opencode"); [by eapply only_opencode|].
    destruct (String.eqb _ "claude"); [by eapply only_claude|by injection Hw as <-].
  - intros Hp Hsh. rw Hsh Hp /= in Hw. apply claude_written in Hw. destruct (no_items specs); [done|].
    exists (servers claude_entry specs). split; [intros; apply Hs|exact Hw].
Qed.

(** ** opencode *)
Lemma to_map_list (m : gmap string json) : to_map (map_to_list m) = m.
Proof.
  unfold to_map. rw -{2}(list_to_map_to_list m). symmetry.
  apply list_to_map_proper; [apply NoDup_fst_map_to_list|apply Permutation_rev].
Qed.
(** *** Values as json.Unmarshal leaves them *)
Section decoded.
Variable h : chost.
Fixpoint decode_list (l : list json) : option (list json) :=
  match l with [] => Some [] | v :: l => v ← decode_any h v; l ← decode_list l; Some (v :: l) end.
Fixpoint decode_fields (l : list (string * json)) : option (list (string * json)) :=
  match l with [] => Some [] | (k, v) :: l => v ← decode_any h v; l ← decode_fields l; Some ((k, v) :: l) end.
Lemma decode_array l : decode_any h (JArray l) = JArray <$> decode_list l.
Proof. done. Qed.
Lemma decode_object l : decode_any h (JObject l) = (λ l, obj (to_map l)) <$> decode_fields l.
Proof. done. Qed.
(** a value that reading does not change *)
Definition settled (v : json) : Prop := decode_any h v = Some v.
Definition all_settled (m : gmap string json) : Prop := map_Forall (λ _, settled) m.
Lemma settled_list l : Forall settled l → decode_list l = Some l.
Proof. induction 1 as [|v l Hv _ IH]; [done|]. cbn. by rw Hv /= IH. Qed.
Lemma settled_fields l : Forall (λ kv, settled kv.2) l → decode_fields l = Some l.
Proof. induction 1 as [|[k v] l Hv _ IH]; [done|]. cbn in *. by rw Hv /= IH. Qed.
Lemma settled_obj m : all_settled m → settled (obj m).
Proof.
  intros Hm. unfold settled, obj. rw decode_object settled_fields /=; [by rw to_map_list|].
  apply Forall_forall. intros [k v] Hin%elem_of_map_to_list. exact (Hm k v Hin).
Qed.
Lemma settled_strs l : settled (strs l).
Proof. unfold settled, strs. rw decode_array settled_list; [done|]. apply Forall_map. by apply Forall_forall. Qed.
Lemma to_map_settled l : Forall (λ kv, settled kv.2) l → all_settled (to_map l).
Proof.
  intros Hl k v Hk. apply elem_of_list_to_map_2 in Hk. apply list_elem_of_In, in_rev, list_elem_of_In in Hk. rw Forall_forall in Hl. exact (Hl _ Hk).
Qed.
(** strconv prints a float64 so that it is read back as itself *)
Hypothesis Hfloat : ∀ t t', ch_float h t = Some t' → ch_float h t' = Some t'.
Fixpoint decode_settles (v : json) : ∀ v', decode_any h v = Some v' → settled v'.
Proof.
  destruct v as [|b|t|s|l|l]; intros v' Hv.
  1,2,4: by injection Hv as <-.
  - cbn in Hv. destruct (ch_float h t) as [t'|] eqn:E; [|done]. injection Hv as <-. unfold settled. cbn. by rw (Hfloat _ _ E).
  - rw decode_array in Hv. destruct (decode_list l) as [l'|] eqn:E; [|done]. injection Hv as <-.
    unfold settled. rw decode_array settled_list; [done|]. revert l' E. induction l as [|v l IH]; intros l'; cbn; [by intros [= <-]|].
    destruct (decode_any h v) as [w|] eqn:Ew; [|done]. cbn. destruct (decode_list l) as [lw|]; [|done]. intros [= <-].
    constructor; [by apply (decode_settles v)|by apply IH].
  - rw decode_object in Hv. destruct (decode_fields l) as [l'|] eqn:E; [|done]. injection Hv as <-.
    apply settled_obj, to_map_settled. revert l' E. induction l as [|[k v] l IH]; intros l'; cbn; [by intros [= <-]|].
    destruct (decode_any h v) as [w|] eqn:Ew; [|done]. cbn. destruct (decode_fields l) as [lw|]; [|done]. intros [= <-].
    constructor; [by apply (decode_settles v)|by apply IH].
Qed.
Lemma decode_fields_settle l l' : decode_fields l = Some l' → Forall (λ kv, settled kv.2) l'.
Proof.
  revert l'. induction l as [|[k v] l IH]; intros l'; cbn; [by intros [= <-]|].
  destruct (decode_any h v) as [w|] eqn:Ew; [|done]. cbn. destruct (decode_fields l) as [lw|]; [|done]. intros [= <-].
  constructor; [by apply (decode_settles v)|by apply IH].
Qed.
Lemma settled_fields_of l : settled (JObject l) → all_settled (to_map l).
Proof.
  unfold settled at 1. rw decode_object. destruct (decode_fields l) as [l'|] eqn:E; [|done]. intros [= <-].
  rw to_map_list. by eapply to_map_settled, decode_fields_settle.
Qed.
Lemma load_settled path fs m : loadOpenCodeConfig h path fs = Ok (Some m) → all_settled m.
Proof.
  unfold loadOpenCodeConfig. assert (all_settled ∅) as H0 by by apply map_Forall_empty.
  assert (Hv : ∀ v, Some m = match decode_any h v with Some (JObject l) => Some (to_map l) | Some JNull => None | _ => Some ∅ end → all_settled m).
  { intros v. destruct (decode_any h v) as [[]|] eqn:E; try (by intros [= ->]). intros [= ->]. by eapply settled_fields_of, decode_settles. }
  destruct (fs !! path) as [[t|v]|]; [| |by intros [= <-]]; destruct (ch_read h path); try done.
  - destruct (String.eqb _ ""); [by intros [= <-]|]. destruct (parse t) as [v|]; [|by intros [= <-]]. intros [= Hm]. by apply (Hv v).
  - intros [= Hm]. by apply (Hv v).
Qed.
(** what the node writes holds no number *)
Lemma settled_vars vars : settled (var_map vars).
Proof.
  apply settled_obj. unfold var_map. assert (H : all_settled ∅) by by apply map_Forall_empty.
  revert H. generalize (∅ : gmap string json). induction vars as [|v vars IH]; intros m Hm; cbn; [done|].
  apply IH. by apply map_Forall_insert_2.
Qed.
Lemma settled_with_opt k o m : (∀ v, o = Some v → settled v) → all_settled m → all_settled (with_opt k o m).
Proof. destruct o; cbn; [|done]. intros Hv Hm. apply map_Forall_insert_2; [by apply Hv|done]. Qed.
Lemma settled_opt_vars vars v : opt_vars vars = Some v → settled v.
Proof. unfold opt_vars. destruct (no_items vars); [done|]. intros [= <-]. apply settled_vars. Qed.
Lemma settled_entry mcp : settled (opencode_entry mcp).
Proof.
  unfold opencode_entry. destruct (isRemoteMCP mcp); apply settled_obj, settled_with_opt; try apply settled_opt_vars;
    repeat (apply map_Forall_insert_2; [done || apply settled_strs|]); apply map_Forall_empty.
Qed.
Lemma settled_with_mcps mcps m : all_settled m → all_settled (with_mcps (servers opencode_entry mcps) m).
Proof.
  intros Hm. unfold with_mcps. destruct (no_keys _); [by apply map_Forall_delete|]. apply map_Forall_insert_2; [|done].
  apply settled_obj. intros k v Hk. rw servers_lookup in Hk. destruct (String.eqb k ""); [done|].
  destruct (last _); [|done]. injection Hk as <-. apply settled_entry.
Qed.
Lemma settled_with_llm b a model m : all_settled m → all_settled (with_llm b a model m).
Proof.
  intros Hm. assert (H : all_settled (<["provider" := obj (<["agent-compose" := agent_compose_provider b a]> (provider_map m))]> m)).
  { apply map_Forall_insert_2; [|done]. apply settled_obj, map_Forall_insert_2.
    - apply settled_obj, map_Forall_singleton, settled_obj, map_Forall_insert_2; [done|]. by apply map_Forall_singleton.
    - unfold provider_map. destruct (m !! "provider") as [[]|] eqn:E; try (by apply map_Forall_empty).
      apply settled_fields_of. exact (Hm _ _ E). }
  unfold with_llm. cbv zeta. destruct (String.eqb model ""); [done|]. by apply map_Forall_insert_2.
Qed.
End decoded.
Definition quiet_for (h : chost) (path : string) : Prop :=
  ch_mkdir h (Dir path) = None ∧ ch_write h path = None ∧ ch_read h path = None.
Inductive oc_write := OLlm (llm : NodeLLMConfig) | OMcp (mcps : list MCPServerSpec).
Definition oc_do (h : chost) (home : string) (w : oc_write) (fs : files) : cresult * files :=
  match w with
  | OLlm llm => writeOpenCodeRuntimeConfig h home llm fs
  | OMcp mcps => writeOpenCodeMCPConfig h home mcps fs
  end.
Definition oc_spec (m : gmap string json) (w : oc_write) : gmap string json :=
  match w with
  | OLlm llm =>
      let baseURL := TrimRightChar "/" (TrimSpace (llm_endpoint llm)) in
      if String.eqb baseURL "" then m else with_llm baseURL (TrimSpace (llm_apiKey llm)) (TrimSpace (llm_model llm)) m
  | OMcp mcps => with_mcps (servers opencode_entry mcps) m
  end.
Fixpoint oc_run (h : chost) (home : string) (ws : list oc_write) (fs : files) : list cresult * files :=
  match ws with
  | [] => ([], fs)
  | w :: ws => let '(r, fs) := oc_do h home w fs in let '(rs, fs) := oc_run h home ws fs in (r :: rs, fs)
  end.
(** strconv prints a float64 so that it is read back as itself *)
Definition float_stable (h : chost) : Prop := ∀ t t', ch_float h t = Some t' → ch_float h t' = Some t'.
Lemma save_load h home m fs r fs' :
  all_settled h m →
  quiet_for h (openCodeConfigPath home) → saveOpenCodeConfig h (openCodeConfigPath home) (Some m) fs = (r, fs') →
  r = COk ∧ loadOpenCodeConfig h (openCodeConfigPath home) fs' = Ok (Some m).
Proof.
  intros Hm (H1 & H2 & H3). unfold saveOpenCodeConfig, writeFile, loadOpenCodeConfig. rw H1 H2. intros [= <- <-].
  rw lookup_insert_eq H3. pose proof (settled_obj h m Hm) as Hs. unfold settled, obj in Hs. cbv iota beta zeta. unfold obj. rw Hs to_map_list. done.
Qed.
Lemma oc_step h home w fs m r fs' :
  float_stable h → quiet_for h (openCodeConfigPath home) → loadOpenCodeConfig h (openCodeConfigPath home) fs = Ok (Some m) →
  oc_do h home w fs = (r, fs') → r = COk ∧ loadOpenCodeConfig h (openCodeConfigPath home) fs' = Ok (Some (oc_spec m w)).
Proof.
  intros Hf Hq Hm. pose proof (load_settled h Hf _ _ _ Hm) as Hs. destruct w as [llm|mcps]; cbn [oc_do oc_spec]; cbv zeta.
  - unfold writeOpenCodeRuntimeConfig. destruct (String.eqb _ ""); [by intros [= <- <-]|]. rw Hm. apply save_load; [by apply settled_with_llm|done].
  - unfold writeOpenCodeMCPConfig. rw Hm. apply save_load; [by apply settled_with_mcps|done].
Qed.
(** the servers of the last MCP write *)
Fixpoint last_mcps (ws : list oc_write) : option (list MCPServerSpec) :=
  match ws with
  | [] => None
  | w :: ws => match last_mcps ws, w with Some l, _ => Some l | None, OMcp l => Some l | None, _ => None end
  end.
Lemma with_llm_frame b a model m k : k ∉ ["provider"; "model"] → with_llm b a model m !! k = m !! k.
Proof.
  rw !not_elem_of_cons. intros (H1 & H2 & _). unfold with_llm. destruct (String.eqb model ""); rw ?lookup_insert_ne //.
Qed.
Lemma with_mcps_frame l m k : k ≠ "mcp" → with_mcps l m !! k = m !! k.
Proof. intros Hk. unfold with_mcps. destruct (no_keys l); [by rw lookup_delete_ne|by rw lookup_insert_ne]. Qed.
Lemma provider_with_llm b a model m n :
  n ≠ "agent-compose" → provider_map (with_llm b a model m) !! n = provider_map m !! n.
Proof.
  intros Hn. unfold with_llm, provider_map at 1.
  destruct (String.eqb model ""); rw ?(lookup_insert_ne _ "model") // lookup_insert_eq /obj to_map_list lookup_insert_ne //.
Qed.

(** C38: When no operation on the file fails, and the file held an object (or
    nothing, or something that does not decode) before, every LLM and MCP write
    updates opencode.json, seen as a map, as specified, without an error or a
    panic: the keys the node does not own and the other providers keep the
    values that the first read found, through any sequence of writes, and the
    MCP servers are exactly those of the last MCP write.  A read turns every
    number into a float64, and a file with a number out of its range does not
    decode and counts as empty; a float64, once printed, is read back as
    itself. *)
Theorem opencode_config_refines h home ws fs m :
  float_stable h →
  quiet_for h (openCodeConfigPath home) →
  loadOpenCodeConfig h (openCodeConfigPath home) fs = Ok (Some m) →
  let '(rs, fs') := oc_run h home ws fs in
  let m' := foldl oc_spec m ws in
  Forall (λ r, r = COk) rs ∧ loadOpenCodeConfig h (openCodeConfigPath home) fs' = Ok (Some m') ∧
  (∀ k, k ∉ ["provider"; "model"; "mcp"] → m' !! k = m !! k) ∧
  (∀ n, n ≠ "agent-compose" → provider_map m' !! n = provider_map m !! n) ∧
  m' !! "mcp" = match last_mcps ws with
                | None => m !! "mcp"
                | Some mcps => let l := servers opencode_entry mcps in if no_keys l then None else Some (obj l)
                end.
Proof.
  intros Hfl Hq. revert fs m. induction ws as [|w ws IH]; intros fs m Hm; cbn [oc_run foldl last_mcps]; [by split_and!|].
  destruct (oc_do h home w fs) as [r fs1] eqn:E. apply (oc_step _ _ _ _ m) in E as [-> Hm1]; [|done..].
  specialize (IH fs1 (oc_spec m w) Hm1). destruct (oc_run h home ws fs1) as [rs fs'].
  destruct IH as (H1 & H2 & H3 & H4 & H5). split_and!; [by constructor|done| | |].
  - intros k Hk. rw H3 //. destruct w as [llm|mcps]; cbn; [destruct (String.eqb _ ""); [done|]; apply with_llm_frame|apply with_mcps_frame];
      set_solver.
  - intros n Hn. rw H4 //. destruct w as [llm|mcps]; cbn; [destruct (String.eqb _ ""); [done|by apply provider_with_llm]|].
    unfold provider_map. by rw with_mcps_frame.
  - rw H5. destruct (last_mcps ws); [done|]. destruct w as [llm|mcps]; cbn.
    + destruct (String.eqb _ ""); [done|]. apply with_llm_frame. set_solver.
    + unfold with_mcps. destruct (no_keys _); [by rw lookup_delete_eq|by rw lookup_insert_eq].
Qed.

(** A configuration file holding [null] makes the next write panic. *)
Lemma opencode_null_panics h home llm fs :
  ch_read h (openCodeConfigPath home) = None → TrimRightChar "/" (TrimSpace (llm_endpoint llm)) ≠ "" →
  (writeOpenCodeRuntimeConfig h home llm (<[openCodeConfigPath home := CText "null"]> fs)).1 = CPanic.
Proof.
  intros Hr He. unfold writeOpenCodeRuntimeConfig, loadOpenCodeConfig. apply String.eqb_neq in He.
  by rw He lookup_insert_eq Hr.
Qed.

(** ** Evaluated writes *)
Module EditorWitness.
(** a number that float64 does not keep, and one it cannot hold *)
Definition float (t : string) : option string :=
  if String.eqb t "1e400" then None else if String.eqb t "9007199254740993" then Some "9007199254740992" else Some t.
Definition h : chost := mkChost (λ _, None) (λ _, None) (λ _, None) (λ _, None) float.
Definition raw (s : string) : string := s.
Definition files_mcp : MCPServerSpec := mkMcp " files " "" "npx" ["-y"; "fs"] [mkEnvVar "ROOT" "/w"] "" "" [].
Definition issue_mcp : MCPServerSpec := mkMcp "issue" "" "" [] [] "/mcp/issue/sse?token=t" "" [mkEnvVar "X-Task" "7"].
Definition mcps : list MCPServerSpec := [issue_mcp; files_mcp].
Definition block : string := Eval vm_compute in buildCodexManagedMCPBlock raw mcps.
Definition one : string := Eval vm_compute in buildCodexManagedMCPBlock raw [files_mcp].
Definition text : string := "approval = true" +:+ newline.
Lemma managed_block_roundtrip_witness :
  extractManagedTextBlock (replaceManagedTextBlock text codexManagedMCPStart codexManagedMCPEnd block) codexManagedMCPStart
    codexManagedMCPEnd = block.
Proof.
  assert (H1 : config_ok text) by (left; vm_compute; split; reflexivity).
  assert (H2 : managed_ok block) by (vm_compute; split_and!; [reflexivity|reflexivity|lia]).
  assert (H3 : managed_ok one) by (vm_compute; split_and!; [reflexivity|reflexivity|lia]).
  assert (H4 : no_marker text) by (vm_compute; split; reflexivity).
  exact (proj1 (managed_block_roundtrip text block one text H1 H2 H3 H4)).
Defined.
Definition llm : NodeLLMConfig := mkLlm "https://llm.example/" "m-1" "chat" "key" ∅.
Definition nodecode (_ : string) : option (list codexCatalogRow) := None.
Definition home : string := "/s/home".
Definition after_mcp : files := Eval vm_compute in (writeCodexMCPConfig raw h home mcps {[codexConfigPath home := CText text]}).2.
Definition after_llm : files := Eval vm_compute in (writeCodexRuntimeConfig raw nodecode h home llm after_mcp).2.
Lemma codex_mcp_survives_llm_witness :
  extractManagedTextBlock (text_of h (codexConfigPath home) after_llm) codexManagedMCPStart codexManagedMCPEnd =
    buildCodexManagedMCPBlock raw mcps.
Proof.
  set (fs := {[codexConfigPath home := CText text]} : files).
  assert (H1 : config_ok (text_of h (codexConfigPath home) fs)) by (left; vm_compute; split; reflexivity).
  assert (H2 : managed_ok (buildCodexManagedMCPBlock raw mcps)) by (vm_compute; split_and!; [reflexivity|reflexivity|lia]).
  assert (H3 : no_marker (codex_head_of raw (text_of h (codexConfigPath home) after_mcp)
    (writeCodexModelCatalog raw nodecode h home (extra llm "CODEX_MODEL_CATALOG") after_mcp).1 llm)) by (vm_compute; split; reflexivity).
  assert (H4 : writeCodexMCPConfig raw h home mcps fs = (COk, after_mcp)) by (vm_compute; reflexivity).
  assert (H5 : writeCodexRuntimeConfig raw nodecode h home llm after_mcp = (COk, after_llm)) by (vm_compute; reflexivity).
  exact (codex_mcp_survives_llm raw nodecode h home mcps llm fs after_mcp after_llm eq_refl H1 H2 H3 H4 H5).
Defined.
Definition claude : econf := mkEconf "claude-code" home "/s/state" None.
Definition claude_fs : files := Eval vm_compute in (writeMCPConfig raw "https://gw.example/" h claude mcps ∅).2.
Lemma mcp_config_exact_witness :
  writeMCPConfig raw "https://gw.example/" h claude mcps ∅ = (COk, claude_fs) ∧
  ∃ m : gmap string json, claude_fs !! claudeMCPPath home = Some (CJson (obj {["mcpServers" := obj m]})) ∧
    m !! "files" = Some (claude_entry files_mcp).
Proof.
  assert (E : writeMCPConfig raw "https://gw.example/" h claude mcps ∅ = (COk, claude_fs)) by (vm_compute; reflexivity).
  split; [exact E|]. destruct (mcp_config_exact raw "https://gw.example/" h claude mcps ∅ claude_fs E) as [_ H].
  - apply not_elem_of_cons; split; [discriminate|]. apply not_elem_of_cons; split; [discriminate|].
    apply not_elem_of_cons; split; [discriminate|apply not_elem_of_nil].
  - destruct (H eq_refl eq_refl) as (m & Hm & Hf). exists m. split; [exact Hf|]. rw Hm. vm_compute. reflexivity.
Defined.
Definition theirs : gmap string json := {["theme" := JString "dark"; "provider" := obj {["own" := JBool true]}]}.
Definition their_fs : files := {[openCodeConfigPath home := CJson (obj theirs)]}.
Lemma opencode_config_refines_witness :
  foldl oc_spec theirs [OLlm llm; OMcp mcps; OMcp []; OLlm llm] !! "theme" = Some (JString "dark") ∧
  foldl oc_spec theirs [OLlm llm; OMcp mcps; OMcp []; OLlm llm] !! "mcp" = None.
Proof.
  pose proof (opencode_config_refines h home [OLlm llm; OMcp mcps; OMcp []; OLlm llm] their_fs theirs) as H.
  assert (Hq : quiet_for h (openCodeConfigPath home)) by (split; [reflexivity|split; reflexivity]).
  assert (Hl : loadOpenCodeConfig h (openCodeConfigPath home) their_fs = Ok (Some theirs)) by (vm_compute; reflexivity).
  assert (Hf : float_stable h) by (intros t t' E; unfold h, ch_float, float in *;
    destruct (String.eqb t "1e400") eqn:E1; [discriminate E|]; destruct (String.eqb t "9007199254740993") eqn:E2;
    injection E as <-; [reflexivity|rw E1 E2; reflexivity]).
  specialize (H Hf Hq Hl). destruct (oc_run _ _ _ _) as [rs fs']. destruct H as (_ & _ & H3 & _ & H5).
  split; [rw H3; [reflexivity|]|rw H5; vm_compute; reflexivity].
  apply not_elem_of_cons; split; [discriminate|]. apply not_elem_of_cons; split; [discriminate|].
  apply not_elem_of_cons; split; [discriminate|apply not_elem_of_nil].
Defined.
(** A number of the operator's that float64 does not hold exactly is changed by the node's write, and one out of its
    range makes the write discard every key of the operator's. *)
Lemma opencode_numbers_lost :
  let held v := {[openCodeConfigPath home := CJson (JObject [("limit", JNumber v); ("theme", JString "dark")])]} : files in
  let read fs := match loadOpenCodeConfig h (openCodeConfigPath home) fs with Ok (Some m) => (m !! "limit", m !! "theme") | _ => (None, None) end in
  let after v := writeOpenCodeRuntimeConfig h home llm (held v) in
  (after "9007199254740993").1 = COk ∧ read (after "9007199254740993").2 = (Some (JNumber "9007199254740992"), Some (JString "dark")) ∧
  (after "1e400").1 = COk ∧ read (after "1e400").2 = (None, None).
Proof. vm_compute. done. Qed.
End EditorWitness.
