(* ===== verification/Resources.v ===== *)
(** * Resources: installing skills and plugins (execution/editorconfig.go,
    execution/environments.go)

    The file system as far as these operations see it: directories by path,
    each with its children by name, a child being a tree.  [copyTree] is a
    function on trees because its destination has just been removed.  The host
    decides, per operation in order, which ones fail and what they leave at
    their destination, and what downloads and clones bring. *)
From S2P Require Import Prelude GoStrings GoPath GoJson Archive Sha256 Workspace EditorConfig.
From Stdlib Require Import Ascii.
Open Scope nat_scope.

(** ** Trees *)
Inductive node :=
| NFile (data : string)
| NDir (entries : list (string * node))       (** in the order of os.ReadDir *)
| NLink (data : result string).               (** a symbolic link: what reading it as a file gives *)
Definition is_dir (n : node) : bool := match n with NDir _ => true | _ => false end.
(** What is written at an absent destination, and the error that stopped it. *)
Fixpoint copyTree (n : node) : option node * option string :=
  match n with
  | NFile d | NLink (Ok d) => (Some (NFile d), None)
  | NLink (Err e) => (None, Some e)
  | NDir entries =>
      let fix go (es : list (string * node)) : list (string * node) * option string :=
        match es with
        | [] => ([], None)
        | (name, m) :: es =>
            let '(c, err) := copyTree m in
            let here := match c with Some c => [(name, c)] | None => [] end in
            match err with
            | Some e => (here, Some e)
            | None => let '(rest, err) := go es in (here ++ rest, err)
            end
        end in
      let '(copied, err) := go entries in (Some (NDir copied), err)
  end.

(** ** Unpacking a downloaded archive *)
Definition entry_absolute (h : tar_entry) : string := "archive entry has absolute path (refused): " +:+ th_name h.
Definition entry_escapes (h : tar_entry) : string := "archive entry escapes dest: " +:+ th_name h.
Definition entry_link (h : tar_entry) : string :=
  "archive contains symlink (refused): " +:+ th_name h +:+ " -> " +:+ th_link h.
(** the target of an entry; modes are decimal: 511 is 0777 and 493 is 0755 *)
Definition entry_target (dest : string) (h : tar_entry) : result string :=
  let name := th_name h in
  if HasPrefix name "/" || IsAbs name || Contains name ":" then Err (entry_absolute h)
  else
    let target := Join [dest; name] in
    if negb (HasPrefix (Clean target +:+ "/") (Clean dest +:+ "/")) then Err (entry_escapes h)
    else Ok target.
Section extract.
Variable os : fs_op → bool.
Definition entry_ops (dest : string) (h : tar_entry) : list fs_op * option string :=
  match entry_target dest h with
  | Err e => ([], Some e)
  | Ok target =>
      match th_type h with
      | TypeDir =>
          let op := MkdirAll target (Z.land (th_mode h) 511) in ([op], if os op then None else Some "mkdir")
      | TypeReg =>
          let op1 := MkdirAll (Dir target) 493 in
          let op2 := WriteFile target (Z.land (th_mode h) 511) (th_data h) in
          if os op1 then ([op1; op2], if os op2 then None else Some "write") else ([op1], Some "mkdir")
      | TypeSymlink => ([], Some (entry_link h))
      | TypeOther => ([], None)
      end
  end.
Fixpoint extractTarGz (dest : string) (entries : list tar_entry) (readErr : option string) : list fs_op * option string :=
  match entries with
  | [] => ([], match readErr with None => None | Some e => Some ("tar read: " +:+ e) end)
  | h :: entries =>
      let '(ops, err) := entry_ops dest h in
      match err with
      | Some e => (ops, Some e)
      | None => let '(ops', r) := extractTarGz dest entries readErr in (ops ++ ops', r)
      end
  end.
End extract.

(** ** Sources *)
Record SkillSpec := mkSkill {
  sk_name : string; sk_url : string; sk_ref : string; sk_path : string; sk_username : string; sk_password : string;
  sk_token : string; sk_source : string
}.
Record NodePluginSpec := mkPlugin { pl_name : string; pl_url : string }.
Record resourceSource := mkSrc {
  src_url : string; src_gitRef : string; src_path : string; src_username : string; src_password : string;
  src_token : string; src_source : string; src_digest : string
}.
Definition isArchiveSource (s : resourceSource) : bool :=
  if String.eqb (src_source s) "archive" then true
  else if one_of (src_source s) ["github"; "git"] then false
  else Contains (src_url s) "/api/v1/resources/" && Contains (src_url s) "/fetch/".
Definition skillSource (skill : SkillSpec) : resourceSource :=
  mkSrc (TrimSpace (sk_url skill)) (TrimSpace (sk_ref skill)) (TrimSpace (sk_path skill)) (TrimSpace (sk_username skill))
    (TrimSpace (sk_password skill)) (TrimSpace (sk_token skill)) (TrimSpace (sk_source skill)) "".
Definition pluginSource (plugin : NodePluginSpec) : resourceSource := mkSrc (TrimSpace (pl_url plugin)) "" "" "" "" "" "" "".
Definition applyResourceCredentials (src : resourceSource) : string :=
  let url := src_url src in
  let pass := if String.eqb (src_password src) "" then src_token src else src_password src in
  if String.eqb (src_username src) "" && String.eqb pass "" then url
  else
    let cred := src_username src +:+ (if String.eqb pass "" then "" else ":" +:+ pass) in
    if HasPrefix url "https://" then "https://" +:+ cred +:+ "@" +:+ TrimPrefix url "https://"
    else if HasPrefix url "http://" then "http://" +:+ cred +:+ "@" +:+ TrimPrefix url "http://"
    else url.
Definition clone_args (src : resourceSource) (dest : string) : list string :=
  ["clone"; "--depth"; "1"; "--recurse-submodules"; "--shallow-submodules"]
  ++ (if String.eqb (src_gitRef src) "" then [] else ["--branch"; src_gitRef src])
  ++ [applyResourceCredentials src; dest].

(** ** State and host *)
Record cacheEntry := mkCache { ca_content : option node; ca_ready : option string }.   (** content/ and .ready *)
Inductive reply :=
| NoReply (e : string)
| HttpReply (status : Z) (digest : string) (body : result (list tar_entry * option string)).   (** as gzip and tar read it *)
Record rst := mkRst {
  r_dirs : gmap string (gmap string node);
  r_cache : gmap string cacheEntry;
  r_ops : nat;                                  (** operations done *)
  r_net : list (string + list string)           (** downloads and clones *)
}.
#[export] Instance eta_rst : Settable rst := λ s, mkRst (r_dirs s) (r_cache s) (r_ops s) (r_net s).
Record rhost := mkRhost {
  rh_io : nat → option (string * option node);      (** the n-th operation fails and leaves this *)
  rh_local : string → result node;                  (** the tree at a local path *)
  rh_git : nat → option string * option node;       (** the n-th transfer, as a clone: error and tree at dest *)
  rh_http : nat → reply;                            (** the n-th transfer, as a download *)
  rh_os : fs_op → bool;                             (** whether an unpacking operation succeeds *)
  rh_unpack : node → list fs_op → node;             (** content/ after these operations *)
  rh_quote : string → string                        (** strconv.Quote on a rune of several bytes *)
}.
Definition R (A : Type) : Type := rst → result A * rst.
#[export] Instance R_ret : MRet R := λ A a s, (Ok a, s).
#[export] Instance R_bind : MBind R := λ A B f m s,
  match m s with
  | (Ok a, s') => f a s'
  | (Err e, s') => (Err e, s')
  end.
Definition fail {A} (e : string) : R A := λ s, (Err e, s).
Definition wrap {A} (what : string) (m : R A) : R A := λ s,
  match m s with
  | (Err e, s') => (Err (what +:+ e), s')
  | ok => ok
  end.
(** a place: a directory and the name of a child *)
Definition place : Type := string * string.
Definition put (p : place) (n : option node) (s : rst) : rst :=
  s <| r_dirs := partial_alter (λ d, Some (partial_alter (λ _, n) p.2 (default ∅ d))) p.1 (r_dirs s) |>.
Definition at_place (p : place) (s : rst) : option node := d ← r_dirs s !! p.1; d !! p.2.
Definition tick (s : rst) : rst := s <| r_ops := S (r_ops s) |>.

Section ops.
Variable h : rhost.
(** os.RemoveAll of a place *)
Definition remove_all (p : place) : R () := λ s,
  match rh_io h (r_ops s) with
  | Some (e, kept) => (Err e, tick (if bool_decide (at_place p s = None) then s else put p kept s))
  | None => (Ok (), tick (if bool_decide (at_place p s = None) then s else put p None s))
  end.
(** os.MkdirAll of a directory of places *)
Definition mkdir (dir : string) : R () := λ s,
  match rh_io h (r_ops s) with
  | Some (e, _) => (Err e, tick s)
  | None => (Ok (), tick (s <| r_dirs := partial_alter (λ d, Some (default ∅ d)) dir (r_dirs s) |>))
  end.
(** copyTree of a tree to an absent place *)
Definition copy_to (n : node) (p : place) : R () := λ s,
  match rh_io h (r_ops s) with
  | Some (e, kept) => (Err e, tick (put p kept s))
  | None => let '(c, err) := copyTree n in (match err with Some e => Err e | None => Ok () end, tick (put p c s))
  end.
(** os.Stat of the source, then the copy *)
Definition copy_from (src p : place) : R () := λ s,
  match at_place src s with
  | None => (Err "no such file or directory", s)
  | Some n => copy_to n p s
  end.
Definition replaceTree (src dest : place) : R () := remove_all dest ;; copy_from src dest.

(** ** fetchArchive *)
Variable workRoot : string.
Definition resourceCacheRoot : string := Join [workRoot; ".resource-cache"].
Definition cache_key (src : resourceSource) : string :=
  if String.eqb (src_digest src) "" then "url-" +:+ take_bytes 16 (sha256hex (src_url src)) else src_digest src.
Definition content_dir (key : string) : string := Join [resourceCacheRoot; key; "content"].
Definition set_cache (key : string) (c : option cacheEntry) (s : rst) : rst :=
  s <| r_cache := partial_alter (λ _, c) key (r_cache s) |>.
Definition cache_content (key : string) (s : rst) : option node := c ← r_cache s !! key; ca_content c.
(** the digest the server reports, with what unpacking left in content/ *)
Definition downloadAndExtract (src : resourceSource) (key : string) : R string := λ s,
  let n := length (r_net s) in
  let s := s <| r_net := r_net s ++ [inl (src_url src)] |> in
  match rh_http h n with
  | NoReply e => (Err ("download " +:+ src_url src +:+ ": " +:+ e), s)
  | HttpReply status digest body =>
      if negb (status =? 200)%Z then (Err ("download " +:+ src_url src +:+ ": HTTP " +:+ itoa (Z.to_N status)), s)
      else
        let digest := TrimSpace digest in
        if negb (String.eqb digest "") && negb (String.eqb (src_digest src) "") && negb (EqualFold digest (src_digest src))
        then (Err ("digest mismatch: server " +:+ digest +:+ " != expected " +:+ src_digest src), s)
        else match body with
        | Err e => (Err ("gzip: " +:+ e), s)
        | Ok (entries, readErr) =>
            let '(ops, err) := extractTarGz (rh_os h) (content_dir key) entries readErr in
            let content := rh_unpack h (default (NDir []) (cache_content key s)) ops in
            (match err with Some e => Err e | None => Ok digest end,
             set_cache key (Some (mkCache (Some content) None)) s)
        end
  end.
Definition drop_cache (key : string) (s : rst) : rst :=
  tick (set_cache key (match rh_io h (r_ops s) with Some (_, kept) => Some (mkCache kept None) | None => None end) s).
Definition mark_ready (key digest : string) : R () := λ s,
  let marker := if String.eqb digest "" then "ok" else digest in
  let with_mark m := set_cache key (Some (mkCache (cache_content key s) m)) s in
  match rh_io h (r_ops s) with
  | Some (e, kept) => (Err ("mark cache ready: " +:+ e), tick (with_mark (const "" <$> kept)))
  | None => (Ok (), tick (with_mark (Some marker)))
  end.
Definition copy_content (key : string) (dest : place) : R () := λ s,
  match cache_content key s with
  | None => (Err "no such file or directory", s)
  | Some n => copy_to n dest s
  end.
Definition fetchArchive (src : resourceSource) (dest : place) : R () := λ s,
  let key := cache_key src in
  match r_cache s !! key ≫= ca_ready with
  | Some _ => copy_content key dest s
  | None =>
      match rh_io h (r_ops s) with
      | Some (e, _) => (Err ("create cache content dir: " +:+ e), tick s)
      | None =>
          let s := tick (set_cache key (Some (mkCache (Some (default (NDir []) (cache_content key s))) None)) s) in
          match downloadAndExtract src key s with
          | (Err e, s) => (Err e, drop_cache key s)
          | (Ok digest, s) => (mark_ready key digest ;; copy_content key dest) s
          end
      end
  end.
Definition clone (src : resourceSource) (dest : place) : R () := λ s,
  let n := length (r_net s) in
  let s := s <| r_net := r_net s ++ [inr (clone_args src (Join [dest.1; dest.2]))] |> in
  let '(err, tree) := rh_git h n in
  (match err with Some e => Err e | None => Ok () end, put dest tree s).
Definition fetchResource (src : resourceSource) (dest : place) : R () :=
  remove_all dest ;;
  if negb (String.eqb (src_path src) "") then
    match rh_local h (src_path src) with Err e => fail e | Ok n => copy_to n dest end
  else if String.eqb (src_url src) "" then mret ()
  else if isArchiveSource src then fetchArchive src dest
  else clone src dest.

(** ** Pruning *)
Definition sorted_names (d : gmap string node) : list string :=
  merge_sort (λ a b, Is_true (String.leb a b)) (map_to_list d).*1.
Fixpoint prune_names (dir : string) (d : gmap string node) (desired : gset string) (names : list string) : R () :=
  match names with
  | [] => mret ()
  | name :: names =>
      if negb (match d !! name with Some n => is_dir n | None => false end) then prune_names dir d desired names
      else if bool_decide (name ∈ desired) then prune_names dir d desired names
      else wrap ("remove stale " +:+ name +:+ ": ") (remove_all (dir, name)) ;; prune_names dir d desired names
  end.
Definition pruneResourceDir (dir : string) (desired : gset string) : R () := λ s,
  match r_dirs s !! dir with
  | None => (Ok (), s)
  | Some d =>
      match rh_io h (r_ops s) with
      | Some (e, _) => (Err e, tick s)
      | None => prune_names dir d desired (sorted_names d) (tick s)
      end
  end.

(** ** Sessions *)
Record rsession := mkRses { rs_provider : string; rs_home : string; rs_skillsDir : string; rs_pluginsDir : string }.
Definition runtimeSkillsDir (home provider : string) : string :=
  if String.eqb (normalizeProvider provider) "claude" then Join [home; ".claude"; "skills"] else Join [home; ".agents"; "skills"].
Definition runtimePluginsDir (home provider : string) : string :=
  if String.eqb (normalizeProvider provider) "gemini" then Join [home; ".gemini"; "extensions"] else Join [home; ".agents"; "plugins"].

(** *** Files inside a tree *)
Fixpoint entry_of (name : string) (es : list (string * node)) : option node :=
  match es with
  | [] => None
  | (k, m) :: es => if String.eqb k name then Some m else entry_of name es
  end.
Fixpoint find_in (cs : list string) (n : node) : option node :=
  match cs with
  | [] => Some n
  | c :: cs => match n with NDir es => m ← entry_of c es; find_in cs m | _ => None end
  end.
Fixpoint set_entry (name : string) (m : node) (es : list (string * node)) : list (string * node) :=
  match es with
  | [] => [(name, m)]
  | (k, v) :: es =>
      if String.eqb k name then (name, m) :: es
      else if String.leb name k then (name, m) :: (k, v) :: es else (k, v) :: set_entry name m es
  end.
(** os.MkdirAll of the parents and os.WriteFile *)
Fixpoint write_in (cs : list string) (data : string) (n : node) : option node :=
  match cs with
  | [] => match n with NDir _ => None | _ => Some (NFile data) end
  | c :: cs =>
      match n with
      | NDir es =>
          let child := match entry_of c es with
            | Some m => m
            | None => match cs with [] => NFile "" | _ => NDir [] end
            end in
          m ← write_in cs data child; Some (NDir (set_entry c m es))
      | _ => None
      end
  end.
(** the wrapper as json.MarshalIndent prints it *)
Definition marketplace_json (name : string) : string :=
  let k s := dquote +:+ s +:+ dquote +:+ ": " in
  let v s := dquote +:+ s +:+ dquote in
  concat_sep newline [
    "{"; "  " +:+ k "name" +:+ json_quote name +:+ ","; "  " +:+ k "plugins" +:+ "["; "    {";
    "      " +:+ k "name" +:+ json_quote name +:+ ","; "      " +:+ k "policy" +:+ "{";
    "        " +:+ k "authentication" +:+ v "ON_INSTALL" +:+ ","; "        " +:+ k "installation" +:+ v "AVAILABLE"; "      },";
    "      " +:+ k "source" +:+ "{"; "        " +:+ k "source" +:+ v "url" +:+ ","; "        " +:+ k "url" +:+ v "./"; "      }";
    "    }"; "  ]"; "}"; ""].
(** its error is only logged *)
Definition ensureCodexMarketplaceManifest (p : place) (name : string) : R () := λ s,
  match at_place p s with
  | None => (Ok (), s)
  | Some n =>
      if bool_decide (is_Some (find_in [".agents"; "plugins"; "marketplace.json"] n)) then (Ok (), s)
      else if bool_decide (find_in [".codex-plugin"; "plugin.json"] n = None) then (Ok (), s)
      else match rh_io h (r_ops s) with
      | Some (_, kept) => (Ok (), tick (match kept with Some n => put p (Some n) s | None => s end))
      | None => (Ok (), tick (match write_in [".agents"; "plugins"; "marketplace.json"] (marketplace_json name) n with
                              | Some n => put p (Some n) s
                              | None => s
                              end))
      end
  end.

(** *** syncSkills and syncPlugins *)
Record wanted := mkWanted { w_name : string; w_src : resourceSource }.
Definition named (ws : list wanted) : list wanted := filter (λ w, TrimSpace (w_name w) ≠ "") ws.
Definition skills_wanted (skills : list SkillSpec) : list wanted := map (λ k, mkWanted (sk_name k) (skillSource k)) skills.
Definition plugins_wanted (plugins : list NodePluginSpec) : list wanted := map (λ p, mkWanted (pl_name p) (pluginSource p)) plugins.
Definition sync_one (what nodeDir runtimeDir : string) (codex : bool) (w : wanted) : R () :=
  let name := TrimSpace (w_name w) in
  let safe := sanitizeSessionDir name in
  wrap (what +:+ " " +:+ name +:+ ": ") (fetchResource (w_src w) (nodeDir, safe)) ;;
  wrap ("create runtime " +:+ what +:+ "s dir: ") (mkdir runtimeDir) ;;
  wrap ("mirror " +:+ what +:+ " " +:+ name +:+ " to runtime dir: ") (replaceTree (nodeDir, safe) (runtimeDir, safe)) ;;
  if codex then ensureCodexMarketplaceManifest (runtimeDir, safe) name else mret ().
Fixpoint sync_each (what nodeDir runtimeDir : string) (codex : bool) (ws : list wanted) : R () :=
  match ws with
  | [] => mret ()
  | w :: ws => sync_one what nodeDir runtimeDir codex w ;; sync_each what nodeDir runtimeDir codex ws
  end.
(** the names kept by the pruning *)
Definition desired_names (ws : list wanted) : gset string := list_to_set (map (λ w, TrimSpace (w_name w)) (named ws)).
Definition sync_set (what nodeDir runtimeDir : string) (codex : bool) (ws : list wanted) : R () :=
  sync_each what nodeDir runtimeDir codex (named ws) ;;
  wrap ("prune node " +:+ what +:+ "s dir: ") (pruneResourceDir nodeDir (desired_names ws)) ;;
  wrap ("prune runtime " +:+ what +:+ "s dir: ") (pruneResourceDir runtimeDir (desired_names ws)).
Definition syncSkills (ses : rsession) (skills : list SkillSpec) : R () :=
  sync_set "skill" (rs_skillsDir ses) (runtimeSkillsDir (rs_home ses) (rs_provider ses)) false (skills_wanted skills).
Definition syncPlugins (ses : rsession) (plugins : list NodePluginSpec) : R () :=
  sync_set "plugin" (rs_pluginsDir ses) (runtimePluginsDir (rs_home ses) (rs_provider ses))
    (String.eqb (normalizeProvider (rs_provider ses)) "codex") (plugins_wanted plugins).

(** *** syncEnvironment *)
Definition envResourceDir (home kind : string) : string := Join [home; ".agents"; kind].
Fixpoint env_each (envID kind root : string) (ws : list wanted) : R () :=
  match ws with
  | [] => mret ()
  | w :: ws =>
      let name := TrimSpace (w_name w) in
      wrap ("sync environment " +:+ envID +:+ ": prepare " +:+ kind +:+ "s dir: ") (mkdir root) ;;
      wrap ("sync environment " +:+ envID +:+ ": " +:+ kind +:+ " " +:+ name +:+ ": ")
        (fetchResource (w_src w) (root, sanitizeSessionDir name)) ;;
      env_each envID kind root ws
  end.
Definition safe_names (ws : list wanted) : gset string :=
  list_to_set (map (λ w, sanitizeSessionDir (TrimSpace (w_name w))) (named ws)).
Definition env_set (envID kind root : string) (ws : list wanted) : R () :=
  env_each envID kind root (named ws) ;;
  wrap ("sync environment " +:+ envID +:+ ": prune " +:+ kind +:+ "s: ") (pruneResourceDir root (safe_names ws)).
Definition syncEnvironment (opts : sessionOptions) (envID : string) (skills : list SkillSpec) (plugins : list NodePluginSpec) : R () :=
  let envID := TrimSpace envID in
  if String.eqb envID "" then fail "sync environment: env_id is required"
  else
    let home := envDir opts envID in
    wrap ("sync environment " +:+ envID +:+ ": prepare dir: ") (mkdir home) ;;
    env_set envID "skill" (envResourceDir home "skills") (skills_wanted skills) ;;
    env_set envID "plugin" (envResourceDir home "plugins") (plugins_wanted plugins).
End ops.
