(* ===== verification/ResourcesProofs.v ===== *)
(** * ResourcesProofs: unpacking, synchronising and caching of skills and plugins *)
From S2P Require Import Prelude GoStrings GoPath GoJson Archive Sha256 Workspace EditorConfig Resources.
From Stdlib Require Import Ascii.
Open Scope nat_scope.

(** ** Unpacking *)
Section extraction.
Variable os : fs_op → bool.
Variable dest : string.
Hypothesis dest_abs : IsAbs dest = true.
Hypothesis dest_clean : Clean dest = dest.

Lemma clean_abs p : IsAbs p = true → Clean p = render true (comps p).
Proof. intros Ha. unfold Clean, comps. rw Ha. by destruct p. Qed.
Lemma split_render cs : clean_shape true cs → split_slash (render true cs) = "" :: match cs with [] => [""] | _ => cs end.
Proof.
  intros Hs. destruct cs as [|c cs]; [done|]. pose proof (shape_no_slash _ _ Hs) as Hn. unfold render.
  change (String slash (join_slash (c :: cs))) with ("" +:+ String slash (join_slash (c :: cs))).
  rw split_slash_app // split_join //.
Qed.
Lemma split_trailing p : split_slash (p +:+ "/") = split_slash p ++ [""].
Proof. change (p +:+ "/") with (p +:+ String slash ""). by rw split_slash_app_any. Qed.
(** The prefix test of the code, on components. *)
Lemma prefix_comps cd ct :
  clean_shape true cd → clean_shape true ct → HasPrefix (render true ct +:+ "/") (render true cd +:+ "/") = true →
  ∃ ws, ct = cd ++ ws.
Proof.
  intros Hd Ht [u Hu]%HasPrefix_spec. apply (f_equal split_slash) in Hu.
  rw -string_app_assoc in Hu. change ("/" +:+ u) with (String slash u) in Hu.
  rw split_slash_app_any split_trailing !split_render // in Hu.
  destruct cd as [|d cd]; [by exists ct|]. destruct ct as [|t ct].
  - exfalso. cbn in Hu. injection Hu as Hx _. by apply (shape_head _ _ _ Hd).
  - injection Hu as Hu Hu'. subst t.
    pose proof (split_slash_nonempty u) as Hn. destruct (split_slash u) as [|l us _] using rev_ind; [done|].
    rw app_assoc in Hu'. apply app_inj_tail in Hu' as [-> _]. by exists us.
Qed.
(** A path joined below [dest] that passes the test. *)
Lemma joined_inside name :
  let target := Join [dest; name] in
  HasPrefix (Clean target +:+ "/") (Clean dest +:+ "/") = true → inside dest target ∧ (inside dest (Dir target) ∨ Dir target = Dir dest).
Proof.
  cbv zeta. intros Hp.
  assert (Hne : dest ≠ "") by (intros E; pose proof dest_abs as Hr; by rw E in Hr).
  set (raw := dest +:+ String slash name). assert (Ha : IsAbs raw = true) by (unfold raw; by destruct dest).
  assert (Hj : Join [dest; name] = render true (comps raw)) by (rw Join_two //; by apply clean_abs).
  pose proof (comps_shape raw) as Hsh. rw Ha in Hsh. pose proof (comps_shape dest) as Hsd. rw dest_abs in Hsd.
  assert (Hc : comps (render true (comps raw)) = comps raw ∧ IsAbs (render true (comps raw)) = true).
  { destruct (comps raw) as [|c cs]; [done|]. by destruct (render_comps true (c :: cs)). }
  destruct Hc as [Hc Hca]. rw Hj. rw Hj (clean_abs (render _ _)) // Hc (clean_abs dest) // in Hp.
  apply prefix_comps in Hp as [ws Hws]; [|done..].
  assert (Forall (λ w, safe_segment w = true) ws) as Hs.
  { destruct Hsh as (n & us & Hu & Hn & Hall). rw Hn // in Hu. cbn in Hu. rw -Hu Hws in Hall. by apply Forall_app in Hall as [_ ?]. }
  split; [split; [by rw Hca|exists ws; by rw Hc Hws]|].
  destruct ws as [|w ws].
  - right. rw Hws app_nil_r -clean_abs // dest_clean. done.
  - left. eapply (Dir_inside dest _ (w :: ws)); [done..|]. by rw dest_abs Hws.
Qed.
Lemma entry_target_inside e target :
  entry_target dest e = Ok target → inside dest target ∧ (inside dest (Dir target) ∨ Dir target = Dir dest).
Proof.
  unfold entry_target. destruct (_ || _); [done|]. destruct (HasPrefix _ _) eqn:Hp; [|done]. cbn [negb]. intros Ht.
  assert (target = Join [dest; th_name e]) as -> by congruence. by apply joined_inside.
Qed.
Lemma entry_ops_ok e : Forall (op_ok dest) (entry_ops os dest e).1 ∧ Forall (λ op, creates_link op = false) (entry_ops os dest e).1.
Proof.
  unfold entry_ops. destruct (entry_target dest e) as [target|] eqn:E; [|done]. apply entry_target_inside in E as [Ht Hd].
  destruct (th_type e); repeat case_match; cbn; split;
    repeat first [apply Forall_nil_2|apply Forall_cons_2]; first [done|by left].
Qed.
End extraction.

(** Unpacking a downloaded skill or plugin creates and writes only paths
    inside the destination (for an entry that names the destination itself,
    also its existing parent), never creates a link, and stops at the first
    entry that is absolute, escapes or is a symbolic link, for every archive
    and every failure of the host. *)
Theorem resource_extract_inside os dest entries readErr :
  IsAbs dest = true → Clean dest = dest →
  Forall (λ op, (inside dest (op_path op) ∨ op_path op = Dir dest) ∧ creates_link op = false)
    (Resources.extractTarGz os dest entries readErr).1 ∧
  ((Resources.extractTarGz os dest entries readErr).2 = None → Forall (λ e, is_symlink e = false) entries).
Proof.
  intros Ha Hc. induction entries as [|e entries [IH1 IH2]]; [by split|]. cbn [Resources.extractTarGz].
  destruct (entry_ops_ok os dest Ha Hc e) as [H1 H2]. destruct (entry_ops os dest e) as [ops err] eqn:E. cbn [fst] in H1, H2.
  assert (Forall (λ op, (inside dest (op_path op) ∨ op_path op = Dir dest) ∧ creates_link op = false) ops) as Hops.
  { apply Forall_and. by split. }
  destruct err as [err|]; [by split|]. destruct (Resources.extractTarGz os dest entries readErr) as [ops' r]. cbn in *.
  split; [by apply Forall_app|]. intros Hr. constructor; [|auto]. unfold is_symlink. destruct (th_type e) eqn:Et; try done.
  unfold entry_ops in E. rw Et in E. by destruct (entry_target dest e).
Qed.

(** ** Rules *)
Lemma bind_ok {A B} (m : R A) (f : A → R B) s b s' :
  (m ≫= f) s = (Ok b, s') → ∃ a s1, m s = (Ok a, s1) ∧ f a s1 = (Ok b, s').
Proof. unfold mbind, R_bind. destruct (m s) as [[a|e] s1]; [by exists a, s1|done]. Qed.
Lemma wrap_ok {A} what (m : R A) s a s' : wrap what m s = (Ok a, s') → m s = (Ok a, s').
Proof. unfold wrap. by destruct (m s) as [[|] ?]. Qed.
(** nothing outside [S] changes, whatever the result *)
Definition frames {A} (S : place → Prop) (m : R A) : Prop :=
  ∀ s r s', m s = (r, s') → ∀ q, ¬ S q → at_place q s' = at_place q s.
Section frames.
Context (S : place → Prop).
Lemma frames_ret {A} (a : A) : frames S (mret a).
Proof. by intros s r s' [= _ <-]. Qed.
Lemma frames_fail {A} e : frames S (fail e : R A).
Proof. by intros s r s' [= _ <-]. Qed.
Lemma frames_bind {A B} (m : R A) (f : A → R B) : frames S m → (∀ a, frames S (f a)) → frames S (m ≫= f).
Proof.
  intros Hm Hf s r s'. unfold mbind, R_bind. destruct (m s) as [[a|e] s1] eqn:E.
  - intros H q Hq. rw (Hf a _ _ _ H q Hq). by apply (Hm _ _ _ E).
  - intros [= _ <-]. by apply (Hm _ _ _ E).
Qed.
Lemma frames_wrap {A} what (m : R A) : frames S m → frames S (wrap what m).
Proof.
  intros Hm s r s'. unfold wrap. destruct (m s) as [[a|e] s1] eqn:E; intros [= _ <-]; by apply (Hm _ _ _ E).
Qed.
End frames.

Lemma at_place_put p n s q : at_place q (put p n s) = match decide (q = p) with left _ => n | right _ => at_place q s end.
Proof.
  destruct p as [d k], q as [d' k']. unfold at_place, put. cbn. destruct (decide (d' = d)) as [-> |Hd].
  - rw lookup_partial_alter_eq /=. destruct (decide (k' = k)) as [-> |Hk].
    + rw lookup_partial_alter_eq. by rw decide_True.
    + rw lookup_partial_alter_ne // decide_False; [|congruence]. by destruct (r_dirs s !! d).
  - rw lookup_partial_alter_ne // decide_False; [done|congruence].
Qed.
Lemma at_place_tick q s : at_place q (tick s) = at_place q s.
Proof. done. Qed.

Section ops.
Variable h : rhost.
Variable workRoot : string.
Ltac placed := rw ?at_place_tick ?at_place_put; try (rw decide_False; [|congruence]); try done.

Lemma remove_all_frames p (S : place → Prop) : S p → frames S (remove_all h p).
Proof.
  intros Hp s r s'. unfold remove_all. destruct (rh_io h (r_ops s)) as [[e k]|]; intros [= _ <-] q Hq;
    rw at_place_tick; destruct (bool_decide _); try done; placed.
Qed.
Lemma remove_all_ok p s s' : remove_all h p s = (Ok (), s') → at_place p s' = None.
Proof.
  unfold remove_all. destruct (rh_io h (r_ops s)) as [[e k]|]; [done|]. intros [= <-]. rw at_place_tick.
  destruct (bool_decide _) eqn:E; [by apply bool_decide_eq_true in E|]. rw at_place_put. by rw decide_True.
Qed.
Lemma mkdir_frames dir (S : place → Prop) : frames S (mkdir h dir).
Proof.
  intros s r s'. unfold mkdir. destruct (rh_io h (r_ops s)) as [[e k]|]; intros [= _ <-] [d n] Hq; [done|].
  rw at_place_tick. unfold at_place. cbn. destruct (decide (d = dir)) as [-> |].
  - rw lookup_partial_alter_eq /=. by destruct (r_dirs s !! dir).
  - by rw lookup_partial_alter_ne.
Qed.
Lemma copy_to_frames n p (S : place → Prop) : S p → frames S (copy_to h n p).
Proof.
  intros Hp s r s'. unfold copy_to. destruct (rh_io h (r_ops s)) as [[e k]|]; [|destruct (copyTree n) as [c err]];
    intros [= _ <-] q Hq; placed.
Qed.
Lemma copy_to_ok n p s s' : copy_to h n p s = (Ok (), s') → ∃ c, copyTree n = (c, None) ∧ at_place p s' = c.
Proof.
  unfold copy_to. destruct (rh_io h (r_ops s)) as [[e k]|]; [done|]. destruct (copyTree n) as [c [e|]]; [done|].
  intros [= <-]. exists c. split; [done|]. placed. by rw decide_True.
Qed.
Lemma copyTree_some n c : copyTree n = (c, None) → is_Some c.
Proof. destruct n as [d|es|[d|e]]; cbn; [by intros [= <-]| |by intros [= <-]|done]. destruct (_ es) as [l [e|]]; [done|]. by intros [= <-]. Qed.
Lemma copy_from_frames src p (S : place → Prop) : S p → frames S (copy_from h src p).
Proof.
  intros Hp s r s'. unfold copy_from. destruct (at_place src s); [by apply copy_to_frames|by intros [= _ <-]].
Qed.
Lemma replaceTree_frames src dest (S : place → Prop) : S dest → frames S (replaceTree h src dest).
Proof. intros Hd. apply frames_bind; [by apply remove_all_frames|]. intros _. by apply copy_from_frames. Qed.
(** a successful mirror is an exact copy *)
Lemma replaceTree_ok src dest s s' :
  src ≠ dest → replaceTree h src dest s = (Ok (), s') →
  ∃ n m, at_place src s' = Some n ∧ copyTree n = (Some m, None) ∧ at_place dest s' = Some m.
Proof.
  intros Hne ([] & s1 & _ & H2)%bind_ok. unfold copy_from in H2. destruct (at_place src s1) as [n|] eqn:E; [|done].
  pose proof (copy_to_frames n dest (λ q, q = dest) eq_refl _ _ _ H2 src Hne) as Hs.
  apply copy_to_ok in H2 as (c & Hc & Hd). destruct (copyTree_some _ _ Hc) as [m ->]. exists n, m. by rw Hs.
Qed.
Lemma fetchArchive_frames src dest (S : place → Prop) : S dest → frames S (fetchArchive h workRoot src dest).
Proof.
  intros Hd. assert (∀ key, frames S (copy_content h key dest)) as Hc.
  { intros key s r s'. unfold copy_content. destruct (cache_content key s); [by apply copy_to_frames|by intros [= _ <-]]. }
  intros s r s'. unfold fetchArchive. destruct (r_cache s !! _ ≫= ca_ready); [apply Hc|].
  destruct (rh_io h (r_ops s)) as [[e k]|]; [by intros [= _ <-]|].
  destruct (downloadAndExtract _ _ _ _ _) as [r2 s2] eqn:E.
  assert (∀ q, at_place q s2 = at_place q s) as Hs2.
  { unfold downloadAndExtract in E. repeat case_match; by simplify_eq. }
  destruct r2 as [digest|e].
  - unfold mbind, R_bind. destruct (mark_ready h _ digest s2) as [r3 s3] eqn:E3.
    assert (∀ q, at_place q s3 = at_place q s) as Hs3.
    { intros q. rw -Hs2. unfold mark_ready in E3. repeat case_match; by simplify_eq. }
    destruct r3 as [[]|]; [|intros [= _ <-] q _; apply Hs3]. intros H q Hq. rw (Hc _ _ _ _ H q Hq). apply Hs3.
  - intros [= _ <-] q _. exact (Hs2 q).
Qed.
Lemma clone_frames src dest (S : place → Prop) : S dest → frames S (clone h src dest).
Proof. intros Hd s r s'. unfold clone. destruct (rh_git h _) as [err t]. intros [= _ <-] q Hq. placed. Qed.
Lemma fetchResource_frames src dest (S : place → Prop) : S dest → frames S (fetchResource h workRoot src dest).
Proof.
  intros Hd. apply frames_bind; [by apply remove_all_frames|]. intros _.
  destruct (negb _); [destruct (rh_local h _); [by apply copy_to_frames|apply frames_fail]|].
  destruct (String.eqb _ ""); [apply frames_ret|]. destruct (isArchiveSource src); [by apply fetchArchive_frames|by apply clone_frames].
Qed.
Lemma ensure_frames p name (S : place → Prop) : S p → frames S (ensureCodexMarketplaceManifest h p name).
Proof.
  intros Hp s r s'. unfold ensureCodexMarketplaceManifest. repeat case_match; intros [= _ <-] q Hq; placed.
Qed.
Lemma ensure_present p name s r s' :
  ensureCodexMarketplaceManifest h p name s = (r, s') → is_Some (at_place p s) → is_Some (at_place p s').
Proof.
  unfold ensureCodexMarketplaceManifest. intros H Hp. repeat case_match; simplify_eq; try done;
    placed; rw ?decide_True //.
Qed.

(** ** Pruning *)
Lemma sorted_names_elem d name : name ∈ sorted_names d ↔ is_Some (d !! name).
Proof.
  unfold sorted_names. rw merge_sort_Permutation list_elem_of_fmap. split.
  - intros ([k n] & -> & Hin). apply elem_of_map_to_list in Hin. by exists n.
  - intros [n Hn]. exists (name, n). split; [done|]. by apply elem_of_map_to_list.
Qed.
Lemma prune_names_frames dir d desired names (S : place → Prop) :
  (∀ name, S (dir, name)) → frames S (prune_names h dir d desired names).
Proof.
  intros HS. induction names as [|name names IH]; cbn [prune_names]; [apply frames_ret|].
  destruct (negb _); [done|]. destruct (bool_decide _); [done|].
  apply frames_bind; [by apply frames_wrap, remove_all_frames|]. by intros _.
Qed.
(** only unwanted directories go *)
Definition stale (d : gmap string node) (desired : gset string) (name : string) : Prop :=
  (name ∉ desired) ∧ ∃ n, d !! name = Some n ∧ is_dir n = true.
Lemma prune_names_keeps dir d desired names (q : place) :
  (q.1 = dir → ¬ stale d desired q.2) → ∀ s r s', prune_names h dir d desired names s = (r, s') → at_place q s' = at_place q s.
Proof.
  intros Hq. induction names as [|name names IH]; intros s r s'; cbn [prune_names]; [by intros [= _ <-]|].
  destruct (match d !! name with Some n => is_dir n | None => false end) eqn:Ed; cbn [negb]; [|apply IH].
  destruct (bool_decide (name ∈ desired)) eqn:Eb; [apply IH|]. apply bool_decide_eq_false in Eb.
  assert (Hne : q ≠ (dir, name)).
  { intros ->. apply Hq; [done|]. split; [done|]. cbn. destruct (d !! name) as [n|] in Ed |- *; [by exists n|done]. }
  unfold mbind, R_bind. destruct (wrap _ _ s) as [r1 s1] eqn:E.
  assert (at_place q s1 = at_place q s) as Hs1.
  { eapply (frames_wrap (λ p, p = (dir, name))); [by apply remove_all_frames|exact E|exact Hne]. }
  destruct r1 as [[]|]; [|intros [= _ <-]; exact Hs1]. intros H. by rw (IH _ _ _ H).
Qed.
Lemma prune_names_gone dir d desired names s s' name :
  prune_names h dir d desired names s = (Ok (), s') → name ∈ names → stale d desired name → at_place (dir, name) s' = None.
Proof.
  revert s. induction names as [|k names IH]; intros s; [by intros _ ?%not_elem_of_nil|]. cbn [prune_names].
  intros H Hin (Hd & n & Hn & Hdir). destruct (decide (name = k)) as [<- |Hne].
  - rw Hn Hdir /= (bool_decide_eq_false_2 _ Hd) in H. apply bind_ok in H as ([] & s1 & H1%wrap_ok%remove_all_ok & H2).
    destruct (decide (name ∈ names)) as [Hin'|Hout]; [eapply IH; [exact H2|done|]; split; [done|by exists n]|].
    destruct (at_place (dir, name) s') eqn:E; [|done]. exfalso.
    revert s1 H1 H2. clear -Hout E. induction names as [|k names IH]; intros s1 H1 H2; cbn [prune_names] in H2.
    + injection H2 as <-. congruence.
    + apply not_elem_of_cons in Hout as [Hk Hout]. destruct (negb _); [by eapply IH|]. destruct (bool_decide _); [by eapply IH|].
      apply bind_ok in H2 as ([] & s2 & H3%wrap_ok & H4). eapply IH; [exact Hout| |exact H4].
      rw (remove_all_frames (dir, k) (λ p, p = (dir, k)) eq_refl _ _ _ H3); [done|]. congruence.
  - apply elem_of_cons in Hin as [?|Hin]; [done|].
    destruct (negb _); [eapply IH; [exact H|done|]; split; [done|by exists n]|].
    destruct (bool_decide _); [eapply IH; [exact H|done|]; split; [done|by exists n]|].
    apply bind_ok in H as ([] & s1 & _ & H2). eapply IH; [exact H2|done|]. split; [done|by exists n].
Qed.
Lemma prune_frames dir desired (S : place → Prop) :
  (∀ name, S (dir, name)) → frames S (pruneResourceDir h dir desired).
Proof.
  intros HS s r s'. unfold pruneResourceDir. destruct (r_dirs s !! dir) as [d|]; [|by intros [= _ <-]].
  destruct (rh_io h (r_ops s)) as [[e k]|]; [by intros [= _ <-]|]. intros H q Hq.
  by apply (prune_names_frames dir d desired _ S HS _ _ _ H q Hq).
Qed.
Lemma prune_ok dir desired s s' :
  pruneResourceDir h dir desired s = (Ok (), s') →
  (∀ name n, at_place (dir, name) s' = Some n → is_dir n = true → name ∈ desired) ∧
  (∀ name, (name ∈ desired ∨ ∀ n, at_place (dir, name) s = Some n → is_dir n = false) →
     at_place (dir, name) s' = at_place (dir, name) s).
Proof.
  unfold pruneResourceDir. destruct (r_dirs s !! dir) as [d|] eqn:Ed.
  2:{ intros [= <-]. split; [|done]. intros name n. unfold at_place. cbn. by rw Ed. }
  destruct (rh_io h (r_ops s)) as [[e k]|]; [done|]. intros H.
  assert (Hat : ∀ name, at_place (dir, name) s = d !! name) by (intros name; unfold at_place; cbn; by rw Ed).
  assert (Hk : ∀ name, ¬ stale d desired name → at_place (dir, name) s' = at_place (dir, name) s).
  { intros name Hs. rw (prune_names_keeps dir d desired _ (dir, name) (λ _, Hs) _ _ _ H). apply at_place_tick. }
  split.
  - intros name n Hn Hdir. destruct (decide (name ∈ desired)) as [|Hout]; [done|]. exfalso.
    destruct (d !! name) as [m|] eqn:Em; [destruct (is_dir m) eqn:Edir|].
    + assert (stale d desired name) as Hs by (split; [done|by exists m]).
      rw (prune_names_gone _ _ _ _ _ _ _ H) in Hn; [done| |done]. by apply sorted_names_elem; exists m.
    + rw Hk in Hn; [rw Hat Em in Hn; congruence|]. intros (_ & m' & Hm' & Hd'). congruence.
    + rw Hk in Hn; [rw Hat Em in Hn; congruence|]. intros (_ & m' & Hm' & Hd'). congruence.
  - intros name Hor. apply Hk. intros (Hout & n & Hn & Hdir). destruct Hor as [|Hor]; [done|].
    specialize (Hor n). rw Hat in Hor. rw Hor // in Hdir.
Qed.

(** ** Synchronising a set *)
Section set.
Variables (what nodeDir runtimeDir : string) (codex : bool).
Hypothesis apart : nodeDir ≠ runtimeDir.
Definition in_dirs (q : place) : Prop := q.1 = nodeDir ∨ q.1 = runtimeDir.
Definition safe_name (w : wanted) : string := sanitizeSessionDir (TrimSpace (w_name w)).
(** present in both directories, the runtime's being an exact copy *)
Definition mirrored (name : string) (s : rst) : Prop :=
  ∃ n m, at_place (nodeDir, name) s = Some n ∧ at_place (runtimeDir, name) s = Some m ∧
         (codex = false → copyTree n = (Some m, None)).
Lemma mirrored_same name s s' :
  at_place (nodeDir, name) s' = at_place (nodeDir, name) s → at_place (runtimeDir, name) s' = at_place (runtimeDir, name) s →
  mirrored name s → mirrored name s'.
Proof. unfold mirrored. by intros -> ->. Qed.
Lemma sync_one_frames w (S : place → Prop) :
  S (nodeDir, safe_name w) → S (runtimeDir, safe_name w) → frames S (sync_one h workRoot what nodeDir runtimeDir codex w).
Proof.
  intros H1 H2. unfold sync_one. fold (safe_name w).
  apply frames_bind; [by apply frames_wrap, fetchResource_frames|intros _].
  apply frames_bind; [by apply frames_wrap, mkdir_frames|intros _].
  apply frames_bind; [by apply frames_wrap, replaceTree_frames|intros _].
  destruct codex; [by apply ensure_frames|apply frames_ret].
Qed.
Lemma sync_one_ok w s s' :
  sync_one h workRoot what nodeDir runtimeDir codex w s = (Ok (), s') → mirrored (safe_name w) s'.
Proof.
  unfold sync_one. fold (safe_name w). intros ([] & s1 & _ & H)%bind_ok. apply bind_ok in H as ([] & s2 & _ & H).
  apply bind_ok in H as ([] & s3 & H3%wrap_ok & H).
  apply replaceTree_ok in H3 as (n & m & Hn & Hc & Hm); [|congruence].
  destruct codex eqn:Ecodex; [|injection H as <-; by exists n, m].
  destruct (ensure_present _ _ _ _ _ H) as [m' Hm']; [by exists m|]. exists n, m'. split; [|split; [exact Hm'|by rw Ecodex]].
  rw (ensure_frames (runtimeDir, safe_name w) _ (λ p, p = (runtimeDir, safe_name w)) eq_refl _ _ _ H); [done|]. congruence.
Qed.
Lemma sync_each_frames ws : frames in_dirs (sync_each h workRoot what nodeDir runtimeDir codex ws).
Proof.
  induction ws as [|w ws IH]; cbn [sync_each]; [apply frames_ret|].
  apply frames_bind; [|by intros _]. apply sync_one_frames; [by left|by right].
Qed.
Lemma sync_each_ok ws s s' :
  sync_each h workRoot what nodeDir runtimeDir codex ws s = (Ok (), s') →
  (∀ w, w ∈ ws → mirrored (safe_name w) s') ∧ (∀ name, (∀ w, w ∈ ws → safe_name w ≠ name) → mirrored name s → mirrored name s').
Proof.
  revert s. induction ws as [|w ws IH]; intros s; cbn [sync_each].
  { intros [= <-]. split; [by intros w ?%not_elem_of_nil|done]. }
  intros ([] & s1 & H1 & H2)%bind_ok. destruct (IH _ H2) as [IH1 IH2]. split.
  - intros v [-> |Hv]%elem_of_cons; [|by apply IH1].
    destruct (decide (safe_name w ∈ map safe_name ws)) as [(v & Hv & Hin)%list_elem_of_fmap|Hout].
    + rw Hv. by apply IH1.
    + apply IH2; [|by eapply sync_one_ok]. intros v Hv Heq. apply Hout. apply list_elem_of_fmap. by exists v.
  - intros name Hall Hm. apply IH2; [intros v Hv; apply Hall; by right|].
    assert (safe_name w ≠ name) as Hne by (apply Hall; by left).
    eapply mirrored_same; [| |exact Hm];
      eapply (sync_one_frames w (λ q, q.2 = safe_name w)); try done; cbn; congruence.
Qed.
Lemma sync_set_exact ws s s' :
  sync_set h workRoot what nodeDir runtimeDir codex ws s = (Ok (), s') →
  (∀ d name n, d = nodeDir ∨ d = runtimeDir → at_place (d, name) s' = Some n → is_dir n = true → name ∈ desired_names ws) ∧
  (∀ w, w ∈ named ws → safe_name w ∈ desired_names ws → mirrored (safe_name w) s').
Proof.
  intros ([] & s1 & [H1 _]%sync_each_ok & H)%bind_ok. apply bind_ok in H as ([] & s2 & H2%wrap_ok & H3%wrap_ok).
  pose proof (λ q, prune_frames runtimeDir (desired_names ws) (λ q, q.1 = runtimeDir) (λ _, eq_refl) _ _ _ H3 q) as F3.
  pose proof (λ q, prune_frames nodeDir (desired_names ws) (λ q, q.1 = nodeDir) (λ _, eq_refl) _ _ _ H2 q) as F2.
  apply prune_ok in H2 as [P2 K2], H3 as [P3 K3]. split.
  - intros d name n [-> | ->] Hn Hdir; [|by eapply P3]. rw F3 in Hn; [by eapply P2|by cbn].
  - intros w Hw Hin. eapply mirrored_same; [| |exact (H1 w Hw)].
    + rw F3; [|by cbn]. apply K2. by left.
    + rw K3; [|by left]. apply F2. cbn. congruence.
Qed.
Lemma sync_set_frames ws : frames in_dirs (sync_set h workRoot what nodeDir runtimeDir codex ws).
Proof.
  unfold sync_set. apply frames_bind; [apply sync_each_frames|intros _].
  apply frames_bind; [apply frames_wrap, prune_frames; by left|intros _]. apply frames_wrap, prune_frames. by right.
Qed.
End set.
End ops.

(** A successful skill synchronisation leaves in the node's and in the
    runtime's skill directory only directories of skills asked for, and every
    skill whose name is its own directory name is in both, the runtime's being
    an exact copy of the node's; and whatever happens, failures included,
    nothing in any other directory changes. *)
Theorem skills_sync_exact h workRoot ses skills s r s' :
  let runtimeDir := runtimeSkillsDir (rs_home ses) (rs_provider ses) in
  syncSkills h workRoot ses skills s = (r, s') → rs_skillsDir ses ≠ runtimeDir →
  (∀ d name, d ≠ rs_skillsDir ses → d ≠ runtimeDir → at_place (d, name) s' = at_place (d, name) s) ∧
  (r = Ok () →
   (∀ d name n, d = rs_skillsDir ses ∨ d = runtimeDir → at_place (d, name) s' = Some n → is_dir n = true →
      ∃ k, k ∈ skills ∧ TrimSpace (sk_name k) = name ∧ name ≠ "") ∧
   (∀ k, k ∈ skills → TrimSpace (sk_name k) ≠ "" → sanitizeSessionDir (TrimSpace (sk_name k)) = TrimSpace (sk_name k) →
      ∃ n m, at_place (rs_skillsDir ses, TrimSpace (sk_name k)) s' = Some n ∧
             at_place (runtimeDir, TrimSpace (sk_name k)) s' = Some m ∧ copyTree n = (Some m, None))).
Proof.
  cbn zeta. intros H Hne. split.
  - intros d name H1 H2. eapply (sync_set_frames h workRoot "skill" _ _ false (skills_wanted skills)); [exact H|].
    by intros [?|?].
  - intros ->. apply (sync_set_exact h workRoot "skill" _ _ false Hne) in H as [P Q]. split.
    + intros d name n Hd Hn Hdir. specialize (P d name n Hd Hn Hdir). unfold desired_names in P.
      apply elem_of_list_to_set, list_elem_of_fmap in P as (w & -> & Hw). apply list_elem_of_filter in Hw as [Hne' Hw].
      apply list_elem_of_fmap in Hw as (k & -> & Hk). by exists k.
    + intros k Hk Hk' Hsafe.
      assert (Hw : mkWanted (sk_name k) (skillSource k) ∈ named (skills_wanted skills)).
      { apply list_elem_of_filter. split; [done|]. apply list_elem_of_fmap. by exists k. }
      destruct (Q _ Hw) as (n & m & Hn & Hm & Hc).
      { unfold safe_name. cbn. rw Hsafe. apply elem_of_list_to_set, list_elem_of_fmap. by exists (mkWanted (sk_name k) (skillSource k)). }
      unfold safe_name in Hn, Hm. cbn in Hn, Hm. rw Hsafe in Hn, Hm. exists n, m. split_and!; auto.
Qed.

(** ** The archive cache *)
Section cache.
Variable h : rhost.
Variable workRoot : string.
(** [content] is what a complete download for this key unpacks to *)
Definition complete (net : list (string + list string)) (key : string) (content : node) : Prop :=
  ∃ n src digest entries base,
    net !! n = Some (inl (src_url src)) ∧ cache_key src = key ∧ rh_http h n = HttpReply 200 digest (Ok (entries, None)) ∧
    (TrimSpace digest = "" ∨ src_digest src = "" ∨ EqualFold (TrimSpace digest) (src_digest src) = true) ∧
    let '(ops, err) := Resources.extractTarGz (rh_os h) (content_dir workRoot key) entries None in
    err = None ∧ content = rh_unpack h base ops.
Definition cache_inv (s : rst) : Prop :=
  ∀ key c m, r_cache s !! key = Some c → ca_ready c = Some m →
    ∃ content, ca_content c = Some content ∧ complete (r_net s) key content.
(** the cache is left alone and transfers are only added *)
Definition cache_same {A} (m : R A) : Prop :=
  ∀ s r s', m s = (r, s') → r_cache s' = r_cache s ∧ ∃ more, r_net s' = r_net s ++ more.
Definition cache_keeps {A} (m : R A) : Prop := ∀ s r s', m s = (r, s') → cache_inv s → cache_inv s'.
Lemma complete_more net more key content : complete net key content → complete (net ++ more) key content.
Proof.
  intros (n & src & digest & entries & base & Hn & H). exists n, src, digest, entries, base. split; [|exact H].
  by apply lookup_app_l_Some.
Qed.
Lemma same_keeps {A} (m : R A) : cache_same m → cache_keeps m.
Proof.
  intros Hm s r s' [Hc [more Hn]]%Hm I key c mk. rw Hc. intros H1 H2. destruct (I key c mk H1 H2) as (content & H3 & H4).
  exists content. split; [done|]. rw Hn. by apply complete_more.
Qed.
Lemma same_remove p : cache_same (remove_all h p).
Proof.
  intros s r s'. unfold remove_all. repeat case_match; intros [= _ <-]; (split; [done|]); exists []; by rw app_nil_r.
Qed.
Lemma same_copy n p : cache_same (copy_to h n p).
Proof.
  intros s r s'. unfold copy_to. repeat case_match; intros [= _ <-]; (split; [done|]); exists []; by rw app_nil_r.
Qed.
Lemma same_clone src p : cache_same (clone h src p).
Proof. intros s r s'. unfold clone. destruct (rh_git h _). intros [= _ <-]. split; [done|]. by eexists. Qed.
Lemma keeps_bind {A B} (m : R A) (f : A → R B) : cache_keeps m → (∀ a, cache_keeps (f a)) → cache_keeps (m ≫= f).
Proof.
  intros Hm Hf s r s'. unfold mbind, R_bind. destruct (m s) as [[a|e] s1] eqn:E; intros H I.
  - eapply Hf; [exact H|]. by eapply Hm.
  - injection H as _ <-. by eapply Hm.
Qed.
Lemma keeps_ret {A} (a : A) : cache_keeps (mret a).
Proof. by intros s r s' [= _ <-]. Qed.
Lemma keeps_content key p : cache_keeps (copy_content h key p).
Proof.
  intros s r s'. unfold copy_content. destruct (cache_content key s); [apply same_keeps, same_copy|by intros [= _ <-]].
Qed.
(** an entry without its marker says nothing *)
Lemma inv_unready key c s : (∀ c', c = Some c' → ca_ready c' = None) → cache_inv s → cache_inv (set_cache key c s).
Proof.
  intros Hc I k c' m. cbn. destruct (decide (k = key)) as [-> |Hk].
  - rw lookup_partial_alter_eq. intros ->. rw Hc //.
  - rw lookup_partial_alter_ne //. apply I.
Qed.
Lemma inv_tick s : cache_inv s → cache_inv (tick s).
Proof. done. Qed.
Lemma extract_whole os d entries readErr ops : Resources.extractTarGz os d entries readErr = (ops, None) → readErr = None.
Proof.
  revert ops. induction entries as [|x entries IH]; intros ops; cbn [Resources.extractTarGz]; [by destruct readErr|].
  destruct (entry_ops os d x) as [o [?|]]; [done|].
  destruct (Resources.extractTarGz os d entries readErr) as [o' r'] eqn:E. intros [= _ ->]. by eapply IH.
Qed.
Lemma download_inv src s r s' :
  downloadAndExtract h workRoot src (cache_key src) s = (r, s') → cache_inv s →
  cache_inv s' ∧ (is_ok r = true → ∃ content, cache_content (cache_key src) s' = Some content ∧ complete (r_net s') (cache_key src) content).
Proof.
  unfold downloadAndExtract. set (s1 := s <| r_net := _ |>). intros H I.
  assert (cache_inv s1) as I1.
  { intros k c m Hk Hm. destruct (I k c m Hk Hm) as (content & H1 & H2). exists content. split; [done|]. by apply complete_more. }
  destruct (rh_http h (length (r_net s))) as [e|status digest body] eqn:Eh; [injection H as <- <-; by split|].
  destruct (Z.eqb_spec status 200) as [-> |]; cbn [negb] in H; [|injection H as <- <-; by split].
  destruct (negb _ && negb _ && negb _) eqn:Ed; [injection H as <- <-; by split|].
  destruct body as [[entries readErr]|e]; [|injection H as <- <-; by split].
  destruct (Resources.extractTarGz _ _ entries readErr) as [ops err] eqn:Ex. injection H as <- <-.
  split; [apply inv_unready; [by intros c' [= <-]|done]|]. destruct err as [e|]; [done|]. intros _.
  eexists. split; [unfold cache_content; cbn; by rw lookup_partial_alter_eq|].
  assert (readErr = None) as ->.
  { by eapply extract_whole. }
  exists (length (r_net s)), src, digest, entries, (default (NDir []) (cache_content (cache_key src) s1)).
  split; [by apply list_lookup_middle|]. split; [done|]. split; [exact Eh|]. rw Ex. split; [|by split].
  destruct (String.eqb_spec (TrimSpace digest) ""); [by left|]. destruct (String.eqb_spec (src_digest src) ""); [by right; left|].
  right. right. by destruct (EqualFold _ _).
Qed.
Lemma mark_inv key digest content s r s' :
  mark_ready h key digest s = (r, s') → cache_content key s = Some content → complete (r_net s) key content →
  cache_inv s → cache_inv s'.
Proof.
  intros H Hc Hcomp I. assert (∀ m, cache_inv (tick (set_cache key (Some (mkCache (cache_content key s) m)) s))) as Hm.
  { intros m k c mk. cbn. destruct (decide (k = key)) as [-> |Hk].
    - rw lookup_partial_alter_eq. intros [= <-] _. by exists content.
    - rw lookup_partial_alter_ne //. apply I. }
  unfold mark_ready in H. destruct (rh_io h (r_ops s)) as [[e k]|]; injection H as _ <-; apply Hm.
Qed.
Lemma keeps_archive src dest : cache_keeps (fetchArchive h workRoot src dest).
Proof.
  intros s r s'. unfold fetchArchive. destruct (r_cache s !! cache_key src ≫= ca_ready) eqn:Er; [apply keeps_content|].
  destruct (rh_io h (r_ops s)) as [[e k]|]; [by intros [= _ <-]|]. intros H I.
  destruct (downloadAndExtract _ _ _ _ _) as [r1 s1] eqn:E in H.
  apply download_inv in E as [I1 C1]; [|apply inv_tick, inv_unready; [by intros c' [= <-]|exact I]].
  destruct r1 as [digest|e].
  - destruct C1 as (content & Hc & Hcomp); [done|]. unfold mbind, R_bind in H.
    destruct (mark_ready h (cache_key src) digest s1) as [r2 s2] eqn:E2.
    assert (cache_inv s2) as I2 by (by eapply mark_inv). destruct r2 as [[]|]; [by eapply keeps_content|by injection H as _ <-].
  - injection H as _ <-. apply inv_tick, inv_unready; [|done]. intros c'. destruct (rh_io h (r_ops s1)) as [[e' k']|]; [|done].
    by intros [= <-].
Qed.
Lemma keeps_fetch src dest : cache_keeps (fetchResource h workRoot src dest).
Proof.
  apply keeps_bind; [apply same_keeps, same_remove|intros _].
  destruct (negb _); [destruct (rh_local h _); [apply same_keeps, same_copy|by intros s r s' [= _ <-]]|].
  destruct (String.eqb _ ""); [apply keeps_ret|]. destruct (isArchiveSource src); [apply keeps_archive|apply same_keeps, same_clone].
Qed.
(** any sequence of fetches, whatever their results *)
Definition fetch_all (s : rst) (l : list (resourceSource * place)) : rst :=
  foldl (λ s '(src, dest), (fetchResource h workRoot src dest s).2) s l.
End cache.

(** After any sequence of fetches from an empty cache, with any failures in
    between, an archive marked ready holds what a complete, error-free download
    for its key unpacks to (its digest matching when both are known), and a
    fetch that finds it ready copies it without using the network. *)
Theorem cache_ready_complete h workRoot l s key c m :
  r_cache s = ∅ → r_cache (fetch_all h workRoot s l) !! key = Some c → ca_ready c = Some m →
  (∃ content, ca_content c = Some content ∧ complete h workRoot (r_net (fetch_all h workRoot s l)) key content) ∧
  (∀ src dest, cache_key src = key →
     fetchArchive h workRoot src dest (fetch_all h workRoot s l) = copy_content h key dest (fetch_all h workRoot s l) ∧
     r_net (fetchArchive h workRoot src dest (fetch_all h workRoot s l)).2 = r_net (fetch_all h workRoot s l)).
Proof.
  intros H0 Hk Hr. assert (cache_inv h workRoot (fetch_all h workRoot s l)) as I.
  { assert (cache_inv h workRoot s) as Is by (intros k c' m'; by rw H0 lookup_empty). clear H0 Hk Hr. revert s Is.
    induction l as [|[src dest] l IH]; intros s Is; [done|]. cbn. apply IH.
    destruct (fetchResource h workRoot src dest s) as [r s1] eqn:E. by eapply keeps_fetch. }
  split; [by eapply I|]. intros src dest <-.
  assert (fetchArchive h workRoot src dest (fetch_all h workRoot s l) = copy_content h (cache_key src) dest (fetch_all h workRoot s l)) as E.
  { unfold fetchArchive. by rw Hk /= Hr. }
  split; [exact E|]. rw E. unfold copy_content, copy_to. repeat case_match; done.
Qed.

(** ** Evaluated fetches *)
Module ResourceWitness.
Definition tree : node := NDir [("SKILL.md", NFile "# lint"); ("link", NLink (Ok "shared"))].
Definition v1 : list tar_entry := [mkTar "SKILL.md" TypeReg 420 "" "one"].
Definition v2 : list tar_entry := [mkTar "SKILL.md" TypeReg 420 "" "two"].
Fixpoint unpacked (n : node) (ops : list fs_op) : node :=
  match ops with
  | [] => n
  | WriteFile p _ d :: ops => unpacked (NDir [(Base p, NFile d)]) ops
  | _ :: ops => unpacked n ops
  end.
Definition h : rhost := mkRhost (λ _, None) (λ _, Ok tree) (λ _, (None, Some tree))
  (λ n, HttpReply 200 "" (Ok (match n with 0 => v1 | _ => v2 end, None))) (λ _, true) unpacked id.
Definition s0 : rst := mkRst ∅ ∅ 0 [].
Definition ses : rsession := mkRses "claude" "/s/home" "/s/skills" "/s/plugins".
Definition local_skill (name : string) : SkillSpec := mkSkill name "" "" "/lib/lint" "" "" "" "".
Definition runtime : string := "/s/home/.claude/skills".

Lemma resource_extract_inside_witness :
  Forall (λ op, (inside "/c/content" (op_path op) ∨ op_path op = Dir "/c/content") ∧ creates_link op = false)
    (Resources.extractTarGz (λ _, true) "/c/content" v1 None).1.
Proof. apply (resource_extract_inside (λ _, true) "/c/content" v1 None); reflexivity. Defined.
Definition synced : rst := Eval vm_compute in (syncSkills h "/w" ses [local_skill "lint"] s0).2.
Lemma skills_sync_exact_witness :
  ∃ n m, at_place ("/s/skills", "lint") synced = Some n ∧ at_place (runtime, "lint") synced = Some m ∧ copyTree n = (Some m, None).
Proof.
  assert (E : syncSkills h "/w" ses [local_skill "lint"] s0 = (Ok (), synced)) by (vm_compute; reflexivity).
  destruct (skills_sync_exact h "/w" ses [local_skill "lint"] s0 (Ok ()) synced E) as [_ H]; [discriminate|].
  destruct (H eq_refl) as [_ H2]. apply (H2 (local_skill "lint")); [by left|discriminate|reflexivity].
Defined.
(** A skill whose name is not its own directory name is installed and pruned in the same call. *)
Lemma sync_drops_unsafe_name :
  (syncSkills h "/w" ses [local_skill "my skill"] s0).1 = Ok () ∧
  at_place ("/s/skills", "my-skill") (syncSkills h "/w" ses [local_skill "my skill"] s0).2 = None ∧
  at_place (runtime, "my-skill") (syncSkills h "/w" ses [local_skill "my skill"] s0).2 = None.
Proof. vm_compute. done. Qed.
Definition remote : resourceSource := mkSrc "https://srv/api/v1/resources/7/fetch/x" "" "" "" "" "" "" "".
Definition fetched : rst := Eval vm_compute in fetch_all h "/w" s0 [(remote, ("/d", "x"))].
Definition entry : cacheEntry := Eval vm_compute in default (mkCache None None) (r_cache fetched !! cache_key remote).
Lemma cache_ready_complete_witness :
  r_net (fetchArchive h "/w" remote ("/e", "x") (fetch_all h "/w" s0 [(remote, ("/d", "x"))])).2 = [inl (src_url remote)].
Proof.
  assert (E : r_cache (fetch_all h "/w" s0 [(remote, ("/d", "x"))]) !! cache_key remote = Some entry) by (vm_compute; reflexivity).
  destruct (cache_ready_complete h "/w" [(remote, ("/d", "x"))] s0 (cache_key remote) entry "ok" eq_refl E) as [_ H]; [reflexivity|].
  destruct (H remote ("/e", "x") eq_refl) as [_ Hn]. rw Hn. vm_compute. reflexivity.
Defined.
(** A resource that changed on the server under the same URL is served from the cache. *)
Lemma cache_serves_stale :
  let s := fetch_all h "/w" s0 [(remote, ("/d", "x")); (remote, ("/e", "x"))] in
  at_place ("/e", "x") s = Some (NDir [("SKILL.md", NFile "one")]) ∧ length (r_net s) = 1.
Proof. vm_compute. done. Qed.
End ResourceWitness.
