(* ===== verification/SystemEnv.v ===== *)
(** * SystemEnv: the operator's own HOME (execution/systemenv.go, execution/environments.go)

    The skills and plugins of the operator's HOME are places of [Resources.rst];
    the ownership ledger is a map from key to entry, with what is on disk and
    what a running call holds kept apart.  Other files of the HOME are read
    through [read]. *)
From S2P Require Import Prelude GoStrings GoPath GoJson Workspace EditorConfig Resources.
From Stdlib Require Import Ascii.
Open Scope nat_scope.

Definition systemEnvKindSkill : string := "skill".
Definition systemEnvKindPlugin : string := "plugin".
Definition systemEnvKindMCP : string := "mcp".
(** [userHome] is os.UserHomeDir *)
Definition systemEnvHome (allowed : bool) (userHome : result string) : result string :=
  if negb allowed then Err "system environment is not enabled on this node (auto: host installs allow it, containers refuse it; override with AGENT_COMPOSE_NODE_ALLOW_SYSTEM_ENV=on|off)"
  else match userHome with
  | Err e => Err ("resolve user home: " +:+ e)
  | Ok home => if String.eqb (TrimSpace home) "" then Err "user home is empty" else Ok home
  end.

(** ** The ledger *)
Record systemEnvManifestEntry := mkLedger { me_kind : string; me_name : string; me_relPath : string; me_installedAt : string }.
Definition ledger := gmap string systemEnvManifestEntry.
Definition systemEnvManifestPath (home : string) : string := Join [home; ".agent-compose"; "system-env.json"].
Definition systemEnvManifestKey (kind name : string) : string := ToLower (TrimSpace kind) +:+ "/" +:+ TrimSpace name.
(** [None]: the file is missing or does not decode *)
Definition loadSystemEnvManifest (disk : option ledger) : ledger := default ∅ disk.

(** ** What a resource says of itself *)
(** a field of a struct: the last key that folds to it; [None] when a value is not a string *)
Definition string_field (key : string) (fields : list (string * json)) : option string :=
  foldl (λ acc kv, acc ≫= λ v,
    if EqualFold kv.1 key then match kv.2 with JString s => Some s | JNull => Some v | _ => None end else Some v)
    (Some "") fields.
Definition meta_doc (raw : string) : option (string * string) :=
  match parse raw with
  | Some JNull => Some ("", "")
  | Some (JObject l) => v ← string_field "version" l; d ← string_field "description" l; Some (v, d)
  | _ => None
  end.
Definition read_file (n : node) (cs : list string) : option string :=
  match find_in cs n with
  | Some (NFile d) | Some (NLink (Ok d)) => Some d
  | _ => None
  end.
(** strings.ReplaceAll(text, "\r\n", "\n") *)
Fixpoint unix_lines (s : string) : string :=
  match s with
  | String a ((String b s') as r) =>
      if is_code 13 a && is_code 10 b then String b (unix_lines s') else String a (unix_lines r)
  | _ => s
  end.
Definition quote_char (c : ascii) : bool := is_code 34 c || is_code 39 c.
Fixpoint trim_quotes_left (s : string) : string :=
  match s with
  | String c s' => if quote_char c then trim_quotes_left s' else s
  | EmptyString => ""
  end.
Definition trim_quotes (s : string) : string := string_reverse (trim_quotes_left (string_reverse (trim_quotes_left s))).
Fixpoint description_line (lines : list string) : string :=
  match lines with
  | [] => ""
  | line :: lines =>
      let trimmed := TrimSpace line in
      if negb (HasPrefix trimmed "description:") then description_line lines
      else
        let value := trim_quotes (TrimSpace (TrimPrefix trimmed "description:")) in
        if String.eqb value "" || HasPrefix value ">" || HasPrefix value "|" then "" else value
  end.
Definition frontmatterDescription (text : string) : string :=
  let norm := unix_lines text in
  if negb (HasPrefix norm ("---" +:+ newline)) then ""
  else
    let body := drop_bytes 4 norm in
    match Index body (newline +:+ "---") with
    | None => ""
    | Some e => description_line (Split1 "010" (take_bytes e body))
    end.
Definition readSkillDescription (n : node) : string :=
  match read_file n ["SKILL.md"] with Some raw => frontmatterDescription raw | None => "" end.
Definition manifests : list (list string) := [["package.json"]; [".claude-plugin"; "plugin.json"]; [".codex-plugin"; "plugin.json"]].
Definition readResourceMeta (n : node) : string * string :=
  let '(version, description) :=
    foldl (λ '(v, d) cs,
      match read_file n cs ≫= meta_doc with
      | None => (v, d)
      | Some (v', d') => (if String.eqb v "" then TrimSpace v' else v, if String.eqb d "" then TrimSpace d' else d)
      end) ("", "") manifests in
  (version, if String.eqb description "" then readSkillDescription n else description).
Definition readResourceVersion (n : option node) : string := match n with Some n => (readResourceMeta n).1 | None => "" end.

(** ** Entries *)
Record NodeSystemEnvEntry := mkEntry {
  en_kind : string; en_name : string; en_version : string; en_provider : string; en_path : string; en_managed : bool;
  en_description : string; en_readers : list string
}.
#[export] Instance eta_entry : Settable NodeSystemEnvEntry := λ e,
  mkEntry (en_kind e) (en_name e) (en_version e) (en_provider e) (en_path e) (en_managed e) (en_description e) (en_readers e).
Record systemEnvScanTarget := mkScan { st_kind : string; st_provider : string; st_rel : list string; st_readers : list string }.
Definition all_targets : list systemEnvScanTarget := [
  mkScan "skill" "claude" [".claude"; "skills"] ["claude"];
  mkScan "skill" "" [".agents"; "skills"] ["codex"; "gemini"; "opencode"];
  mkScan "plugin" "" [".agents"; "plugins"] ["claude"; "codex"; "opencode"];
  mkScan "plugin" "gemini" [".gemini"; "extensions"] ["gemini"]].
Definition systemEnvScanTargets (provider : string) : list systemEnvScanTarget :=
  let want := normalizeProvider (TrimSpace provider) in
  if String.eqb want "" then all_targets
  else filter (λ t, st_provider t = "" ∨ st_provider t = want) all_targets.
Definition mergeStrings (base extra : list string) : list string :=
  foldl (λ out v, if one_of v out then out else out ++ [v]) base extra.

(** ** Inspection *)
Section inspect.
Variable home : string.
Variable readErr : string → option string.        (** os.ReadDir on a directory that exists *)
Record scan := mkScanState { sc_out : list NodeSystemEnvEntry; sc_seen : gmap string nat }.
Definition scan_entry (manifest : ledger) (t : systemEnvScanTarget) (sc : scan) (e : string * node) : scan :=
  let '(name, n) := e in
  if negb (is_dir n) then sc
  else
    let key := systemEnvManifestKey (st_kind t) name in
    match sc_seen sc !! key with
    | Some idx => mkScanState (alter (λ x, x <| en_readers := mergeStrings (en_readers x) (st_readers t) |>) idx (sc_out sc)) (sc_seen sc)
    | None =>
        let '(version, description) := readResourceMeta n in
        mkScanState (sc_out sc ++ [mkEntry (st_kind t) name version (st_provider t) (Join (st_rel t ++ [name]))
                                     (bool_decide (is_Some (manifest !! key))) description (st_readers t)])
                    (<[key := length (sc_out sc)]> (sc_seen sc))
    end.
Definition sorted_entries (d : gmap string node) : list (string * node) :=
  omap (λ name, n ← d !! name; Some (name, n)) (sorted_names d).
Definition target_dir (t : systemEnvScanTarget) : string := Join (home :: st_rel t).
Fixpoint scan_targets (manifest : ledger) (s : rst) (ts : list systemEnvScanTarget) (sc : scan) : result scan :=
  match ts with
  | [] => Ok sc
  | t :: ts =>
      match r_dirs s !! target_dir t with
      | None => scan_targets manifest s ts sc
      | Some d =>
          match readErr (target_dir t) with
          | Some e => Err ("read " +:+ target_dir t +:+ ": " +:+ e)
          | None => scan_targets manifest s ts (foldl (scan_entry manifest t) sc (sorted_entries d))
          end
      end
  end.

(** *** MCP servers of the editors' own files; [read] is os.ReadFile *)
Variable read : string → option string.
Definition readJSONMapKeys (path field_name : string) : list string :=
  match (raw ← read path; doc ← unmarshal_map raw; v ← field doc field_name; as_map v) with
  | None => []
  | Some inner =>
      let keys : gset string := list_to_set inner.*1 in
      merge_sort (λ a b, Is_true (String.leb a b)) (filter (λ k, k ≠ "") (map TrimSpace (base.elements keys)))
  end.
Definition codex_table (line : string) : option string :=
  let line := TrimSpace line in
  if negb (HasPrefix line "[mcp_servers.") || negb (ends_with line "]") then None
  else Some (TrimSpace (take_bytes (String.length line - 1 - 13) (drop_bytes 13 line))).
Definition add_new (names : list string) (name : option string) : list string :=
  match name with
  | Some n => if String.eqb n "" || one_of n names then names else names ++ [n]
  | None => names
  end.
Definition readCodexMCPServers (path : string) : list string :=
  match read path with
  | None => []
  | Some raw => merge_sort (λ a b, Is_true (String.leb a b)) (foldl add_new [] (map codex_table (Split1 "010" raw)))
  end.
Record systemEnvMCPSource := mkMcpSrc { ms_name : string; ms_provider : string; ms_path : string }.
Definition systemEnvMCPSources : list systemEnvMCPSource :=
  let from names provider rel := map (λ n, mkMcpSrc n provider rel) names in
  from (readJSONMapKeys (Join [home; ".claude.json"]) "mcpServers") "claude" ".claude.json" ++
  from (readJSONMapKeys (Join [home; ".gemini"; "settings.json"]) "mcpServers") "gemini" ".gemini/settings.json" ++
  from (readCodexMCPServers (Join [home; ".codex"; "config.toml"])) "codex" ".codex/config.toml" ++
  from (readJSONMapKeys (Join [home; ".config"; "opencode"; "opencode.json"]) "mcp") "opencode" ".config/opencode/opencode.json" ++
  from (readJSONMapKeys (Join [home; ".mcp.json"]) "mcpServers") "claude" ".mcp.json".
Definition mcp_key (src : systemEnvMCPSource) : string := ms_provider src +:+ "/" +:+ ms_name src.
Fixpoint mcp_entries (seen : list string) (srcs : list systemEnvMCPSource) : list NodeSystemEnvEntry :=
  match srcs with
  | [] => []
  | src :: srcs =>
      if one_of (mcp_key src) seen then mcp_entries seen srcs
      else mkEntry systemEnvKindMCP (ms_name src) "" (ms_provider src) (ms_path src) false "" [ms_provider src]
           :: mcp_entries (mcp_key src :: seen) srcs
  end.
(** [plugins]: the entries of claude's own plugin ledger *)
Definition inspectSystemEnv (plugins : list NodeSystemEnvEntry) (provider : string) (disk : option ledger) (s : rst)
  : result (list NodeSystemEnvEntry) :=
  match scan_targets (loadSystemEnvManifest disk) s (systemEnvScanTargets provider) (mkScanState [] ∅) with
  | Err e => Err e
  | Ok sc => Ok (sc_out sc ++ plugins ++ mcp_entries [] systemEnvMCPSources)
  end.
End inspect.

(** ** Synchronisation *)
Definition systemEnvInstallDirs (home kind : string) : list string :=
  if String.eqb kind "skill" then [Join [home; ".agents"; "skills"]; Join [home; ".claude"; "skills"]]
  else if String.eqb kind "plugin" then [Join [home; ".agents"; "plugins"]] else [].
Definition systemEnvKindReaders (kind : string) : list string :=
  if String.eqb kind "skill" then ["claude"; "codex"; "gemini"; "opencode"]
  else if String.eqb kind "plugin" then ["claude"; "codex"; "opencode"] else [].
Definition splitSystemEnvRef (value : string) : option (string * string) :=
  let v := TrimSpace value in
  match Index v "/" with
  | None => None
  | Some i =>
      let kind := ToLower (TrimSpace (take_bytes i v)) in
      let name := TrimSpace (drop_bytes (S i) v) in
      if String.eqb name "" then None
      else if negb (String.eqb kind "skill") && negb (String.eqb kind "plugin") then None
      else Some (kind, name)
  end.
Record NodeSyncSystemEnv := mkSync {
  sy_skills : list SkillSpec; sy_plugins : list NodePluginSpec; sy_remove : list string; sy_overwrite : bool
}.
Record sstate := mkSstate { ss_s : rst; ss_manifest : ledger; ss_touched : list NodeSystemEnvEntry }.
#[export] Instance eta_sstate : Settable sstate := λ s, mkSstate (ss_s s) (ss_manifest s) (ss_touched s).
Section sync.
Variable h : rhost.
Variables workRoot home now : string.
(** whether os.Stat, which follows a link, succeeds on an entry that is there *)
Variable stat : place → node → bool.
Definition touch (kind name path version : string) (managed : bool) (s : sstate) : sstate :=
  s <| ss_touched := ss_touched s ++ [mkEntry kind name version "" path managed "" (systemEnvKindReaders kind)] |>.
(** the first discovery path where os.Stat finds the resource: any error counts as absent *)
Fixpoint existing_in (s : rst) (safe : string) (dirs : list string) : option place :=
  match dirs with
  | [] => None
  | dir :: dirs => 
      match at_place (dir, safe) s with
      | Some n => if stat (dir, safe) n then Some (dir, safe) else existing_in s safe dirs
      | None => existing_in s safe dirs
      end
  end.
Fixpoint mirror_all (what : string) (primary : place) (safe : string) (dirs : list string) : R () :=
  match dirs with
  | [] => mret ()
  | dir :: dirs =>
      wrap ("prepare " +:+ dir +:+ ": ") (mkdir h dir) ;;
      wrap ("mirror " +:+ what +:+ ": ") (replaceTree h primary (dir, safe)) ;;
      mirror_all what primary safe dirs
  end.
Definition install_files (kind name : string) (src : resourceSource) (first : string) (rest : list string) : R () :=
  let safe := sanitizeSessionDir name in
  let what := kind +:+ " " +:+ name in
  wrap ("prepare " +:+ first +:+ ": ") (mkdir h first) ;;
  wrap (what +:+ ": ") (fetchResource h workRoot src (first, safe)) ;;
  mirror_all what (first, safe) safe rest.
Definition install (overwrite : bool) (kind name : string) (src : resourceSource) (s : sstate) : option string * sstate :=
  let safe := sanitizeSessionDir name in
  match systemEnvInstallDirs home kind with
  | [] => (Some ("unsupported kind " +:+ q (rh_quote h) kind), s)
  | first :: rest =>
      let key := systemEnvManifestKey kind name in
      let managed := bool_decide (is_Some (ss_manifest s !! key)) in
      match existing_in (ss_s s) safe (first :: rest), overwrite with
      | Some p, false => (None, touch kind name "skipped" (readResourceVersion (at_place p (ss_s s))) managed s)
      | _, _ =>
          match install_files kind name src first rest (ss_s s) with
          | (Err e, s1) => (Some e, s <| ss_s := s1 |>)
          | (Ok _, s1) =>
              let relPath := TrimPrefix (Join [first; safe]) (home +:+ "/") in
              let s := s <| ss_s := s1 |> <| ss_manifest := <[key := mkLedger kind name relPath now]> (ss_manifest s) |> in
              (None, touch kind name "installed" (readResourceVersion (at_place (first, safe) s1)) true s)
          end
      end
  end.
Fixpoint install_all (overwrite : bool) (kind : string) (ws : list wanted) (s : sstate) : option string * sstate :=
  match ws with
  | [] => (None, s)
  | w :: ws =>
      match install overwrite kind (TrimSpace (w_name w)) (w_src w) s with
      | (Some e, s) => (Some e, s)
      | (None, s) => install_all overwrite kind ws s
      end
  end.
Fixpoint remove_places (what safe : string) (dirs : list string) : R () :=
  match dirs with
  | [] => mret ()
  | dir :: dirs => wrap ("remove " +:+ what +:+ ": ") (remove_all h (dir, safe)) ;; remove_places what safe dirs
  end.
Definition remove_target (target : string) (s : sstate) : option string * sstate :=
  match splitSystemEnvRef target with
  | None => (Some ("invalid remove entry " +:+ q (rh_quote h) target +:+ " (want kind/name)"), s)
  | Some (kind, name) =>
      let key := systemEnvManifestKey kind name in
      match ss_manifest s !! key with
      | None => (Some ("refusing to remove " +:+ kind +:+ " " +:+ q (rh_quote h) name +:+ ": not installed by the platform"), s)
      | Some _ =>
          match remove_places (kind +:+ " " +:+ name) (sanitizeSessionDir name) (systemEnvInstallDirs home kind) (ss_s s) with
          | (Err e, s1) => (Some e, s <| ss_s := s1 |>)
          | (Ok _, s1) =>
              (None, touch kind name "removed" "" false
                       (s <| ss_s := s1 |> <| ss_manifest := delete key (ss_manifest s) |>))
          end
      end
  end.
Fixpoint remove_targets (targets : list string) (s : sstate) : option string * sstate :=
  match targets with
  | [] => (None, s)
  | t :: targets =>
      match remove_target t s with
      | (Some e, s) => (Some e, s)
      | (None, s) => remove_targets targets s
      end
  end.
Definition then_ (a b : sstate → option string * sstate) (s : sstate) : option string * sstate :=
  match a s with
  | (Some e, s) => (Some e, s)
  | (None, s) => b s
  end.
Definition sync_steps (frame : NodeSyncSystemEnv) : sstate → option string * sstate :=
  then_ (install_all (sy_overwrite frame) "skill" (named (skills_wanted (sy_skills frame))))
    (then_ (install_all (sy_overwrite frame) "plugin" (named (plugins_wanted (sy_plugins frame))))
       (remove_targets (sy_remove frame))).
(** [saveErr]: saveSystemEnvManifest's error; the ledger on disk changes only when it succeeds *)
Definition syncSystemEnv (saveErr : option string) (frame : NodeSyncSystemEnv) (disk : option ledger) (s : rst)
  : option string * list NodeSystemEnvEntry * option ledger * rst :=
  let '(err, st) := sync_steps frame (mkSstate s (loadSystemEnvManifest disk) []) in
  match err with
  | Some e => (Some e, ss_touched st, disk, ss_s st)
  | None =>
      match saveErr with
      | Some e => (Some e, ss_touched st, disk, ss_s st)
      | None => (None, ss_touched st, Some (ss_manifest st), ss_s st)
      end
  end.
End sync.
