(* ===== verification/SystemEnvProofs.v ===== *)
(** * SystemEnvProofs: the operator's HOME is not the node's *)
From S2P Require Import Prelude GoStrings GoPath GoJson Workspace EditorConfig Resources ResourcesProofs SystemEnv.
From Stdlib Require Import Ascii.
Open Scope nat_scope.

(** ** Keys *)
Definition resource_kind (kind : string) : Prop := kind = "skill" ∨ kind = "plugin".
Lemma key_inj kind name kind' name' :
  resource_kind kind → resource_kind kind' → TrimSpace name = name → TrimSpace name' = name' →
  systemEnvManifestKey kind name = systemEnvManifestKey kind' name' → kind = kind' ∧ name = name'.
Proof.
  unfold systemEnvManifestKey. intros [-> | ->] [-> | ->] -> ->; cbn; intros H; injection H; try done; by intros ->.
Qed.
Lemma split_ref_kind target kind name :
  splitSystemEnvRef target = Some (kind, name) → resource_kind kind ∧ TrimSpace name = name ∧ name ≠ "".
Proof.
  unfold splitSystemEnvRef. destruct (Index _ _) as [i|]; [|done].
  set (k := ToLower _). set (m := TrimSpace (drop_bytes _ _)). destruct (String.eqb_spec m "") as [|Hm]; [done|].
  destruct (String.eqb_spec k "skill") as [Hs|]; cbn [negb andb].
  - intros [= <- <-]. split; [by left|]. split; [apply TrimSpace_idem|done].
  - destruct (String.eqb_spec k "plugin") as [Hp|]; cbn [negb]; [|done]. intros [= <- <-].
    split; [by right|]. split; [apply TrimSpace_idem|done].
Qed.

Section sync.
Variable h : rhost.
Variables workRoot home now : string.
Variable stat : place → node → bool.
(** the places of a platform resource *)
Definition owned (kind name : string) (q : place) : Prop :=
  q.2 = sanitizeSessionDir name ∧ q.1 ∈ systemEnvInstallDirs home kind.

Lemma mirror_all_frames what primary safe dirs (S : place → Prop) :
  (∀ dir, dir ∈ dirs → S (dir, safe)) → frames S (mirror_all h what primary safe dirs).
Proof.
  induction dirs as [|dir dirs IH]; intros HS; cbn [mirror_all]; [apply frames_ret|].
  apply frames_bind; [apply frames_wrap, mkdir_frames|intros _].
  apply frames_bind; [apply frames_wrap, replaceTree_frames, HS; by left|intros _]. apply IH. intros d Hd. apply HS. by right.
Qed.
Lemma install_files_frames kind name src first rest :
  systemEnvInstallDirs home kind = first :: rest → frames (owned kind name) (install_files h workRoot kind name src first rest).
Proof.
  intros Hd. unfold install_files. apply frames_bind; [apply frames_wrap, mkdir_frames|intros _].
  apply frames_bind; [apply frames_wrap, fetchResource_frames; split; [done|]; rw Hd; by left|intros _].
  apply mirror_all_frames. intros dir Hin. split; [done|]. rw Hd. by right.
Qed.
Lemma remove_places_frames kind what name dirs :
  dirs ⊆ systemEnvInstallDirs home kind → frames (owned kind name) (remove_places h what (sanitizeSessionDir name) dirs).
Proof.
  induction dirs as [|dir dirs IH]; intros Hs; cbn [remove_places]; [apply frames_ret|].
  apply frames_bind; [apply frames_wrap, remove_all_frames; split; [done|]; apply Hs; by left|intros _].
  apply IH. intros d Hd. apply Hs. by right.
Qed.
Lemma existing_none s safe dirs dir n :
  existing_in stat s safe dirs = None → dir ∈ dirs → at_place (dir, safe) s = Some n → stat (dir, safe) n = false.
Proof.
  induction dirs as [|d dirs IH]; [by intros _ ?%not_elem_of_nil|]. cbn [existing_in].
  intros He [-> |Hd]%elem_of_cons Hn; [rw Hn in He; by destruct (stat _ n)|].
  apply IH; [|done|done]. destruct (at_place (d, safe) s) as [m|]; [|done]. by destruct (stat (d, safe) m).
Qed.
(** where an installation or a removal can reach *)
Lemma install_reach overwrite kind name src s err s' q :
  install h workRoot home now stat overwrite kind name src s = (err, s') → ¬ owned kind name q → at_place q (ss_s s') = at_place q (ss_s s).
Proof.
  unfold install. destruct (systemEnvInstallDirs home kind) as [|first rest] eqn:Ed; [by intros [= _ <-]|].
  intros H Hq. pose proof (install_files_frames kind name src first rest Ed) as F.
  destruct (existing_in _ _ _); [destruct overwrite|]; try (by injection H as _ <-);
    (destruct (install_files _ _ _ _ _ _ _ (ss_s s)) as [[[]|e] s1] eqn:E; injection H as _ <-; exact (F _ _ _ E q Hq)).
Qed.
Lemma remove_reach target s err s' q :
  remove_target h home target s = (err, s') →
  (∀ kind name, splitSystemEnvRef target = Some (kind, name) → is_Some (ss_manifest s !! systemEnvManifestKey kind name) → ¬ owned kind name q) →
  at_place q (ss_s s') = at_place q (ss_s s).
Proof.
  unfold remove_target. destruct (splitSystemEnvRef target) as [[kind name]|]; [|by intros [= _ <-]].
  destruct (ss_manifest s !! _) eqn:Em; [|by intros [= _ <-]]. intros H Hq.
  assert (¬ owned kind name q) as Hn by (apply Hq; [done|by eexists]).
  destruct (remove_places _ _ _ _ (ss_s s)) as [[[]|e] s1] eqn:E; injection H as _ <-;
    by apply (remove_places_frames kind (kind +:+ " " +:+ name) name (systemEnvInstallDirs home kind) ltac:(done) _ _ _ E q Hn).
Qed.

(** *** A resource of the operator *)
Section operator.
Variables (q : place) (n : node).
Hypothesis Hstat : stat q n = true.
(** [q] holds [n] and no entry of the ledger owns it *)
Definition unowned (m : ledger) : Prop :=
  ∀ kind name, resource_kind kind → TrimSpace name = name → is_Some (m !! systemEnvManifestKey kind name) → ¬ owned kind name q.
Definition theirs (s : sstate) : Prop := at_place q (ss_s s) = Some n ∧ unowned (ss_manifest s).
Lemma install_theirs kind name src s err s' :
  resource_kind kind → TrimSpace name = name → install h workRoot home now stat false kind name src s = (err, s') → theirs s → theirs s'.
Proof.
  intros Hk Hn H [Hq Hm]. pose proof H as H0. unfold install in H.
  destruct (systemEnvInstallDirs home kind) as [|first rest] eqn:Ed; [by injection H as _ <-|].
  destruct (existing_in _ _ _) as [p|] eqn:Ee; [by injection H as _ <-|].
  assert (Hno : ¬ owned kind name q).
  { intros [H1 H2]. rw Ed in H2. assert (Hp : (q.1, sanitizeSessionDir name) = q) by (rw -H1; by destruct q).
    pose proof (existing_none _ _ _ _ n Ee H2) as Hf. rw Hp in Hf. apply Hf in Hq. congruence. }
  apply (install_reach _ _ _ _ _ _ _ q) in H0; [|done]. split; [by rw H0|].
  destruct (install_files _ _ _ _ _ _ _ (ss_s s)) as [[[]|e] s1]; injection H as _ <-; [|exact Hm]. cbn.
  intros kind' name' Hk' Hn' [e He]. apply lookup_insert_Some in He as [[Hkey _]|[_ He]]; [|apply Hm; by eauto].
  by destruct (key_inj kind name kind' name') as [<- <-].
Qed.
Lemma install_all_theirs kind ws s err s' :
  resource_kind kind → install_all h workRoot home now stat false kind ws s = (err, s') → theirs s → theirs s'.
Proof.
  intros Hk. revert s. induction ws as [|w ws IH]; intros s; cbn [install_all]; [by intros [= _ <-]|].
  destruct (install _ _ _ _ _ _ _ _ _ s) as [[e|] s1] eqn:E; intros H Hs.
  - injection H as _ <-. eapply install_theirs; [exact Hk| |exact E|exact Hs]. apply TrimSpace_idem.
  - eapply IH; [exact H|]. eapply install_theirs; [exact Hk| |exact E|exact Hs]. apply TrimSpace_idem.
Qed.
Lemma remove_theirs target s err s' : remove_target h home target s = (err, s') → theirs s → theirs s'.
Proof.
  intros H [Hq Hm]. split.
  - rw (remove_reach target s err s' q H); [done|]. intros kind name Hs%split_ref_kind He.
    destruct Hs as (Hk & Hn & _). by apply Hm.
  - unfold remove_target in H. destruct (splitSystemEnvRef target) as [[kind name]|]; [|by injection H as _ <-].
    destruct (ss_manifest s !! _); [|by injection H as _ <-].
    destruct (remove_places _ _ _ _ _) as [[[]|e] s1]; injection H as _ <-; [|exact Hm]. cbn.
    intros kind' name' Hk' Hn' [e He]. apply lookup_delete_Some in He as [_ He]. apply Hm; by eauto.
Qed.
Lemma remove_targets_theirs targets s err s' : remove_targets h home targets s = (err, s') → theirs s → theirs s'.
Proof.
  revert s. induction targets as [|t targets IH]; intros s; cbn [remove_targets]; [by intros [= _ <-]|].
  destruct (remove_target h home t s) as [[e|] s1] eqn:E; intros H Hs.
  - injection H as _ <-. by eapply remove_theirs.
  - eapply IH; [exact H|]. by eapply remove_theirs.
Qed.
End operator.

(** *** Places outside the install directories *)
Definition install_dirs : list string := systemEnvInstallDirs home "skill" ++ systemEnvInstallDirs home "plugin".
Lemma owned_in_dirs kind name q : resource_kind kind → owned kind name q → q.1 ∈ install_dirs.
Proof. unfold install_dirs. rw elem_of_app. by intros [-> | ->] [_ ?]; [left|right]. Qed.
Lemma steps_outside frame s err s' q :
  sync_steps h workRoot home now stat frame s = (err, s') → q.1 ∉ install_dirs → at_place q (ss_s s') = at_place q (ss_s s).
Proof.
  intros H Hq.
  assert (HI : ∀ o kind ws s err s', resource_kind kind → install_all h workRoot home now stat o kind ws s = (err, s') →
    at_place q (ss_s s') = at_place q (ss_s s)).
  { intros o kind ws s0 err0 s1 Hk. revert s0. induction ws as [|w ws IH]; intros s0; cbn [install_all]; [by intros [= _ <-]|].
    destruct (install _ _ _ _ _ _ _ _ _ s0) as [[e|] s2] eqn:E; apply (install_reach _ _ _ _ _ _ _ q) in E;
      try (by intros Ho%(owned_in_dirs _ _ _ Hk)).
    - intros [= _ <-]. exact E.
    - intros H1. by rw (IH _ H1). }
  assert (HR : ∀ ts s err s', remove_targets h home ts s = (err, s') → at_place q (ss_s s') = at_place q (ss_s s)).
  { intros ts. induction ts as [|t ts IH]; intros s0 err0 s1; cbn [remove_targets]; [by intros [= _ <-]|].
    destruct (remove_target h home t s0) as [[e|] s2] eqn:E; apply (remove_reach _ _ _ _ q) in E;
      try (intros kind name (Hk & _)%split_ref_kind _ Ho; by apply (owned_in_dirs _ _ _ Hk) in Ho).
    - intros [= _ <-]. exact E.
    - intros H1. by rw (IH _ _ _ H1). }
  unfold sync_steps, then_ in H. destruct (install_all _ _ _ _ _ _ "skill" _ s) as [[e|] s1] eqn:E1.
  { injection H as _ <-. eapply HI; [|exact E1]. by left. }
  destruct (install_all _ _ _ _ _ _ "plugin" _ s1) as [[e|] s2] eqn:E2.
  { injection H as _ <-. rw (HI _ _ _ _ _ _ (or_intror eq_refl) E2). eapply HI; [|exact E1]. by left. }
  rw (HR _ _ _ _ H) (HI _ _ _ _ _ _ (or_intror eq_refl) E2). eapply HI; [|exact E1]. by left.
Qed.
End sync.


(** ** Inspection *)
Definition entry_key (e : NodeSystemEnvEntry) : string := systemEnvManifestKey (en_kind e) (en_name e).
Lemma mergeStrings_elem base extra v : v ∈ mergeStrings base extra ↔ v ∈ base ∨ v ∈ extra.
Proof.
  unfold mergeStrings. revert base. induction extra as [|x extra IH]; intros base; cbn [foldl].
  { split; [by left|]. by intros [?|?%not_elem_of_nil]. }
  rw IH elem_of_cons. destruct (one_of x base) eqn:E.
  - apply existsb_exists in E as (y & Hy & <-%String.eqb_eq). apply list_elem_of_In in Hy. naive_solver.
  - rw elem_of_app list_elem_of_singleton. naive_solver.
Qed.
Section scan.
Variable manifest : ledger.
Definition found : Type := systemEnvScanTarget * (string * node).
Definition found_key (f : found) : string := systemEnvManifestKey (st_kind f.1) f.2.1.
Record scan_inv (fs : list found) (sc : scan) : Prop := {
  si_index i e : sc_out sc !! i = Some e → sc_seen sc !! entry_key e = Some i;
  si_seen k i : sc_seen sc !! k = Some i → ∃ e, sc_out sc !! i = Some e ∧ entry_key e = k;
  si_found f : f ∈ fs → is_dir f.2.2 = true →
    ∃ e, e ∈ sc_out sc ∧ entry_key e = found_key f ∧ ∀ r, r ∈ st_readers f.1 → r ∈ en_readers e;
  si_entry e : e ∈ sc_out sc → en_managed e = bool_decide (is_Some (manifest !! entry_key e)) ∧
    ∃ f, f ∈ fs ∧ is_dir f.2.2 = true ∧ en_kind e = st_kind f.1 ∧ en_name e = f.2.1
}.
Section found.
Variables (fs : list found) (t : systemEnvScanTarget) (name : string) (n : node).
Let f0 : found := (t, (name, n)).
Let key := systemEnvManifestKey (st_kind t) name.
Lemma found_snoc f : f ∈ fs ++ [f0] ↔ f ∈ fs ∨ f = f0.
Proof. by rw elem_of_app list_elem_of_singleton. Qed.
(** a directory seen before under another path *)
Lemma scan_merge_inv sc idx :
  is_dir n = true → sc_seen sc !! key = Some idx → scan_inv fs sc →
  scan_inv (fs ++ [f0]) (mkScanState (alter (λ x, x <| en_readers := mergeStrings (en_readers x) (st_readers t) |>) idx (sc_out sc)) (sc_seen sc)).
Proof.
  intros Hdir Es [I1 I2 I3 I4]. destruct (I2 _ _ Es) as (x & Hx & Hk).
  set (g := λ x, x <| en_readers := mergeStrings (en_readers x) (st_readers t) |>).
  assert (Hlk : ∀ i e, alter g idx (sc_out sc) !! i = Some e → ∃ y, sc_out sc !! i = Some y ∧ (e = y ∨ e = g y)).
  { intros i e. destruct (decide (i = idx)) as [-> |]; [|rw list_lookup_alter_ne //; eauto].
    rw list_lookup_alter_eq Hx /=. intros [= <-]. eauto. }
  assert (Hgx : g x ∈ alter g idx (sc_out sc)).
  { apply list_elem_of_lookup. exists idx. by rw list_lookup_alter_eq Hx. }
  split; cbn [sc_out sc_seen].
  - intros i e (y & Hy & [-> | ->])%Hlk; by apply (I1 i y).
  - intros k i (y & Hy & Hyk)%I2. destruct (decide (i = idx)) as [-> |].
    + exists (g y). by rw list_lookup_alter_eq Hy.
    + exists y. by rw list_lookup_alter_ne.
  - intros f [Hf| ->]%found_snoc Hd.
    + destruct (I3 f Hf Hd) as (y & [i Hi]%list_elem_of_lookup & Hyk & Hr). destruct (decide (i = idx)) as [-> |Hne].
      * simplify_eq. exists (g x). split_and!; [done|done|]. intros r Hin. apply mergeStrings_elem. left. by apply Hr.
      * exists y. split; [|done]. apply list_elem_of_lookup. exists i. by rw list_lookup_alter_ne.
    + exists (g x). split_and!; [done|done|]. intros r Hr. apply mergeStrings_elem. by right.
  - intros e [i (y & Hy & He)%Hlk]%list_elem_of_lookup.
    destruct (I4 y) as (Hm & f & Hf & H); [by apply list_elem_of_lookup_2 in Hy|].
    destruct He as [-> | ->]; (split; [done|]); exists f; (split; [apply found_snoc; by left|done]).
Qed.
Lemma scan_add_inv sc x :
  is_dir n = true → sc_seen sc !! key = None → scan_inv fs sc →
  en_kind x = st_kind t → en_name x = name → en_managed x = bool_decide (is_Some (manifest !! key)) → en_readers x = st_readers t →
  scan_inv (fs ++ [f0]) (mkScanState (sc_out sc ++ [x]) (<[key := length (sc_out sc)]> (sc_seen sc))).
Proof.
  intros Hdir Es [I1 I2 I3 I4] Hk Hn Hm Hr. assert (Hxk : entry_key x = key) by (unfold entry_key; by rw Hk Hn).
  split; cbn [sc_out sc_seen].
  - intros i e [Hi|[Hl Hi]]%lookup_app_Some.
    + rw lookup_insert_ne; [by apply I1|]. intros E. specialize (I1 i e Hi). rw -E in I1. congruence.
    + apply list_lookup_singleton_Some in Hi as [Hi <-]. rw Hxk lookup_insert_eq. f_equal. lia.
  - intros k i Hki. apply lookup_insert_Some in Hki as [[<- <-]|[Hne Hki]].
    + exists x. split; [by apply list_lookup_middle|done].
    + destruct (I2 k i Hki) as (e & He & Hek). exists e. split; [by apply lookup_app_l_Some|done].
  - intros f [Hf| ->]%found_snoc Hd.
    + destruct (I3 f Hf Hd) as (e & He & H). exists e. split; [apply elem_of_app; by left|done].
    + exists x. split; [apply elem_of_app; right; by apply list_elem_of_singleton|]. split; [done|]. by rw Hr.
  - intros e [He|He]%elem_of_app.
    + destruct (I4 e He) as (H0 & f & Hf & H). split; [done|]. exists f. split; [apply found_snoc; by left|done].
    + apply list_elem_of_singleton in He as ->. split; [by rw Hxk|]. exists f0. split; [apply found_snoc; by right|done].
Qed.
Lemma scan_entry_inv sc : scan_inv fs sc → scan_inv (fs ++ [f0]) (scan_entry manifest t sc (name, n)).
Proof.
  intros I. unfold scan_entry. destruct (is_dir n) eqn:Ed; cbn [negb].
  - fold key. destruct (sc_seen sc !! key) as [idx|] eqn:Es; [by apply scan_merge_inv|].
    destruct (readResourceMeta n) as [version description]. by apply scan_add_inv.
  - destruct I as [I1 I2 I3 I4]. split; [done|done| |].
    + intros f [Hf| ->]%found_snoc Hd; [by apply I3|]. cbn in Hd. congruence.
    + intros e He. destruct (I4 e He) as (Hm & f & Hf & H). split; [done|]. exists f. split; [apply found_snoc; by left|done].
Qed.
End found.
Lemma scan_entries_inv fs sc t es : scan_inv fs sc → scan_inv (fs ++ map (pair t) es) (foldl (scan_entry manifest t) sc es).
Proof.
  revert fs sc. induction es as [|e es IH]; intros fs sc I; cbn [foldl map]; [by rw app_nil_r|].
  rw cons_middle app_assoc. apply IH. destruct e as [name n]. by apply scan_entry_inv.
Qed.

(** everything in the targets' directories *)
Definition found_in (home : string) (s : rst) (ts : list systemEnvScanTarget) : list found :=
  concat (map (λ t, match r_dirs s !! target_dir home t with Some d => map (pair t) (sorted_entries d) | None => [] end) ts).
Lemma sorted_entries_elem d name n : (name, n) ∈ sorted_entries d ↔ d !! name = Some n.
Proof.
  unfold sorted_entries. rw list_elem_of_omap. split.
  - intros (k & _ & Hk). destruct (d !! k) as [m|] eqn:E; [|done]. by injection Hk as <- <-.
  - intros Hn. exists name. split; [apply sorted_names_elem; by exists n|]. by rw Hn.
Qed.
Lemma found_in_elem home s ts t name n :
  (t, (name, n)) ∈ found_in home s ts ↔ t ∈ ts ∧ at_place (target_dir home t, name) s = Some n.
Proof.
  unfold found_in. rw list_elem_of_In in_concat. setoid_rewrite <- list_elem_of_In. split.
  - intros (l & Hl & Hin). apply list_elem_of_fmap in Hl as (t' & -> & Ht'). unfold at_place. cbn.
    destruct (r_dirs s !! target_dir home t') as [d|] eqn:E; [|by apply not_elem_of_nil in Hin].
    apply list_elem_of_fmap in Hin as (e & He & Hin). injection He as -> <-. rw E. split; [done|]. by apply sorted_entries_elem.
  - intros [Ht Hp]. unfold at_place in Hp. cbn [fst snd] in Hp.
    destruct (r_dirs s !! target_dir home t) as [d|] eqn:E; cbn in Hp; [|done].
    exists (map (pair t) (sorted_entries d)). split; [apply list_elem_of_fmap; exists t; by rw E|].
    apply list_elem_of_fmap. exists (name, n). split; [done|]. by apply sorted_entries_elem.
Qed.
Lemma scan_targets_inv home readErr s ts fs sc sc' :
  scan_targets home readErr manifest s ts sc = Ok sc' → scan_inv fs sc → scan_inv (fs ++ found_in home s ts) sc'.
Proof.
  revert fs sc. induction ts as [|t ts IH]; intros fs sc; cbn [scan_targets]; [intros [= <-]; by rw app_nil_r|].
  unfold found_in. cbn [map concat]. fold (found_in home s ts).
  destruct (r_dirs s !! target_dir home t) as [d|]; [|intros H I; by eapply IH].
  destruct (readErr _); [done|]. intros H I. rw app_assoc. eapply IH; [exact H|]. by apply scan_entries_inv.
Qed.
End scan.
Lemma mcp_entries_once seen srcs :
  NoDup (map (λ e, en_provider e +:+ "/" +:+ en_name e) (mcp_entries seen srcs)) ∧
  ∀ e, e ∈ mcp_entries seen srcs → en_provider e +:+ "/" +:+ en_name e ∉ seen.
Proof.
  revert seen. induction srcs as [|src srcs IH]; intros seen; cbn [mcp_entries]; [split; [constructor|by intros e ?%not_elem_of_nil]|].
  destruct (one_of (mcp_key src) seen) eqn:E; [apply IH|]. destruct (IH (mcp_key src :: seen)) as [H1 H2].
  assert (mcp_key src ∉ seen) as Hn.
  { intros Hin. assert (one_of (mcp_key src) seen = true); [|congruence]. apply existsb_exists. exists (mcp_key src).
    split; [by apply list_elem_of_In|apply String.eqb_refl]. }
  split.
  - cbn [map]. constructor; [|done]. intros (e & He & Hin)%list_elem_of_fmap. apply (H2 e Hin). cbn in He. rw -He. by left.
  - intros e [-> |He]%elem_of_cons; [done|]. intros Hin. apply (H2 e He). by right.
Qed.

(** An inventory of the operator's HOME lists every skill and plugin directory
    of the scanned paths exactly once (however many paths hold it), read by
    every editor of a path that holds it, and flagged as installed by the
    platform exactly when the ledger has it; it lists nothing else from there,
    and each MCP server once per editor. *)
Theorem system_inspect_once home readErr read plugins provider disk s out :
  inspectSystemEnv home readErr read plugins provider disk s = Ok out →
  ∃ scanned, out = scanned ++ plugins ++ mcp_entries [] (systemEnvMCPSources home read) ∧
  NoDup (map entry_key scanned) ∧
  (∀ t name n, t ∈ systemEnvScanTargets provider → at_place (target_dir home t, name) s = Some n → is_dir n = true →
     ∃ e, e ∈ scanned ∧ entry_key e = systemEnvManifestKey (st_kind t) name ∧ ∀ r, r ∈ st_readers t → r ∈ en_readers e) ∧
  (∀ e, e ∈ scanned → en_managed e = bool_decide (is_Some (loadSystemEnvManifest disk !! entry_key e)) ∧
     ∃ t n, t ∈ systemEnvScanTargets provider ∧ en_kind e = st_kind t ∧ at_place (target_dir home t, en_name e) s = Some n ∧ is_dir n = true) ∧
  NoDup (map (λ e, en_provider e +:+ "/" +:+ en_name e) (mcp_entries [] (systemEnvMCPSources home read))).
Proof.
  unfold inspectSystemEnv. destruct (scan_targets _ _ _ _ _ _) as [sc|] eqn:E; [|done]. intros [= <-].
  apply (scan_targets_inv _ _ _ _ _ []) in E as [I1 I2 I3 I4].
  2:{ split; cbn; [by intros i e|by intros k i|by intros f ?%not_elem_of_nil|by intros e ?%not_elem_of_nil]. }
  exists (sc_out sc). split; [done|]. split_and!.
  - apply NoDup_alt. intros i j k Hi Hj. rw !list_lookup_fmap in Hi, Hj.
    destruct (sc_out sc !! i) as [x|] eqn:Ex; [|done]. destruct (sc_out sc !! j) as [y|] eqn:Ey; [|done]. cbn in Hi, Hj.
    apply I1 in Ex, Ey. congruence.
  - intros t name n Ht Hp Hd. apply (I3 (t, (name, n))); [|done]. by apply found_in_elem.
  - intros e He. destruct (I4 e He) as (Hm & [t [name n]] & Hf & Hd & Hk & Hn). split; [done|].
    apply found_in_elem in Hf as [Ht Hp]. cbn in *. exists t, n. by rw Hn.
  - apply mcp_entries_once.
Qed.

(** The headers of a server's own sub-tables are listed as further servers. *)
Lemma codex_subtable_listed home :
  readCodexMCPServers (λ _, Some ("[mcp_servers.git]" +:+ newline +:+ "[mcp_servers.git.env]")) home = ["git"; "git.env"].
Proof. vm_compute. reflexivity. Qed.

(** ** Evaluated calls *)
Module SystemWitness.
Import ResourceWitness.
Definition home : string := "/home/op".
(** os.Stat on an entry: it sees a link only when the link leads somewhere *)
Definition seen : place → node → bool := λ _ n, match n with NLink (Err _) => false | _ => true end.
Definition mine : node := NDir [("SKILL.md", NFile "mine")].
Definition before : rst := mkRst {["/home/op/.claude/skills" := {["review" := mine]}]} ∅ 0 [].
Definition frame : NodeSyncSystemEnv := mkSync [local_skill "review"; local_skill "lint"] [] ["skill/review"] false.
Definition after : option string * list NodeSystemEnvEntry * option ledger * rst := Eval vm_compute in
  syncSystemEnv h "/w" home "t" seen None frame None before.
Definition readable : string → option string := λ _, None.
Definition texts : string → option string := λ _, None.
Definition ledger_after : option ledger := Eval vm_compute in after.1.2.
Definition home_after : rst := Eval vm_compute in after.2.
Definition inspected : result (list NodeSystemEnvEntry) := inspectSystemEnv home readable texts [] "" ledger_after home_after.
Definition inventory : list NodeSystemEnvEntry := Eval vm_compute in match inspected with Ok out => out | Err _ => [] end.
Lemma system_inspect_once_witness :
  ∃ scanned, inventory = scanned ++ [] ++ mcp_entries [] (systemEnvMCPSources home texts) ∧ NoDup (map entry_key scanned).
Proof.
  assert (E : inspected = Ok inventory) by (vm_compute; reflexivity).
  destruct (system_inspect_once home readable texts [] "" ledger_after home_after inventory E) as (scanned & H1 & H2 & _).
  exists scanned. split; [exact H1|exact H2].
Defined.
(** A failing call does not save the ledger: what it installed is the operator's from then on. *)
Lemma system_sync_forgets_on_error :
  after.1.1.1 ≠ None ∧ is_Some (at_place ("/home/op/.agents/skills", "lint") after.2) ∧ after.1.2 = None ∧
  (syncSystemEnv h "/w" home "t" seen None (mkSync [] [] ["skill/lint"] false) after.1.2 after.2).1.1.1 =
    Some ("refusing to remove skill " +:+ q id "lint" +:+ ": not installed by the platform").
Proof. vm_compute. split; [discriminate|]. split; [by eexists|]. done. Qed.
(** The operator's dangling link counts as absent: without the overwrite flag it is replaced by the platform's copy. *)
Lemma system_sync_replaces_dangling_link :
  let link := NLink (Err "no such file or directory") in
  let s := mkRst {["/home/op/.claude/skills" := {["review" := link]}]} ∅ 0 [] in
  let r := syncSystemEnv h "/w" home "t" seen None (mkSync [local_skill "review"] [] [] false) None s in
  at_place ("/home/op/.claude/skills", "review") s = Some link ∧ r.1.1.1 = None ∧
  at_place ("/home/op/.claude/skills", "review") r.2 ≠ Some link ∧ is_Some (at_place ("/home/op/.claude/skills", "review") r.2).
Proof. vm_compute. split; [done|]. split; [done|]. split; [discriminate|by eexists]. Qed.
End SystemWitness.
