(* ===== verification/ResourceArchive.v ===== *)
(** * ResourceArchive: claude's plugin ledger and uploading a resource of the
    operator's HOME (execution/systemenv.go); the inventory of a shared
    environment (execution/environments.go)

    The archive is the list of tar entries before compression.  Directories
    are the trees of Resources.v; the host says what is at a path, which
    metadata or content cannot be read, and what the upload endpoint answers. *)
From S2P Require Import Prelude GoStrings GoPath GoJson Archive Workspace EditorConfig Resources SystemEnv.
From Stdlib Require Import Ascii.
Open Scope nat_scope.

(** ** installed_plugins.json *)
Record plugin_record := mkPlug { pr_installPath : string; pr_version : string }.
Section decode.
(** whether the struct decoded into has a version field *)
Variable versions : bool.
Definition plugin_of (v : json) : option plugin_record :=
  match v with
  | JNull => Some (mkPlug "" "")
  | JObject l =>
      p ← string_field "installPath" l;
      ver ← (if versions then string_field "version" l else Some "");
      Some (mkPlug p ver)
  | _ => None
  end.
Definition scopes_of (v : json) : option (list plugin_record) :=
  match v with
  | JNull => Some []
  | JArray l => mapM plugin_of l
  | _ => None
  end.
(** one "plugins" member: its keys are added to the map, null empties it *)
Definition add_plugins (acc : gmap string (list plugin_record)) (v : json) : option (gmap string (list plugin_record)) :=
  match v with
  | JNull => Some ∅
  | JObject l => foldl (λ acc kv, m ← acc; scopes ← scopes_of kv.2; Some (<[kv.1 := scopes]> m)) (Some acc) l
  | _ => None
  end.
Definition plugins_doc (raw : string) : option (gmap string (list plugin_record)) :=
  match parse raw with
  | Some JNull => Some ∅
  | Some (JObject l) => foldl (λ acc kv, m ← acc; if EqualFold kv.1 "plugins" then add_plugins m kv.2 else Some m) (Some ∅) l
  | _ => None
  end.
End decode.

(** ** Packing: filepath.WalkDir in the order of os.ReadDir *)
Section tar.
Variable mode : list string → Z.                  (** permissions by relative path *)
Variable fault : list string → option string.     (** DirEntry.Info *)
Variable unread : list string → option string.    (** opening, copying or listing *)
Definition skipped (rel : list string) : bool := match rel with part :: _ => String.eqb part ".git" | [] => false end.
Definition tar_header (rel : list string) (n : node) : tar_entry :=
  match n with
  | NDir _ => mkTar (join_slash rel +:+ "/") TypeDir (mode rel) "" ""
  | NFile d => mkTar (join_slash rel) TypeReg (mode rel) "" d
  | NLink _ => mkTar (join_slash rel) TypeSymlink (mode rel) "" ""
  end.
Fixpoint walk (rel : list string) (n : node) : list tar_entry * option string :=
  if skipped rel then ([], None)
  else match fault rel with
  | Some e => ([], Some e)
  | None =>
      match n with
      | NLink _ => ([], None)
      | NFile _ => ([tar_header rel n], unread rel)
      | NDir es =>
          match unread rel with
          | Some e => ([tar_header rel n], Some e)
          | None =>
              let fix go (es : list (string * node)) : list tar_entry * option string :=
                match es with
                | [] => ([], None)
                | (name, m) :: es =>
                    let '(a, err) := walk (rel ++ [name]) m in
                    match err with
                    | Some e => (a, Some e)
                    | None => let '(b, err) := go es in (a ++ b, err)
                    end
                end in
              let '(rest, err) := go es in (tar_header rel n :: rest, err)
          end
      end
  end.
Fixpoint walk_all (rel : list string) (es : list (string * node)) : list tar_entry * option string :=
  match es with
  | [] => ([], None)
  | (name, m) :: es =>
      let '(a, err) := walk (rel ++ [name]) m in
      match err with
      | Some e => (a, Some e)
      | None => let '(b, err) := walk_all rel es in (a ++ b, err)
      end
  end.
(** [linked]: the root is itself a symbolic link, which WalkDir does not follow *)
Definition tarGzDir (linked : bool) (root : node) : result (list tar_entry) :=
  match root with
  | NDir es =>
      if linked then Ok []
      else match unread [] with
      | Some e => Err e
      | None => match walk_all [] es with (entries, None) => Ok entries | (_, Some e) => Err e end
      end
  | _ => Ok []
  end.
End tar.

(** ** Lookups and upload *)
Record ahost := mkAhost {
  ah_read : string → option string;                 (** os.ReadFile *)
  ah_tree : string → option node;                   (** the tree at a path, the path itself followed *)
  ah_linked : string → bool;                        (** the path itself is a symbolic link *)
  ah_mode : string → list string → Z;
  ah_fault : string → list string → option string;
  ah_unread : string → list string → option string;
  ah_url : string → option string;                  (** http.NewRequestWithContext *)
  ah_post : string + (Z * string);                  (** its error, or status and body *)
  ah_quote : string → string
}.
Record upload := mkUpload { up_url : string; up_token : option string; up_entries : list tar_entry }.
Record NodeArchiveSystemEnvResource := mkArch { ar_kind : string; ar_name : string; ar_url : string; ar_token : string }.

Section host.
Variable h : ahost.
Variable home : string.
Definition plugins_dir : string := Join [home; ".claude"; "plugins"].
Definition ledger_plugins (versions : bool) : option (gmap string (list plugin_record)) :=
  raw ← ah_read h (Join [home; ".claude"; "plugins"; "installed_plugins.json"]); plugins_doc versions raw.
Definition install_path (record : plugin_record) : string :=
  let p := TrimSpace (pr_installPath record) in
  if String.eqb p "" then "" else if IsAbs p then p else Join [plugins_dir; p].
Definition claude_plugin (kv : string * list plugin_record) : option NodeSystemEnvEntry :=
  match kv.2 with
  | [] => None
  | record :: _ =>
      let name := TrimSpace kv.1 in
      let path := install_path record in
      if String.eqb name "" || String.eqb path "" then None
      else
        let '(version, description) := readResourceMeta (default (NDir []) (ah_tree h path)) in
        let version := if String.eqb version "" then TrimSpace (pr_version record) else version in
        Some (mkEntry systemEnvKindPlugin name version "claude" (TrimPrefix path (home +:+ "/")) false description ["claude"])
  end.
(** [order]: the order in which the decoded map is iterated *)
Definition systemEnvClaudePlugins (order : gmap string (list plugin_record) → list (string * list plugin_record))
  : list NodeSystemEnvEntry :=
  match ledger_plugins true with
  | None => []
  | Some plugins => omap claude_plugin (order plugins)
  end.
Definition stat_dir (path : string) : bool := match ah_tree h path with Some n => is_dir n | None => false end.
Definition claudePluginInstallPath (key : string) : string :=
  match ledger_plugins false ≫= lookup (TrimSpace key) with
  | Some (record :: _) =>
      let path := install_path record in
      if String.eqb path "" || negb (stat_dir path) then "" else path
  | _ => ""
  end.
Fixpoint find_target (kind safe : string) (ts : list systemEnvScanTarget) : string :=
  match ts with
  | [] => ""
  | t :: ts =>
      if negb (String.eqb (st_kind t) kind) then find_target kind safe ts
      else
        let candidate := Join (home :: st_rel t ++ [safe]) in
        if stat_dir candidate then candidate else find_target kind safe ts
  end.
Definition resource_dir (kind name : string) : string :=
  let src := find_target kind (sanitizeSessionDir name) (systemEnvScanTargets "") in
  if String.eqb src "" && String.eqb kind systemEnvKindPlugin && Contains name "@" then claudePluginInstallPath name else src.
Definition pack (src : string) : result (list tar_entry) :=
  match ah_tree h src with
  | None => Err "no such file or directory"
  | Some n => tarGzDir (ah_mode h src) (ah_fault h src) (ah_unread h src) (ah_linked h src) n
  end.
Definition archive_error (e : string) : string := "archive system env: " +:+ e.
(** the error and the request that was sent *)
Definition archiveSystemEnvResource (frame : NodeArchiveSystemEnvResource) : option string * option upload :=
  let kind := ToLower (TrimSpace (ar_kind frame)) in
  let name := TrimSpace (ar_name frame) in
  let url := TrimSpace (ar_url frame) in
  let fail e := (Some (archive_error e), None) in
  if String.eqb name "" then fail "name is required"
  else if negb (String.eqb kind systemEnvKindSkill) && negb (String.eqb kind systemEnvKindPlugin) then
    fail ("unsupported kind " +:+ q (ah_quote h) kind +:+ " (want skill|plugin)")
  else if String.eqb url "" then fail "upload_url is required"
  else
    let src := resource_dir kind name in
    if String.eqb src "" then fail (kind +:+ " " +:+ q (ah_quote h) name +:+ " not found in the operator home")
    else match pack src with
    | Err e => fail ("pack " +:+ kind +:+ " " +:+ name +:+ ": " +:+ e)
    | Ok entries =>
        match ah_url h url with
        | Some e => fail ("build upload request: " +:+ e)
        | None =>
            let token := TrimSpace (ar_token frame) in
            let sent := mkUpload url (if String.eqb token "" then None else Some token) entries in
            match ah_post h with
            | inl e => (Some (archive_error ("upload: " +:+ e)), Some sent)
            | inr (status, body) =>
                if (400 <=? status)%Z then
                  (Some (archive_error ("upload rejected: HTTP " +:+ itoa (Z.to_N status) +:+ " " +:+ TrimSpace (take_bytes 2048 body))), Some sent)
                else (None, Some sent)
            end
        end
    end.
End host.

(** ** inspectEnvironment *)
Record NodeEnvironmentEntry := mkEnvEntry { ee_kind : string; ee_name : string; ee_version : string }.
Section inspect.
Variable readErr : string → option string.
Definition env_entries (envID kind dir : string) (s : rst) : result (list NodeEnvironmentEntry) :=
  match r_dirs s !! dir with
  | None => Ok []
  | Some d =>
      match readErr dir with
      | Some e => Err ("inspect environment " +:+ envID +:+ ": read " +:+ dir +:+ ": " +:+ e)
      | None =>
          Ok (omap (λ e, if is_dir e.2 then Some (mkEnvEntry kind e.1 (readResourceVersion (Some e.2))) else None) (sorted_entries d))
      end
  end.
Definition inspectEnvironment (opts : sessionOptions) (envID : string) (s : rst) : result (list NodeEnvironmentEntry) :=
  let envID := TrimSpace envID in
  if String.eqb envID "" then Err "inspect environment: env_id is required"
  else
    let home := envDir opts envID in
    match env_entries envID "skill" (envResourceDir home "skills") s with
    | Err e => Err e
    | Ok a =>
        match env_entries envID "plugin" (envResourceDir home "plugins") s with
        | Err e => Err e
        | Ok b => Ok (a ++ b)
        end
    end.
End inspect.
