(* ===== verification/ResourceArchiveProofs.v ===== *)
(** * ResourceArchiveProofs: an uploaded resource unpacks to what was packed;
    the inventory of an environment after a synchronisation *)
From S2P Require Import Prelude GoStrings GoPath GoJson Archive Workspace EditorConfig Resources ResourcesProofs SystemEnv SystemEnvProofs ResourceArchive.
From Stdlib Require Import Ascii.
Open Scope nat_scope.

(** ** Trees *)
(** induction with the hypothesis for every entry of a directory *)
Section node_induction.
Variable P : node → Prop.
Hypothesis PFile : ∀ d, P (NFile d).
Hypothesis PLink : ∀ d, P (NLink d).
Hypothesis PDir : ∀ es, Forall (λ e : string * node, P e.2) es → P (NDir es).
Lemma node_tree_ind : ∀ n, P n.
Proof.
  fix IH 1. intros [d|es|d]; [apply PFile| |apply PLink]. apply PDir.
  induction es as [|[name m] es IHes]; constructor; [exact (IH m)|exact IHes].
Qed.
End node_induction.
(** an entry name an archive may carry *)
Definition plain (w : string) : bool := safe_segment w && all_chars (λ c, negb (Ascii.eqb c ":")) w.
Fixpoint plain_tree (n : node) : Prop :=
  match n with
  | NDir es =>
      (fix go (es : list (string * node)) : Prop :=
         match es with [] => True | (name, m) :: es => plain name = true ∧ plain_tree m ∧ go es end) es
  | _ => True
  end.
Lemma plain_dir es : plain_tree (NDir es) ↔ Forall (λ e, plain e.1 = true ∧ plain_tree e.2) es.
Proof.
  induction es as [|[name m] es IH]; [split; [constructor|done]|]. rw Forall_cons -IH. cbn. tauto.
Qed.
(** the regular files of a tree with their relative paths, version control left out *)
Fixpoint files (rel : list string) (n : node) : list (list string * string) :=
  if skipped rel then []
  else match n with
  | NFile d => [(rel, d)]
  | NLink _ => []
  | NDir es =>
      (fix go (es : list (string * node)) : list (list string * string) :=
         match es with [] => [] | (name, m) :: es => files (rel ++ [name]) m ++ go es end) es
  end.
Definition files_all (rel : list string) (es : list (string * node)) : list (list string * string) :=
  concat (map (λ e, files (rel ++ [e.1]) e.2) es).
Lemma files_dir rel es : files rel (NDir es) = if skipped rel then [] else files_all rel es.
Proof.
  cbn. destruct (skipped rel); [done|]. unfold files_all. induction es as [|[name m] es IH]; [done|]. cbn. by rw IH.
Qed.

(** ** Packing *)
Section pack.
Variable mode : list string → Z.
Variables fault unread : list string → option string.
Local Abbreviation walk := (walk mode fault unread).
Local Abbreviation walk_all := (walk_all mode fault unread).
Lemma walk_dir rel es :
  walk rel (NDir es) =
    if skipped rel then ([], None)
    else match fault rel with
    | Some e => ([], Some e)
    | None =>
        match unread rel with
        | Some e => ([tar_header mode rel (NDir es)], Some e)
        | None => let '(rest, err) := walk_all rel es in (tar_header mode rel (NDir es) :: rest, err)
        end
    end.
Proof.
  cbn. destruct (skipped rel); [done|]. destruct (fault rel); [done|]. destruct (unread rel); [done|].
  match goal with |- (let '(_, _) := ?g es in _) = _ => assert (g es = walk_all rel es) as ->; [|done] end.
  induction es as [|[name m] es IH]; [done|]. cbn. destruct (walk (rel ++ [name]) m) as [a [e|]]; [done|]. by rw IH.
Qed.

(** *** What extraction does with one entry *)
Variable dest : string.
Hypothesis dest_abs : IsAbs dest = true.
Hypothesis dest_clean : Clean dest = dest.
Hypothesis dest_not_root : dest ≠ "/".
Local Abbreviation extract := (Resources.extractTarGz (λ _, true) dest).
Definition written (op : fs_op) : option (string * string) :=
  match op with WriteFile p _ d => Some (p, d) | _ => None end.
Definition at_dest (f : list string * string) : string * string := (Join (dest :: f.1), f.2).

Definition no_colon (s : string) : bool := all_chars (λ c, negb (Ascii.eqb c ":")) s.
Lemma Contains_colon s : no_colon s = true → Contains s ":" = false.
Proof.
  unfold Contains. intros H. apply bool_decide_eq_false. intros [i Hi]. revert i Hi.
  induction s as [|c s IH]; intros i; [done|]. unfold no_colon in H. cbn in H. apply andb_true_iff in H as [Hc Hs].
  destruct (Ascii.eqb_spec c ":") as [->|Hne]; [done|]. cbn [Index HasPrefix].
  destruct (Ascii.eqb_spec ":" c) as [<-|_]; [done|]. cbn [andb].
  destruct (Index s ":") as [j|] eqn:E; [|done]. intros _. by eapply IH.
Qed.
Lemma no_colon_join rel : Forall (λ w, plain w = true) rel → no_colon (join_slash rel) = true.
Proof.
  induction rel as [|w rel IH]; [done|]. intros [Hw Hrel]%Forall_cons. unfold plain in Hw. apply andb_true_iff in Hw as [_ Hw].
  destruct rel as [|v rel]; [done|]. rw join_slash_cons //. unfold no_colon. rw all_chars_app. apply andb_true_iff. split; [done|].
  cbn. by apply IH.
Qed.
Lemma plain_safe rel : Forall (λ w, plain w = true) rel → Forall (λ w, safe_segment w = true) rel.
Proof. intros H. eapply Forall_impl; [exact H|]. intros w. unfold plain. by intros [? _]%andb_true_iff. Qed.

(** the name of an entry denotes its path, with or without the slash of a directory *)
Section entry.
Context (rel : list string) (rel_ne : rel ≠ []) (rel_plain : Forall (λ w, plain w = true) rel).
Let name (dir : bool) : string := join_slash rel +:+ if dir then "/" else "".
Lemma dest_ne : dest ≠ "".
Proof. intros E. pose proof dest_abs as Hr. by rw E in Hr. Qed.
Lemma name_abs dir : IsAbs (name dir) = false ∧ HasPrefix (name dir) "/" = false ∧ Contains (name dir) ":" = false.
Proof.
  pose proof (plain_safe _ rel_plain) as Hs. assert (IsAbs (join_slash rel) = false) as Ha.
  { destruct rel as [|c cs]; [done|]. apply (IsAbs_join_slash true). by exists 0, (c :: cs). }
  assert (join_slash rel ≠ "") as Hne.
  { destruct rel as [|c cs]; [done|]. apply Forall_cons in Hs as [Hc _]. destruct c as [|x c]; [done|]. by destruct cs. }
  unfold name. split_and!.
  - by destruct (join_slash rel).
  - destruct (join_slash rel) as [|c s]; [done|]. cbn [IsAbs] in Ha.
    change (Ascii.eqb slash c && HasPrefix (s +:+ if dir then "/" else "") "" = false). rw Ascii.eqb_sym. by rw Ha.
  - apply Contains_colon. unfold no_colon. rw all_chars_app. apply andb_true_iff. split; [by apply no_colon_join|by destruct dir].
Qed.
Lemma name_join dir : Join [dest; name dir] = Join (dest :: rel).
Proof.
  pose proof (plain_safe _ rel_plain) as Hs. rw Join_two; [|apply dest_ne]. rw (Join_safe dest rel); [|apply dest_ne|done|done].
  assert (IsAbs (dest +:+ String slash (name dir)) = true) as Ha by (pose proof dest_abs as Hd; by destruct dest).
  rw clean_abs // dest_abs. f_equal. unfold comps at 1. rw Ha split_slash_app_any. unfold name.
  assert (split_slash (join_slash rel) = rel) as Hj.
  { apply split_join; [done|]. eapply Forall_impl; [exact Hs|]. apply safe_no_slash. }
  assert (clean_components true (split_slash dest ++ rel) = comps dest ++ rel) as Hc.
  { rw clean_components_app //. unfold comps. by rw dest_abs. }
  destruct dir.
  - rw split_trailing Hj app_assoc. unfold clean_components. rw foldl_app. cbn [foldl clean_step]. exact Hc.
  - rw string_app_nil_r Hj. exact Hc.
Qed.
Lemma name_inside dir : HasPrefix (Clean (Join [dest; name dir]) +:+ "/") (Clean dest +:+ "/") = true.
Proof.
  pose proof (plain_safe _ rel_plain) as Hs. pose proof (comps_shape dest) as Hd. rw dest_abs in Hd.
  rw name_join Join_safe //; [|apply dest_ne]. rw dest_abs.
  destruct (render_comps true (comps dest ++ rel)) as [Ha Hc]; [by apply clean_shape_app|by destruct (comps dest), rel|].
  rw (clean_abs (render _ _)) // Hc (clean_abs dest) //.
  destruct (comps dest) as [|c cs] eqn:E.
  - exfalso. apply dest_not_root. transitivity (Clean dest); [done|]. rw clean_abs // E //.
  - apply HasPrefix_spec. exists (join_slash rel +:+ "/"). cbn [render app].
    assert (∀ l, l ≠ [] → join_slash (l ++ rel) = join_slash l +:+ "/" +:+ join_slash rel) as Hj.
    { intros l. induction l as [|w l IH]; [done|]. intros _. destruct l as [|v l]; cbn [app].
      - by rw join_slash_cons.
      - change ((v :: l) ++ rel) with (v :: (l ++ rel)) in IH. rw join_slash_cons // IH // (join_slash_cons w (v :: l)) //.
        by rw -string_app_assoc. }
    change (c :: cs ++ rel) with ((c :: cs) ++ rel). rw Hj //.
    change (String slash (join_slash (c :: cs) +:+ "/" +:+ join_slash rel) +:+ "/" =
            (String slash (join_slash (c :: cs)) +:+ "/") +:+ join_slash rel +:+ "/").
    change (String slash ?x) with ("/" +:+ x). rw !string_app_assoc. done.
Qed.
Lemma entry_path (e : tar_entry) dir : th_name e = name dir → entry_target dest e = Ok (Join (dest :: rel)).
Proof.
  intros Hn. unfold entry_target. rw Hn. destruct (name_abs dir) as (-> & -> & ->). cbn [orb]. by rw name_inside name_join.
Qed.
End entry.

(** *** A whole walk *)
Lemma extract_app a b ops :
  extract a None = (ops, None) → extract (a ++ b) None = let '(ops', err) := extract b None in (ops ++ ops', err).
Proof.
  revert ops. induction a as [|e a IH]; intros ops; cbn [app Resources.extractTarGz].
  { intros [= <-]. by destruct (extract b None). }
  destruct (entry_ops _ dest e) as [ops1 [err|]]; [done|]. destruct (extract a None) as [ops2 [err|]] eqn:E; [done|].
  intros [= <-]. rw (IH ops2) //. destruct (extract b None) as [ops3 err]. by rw app_assoc.
Qed.
(** [entries] unpacks without error to exactly the files [fs] *)
Definition unpacks (entries : list tar_entry) (fs : list (list string * string)) : Prop :=
  ∃ ops, extract entries None = (ops, None) ∧ omap written ops = map at_dest fs.
Lemma unpacks_nil : unpacks [] [].
Proof. by exists []. Qed.
Lemma unpacks_app a b fa fb : unpacks a fa → unpacks b fb → unpacks (a ++ b) (fa ++ fb).
Proof.
  intros (oa & Ha & Wa) (ob & Hb & Wb). exists (oa ++ ob). split; [rw (extract_app _ _ _ Ha) Hb //|].
  by rw omap_app Wa Wb map_app.
Qed.
Lemma unpacks_dir rel es : rel ≠ [] → Forall (λ w, plain w = true) rel → unpacks [tar_header mode rel (NDir es)] [].
Proof.
  intros Hne Hp. eexists. cbn [Resources.extractTarGz]. unfold entry_ops.
  rw (entry_path rel Hne Hp (tar_header mode rel (NDir es)) true) //.
Qed.
Lemma unpacks_file rel d : rel ≠ [] → Forall (λ w, plain w = true) rel → unpacks [tar_header mode rel (NFile d)] [(rel, d)].
Proof.
  intros Hne Hp. eexists. cbn [Resources.extractTarGz]. unfold entry_ops.
  rw (entry_path rel Hne Hp (tar_header mode rel (NFile d)) false) //. cbn. by rw string_app_nil_r.
Qed.
Lemma walk_all_unpacks es :
  Forall (λ e, ∀ rel entries, rel ≠ [] → Forall (λ w, plain w = true) rel → plain_tree e.2 →
               walk rel e.2 = (entries, None) → unpacks entries (files rel e.2)) es →
  ∀ rel entries, Forall (λ w, plain w = true) rel → Forall (λ e, plain e.1 = true ∧ plain_tree e.2) es →
  walk_all rel es = (entries, None) → unpacks entries (files_all rel es).
Proof.
  intros IH rel. induction IH as [|[name m] es Hm Hes IH]; intros entries Hrel Hes'; cbn [walk_all].
  { intros [= <-]. apply unpacks_nil. }
  apply Forall_cons in Hes' as [[Hn Ht] Hes']. cbn [fst snd] in *.
  destruct (walk (rel ++ [name]) m) as [a [e|]] eqn:E; [done|]. destruct (walk_all rel es) as [b [e|]]; [done|]. intros [= <-].
  unfold files_all. cbn [map concat fst snd]. apply unpacks_app; [|by apply IH].
  apply Hm; [by destruct rel|apply Forall_app; by repeat constructor|done|done].
Qed.
Lemma walk_unpacks n :
  ∀ rel entries, rel ≠ [] → Forall (λ w, plain w = true) rel → plain_tree n →
  walk rel n = (entries, None) → unpacks entries (files rel n).
Proof.
  induction n as [d|d|es IH] using node_tree_ind; intros rel entries Hne Hrel Ht.
  - cbn. destruct (skipped rel); [intros [= <-]; apply unpacks_nil|]. destruct (fault rel); [done|]. intros [= <- _]. by apply unpacks_file.
  - cbn. destruct (skipped rel); [intros [= <-]; apply unpacks_nil|]. destruct (fault rel); [done|]. intros [= <-]. apply unpacks_nil.
  - rw walk_dir files_dir. destruct (skipped rel); [intros [= <-]; apply unpacks_nil|]. destruct (fault rel); [done|].
    destruct (unread rel); [done|]. destruct (walk_all rel es) as [rest [e|]] eqn:E; [done|]. intros [= <-].
    change (files_all rel es) with ([] ++ files_all rel es). change (?h :: rest) with ([h] ++ rest).
    apply unpacks_app; [by apply (unpacks_dir rel es)|]. apply plain_dir in Ht. by eapply walk_all_unpacks.
Qed.
Lemma tarGzDir_unpacks es entries :
  plain_tree (NDir es) → tarGzDir mode fault unread false (NDir es) = Ok entries → unpacks entries (files_all [] es).
Proof.
  intros Ht. cbn. destruct (unread []); [done|]. destruct (walk_all [] es) as [l [e|]] eqn:E; [done|]. intros [= <-].
  apply plain_dir in Ht. eapply walk_all_unpacks; [|done|exact Ht|exact E].
  apply Forall_forall. intros e _. apply walk_unpacks.
Qed.
End pack.

(** C31: A resource of the operator's HOME that is a directory, not itself a
    symbolic link to one, and that is uploaded to the library can be installed
    again: where the system permits every operation of the unpacking, unpacking
    the uploaded archive in any directory (a clean absolute path other than the
    root) ends without error and writes exactly the regular files of the
    resource outside its top-level .git, with their contents, for any tree
    whose names an archive may carry. *)
Theorem archive_unpacks h home frame sent es dest :
  let src := resource_dir h home (ToLower (TrimSpace (ar_kind frame))) (TrimSpace (ar_name frame)) in
  (archiveSystemEnvResource h home frame).2 = Some sent →
  ah_tree h src = Some (NDir es) → ah_linked h src = false → plain_tree (NDir es) →
  IsAbs dest = true → Clean dest = dest → dest ≠ "/" →
  ∃ ops, Resources.extractTarGz (λ _, true) dest (up_entries sent) None = (ops, None) ∧
         omap written ops = map (at_dest dest) (files_all [] es).
Proof.
  cbn zeta. set (src := resource_dir _ _ _ _). intros Hsent Htree Hlink Hes Ha Hc Hr.
  apply (tarGzDir_unpacks (ah_mode h src) (ah_fault h src) (ah_unread h src) dest Ha Hc Hr es _ Hes).
  unfold archiveSystemEnvResource in Hsent. destruct (String.eqb (TrimSpace _) ""); [done|]. destruct (negb _ && negb _); [done|].
  destruct (String.eqb (TrimSpace (ar_url frame)) ""); [done|]. fold src in Hsent. destruct (String.eqb src ""); [done|].
  unfold pack in Hsent. rw Htree Hlink in Hsent. destruct (tarGzDir _ _ _ _ _) as [entries|]; [|done].
  destruct (ah_url h _); [done|]. destruct (ah_post h) as [e|[status body]]; [|destruct (400 <=? status)%Z]; by injection Hsent as <-.
Qed.

(** ** The inventory of an environment *)
Section env.
Variables (h : rhost) (workRoot envID kind root : string).
Lemma env_each_frames ws (S : place → Prop) :
  (∀ w, w ∈ ws → S (root, sanitizeSessionDir (TrimSpace (w_name w)))) → frames S (env_each h workRoot envID kind root ws).
Proof.
  induction ws as [|w ws IH]; intros HS; cbn [env_each]; [apply frames_ret|].
  apply frames_bind; [apply frames_wrap, mkdir_frames|intros _].
  apply frames_bind; [apply frames_wrap, fetchResource_frames, HS; by left|intros _]. apply IH. intros v Hv. apply HS. by right.
Qed.
Lemma env_set_frames ws : frames (λ q, q.1 = root) (env_set h workRoot envID kind root ws).
Proof. apply frames_bind; [by apply env_each_frames|intros _]. by apply frames_wrap, prune_frames. Qed.
(** a resource copied from a local directory *)
Definition local_dir (w : wanted) : Prop := src_path (w_src w) ≠ "" ∧ ∃ es, rh_local h (src_path (w_src w)) = Ok (NDir es).
Definition dir_at (name : string) (s : rst) : Prop := ∃ n, at_place (root, name) s = Some n ∧ is_dir n = true.
Lemma fetch_local w p s s' : local_dir w → fetchResource h workRoot (w_src w) p s = (Ok (), s') → ∃ n, at_place p s' = Some n ∧ is_dir n = true.
Proof.
  intros [Hp [es Hes]] ([] & s1 & _ & H)%bind_ok. apply String.eqb_neq in Hp. rw Hp Hes /= in H.
  apply copy_to_ok in H as (c & Hc & Hat). assert (∃ l, c = Some (NDir l)) as [l ->]; [|by exists (NDir l)].
  clear -Hc. revert Hc. cbn. match goal with |- (let '(_, _) := ?g in _) = _ → _ => destruct g as [l [e|]] end; [done|].
  intros [= <-]. by exists l.
Qed.
Lemma env_each_ok ws s s' :
  Forall local_dir ws → env_each h workRoot envID kind root ws s = (Ok (), s') →
  ∀ name, dir_at name s ∨ name ∈ map (λ w, sanitizeSessionDir (TrimSpace (w_name w))) ws → dir_at name s'.
Proof.
  intros Hl. revert s. induction Hl as [|w ws Hw Hws IH]; intros s; cbn [env_each].
  { intros [= <-] name [?|?%not_elem_of_nil]; done. }
  intros ([] & s1 & H1%wrap_ok & H)%bind_ok name. apply bind_ok in H as ([] & s2 & H2%wrap_ok & H3).
  cbn [map]. rw elem_of_cons. intros Hor. apply (IH _ H3).
  destruct (decide (name = sanitizeSessionDir (TrimSpace (w_name w)))) as [-> |Hne]; [left; by eapply fetch_local|].
  destruct Hor as [(n & Hn & Hd)|[?|?]]; [left|done|by right]. exists n. split; [|done].
  rw (fetchResource_frames h workRoot _ _ (λ q, q = (root, sanitizeSessionDir (TrimSpace (w_name w)))) eq_refl _ _ _ H2); [|congruence].
  rw (mkdir_frames h root (λ _, False) _ _ _ H1); [done|tauto].
Qed.
Lemma env_set_ok ws s s' :
  env_set h workRoot envID kind root ws s = (Ok (), s') →
  (∀ name, dir_at name s' → name ∈ safe_names ws) ∧
  (Forall local_dir (named ws) → ∀ name, name ∈ safe_names ws → dir_at name s').
Proof.
  intros ([] & s1 & H1 & H2%wrap_ok)%bind_ok. apply prune_ok in H2 as [P K]. split.
  - intros name (n & Hn & Hd). by eapply P.
  - intros Hl name Hname. destruct (env_each_ok _ _ _ Hl H1 name) as (n & Hn & Hd).
    + right. unfold safe_names in Hname. by apply elem_of_list_to_set in Hname.
    + exists n. split; [|done]. rw K //. by left.
Qed.
Lemma env_entries_names readErr s out name :
  env_entries readErr envID kind root s = Ok out → name ∈ map ee_name out ↔ dir_at name s.
Proof.
  unfold env_entries, dir_at, at_place. cbn [fst snd]. destruct (r_dirs s !! root) as [d|].
  2:{ intros [= <-]. cbn. split; [by intros ?%not_elem_of_nil|by intros (n & ? & _)]. }
  destruct (readErr root); [done|]. intros [= <-]. rw list_elem_of_fmap. cbn [mbind option_bind]. split.
  - intros (e & -> & ([k n] & Hkn & He)%list_elem_of_omap). apply sorted_entries_elem in Hkn. cbn in He.
    destruct (is_dir n) eqn:E; [|done]. injection He as <-. by exists n.
  - intros (n & Hn & Hd). exists (mkEnvEntry kind name (readResourceVersion (Some n))). split; [done|].
    apply list_elem_of_omap. exists (name, n). split; [by apply sorted_entries_elem|]. cbn. by rw Hd.
Qed.
End env.
Lemma env_dirs_apart home : home ≠ "" → envResourceDir home "skills" ≠ envResourceDir home "plugins".
Proof.
  intros Hh. unfold envResourceDir. rw !Join_safe //; [|by repeat constructor..]. intros E.
  assert (∀ k, safe_segment k = true → comps (render (IsAbs home) (comps home ++ [".agents"; k])) = comps home ++ [".agents"; k]) as Hc.
  { intros k Hk. apply render_comps; [|by destruct (comps home)]. apply clean_shape_app; [apply comps_shape|by repeat constructor]. }
  assert (comps home ++ [".agents"; "skills"] = comps home ++ [".agents"; "plugins"]) as Heq.
  { rw -(Hc "skills") // -(Hc "plugins") //. by f_equal. }
  by apply app_inv_head in Heq.
Qed.

(** After a successful synchronisation of a shared environment its
    inventory lists no skill or plugin that was not asked for, and lists every
    skill asked for (under its sanitized name) when the skills come from local
    directories. *)
Theorem env_inspect_exact h opts envID skills plugins s s' readErr out :
  op_workRoot opts ≠ "" →
  syncEnvironment h (op_workRoot opts) opts envID skills plugins s = (Ok (), s') →
  inspectEnvironment readErr opts envID s' = Ok out →
  (∀ e, e ∈ out → (ee_kind e = "skill" ∧ ee_name e ∈ safe_names (skills_wanted skills)) ∨
                  (ee_kind e = "plugin" ∧ ee_name e ∈ safe_names (plugins_wanted plugins))) ∧
  (Forall (local_dir h) (named (skills_wanted skills)) →
   ∀ name, name ∈ safe_names (skills_wanted skills) → ∃ e, e ∈ out ∧ ee_kind e = "skill" ∧ ee_name e = name).
Proof.
  intros Hroot. unfold syncEnvironment, inspectEnvironment. destruct (String.eqb (TrimSpace envID) ""); [done|].
  set (home := envDir opts (TrimSpace envID)). intros ([] & s1 & _ & H)%bind_ok. apply bind_ok in H as ([] & s2 & H2 & H3).
  pose proof (env_set_frames h (op_workRoot opts) (TrimSpace envID) "plugin" _ _ _ _ _ H3) as F3.
  apply env_set_ok in H2 as [S1 S2], H3 as [P1 _].
  assert (Hhome : home ≠ "") by (eapply within_nonempty, envDir_within; done).
  assert (Hsame : ∀ name, dir_at (envResourceDir home "skills") name s' ↔ dir_at (envResourceDir home "skills") name s2).
  { intros name. unfold dir_at. rw F3 //. by apply env_dirs_apart. }
  destruct (env_entries _ _ "skill" _ _) as [a|] eqn:Ea; [|done]. destruct (env_entries _ _ "plugin" _ _) as [b|] eqn:Eb; [|done].
  intros [= <-].
  assert (Hkind : ∀ k root l e, env_entries readErr (TrimSpace envID) k root s' = Ok l → e ∈ l → ee_kind e = k).
  { intros k root l e. unfold env_entries. destruct (r_dirs s' !! root); [|intros [= <-]; by intros ?%not_elem_of_nil].
    destruct (readErr root); [done|]. intros [= <-] (x & _ & Hx)%list_elem_of_omap. destruct (is_dir x.2); [|done]. by injection Hx as <-. }
  split.
  - intros e [He|He]%elem_of_app.
    + left. split; [by eapply Hkind|]. apply S1, Hsame, (env_entries_names _ _ _ _ _ _ _ Ea), list_elem_of_fmap. by exists e.
    + right. split; [by eapply Hkind|]. apply P1, (env_entries_names _ _ _ _ _ _ _ Eb), list_elem_of_fmap. by exists e.
  - intros Hl name Hname. apply (S2 Hl) in Hname. apply Hsame, (env_entries_names _ _ _ _ _ _ _ Ea), list_elem_of_fmap in Hname as (e & -> & He).
    exists e. split_and!; [apply elem_of_app; by left|by eapply Hkind|done].
Qed.

(** ** Evaluated calls *)
Module ArchiveWitness.
Import ResourceWitness.
Definition skill_tree : list (string * node) :=
  [(".git", NDir [("HEAD", NFile "ref")]); ("SKILL.md", NFile "lint"); ("bin", NDir [("run.sh", NFile "exec")]); ("latest", NLink (Ok "x"))].
Definition path : string := "/home/op/.claude/skills/lint".
Definition ah : ahost := mkAhost (λ _, None) (λ p, if String.eqb p path then Some (NDir skill_tree) else None) (λ _, false)
  (λ _ _, 420%Z) (λ _ _, None) (λ _ _, None) (λ _, None) (inr (200%Z, "")) id.
Definition frame : NodeArchiveSystemEnvResource := mkArch "Skill" "lint" "http://s/up" "tok".
Definition sent : upload := Eval vm_compute in default (mkUpload "" None []) (archiveSystemEnvResource ah "/home/op" frame).2.
Lemma archive_unpacks_witness :
  ∃ ops, Resources.extractTarGz (λ _, true) "/d" (up_entries sent) None = (ops, None) ∧
         omap written ops = [("/d/SKILL.md", "lint"); ("/d/bin/run.sh", "exec")].
Proof.
  assert (E : (archiveSystemEnvResource ah "/home/op" frame).2 = Some sent) by (vm_compute; reflexivity).
  destruct (archive_unpacks ah "/home/op" frame sent skill_tree "/d" E) as (ops & H1 & H2);
    [vm_compute; reflexivity..|cbn; tauto|reflexivity|reflexivity|discriminate|].
  exists ops. split; [exact H1|]. rw H2. vm_compute. reflexivity.
Defined.
(** A file name with a colon is packed but stops every installation of the archive. *)
Lemma archive_colon_uninstallable :
  ∃ entries, tarGzDir (λ _, 420%Z) (λ _, None) (λ _, None) false (NDir [("a:b", NFile "x"); ("c", NFile "y")]) = Ok entries ∧
  Resources.extractTarGz (λ _, true) "/d" entries None = ([], Some "archive entry has absolute path (refused): a:b").
Proof. eexists. split; vm_compute; reflexivity. Qed.
(** A resource that is a symbolic link to a directory is found and uploaded empty. *)
Lemma archive_linked_empty :
  archiveSystemEnvResource (mkAhost (λ _, None) (ah_tree ah) (λ _, true) (ah_mode ah) (ah_fault ah) (ah_unread ah) (λ _, None) (ah_post ah) id)
    "/home/op" frame = (None, Some (mkUpload "http://s/up" (Some "tok") [])).
Proof. vm_compute. reflexivity. Qed.
Definition opts : sessionOptions := mkOptions "/w" [] false false.
Definition synced : rst := Eval vm_compute in (syncEnvironment h "/w" opts "e1" [local_skill "lint"] [] s0).2.
Definition listed : list NodeEnvironmentEntry := Eval vm_compute in
  match inspectEnvironment (λ _, None) opts "e1" synced with Ok l => l | Err _ => [] end.
Lemma env_inspect_exact_witness : ∃ e, e ∈ listed ∧ ee_kind e = "skill" ∧ ee_name e = "lint".
Proof.
  assert (E1 : syncEnvironment h (op_workRoot opts) opts "e1" [local_skill "lint"] [] s0 = (Ok (), synced)) by (vm_compute; reflexivity).
  assert (E2 : inspectEnvironment (λ _, None) opts "e1" synced = Ok listed) by (vm_compute; reflexivity).
  destruct (env_inspect_exact h opts "e1" [local_skill "lint"] [] s0 synced (λ _, None) listed) as [_ H]; [discriminate|exact E1|exact E2|].
  apply H; [|vm_compute; reflexivity]. constructor; [|constructor]. split; [discriminate|]. by eexists.
Defined.
End ArchiveWitness.
