(* ===== verification/FileService.v ===== *)
(** * FileService: browsing a session's working directory (execution/fileservice.go)

    The disk is one tree (of Resources.v) below "/"; a path denotes the node at
    its components.  Handlers thread the tree and record what they ask of the
    operating system, in order; the host decides which requests fail.  A
    symbolic link on a path is followed by the system, out of the tree or back
    into it: what a request through one gives and changes is the host's answer
    ([fh_linkStat], [fh_linkOpen], [fh_linkDir], [fh_linkAct]), any answer. *)
From S2P Require Import Prelude GoStrings GoPath Archive EditorConfig Resources.
From Stdlib Require Import Ascii.
Open Scope nat_scope.

Definition archivePath : string := "/__archive__".
Definition gitChangesPath : string := "/__git_changes__".
Definition gitDiffPath : string := "/__git_diff__".

(** ** strings and strconv *)
Definition backslash : ascii := "\".
Fixpoint replace_char (a b : ascii) (s : string) : string :=
  match s with
  | EmptyString => ""
  | String c s => String (if Ascii.eqb c a then b else c) (replace_char a b s)
  end.
Definition TrimSuffix1 (c : ascii) (s : string) : string :=
  match string_reverse s with
  | String d r => if Ascii.eqb d c then string_reverse r else s
  | EmptyString => s
  end.
Fixpoint trim_newlines_left (s : string) : string :=
  match s with
  | String c s' => if is_code 10 c || is_code 13 c then trim_newlines_left s' else s
  | EmptyString => ""
  end.
(** strings.TrimRight(s, "\r\n") *)
Definition TrimRightNewlines (s : string) : string := string_reverse (trim_newlines_left (string_reverse s)).
(** strings.SplitN(s, sep, 3) for a one-byte separator, when there are three parts *)
Definition split3 (sep : ascii) (s : string) : option (string * string * string) :=
  match Split1 sep s with
  | a :: b :: c :: rest => Some (a, b, concat_sep (String sep "") (c :: rest))
  | _ => None
  end.
Fixpoint digits_value (acc : Z) (s : string) : option Z :=
  match s with
  | EmptyString => Some acc
  | String c s => if is_digit c then digits_value (acc * 10 + (Z.of_N (code c) - 48)) s else None
  end.
(** strconv.Atoi on a 64-bit host: the value (also on error) and whether it succeeded *)
Definition Atoi (s : string) : Z * bool :=
  let '(neg, body) :=
    match s with
    | String c r => if Ascii.eqb c "-" then (true, r) else if Ascii.eqb c "+" then (false, r) else (false, s)
    | EmptyString => (false, "")
    end in
  match body with
  | EmptyString => (0, false)%Z
  | _ =>
      match digits_value 0 body with
      | None => (0, false)%Z
      | Some v =>
          if neg then if (2 ^ 63 <? v)%Z then (- 2 ^ 63, false)%Z else (- v, true)%Z
          else if (2 ^ 63 - 1 <? v)%Z then (2 ^ 63 - 1, false)%Z else (v, true)
      end
  end.

(** ** The path guard *)
Definition escaping (quote : string → string) (reqPath : string) : string :=
  "path " +:+ q quote reqPath +:+ " escapes the session workspace".
Section resolve.
Variables (quote : string → string) (root : string).
Definition resolve (reqPath : string) : result string :=
  let normalized := replace_char backslash slash reqPath in
  if one_of ".." (Split1 slash normalized) then Err (escaping quote reqPath)
  else
    let clean := Clean ("/" +:+ TrimPrefix normalized "/") in
    let abs := Join [root; clean] in
    match Rel root abs with
    | None => Err (escaping quote reqPath)
    | Some rel => if String.eqb rel ".." || HasPrefix rel "../" then Err (escaping quote reqPath) else Ok abs
    end.
End resolve.

(** ** The disk *)
(** os.MkdirAll *)
Fixpoint mkdir_in (cs : list string) (n : node) : option node :=
  match cs with
  | [] => match n with NDir _ => Some n | _ => None end
  | c :: cs =>
      match n with
      | NDir es => m ← mkdir_in cs (default (NDir []) (entry_of c es)); Some (NDir (set_entry c m es))
      | _ => None
      end
  end.
(** os.Create and writing [data]; through a link the file it leads to is written *)
Fixpoint create_in (cs : list string) (data : string) (n : node) : option node :=
  match cs with
  | [] => match n with NDir _ => None | NFile _ => Some (NFile data) | NLink _ => Some (NLink (Ok data)) end
  | c :: cs =>
      match n with
      | NDir es =>
          match entry_of c es with
          | Some m => m' ← create_in cs data m; Some (NDir (set_entry c m' es))
          | None => match cs with [] => Some (NDir (set_entry c (NFile data) es)) | _ => None end
          end
      | _ => None
      end
  end.
Definition drop_entry (name : string) (es : list (string * node)) : list (string * node) :=
  filter (λ e, e.1 ≠ name) es.
(** os.RemoveAll; [left] is what a failing call leaves at the path *)
Fixpoint remove_in (left : option node) (cs : list string) (n : node) : node :=
  match cs with
  | [] => n
  | c :: cs =>
      match n with
      | NDir es =>
          match entry_of c es with
          | None => n
          | Some m =>
              match cs with
              | [] => NDir (match left with Some m => set_entry c m es | None => drop_entry c es end)
              | _ => NDir (set_entry c (remove_in left cs m) es)
              end
          end
      | _ => n
      end
  end.

(** whether the path meets a symbolic link, at its end included *)
Fixpoint linked (cs : list string) (n : node) : bool :=
  match n with
  | NLink _ => true
  | NFile _ => false
  | NDir es => match cs with
               | [] => false
               | c :: cs => match entry_of c es with Some m => linked cs m | None => false end
               end
  end.
(** os.RemoveAll removes a link at the end of the path itself *)
Definition linked_above (cs : list string) (n : node) : bool := linked (removelast cs) n.

(** ** Requests, responses, the host *)
Inductive fop :=
| OStat (p : string) | OOpen (p : string) | OReadDir (p : string)
| OMkdirAll (p : string) | OCreate (p : string) | ORemoveAll (p : string)
| OGit (args : list string).                       (** run in the root *)
Record request := mkReq {
  rq_method : string; rq_path : string;            (** URL.Path, decoded *)
  rq_query : string → string;                      (** URL.Query().Get *)
  rq_body : string * option string                 (** the bytes received and the read error *)
}.
Record fileEntry := mkFE { fe_name : string; fe_size : Z; fe_isDir : bool }.
Record repoFileChange := mkChange {
  rc_path : string; rc_status : string; rc_additions : Z; rc_deletions : Z; rc_oldPath : string
}.
Inductive body :=
| BEmpty | BText (s : string) | BBytes (data : string) | BList (entries : list fileEntry)
| BChanges (changes : list repoFileChange) (branch commit : string) | BNoChanges (err : string)
| BDiff (path diff : string) | BNoDiff (path err : string)
| BTar (entries : list tar_entry) (whole : bool).
Record response := mkRes { re_status : Z; re_body : body }.
Record fhost := mkFhost {
  fh_io : fop → option string;                     (** the request fails with this error *)
  fh_left : string → option node;                  (** what a failing RemoveAll leaves *)
  fh_info : string → bool;                         (** whether DirEntry.Info of this path works *)
  fh_dirSize : string → Z;
  fh_git : list string → string * bool;            (** combined output, and success *)
  fh_mode : string → Z;
  fh_readlink : string → string;
  fh_header : string → bool;                       (** tar.FileInfoHeader accepts it *)
  (* requests through a symbolic link *)
  fh_linkStat : string → node → result node; fh_linkOpen : string → node → result string;
  fh_linkDir : string → node → result (list (string * node)); fh_linkAct : fop → node → result () * node;
  fh_quote : string → string
}.
Record fstate := mkFst { fs_disk : node; fs_trace : list fop }.
#[export] Instance eta_fstate : Settable fstate := λ s, mkFst (fs_disk s) (fs_trace s).
Definition F (A : Type) : Type := fstate → A * fstate.
#[export] Instance F_ret : MRet F := λ A a s, (a, s).
#[export] Instance F_bind : MBind F := λ A B f m s, let '(a, s) := m s in f a s.

Section service.
Variable h : fhost.
Variable root : string.
(** one request to the system: [act] is its effect when it is allowed *)
Definition syscall {A} (op : fop) (act : node → result A * node) : F (result A) := λ s,
  let s := s <| fs_trace := fs_trace s ++ [op] |> in
  match fh_io h op with
  | Some e => (Err e, s)
  | None => let '(r, d) := act (fs_disk s) in (r, s <| fs_disk := d |>)
  end.
Definition enoent : string := "no such file or directory".
(** os.Stat *)
Definition stat (p : string) : F (result node) :=
  syscall (OStat p) (λ d, (if linked (comps p) d then fh_linkStat h p d
                           else match find_in (comps p) d with Some n => Ok n | None => Err enoent end, d)).
Definition content_of (n : node) : string := match n with NFile d | NLink (Ok d) => d | _ => "" end.
Definition open (p : string) : F (result string) :=
  syscall (OOpen p) (λ d, (if linked (comps p) d then fh_linkOpen h p d
                           else match find_in (comps p) d with Some n => Ok (content_of n) | None => Err enoent end, d)).
Definition readDir (p : string) : F (result (list (string * node))) :=
  syscall (OReadDir p) (λ d, (if linked (comps p) d then fh_linkDir h p d else
                              match find_in (comps p) d with
                              | Some (NDir es) => Ok es
                              | Some _ => Err "not a directory"
                              | None => Err enoent
                              end, d)).
Definition mkdirAll (p : string) : F (result ()) :=
  syscall (OMkdirAll p) (λ d, if linked (comps p) d then fh_linkAct h (OMkdirAll p) d
                              else match mkdir_in (comps p) d with Some d => (Ok (), d) | None => (Err "not a directory", d) end).
(** os.Create and io.Copy of the bytes that arrive *)
Definition create (p : string) (data : string) : F (result ()) :=
  syscall (OCreate p) (λ d, if linked (comps p) d then fh_linkAct h (OCreate p) d
                            else match create_in (comps p) data d with Some d => (Ok (), d) | None => (Err "cannot create", d) end).
Definition removeAll (p : string) : F (result ()) := λ s,
  let s := s <| fs_trace := fs_trace s ++ [ORemoveAll p] |> in
  if linked_above (comps p) (fs_disk s) then let '(r, d) := fh_linkAct h (ORemoveAll p) (fs_disk s) in (r, s <| fs_disk := d |>) else
  match fh_io h (ORemoveAll p) with
  | Some e => (Err e, match fh_left h p with Some n => s <| fs_disk := remove_in (Some n) (comps p) (fs_disk s) |> | None => s end)
  | None => (Ok (), s <| fs_disk := remove_in None (comps p) (fs_disk s) |>)
  end.
Definition git (args : list string) : F (string * bool) := λ s,
  (fh_git h args, s <| fs_trace := fs_trace s ++ [OGit args] |>).
Definition text (status : Z) (s : string) : F response := mret (mkRes status (BText s)).

(** ** Files *)
Definition size_of (p : string) (n : node) : Z :=
  match n with NDir _ => fh_dirSize h p | NFile d => blen d | NLink _ => blen (fh_readlink h p) end.
Definition entry_name_le (a b : fileEntry) : Prop := Is_true (String.leb (fe_name a) (fe_name b)).
#[global] Instance entry_name_le_dec : RelDecision entry_name_le.
Proof. intros a b. apply _. Defined.
Definition listDir (abs : string) : F response :=
  r ← readDir abs;
  match r with
  | Err e => text 500 e
  | Ok entries =>
      let out := omap (λ e, if fh_info h (Join [abs; e.1]) then Some (mkFE e.1 (size_of (Join [abs; e.1]) e.2) (is_dir e.2)) else None) entries in
      mret (mkRes 200 (BList (merge_sort entry_name_le out)))
  end.
Definition handleGet (abs : string) : F response :=
  r ← stat abs;
  match r with
  | Err e => text 404 e
  | Ok (NDir _) => listDir abs
  | Ok _ =>
      r ← open abs;
      match r with Err e => text 500 e | Ok data => mret (mkRes 200 (BBytes data)) end
  end.
Definition handlePut (req : request) (abs : string) : F response :=
  r ← mkdirAll (Dir abs);
  match r with
  | Err e => text 500 e
  | Ok _ =>
      r ← create abs (rq_body req).1;
      match r with
      | Err e => text 500 e
      | Ok _ => match (rq_body req).2 with Some e => text 500 e | None => mret (mkRes 204 BEmpty) end
      end
  end.
Definition handleDelete (abs : string) : F response :=
  if String.eqb abs root then text 403 "refusing to delete the workspace root"
  else
    r ← removeAll abs;
    match r with Err e => text 500 e | Ok _ => mret (mkRes 204 BEmpty) end.

(** ** Git *)
Definition gitNumstat : F (gmap string (Z * Z)) :=
  r ← git ["diff"; "--numstat"; "HEAD"; "--"];
  mret (if negb r.2 then ∅
        else foldl (λ stats raw,
               match split3 "009" (TrimSuffix1 "013" raw) with
               | Some (a, d, path) => <[path := ((Atoi a).1, (Atoi d).1)]> stats
               | None => stats
               end) ∅ (Split1 "010" (TrimSpace r.1))).
Definition arrow : string := " -> ".
Definition status_line (stats : gmap string (Z * Z)) (raw : string) : option repoFileChange :=
  let line := TrimSuffix1 "013" raw in
  if String.length line <? 3 then None
  else
    let status := TrimSpace (take_bytes 2 line) in
    if String.eqb status "" then None
    else
      let pathPart := TrimSpace (drop_bytes 3 line) in
      let '(path, oldPath) :=
        match Index pathPart arrow with
        | Some i => (TrimChar "034" (drop_bytes (i + 4) pathPart), TrimChar "034" (take_bytes i pathPart))
        | None => (pathPart, "")
        end in
      let path := TrimChar "034" path in
      let '(additions, deletions) := default (0, 0)%Z (stats !! path) in
      Some (mkChange path status additions deletions oldPath).
Definition changes_of (stats : gmap string (Z * Z)) (out : string) : list repoFileChange :=
  omap (status_line stats) (Split1 "010" (TrimRightNewlines out)).
Definition handleGitChanges : F response :=
  r ← git ["status"; "--porcelain=v1"; "--untracked-files=all"];
  if negb r.2 then mret (mkRes 409 (BNoChanges (TrimSpace r.1)))
  else
    stats ← gitNumstat;
    branch ← git ["rev-parse"; "--abbrev-ref"; "HEAD"];
    commit ← git ["rev-parse"; "--verify"; "HEAD"];
    mret (mkRes 200 (BChanges (changes_of stats r.1) (TrimSpace branch.1) (TrimSpace commit.1))).
Definition context_lines (raw : string) : Z :=
  if String.eqb raw "" then 20%Z
  else match Atoi raw with
  | (v, true) => Z.min 100 (Z.max 0 v)
  | (_, false) => 20%Z
  end.
Definition unified (n : Z) : string := "--unified=" +:+ itoa (Z.to_N n).
Definition handleGitDiff (req : request) : F response :=
  let reqPath := TrimSpace (rq_query req "path") in
  if String.eqb reqPath "" then mret (mkRes 400 (BNoDiff "" "path is required"))
  else match resolve (fh_quote h) root reqPath with
  | Err e => mret (mkRes 403 (BNoDiff "" e))
  | Ok abs =>
      match Rel root abs with
      | None => mret (mkRes 403 (BNoDiff "" "Rel: can't make path relative"))
      | Some rel =>
          let n := context_lines (TrimSpace (rq_query req "context_lines")) in
          r ← git ["diff"; "--no-ext-diff"; unified n; "HEAD"; "--"; rel];
          if negb r.2 then mret (mkRes 409 (BNoDiff rel (TrimSpace r.1)))
          else
            out ← (if negb (String.eqb r.1 "") then mret r.1
                   else
                     st ← stat abs;
                     match st with
                     | Err _ => mret r.1
                     | Ok _ =>
                         tracked ← git ["ls-files"; "--error-unmatch"; "--"; rel];
                         if String.eqb tracked.1 "" then
                           d ← git ["diff"; "--no-index"; "--no-ext-diff"; unified n; "--"; "/dev/null"; rel]; mret d.1
                         else mret r.1
                     end);
            mret (mkRes 200 (BDiff rel out))
      end
  end.

(** ** Archive: filepath.WalkDir below [top] *)
Definition runtime_dir (rel : list string) : bool := match rel with part :: _ => String.eqb part ".agent-compose" | [] => false end.
Section walk.
Variable top : string.
Definition under (rel : list string) : string := Join (top :: rel).
(** the header, and whether the content announced by it follows *)
Definition ws_item (rel : list string) (n : node) : tar_entry * bool :=
  let name := join_slash rel in
  let mode := fh_mode h (under rel) in
  match n with
  | NDir _ => (mkTar (name +:+ "/") TypeDir mode "" "", true)
  | NFile d =>
      if bool_decide (fh_io h (OOpen (under rel)) = None) then (mkTar name TypeReg mode "" d, true)
      else (mkTar name TypeReg mode "" "", String.eqb d "")
  | NLink _ => (mkTar name TypeSymlink mode (fh_readlink h (under rel)) "", true)
  end.
Fixpoint ws_walk (rel : list string) (n : node) : list (tar_entry * bool) :=
  if runtime_dir rel then []
  else
    let here := if fh_info h (under rel) && fh_header h (under rel) then [ws_item rel n] else [] in
    match n with
    | NDir es =>
        if bool_decide (fh_io h (OReadDir (under rel)) = None) then
          here ++ (fix go (es : list (string * node)) : list (tar_entry * bool) :=
                     match es with [] => [] | (name, m) :: es => ws_walk (rel ++ [name]) m ++ go es end) es
        else here
    | _ => here
    end.
Definition ws_items (es : list (string * node)) : list (tar_entry * bool) := concat (map (λ e, ws_walk [e.1] e.2) es).
End walk.
(** the tar writer refuses the next header while content is missing, which ends the walk; [false]: cut short *)
Fixpoint tar_stream (items : list (tar_entry * bool)) : list tar_entry * bool :=
  match items with
  | [] => ([], true)
  | (e, true) :: items => let '(rest, whole) := tar_stream items in (e :: rest, whole)
  | (e, false) :: _ => ([e], false)
  end.
Definition handleArchive (req : request) : F response :=
  let sub := TrimSpace (rq_query req "path") in
  match (if String.eqb sub "" then Ok root else resolve (fh_quote h) root sub) with
  | Err e => text 403 e
  | Ok top =>
      r ← stat top;
      match r with
      | Err e => text 404 e
      | Ok (NDir _) =>
          r ← readDir top;
          mret (mkRes 200 (uncurry BTar (match r with Ok es => tar_stream (ws_items top es) | Err _ => ([], true) end)))
      | Ok _ => text 400 "archive path must be a directory"
      end
  end.

(** ** Routing *)
Definition get_only (req : request) (k : F response) : F response :=
  if String.eqb (rq_method req) "GET" then k else text 405 "method not allowed".
Definition handle (req : request) : F response :=
  if String.eqb (rq_path req) archivePath then get_only req (handleArchive req)
  else if String.eqb (rq_path req) gitChangesPath then get_only req handleGitChanges
  else if String.eqb (rq_path req) gitDiffPath then get_only req (handleGitDiff req)
  else match resolve (fh_quote h) root (rq_path req) with
  | Err e => text 403 e
  | Ok abs =>
      if String.eqb (rq_method req) "GET" then handleGet abs
      else if one_of (rq_method req) ["PUT"; "POST"] then handlePut req abs
      else if String.eqb (rq_method req) "DELETE" then handleDelete abs
      else text 405 "method not allowed"
  end.
End service.
