(* ===== verification/FileServiceProofs.v ===== *)
(** * FileServiceProofs: requests stay in the working directory, uploads can be
    read back, and the list of changes is what git reported *)
From S2P Require Import Prelude GoStrings GoPath Archive EditorConfig Resources ResourcesProofs FileService.
From Stdlib Require Import Ascii.
Open Scope nat_scope.

(** ** What the guard accepts *)
Lemma Split1_slash s : Split1 slash s = split_slash s.
Proof. induction s as [|c s IH]; [done|]. cbn. rw IH. by destruct (Ascii.eqb c slash). Qed.
(** the segments a path keeps when none of them goes up *)
Definition keep (ws : list string) : list string := filter (λ w, w ≠ "" ∧ w ≠ ".") ws.
Lemma foldl_clean_keep r out ws : ".." ∉ ws → foldl (clean_step r) out ws = rev (keep ws) ++ out.
Proof.
  revert out. induction ws as [|w ws IH]; intros out; [done|]. intros [Hw Hws]%not_elem_of_cons. cbn [foldl]. unfold keep.
  unfold clean_step at 2. destruct (String.eqb_spec w "") as [->|H1]; cbn [orb].
  { rw filter_cons_False; [by apply IH|naive_solver]. }
  destruct (String.eqb_spec w ".") as [->|H2]; cbn [orb]; [rw filter_cons_False; [by apply IH|naive_solver]|].
  destruct (String.eqb_spec w "..") as [->|_]; [done|]. rw filter_cons_True // IH //. cbn. by rw -app_assoc.
Qed.
Lemma keep_safe ws : ".." ∉ ws → Forall (λ w, no_slash w = true) ws → Forall (λ w, safe_segment w = true) (keep ws).
Proof.
  intros Hu Hn. apply Forall_forall. intros w [[H1 H2] Hw]%list_elem_of_filter. rw Forall_forall in Hn. specialize (Hn w Hw).
  unfold safe_segment. rw Hn. apply String.eqb_neq in H1, H2. rw H1 H2. destruct (String.eqb_spec w "..") as [->|]; done.
Qed.
Lemma one_of_elem s l : one_of s l = true ↔ s ∈ l.
Proof.
  unfold one_of. rw existsb_exists. split; [intros (x & Hx & <-%String.eqb_eq); by apply list_elem_of_In|].
  intros H. exists s. split; [by apply list_elem_of_In|apply String.eqb_refl].
Qed.
Lemma safe_join_not_up k :
  k ≠ [] → Forall (λ w, safe_segment w = true) k → String.eqb (join_slash k) ".." || HasPrefix (join_slash k) "../" = false.
Proof.
  intros Hne Hs. assert (split_slash (join_slash k) = k) as Hk.
  { apply split_join; [done|]. eapply Forall_impl; [exact Hs|]. apply safe_no_slash. }
  assert (".." ∉ k) as Hu by (intros Hin; rw Forall_forall in Hs; by specialize (Hs _ Hin)).
  apply orb_false_iff. split.
  - apply String.eqb_neq. intros E. apply Hu. rw -Hk E. by left.
  - destruct (HasPrefix _ "../") eqn:E; [|done]. apply HasPrefix_spec in E as [t Ht]. exfalso. apply Hu. rw -Hk Ht.
    change ("../" +:+ t) with (".." +:+ String slash t). rw split_slash_app //. by left.
Qed.
Section guard.
Variables (quote : string → string) (root : string).
Hypothesis root_abs : IsAbs root = true.
Definition segments (reqPath : string) : list string := split_slash (replace_char backslash slash reqPath).
Lemma clean_segments s : ".." ∉ split_slash s → Clean ("/" +:+ TrimPrefix s "/") = render true (keep (split_slash s)).
Proof.
  intros Hu. rw clean_abs //. f_equal. unfold comps. change (IsAbs _) with true. change ("/" +:+ ?t) with ("" +:+ String slash t).
  rw split_slash_app_any. unfold TrimPrefix. change (String.length "/") with 1.
  assert (∀ t, ".." ∉ split_slash t → clean_components true (split_slash "" ++ split_slash t) = keep (split_slash t)) as Hc.
  { intros t Ht. unfold clean_components. cbn [split_slash app foldl clean_step]. change (clean_step true [] "") with (@nil string).
    rw foldl_clean_keep // app_nil_r rev_involutive //. }
  destruct (HasPrefix s "/") eqn:E; [|by apply Hc]. apply HasPrefix_spec in E as [t ->]. change ("/" +:+ t) with (String slash t) in *.
  cbn [drop_bytes]. change (String slash t) with ("" +:+ String slash t) in Hu |- *. rw split_slash_app_any in Hu |- *.
  cbn [split_slash app] in Hu |- *. apply not_elem_of_cons in Hu as [_ Hu]. rw Hc //.
Qed.
(** The guard accepts exactly the paths without a segment that goes up, and
    answers the path below the root made of their ordinary segments. *)
Lemma resolve_exact reqPath :
  resolve quote root reqPath =
    if one_of ".." (segments reqPath) then Err (escaping quote reqPath)
    else Ok (render true (comps root ++ keep (segments reqPath))).
Proof.
  unfold resolve. rw Split1_slash. fold (segments reqPath). destruct (one_of ".." (segments reqPath)) eqn:E; [done|].
  assert (Hu : ".." ∉ segments reqPath) by (intros H%one_of_elem; congruence).
  rw clean_segments //. fold (segments reqPath). set (k := keep (segments reqPath)).
  assert (Hk : Forall (λ w, safe_segment w = true) k) by (apply keep_safe; [done|apply split_slash_no_slash]).
  pose proof (comps_shape root) as Hr. rw root_abs in Hr. pose proof (clean_shape_app _ _ _ Hr Hk) as Hsh.
  assert (Hne : root ≠ "") by (intros ->; discriminate root_abs).
  assert (Hj : Join [root; render true k] = render true (comps root ++ k)).
  { rw Join_two // clean_abs; [|by destruct root]. f_equal. unfold comps at 1.
    rw (_ : IsAbs (root +:+ String slash (render true k)) = true); [|by destruct root]. rw split_slash_app_any split_render; [|by exists 0, k].
    unfold clean_components. rw foldl_app. destruct k as [|w k'].
    - cbn [foldl]. change (clean_step true ?o "") with o. unfold comps, clean_components. rw root_abs. by rw app_nil_r.
    - change (foldl ?f ?o ("" :: w :: k')) with (foldl f o (w :: k')). rw foldl_clean_safe // rev_app_distr rev_involutive. unfold comps, clean_components. by rw root_abs. }
  rw Hj. assert (Hc : comps (render true (comps root ++ k)) = comps root ++ k ∧ IsAbs (render true (comps root ++ k)) = true).
  { destruct (comps root ++ k) as [|c cs]; [done|]. by destruct (render_comps true (c :: cs)). }
  destruct Hc as [Hc Ha]. unfold Rel. rw root_abs Ha Hc. cbn [Bool.eqb negb].
  assert (Hstrip : ∀ a b, strip_common a (a ++ b) = ([], b)).
  { intros a b. induction a as [|x a IH]; [by destruct b|]. cbn. by rw String.eqb_refl. }
  rw Hstrip. destruct k as [|w k']; [done|]. by rw safe_join_not_up.
Qed.
Lemma resolve_inside reqPath abs :
  resolve quote root reqPath = Ok abs → IsAbs abs = true ∧
  ∃ ws, Forall (λ w, safe_segment w = true) ws ∧ comps abs = comps root ++ ws ∧ abs = render true (comps root ++ ws).
Proof.
  rw resolve_exact. destruct (one_of _ _) eqn:E; [done|]. intros [= <-]. set (k := keep _).
  assert (Hk : Forall (λ w, safe_segment w = true) k).
  { apply keep_safe; [|apply split_slash_no_slash]. intros H%one_of_elem. congruence. }
  assert (Hc : comps (render true (comps root ++ k)) = comps root ++ k ∧ IsAbs (render true (comps root ++ k)) = true).
  { pose proof (comps_shape root) as Hr. rw root_abs in Hr. pose proof (clean_shape_app _ _ _ Hr Hk) as Hsh.
    destruct (comps root ++ k) as [|c cs]; [done|]. by destruct (render_comps true (c :: cs)). }
  destruct Hc as [Hc Ha]. split; [done|]. by exists k.
Qed.
End guard.

(** ** The tree *)
Lemma entry_set_same name m es : entry_of name (set_entry name m es) = Some m.
Proof.
  induction es as [|[k v] es IH]; cbn; [by rw String.eqb_refl|]. destruct (String.eqb_spec k name) as [->|Hk]; cbn.
  - by rw String.eqb_refl.
  - destruct (String.leb name k); cbn; [by rw String.eqb_refl|]. apply String.eqb_neq in Hk. by rw Hk.
Qed.
Lemma entry_set_other name other m es : other ≠ name → entry_of other (set_entry name m es) = entry_of other es.
Proof.
  intros Hne. assert (String.eqb name other = false) as Hf by (apply String.eqb_neq; congruence).
  induction es as [|[k v] es IH]; cbn; [by rw Hf|]. destruct (String.eqb_spec k name) as [->|Hk]; cbn.
  - by rw Hf.
  - destruct (String.leb name k); cbn; [by rw Hf|]. by rw IH.
Qed.
Lemma entry_drop_other name other es : other ≠ name → entry_of other (drop_entry name es) = entry_of other es.
Proof.
  intros Hne. induction es as [|[k v] es IH]; [done|]. unfold drop_entry. cbn [entry_of].
  destruct (decide (k = name)) as [->|Hk].
  - rw filter_cons_False; [|naive_solver]. fold (drop_entry name es). rw IH. destruct (String.eqb_spec name other); congruence.
  - rw filter_cons_True //. cbn [entry_of]. fold (drop_entry name es). by rw IH.
Qed.
Lemma entry_drop_same name es : entry_of name (drop_entry name es) = None.
Proof.
  induction es as [|[k v] es IH]; [done|]. unfold drop_entry. destruct (decide (k = name)) as [->|Hk].
  - rw filter_cons_False; [done|naive_solver].
  - rw filter_cons_True //. cbn [entry_of]. apply String.eqb_neq in Hk. by rw Hk.
Qed.
Definition unrelated (a b : list string) : Prop := ¬ a `prefix_of` b ∧ ¬ b `prefix_of` a.
Lemma unrelated_cons x a b : unrelated (x :: a) (x :: b) → unrelated a b.
Proof. intros [H1 H2]. split; intros H; [apply H1|apply H2]; by apply prefix_cons. Qed.
Lemma find_create_other cs d n n' cs' : create_in cs d n = Some n' → unrelated cs cs' → find_in cs' n' = find_in cs' n.
Proof.
  revert n n' cs'. induction cs as [|c cs IH]; intros n n' cs'; [intros _ [H _]; destruct H; apply prefix_nil|].
  cbn [create_in]. destruct n as [|es|]; [done| |done]. destruct cs' as [|c' cs']; [intros _ [_ H]; destruct H; apply prefix_nil|].
  intros H Hu. destruct (decide (c' = c)) as [-> |Hne].
  - apply unrelated_cons in Hu. destruct (entry_of c es) as [m|] eqn:E.
    + destruct (create_in cs d m) as [m'|] eqn:Em; [|done]. injection H as <-. cbn [find_in]. rw entry_set_same E. cbn. by eapply IH.
    + destruct cs; [|done]. destruct Hu as [H' _]. destruct H'. apply prefix_nil.
  - destruct (entry_of c es) as [m|]; [destruct (create_in cs d m) as [m'|]; [|done]|destruct cs; [|done]];
      injection H as <-; cbn [find_in]; by rw entry_set_other.
Qed.
Lemma find_mkdir_other cs n n' cs' : mkdir_in cs n = Some n' → ¬ cs' `prefix_of` cs → find_in cs' n' = find_in cs' n.
Proof.
  revert n n' cs'. induction cs as [|c cs IH]; intros n n' cs' H Hp.
  { cbn in H. destruct n; [done|by injection H as <-|done]. }
  cbn [mkdir_in] in H. destruct n as [|es|]; [done| |done]. destruct cs' as [|c' cs']; [destruct Hp; apply prefix_nil|].
  destruct (mkdir_in cs _) as [m'|] eqn:E; [|done]. injection H as <-. cbn [find_in].
  destruct (decide (c' = c)) as [-> |Hne]; [|by rw entry_set_other].
  rw entry_set_same. cbn. assert (¬ cs' `prefix_of` cs) as Hp' by (intros H; apply Hp; by apply prefix_cons).
  rw (IH _ _ _ E Hp'). destruct (entry_of c es) as [m|]; [done|]. cbn. destruct cs'; [by destruct Hp'; apply prefix_nil|done].
Qed.
Lemma find_remove_other left cs n cs' : unrelated cs cs' → find_in cs' (remove_in left cs n) = find_in cs' n.
Proof.
  revert n cs'. induction cs as [|c cs IH]; intros n cs' Hu; [done|].
  cbn [remove_in]. destruct n as [|es|]; [done| |done]. destruct cs' as [|c' cs']; [destruct Hu as [_ H]; destruct H; apply prefix_nil|].
  destruct (entry_of c es) as [m|] eqn:E; [|done]. destruct (decide (c' = c)) as [-> |Hne].
  - apply unrelated_cons in Hu. destruct cs as [|c2 cs]; [destruct Hu as [H _]; destruct H; apply prefix_nil|].
    cbn [find_in]. rw entry_set_same E. cbn. by apply IH.
  - destruct cs as [|c2 cs]; [destruct left|]; cbn [find_in]; by rw ?entry_set_other ?entry_drop_other.
Qed.
Lemma find_create_same cs d n n' : create_in cs d n = Some n' → ∃ m, find_in cs n' = Some m ∧ is_dir m = false ∧ content_of m = d ∧ ∀ e, m ≠ NLink (Err e).
Proof.
  revert n n'. induction cs as [|c cs IH]; intros n n'; cbn [create_in].
  - destruct n; [|done|]; intros [= <-]; by eexists.
  - destruct n as [|es|]; [done| |done]. destruct (entry_of c es) as [m|] eqn:E.
    + destruct (create_in cs d m) as [m'|] eqn:Em; [|done]. intros [= <-]. cbn [find_in]. rw entry_set_same. cbn. by eapply IH.
    + destruct cs; [|done]. intros [= <-]. cbn [find_in]. rw entry_set_same. by eexists.
Qed.

(** ** Links *)
Lemma linked_find cs n : linked cs n = true → ∃ pre e, pre `prefix_of` cs ∧ find_in pre n = Some (NLink e).
Proof.
  revert n. induction cs as [|c cs IH]; intros [d|es|e]; cbn; try done.
  - intros _. by exists [], e.
  - destruct (entry_of c es) as [m|] eqn:E; [|done]. intros (pre & e & Hp & Hf)%IH. exists (c :: pre), e. split; [by apply prefix_cons|].
    cbn [find_in]. by rw E.
  - intros _. exists [], e. split; [apply prefix_nil|done].
Qed.
Lemma linked_prefix cs cs' n : cs `prefix_of` cs' → linked cs' n = false → linked cs n = false.
Proof.
  revert n cs'. induction cs as [|c cs IH]; intros [d|es|e] cs' Hp H; try done; destruct cs' as [|c' cs']; try done;
    [by apply prefix_nil_not in Hp|]. pose proof (prefix_cons_inv_1 _ _ _ _ Hp) as ->. apply prefix_cons_inv_2 in Hp.
  cbn in H |- *. destruct (entry_of c' es) as [m|]; [|done]. by eapply IH.
Qed.
Lemma removelast_prefix (cs : list string) : removelast cs `prefix_of` cs.
Proof. induction cs as [|c [|c' cs] IH]; [done|apply prefix_nil|]. change (removelast (c :: c' :: cs)) with (c :: removelast (c' :: cs)). by apply prefix_cons. Qed.
Lemma mkdir_links cs n n' : mkdir_in cs n = Some n' → ∀ cs' e, find_in cs' n' = Some (NLink e) → find_in cs' n = Some (NLink e).
Proof.
  revert n n'. induction cs as [|c cs IH]; intros n n' H cs' e Hf.
  { cbn in H. destruct n; [done|by injection H as <-|done]. }
  cbn [mkdir_in] in H. destruct n as [|es|]; [done| |done]. destruct (mkdir_in cs _) as [m'|] eqn:E; [|done]. injection H as <-.
  destruct cs' as [|c' cs']; [done|]. cbn [find_in] in Hf |- *. destruct (decide (c' = c)) as [->|Hne]; [|by rw entry_set_other in Hf].
  rw entry_set_same in Hf. cbn in Hf. specialize (IH _ _ E _ _ Hf). destruct (entry_of c es) as [m|]; [done|]. cbn in IH. by destruct cs'.
Qed.
Lemma create_links cs d n n' : linked cs n = false → create_in cs d n = Some n' →
  ∀ cs' e, find_in cs' n' = Some (NLink e) → find_in cs' n = Some (NLink e).
Proof.
  revert n n'. induction cs as [|c cs IH]; intros n n' Hl H cs' e Hf.
  { cbn in H. destruct n; [|done|done]. injection H as <-. by destruct cs'. }
  cbn [create_in] in H. destruct n as [|es|]; [done| |done]. cbn in Hl. destruct cs' as [|c' cs'].
  { destruct (entry_of c es) as [m|]; [destruct (create_in cs d m)|destruct cs]; try done; by injection H as <-. }
  cbn [find_in]. destruct (entry_of c es) as [m|] eqn:E.
  - destruct (create_in cs d m) as [m'|] eqn:Em; [|done]. injection H as <-. cbn [find_in] in Hf.
    destruct (decide (c' = c)) as [->|Hne]; [|by rw entry_set_other in Hf].
    rw entry_set_same in Hf. rw E. cbn in Hf |- *. by eapply IH.
  - destruct cs; [|done]. injection H as <-. cbn [find_in] in Hf. destruct (decide (c' = c)) as [->|Hne]; [|by rw entry_set_other in Hf].
    rw entry_set_same in Hf. cbn in Hf. by destruct cs'.
Qed.
(** a file that was written is reached without a link *)
Lemma create_unlinked cs d n n' : linked cs n = false → create_in cs d n = Some n' → linked cs n' = false.
Proof.
  revert n n'. induction cs as [|c cs IH]; intros n n' Hl H; cbn [create_in] in H.
  - destruct n; [|done|done]. by injection H as <-.
  - destruct n as [|es|]; [done| |done]. cbn in Hl. destruct (entry_of c es) as [m|].
    + destruct (create_in cs d m) as [m'|] eqn:Em; [|done]. injection H as <-. cbn. rw entry_set_same. by eapply IH.
    + destruct cs; [|done]. injection H as <-. cbn. by rw entry_set_same.
Qed.
Lemma mkdir_unlinked cs n n' cs' : mkdir_in cs n = Some n' → linked cs' n = false → linked cs' n' = false.
Proof.
  intros Hm Hl. destruct (linked cs' n') eqn:E; [|done]. apply linked_find in E as (pre & e & Hp & Hf).
  apply (mkdir_links _ _ _ Hm) in Hf. apply (linked_prefix _ _ _ Hp) in Hl. clear -Hf Hl. revert n Hf Hl.
  induction pre as [|c pre IH]; intros n; cbn; [intros [= ->]; done|]. destruct n as [|es|]; [done| |done].
  cbn. destruct (entry_of c es) as [m|]; [|done]. apply IH.
Qed.

(** ** Confinement *)
Section confined.
Variables (h : fhost) (root : string).
Hypothesis root_abs : IsAbs root = true.
Hypothesis root_clean : Clean root = root.
Definition rel_of (ws : list string) : string := match ws with [] => "." | _ => join_slash ws end.
(** the commands run in the working directory; a path argument is "." or goes down *)
Definition git_request (args : list string) : Prop :=
  args ∈ [["diff"; "--numstat"; "HEAD"; "--"]; ["status"; "--porcelain=v1"; "--untracked-files=all"];
          ["rev-parse"; "--abbrev-ref"; "HEAD"]; ["rev-parse"; "--verify"; "HEAD"]] ∨
  ∃ n ws, (0 ≤ n ≤ 100)%Z ∧ Forall (λ w, safe_segment w = true) ws ∧
    args ∈ [["diff"; "--no-ext-diff"; unified n; "HEAD"; "--"; rel_of ws]; ["ls-files"; "--error-unmatch"; "--"; rel_of ws];
            ["diff"; "--no-index"; "--no-ext-diff"; unified n; "--"; "/dev/null"; rel_of ws]].
Definition confined (op : fop) : Prop :=
  match op with
  | OStat p | OOpen p | OReadDir p | OCreate p => inside root p
  | OMkdirAll p => inside root p ∨ p = Dir root
  | ORemoveAll p => within root p
  | OGit args => git_request args
  end.
(** no symbolic link on the way to the working directory or below it *)
Definition no_links (d : node) : Prop := ∀ cs e, find_in cs d = Some (NLink e) → unrelated (comps root) cs.
Definition keeps {A} (m : F A) : Prop := ∀ s a s', m s = (a, s') → no_links (fs_disk s) → no_links (fs_disk s').
Definition stays {A} (m : F A) : Prop := ∀ s a s', m s = (a, s') →
  (∃ ops, fs_trace s' = fs_trace s ++ ops ∧ Forall confined ops) ∧
  (no_links (fs_disk s) → ∀ cs, unrelated (comps root) cs → find_in cs (fs_disk s') = find_in cs (fs_disk s)).
Lemma stays_ret {A} (a : A) : stays (mret a).
Proof. intros s a' s' [= <- <-]. split; [exists []; by rw app_nil_r|done]. Qed.
Lemma keeping_ret {A} (a : A) : keeps (mret a).
Proof. by intros s a' s' [= <- <-]. Qed.
Lemma keeping_bind {A B} (m : F A) (f : A → F B) : keeps m → (∀ a, keeps (f a)) → keeps (m ≫= f).
Proof. intros Hm Hf s b s' H Hn. unfold mbind, F_bind in H. destruct (m s) as [a s1] eqn:E. eapply Hf; [exact H|]. by eapply Hm. Qed.
Lemma stays_bind {A B} (m : F A) (f : A → F B) : stays m → keeps m → (∀ a, stays (f a)) → stays (m ≫= f).
Proof.
  intros Hm Hk Hf s b s' H. unfold mbind, F_bind in H. destruct (m s) as [a s1] eqn:E.
  destruct (Hm _ _ _ E) as [(o1 & T1 & C1) D1]. destruct (Hf a _ _ _ H) as [(o2 & T2 & C2) D2]. split.
  - exists (o1 ++ o2). rw T2 T1 app_assoc. split; [done|by apply Forall_app].
  - intros Hn cs Hcs. rw D2 // ?D1 //. by eapply Hk.
Qed.
Lemma stays_syscall {A} op (act : node → result A * node) :
  confined op → (∀ d cs, no_links d → unrelated (comps root) cs → find_in cs (act d).2 = find_in cs d) → stays (syscall h op act).
Proof.
  intros Hop Hact s a s'. unfold syscall. cbn zeta. destruct (fh_io h op); cbn [fs_disk].
  - intros [= <- <-]. split; [exists [op]; split; [done|by constructor]|done].
  - destruct (act _) as [r d] eqn:E. intros [= <- <-]. split; [exists [op]; split; [done|by constructor]|].
    intros Hn cs Hcs. change (find_in cs d = find_in cs (fs_disk s)). assert (act (fs_disk s) = (r, d)) as E' by exact E.
    by rw -(Hact (fs_disk s) cs Hn Hcs) E'.
Qed.
Lemma keeps_syscall {A} op (act : node → result A * node) : (∀ d, no_links d → no_links (act d).2) → keeps (syscall h op act).
Proof.
  intros Hact s a s'. unfold syscall. cbn zeta. destruct (fh_io h op); cbn [fs_disk]; [by intros [= <- <-]|].
  destruct (act _) as [r d] eqn:E. intros [= <- <-] Hn. assert (act (fs_disk s) = (r, d)) as E' by exact E.
  specialize (Hact _ Hn). by rw E' in Hact.
Qed.
Lemma no_links_linked d ws : no_links d → linked (comps root ++ ws) d = false.
Proof.
  intros Hn. destruct (linked _ d) eqn:E; [|done]. apply linked_find in E as (pre & e & Hp & Hf). apply Hn in Hf as [H1 H2].
  destruct (prefix_weak_total pre (comps root) (comps root ++ ws)) as [?|?]; [done|by apply prefix_app_r|done|done].
Qed.
Lemma unrelated_below ws cs : unrelated (comps root) cs → unrelated (comps root ++ ws) cs.
Proof.
  intros [H1 H2]. split; [intros H; apply H1; etrans; [|exact H]; by apply prefix_app_r|].
  intros H. destruct (prefix_weak_total cs (comps root) (comps root ++ ws)) as [?|?]; [done|by apply prefix_app_r|done|done].
Qed.
Lemma dir_comps abs ws :
  Forall (λ w, safe_segment w = true) ws → comps abs = comps root ++ ws → abs = render true (comps root ++ ws) →
  (inside root (Dir abs) ∨ Dir abs = Dir root) ∧ comps (Dir abs) `prefix_of` comps abs.
Proof.
  intros ws_safe abs_comps abs_eq.
  destruct ws as [|w l _] using rev_ind.
  - rw app_nil_r in abs_eq. rw -clean_abs // root_clean in abs_eq. split; [right; by rw abs_eq|].
    pose proof (comps_shape root) as Hr. rw root_abs in Hr. assert (root = render true (comps root)) as Hroot by (rw -clean_abs //).
    rw abs_eq. destruct (comps root) as [|c cs _] eqn:Ec using rev_ind; [rw Hroot; done|].
    destruct (Dir_render cs c) as [H _]; [done|]. rw -Hroot in H. rw H. by apply prefix_app_r.
  - split; [left; eapply (Dir_inside root abs (l ++ [w])); [done|by destruct l|done|by rw root_abs]|].
    pose proof (comps_shape root) as Hr. rw root_abs in Hr.
    assert (clean_shape true ((comps root ++ l) ++ [w])) as Hsh by (rw -app_assoc; by apply clean_shape_app).
    rw app_assoc in abs_eq. destruct (Dir_render _ _ Hsh) as [H _]. rw -abs_eq in H. rw H abs_comps app_assoc. by apply prefix_app_r.
Qed.
Context (abs : string) (ws : list string).
Hypothesis ws_safe : Forall (λ w, safe_segment w = true) ws.
Hypothesis abs_abs : IsAbs abs = true.
Hypothesis abs_comps : comps abs = comps root ++ ws.
Hypothesis abs_eq : abs = render true (comps root ++ ws).
Lemma abs_inside : inside root abs.
Proof. split; [congruence|]. by exists ws. Qed.
Lemma unlinked d : no_links d → linked (comps abs) d = false.
Proof. rw abs_comps. apply no_links_linked. Qed.
Lemma stays_stat : stays (stat h abs).
Proof. apply stays_syscall; [apply abs_inside|done]. Qed.
Lemma stays_open : stays (open h abs).
Proof. apply stays_syscall; [apply abs_inside|done]. Qed.
Lemma stays_readDir : stays (readDir h abs).
Proof. apply stays_syscall; [apply abs_inside|done]. Qed.
Lemma keeps_reads : keeps (stat h abs) ∧ keeps (open h abs) ∧ keeps (readDir h abs).
Proof. split_and!; by apply keeps_syscall. Qed.
Lemma stays_create data : stays (create h abs data).
Proof.
  apply stays_syscall; [apply abs_inside|]. intros d cs Hn Hcs. rw unlinked //. destruct (create_in (comps abs) data d) as [d'|] eqn:E; [|done].
  cbn. eapply find_create_other; [exact E|]. rw abs_comps. by apply unrelated_below.
Qed.
Lemma dir_unlinked d : no_links d → linked (comps (Dir abs)) d = false.
Proof. intros Hn. destruct (dir_comps abs ws) as [_ Hp]; [done..|]. eapply linked_prefix; [exact Hp|by apply unlinked]. Qed.
Lemma stays_mkdir : stays (mkdirAll h (Dir abs)).
Proof.
  destruct (dir_comps abs ws) as [Hd Hp]; [done..|]. apply stays_syscall; [done|]. intros d cs Hn Hcs. rw dir_unlinked //.
  destruct (mkdir_in (comps (Dir abs)) d) as [d'|] eqn:E; [|done]. cbn. eapply find_mkdir_other; [exact E|].
  intros H. apply (unrelated_below ws) in Hcs as [_ Hcs]. apply Hcs. rw -abs_comps. by etrans.
Qed.
Lemma keeps_mkdir : keeps (mkdirAll h (Dir abs)).
Proof.
  apply keeps_syscall. intros d Hn. rw dir_unlinked //. destruct (mkdir_in (comps (Dir abs)) d) as [d'|] eqn:E; [|done].
  intros cs e Hf. eapply Hn. by eapply mkdir_links.
Qed.
Lemma stays_remove : abs ≠ root → stays (removeAll h abs).
Proof.
  intros Hne s a s'. assert (confined (ORemoveAll abs)) as Hop.
  { exists ws. split_and!; [|done|congruence|done]. intros E. apply Hne. rw abs_eq E app_nil_r -clean_abs //. }
  assert (∀ left cs, unrelated (comps root) cs → find_in cs (remove_in left (comps abs) (fs_disk s)) = find_in cs (fs_disk s)) as Hr.
  { intros left cs Hcs. apply find_remove_other. rw abs_comps. by apply unrelated_below. }
  assert (no_links (fs_disk s) → linked_above (comps abs) (fs_disk s) = false) as Hla.
  { intros Hn. eapply linked_prefix; [|by apply unlinked]. apply removelast_prefix. }
  unfold removeAll. cbn zeta. cbn [fs_disk]. destruct (linked_above _ _) eqn:El.
  - destruct (fh_linkAct h _ _) as [r d]. intros [= <- <-]. split; [exists [ORemoveAll abs]; split; [done|by constructor]|].
    intros Hn. by specialize (Hla Hn).
  - destruct (fh_io h _); [destruct (fh_left h abs)|]; intros [= <- <-];
      (split; [exists [ORemoveAll abs]; split; [done|by constructor]|intros _ cs Hcs; cbn; try done; by apply Hr]).
Qed.
End confined.
Section handlers.
Variables (h : fhost) (root : string).
Hypothesis root_abs : IsAbs root = true.
Hypothesis root_clean : Clean root = root.
Local Abbreviation stays := (stays root).
Lemma stays_text status s : stays (text status s).
Proof. apply stays_ret. Qed.
Lemma stays_git args : git_request args → stays (git h args).
Proof. intros Ha s a s' [= <- <-]. split; [exists [OGit args]; split; [done|by constructor]|done]. Qed.
Ltac fixed := apply stays_git; left; rw !elem_of_cons; tauto.
Lemma keeps_git args : keeps root (git h args).
Proof. by intros s a s' [= <- <-]. Qed.
Lemma stays_changes : stays (handleGitChanges h).
Proof.
  unfold handleGitChanges, gitNumstat. apply stays_bind; [fixed|apply keeps_git|intros r]. destruct (negb r.2); [apply stays_ret|].
  apply stays_bind; [apply stays_bind; [fixed|apply keeps_git|intros ?; apply stays_ret]|apply keeping_bind; [apply keeps_git|intros ?; apply keeping_ret]|intros stats].
  apply stays_bind; [fixed|apply keeps_git|intros branch]. apply stays_bind; [fixed|apply keeps_git|intros commit]. apply stays_ret.
Qed.
Lemma context_lines_bounds raw : (0 ≤ context_lines raw ≤ 100)%Z.
Proof. unfold context_lines. destruct (String.eqb raw ""); [lia|]. destruct (Atoi raw) as [v []]; lia. Qed.
Lemma root_self : comps root = comps root ++ [] ∧ root = render true (comps root ++ []).
Proof. rw app_nil_r. split; [done|]. rw -clean_abs //. Qed.
Lemma Rel_root abs ws :
  IsAbs abs = true → comps abs = comps root ++ ws → Rel root abs = Some (rel_of ws).
Proof.
  intros Ha Hc. unfold Rel. rw root_abs Ha Hc. cbn [Bool.eqb negb].
  assert (Hstrip : ∀ a b, strip_common a (a ++ b) = ([], b)).
  { intros a b. induction a as [|x a IH]; [by destruct b|]. cbn. by rw String.eqb_refl. }
  rw Hstrip. by destruct ws.
Qed.
Lemma stays_diff req : stays (handleGitDiff h root req).
Proof.
  unfold handleGitDiff. destruct (String.eqb _ ""); [apply stays_ret|].
  destruct (resolve _ root _) as [abs|e] eqn:E; [|apply stays_ret].
  apply resolve_inside in E as (Ha & ws & Hs & Hc & He); [|done]. rw (Rel_root abs ws) //.
  pose proof (context_lines_bounds (TrimSpace (rq_query req "context_lines"))) as Hn.
  set (n := context_lines _) in *. clearbody n.
  assert (Hg : ∀ args, args ∈ [["diff"; "--no-ext-diff"; unified n; "HEAD"; "--"; rel_of ws]; ["ls-files"; "--error-unmatch"; "--"; rel_of ws];
            ["diff"; "--no-index"; "--no-ext-diff"; unified n; "--"; "/dev/null"; rel_of ws]] → stays (git h args)).
  { intros args Hin. apply stays_git. right. by exists n, ws. }
  destruct (keeps_reads h root abs) as (Hks & _ & _).
  apply stays_bind; [apply Hg; rw !elem_of_cons; tauto|apply keeps_git|intros r]. destruct (negb r.2); [apply stays_ret|].
  apply stays_bind; [| |intros out; apply stays_ret].
  - destruct (negb _); [apply stays_ret|].
    apply stays_bind; [by eapply stays_stat|done|intros st]. destruct st as [n0|e]; [|apply stays_ret].
    apply stays_bind; [apply Hg; rw !elem_of_cons; tauto|apply keeps_git|intros tracked]. destruct (String.eqb _ ""); [|apply stays_ret].
    apply stays_bind; [apply Hg; rw !elem_of_cons; tauto|apply keeps_git|intros d; apply stays_ret].
  - destruct (negb _); [apply keeping_ret|]. apply keeping_bind; [done|intros st]. destruct st as [n0|e]; [|apply keeping_ret].
    apply keeping_bind; [apply keeps_git|intros tracked]. destruct (String.eqb _ ""); [|apply keeping_ret].
    apply keeping_bind; [apply keeps_git|intros d; apply keeping_ret].
Qed.
Lemma stays_archive req : stays (handleArchive h root req).
Proof.
  unfold handleArchive. destruct (if String.eqb _ "" then _ else _) as [top|e] eqn:E; [|apply stays_ret].
  assert (IsAbs top = true ∧ ∃ ws, Forall (λ w, safe_segment w = true) ws ∧ comps top = comps root ++ ws ∧ top = render true (comps root ++ ws))
    as (Ha & ws & Hs & Hc & He).
  { destruct (String.eqb _ ""); [|by eapply resolve_inside]. assert (top = root) as -> by congruence. destruct root_self as [H1 H2].
    split; [done|]. by exists []. }
  destruct (keeps_reads h root top) as (Hk1 & _ & Hk2).
  apply stays_bind; [by eapply stays_stat|done|intros r]. destruct r as [[]|]; try apply stays_ret.
  apply stays_bind; [by eapply stays_readDir|done|intros r; apply stays_ret].
Qed.
Lemma stays_handle req : stays (handle h root req).
Proof.
  unfold handle, get_only. destruct (String.eqb (rq_path req) archivePath).
  { destruct (String.eqb _ "GET"); [apply stays_archive|apply stays_ret]. }
  destruct (String.eqb (rq_path req) gitChangesPath); [destruct (String.eqb _ "GET"); [apply stays_changes|apply stays_ret]|].
  destruct (String.eqb (rq_path req) gitDiffPath); [destruct (String.eqb _ "GET"); [apply stays_diff|apply stays_ret]|].
  destruct (resolve _ root _) as [abs|e] eqn:E; [|apply stays_ret].
  apply resolve_inside in E as (Ha & ws & Hs & Hc & He); [|done].
  destruct (String.eqb (rq_method req) "GET").
  { destruct (keeps_reads h root abs) as (Hk1 & Hk2 & Hk3).
    unfold handleGet, listDir. apply stays_bind; [by eapply stays_stat|done|intros r]. destruct r as [[]|]; try apply stays_ret.
    all: (apply stays_bind; [first [by eapply stays_open|by eapply stays_readDir]|done|intros r; destruct r; apply stays_ret]). }
  destruct (one_of _ _).
  { unfold handlePut. apply stays_bind; [by eapply stays_mkdir|by eapply keeps_mkdir|intros r]. destruct r; [|apply stays_ret].
    intros s b0 s' H. unfold mbind, F_bind in H. destruct (create h abs (rq_body req).1 s) as [b s1] eqn:Ec.
    assert (s' = s1) as -> by (by destruct b; [destruct (rq_body req).2|]; injection H). by eapply stays_create. }
  destruct (String.eqb (rq_method req) "DELETE"); [|apply stays_ret].
  unfold handleDelete. destruct (String.eqb_spec abs root) as [|Hne]; [apply stays_ret|].
  intros s b0 s' H. unfold mbind, F_bind in H. destruct (removeAll h abs s) as [b s1] eqn:Ec.
  assert (s' = s1) as -> by (by destruct b; injection H). by eapply stays_remove.
Qed.
End handlers.


(** ** Uploads *)
(** C30: When no file operation of the system fails and no symbolic link lies on
    the path, a file stored through the service (status 204), at a path other
    than the three the service reserves for archives and git, is read back
    byte for byte by the next request for the same path, and nothing at any
    other path changes, apart from directories created on the way. *)
Theorem file_put_get h root method path query query' data s r s' :
  IsAbs root = true → Clean root = root → method ∈ ["PUT"; "POST"] →
  path ≠ archivePath → path ≠ gitChangesPath → path ≠ gitDiffPath →
  (∀ op, fh_io h op = None) →
  (∀ abs, resolve (fh_quote h) root path = Ok abs → linked (comps abs) (fs_disk s) = false) →
  handle h root (mkReq method path query (data, None)) s = (r, s') → re_status r = 204%Z →
  (∃ s2, handle h root (mkReq "GET" path query' ("", None)) s' = (mkRes 200 (BBytes data), s2) ∧ fs_disk s2 = fs_disk s') ∧
  (∃ abs, resolve (fh_quote h) root path = Ok abs ∧
     ∀ cs, unrelated (comps abs) cs → find_in cs (fs_disk s') = find_in cs (fs_disk s)).
Proof.
  intros Ha Hc Hm Hp1 Hp2 Hp3 Hio Hnl. apply String.eqb_neq in Hp1, Hp2, Hp3. unfold handle. cbn [rq_path rq_method]. rw Hp1 Hp2 Hp3.
  destruct (resolve (fh_quote h) root path) as [abs|e] eqn:E; [|intros [= <- <-]; done]. specialize (Hnl abs eq_refl).
  assert (String.eqb method "GET" = false ∧ one_of method ["PUT"; "POST"] = true) as [-> ->].
  { rw !elem_of_cons in Hm. destruct Hm as [-> |[-> |?%not_elem_of_nil]]; done. }
  change (String.eqb "GET" "GET") with true. cbn match.
  apply resolve_inside in E as (Habs & ws & Hs & Hcs & He); [|done].
  destruct (dir_comps root Ha Hc abs ws Hs Hcs He) as [_ Hpre].
  unfold handlePut, mkdirAll, create, syscall, mbind, F_bind, text, mret, F_ret. cbn. rw ?Hio. cbn. rw (linked_prefix _ _ _ Hpre Hnl).
  destruct (mkdir_in (comps (Dir abs)) (fs_disk s)) as [d1|] eqn:E1; [|intros [= <- <-]; done]. rw ?Hio. cbn.
  pose proof (mkdir_unlinked _ _ _ _ E1 Hnl) as Hnl1. rw Hnl1.
  destruct (create_in (comps abs) data d1) as [d2|] eqn:E2; [|intros [= <- <-]; done]. intros [= <- <-] _. split.
  - destruct (find_create_same _ _ _ _ E2) as (m & Hm' & Hdir & Hcont & Herr). pose proof (create_unlinked _ _ _ _ Hnl1 E2) as Hnl2.
    unfold handleGet, stat, open, syscall, mbind, F_bind, mret, F_ret. cbn. rw ?Hio. cbn. rw Hnl2 Hm'.
    destruct m as [d|es|[d|e]]; [|done| |by destruct (Herr e)];
      cbn; rw ?Hio; cbn; rw ?Hnl2 Hm'; cbn in Hcont |- *; subst d; by eexists.
  - exists abs. split; [done|]. intros cs Hu. cbn. rw (find_create_other _ _ _ _ _ E2 Hu).
    apply (find_mkdir_other _ _ _ _ E1). intros H. destruct Hu as [_ Hu]. apply Hu. by etrans.
Qed.

(** ** The list of changes *)
(** a character git prints as it is: visible ASCII, neither a quote nor part of the arrow *)
Definition path_char (c : ascii) : bool := in_range 33 126 c && negb (is_code 34 c) && negb (is_code 62 c).
Definition plain_path (p : string) : bool := negb (String.eqb p "") && all_chars path_char p.
Lemma ascii_cases (P : ascii → bool) : forallb (λ n, P (ascii_of_nat n)) (seq 0 256) = true → ∀ c, P c = true.
Proof.
  intros H c. rw forallb_forall in H. rewrite <- (ascii_nat_embedding c). apply H. apply in_seq.
  pose proof (nat_ascii_bounded c). lia.
Qed.
Lemma path_char_facts c : path_char c = true → space1 c = false ∧ is_code 10 c = false ∧ is_code 13 c = false ∧ is_code 34 c = false ∧ is_code 62 c = false.
Proof.
  intros H. pose proof (ascii_cases (λ c, implb (path_char c) (negb (space1 c || is_code 10 c || is_code 13 c || is_code 34 c || is_code 62 c)))
    ltac:(vm_compute; reflexivity) c) as Hc. cbn beta in Hc. rw H in Hc. cbn [implb] in Hc. go_bool. done.
Qed.
Lemma trim_leading_visible sp2 sp3 a s :
  path_char a = true → (∀ b, sp2 a b = false) → (∀ b c, sp3 a b c = false) → trim_leading sp2 sp3 (String a s) = String a s.
Proof.
  intros Ha H2 H3. apply path_char_facts in Ha as [Ha _]. cbn. rw Ha. destruct s as [|b s]; [done|]. rw H2. destruct s; [done|]. by rw H3.
Qed.
Lemma path_char_code c : path_char c = true → (33 ≤ code c ≤ 126)%N.
Proof. unfold path_char, in_range. intros H. go_bool. lia. Qed.
Lemma TrimSpace_visible s a s1 z s2 :
  s = String a s1 → string_reverse s = String z s2 → path_char a = true → path_char z = true → TrimSpace s = s.
Proof.
  intros Hs Hr Ha Hz. unfold TrimSpace, TrimLeftSpace. pose proof (path_char_code _ Ha). pose proof (path_char_code _ Hz).
  assert (trim_leading space2 space3 s = s) as ->.
  { rw Hs. apply trim_leading_visible; [done|intros b|intros b c]; unfold space2, space3, is_code, in_range in *.
    - apply andb_false_iff. left. apply N.eqb_neq. lia.
    - repeat (apply orb_false_iff; split); rw -?andb_assoc; apply andb_false_iff; left; apply N.eqb_neq; lia. }
  unfold TrimRightSpace. rw Hr trim_leading_visible; [by rw -Hr string_reverse_involutive|done| |];
    [intros b|intros b c]; unfold space2, space3, is_code, in_range in *.
  - apply andb_false_iff. right. apply orb_false_iff. split; apply N.eqb_neq; lia.
  - repeat (apply orb_false_iff; split); apply andb_false_iff; right; try (apply N.eqb_neq; lia).
    repeat (apply orb_false_iff; split); try (apply N.eqb_neq; lia). apply andb_false_iff. left. apply N.leb_gt. lia.
Qed.
Lemma TrimLeftChar_none c s : all_chars path_char s = true → path_char c = false → TrimLeftChar c s = s.
Proof. destruct s as [|a s]; [done|]. cbn. intros [Ha _]%andb_true_iff Hc. destruct (Ascii.eqb_spec a c) as [->|]; [congruence|done]. Qed.
Lemma TrimChar_none c s : all_chars path_char s = true → path_char c = false → TrimChar c s = s.
Proof.
  intros Hs Hc. unfold TrimChar, TrimRightChar. rw (TrimLeftChar_none c s) // TrimLeftChar_none //; [|by rw all_chars_rev].
  apply string_reverse_involutive.
Qed.
(** a non-empty path seen from its end *)
Lemma plain_rev p : plain_path p = true → ∃ z r, string_reverse p = String z r ∧ path_char z = true.
Proof.
  unfold plain_path. intros H. go_bool. rw -all_chars_rev in H0.
  destruct (string_reverse p) as [|z r] eqn:E; [|cbn in H0; apply andb_true_iff in H0 as [Hz _]; by exists z, r].
  assert (p = "") as -> by (rw -(string_reverse_involutive p) E //). done.
Qed.
Lemma plain_head p : plain_path p = true → ∃ a r, p = String a r ∧ path_char a = true.
Proof. unfold plain_path. intros H. go_bool. destruct p as [|a r]; [done|]. cbn in H0. apply andb_true_iff in H0 as [? _]. by exists a, r. Qed.
Lemma Index_arrow o p : all_chars path_char o = true → Index (o +:+ arrow +:+ p) arrow = Some (String.length o).
Proof.
  induction o as [|c o IH]; intros Ho; [by destruct p|]. cbn in Ho. apply andb_true_iff in Ho as [Hc Ho].
  change (String c o +:+ ?t) with (String c (o +:+ t)). cbn [Index String.length].
  assert (HasPrefix (String c (o +:+ arrow +:+ p)) arrow = false) as ->; [|by rw IH].
  apply path_char_facts in Hc as [Hc _]. cbn [HasPrefix arrow]. destruct (Ascii.eqb_spec " " c) as [<-|]; [done|done].
Qed.
Lemma Index_no_arrow p : all_chars path_char p = true → Index p arrow = None.
Proof.
  induction p as [|c p IH]; intros Hp; [done|]. cbn in Hp. apply andb_true_iff in Hp as [Hc Hp].
  apply path_char_facts in Hc as [Hc _]. cbn [Index]. rw IH //. cbn [HasPrefix arrow]. by destruct (Ascii.eqb_spec " " c) as [<-|].
Qed.

(** git's short format: the two status letters, then the path, or both paths of a rename *)
Record change := mkChg { ch_xy : string; ch_old : option string; ch_path : string }.
Definition print_change (c : change) : string :=
  ch_xy c +:+ " " +:+ (match ch_old c with Some o => o +:+ arrow | None => "" end) +:+ ch_path c.
Definition print_changes (l : list change) : string :=
  match l with [] => "" | _ => concat_sep newline (map print_change l) +:+ newline end.
Definition plain_change (c : change) : Prop :=
  (∃ a b, ch_xy c = String a (String b "") ∧ is_code 10 a = false ∧ is_code 10 b = false) ∧ TrimSpace (ch_xy c) ≠ "" ∧
  plain_path (ch_path c) = true ∧ match ch_old c with Some o => plain_path o = true | None => True end.
Lemma line_status stats c :
  plain_change c →
  status_line stats (print_change c) =
    let '(a, d) := default (0, 0)%Z (stats !! ch_path c) in
    Some (mkChange (ch_path c) (TrimSpace (ch_xy c)) a d (default "" (ch_old c))).
Proof.
  destruct c as [xy old p]. unfold plain_change. cbn [ch_xy ch_old ch_path]. intros ((a & b & Exy & _ & _) & Hxy & Hp & Ho). subst xy. unfold print_change. cbn [ch_xy ch_old ch_path].
  set (body := match old with Some o => o +:+ arrow | None => "" end +:+ p).
  destruct (plain_rev _ Hp) as (z & r & Hz & Hzc).
  assert (Hbr : string_reverse body = String z (r +:+ string_reverse (match old with Some o => o +:+ arrow | None => "" end))).
  { unfold body. by rw string_reverse_app Hz. }
  assert (Hbh : ∃ x t, body = String x t ∧ path_char x = true).
  { unfold body. destruct old as [o|]; [|by apply plain_head]. destruct (plain_head _ Ho) as (x & t & -> & Hx).
    exists x, (t +:+ arrow +:+ p). split; [by rw -!string_app_assoc|done]. }
  destruct Hbh as (x & t & Hbody & Hx).
  unfold status_line. change (String a (String b "") +:+ " " +:+ body) with (String a (String b (String " " body))).
  assert (TrimSuffix1 "013" (String a (String b (String " " body))) = String a (String b (String " " body))) as ->.
  { unfold TrimSuffix1. change (String a (String b (String " " body))) with ((String a (String b " ")) +:+ body).
    rw string_reverse_app Hbr. cbn [String.append]. apply path_char_facts in Hzc as (_ & _ & Hc & _).
    change (String z ?u +:+ ?v) with (String z (u +:+ v)). cbv iota. destruct (Ascii.eqb_spec z "013") as [->|]; done. }
  change (String.length (String a (String b (String " " body))) <? 3) with false. cbv iota.
  change (take_bytes 2 _) with (String a (String b "")). change (drop_bytes 3 _) with body.
  apply String.eqb_neq in Hxy. rw Hxy. rw (TrimSpace_visible body x t z _ Hbody Hbr Hx Hzc).
  assert (all_chars path_char p = true) as Hpc by (unfold plain_path in Hp; by go_bool).
  destruct old as [o|]; unfold body.
  - assert (all_chars path_char o = true) as Hoc by (unfold plain_path in Ho; by go_bool).
    rw -string_app_assoc Index_arrow //.
    assert (drop_bytes (String.length o + 4) (o +:+ arrow +:+ p) = p) as ->.
    { clear. induction o as [|c o IH]; [done|exact IH]. }
    assert (take_bytes (String.length o) (o +:+ arrow +:+ p) = o) as ->.
    { clear. induction o as [|c o IH]; [done|exact (f_equal (String c) IH)]. }
    rw !TrimChar_none //.
  - change ("" +:+ p) with p. rw Index_no_arrow // TrimChar_none //.
Qed.
Definition no_newline (s : string) : bool := all_chars (λ c, negb (is_code 10 c)) s.
Lemma Split1_line w s : no_newline w = true → Split1 "010" (w +:+ newline +:+ s) = w :: Split1 "010" s.
Proof.
  unfold no_newline. induction w as [|c w IH]; [done|]. cbn [all_chars]. intros [Hc Hw]%andb_true_iff.
  change (String c w +:+ ?t) with (String c (w +:+ t)). cbn [Split1]. rw IH //.
  destruct (Ascii.eqb_spec c "010") as [->|]; done.
Qed.
Lemma Split1_last w : no_newline w = true → Split1 "010" w = [w].
Proof.
  unfold no_newline. induction w as [|c w IH]; [done|]. cbn [all_chars]. intros [Hc Hw]%andb_true_iff. cbn [Split1]. rw IH //.
  destruct (Ascii.eqb_spec c "010") as [->|]; done.
Qed.
Lemma Split1_lines ls : ls ≠ [] → Forall (λ l, no_newline l = true) ls → Split1 "010" (concat_sep newline ls) = ls.
Proof.
  induction ls as [|l ls IH]; [done|]. intros _ [Hl Hls]%Forall_cons. destruct ls as [|l2 ls]; [by apply Split1_last|].
  change (concat_sep newline (l :: l2 :: ls)) with (l +:+ newline +:+ concat_sep newline (l2 :: ls)). rw Split1_line // IH //.
Qed.
Lemma plain_no_newline p : all_chars path_char p = true → no_newline p = true.
Proof.
  intros H. unfold no_newline. induction p as [|c p IH]; [done|]. cbn in *. apply andb_true_iff in H as [Hc Hp].
  apply path_char_facts in Hc as (_ & -> & _). by apply IH.
Qed.
Lemma print_no_newline c : plain_change c → no_newline (print_change c) = true.
Proof.
  destruct c as [xy old p]. unfold plain_change, print_change. cbn [ch_xy ch_old ch_path]. intros ((a & b & -> & Ha & Hb) & _ & Hp & Ho).
  unfold plain_path in *. go_bool. unfold no_newline. rw !all_chars_app. cbn [all_chars]. rw Ha Hb. cbn [negb andb].
  apply andb_true_iff. split; [done|]. apply andb_true_iff. split; [|by apply plain_no_newline].
  destruct old as [o|]; [|done]. go_bool. rw all_chars_app. apply andb_true_iff. split; [by apply plain_no_newline|done].
Qed.
Lemma print_rev l : l ≠ [] → Forall plain_change l → ∃ z r, string_reverse (concat_sep newline (map print_change l)) = String z r ∧ path_char z = true.
Proof.
  induction l as [|c l IH]; [done|]. intros _ [Hc Hl]%Forall_cons. destruct l as [|c2 l].
  - change (concat_sep newline (map print_change [c])) with (print_change c). destruct Hc as (_ & _ & Hp & _).
    destruct (plain_rev _ Hp) as (z & r & Hz & Hzc). unfold print_change. rw !string_app_assoc string_reverse_app Hz. by do 2 eexists.
  - change (concat_sep newline (map print_change (c :: c2 :: l))) with (print_change c +:+ newline +:+ concat_sep newline (map print_change (c2 :: l))).
    destruct (IH ltac:(done) Hl) as (z & r & Hz & Hzc). rw !string_app_assoc string_reverse_app Hz. by do 2 eexists.
Qed.

(** The list of changes the service reports is the list git printed: for
    every list of changes whose paths need no quoting, parsing git's short
    status gives each change once, in order, with its status letters, its path,
    the old path of a rename, and the line counts of its path. *)
Theorem git_changes_roundtrip stats l :
  Forall plain_change l →
  changes_of stats (print_changes l) =
    map (λ c, let '(a, d) := default (0, 0)%Z (stats !! ch_path c) in
              mkChange (ch_path c) (TrimSpace (ch_xy c)) a d (default "" (ch_old c))) l.
Proof.
  intros Hl. destruct l as [|c0 l0]; [done|]. set (l := c0 :: l0) in *. unfold changes_of, print_changes. cbv iota.
  destruct (print_rev l ltac:(done) Hl) as (z & r & Hz & Hzc).
  assert (TrimRightNewlines (concat_sep newline (map print_change l) +:+ newline) = concat_sep newline (map print_change l)) as Ht.
  { unfold TrimRightNewlines. rw string_reverse_app Hz. change (string_reverse newline +:+ String z r) with (String "010" (String z r)).
    apply path_char_facts in Hzc as (_ & H1 & H2 & _). cbn [trim_newlines_left]. change (is_code 10 "010" || is_code 13 "010") with true. cbv iota.
    rw H1 H2. cbn [orb]. by rw -Hz string_reverse_involutive. }
  change (match l with [] => "" | _ :: _ => concat_sep newline (map print_change l) +:+ newline end) with (concat_sep newline (map print_change l) +:+ newline).
  rw Ht Split1_lines; [|done|apply Forall_fmap; eapply Forall_impl; [exact Hl|apply print_no_newline]].
  clear Ht Hz. induction Hl as [|c l1 Hc Hl1 IH]; [done|]. cbn [map]. cbn [omap list_omap]. rw line_status //.
  destruct (default _ _) as [a d]. f_equal. exact IH.
Qed.

(** ** Evaluated calls *)
Module FileWitness.
Definition h : fhost := mkFhost (λ _, None) (λ _, None) (λ _, true) (λ _, 4096%Z) (λ _, ("", true)) (λ _, 420%Z) (λ _, "") (λ _, true)
  (λ _ _, Err enoent) (λ _ _, Err enoent) (λ _ _, Err enoent) (λ _ d, (Ok (), d)) id.
Definition disk : node := NDir [("etc", NDir [("passwd", NFile "root")]); ("w", NDir [("a.txt", NFile "old"); ("b.txt", NFile "b")])].
Definition s0 : fstate := mkFst disk [].
Definition put : request := mkReq "PUT" "/sub/new.txt" (λ _, "") ("hello", None).
Definition no_query : string → string := λ _, "".
Definition after_put : fstate := Eval vm_compute in (handle h "/w" put s0).2.
Fixpoint any_link (n : node) : bool :=
  match n with NLink _ => true | NFile _ => false | NDir es => existsb (λ e, any_link e.2) es end.
Lemma any_link_find n : any_link n = false → ∀ cs e, find_in cs n ≠ Some (NLink e).
Proof.
  intros Hn cs. revert n Hn. induction cs as [|c cs IH]; intros n Hn e; cbn [find_in]; [by destruct n|].
  destruct n as [|es|]; try discriminate. destruct (entry_of c es) as [m|] eqn:E; [|discriminate]. apply IH.
  clear IH. induction es as [|[k v] es IHes]; [discriminate E|]. cbn in E, Hn. apply orb_false_iff in Hn as [H1 H2].
  destruct (String.eqb k c); [by injection E as <-|by apply IHes].
Defined.
Lemma disk_no_links : no_links "/w" (fs_disk s0).
Proof. intros cs e H. by apply any_link_find in H. Defined.
Lemma file_put_get_witness :
  ∃ s2, handle h "/w" (mkReq "GET" "/sub/new.txt" no_query ("", None)) after_put = (mkRes 200 (BBytes "hello"), s2) ∧ fs_disk s2 = fs_disk after_put.
Proof.
  assert (E : handle h "/w" (mkReq "PUT" "/sub/new.txt" no_query ("hello", None)) s0 = (mkRes 204 BEmpty, after_put)) by (vm_compute; reflexivity).
  assert (M : "PUT" ∈ ["PUT"; "POST"]) by (by left).
  refine (proj1 (file_put_get h "/w" "PUT" "/sub/new.txt" no_query no_query "hello" s0 (mkRes 204 BEmpty) after_put
    eq_refl eq_refl M _ _ _ (λ _, eq_refl) _ E eq_refl)); try discriminate.
  intros abs Habs. vm_compute in Habs. injection Habs as <-. vm_compute. reflexivity.
Defined.
Definition renamed : list change := [mkChg " M" None "a.txt"; mkChg "R " (Some "b.txt") "dir/c.txt"; mkChg "??" None "new"].
Lemma git_changes_roundtrip_witness :
  changes_of {["a.txt" := (3, 1)%Z]} (print_changes renamed) =
    [mkChange "a.txt" "M" 3 1 ""; mkChange "dir/c.txt" "R" 0 0 "b.txt"; mkChange "new" "??" 0 0 ""].
Proof.
  rw (git_changes_roundtrip {["a.txt" := (3, 1)%Z]} renamed); [vm_compute; reflexivity|].
  repeat constructor; try (do 2 eexists; split; [reflexivity|split; reflexivity]); vm_compute; discriminate.
Defined.
(** A quoted path that contains the arrow is split in the middle; an escaped one is reported escaped. *)
Lemma quoted_path_misread :
  status_line ∅ ("?? " +:+ dquote +:+ "a -> b" +:+ dquote) = Some (mkChange "b" "??" 0 0 "a") ∧
  status_line ∅ ("?? " +:+ dquote +:+ "\303\244" +:+ dquote) = Some (mkChange "\303\244" "??" 0 0 "").
Proof. split; vm_compute; reflexivity. Qed.
(** An unreadable file is not skipped: the archive ends at it. *)
Definition unreadable : fhost :=
  mkFhost (λ op, match op with OOpen p => if String.eqb p "/w/a.txt" then Some "permission denied" else None | _ => None end)
    (λ _, None) (λ _, true) (λ _, 4096%Z) (λ _, ("", true)) (λ _, 420%Z) (λ _, "") (λ _, true)
    (λ _ _, Err enoent) (λ _ _, Err enoent) (λ _ _, Err enoent) (λ _ d, (Ok (), d)) id.
Lemma unreadable_file_cuts_archive :
  (handle unreadable "/w" (mkReq "GET" archivePath no_query ("", None)) s0).1 = mkRes 200 (BTar [mkTar "a.txt" TypeReg 420 "" ""] false).
Proof. vm_compute. reflexivity. Qed.
(** A link inside the working directory leads out of it: the guard sees names only. *)
Lemma link_leaves_workspace :
  resolve id "/w" "/out/passwd" = Ok "/w/out/passwd" ∧
  touched [(["w"; "out"], [".."; "etc"])] (WriteFile "/w/out/passwd" 420 "x") = Some ["etc"; "passwd"].
Proof. split; vm_compute; reflexivity. Qed.
End FileWitness.
