(* ===== verification/Provision.v ===== *)
(** * Provision: preparing a session's working tree and configuration
    (execution/session.go provisionSession, provisionGit, applyInitialConfig,
    resetRuntimeState; worktree.go ensureEnvRepo, linkSharedDeps;
    environments.go manageEnvironment)

    What provisioning asks of the system is recorded in order; the host answers
    by how many requests came before, so what a directory holds may change
    between two reads.  The configuration files are those of EditorConfig.v,
    skills and plugins those of Resources.v.  Progress texts of stages and log
    lines are left out.  net/url's parsing is the host's: [SplitGitCredentialURL]
    and the origin of a URL. *)
From S2P Require Import Prelude GoStrings GoPath GoJson Workspace GitWorkspace EditorConfig Resources SystemEnv Session.
From Stdlib Require Import Ascii.
Open Scope nat_scope.

(** ** Requests *)
Record NodeGit := mkGit { ng_spec : NodeGitSpec; ng_username : string; ng_password : string; ng_token : string }.
Record ProvisionSpec := mkPSpec {
  pv_spec : NodeCreateSession; pv_git : option NodeGit; pv_llm : option EditorConfig.NodeLLMConfig; pv_mcps : list MCPServerSpec;
  pv_skills : list SkillSpec; pv_plugins : list NodePluginSpec; pv_prompt : string; pv_env : list EnvVarSpec
}.
Record psession := mkPses {
  ps_workDir : string; ps_stateRoot : string; ps_home : string; ps_provider : string; ps_skillsDir : string; ps_pluginsDir : string;
  ps_worktreeEnvID : string; ps_worktreeRepoDir : string
}.
Inductive stage := GitClone | ResourceSync.
Inductive pop :=
| PGit (dir : string) (args : list string)
| PReadDir (p : string) | PStat (p : string)
| PRemoveAll (p : string) | PMkdirAll (p : string) | PWrite (p text : string) | PLink (src dst : string)
| PStage (st : stage) (ok : bool) (err : string).
Record phost := mkPhost {
  ph_err : nat → pop → option string;
  ph_git : nat → string → list string → option (string * string);   (** failure: combined output and error *)
  ph_read : nat → string → dir_read;                                 (** os.ReadDir, os.Stat *)
  ph_isDir : nat → string → bool;                                    (** os.Stat and IsDir *)
  ph_lstat : nat → string → bool;                                    (** os.Lstat finds something *)
  ph_split : string → option (string * string * string);             (** SplitGitCredentialURL *)
  ph_origin : string → string;                                       (** gitConfigURLOrigin *)
  ph_listen : option string;                                         (** startFileService *)
  ph_gateway : string;                                               (** the server's origin *)
  ph_decode : string → option (list codexCatalogRow);
  ph_quote : string → string;
  ph_conf : chost; ph_res : rhost
}.
Record pst := mkPst { p_ops : list pop; p_files : files; p_rst : rst; p_act : activation_file }.
#[export] Instance eta_pst : Settable pst := λ s, mkPst (p_ops s) (p_files s) (p_rst s) (p_act s).
Definition P (A : Type) : Type := pst → A * pst.
#[export] Instance P_ret : MRet P := λ A a s, (a, s).
#[export] Instance P_bind : MBind P := λ A B f m s, let '(a, s) := m s in f a s.
(** Go's [if err != nil { return err }] *)
Definition and_then (m : P (option string)) (k : P (option string)) : P (option string) :=
  r ← m; match r with Some e => mret (Some e) | None => k end.
Notation "m ;? k" := (and_then m k) (at level 60, right associativity).

Section host.
Variable h : phost.
Variable opts : sessionOptions.
Definition count : P nat := λ s, (length (p_ops s), s).
Definition record (op : pop) : P () := λ s, ((), s <| p_ops := p_ops s ++ [op] |>).
Definition record_all (ops : list pop) : P () := λ s, ((), s <| p_ops := p_ops s ++ ops |>).
(** a request whose only answer is an error *)
Definition ask (op : pop) : P (option string) := n ← count; record op ;; mret (ph_err h n op).
Definition wrapped (what : string) (m : P (option string)) : P (option string) :=
  r ← m; mret (match r with Some e => Some (what +:+ e) | None => None end).

(** ** git *)
Definition git_error (args : list string) (out err : string) : string :=
  let msg := TrimSpace out in
  let msg := if String.eqb msg "" then err else msg in
  "git " +:+ RedactGitSecrets (concat_sep " " args) +:+ " failed: " +:+ RedactGitSecrets msg.
Definition runNodeGit (dir : string) (args : list string) : P (option string) :=
  n ← count;
  record (PGit dir args) ;;
  mret (match ph_git h n dir args with Some (out, err) => Some (git_error args out err) | None => None end).
Definition initialized (p : string) : P (result bool) :=
  n ← count;
  record (PReadDir p) ;;
  mret (HostWorkspaceInitialized (ph_read h n p)).
(** ResetStaleWorkspace: it looks again, and only whether something is there *)
Definition resetStale (p : string) : P (option string) :=
  n ← count;
  record (PStat p) ;;
  match ph_read h n p with
  | Missing => mret None
  | ReadError e => mret (Some ("stat workspace root: " +:+ e))
  | Entries _ => wrapped ("reset stale workspace " +:+ p +:+ ": ") (ask (PRemoveAll p))
  end.
(** the URL to clone and the arguments that authenticate *)
Definition credentials (git : NodeGit) : string * list string :=
  let url := TrimSpace (git_Url (ng_spec git)) in
  let user := TrimSpace (ng_username git) in
  let pass := TrimSpace (ng_password git) in
  let token := TrimSpace (ng_token git) in
  let pass := if negb (String.eqb token "") && String.eqb pass "" then token else pass in
  let '(url, user, pass) :=
    match ph_split h url with
    | Some (stripped, u, p) => if String.eqb user "" && String.eqb pass "" then (stripped, u, p) else (stripped, user, pass)
    | None => (url, user, pass)
    end in
  (url, GitAuthHeaderArgs user pass (ph_origin h url)).
Definition git_cfg (git : NodeGit) : GitWorkspaceConfig :=
  let g := ng_spec git in
  mkGitConfig (TrimSpace (git_Url g)) (TrimSpace (git_Branch g)) (TrimSpace (git_Commit g)) "" (TrimSpace (ng_username git))
    (TrimSpace (ng_password git)) "" (git_CreateBranch g) (TrimSpace (git_NewBranch g)).
Definition provisionGit (workDir : string) (git : NodeGit) : P (option string) :=
  let cfg := git_cfg git in
  let '(cloneURL, authArgs) := credentials git in
  r ← initialized workDir;
  match r with
  | Err e => mret (Some e)
  | Ok true => mret None
  | Ok false =>
      resetStale workDir ;?
      runNodeGit "" (authArgs ++ GitCloneArgs cloneURL cfg workDir) ;?
      (if String.eqb (g_Commit cfg) "" then mret None
       else
         r ← runNodeGit workDir (authArgs ++ GitCommitFetchArgs (g_Commit cfg));
         match r with
         | None => runNodeGit workDir ["checkout"; "FETCH_HEAD"]
         | Some _ => runNodeGit workDir ["checkout"; g_Commit cfg]
         end) ;?
      (if negb (g_CreateBranch cfg) then mret None
       else
         let branch := TrimSpace (g_NewBranch cfg) in
         if String.eqb branch "" then mret (Some "git create branch requested but new_branch is empty")
         else runNodeGit workDir ["checkout"; "-b"; branch])
  end.
Definition ensureEnvRepo (repoDir : string) (git : NodeGit) : P (option string) :=
  let cfg := git_cfg git in
  r ← initialized repoDir;
  match r with
  | Err e => mret (Some e)
  | Ok true => mret None
  | Ok false =>
      let '(cloneURL, authArgs) := credentials git in
      resetStale repoDir ;?
      wrapped "prepare environment dir: " (ask (PMkdirAll (Dir repoDir))) ;?
      runNodeGit "" (authArgs ++ GitCloneArgs cloneURL cfg repoDir) ;?
      (if String.eqb (g_Commit cfg) "" then mret None
       else
         r ← runNodeGit repoDir (authArgs ++ GitCommitFetchArgs (g_Commit cfg));
         match r with
         | None => runNodeGit repoDir ["checkout"; "FETCH_HEAD"] ;; mret None
         | Some _ => mret None
         end)
  end.
(** Workspace.prepareWorktree on the answers of this moment *)
Definition cutWorktree (spec : NodeCreateSession) (git : NodeGit) : P (result string) :=
  n ← count;
  let host := mkGitHost (λ p, HostWorkspaceInitialized (ph_read h n p)) (λ p, ph_err h n (PMkdirAll p))
    (λ dir args, match ph_git h n dir args with Some (out, err) => Some (git_error args out err) | None => None end) in
  let '(r, cmds) := prepareWorktree opts host spec (ng_spec git) in
  record_all (map (uncurry PGit) cmds) ;; mret r.

(** ** Shared dependencies *)
Definition sharedDepDirs : list string := ["node_modules"; ".venv"; "venv"; ".tox"; "target/debug"; "target/release"].
Fixpoint linkSharedDeps (worktreeDir sourceDir : string) (names : list string) : P () :=
  match names with
  | [] => mret ()
  | name :: names =>
      let src := Join [sourceDir; name] in
      let dst := Join [worktreeDir; name] in
      n ← count;
      (if ph_isDir h n src && negb (ph_lstat h n dst) then
         r ← ask (PMkdirAll (Dir dst));
         match r with Some _ => mret () | None => ask (PLink src dst) ;; mret () end
       else mret ()) ;;
      linkSharedDeps worktreeDir sourceDir names
  end.

(** ** Associated repositories *)
Record depGitSpec := mkDep { dep_url : string; dep_branch : string; dep_subdir : string; dep_mode : string }.
Definition depGitEnvPrefix : string := "AI_LUBRICANT_DEP_GIT_".
Definition depPlaceholderEnvPrefix : string := "AI_LUBRICANT_DEP_PLACEHOLDER_".
Definition parse_dep (raw : string) : option depGitSpec :=
  match parse raw with
  | Some JNull => Some (mkDep "" "" "" "")
  | Some (JObject l) =>
      u ← string_field "url" l; b ← string_field "branch" l; d ← string_field "subdir" l; m ← string_field "mode" l;
      Some (mkDep u b d m)
  | _ => None
  end.
Definition placeholder_note (projectName : string) : string :=
  "# " +:+ TrimSpace projectName +:+ newline +:+ newline +:+
  "This associated project was not cloned: the task's git credential has no read access to its repository." +:+ newline.
Definition provision_dep (workDir : string) (item : EnvVarSpec) : P () :=
  let name := TrimSpace (ev_name item) in
  if HasPrefix name depGitEnvPrefix then
    match parse_dep (ev_value item) with
    | None => mret ()
    | Some dep =>
        let subdir := safeSubdirSegment (dep_subdir dep) in
        if String.eqb subdir "" || String.eqb (TrimSpace (dep_url dep)) "" then mret ()
        else
          provisionGit (Join [workDir; subdir]) (mkGit (mkGitSpec (dep_url dep) (dep_branch dep) "" "" false) "" "" "") ;; mret ()
    end
  else if HasPrefix name depPlaceholderEnvPrefix then
    match Index (ev_value item) "|" with
    | None => mret ()
    | Some i =>
        let subdir := safeSubdirSegment (drop_bytes (S i) (ev_value item)) in
        if String.eqb subdir "" then mret ()
        else
          let target := Join [workDir; subdir] in
          r ← ask (PMkdirAll target);
          match r with
          | Some _ => mret ()
          | None => ask (PWrite (Join [target; "README.md"]) (placeholder_note (take_bytes i (ev_value item)))) ;; mret ()
          end
    end
  else mret ().
Fixpoint provisionAssociatedRepos (workDir : string) (env : list EnvVarSpec) : P () :=
  match env with
  | [] => mret ()
  | item :: env => provision_dep workDir item ;; provisionAssociatedRepos workDir env
  end.

(** ** applyInitialConfig *)
Inductive applied := AOk | AErr (e : string) | APanic.
Definition conf_step (write : files → cresult * files) : P applied := λ s,
  let '(r, fs) := write (p_files s) in
  (match r with COk => AOk | CErr e => AErr e | CPanic => APanic end, s <| p_files := fs |>).
Definition res_step (sync : R ()) : P applied := λ s,
  let '(r, st) := sync (p_rst s) in
  (match r with Ok _ => AOk | Err e => AErr e end, s <| p_rst := st |>).
Definition econf_of (ses : psession) (spec : ProvisionSpec) : econf :=
  mkEconf (ps_provider ses) (ps_home ses) (ps_stateRoot ses) (Some (pv_spec spec)).
Definition rsession_of (ses : psession) : rsession :=
  mkRses (ps_provider ses) (ps_home ses) (ps_skillsDir ses) (ps_pluginsDir ses).
Definition activationPath (stateRoot : string) : string := Join [stateRoot; "agents"; "activation.json"].
Definition act_step (stateRoot : string) (skills plugins : list string) : P applied := λ s,
  let path := activationPath stateRoot in
  let wr := match ch_mkdir (ph_conf h) (Dir path) with
            | Some e => Some ("create runtime activation dir: " +:+ e)
            | None => match ch_write (ph_conf h) path with Some (e, _) => Some ("write runtime activation config: " +:+ e) | None => None end
            end in
  let '(file, r) := writeRuntimeActivationConfig (p_act s) (Some skills) (Some plugins) wr in
  (match r with Ok _ => AOk | Err e => AErr e end, s <| p_act := file |>).
(** the system tier returns at the first error *)
Definition seq_step (what : string) (m : P applied) (k : P applied) : P applied :=
  r ← m; match r with AOk => k | AErr e => mret (AErr (what +:+ e)) | APanic => mret APanic end.
(** the other tiers collect them *)
Definition all_step (what : string) (m : P applied) (k : list string → P applied) (errs : list string) : P applied :=
  r ← m; match r with AOk => k errs | AErr e => k (errs ++ [what +:+ e]) | APanic => mret APanic end.
Definition skip : P applied := mret AOk.
Definition llm_step (ses : psession) (spec : ProvisionSpec) : P applied :=
  match pv_llm spec with
  | None => skip
  | Some llm => conf_step (writeLLMConfig (ph_quote h) (ph_decode h) (ph_conf h) (econf_of ses spec) (Some llm))
  end.
Definition prompt_step (ses : psession) (spec : ProvisionSpec) : P applied :=
  let sp := TrimSpace (pv_prompt spec) in
  if String.eqb sp "" then skip else conf_step (writeAgentSystemPrompt (ph_conf h) (ps_stateRoot ses) sp).
Definition applyInitialConfig (ses : psession) (spec : ProvisionSpec) : P applied :=
  if isSystemEnv (pv_spec spec) then
    seq_step "llm: " (llm_step ses spec)
      (seq_step "mcp: " (if no_items (pv_mcps spec) then skip else conf_step (writeRuntimeMCPConfig (ph_conf h) (ps_stateRoot ses) (pv_mcps spec)))
         (seq_step "activation: "
            (if no_items (cs_ActiveSkills (pv_spec spec)) && no_items (cs_ActivePlugins (pv_spec spec)) then skip
             else act_step (ps_stateRoot ses) (cs_ActiveSkills (pv_spec spec)) (cs_ActivePlugins (pv_spec spec)))
            (seq_step "system_prompt: " (prompt_step ses spec) skip)))
  else
    let owns := ownsHomeResources (pv_spec spec) in
    all_step "llm: " (llm_step ses spec)
      (all_step "mcp: " (conf_step (writeMCPConfig (ph_quote h) (ph_gateway h) (ph_conf h) (econf_of ses spec) (pv_mcps spec)))
         (all_step "skills: " (if owns && negb (no_items (pv_skills spec)) then res_step (syncSkills (ph_res h) (op_workRoot opts) (rsession_of ses) (pv_skills spec)) else skip)
            (all_step "plugins: " (if owns && negb (no_items (pv_plugins spec)) then res_step (syncPlugins (ph_res h) (op_workRoot opts) (rsession_of ses) (pv_plugins spec)) else skip)
               (all_step "system_prompt: " (prompt_step ses spec)
                  (λ errs, if no_items errs then mret AOk else mret (AErr (concat_sep "; " errs))))))) [].

(** ** provisionSession *)
Inductive outcome := ORemoved (err : string) | OPanicked | OReady (files_on : bool) (config_err : option string) (start : bool).
Definition stage_report (st : stage) (ok : bool) (err : string) : P () := record (PStage st ok err).
Definition git_url (spec : ProvisionSpec) : option NodeGit :=
  match pv_git spec with
  | Some git => if String.eqb (TrimSpace (git_Url (ng_spec git))) "" then None else Some git
  | None => None
  end.
(** the working tree; the error has been reported *)
Definition prepare_tree (ses : psession) (spec : ProvisionSpec) : P (option string) :=
  let created e := "create session " +:+ TrimSpace (cs_SessionId (pv_spec spec)) +:+ ": " +:+ e in
  let failed e := stage_report GitClone false e ;; mret (Some e) in
  let external := externalWorktreePath (pv_spec spec) in
  if negb (String.eqb external "") then
    stage_report GitClone true "" ;;
    if String.eqb (workspaceMode (pv_spec spec)) workspaceModeFresh then
      match git_url spec with
      | None => mret None
      | Some git => r ← provisionGit external git; match r with Some e => failed (created e) | None => mret None end
      end
    else
      n ← count;
      if ph_isDir h n external then mret None else failed ("adopted checkout " +:+ external +:+ " is not a directory")
  else
    match git_url spec with
    | None => mret None
    | Some git =>
        stage_report GitClone true "" ;;
        r ← (if negb (String.eqb (ps_worktreeEnvID ses) "") then
               r ← cutWorktree (pv_spec spec) git;
               match r with
               | Err e => mret (Some e)
               | Ok path => linkSharedDeps path (ps_worktreeRepoDir ses) sharedDepDirs ;; mret None
               end
             else provisionGit (ps_workDir ses) git);
        match r with Some e => failed (created e) | None => mret None end
    end.
Definition provisionSession (ses : psession) (spec : ProvisionSpec) : P outcome :=
  r ← prepare_tree ses spec;
  match r with
  | Some e => mret (ORemoved e)
  | None =>
      provisionAssociatedRepos (ps_workDir ses) (pv_env spec) ;;
      let syncs := negb (no_items (pv_skills spec)) || negb (no_items (pv_plugins spec)) in
      (if syncs then stage_report ResourceSync true "" else mret ()) ;;
      r ← applyInitialConfig ses spec;
      let files_on := bool_decide (ph_listen h = None) in
      let start := negb (cs_DeferStart (pv_spec spec)) in
      match r with
      | APanic => mret OPanicked
      | AOk => mret (OReady files_on None start)
      | AErr e => (if syncs then stage_report ResourceSync false e else mret ()) ;; mret (OReady files_on (Some e) start)
      end
  end.

(** what becomes of the session: it leaves the table, or it is marked
    provisioned and, unless deferred, started; a panic ends the node *)
Definition conclude (o : outcome) (sel : result exec_kind) (s : sess) : sess :=
  match o with
  | ORemoved _ => default s (removeFailedSession s)
  | OPanicked => s
  | OReady _ _ start => let s := default s (Session.provisioned s) in if start then (startRuntime s sel).1 else s
  end.

(** ** manageEnvironment *)
Inductive EnvironmentAction := EnvCreate | EnvRemove | EnvAction (name : string).
Definition manageEnvironment (envID : string) (action : EnvironmentAction) (git : option NodeGit) (targetPath : string) : P (option string) :=
  let envID := TrimSpace envID in
  if String.eqb envID "" then mret (Some "manage environment: env_id is required")
  else
    let dir := envDir opts envID in
    match action with
    | EnvCreate =>
        wrapped ("create environment " +:+ envID +:+ ": ") (ask (PMkdirAll dir)) ;?
        match git with
        | Some g =>
            if String.eqb (TrimSpace (git_Url (ng_spec g))) "" then mret None
            else
              let target := TrimSpace targetPath in
              let target := if String.eqb target "" then envRepoDir opts envID else target in
              wrapped ("create environment " +:+ envID +:+ ": clone shared checkout: ") (ensureEnvRepo target g)
        | None => mret None
        end
    | EnvRemove => wrapped ("remove environment " +:+ envID +:+ ": ") (ask (PRemoveAll dir))
    | EnvAction name => mret (Some ("manage environment " +:+ envID +:+ ": unsupported action " +:+ name))
    end.
End host.

(** ** resetRuntimeState *)
Definition below (root p : string) : bool := HasPrefix p (root +:+ "/").
Definition empty_content (c : content) : bool := match c with CText t => String.eqb t "" | CJson _ => false end.
(** [rm]: os.RemoveAll's error and what it leaves *)
Definition resetRuntimeState (h : chost) (rm : option (string * files)) (stateRoot : string) (fs : files) : option string * files :=
  let path := runtimeMCPConfigPath stateRoot in
  match (match fs !! path with Some c => match ch_read h path with Some e => Err e | None => Ok (Some c) end | None => Ok None end) with
  | Err e => (Some ("read mcp config: " +:+ e), fs)
  | Ok config =>
      match rm with
      | Some (e, kept) => (Some ("clear state root: " +:+ e), kept)
      | None =>
          let fs := filter (λ kv, below stateRoot kv.1 = false) fs in
          match ch_mkdir h stateRoot with
          | Some e => (Some ("recreate state root: " +:+ e), fs)
          | None =>
              match config with
              | Some c =>
                  if empty_content c then (None, fs)
                  else match ch_mkdir h (Dir path) with
                  | Some e => (Some ("recreate mcp config dir: " +:+ e), fs)
                  | None =>
                      match ch_write h path with
                      | Some (e, kept) => (Some ("restore mcp config: " +:+ e), partial_alter (λ _, kept) path fs)
                      | None => (None, <[path := c]> fs)
                      end
                  end
              | None => (None, fs)
              end
          end
      end
  end.
