(* ===== verification/ProvisionProofs.v ===== *)
(** * ProvisionProofs: provisioning never removes a checkout, reports its
    failure once, and writes only what its tier owns *)
From S2P Require Import Prelude GoStrings GoPath GoJson Workspace GitWorkspace EditorConfig EditorConfigProofs Resources SystemEnv Session Provision.
From Stdlib Require Import Ascii.
Open Scope nat_scope.

(** ** What a computation asks for *)
(** every request satisfies [Q] at the count it is made, and files and resources stay *)
Definition emits_at {A} (Q : nat → pop → Prop) (s : pst) (m : P A) : Prop := ∀ a s', m s = (a, s') →
  (∃ ops, p_ops s' = p_ops s ++ ops ∧ ∀ i op, ops !! i = Some op → Q (length (p_ops s) + i) op) ∧
  p_files s' = p_files s ∧ p_rst s' = p_rst s ∧ p_act s' = p_act s.
Definition emits {A} (Q : nat → pop → Prop) (m : P A) : Prop := ∀ s, emits_at Q s m.
Section emits.
Context (Q : nat → pop → Prop).
Lemma emits_ret {A} (a : A) : emits Q (mret a).
Proof. intros s a' s' [= <- <-]. split; [exists []; by rw app_nil_r|done]. Qed.
Lemma emits_at_bind {A B} s (m : P A) (f : A → P B) : emits_at Q s m → (∀ a, emits Q (f a)) → emits_at Q s (m ≫= f).
Proof.
  intros Hm Hf b s' H. unfold mbind, P_bind in H. destruct (m s) as [a s1] eqn:E.
  destruct (Hm _ _ E) as ((o1 & T1 & C1) & F1 & R1 & A1). destruct (Hf a _ _ _ H) as ((o2 & T2 & C2) & F2 & R2 & A2).
  split; [|by rw F2 R2 A2]. exists (o1 ++ o2). rw T2 T1 app_assoc. split; [done|].
  intros i op Hi. apply lookup_app_Some in Hi as [Hi|[Hl Hi]]; [by apply C1|].
  specialize (C2 _ _ Hi). rw T1 length_app in C2. by rw (_ : length (p_ops s) + i = length (p_ops s) + length o1 + (i - length o1)); [|lia].
Qed.
Lemma emits_bind {A B} (m : P A) (f : A → P B) : emits Q m → (∀ a, emits Q (f a)) → emits Q (m ≫= f).
Proof. intros Hm Hf s. by apply emits_at_bind. Qed.
Lemma emits_count {A} (f : nat → P A) : (∀ n, emits Q (f n)) → emits Q (count ≫= f).
Proof. intros H. apply emits_bind; [|done]. intros s a s' [= <- <-]. split; [exists []; by rw app_nil_r|done]. Qed.
Lemma emits_record op : (∀ n, Q n op) → emits Q (record op).
Proof.
  intros H s a s' [= <- <-]. split; [|done]. exists [op]. split; [done|]. intros [|i] op' Hi; [by injection Hi as <-|done].
Qed.
Lemma emits_record_all ops : (∀ n op, op ∈ ops → Q n op) → emits Q (record_all ops).
Proof. intros H s a s' [= <- <-]. split; [|done]. exists ops. split; [done|]. intros i op Hi. apply H. by eapply list_elem_of_lookup_2. Qed.
Lemma emits_ask h op : (∀ n, Q n op) → emits Q (ask h op).
Proof. intros H. apply emits_count. intros n. apply emits_bind; [by apply emits_record|intros _; apply emits_ret]. Qed.
Lemma emits_git h dir args : (∀ n, Q n (PGit dir args)) → emits Q (runNodeGit h dir args).
Proof. intros H. apply emits_count. intros n. apply emits_bind; [by apply emits_record|intros _; apply emits_ret]. Qed.
Lemma emits_and m k : emits Q m → emits Q k → emits Q (m ;? k).
Proof. intros Hm Hk. apply emits_bind; [done|]. intros [e|]; [apply emits_ret|done]. Qed.
Lemma emits_wrapped what m : emits Q m → emits Q (wrapped what m).
Proof. intros Hm. apply emits_bind; [done|]. intros r. apply emits_ret. Qed.
End emits.
Create HintDb emits.
#[export] Hint Resolve emits_ret emits_bind emits_count emits_record emits_ask emits_git emits_and emits_wrapped : emits.

(** ** Removals *)
Section removals.
Variables (h : phost) (opts : sessionOptions).
Definition scratch (name : string) : Prop := name = ".agent-compose" ∨ name = GitWorkspaceTempDirName.
(** nothing there but scratch *)
Definition only_scratch (r : dir_read) : Prop := match r with Entries names => Forall scratch names | Missing => True | ReadError _ => False end.
(** a removal hits one of the allowed paths, which two requests before held nothing but scratch *)
Definition safe_removal (allowed : string → Prop) (n : nat) (op : pop) : Prop :=
  match op with
  | PRemoveAll p => allowed p ∧ ∃ m, n = S (S m) ∧ only_scratch (ph_read h m p)
  | _ => True
  end.
Lemma not_initialized r : HostWorkspaceInitialized r = Ok false → only_scratch r.
Proof.
  destruct r as [names| |e]; [|done|done]. cbn. intros [= H]. apply Forall_forall. intros name Hin.
  destruct (decide (scratch name)) as [|Hn]; [done|]. exfalso.
  assert (existsb (λ n, negb (String.eqb n ".agent-compose" || String.eqb n GitWorkspaceTempDirName)) names = true); [|congruence].
  apply existsb_exists. exists name. split; [by apply list_elem_of_In|]. apply negb_true_iff, orb_false_iff.
  split; apply String.eqb_neq; intros ->; apply Hn; [by left|by right].
Qed.
(** the check and the removal that follows it *)
Lemma emits_checked allowed p (k : P (option string)) :
  allowed p → emits (safe_removal allowed) k →
  emits (safe_removal allowed) (r ← initialized h p; match r with Err e => mret (Some e) | Ok true => mret None | Ok false => resetStale h p ;? k end).
Proof.
  intros Hp Hk s. set (Q := safe_removal allowed). set (n := length (p_ops s)). set (s1 := s <| p_ops := p_ops s ++ [PReadDir p] |>).
  assert (∀ A (m : P A), emits_at (λ i, Q i) s1 m → ∀ a s', m s1 = (a, s') →
            (∃ ops, p_ops s' = p_ops s ++ ops ∧ ∀ i op, ops !! i = Some op → Q (n + i) op) ∧
            p_files s' = p_files s ∧ p_rst s' = p_rst s ∧ p_act s' = p_act s) as Hlift.
  { intros A m Hm a s' E. destruct (Hm a s' E) as ((ops & Ho & HQ) & H1 & H2 & H3). split; [|done]. exists (PReadDir p :: ops).
    split; [by rw Ho /= -app_assoc|]. intros [|i] op Hi; [by injection Hi as <-|]. specialize (HQ i op Hi).
    cbn in HQ. rw length_app in HQ. cbn in HQ. fold n in HQ. by rw (_ : n + S i = n + 1 + i); [|lia]. }
  intros a s' H. change (initialized h p s) with (HostWorkspaceInitialized (ph_read h n p), s1) in H.
  unfold mbind at 1, P_bind in H. change (initialized h p s) with (HostWorkspaceInitialized (ph_read h n p), s1) in H. cbv iota beta in H.
  eapply Hlift; [|exact H].
  destruct (HostWorkspaceInitialized (ph_read h n p)) as [[]|e] eqn:E; [apply emits_ret| |apply emits_ret].
  apply not_initialized in E. apply emits_at_bind; [|intros [e|]; [apply emits_ret|done]].
  intros b s2 Hb. unfold resetStale, mbind, P_bind, count, record in Hb. cbv iota beta in Hb.
  set (n1 := length (p_ops s1)) in *. set (s1' := s1 <| p_ops := p_ops s1 ++ [PStat p] |>) in *.
  assert (En1 : n1 = S n) by (unfold n1, s1; cbn; rw length_app; cbn; lia).
  destruct (ph_read h n1 p) as [names| |e].
  2,3: injection Hb as <- <-; split; [|done]; exists [PStat p]; split; [done|]; by intros [|i] op Hi; [injection Hi as <-|].
  injection Hb as <- <-. split; [|done]. exists [PStat p; PRemoveAll p]. split; [cbn; by rw -app_assoc|].
  intros [|[|i]] op Hi; [by injection Hi as <-| |done]. injection Hi as <-. split; [done|]. exists n. split; [|done].
  rw En1. cbn. lia.
Qed.
Lemma provisionGit_removals allowed workDir git : allowed workDir → emits (safe_removal allowed) (provisionGit h workDir git).
Proof.
  intros Hp. unfold provisionGit. destruct (credentials h git) as [url args]. apply emits_checked; [done|].
  apply emits_and; [by apply emits_git|]. apply emits_and.
  - destruct (String.eqb _ ""); [apply emits_ret|]. apply emits_bind; [by apply emits_git|]. intros [e|]; by apply emits_git.
  - destruct (negb _); [apply emits_ret|]. destruct (String.eqb _ ""); [apply emits_ret|by apply emits_git].
Qed.
Lemma ensureEnvRepo_removals allowed repoDir git : allowed repoDir → emits (safe_removal allowed) (ensureEnvRepo h repoDir git).
Proof.
  intros Hp. unfold ensureEnvRepo. destruct (credentials h git) as [url args]. apply emits_checked; [done|].
  apply emits_and; [by apply emits_wrapped, emits_ask|]. apply emits_and; [by apply emits_git|].
  destruct (String.eqb _ ""); [apply emits_ret|]. apply emits_bind; [by apply emits_git|]. intros [e|]; [apply emits_ret|].
  apply emits_bind; [by apply emits_git|intros _; apply emits_ret].
Qed.
Lemma cut_removals allowed spec git : emits (safe_removal allowed) (cutWorktree h opts spec git).
Proof.
  apply emits_count. intros n. cbv zeta.
  match goal with |- context [prepareWorktree ?a ?b ?c ?d] => destruct (prepareWorktree a b c d) as [r cmds] end.
  apply emits_bind; [|intros _; apply emits_ret]. apply emits_record_all. intros m op (c & -> & _)%list_elem_of_fmap. by destruct c.
Qed.
Lemma link_removals allowed worktreeDir sourceDir names : emits (safe_removal allowed) (linkSharedDeps h worktreeDir sourceDir names).
Proof.
  induction names as [|name names IH]; cbn [linkSharedDeps]; [apply emits_ret|]. apply emits_count. intros n.
  apply emits_bind; [|by intros _]. destruct (_ && _); [|apply emits_ret]. apply emits_bind; [by apply emits_ask|].
  intros [e|]; [apply emits_ret|]. apply emits_bind; [by apply emits_ask|intros _; apply emits_ret].
Qed.
Definition child_of (workDir p : string) : Prop := ∃ name, safeSubdirSegment name ≠ "" ∧ p = Join [workDir; safeSubdirSegment name].
Lemma associated_removals allowed workDir env :
  (∀ p, child_of workDir p → allowed p) → emits (safe_removal allowed) (provisionAssociatedRepos h workDir env).
Proof.
  intros Ha. induction env as [|item env IH]; cbn [provisionAssociatedRepos]; [apply emits_ret|]. apply emits_bind; [|by intros _].
  unfold provision_dep. destruct (HasPrefix _ depGitEnvPrefix).
  - destruct (parse_dep _) as [dep|]; [|apply emits_ret]. destruct (String.eqb_spec (safeSubdirSegment (dep_subdir dep)) "") as [|Hne]; [apply emits_ret|].
    cbn [orb]. destruct (String.eqb _ ""); [apply emits_ret|]. apply emits_bind; [|intros _; apply emits_ret].
    apply provisionGit_removals, Ha. by exists (dep_subdir dep).
  - destruct (HasPrefix _ depPlaceholderEnvPrefix); [|apply emits_ret]. destruct (Index _ _) as [i|]; [|apply emits_ret].
    destruct (String.eqb _ ""); [apply emits_ret|]. apply emits_bind; [by apply emits_ask|]. intros [e|]; [apply emits_ret|].
    apply emits_bind; [by apply emits_ask|intros _; apply emits_ret].
Qed.
(** what a session may clear before it clones *)
Definition clearable (ses : psession) (spec : ProvisionSpec) (p : string) : Prop :=
  let external := externalWorktreePath (pv_spec spec) in
  (external = "" ∧ p = ps_workDir ses) ∨
  (external ≠ "" ∧ workspaceMode (pv_spec spec) = workspaceModeFresh ∧ p = external) ∨
  child_of (ps_workDir ses) p.
Lemma prepare_removals ses spec : emits (safe_removal (clearable ses spec)) (prepare_tree h opts ses spec).
Proof.
  unfold prepare_tree. set (Q := safe_removal _).
  assert (Hf : ∀ e, emits Q (stage_report GitClone false e ;; mret (Some e))).
  { intros e. apply emits_bind; [by apply emits_record|intros _; apply emits_ret]. }
  destruct (String.eqb_spec (externalWorktreePath (pv_spec spec)) "") as [He|He]; cbn [negb].
  - destruct (git_url spec) as [git|]; [|apply emits_ret]. apply emits_bind; [by apply emits_record|intros _].
    apply emits_bind; [|intros [e|]; [apply Hf|apply emits_ret]]. destruct (negb _).
    + apply emits_bind; [apply cut_removals|]. intros [path|e]; [|apply emits_ret].
      apply emits_bind; [apply link_removals|intros _; apply emits_ret].
    + apply provisionGit_removals. left. done.
  - apply emits_bind; [by apply emits_record|intros _]. destruct (String.eqb_spec (workspaceMode (pv_spec spec)) workspaceModeFresh) as [Hm|Hm].
    + destruct (git_url spec) as [git|]; [|apply emits_ret]. apply emits_bind; [|intros [e|]; [apply Hf|apply emits_ret]].
      apply provisionGit_removals. right. by left.
    + apply emits_count. intros n. destruct (ph_isDir h n _); [apply emits_ret|apply Hf].
Qed.
End removals.

(** ** Configuration *)
(** the requests stay, files change only at [S], resources only when [res] *)
Definition writes {A} (S : string → Prop) (res : bool) (m : P A) : Prop := ∀ s a s', m s = (a, s') →
  p_ops s' = p_ops s ∧ (∀ path, ¬ S path → p_files s' !! path = p_files s !! path) ∧ (res = false → p_rst s' = p_rst s).
Section writes.
Context (S : string → Prop) (res : bool).
Lemma writes_ret {A} (a : A) : writes S res (mret a).
Proof. by intros s a' s' [= <- <-]. Qed.
Lemma writes_bind {A B} (m : P A) (f : A → P B) : writes S res m → (∀ a, writes S res (f a)) → writes S res (m ≫= f).
Proof.
  intros Hm Hf s b s' H. unfold mbind, P_bind in H. destruct (m s) as [a s1] eqn:E.
  destruct (Hm _ _ _ E) as (O1 & F1 & R1). destruct (Hf a _ _ _ H) as (O2 & F2 & R2). split_and!; [congruence| |].
  - intros path Hp. by rw F2 // F1.
  - intros Hr. by rw R2 // R1.
Qed.
Lemma writes_seq what m k : writes S res m → writes S res k → writes S res (seq_step what m k).
Proof. intros Hm Hk. apply writes_bind; [done|]. intros [|e|]; [done|apply writes_ret|apply writes_ret]. Qed.
Lemma writes_all what m k errs : writes S res m → (∀ errs, writes S res (k errs)) → writes S res (all_step what m k errs).
Proof. intros Hm Hk. apply writes_bind; [done|]. intros [|e|]; [done|done|apply writes_ret]. Qed.
Lemma writes_conf (w : files → cresult * files) :
  (∀ fs r fs', w fs = (r, fs') → ∀ path, ¬ S path → fs' !! path = fs !! path) → writes S res (conf_step w).
Proof.
  intros Hw s a s'. unfold conf_step. destruct (w (p_files s)) as [r fs] eqn:E. intros [= <- <-]. split_and!; [done| |done].
  intros path Hp. exact (Hw _ _ _ E path Hp).
Qed.
Lemma writes_conf_only path w : S path → only path w → writes S res (conf_step w).
Proof. intros Hp Hw. apply writes_conf. intros fs r fs' E p Hn. apply (Hw _ _ _ E). congruence. Qed.
Lemma writes_act h root a b : writes S res (act_step h root a b).
Proof. intros s r s'. unfold act_step. destruct (writeRuntimeActivationConfig _ _ _ _) as [file x]. by intros [= <- <-]. Qed.
End writes.
Lemma writes_res S sync : writes S true (res_step sync).
Proof. intros s r s'. unfold res_step. destruct (sync (p_rst s)) as [x st]. by intros [= <- <-]. Qed.
Definition codexCatalogPath (home : string) : string := Join [Dir (codexConfigPath home); codexModelCatalogFilename].
Lemma catalog_only quote decode h home raw fs x fs' :
  writeCodexModelCatalog quote decode h home raw fs = (x, fs') → ∀ p, p ≠ codexCatalogPath home → fs' !! p = fs !! p.
Proof.
  unfold writeCodexModelCatalog. destruct (String.eqb _ ""); [by intros [= _ <-]|]. destruct (decode _) as [rows|]; [|by intros [= _ <-]].
  destruct (no_items _); [by intros [= _ <-]|]. destruct (ch_mkdir h _); [by intros [= _ <-]|].
  destruct (writeFile _ _ _ _ fs) as [r fs1] eqn:E. intros H p Hp. assert (fs' = fs1) as -> by (by destruct r; injection H).
  by apply (only_write _ _ _ _ _ _ _ E).
Qed.
(** the files of the HOME that hold the LLM's configuration, and those that list MCP servers *)
Definition llm_files (home : string) : list string := [codexConfigPath home; codexCatalogPath home; openCodeConfigPath home].
Definition mcp_files (home : string) : list string := [codexConfigPath home; openCodeConfigPath home; claudeMCPPath home].
Definition own_files (stateRoot : string) : list string := [runtimeMCPConfigPath stateRoot; agentSystemPromptPath stateRoot].
Lemma llm_writes quote decode h c llm fs r fs' :
  writeLLMConfig quote decode h c (Some llm) fs = (r, fs') → ∀ p, p ∉ llm_files (ec_home c) → fs' !! p = fs !! p.
Proof.
  intros H p Hp. unfold llm_files in Hp. rw !not_elem_of_cons in Hp. destruct Hp as (H1 & H2 & H3 & _). unfold writeLLMConfig in H.
  destruct (String.eqb _ "codex"); [|destruct (String.eqb _ "opencode"); [|by injection H as _ <-]].
  - unfold writeCodexRuntimeConfig in H. destruct (String.eqb _ ""); [by injection H as _ <-|]. destruct (ch_mkdir h _); [by injection H as _ <-|].
    destruct (writeCodexModelCatalog _ _ _ _ _ _) as [x fs1] eqn:E. rw (only_write _ _ _ _ _ _ _ H) //. by eapply catalog_only.
  - unfold writeOpenCodeRuntimeConfig in H. destruct (String.eqb _ ""); [by injection H as _ <-|].
    destruct (loadOpenCodeConfig _ _ _) as [[m|]|e]; [|by injection H as _ <-|by injection H as _ <-]. by rw (only_save _ _ _ _ _ _ H).
Qed.
Lemma runtime_only h root mcps : only (runtimeMCPConfigPath root) (writeRuntimeMCPConfig h root mcps).
Proof.
  intros fs r fs'. unfold writeRuntimeMCPConfig. destruct (no_keys _); [apply only_remove|]. destruct (ch_mkdir h _); [by intros [= _ <-]|apply only_write].
Qed.
Lemma prompt_only h root prompt : only (agentSystemPromptPath root) (writeAgentSystemPrompt h root prompt).
Proof. intros fs r fs'. unfold writeAgentSystemPrompt. destruct (ch_mkdir h _); [by intros [= _ <-]|apply only_write]. Qed.
Lemma mcp_writes quote origin h c mcps fs r fs' :
  writeMCPConfig quote origin h c mcps fs = (r, fs') →
  ∀ p, p ≠ runtimeMCPConfigPath (ec_stateRoot c) →
    (match ec_spec c with Some spec => isSharedEnv spec | None => false end = false → p ∉ mcp_files (ec_home c)) → fs' !! p = fs !! p.
Proof.
  intros H p Hp Hn. unfold writeMCPConfig in H. destruct (writeRuntimeMCPConfig _ _ _ fs) as [r1 fs1] eqn:E1.
  rw -(runtime_only _ _ _ _ _ _ E1 p Hp). destruct r1; [|by injection H as _ <-|by injection H as _ <-].
  destruct (match ec_spec c with Some spec => isSharedEnv spec | None => false end); [by injection H as _ <-|].
  specialize (Hn eq_refl). unfold mcp_files in Hn. rw !not_elem_of_cons in Hn. destruct Hn as (H1 & H2 & H3 & _).
  destruct (String.eqb _ "codex"); [by apply (only_codex _ _ _ _ _ _ _ H)|].
  destruct (String.eqb _ "opencode"); [by apply (only_opencode _ _ _ _ _ _ H)|].
  destruct (String.eqb _ "claude"); [by apply (only_claude _ _ _ _ _ _ H)|by injection H as _ <-].
Qed.
Definition config_scope (ses : psession) (spec : ProvisionSpec) (path : string) : Prop :=
  path ∈ own_files (ps_stateRoot ses) ∨
  (pv_llm spec ≠ None ∧ path ∈ llm_files (ps_home ses)) ∨
  (ownsHomeResources (pv_spec spec) = true ∧ path ∈ mcp_files (ps_home ses)).
Lemma config_writes h opts ses spec :
  writes (config_scope ses spec) (ownsHomeResources (pv_spec spec)) (applyInitialConfig h opts ses spec).
Proof.
  set (S := config_scope ses spec). set (res := ownsHomeResources (pv_spec spec)).
  assert (Hllm : writes S res (llm_step h ses spec)).
  { unfold llm_step. destruct (pv_llm spec) as [llm|] eqn:E; [|apply writes_ret]. apply writes_conf. intros fs r fs' H path Hp.
    eapply llm_writes; [exact H|]. intros Hin. apply Hp. right. left. by rw E. }
  assert (Hprompt : writes S res (prompt_step h ses spec)).
  { unfold prompt_step. destruct (String.eqb _ ""); [apply writes_ret|]. eapply writes_conf_only; [|apply prompt_only]. left. unfold own_files. set_solver. }
  unfold applyInitialConfig. destruct (isSystemEnv (pv_spec spec)) eqn:Es.
  - apply writes_seq; [done|]. apply writes_seq.
    { destruct (no_items _); [apply writes_ret|]. eapply writes_conf_only; [|apply runtime_only]. left. unfold own_files. set_solver. }
    apply writes_seq; [destruct (_ && _); [apply writes_ret|apply writes_act]|]. apply writes_seq; [done|apply writes_ret].
  - apply writes_all; [done|intros errs]. apply writes_all.
    { apply writes_conf. intros fs r fs' H path Hp. eapply mcp_writes; [exact H| |].
      - intros ->. apply Hp. left. unfold own_files. set_solver.
      - cbn. intros Hsh Hin. apply Hp. right. right. split; [|done]. unfold ownsHomeResources. by rw Es Hsh. }
    intros errs1. apply writes_all.
    { fold res. destruct res; cbn [andb]; [|apply writes_ret]. destruct (negb _); [apply writes_res|apply writes_ret]. }
    intros errs2. apply writes_all.
    { fold res. destruct res; cbn [andb]; [|apply writes_ret]. destruct (negb _); [apply writes_res|apply writes_ret]. }
    intros errs3. apply writes_all; [done|]. intros errs4. destruct (no_items errs4); apply writes_ret.
Qed.

(** Applying the configuration of a new session, whatever fails, changes no
    file but the session's own MCP and prompt files below its state root, the
    editor's LLM files of its HOME when an LLM is given, and the editor's MCP
    files of its HOME when that HOME is its own: in the shared and the system
    tier no editor's MCP file outside the LLM files changes, and no skill or
    plugin directory does. *)
Theorem initial_config_scope h opts ses spec s r s' :
  applyInitialConfig h opts ses spec s = (r, s') →
  (∀ path, ¬ config_scope ses spec path → p_files s' !! path = p_files s !! path) ∧
  (isSystemEnv (pv_spec spec) = true ∨ isSharedEnv (pv_spec spec) = true → p_rst s' = p_rst s).
Proof.
  intros H. destruct (config_writes h opts ses spec _ _ _ H) as (_ & H1 & H2). split; [exact H1|]. intros Ht. apply H2.
  unfold ownsHomeResources. destruct Ht as [-> | ->]; [done|]. by destruct (isSystemEnv _).
Qed.

(** ** The whole provisioning *)
Definition traces {A} (Q : nat → pop → Prop) (m : P A) : Prop := ∀ s a s', m s = (a, s') →
  ∃ ops, p_ops s' = p_ops s ++ ops ∧ ∀ i op, ops !! i = Some op → Q (length (p_ops s) + i) op.
Lemma emits_traces {A} Q (m : P A) : emits Q m → traces Q m.
Proof. intros H s a s' E. by destruct (H s a s' E) as [? _]. Qed.
Lemma writes_traces {A} Q S res (m : P A) : writes S res m → traces Q m.
Proof. intros H s a s' E. destruct (H s a s' E) as [-> _]. exists []. by rw app_nil_r. Qed.
Lemma traces_bind {A B} Q (m : P A) (f : A → P B) : traces Q m → (∀ a, traces Q (f a)) → traces Q (m ≫= f).
Proof.
  intros Hm Hf s b s' H. unfold mbind, P_bind in H. destruct (m s) as [a s1] eqn:E.
  destruct (Hm _ _ _ E) as (o1 & T1 & C1). destruct (Hf a _ _ _ H) as (o2 & T2 & C2).
  exists (o1 ++ o2). rw T2 T1 app_assoc. split; [done|]. intros i op Hi. apply lookup_app_Some in Hi as [Hi|[Hl Hi]]; [by apply C1|].
  specialize (C2 _ _ Hi). rw T1 length_app in C2. by rw (_ : length (p_ops s) + i = length (p_ops s) + length o1 + (i - length o1)); [|lia].
Qed.
(** the part after the working tree *)
Definition finish (h : phost) (opts : sessionOptions) (ses : psession) (spec : ProvisionSpec) : P outcome :=
  provisionAssociatedRepos h (ps_workDir ses) (pv_env spec) ;;
  let syncs := negb (no_items (pv_skills spec)) || negb (no_items (pv_plugins spec)) in
  (if syncs then stage_report ResourceSync true "" else mret ()) ;;
  r ← applyInitialConfig h opts ses spec;
  let files_on := bool_decide (ph_listen h = None) in
  let start := negb (cs_DeferStart (pv_spec spec)) in
  match r with
  | APanic => mret OPanicked
  | AOk => mret (OReady files_on None start)
  | AErr e => (if syncs then stage_report ResourceSync false e else mret ()) ;; mret (OReady files_on (Some e) start)
  end.
Lemma provision_eq h opts ses spec :
  provisionSession h opts ses spec = (prepare_tree h opts ses spec ≫= λ r, match r with Some e => mret (ORemoved e) | None => finish h opts ses spec end).
Proof. done. Qed.
Lemma finish_traces h opts ses spec Q :
  (∀ n ok e, Q n (PStage ResourceSync ok e)) → traces Q (provisionAssociatedRepos h (ps_workDir ses) (pv_env spec)) → traces Q (finish h opts ses spec).
Proof.
  intros Hs Ha. unfold finish. apply traces_bind; [done|intros _]. cbv zeta.
  assert (∀ ok e, traces Q (stage_report ResourceSync ok e)) as Hr by (intros ok e; by apply emits_traces, emits_record).
  assert (∀ A (a : A), traces Q (mret a)) as Hret by (intros A a; apply emits_traces, emits_ret).
  apply traces_bind; [destruct (_ || _); done|intros _]. apply traces_bind; [eapply writes_traces, config_writes|].
  intros [|e|]; [done| |done]. apply traces_bind; [destruct (_ || _); done|done].
Qed.

(** C28: Provisioning a session removes no checkout it can see: every directory
    it removes before cloning was read two requests earlier, and then did not
    exist or held nothing but the node's own scratch entries, so if nothing
    else touches the directory between that read and the removal (in the
    managed layouts the node's workspace lock keeps its other sessions away; in
    fresh mode and against other processes nothing does) no checkout is lost.
    The directory is the session's working directory, the directory asked for
    in fresh mode, or a direct child of the working directory for an
    associated repository: an adopted checkout itself is never removed. *)
Theorem provision_keeps_checkouts h opts ses spec s o s' :
  provisionSession h opts ses spec s = (o, s') →
  ∃ ops, p_ops s' = p_ops s ++ ops ∧
  ∀ i p, ops !! i = Some (PRemoveAll p) →
    clearable ses spec p ∧
    ∃ m, length (p_ops s) + i = S (S m) ∧ only_scratch (ph_read h m p) ∧
      (ph_read h (S (S m)) p = ph_read h m p → only_scratch (ph_read h (length (p_ops s) + i) p)).
Proof.
  intros H. assert (traces (safe_removal h (clearable ses spec)) (provisionSession h opts ses spec)) as Ht.
  { rw provision_eq. apply traces_bind; [apply emits_traces, prepare_removals|]. intros [e|]; [apply emits_traces, emits_ret|].
    apply finish_traces; [done|]. apply emits_traces, associated_removals. intros p Hp. right. by right. }
  destruct (Ht _ _ _ H) as (ops & Ho & HQ). exists ops. split; [done|]. intros i p Hi.
  destruct (HQ _ _ Hi) as (Hc & m & Hm & Hs). split; [done|]. exists m. split; [done|]. split; [done|]. intros Hsame. by rw Hm Hsame.
Qed.

(** ** Failures *)
Definition quiet (op : pop) : Prop := ∀ e, op ≠ PStage GitClone false e.
Definition quiet_at (n : nat) (op : pop) : Prop := quiet op.
Lemma quiet_all s s' ops : p_ops s' = p_ops s ++ ops → (∀ i op, ops !! i = Some op → quiet_at (length (p_ops s) + i) op) → Forall quiet ops.
Proof. intros _ H. apply Forall_lookup. intros i op Hi. exact (H _ _ Hi). Qed.
Section failures.
Variables (h : phost) (opts : sessionOptions).
Ltac quiets := repeat first [apply emits_ret | apply emits_git | apply emits_ask | apply emits_record | apply emits_wrapped | apply emits_and
  | apply emits_count; intros ? | apply emits_bind; [|intros ?] | by intros ? ? ?].
Lemma provisionGit_quiet workDir git : emits quiet_at (provisionGit h workDir git).
Proof.
  unfold provisionGit, initialized, resetStale. destruct (credentials h git) as [url args]. quiets.
  destruct a as [[]|]; quiets.
  - destruct (ph_read h _ _); quiets.
  - destruct (String.eqb _ ""); quiets. destruct a; quiets.
  - destruct (negb _); quiets. destruct (String.eqb _ ""); quiets.
Qed.
Lemma link_quiet worktreeDir sourceDir names : emits quiet_at (linkSharedDeps h worktreeDir sourceDir names).
Proof.
  induction names as [|name names IH]; cbn [linkSharedDeps]; quiets; [|done]. destruct (_ && _); quiets. destruct a; quiets.
Qed.
Lemma cut_quiet spec git : emits quiet_at (cutWorktree h opts spec git).
Proof.
  apply emits_count. intros n. cbv zeta.
  match goal with |- context [prepareWorktree ?a ?b ?c ?d] => destruct (prepareWorktree a b c d) as [r cmds] end.
  apply emits_bind; [|intros _; apply emits_ret]. apply emits_record_all. intros m op (c & -> & _)%list_elem_of_fmap. by destruct c.
Qed.
Lemma associated_quiet workDir env : emits quiet_at (provisionAssociatedRepos h workDir env).
Proof.
  induction env as [|item env IH]; cbn [provisionAssociatedRepos]; [apply emits_ret|]. apply emits_bind; [|by intros _]. unfold provision_dep.
  destruct (HasPrefix _ depGitEnvPrefix).
  - destruct (parse_dep _) as [dep|]; [|apply emits_ret]. destruct (_ || _); [apply emits_ret|].
    apply emits_bind; [apply provisionGit_quiet|intros _; apply emits_ret].
  - destruct (HasPrefix _ depPlaceholderEnvPrefix); [|apply emits_ret]. destruct (Index _ _); [|apply emits_ret].
    destruct (String.eqb _ ""); quiets. destruct a; quiets.
Qed.
(** a failing preparation ends with its report, and only there *)
Definition reported (m : P (option string)) : Prop := ∀ s r s', m s = (r, s') →
  p_files s' = p_files s ∧ p_rst s' = p_rst s ∧
  ∃ ops, p_ops s' = p_ops s ++ ops ∧ Forall quiet ops ∧ r = None ∨
  ∃ ops e, p_ops s' = p_ops s ++ ops ++ [PStage GitClone false e] ∧ Forall quiet ops ∧ r = Some e.
Lemma reported_quiet (m : P ()) : emits quiet_at m → reported (m ;; mret None).
Proof.
  intros Hm s r s' H. unfold mbind, P_bind, mret, P_ret in H. destruct (m s) as [a s1] eqn:E. injection H as <- <-.
  destruct (Hm _ _ _ E) as ((ops & Ho & HQ) & F & R & _). split; [done|]. split; [done|]. exists ops. left. split; [done|]. split; [|done].
  by eapply quiet_all.
Qed.
Lemma reported_then (m : P (option string)) (created : string → string) :
  emits quiet_at m →
  reported (m ≫= λ r, match r with Some e => stage_report GitClone false (created e) ;; mret (Some (created e)) | None => mret None end).
Proof.
  intros Hm s r s' H. unfold mbind, P_bind in H. destruct (m s) as [a s1] eqn:E.
  destruct (Hm _ _ _ E) as ((ops & Ho & HQ) & F & R & _). pose proof (quiet_all _ _ _ Ho HQ) as Hq.
  destruct a as [e|]; cbn in H; injection H as <- <-; (split; [done|]; split; [done|]).
  - exists ops. right. exists ops, (created e). split_and!; [|done|done]. cbn. by rw Ho app_assoc.
  - exists ops. by left.
Qed.
Lemma reported_first (m : P ()) (k : P (option string)) : emits quiet_at m → reported k → reported (m ;; k).
Proof.
  intros Hm Hk s r s' H. unfold mbind, P_bind in H. destruct (m s) as [a s1] eqn:E.
  destruct (Hm _ _ _ E) as ((o1 & T1 & C1) & F1 & R1 & _). pose proof (quiet_all _ _ _ T1 C1) as Q1.
  destruct (Hk _ _ _ H) as (F2 & R2 & ops & Hor). split; [congruence|]. split; [congruence|].
  destruct Hor as [(T2 & Q2 & ->)|(ops2 & e & T2 & Q2 & ->)].
  - exists (o1 ++ ops). left. split_and!; [by rw T2 T1 app_assoc|by apply Forall_app|done].
  - exists []. right. exists (o1 ++ ops2), e. split_and!; [by rw T2 T1 !app_assoc|by apply Forall_app|done].
Qed.
Lemma reported_ret : reported (mret None).
Proof. intros s r s' [= <- <-]. split; [done|]. split; [done|]. exists []. left. by rw app_nil_r. Qed.
Lemma prepare_reported ses spec : reported (prepare_tree h opts ses spec).
Proof.
  unfold prepare_tree. cbv zeta. destruct (negb _).
  - apply reported_first; [by apply emits_record|]. destruct (String.eqb _ workspaceModeFresh).
    + destruct (git_url spec) as [git|]; [|apply reported_ret].
      apply (reported_then _ (λ e, "create session " +:+ TrimSpace (cs_SessionId (pv_spec spec)) +:+ ": " +:+ e)), provisionGit_quiet.
    + intros s r s' H. unfold mbind, P_bind, count in H. cbn in H. destruct (ph_isDir h _ _).
      * by apply reported_ret.
      * injection H as <- <-. split; [done|]. split; [done|]. exists []. right. eexists [], _. by split_and!.
  - destruct (git_url spec) as [git|]; [|apply reported_ret]. apply reported_first; [by apply emits_record|].
    apply (reported_then _ (λ e, "create session " +:+ TrimSpace (cs_SessionId (pv_spec spec)) +:+ ": " +:+ e)). destruct (negb _).
    + apply emits_bind; [apply cut_quiet|]. intros [path|e]; [|apply emits_ret]. apply emits_bind; [apply link_quiet|intros _; apply emits_ret].
    + apply provisionGit_quiet.
Qed.
Lemma finish_outcome ses spec s o s' :
  finish h opts ses spec s = (o, s') → match o with ORemoved _ => False | OPanicked => True | OReady _ _ start => start = negb (cs_DeferStart (pv_spec spec)) end.
Proof.
  unfold finish, mbind, P_bind. cbv zeta. destruct (provisionAssociatedRepos _ _ _ s) as [[] s1]. destruct (_ || _).
  all: intros H; cbn [mret P_ret stage_report record] in H; revert H.
  all: match goal with |- context [applyInitialConfig ?a ?b ?c ?d ?z] => destruct (applyInitialConfig a b c d z) as [[|e|] s3] end.
  all: by intros [= <- _].
Qed.
End failures.
Lemma concluded fo ce start sel node :
  se_registered node = true → se_provisioning node = true → ns_state (se_s node) = sessionProvisioning →
  let node' := conclude (OReady fo ce start) sel node in
  se_registered node' = true ∧ se_provisioning node' = false ∧
  if start && is_ok sel then ns_state (se_s node') = sessionRunning ∧ ∃ r, se_runs node' = se_runs node ++ [r]
  else ns_state (se_s node') = sessionProvisioned ∧ se_runs node' = se_runs node.
Proof.
  intros Hreg Hprov Hst. cbv zeta. cbn [conclude]. unfold Session.provisioned. rw Hprov. cbn. rw Hst. rw bool_decide_eq_true_2 //. cbn.
  destruct start; cbn; [|done]. unfold startRuntime. cbn. rw Hreg. cbn. destruct sel as [kind|e]; cbn; [|done].
  split; [done|]. split; [done|]. split; [done|]. by eexists.
Qed.

(** C27: When the working tree cannot be prepared the failure is reported
    exactly once, as the last thing done, no configuration was written, and
    the session leaves the table without having started a runtime.  Otherwise
    no failure of the working tree is reported and, whatever configuration
    write fails (a write that panics ends the node and is no outcome of the
    session), a session that no other command touched meanwhile stays in the
    table and is provisioned; its runtime is running, as one new run, exactly
    when the request did not defer the start and an executor could be
    selected. *)
Theorem provision_outcome h opts ses spec s o s' sel node :
  provisionSession h opts ses spec s = (o, s') →
  se_registered node = true → se_provisioning node = true → ns_state (se_s node) = sessionProvisioning →
  let node' := conclude o sel node in
  ∃ ops, p_ops s' = p_ops s ++ ops ∧
  match o with
  | ORemoved e =>
      (∃ before, ops = before ++ [PStage GitClone false e] ∧ Forall quiet before) ∧ p_files s' = p_files s ∧ p_rst s' = p_rst s ∧
      se_registered node' = false ∧ se_runs node' = se_runs node
  | OPanicked => Forall quiet ops
  | OReady _ _ _ => Forall quiet ops ∧ se_registered node' = true ∧ se_provisioning node' = false ∧
      if negb (cs_DeferStart (pv_spec spec)) && is_ok sel
      then ns_state (se_s node') = sessionRunning ∧ ∃ r, se_runs node' = se_runs node ++ [r]
      else ns_state (se_s node') = sessionProvisioned ∧ se_runs node' = se_runs node
  end.
Proof.
  intros H Hreg Hprov Hst. cbv zeta. revert H.
  rw provision_eq. unfold mbind at 1, P_bind. destruct (prepare_tree h opts ses spec s) as [r s1] eqn:E.
  destruct (prepare_reported h opts ses spec _ _ _ E) as (F & R & ops & [(T1 & Q1 & ->)|(ops1 & e & T1 & Q1 & ->)]).
  - intros H. assert (traces quiet_at (finish h opts ses spec)) as Ht.
    { apply finish_traces; [by intros n ok e e'|]. apply emits_traces, associated_quiet. }
    destruct (Ht _ _ _ H) as (o2 & T2 & C2). pose proof (quiet_all _ _ _ T2 C2) as Q2.
    exists (ops ++ o2). split; [by rw T2 T1 app_assoc|]. assert (Forall quiet (ops ++ o2)) as Hq by (by apply Forall_app).
    pose proof (finish_outcome _ _ _ _ _ _ _ H) as Ho. destruct o as [| |fo ce start]; [done|done|]. split; [done|].
    subst start. by apply concluded.
  - intros [= <- <-]. exists (ops1 ++ [PStage GitClone false e]). split; [done|]. split_and!; [by exists ops1|done|done|..].
    all: cbn; unfold removeFailedSession; by rw Hprov.
Qed.

(** ** Starting over *)
(** Clearing the runtime state of a session keeps the runtime's MCP file as
    it was, removes every other file below the state root, and changes nothing
    else. *)
Theorem reset_keeps_mcp h rm stateRoot fs fs' :
  resetRuntimeState h rm stateRoot fs = (None, fs') →
  (∀ c, fs !! runtimeMCPConfigPath stateRoot = Some c → empty_content c = false → fs' !! runtimeMCPConfigPath stateRoot = Some c) ∧
  (∀ p, p ≠ runtimeMCPConfigPath stateRoot → fs' !! p = if below stateRoot p then None else fs !! p).
Proof.
  unfold resetRuntimeState. set (path := runtimeMCPConfigPath stateRoot). set (fs1 := filter _ fs).
  assert (Hf : ∀ p, fs1 !! p = if below stateRoot p then None else fs !! p).
  { intros p. unfold fs1. destruct (below stateRoot p) eqn:E.
    - apply map_lookup_filter_None_2. right. intros x _ Hx. change (below stateRoot p = false) in Hx. congruence.
    - destruct (fs !! p) as [c|] eqn:Ec; [by apply map_lookup_filter_Some|]. apply map_lookup_filter_None_2. by left. }
  destruct (fs !! path) as [c|] eqn:Ec.
  - destruct (ch_read h path); [done|]. destruct rm as [[e l]|]; [done|]. destruct (ch_mkdir h stateRoot); [done|].
    destruct (empty_content c) eqn:Ee; [intros [= <-]; split; [intros c' [= <-] Hc; congruence|by intros p _]|].
    destruct (ch_mkdir h (Dir path)); [done|]. destruct (ch_write h path) as [[e k]|]; [done|]. intros [= <-]. split.
    + intros c' [= <-] _. by rw lookup_insert_eq.
    + intros p Hp. by rw lookup_insert_ne.
  - destruct rm as [[e l]|]; [done|]. destruct (ch_mkdir h stateRoot); [done|]. intros [= <-]. split; [done|]. by intros p _.
Qed.

(** ** At concrete requests *)
Module ProvisionWitness.
Definition ok_conf : chost := mkChost (λ _, None) (λ _, None) (λ _, None) (λ _, None) Some.
Definition ok_res : rhost := mkRhost (λ _, None) (λ _, Err "not here") (λ _, (None, None)) (λ _, HttpReply 404 "" (Err "")) (λ _, true) (λ n _, n) id.
(** the working directory holds what a failed attempt left; the clone fails in [down] *)
Definition host (down : bool) (dirs : string → bool) (readdir : nat → string → dir_read) : phost :=
  mkPhost (λ _ _, None) (λ _ _ _, if down then Some ("fatal: no route", "exit status 128") else None) readdir (λ _, dirs) (λ _ _, false)
    (λ _, None) id None "https://gw.example" (λ _, None) id ok_conf ok_res.
Definition stale : nat → string → dir_read := λ n p, if String.eqb p "/w/tasks/t1" then Entries [".agent-compose"] else Missing.
Definition up : phost := host false (λ _, true) stale.
Definition down : phost := host true (λ _, true) stale.
Definition opts : sessionOptions := mkOptions "/w" ["claude"; "codex"] false true.
Definition request (tags : gmap string string) (envMode : string) : NodeCreateSession :=
  mkCreate "s1" "t1" "codex" tags envMode "" None "" "" true true "" "" [] [].
Definition git : NodeGit := mkGit (mkGitSpec "https://git.example/app" "main" "" "" false) "" "" "".
Definition llm : EditorConfig.NodeLLMConfig := mkLlm "https://llm.example/" "m-1" "chat" "key" ∅.
Definition issue : MCPServerSpec := mkMcp "issue" "" "" [] [] "/mcp/issue/sse" "" [].
Definition dep : EnvVarSpec := mkEnvVar "AI_LUBRICANT_DEP_PLACEHOLDER_1" "lib|lib".
Definition spec (tags : gmap string string) (envMode : string) : ProvisionSpec :=
  mkPSpec (request tags envMode) (Some git) (Some llm) [issue] [] [] "be brief" [dep].
Definition ses : psession := mkPses "/w/tasks/t1" "/w/tasks/t1/.agent-compose/sessions/s1/state" "/w/home" "codex" "/w/skills" "/w/plugins" "" "".
Definition s0 : pst := mkPst [] ∅ (mkRst ∅ ∅ 0 []) ActMissing.
Definition plain : ProvisionSpec := spec ∅ "".
Definition shared : ProvisionSpec := spec ∅ "shared".

Definition configured : applied * pst := Eval vm_compute in applyInitialConfig up opts ses shared s0.
Lemma initial_config_scope_witness :
  p_files configured.2 !! claudeMCPPath "/w/home" = None ∧ p_files configured.2 !! runtimeMCPConfigPath (ps_stateRoot ses) ≠ None ∧
  p_rst configured.2 = p_rst s0.
Proof.
  assert (E : applyInitialConfig up opts ses shared s0 = (configured.1, configured.2)) by (vm_compute; reflexivity).
  destruct (initial_config_scope up opts ses shared s0 configured.1 configured.2 E) as [H1 H2]. split_and!.
  - rw H1; [reflexivity|]. unfold config_scope, own_files, llm_files. intros [H|[[_ H]|[H _]]].
    + rw !elem_of_cons in H. destruct H as [H|[H|H]]; [vm_compute in H; discriminate H..|by apply elem_of_nil in H].
    + rw !elem_of_cons in H. destruct H as [H|[H|[H|H]]]; [vm_compute in H; discriminate H..|by apply elem_of_nil in H].
    + vm_compute in H. discriminate H.
  - vm_compute. discriminate.
  - apply H2. right. reflexivity.
Defined.
Definition provisioned : outcome * pst := Eval vm_compute in provisionSession up opts ses plain s0.
Lemma provision_keeps_checkouts_witness : p_ops provisioned.2 !! 3 = Some (PRemoveAll "/w/tasks/t1") ∧ clearable ses plain "/w/tasks/t1".
Proof.
  assert (E : provisionSession up opts ses plain s0 = (provisioned.1, provisioned.2)) by (vm_compute; reflexivity).
  destruct (provision_keeps_checkouts up opts ses plain s0 provisioned.1 provisioned.2 E) as (ops & Ho & H).
  change (p_ops s0 ++ ops) with ops in Ho. split; [vm_compute; reflexivity|]. apply (H 3). rewrite <- Ho. vm_compute. reflexivity.
Defined.
Definition failed : outcome * pst := Eval vm_compute in provisionSession down opts ses plain s0.
Definition clone_error : string := Eval vm_compute in match failed.1 with ORemoved e => e | _ => "" end.
Definition new_node : sess := new_session (pv_spec plain) None.
Lemma provision_outcome_witness :
  (∃ before, p_ops failed.2 = before ++ [PStage GitClone false clone_error] ∧ Forall quiet before ∧ p_files failed.2 = ∅) ∧
  se_registered (conclude (ORemoved clone_error) (Ok KStream) new_node) = false.
Proof.
  assert (E : provisionSession down opts ses plain s0 = (ORemoved clone_error, failed.2)) by (vm_compute; reflexivity).
  destruct (provision_outcome down opts ses plain s0 (ORemoved clone_error) failed.2 (Ok KStream) new_node E eq_refl eq_refl eq_refl)
    as (ops & Ho & (before & -> & Hq) & F & _ & Hreg & _).
  split; [|exact Hreg]. exists before. split; [exact Ho|]. split; [exact Hq|exact F].
Defined.
Definition running : files :=
  {[runtimeMCPConfigPath "/st" := CText "{}"; agentSystemPromptPath "/st" := CText "be brief"; "/w/main.go" := CText "package main"]}.
Definition cleared : files := Eval vm_compute in (resetRuntimeState ok_conf None "/st" running).2.
Lemma reset_keeps_mcp_witness :
  cleared !! runtimeMCPConfigPath "/st" = Some (CText "{}") ∧ cleared !! "/w/main.go" = Some (CText "package main").
Proof.
  assert (E : resetRuntimeState ok_conf None "/st" running = (None, cleared)) by (vm_compute; reflexivity).
  destruct (reset_keeps_mcp ok_conf None "/st" running cleared E) as [H1 H2].
  split; [by apply H1|]. rw H2; [reflexivity|discriminate].
Defined.
(** The system prompt of the session is below the state root: starting over drops it. *)
Lemma reset_drops_prompt : running !! agentSystemPromptPath "/st" ≠ None ∧ cleared !! agentSystemPromptPath "/st" = None.
Proof. split; [vm_compute; discriminate|vm_compute; reflexivity]. Qed.
(** A repository associated with the task is written into an adopted checkout. *)
Definition adopted : ProvisionSpec := spec {["workspace_mode" := "external"; "external_workdir" := "/home/op/app"]} "".
Definition op_ses : psession := mkPses "/home/op/app" "/w/st" "/w/home" "codex" "/w/skills" "/w/plugins" "" "".
Lemma adopted_checkout_written :
  externalWorktreePath (pv_spec adopted) = "/home/op/app" ∧
  PWrite "/home/op/app/lib/README.md" (placeholder_note "lib") ∈ p_ops (provisionSession up opts op_ses adopted s0).2.
Proof. split; [vm_compute; reflexivity|]. apply (list_elem_of_lookup_2 _ 2). vm_compute. reflexivity. Qed.
(** In the system tier the codex configuration of the operator's HOME is rewritten,
    and an MCP server given by a path keeps it. *)
Definition system : ProvisionSpec := spec ∅ "system".
Definition op_home : psession := mkPses "/w/tasks/t1" "/w/st" "/home/op" "codex" "/w/skills" "/w/plugins" "" "".
Definition after_system : files := Eval vm_compute in p_files (applyInitialConfig up opts op_home system s0).2.
Lemma system_tier_writes_home : isSystemEnv (pv_spec system) = true ∧ after_system !! codexConfigPath "/home/op" ≠ None.
Proof. split; [reflexivity|vm_compute; discriminate]. Qed.
Lemma system_tier_relative_mcp :
  after_system !! runtimeMCPConfigPath "/w/st" = Some (CJson (obj {["mcps" := obj (servers runtime_entry [issue])]})) ∧
  resolveMCPURLs (ph_gateway up) [issue] ≠ [issue].
Proof. split; [vm_compute; reflexivity|vm_compute; discriminate]. Qed.
(** A task directory that holds nothing but the runtime directory of another session is removed with it. *)
Lemma live_runtime_removed :
  PRemoveAll "/w/tasks/t1" ∈ p_ops (provisionSession up opts ses plain s0).2 ∧
  stale 3 "/w/tasks/t1" = Entries [".agent-compose"] ∧ HasPrefix (ps_stateRoot ses) "/w/tasks/t1/.agent-compose/sessions/" = true.
Proof. split_and!; [|reflexivity|reflexivity]. apply (list_elem_of_lookup_2 _ 3). vm_compute. reflexivity. Qed.
(** The directory is looked at twice, and the second time only for being there: in
    fresh mode, which takes no lock, the checkout another session made in
    between is removed. *)
Definition fresh : ProvisionSpec := spec {["workspace_mode" := "fresh"; "external_workdir" := "/home/op/app"]} "".
Definition racing : phost := host false (λ _, true) (λ n p, if n <=? 1 then Missing else Entries [".git"; "main.go"]).
Lemma fresh_mode_race :
  workspaceMode (pv_spec fresh) = workspaceModeFresh ∧ externalWorktreePath (pv_spec fresh) = "/home/op/app" ∧
  p_ops (provisionSession racing opts op_ses fresh s0).2 !! 3 = Some (PRemoveAll "/home/op/app") ∧
  ph_read racing 3 "/home/op/app" = Entries [".git"; "main.go"].
Proof. split_and!; vm_compute; reflexivity. Qed.
End ProvisionWitness.
