(* ===== verification/Upgrade.v ===== *)
(** * Upgrade: replacing the runtime and the node's own program
    (common/agent/runtimeupgrade.go, selfupgrade.go, selfupgrade_unix.go,
    selfupgrade_windows.go, progressdownload.go)

    The paths an upgrade works on are siblings, so the disk is a map from such a
    path to the tree that is there; what lies below a path is looked up in its
    tree.  The host answers each operation by its number: the operation may fail,
    and a failing one says what it leaves.  Archives are what gzip and tar read
    from the bytes that were downloaded.  The texts of progress events are left
    out; their stages, percentages and byte counts are kept. *)
From S2P Require Import Prelude GoStrings GoPath GoJson Archive Sha256 NodeClient XcodeJob Resources SystemEnv FileService.
From Stdlib Require Import Ascii.
Open Scope nat_scope.

(** ** State and host *)
Record uevent := mkUEvent { ue_stage : string; ue_percent : Z; ue_current : Z; ue_total : Z }.
Record chunk := mkChunk {
  ck_data : string;                                (** what Read returns *)
  ck_write : option (string * string);             (** the write fails, after these bytes *)
  ck_due : bool;                                   (** five seconds since the last event *)
  ck_end : read_end
}.
Inductive http_answer := AError (e : string) | AStatus (code : Z) | ABody (contentLength : Z) (reads : list chunk).
(** the bytes up to the end of the body *)
Fixpoint body_of (reads : list chunk) : string :=
  match reads with
  | [] => ""
  | r :: reads => ck_data r +:+ match ck_end r with ReadMore => body_of reads | _ => "" end
  end.
Record ust := mkUst {
  u_fs : gmap string node;
  u_n : nat;                                       (** operations done *)
  u_looks : nat;                                   (** looks at the context *)
  u_gets : list string;                            (** URLs requested *)
  u_events : list uevent
}.
#[export] Instance eta_ust : Settable ust := λ s, mkUst (u_fs s) (u_n s) (u_looks s) (u_gets s) (u_events s).
Record uhost := mkUhost {
  uh_io : nat → option (string * option node);     (** the n-th operation fails and leaves this *)
  uh_ctx : nat → option string;                    (** ctx.Err() *)
  uh_client : proxySpec → option string;           (** the error returned for httpClientForProxy or NewRequest *)
  uh_http : nat → http_answer;                     (** the n-th request *)
  uh_tar : string → result (list tar_entry * option string);   (** gzip and tar on these bytes *)
  uh_os : fs_op → bool;                            (** whether an unpacking operation is allowed *)
  uh_readlink : string → result string;            (** what reading through a link with this text gives *)
  uh_state : result string;                        (** stateDir *)
  uh_lookPath : string → result string;            (** LookPath *)
  uh_exec : string → list string → string * option string;     (** output and error *)
  uh_windows : bool;
  uh_dockerenv : bool; uh_cgroup : option string;  (** /.dockerenv exists, /proc/1/cgroup *)
  uh_exe : result string; uh_links : string → result string;   (** os.Executable, EvalSymlinks *)
  uh_start : option string                         (** the new process does not start *)
}.
Definition U (A : Type) : Type := ust → result A * ust.
#[export] Instance U_ret : MRet U := λ A a s, (Ok a, s).
#[export] Instance U_bind : MBind U := λ A B f m s,
  match m s with
  | (Ok a, s') => f a s'
  | (Err e, s') => (Err e, s')
  end.
Definition fail {A} (e : string) : U A := λ s, (Err e, s).
(** the call's error as a value *)
Definition attempt {A} (m : U A) : U (result A) := λ s, let '(r, s) := m s in (Ok r, s).
(** [_ = call()] *)
Definition ignore {A} (m : U A) : U () := attempt m ;; mret ().
(** [if err != nil { f; return fmt.Errorf(what, err) }] *)
Definition orElse {A} (m : U A) (f : string → U ()) (what : string) : U A :=
  r ← attempt m; match r with Ok a => mret a | Err e => f e ;; fail (what +:+ e) end.
(** [defer f()] *)
Definition deferring {A} (f : U ()) (m : U A) : U A := λ s, let '(r, s) := m s in (r, (f s).2).
Definition emit (stage : string) (percent current total : Z) : U () := λ s,
  (Ok (), s <| u_events := u_events s ++ [mkUEvent stage percent current total] |>).
Definition failed : U () := emit "failed" 0 0 0.

Section upgrade.
Variable h : uhost.
(** ** The disk *)
Definition look : U (option string) := λ s, (Ok (uh_ctx h (u_looks s)), s <| u_looks := S (u_looks s) |>).
(** one operation: [bad] is what a failing one does to the disk *)
Definition sys {A} (bad : option node → gmap string node → gmap string node)
    (act : gmap string node → result A * gmap string node) : U A := λ s,
  let n := u_n s in
  let s := s <| u_n := S n |> in
  match uh_io h n with
  | Some (e, kept) => (Err e, s <| u_fs := bad kept (u_fs s) |>)
  | None => let '(r, fs) := act (u_fs s) in (r, s <| u_fs := fs |>)
  end.
Definition same (kept : option node) (fs : gmap string node) : gmap string node := fs.
Definition leaves (p : string) (kept : option node) (fs : gmap string node) : gmap string node := partial_alter (λ _, kept) p fs.
Definition leaves_if (p : string) (kept : option node) (fs : gmap string node) : gmap string node :=
  partial_alter (λ old, match old with Some _ => kept | None => None end) p fs.
Definition statPath (p : string) : U node :=
  sys same (λ fs, (match fs !! p with Some n => Ok n | None => Err enoent end, fs)).
Definition mkdirParent (p : string) : U () := sys same (λ fs, (Ok (), fs)).
Definition removePath (p : string) : U () :=
  sys same (λ fs, match fs !! p with
                  | None => (Err enoent, fs)
                  | Some (NDir (_ :: _)) => (Err "directory not empty", fs)
                  | Some _ => (Ok (), base.delete p fs)
                  end).
Definition removeTree (p : string) : U () := sys (leaves_if p) (λ fs, (Ok (), base.delete p fs)).
(** os.Rename: a directory at the destination is refused *)
Definition rename (src dst : string) : U () :=
  sys same (λ fs,
    match fs !! src with
    | None => (Err enoent, fs)
    | Some n =>
        match fs !! dst with
        | Some (NDir _) => (Err "file exists", fs)
        | Some _ => if is_dir n then (Err "not a directory", fs) else (Ok (), <[dst := n]> (base.delete src fs))
        | None => (Ok (), <[dst := n]> (base.delete src fs))
        end
    end).
Definition readPath (p : string) : U string :=
  sys same (λ fs, (match fs !! p with Some (NDir _) => Err "is a directory" | Some n => Ok (content_of n) | None => Err enoent end, fs)).
Definition createPath (p : string) : U () :=
  sys (leaves_if p) (λ fs, match fs !! p with Some (NDir _) => (Err "is a directory", fs) | _ => (Ok (), <[p := NFile ""]> fs) end).
Definition append_data (p data : string) : U () := λ s,
  (Ok (), s <| u_fs := alter (λ n, NFile (content_of n +:+ data)) p (u_fs s) |>).
Definition closePath (p : string) : U () := sys same (λ fs, (Ok (), fs)).
Definition chmodPath (p : string) : U () := sys same (λ fs, (match fs !! p with Some _ => Ok () | None => Err enoent end, fs)).

(** ** Download *)
Definition progressEmitBytes : Z := 4 * 2 ^ 20.
Definition downloadPercent (cur total : Z) : Z :=
  if (total <=? 0)%Z || (cur <=? 0)%Z then 0%Z
  else
    let pct := (5 + Z.quot (int64_of (90 * cur)) total)%Z in
    if (90 <? pct)%Z then 90%Z else pct.
Definition report (on : bool) (percent current total : Z) : U () := if on then emit "downloading" percent current total else mret ().
(** the read loop: the bytes written *)
Fixpoint copy_loop (on : bool) (finalURL part : string) (reads : list chunk) (n lastSizeEmit total : Z) : U Z :=
  c ← look;
  match c with
  | Some e => ignore (removePath part) ;; fail e
  | None =>
      match reads with
      | [] => mret n
      | r :: reads =>
          let got := negb (String.eqb (ck_data r) "") in
          match (if got then ck_write r else None) with
          | Some (e, written) => append_data part written ;; ignore (removePath part) ;; fail ("write " +:+ part +:+ ": " +:+ e)
          | None =>
              (if got then append_data part (ck_data r) else mret ()) ;;
              let n := (n + blen (ck_data r))%Z in
              let due := got && on && ((progressEmitBytes <=? n - lastSizeEmit)%Z || ck_due r) in
              report due (downloadPercent n total) n total ;;
              match ck_end r with
              | ReadEOF => mret n
              | ReadError e => ignore (removePath part) ;; fail ("download " +:+ finalURL +:+ ": " +:+ e)
              | ReadMore => copy_loop on finalURL part reads n (if due then n else lastSizeEmit) total
              end
          end
      end
  end.
Definition request (url : string) : U http_answer := λ s, (Ok (uh_http h (length (u_gets s))), s <| u_gets := u_gets s ++ [url] |>).
Definition progressDownloadOnce (on : bool) (url dest : string) (spec : proxySpec) : U () :=
  let finalURL := resolveDownloadURL spec url in
  match uh_client h spec with
  | Some e => fail e
  | None =>
      a ← request finalURL;
      match a with
      | AError e => fail ("download " +:+ finalURL +:+ ": " +:+ e)
      | AStatus code => fail ("download " +:+ finalURL +:+ ": status " +:+ itoa (Z.to_N code))
      | ABody total reads =>
          let part := dest +:+ ".part" in
          orElse (createPath part) (λ _, mret ()) ("create " +:+ part +:+ ": ") ;;
          n ← copy_loop on finalURL part reads 0 0 total;
          orElse (closePath part) (λ _, ignore (removePath part)) ("close " +:+ part +:+ ": ") ;;
          if (0 <? total)%Z && negb (n =? total)%Z then ignore (removePath part) ;; fail "truncated"
          else
            orElse (rename part dest) (λ _, ignore (removePath part)) ("finalize " +:+ dest +:+ ": ") ;;
            report on (downloadPercent n total) n total
      end
  end.
Definition progressDownload (on : bool) (url dest : string) (spec : proxySpec) : U () :=
  r ← attempt (progressDownloadOnce on url dest spec);
  match r with
  | Ok _ => mret ()
  | Err e =>
      c ← look;
      match c with
      | Some _ => fail e
      | None => report on 0 0 0 ;; progressDownloadOnce on url dest spec
      end
  end.
Definition downloadTo (url dest : string) (spec : proxySpec) : U () := progressDownload false url dest spec.
Definition verifySHA256 (path want : string) : U () :=
  data ← orElse (readPath path) (λ _, mret ()) "self-upgrade: open for checksum: ";
  let got := sha256hex data in
  if negb (EqualFold got (TrimSpace want)) then fail ("self-upgrade: checksum mismatch: got " +:+ got +:+ " want " +:+ want) else mret ().

(** ** Unpacking the runtime *)
(** The tree below [root] and the operations tried so far. *)
Definition X (A : Type) : Type := node * list fs_op → A * (node * list fs_op).
Definition rel_of (root p : string) : list string := drop (length (comps root)) (comps p).
Fixpoint put_in (cs : list string) (m n : node) : option node :=
  match cs with
  | [] => None
  | c :: cs =>
      match n with
      | NDir es =>
          match cs with
          | [] => match entry_of c es with None => Some (NDir (set_entry c m es)) | Some _ => None end
          | _ => child ← entry_of c es; child' ← put_in cs m child; Some (NDir (set_entry c child' es))
          end
      | _ => None
      end
  end.
(** whether a path goes through a link; [last]: its last component counts *)
Fixpoint through_link (last : bool) (cs : list string) (n : node) : bool :=
  match cs, n with
  | c :: cs, NDir es =>
      match entry_of c es with
      | Some (NLink _) => last || match cs with [] => false | _ => true end
      | Some m => through_link last cs m
      | None => false
      end
  | _, _ => false
  end.
(** The tree after an operation, [None] when it is impossible.  What is done
    through a link happens where the link leads and is not followed. *)
Definition apply_op (root : string) (op : fs_op) (n : node) : option node :=
  let cs := rel_of root (op_path op) in
  match op with
  | MkdirAll _ _ => if through_link true cs n then Some n else mkdir_in cs n
  | WriteFile _ _ data => if through_link false cs n then Some n else create_in cs data n
  | RemoveOne _ =>
      if through_link false cs n then Some n
      else match find_in cs n with
      | None | Some (NDir (_ :: _)) => None
      | Some _ => Some (remove_in None cs n)
      end
  | Symlink link _ => if through_link false cs n then Some n else put_in cs (NLink (uh_readlink h link)) n
  end.
Definition do_op (root : string) (op : fs_op) : X (option string) := λ '(n, ops),
  if uh_os h op then
    match apply_op root op n with
    | Some n' => (None, (n', ops ++ [op]))
    | None => (Some "cannot do this", (n, ops ++ [op]))
    end
  else (Some "not permitted", (n, ops ++ [op])).
Definition runtimeDirName : string := "runtime".
(** where an entry of the archive goes *)
Definition runtime_dest (root : string) (hdr : tar_entry) : result string :=
  match split_slash (Clean (th_name hdr)) with
  | part :: parts =>
      if negb (String.eqb part runtimeDirName) then Err ("runtime-upgrade: archive entry must be under runtime/: " +:+ th_name hdr)
      else
        let dest := Join [root; Join parts] in
        if negb (String.eqb dest root) && negb (HasPrefix dest (root +:+ "/"))
        then Err ("runtime-upgrade: archive entry escapes install dir: " +:+ th_name hdr) else Ok dest
  | [] => Err ("runtime-upgrade: archive entry must be under runtime/: " +:+ th_name hdr)
  end.
Definition write_entry (root dest : string) (mode : Z) (data : string) : X (option string) := λ x,
  match do_op root (MkdirAll (Dir dest) 493) x with
  | (Some e, x) => (Some e, x)
  | (None, x) => do_op root (WriteFile dest (Z.land mode 511) data) x
  end.
Definition runtime_entry_step (root : string) (hdr : tar_entry) : X (option string) := λ x,
  match runtime_dest root hdr with
  | Err e => (Some e, x)
  | Ok dest =>
      match th_type hdr with
      | TypeDir => do_op root (MkdirAll dest 493) x
      | TypeReg => write_entry root dest (th_mode hdr) (th_data hdr) x
      | TypeSymlink => (Some ("runtime-upgrade: links are not allowed in runtime archives: " +:+ th_name hdr), x)
      | TypeOther =>   (** a hard link has a link name *)
          (if String.eqb (th_link hdr) "" then None else Some ("runtime-upgrade: links are not allowed in runtime archives: " +:+ th_name hdr), x)
      end
  end.
Fixpoint runtime_entries (root : string) (entries : list tar_entry) (readErr : option string) : X (option string) := λ x,
  match entries with
  | [] => (match readErr with Some e => Some ("runtime-upgrade: read tar: " +:+ e) | None => None end, x)
  | hdr :: entries =>
      match runtime_entry_step root hdr x with
      | (Some e, x) => (Some e, x)
      | (None, x) => runtime_entries root entries readErr x
      end
  end.
Definition mkdirSlot (p : string) : U () :=
  sys same (λ fs, match fs !! p with
                  | None => (Ok (), <[p := NDir []]> fs)
                  | Some (NDir _) => (Ok (), fs)
                  | Some _ => (Err "not a directory", fs)
                  end).
(** unpacking into the tree at a path *)
Definition unpack (p : string) (m : X (option string)) : U () := λ s,
  let '(err, (n, _)) := m (default (NDir []) (u_fs s !! p), []) in
  (match err with Some e => Err e | None => Ok () end, s <| u_fs := <[p := n]> (u_fs s) |>).
Definition extractRuntimeArchive (archivePath stage : string) : U () :=
  data ← orElse (readPath archivePath) (λ _, mret ()) "runtime-upgrade: open archive: ";
  match uh_tar h data with
  | Err e => fail ("runtime-upgrade: read gzip: " +:+ e)
  | Ok (entries, readErr) =>
      mkdirSlot stage ;;
      unpack stage (runtime_entries (Clean stage) entries readErr)
  end.

(** ** The exchange of a directory *)
Definition exists_at (p : string) : U bool := r ← attempt (statPath p); mret (match r with Ok _ => true | Err _ => false end).
Definition swapDirs (target stage backup preserve activate : string) : U () :=
  ignore (removeTree backup) ;;
  present ← exists_at target;
  (if (present : bool) then orElse (rename target backup) (λ _, ignore (removeTree stage)) preserve else mret ()) ;;
  orElse (rename stage target)
    (λ _, kept ← exists_at backup; if (kept : bool) then ignore (rename backup target) else mret ()) activate ;;
  ignore (removeTree backup).

(** ** RuntimeUpgrade *)
Record UpgradeSpec := mkUpgrade {
  up_url : string; up_version : string; up_sha256 : string; up_proxyMode : string; up_proxyURL : string; up_proxyPrefix : string
}.
Definition upgrade_proxy (spec : UpgradeSpec) (fallback : proxySpec) : proxySpec :=
  let p := mkSpec (TrimSpace (up_proxyMode spec)) (TrimSpace (up_proxyURL spec)) (TrimSpace (up_proxyPrefix spec)) in
  if String.eqb (sp_mode p) "" && String.eqb (sp_url p) "" && String.eqb (sp_urlPrefix p) "" then fallback else p.
Definition runtimeReleaseMarker : string := ".release-version".
Definition RuntimeDir : result string := match uh_state h with Ok dir => Ok (Join [dir; runtimeDirName]) | Err e => Err e end.
Definition failing {A} (e : string) : U A := failed ;; fail e.
Definition cli_path : list string := ["dist"; "cli.js"].
(** os.Stat below a slot *)
Definition statBelow (p : string) (cs : list string) : U node :=
  sys same (λ fs, (match fs !! p ≫= find_in cs with Some (NLink (Err e)) => Err e | Some n => Ok n | None => Err enoent end, fs)).
Definition writeBelow (p : string) (cs : list string) (data : string) : U () :=
  sys (λ kept fs, match kept with Some n => alter (λ t, default t (create_in cs (content_of n) t)) p fs | None => fs end)
      (λ fs, match fs !! p ≫= create_in cs data with Some t => (Ok (), <[p := t]> fs) | None => (Err enoent, fs) end).
Definition install_runtime (spec : UpgradeSpec) (fallback : proxySpec) (url target : string) : U () :=
  let archivePath := target +:+ ".tar.gz.new" in
  let stage := target +:+ ".new" in
  let backup := target +:+ ".old" in
  emit "downloading" 0 0 0 ;;
  orElse (progressDownload true url archivePath (upgrade_proxy spec fallback)) (λ _, failed) "" ;;
  let want := TrimSpace (up_sha256 spec) in
  (if String.eqb want "" then mret ()
   else emit "verifying" 92 0 0 ;; orElse (verifySHA256 archivePath want) (λ _, failed) "") ;;
  emit "extracting" 96 0 0 ;;
  orElse (extractRuntimeArchive archivePath stage) (λ _, ignore (removeTree stage) ;; failed) "" ;;
  r ← attempt (statBelow stage cli_path);
  match r with
  | Err _ => ignore (removeTree stage) ;; failing "runtime-upgrade: archive is missing runtime/dist/cli.js"
  | Ok _ =>
      emit "activating" 98 0 0 ;;
      orElse (swapDirs target stage backup "runtime-upgrade: preserve current runtime: " "runtime-upgrade: activate staged runtime: ")
        (λ _, failed) "" ;;
      let tag := TrimSpace (up_version spec) in
      (if String.eqb tag "" then mret () else ignore (writeBelow target [runtimeReleaseMarker] tag)) ;;
      emit "done" 100 0 0
  end.
Definition RuntimeUpgrade (spec : option UpgradeSpec) (fallback : proxySpec) : U () :=
  match spec with
  | None => failing "runtime-upgrade: nil spec"
  | Some spec =>
      let url := TrimSpace (up_url spec) in
      if String.eqb url "" then failing "runtime-upgrade: download_url is required"
      else match RuntimeDir with
      | Err e => failing ("runtime-upgrade: resolve install dir: " +:+ e)
      | Ok target =>
          orElse (mkdirParent (Dir target)) (λ _, failed) "runtime-upgrade: prepare install dir: " ;;
          ignore (removePath (target +:+ ".tar.gz.new")) ;;
          ignore (removeTree (target +:+ ".new")) ;;
          deferring (ignore (removePath (target +:+ ".tar.gz.new"))) (install_runtime spec fallback url target)
      end
  end.

(** ** Which runtime is installed *)
Definition nodeBinary : string := if uh_windows h then "node.exe" else "node".
Definition runtimeReleaseMarkerValue (t : node) : string :=
  match find_in [runtimeReleaseMarker] t with Some (NFile d) | Some (NLink (Ok d)) => TrimSpace d | _ => "" end.
Definition runtimePackageVersion (t : node) : string :=
  match find_in ["package.json"] t with
  | Some (NFile d) | Some (NLink (Ok d)) =>
      match parse d with
      | Some (JObject l) => match string_field "version" l with Some v => TrimSpace v | None => "" end
      | _ => ""
      end
  | _ => ""
  end.
Definition cli_of (dir : string) : string := Join [dir; "dist"; "cli.js"].
Definition ManagedRuntimeVersion (fs : gmap string node) : string :=
  match RuntimeDir with
  | Err _ => ""
  | Ok dir =>
      let t := default (NDir []) (fs !! dir) in
      let v := TrimSpace (runtimeReleaseMarkerValue t) in
      if negb (String.eqb v "") then v
      else match find_in cli_path t with
      | None | Some (NLink (Err _)) => ""
      | Some _ =>
          let probed := match uh_lookPath h nodeBinary with
            | Ok node =>
                match uh_exec h node [cli_of dir; "--version"] with (out, None) => TrimSpace out | (_, Some _) => "" end
            | Err _ => ""
            end in
          if negb (String.eqb probed "") then probed else runtimePackageVersion t
      end
  end.
Definition resolveRuntimeLauncher (fs : gmap string node) : result (string * list string) :=
  let legacy :=
    match uh_lookPath h "agent-compose-runtime" with
    | Err e => Err ("agent-compose-runtime not found on node: " +:+ e)
    | Ok p => Ok (p, [])
    end in
  match RuntimeDir with
  | Err _ => legacy
  | Ok managed =>
      match fs !! managed ≫= find_in cli_path with
      | None | Some (NLink (Err _)) | Some (NDir _) => legacy
      | Some _ =>
          match uh_lookPath h nodeBinary with
          | Err e => Err ("node runtime is installed but Node.js is missing: " +:+ e)
          | Ok node => Ok (node, [cli_of managed])
          end
      end
  end.
Definition RuntimeCommand (fs : gmap string node) (args : list string) : result (string * list string) :=
  match resolveRuntimeLauncher fs with Err e => Err e | Ok (name, lead) => Ok (name, lead ++ args) end.
Definition RuntimeInstalled (fs : gmap string node) : option string :=
  match resolveRuntimeLauncher fs with Err e => Some e | Ok _ => None end.

(** ** SelfUpgrade *)
Definition RunningInContainer : bool :=
  uh_dockerenv h ||
  match uh_cgroup h with Some s => Contains s "docker" || Contains s "containerd" || Contains s "kubepods" | None => false end.
Definition swapBinary (exe newPath : string) : U () :=
  if uh_windows h then
    let old := exe +:+ ".old" in
    ignore (removePath old) ;;
    orElse (rename exe old) (λ _, mret ()) "self-upgrade: move current binary aside: " ;;
    orElse (rename newPath exe) (λ _, ignore (rename old exe)) "self-upgrade: move new binary into place: "
  else orElse (rename newPath exe) (λ _, mret ()) "self-upgrade: replace binary: ".
(** [Ok]: another process image runs the program at [exe] *)
Definition restartSelf (exe : string) : U () :=
  match uh_start h with
  | Some e => fail ((if uh_windows h then "self-upgrade: start new process: " else "self-upgrade: exec new binary: ") +:+ e)
  | None => mret ()
  end.
Definition replace_program (spec : UpgradeSpec) (fallback : proxySpec) (url exe : string) : U () :=
  let newPath := exe +:+ ".new" in
  let cleanup := failed ;; ignore (removePath newPath) in
  emit "downloading" 0 0 0 ;;
  orElse (progressDownload true url newPath (upgrade_proxy spec fallback)) (λ _, cleanup) "" ;;
  let want := TrimSpace (up_sha256 spec) in
  (if String.eqb want "" then mret ()
   else emit "verifying" 92 0 0 ;; orElse (verifySHA256 newPath want) (λ _, cleanup) "") ;;
  orElse (chmodPath newPath) (λ _, cleanup) "self-upgrade: chmod new binary: " ;;
  emit "swapping" 96 0 0 ;;
  orElse (swapBinary exe newPath) (λ _, failed) "" ;;
  emit "restarting" 98 0 0 ;;
  restartSelf exe.
Definition SelfUpgrade (spec : option UpgradeSpec) (fallback : proxySpec) : U () :=
  match spec with
  | None => failing "self-upgrade: nil spec"
  | Some spec =>
      let url := TrimSpace (up_url spec) in
      if String.eqb url "" then failing "self-upgrade: download_url is required"
      else if RunningInContainer then
        failing "self-upgrade unsupported for docker deployments; re-pull the node image to update"
      else match uh_exe h with
      | Err e => failing ("self-upgrade: locate current executable: " +:+ e)
      | Ok exe =>
          match uh_links h exe with
          | Err e => failing ("self-upgrade: resolve executable path: " +:+ e)
          | Ok exe => replace_program spec fallback url exe
          end
      end
  end.
End upgrade.
