(* ===== verification/UpgradeProofs.v ===== *)
(** * UpgradeProofs: an upgrade never loses the program it replaces *)
From S2P Require Import Prelude GoStrings GoPath GoJson Archive Sha256 NodeClient XcodeJob Resources SystemEnv FileService FileServiceProofs Upgrade.
From Stdlib Require Import Ascii.
Open Scope nat_scope.

(** ** Paths of one upgrade *)
Lemma app_ne t a b : a ≠ b → t +:+ a ≠ t +:+ b.
Proof. intros H E. apply H. by apply (inj (String.append t)) in E. Qed.
Lemma app_self t a : a ≠ "" → t +:+ a ≠ t.
Proof.
  intros H. induction t as [|c t IH]; cbn; [done|]. intros [= E]. exact (IH E).
Qed.

(** ** What a computation touches *)
(** only the slots of [S] change, every event satisfies [Q], and requests are added *)
Definition grows (S : list string) (Q : uevent → Prop) (s s' : ust) : Prop :=
  (∀ p, p ∉ S → u_fs s' !! p = u_fs s !! p) ∧ (∃ ev, u_events s' = u_events s ++ ev ∧ Forall Q ev) ∧ ∃ us, u_gets s' = u_gets s ++ us.
Definition tame {A} (S : list string) (Q : uevent → Prop) (m : U A) : Prop := ∀ s r s', m s = (r, s') → grows S Q s s'.
Section tame.
Context (S : list string) (Q : uevent → Prop).
Lemma grows_refl s : grows S Q s s.
Proof. split; [done|]. split; exists []; by rw app_nil_r. Qed.
Lemma grows_trans s s1 s2 : grows S Q s s1 → grows S Q s1 s2 → grows S Q s s2.
Proof.
  intros (F1 & (e1 & E1 & Q1) & (g1 & G1)) (F2 & (e2 & E2 & Q2) & (g2 & G2)). split; [intros p Hp; by rw F2 // F1|]. split.
  - exists (e1 ++ e2). rw E2 E1 app_assoc. split; [done|]. by apply Forall_app.
  - exists (g1 ++ g2). by rw G2 G1 app_assoc.
Qed.
(** a step that changes the disk only *)
Lemma grows_disk s fs n : (∀ p, p ∉ S → fs !! p = u_fs s !! p) → grows S Q s (s <| u_n := n |> <| u_fs := fs |>).
Proof. intros H. split; [done|]. split; exists []; by rw app_nil_r. Qed.
Lemma grows_disk_only s fs : (∀ p, p ∉ S → fs !! p = u_fs s !! p) → grows S Q s (s <| u_fs := fs |>).
Proof. intros H. split; [done|]. split; exists []; by rw app_nil_r. Qed.
Lemma tame_ret {A} (a : A) : tame S Q (mret a).
Proof. intros s r s' [= <- <-]. apply grows_refl. Qed.
Lemma tame_fail {A} e : tame S Q (fail (A := A) e).
Proof. intros s r s' [= <- <-]. apply grows_refl. Qed.
Lemma tame_bind {A B} (m : U A) (f : A → U B) : tame S Q m → (∀ a, tame S Q (f a)) → tame S Q (m ≫= f).
Proof.
  intros Hm Hf s r s' H. unfold mbind, U_bind in H. destruct (m s) as [[a|e] s1] eqn:E.
  - eapply grows_trans; [exact (Hm _ _ _ E)|exact (Hf _ _ _ _ H)].
  - injection H as <- <-. exact (Hm _ _ _ E).
Qed.
Lemma tame_attempt {A} (m : U A) : tame S Q m → tame S Q (attempt m).
Proof. intros Hm s r s' H. unfold attempt in H. destruct (m s) as [a s1] eqn:E. injection H as <- <-. exact (Hm _ _ _ E). Qed.
Lemma tame_ignore {A} (m : U A) : tame S Q m → tame S Q (ignore m).
Proof. intros Hm. apply tame_bind; [by apply tame_attempt|intros _; apply tame_ret]. Qed.
Lemma tame_orElse {A} (m : U A) f what : tame S Q m → (∀ e, tame S Q (f e)) → tame S Q (orElse m f what).
Proof.
  intros Hm Hf. apply tame_bind; [by apply tame_attempt|]. intros [a|e]; [apply tame_ret|].
  apply tame_bind; [done|intros _; apply tame_fail].
Qed.
Lemma tame_deferring {A} f (m : U A) : tame S Q m → tame S Q f → tame S Q (deferring f m).
Proof.
  intros Hm Hf s r s' H. unfold deferring in H. destruct (m s) as [a s1] eqn:E. injection H as <- <-.
  destruct (f s1) as [b s2] eqn:E2. eapply grows_trans; [exact (Hm _ _ _ E)|exact (Hf _ _ _ E2)].
Qed.
Lemma tame_emit stage percent current total : Q (mkUEvent stage percent current total) → tame S Q (emit stage percent current total).
Proof.
  intros H s r s' [= <- <-]. split; [done|]. split; [eexists; split; [done|]; by apply Forall_singleton|]. exists []. by rw app_nil_r.
Qed.
Lemma tame_failed : Q (mkUEvent "failed" 0 0 0) → tame S Q failed.
Proof. apply tame_emit. Qed.
Lemma tame_sys {A} h bad (act : gmap string node → result A * gmap string node) :
  (∀ kept fs p, p ∉ S → bad kept fs !! p = fs !! p) → (∀ fs p, p ∉ S → (act fs).2 !! p = fs !! p) → tame S Q (sys h bad act).
Proof.
  intros Hb Ha s r s' H. unfold sys in H. cbn in H. destruct (uh_io h (u_n s)) as [[e kept]|].
  - injection H as <- <-. apply grows_disk. by apply Hb.
  - destruct (act (u_fs s)) as [x fs] eqn:E. injection H as <- <-. apply grows_disk.
    intros p Hp. specialize (Ha (u_fs s) p Hp). by rw E in Ha.
Qed.
End tame.
Section ops.
Variable h : uhost.
Context (S : list string) (Q : uevent → Prop).
Lemma tame_stat p : tame S Q (statPath h p).
Proof. by apply tame_sys. Qed.
Lemma tame_read p : tame S Q (readPath h p).
Proof. by apply tame_sys. Qed.
Lemma tame_below p cs : tame S Q (statBelow h p cs).
Proof. by apply tame_sys. Qed.
Lemma tame_close p : tame S Q (closePath h p).
Proof. by apply tame_sys. Qed.
Lemma tame_chmod p : tame S Q (chmodPath h p).
Proof. by apply tame_sys. Qed.
Lemma tame_parent p : tame S Q (mkdirParent h p).
Proof. by apply tame_sys. Qed.
Lemma tame_look : tame S Q (look h).
Proof. intros s r s' [= <- <-]. split; [done|]. split; exists []; by rw app_nil_r. Qed.
Lemma tame_request url : tame S Q (request h url).
Proof. intros s r s' [= <- <-]. split; [done|]. split; [exists []; by rw app_nil_r|by exists [url]]. Qed.
Lemma tame_remove p : p ∈ S → tame S Q (removePath h p).
Proof.
  intros Hp. apply tame_sys; [done|]. intros fs q Hq. destruct (fs !! p) as [[d|[|]|d]|]; try done; cbn; apply lookup_delete_ne; by intros ->.
Qed.
Lemma tame_removeTree p : p ∈ S → tame S Q (removeTree h p).
Proof.
  intros Hp. apply tame_sys; intros; cbn; [apply lookup_partial_alter_ne|apply lookup_delete_ne]; by intros ->.
Qed.
Lemma tame_create p : p ∈ S → tame S Q (createPath h p).
Proof.
  intros Hp. apply tame_sys; [intros kept fs q Hq; apply lookup_partial_alter_ne; by intros ->|].
  intros fs q Hq. destruct (fs !! p) as [[]|]; try done; cbn; apply lookup_insert_ne; by intros ->.
Qed.
Lemma tame_append p d : p ∈ S → tame S Q (append_data p d).
Proof.
  intros Hp s r s' [= <- <-]. apply grows_disk_only. intros q Hq. apply lookup_alter_ne. by intros ->.
Qed.
Lemma tame_rename a b : a ∈ S → b ∈ S → tame S Q (rename h a b).
Proof.
  intros Ha Hb. apply tame_sys; [done|]. intros fs q Hq. destruct (fs !! a) as [n|]; [|done].
  assert (q ≠ a ∧ q ≠ b) as [H1 H2] by (split; by intros ->).
  destruct (fs !! b) as [[]|]; try done; try (destruct (is_dir n); [done|]); cbn; by rw lookup_insert_ne // lookup_delete_ne.
Qed.
Lemma tame_mkdirSlot p : p ∈ S → tame S Q (mkdirSlot h p).
Proof.
  intros Hp. apply tame_sys; [done|]. intros fs q Hq. destruct (fs !! p) as [[]|]; try done. cbn. apply lookup_insert_ne. by intros ->.
Qed.
Lemma tame_unpack p m : p ∈ S → tame S Q (unpack p m).
Proof.
  intros Hp s r s'. unfold unpack. destruct (m _) as [err [n ops]]. intros [= <- <-]. apply grows_disk_only.
  intros q Hq. apply lookup_insert_ne. by intros ->.
Qed.
Lemma tame_writeBelow p cs d : p ∈ S → tame S Q (writeBelow h p cs d).
Proof.
  intros Hp. apply tame_sys.
  - intros [n|] fs q Hq; [|done]. apply lookup_alter_ne. by intros ->.
  - intros fs q Hq. destruct (fs !! p ≫= create_in cs d); [|done]. cbn. apply lookup_insert_ne. by intros ->.
Qed.
End ops.
(** membership in a list of paths *)
Ltac listed := solve [repeat first [by constructor 1 | constructor 2]].
Ltac tame_step := cbv beta; lazymatch goal with
  | |- tame _ _ (orElse _ _ _) => apply tame_orElse; [|intros ?]
  | |- tame _ _ (ignore _) => apply tame_ignore
  | |- tame _ _ (attempt _) => apply tame_attempt
  | |- tame _ _ (deferring _ _) => apply tame_deferring
  | |- tame _ _ (mbind _ _) => apply tame_bind; [|intros ?]
  | |- tame _ _ failed => apply tame_failed; done
  | |- tame _ _ (emit _ _ _ _) => apply tame_emit; done
  | _ => first [ apply tame_ret | apply tame_fail | apply tame_stat | apply tame_read | apply tame_below | apply tame_close | apply tame_chmod
      | apply tame_parent | apply tame_look | apply tame_request | apply tame_remove; listed | apply tame_removeTree; listed
      | apply tame_create; listed | apply tame_append; listed | apply tame_rename; listed | apply tame_mkdirSlot; listed
      | apply tame_unpack; listed | apply tame_writeBelow; listed ]
  end.
Ltac tames := repeat tame_step.

(** ** Running the combinators *)
Lemma U_bind_inv {A B} (m : U A) (f : A → U B) s r s' :
  (m ≫= f) s = (r, s') → (∃ a s1, m s = (Ok a, s1) ∧ f a s1 = (r, s')) ∨ ∃ e, m s = (Err e, s') ∧ r = Err e.
Proof. unfold mbind, U_bind. destruct (m s) as [[a|e] s1]; [left; by eexists _, _|]. intros [= <- <-]. right. by eexists. Qed.
Lemma orElse_inv {A} (m : U A) f what s r s' :
  orElse m f what s = (r, s') → (∃ a, m s = (Ok a, s') ∧ r = Ok a) ∨ ∃ e e' s1 x, m s = (Err e, s1) ∧ f e s1 = (x, s') ∧ r = Err e'.
Proof.
  unfold orElse, mbind, U_bind, attempt. destruct (m s) as [[a|e] s1]; [intros [= <- <-]; left; by eexists|]. intros H. right.
  destruct (f e s1) as [[x|x] s2] eqn:E; injection H as <- <-; by eexists _, _, _, _.
Qed.
Lemma ignore_inv {A} (m : U A) s r s' : ignore m s = (r, s') → r = Ok () ∧ ∃ x, m s = (x, s').
Proof. unfold ignore, mbind, U_bind, attempt. destruct (m s) as [x s1]. intros [= <- <-]. split; [done|by eexists]. Qed.
Lemma attempt_inv {A} (m : U A) s r s' : attempt m s = (r, s') → ∃ x, r = Ok x ∧ m s = (x, s').
Proof. unfold attempt. destruct (m s) as [x s1]. intros [= <- <-]. by eexists. Qed.
Lemma rename_inv h a b s r s' :
  rename h a b s = (r, s') →
  match r with
  | Ok _ => ∃ n, u_fs s !! a = Some n ∧ u_fs s' = <[b := n]> (base.delete a (u_fs s)) ∧ ∀ es, u_fs s !! b ≠ Some (NDir es)
  | Err _ => u_fs s' = u_fs s
  end.
Proof.
  unfold rename, sys. cbn. destruct (uh_io h _) as [[e kept]|]; [by intros [= <- <-]|].
  destruct (u_fs s !! a) as [n|] eqn:Ea; [|by intros [= <- <-]].
  destruct (u_fs s !! b) as [[]|] eqn:Eb; try (by intros [= <- <-]); try (destruct (is_dir n); [by intros [= <- <-]|]); intros [= <- <-]; by exists n.
Qed.

(** ** Downloading *)
Definition progressing (e : uevent) : Prop := ue_stage e = "downloading".
Section download.
Variable h : uhost.
Lemma tame_report S (Q : uevent → Prop) on a b c : (∀ e, progressing e → Q e) → tame S Q (report on a b c).
Proof. intros HQ. destruct on; [apply tame_emit; by apply HQ|apply tame_ret]. Qed.
Lemma tame_loop Q on url part reads n last total :
  (∀ e, progressing e → Q e) → tame [part] Q (copy_loop h on url part reads n last total).
Proof.
  intros HQ. revert n last. induction reads as [|r reads IH]; intros n last; cbn [copy_loop]; tames.
  - destruct a; tames.
  - destruct a; tames. destruct (if negb _ then _ else _) as [[e w]|]; tames.
    + destruct (negb _); tames.
    + by apply tame_report.
    + destruct (ck_end r); tames. apply IH.
Qed.
Lemma tame_once Q on url dest spec :
  (∀ e, progressing e → Q e) → tame [dest; dest +:+ ".part"] Q (progressDownloadOnce h on url dest spec).
Proof.
  intros HQ. unfold progressDownloadOnce. destruct (uh_client h spec); tames. destruct a as [e|c|total reads]; tames.
  - intros s r s' H. destruct (tame_loop Q on _ _ _ _ _ _ HQ _ _ _ H) as [H1 H2]. split; [|done]. intros p Hp. apply H1. rw !not_elem_of_cons in Hp |- *. tauto.
  - destruct (_ && _); tames. by apply tame_report.
Qed.
Lemma tame_download Q on url dest spec :
  (∀ e, progressing e → Q e) → tame [dest; dest +:+ ".part"] Q (progressDownload h on url dest spec).
Proof.
  intros HQ. unfold progressDownload. tames; [by apply tame_once|]. destruct a as [|e]; tames. destruct a; tames; [by apply tame_report|by apply tame_once].
Qed.
(** *** What arrives *)
Lemma loop_spec on url part reads d n last total s n' s' :
  u_fs s !! part = Some (NFile d) → n = blen d → copy_loop h on url part reads n last total s = (Ok n', s') →
  u_fs s' !! part = Some (NFile (d +:+ body_of reads)) ∧ n' = blen (d +:+ body_of reads).
Proof.
  revert d n last s. induction reads as [|r reads IH]; intros d n last s Hp -> H; cbn [copy_loop] in H; unfold mbind, U_bind in H; cbn [look] in H.
  - destruct (uh_ctx h _) as [e|]; [by destruct (ignore _ _) as [[] ?]|]. injection H as <- <-. by rw string_app_nil_r.
  - destruct (uh_ctx h _) as [e|]; [by destruct (ignore _ _) as [[] ?]|]. cbn [body_of].
    assert (∃ s1, (if negb (String.eqb (ck_data r) "") then append_data part (ck_data r) else mret ()) (s <| u_looks := S (u_looks s) |>) = (Ok (), s1) ∧
      u_fs s1 !! part = Some (NFile (d +:+ ck_data r))) as (s1 & E1 & F1).
    { destruct (String.eqb_spec (ck_data r) "") as [->|]; cbn; eexists; (split; [done|]); cbn; [by rw string_app_nil_r|].
      by rw lookup_alter_eq Hp. }
    destruct (if negb (String.eqb (ck_data r) "") then ck_write r else None) as [[e w]|].
    { cbn in H. by destruct (ignore _ _) as [[] ?]. }
    rw E1 in H.
    match type of H with context [report ?a ?b ?c ?e ?st] => destruct (report a b c e st) as [[x|x] s2] eqn:E2 end.
    2: { unfold report in E2. by destruct (_ && _). }
    assert (u_fs s2 = u_fs s1) as F2 by (unfold report in E2; destruct (_ && _); by injection E2 as _ <-).
    destruct (ck_end r).
    + rw string_app_assoc. refine (IH (d +:+ ck_data r) _ _ s2 _ _ H); [by rw F2|by rw blen_app].
    + injection H as <- <-. by rw F2 string_app_nil_r blen_app.
    + by destruct (ignore _ _) as [[] ?].
Qed.
Lemma create_Ok p s s' : createPath h p s = (Ok (), s') → u_fs s' !! p = Some (NFile "").
Proof.
  unfold createPath, sys. cbn. destruct (uh_io h _) as [[e kept]|]; [done|].
  destruct (u_fs s !! p) as [[]|]; try done; intros [= <-]; cbn; by rw lookup_insert_eq.
Qed.
Lemma close_Ok p s s' : closePath h p s = (Ok (), s') → u_fs s' = u_fs s.
Proof. unfold closePath, sys. cbn. destruct (uh_io h _) as [[e kept]|]; [done|]. by intros [= <-]. Qed.
Lemma report_inv on a b c s r s' : report on a b c s = (r, s') → r = Ok () ∧ u_fs s' = u_fs s ∧ u_gets s' = u_gets s.
Proof. unfold report. destruct on; by intros [= <- <-]. Qed.
Lemma once_spec on url dest spec s r s' :
  progressDownloadOnce h on url dest spec s = (r, s') →
  match r with
  | Ok _ => ∃ i total reads, length (u_gets s) ≤ i < length (u_gets s') ∧ uh_http h i = ABody total reads ∧
              u_fs s' !! dest = Some (NFile (body_of reads)) ∧ (0 < total → blen (body_of reads) = total)%Z
  | Err _ => u_fs s' !! dest = u_fs s !! dest
  end.
Proof.
  set (part := dest +:+ ".part"). assert (Hd : dest ∉ [part]) by (rw list_elem_of_singleton; intros E; by apply (app_self dest ".part")).
  unfold progressDownloadOnce. destruct (uh_client h spec) as [e|]; [by intros [= <- <-]|]. fold part.
  intros H. apply U_bind_inv in H as [(a & s1 & [= <- <-] & H)|(e & [=] & _)].
  destruct (uh_http h (length (u_gets s))) as [e|c|total reads] eqn:Ea; [by injection H as <- <-|by injection H as <- <-|].
  assert (T : ∀ B (m : U B) s r s', m s = (r, s') → tame [part] (λ _, True) m → u_fs s' !! dest = u_fs s !! dest ∧ length (u_gets s) ≤ length (u_gets s')).
  { intros B m t x t' Hm Ht. destruct (Ht _ _ _ Hm) as (F & _ & us & ->). split; [by apply F|]. rw length_app. lia. }
  assert (L : tame [part] (λ _, True) (copy_loop h on (resolveDownloadURL spec url) part reads 0 0 total)) by by apply tame_loop.
  apply U_bind_inv in H as [([] & s2 & H2 & H)|(e & H2 & ->)]; destruct (T _ _ _ _ _ H2 ltac:(tames)) as [F2 G2]; [|done].
  cbn in G2. rw length_app in G2. cbn in G2. apply orElse_inv in H2 as [([] & H2 & _)|(? & ? & ? & ? & _ & _ & [=])].
  apply U_bind_inv in H as [(n & s3 & H3 & H)|(e & H3 & ->)]; destruct (T _ _ _ _ _ H3 L) as [F3 G3]; [|by rw F3].
  destruct (loop_spec _ _ _ _ _ _ _ _ _ _ _ (create_Ok _ _ _ H2) eq_refl H3) as [Hp ->]. cbn in Hp.
  apply U_bind_inv in H as [([] & s4 & H4 & H)|(e & H4 & ->)]; destruct (T _ _ _ _ _ H4 ltac:(tames)) as [F4 G4]; [|by rw F4 F3].
  apply orElse_inv in H4 as [([] & H4%close_Ok & _)|(? & ? & ? & ? & _ & _ & [=])]. change ("" +:+ body_of reads) with (body_of reads) in *.
  destruct ((0 <? total)%Z && negb (blen (body_of reads) =? total)%Z) eqn:Et.
  { apply U_bind_inv in H as [([] & s5 & H5 & [= <- <-])|(e & H5 & ->)]; destruct (T _ _ _ _ _ H5 ltac:(tames)) as [F5 _]; by rw F5 F4 F3. }
  apply U_bind_inv in H as [([] & s5 & H5 & H)|(e & H5 & ->)].
  2: { apply orElse_inv in H5 as [(a & _ & [=])|(e1 & e2 & s6 & x & H5%rename_inv & H6 & _)].
       destruct (T _ _ _ _ _ H6 ltac:(tames)) as [F6 _]. by rw F6 H5 F4 F3. }
  apply orElse_inv in H5 as [([] & H5 & _)|(? & ? & ? & ? & _ & _ & [=])].
  assert (tame [part; dest] (λ _, True) (rename h part dest)) as Ht by tames. destruct (Ht _ _ _ H5) as (_ & _ & us & G5).
  apply (f_equal length) in G5. rw length_app in G5. apply rename_inv in H5 as (n & Hn & F5 & _). apply report_inv in H as (-> & F6 & G6).
  exists (length (u_gets s)), total, reads. rw G6. split; [lia|]. split; [done|]. split.
  - rw F6 F5 lookup_insert_eq. rw -H4 in Hp. congruence.
  - intros Hlt%Z.ltb_lt. rw Hlt in Et. by apply negb_false_iff, Z.eqb_eq in Et.
Qed.
Lemma download_spec on url dest spec s r s' :
  progressDownload h on url dest spec s = (r, s') →
  match r with
  | Ok _ => ∃ i total reads, length (u_gets s) ≤ i < length (u_gets s') ∧ uh_http h i = ABody total reads ∧
              u_fs s' !! dest = Some (NFile (body_of reads)) ∧ (0 < total → blen (body_of reads) = total)%Z
  | Err _ => u_fs s' !! dest = u_fs s !! dest
  end.
Proof.
  unfold progressDownload. intros H. apply U_bind_inv in H as [(x & s1 & H1 & H)|(e & H1 & ->)].
  2: { apply attempt_inv in H1 as (x & [=] & _). }
  apply attempt_inv in H1 as (x' & [= <-] & H1). pose proof (tame_once (λ _, True) on url dest spec (λ _ _, I) _ _ _ H1) as (_ & _ & us & G1).
  apply (f_equal length) in G1. rw length_app in G1. apply once_spec in H1. destruct x as [x|e]; [by injection H as <- <-|].
  apply U_bind_inv in H as [(c & s2 & [= <- <-] & H)|(? & [=] & _)]. destruct (uh_ctx h _) as [c|]; [by injection H as <- <-|].
  apply U_bind_inv in H as [(y & s3 & (_ & F3 & G3)%report_inv & H)|(? & ([=] & _)%report_inv & _)]. apply once_spec in H. rw F3 in H.
  destruct r; [|by rw H]. destruct H as (i & total & reads & Hi & H). exists i, total, reads. split; [|done]. rw G3 in Hi. cbn in Hi. lia.
Qed.
End download.

(** A download that succeeds puts at its destination exactly the bytes of one
    response it received, as many as that response announced; one that fails,
    after its retry, leaves the destination as it was.  No other path changes
    but the partial file. *)
Theorem download_complete h on url dest spec s r s' :
  progressDownload h on url dest spec s = (r, s') →
  (∀ p, p ≠ dest → p ≠ dest +:+ ".part" → u_fs s' !! p = u_fs s !! p) ∧
  match r with
  | Ok _ => ∃ i total reads, length (u_gets s) ≤ i < length (u_gets s') ∧ uh_http h i = ABody total reads ∧
              u_fs s' !! dest = Some (NFile (body_of reads)) ∧ (0 < total → blen (body_of reads) = total)%Z
  | Err _ => u_fs s' !! dest = u_fs s !! dest
  end.
Proof.
  intros H. split.
  { destruct (tame_download h (λ _, True) on url dest spec (λ _ _, I) _ _ _ H) as [F _]. intros p H1 H2. apply F.
    by rw !not_elem_of_cons; repeat split; [..|apply not_elem_of_nil]. }
  by apply download_spec in H.
Qed.

(** ** The exchange *)
Lemma exists_inv h p s r s' : exists_at h p s = (r, s') → u_fs s' = u_fs s ∧ ∃ b, r = Ok b ∧ (b = true → is_Some (u_fs s !! p)).
Proof.
  unfold exists_at, mbind, U_bind, attempt, statPath, sys. cbn. destruct (uh_io h _) as [[e kept]|]; [intros [= <- <-]; split; [done|]; by exists false|].
  destruct (u_fs s !! p) as [n|]; intros [= <- <-]; (split; [done|]); [exists true|exists false]; (split; [done|]); [by eexists|done].
Qed.
(** the tree at [target] is where it was, or beside it *)
Definition preserved (target backup : string) (before after : gmap string node) : Prop :=
  ∀ es, before !! target = Some (NDir es) → after !! target = Some (NDir es) ∨ after !! target = None ∧ after !! backup = Some (NDir es).
Section swap.
Context (h : uhost) (target stage backup preserve activate : string).
Hypotheses (Hts : target ≠ stage) (Htb : target ≠ backup) (Hsb : stage ≠ backup).
(** what a single path of removal keeps *)
Lemma removeTree_keeps p q s r s' : removeTree h p s = (r, s') → q ≠ p → u_fs s' !! q = u_fs s !! q.
Proof.
  intros H Hq. assert (tame [p] (λ _, True) (removeTree h p)) as Ht by tames. destruct (Ht _ _ _ H) as [F _]. apply F. by rw list_elem_of_singleton.
Qed.
(** moving the staged tree into place, with the way back *)
Lemma activate_spec s r s' :
  orElse (rename h stage target) (λ _, kept ← exists_at h backup; if (kept : bool) then ignore (rename h backup target) else mret ()) activate s = (r, s') →
  match r with
  | Ok _ => u_fs s' !! target = u_fs s !! stage
  | Err _ =>
      (∀ es, u_fs s !! target = Some (NDir es) → u_fs s' !! target = Some (NDir es)) ∧
      (u_fs s !! target = None → ∀ n, u_fs s !! backup = Some n → u_fs s' !! target = Some n ∨ u_fs s' !! target = None ∧ u_fs s' !! backup = Some n)
  end.
Proof.
  intros [(a & (n & Hn & F & _)%rename_inv & ->)|(e & e' & s1 & x & F1%rename_inv & H & ->)]%orElse_inv.
  { by rw F lookup_insert_eq Hn. }
  apply U_bind_inv in H as [(b & s2 & (F2 & b' & [= <-] & _)%exists_inv & H)|(e2 & (F2 & b & [=] & _)%exists_inv & _)].
  assert (u_fs s2 = u_fs s) as Fs by congruence. destruct b.
  - apply ignore_inv in H as (_ & y & H). apply rename_inv in H. rw Fs in H. destruct y as [y|y].
    + destruct H as (n & Hn & F & Hd). split; [intros es He; by destruct (Hd es)|]. intros _ n' [= <-]%(eq_trans (eq_sym Hn)). left. by rw F lookup_insert_eq.
    + rw H. split; [done|]. intros Ht n Hn. by right.
  - injection H as _ <-. rw Fs. split; [done|]. intros Ht n Hn. by right.
Qed.
Lemma swap_spec s r s' :
  swapDirs h target stage backup preserve activate s = (r, s') →
  match r with Ok _ => u_fs s' !! target = u_fs s !! stage | Err _ => preserved target backup (u_fs s) (u_fs s') end.
Proof.
  unfold swapDirs. intros H.
  apply U_bind_inv in H as [(a & s1 & (_ & x & H1)%ignore_inv & H)|(e & ([=] & _)%ignore_inv & _)].
  pose proof (removeTree_keeps _ target _ _ _ H1 ltac:(done)) as F1. pose proof (removeTree_keeps _ stage _ _ _ H1 ltac:(done)) as F1s.
  apply U_bind_inv in H as [(b & s2 & (F2 & b' & [= <-] & _)%exists_inv & H)|(e2 & (F2 & b & [=] & _)%exists_inv & _)].
  assert (∀ s3 (r : result ()) s', u_fs s3 !! stage = u_fs s !! stage →
    (∀ es, u_fs s !! target = Some (NDir es) → u_fs s3 !! target = Some (NDir es) ∨ u_fs s3 !! target = None ∧ u_fs s3 !! backup = Some (NDir es)) →
    (orElse (rename h stage target) (λ _, kept ← exists_at h backup; if (kept : bool) then ignore (rename h backup target) else mret ()) activate ;;
     ignore (removeTree h backup)) s3 = (r, s') →
    match r with Ok _ => u_fs s' !! target = u_fs s !! stage | Err _ => preserved target backup (u_fs s) (u_fs s') end) as K.
  { intros s3 r0 t Hs Hes K. apply U_bind_inv in K as [(a4 & s4 & H4%activate_spec & (-> & y & H5)%ignore_inv)|(e4 & H4%activate_spec & ->)].
    - by rw (removeTree_keeps _ target _ _ _ H5) // H4 Hs.
    - intros es He. destruct H4 as [K1 K2]. destruct (Hes es He) as [Ht|[Ht Hb]]; [left; by apply K1|by apply (K2 Ht)]. }
  apply U_bind_inv in H as [(a3 & s3 & H3 & H)|(e3 & H3 & ->)].
  - apply (K s3); [| |done]; destruct b.
    + apply orElse_inv in H3 as [(y & (n & Hn & F3 & _)%rename_inv & _)|(? & ? & ? & ? & _ & _ & [=])].
      by rw F3 lookup_insert_ne // lookup_delete_ne // F2 F1s.
    + injection H3 as _ <-. by rw F2 F1s.
    + apply orElse_inv in H3 as [(y & (n & Hn & F3 & _)%rename_inv & _)|(? & ? & ? & ? & _ & _ & [=])].
      intros es He. right. rw F3 lookup_insert_ne // lookup_delete_eq lookup_insert_eq. split; [done|]. rw F2 F1 in Hn. congruence.
    + injection H3 as _ <-. intros es He. left. by rw F2 F1.
  - destruct b; [|done]. apply orElse_inv in H3 as [(y & _ & [=])|(? & ? & s4 & x4 & H3%rename_inv & (_ & y & H4)%ignore_inv & _)].
    intros es He. left. by rw (removeTree_keeps _ target _ _ _ H4) // H3 F2 F1.
Qed.
End swap.

(** ** Reading what was downloaded *)
Lemma read_inv h p s r s' : readPath h p s = (r, s') → u_fs s' = u_fs s ∧ match r with Ok d => ∃ n, u_fs s !! p = Some n ∧ d = content_of n | Err _ => True end.
Proof.
  unfold readPath, sys. cbn. destruct (uh_io h _) as [[e kept]|]; [by intros [= <- <-]|].
  destruct (u_fs s !! p) as [[]|]; intros [= <- <-]; (split; [done|]); try done; by eexists.
Qed.
Lemma verify_inv h p want s r s' :
  verifySHA256 h p want s = (r, s') → u_fs s' = u_fs s ∧
  match r with Ok _ => ∃ n, u_fs s !! p = Some n ∧ EqualFold (sha256hex (content_of n)) (TrimSpace want) = true | Err _ => True end.
Proof.
  unfold verifySHA256. intros [(d & s1 & H1 & H)|(e & H1 & ->)]%U_bind_inv.
  - apply orElse_inv in H1 as [(a & (F & n & Hn & ->)%read_inv & [= ->])|(? & ? & ? & ? & _ & _ & [=])].
    destruct (EqualFold _ _) eqn:E; injection H as <- <-; (split; [done|]); [by exists n|done].
  - apply orElse_inv in H1 as [(a & _ & [=])|(? & ? & s2 & x & (F & _)%read_inv & [= _ <-] & _)]. done.
Qed.
Lemma below_inv h p cs s r s' :
  statBelow h p cs s = (r, s') → u_fs s' = u_fs s ∧ match r with Ok _ => is_Some (u_fs s !! p ≫= find_in cs) | Err _ => True end.
Proof.
  unfold statBelow, sys. cbn. destruct (uh_io h _) as [[e kept]|]; [by intros [= <- <-]|].
  destruct (u_fs s !! p ≫= find_in cs) as [[| |[]]|]; intros [= <- <-]; by split.
Qed.
Lemma mkdirSlot_inv h p q s r s' : mkdirSlot h p s = (r, s') → q ≠ p → u_fs s' !! q = u_fs s !! q.
Proof.
  intros H Hq. assert (tame [p] (λ _, True) (mkdirSlot h p)) as Ht by tames. destruct (Ht _ _ _ H) as [F _]. apply F. by rw list_elem_of_singleton.
Qed.
Lemma mkdirSlot_tree h p s s' : mkdirSlot h p s = (Ok (), s') → default (NDir []) (u_fs s' !! p) = default (NDir []) (u_fs s !! p).
Proof.
  unfold mkdirSlot, sys. cbn. destruct (uh_io h _) as [[e kept]|]; [done|].
  destruct (u_fs s !! p) as [[d|es|d]|] eqn:E; intros [= <-]; cbn; rw ?E // lookup_insert_eq //.
Qed.
(** the runtime unpacked from some bytes over the tree [n0] *)
Definition unpacked_from (h : uhost) (stage : string) (n0 : node) (data : string) (tree : node) : Prop :=
  ∃ entries ops, uh_tar h data = Ok (entries, None) ∧ runtime_entries h (Clean stage) entries None (n0, []) = (None, (tree, ops)).
Lemma runtime_entries_whole h root entries readErr x y : runtime_entries h root entries readErr x = (None, y) → readErr = None.
Proof.
  revert x. induction entries as [|hdr entries IH]; intros x; cbn; [by destruct readErr|]. destruct (runtime_entry_step h root hdr x) as [[e|] x']; [done|apply IH].
Qed.
Lemma extract_inv h archive stage s r s' :
  archive ≠ stage → extractRuntimeArchive h archive stage s = (r, s') →
  (∀ p, p ≠ stage → u_fs s' !! p = u_fs s !! p) ∧
  match r with
  | Ok _ => ∃ n tree, u_fs s !! archive = Some n ∧ u_fs s' !! stage = Some tree ∧
              unpacked_from h stage (default (NDir []) (u_fs s !! stage)) (content_of n) tree
  | Err _ => True
  end.
Proof.
  intros Hne. unfold extractRuntimeArchive. intros [(d & s1 & H1 & H)|(e & H1 & ->)]%U_bind_inv.
  2: { apply orElse_inv in H1 as [(a & _ & [=])|(? & ? & s2 & x & (F & _)%read_inv & [= _ <-] & _)]. by rw F. }
  apply orElse_inv in H1 as [(a & (F & n & Hn & ->)%read_inv & [= ->])|(? & ? & ? & ? & _ & _ & [=])].
  destruct (uh_tar h (content_of n)) as [[entries readErr]|e] eqn:Et; [|injection H as <- <-; by rw F].
  apply U_bind_inv in H as [(a & s2 & H2 & H)|(e & H2 & ->)].
  2: { split; [|done]. intros p Hp. by rw (mkdirSlot_inv _ _ p _ _ _ H2) // F. }
  unfold unpack in H. destruct (runtime_entries _ _ _ _ _) as [err [tree ops]] eqn:Er. injection H as <- <-. split.
  - intros p Hp. cbn. by rw lookup_insert_ne // (mkdirSlot_inv _ _ p _ _ _ H2) // F.
  - destruct err as [e|]; [done|]. exists n, tree. split; [done|]. cbn. rw lookup_insert_eq. split; [done|].
    pose proof (runtime_entries_whole _ _ _ _ _ _ Er) as ->. destruct a. rw (mkdirSlot_tree _ _ _ _ H2) F in Er. by eexists _, _.
Qed.
Lemma tame_verify S Q h p want : tame S Q (verifySHA256 h p want).
Proof. unfold verifySHA256. tames. destruct (negb _); tames. Qed.
Lemma tame_extract S Q h archive stage : stage ∈ S → tame S Q (extractRuntimeArchive h archive stage).
Proof. intros Hs. unfold extractRuntimeArchive. tames. destruct (uh_tar h a) as [[]|]; tames; [by apply tame_mkdirSlot|by apply tame_unpack]. Qed.

(** ** RuntimeUpgrade *)
Section runtime.
Context (h : uhost) (spec : UpgradeSpec) (fallback : proxySpec) (url target : string).
Local Abbreviation archive := (target +:+ ".tar.gz.new").
Local Abbreviation stage := (target +:+ ".new").
Local Abbreviation backup := (target +:+ ".old").
Local Abbreviation want := (TrimSpace (up_sha256 spec)).
Local Abbreviation scratch := [archive; (archive +:+ ".part"); stage].
Definition mark : U () :=
  if String.eqb (TrimSpace (up_version spec)) "" then mret () else ignore (writeBelow h target [runtimeReleaseMarker] (TrimSpace (up_version spec))).
(** the bytes of a response received since [s], checked *)
Definition received (s : ust) (data : string) : Prop :=
  (∃ i total reads, length (u_gets s) ≤ i ∧ uh_http h i = ABody total reads ∧ data = body_of reads ∧ (0 < total → blen data = total)%Z) ∧
  (want ≠ "" → EqualFold (sha256hex data) (TrimSpace want) = true).
Lemma target_apart : (target ∉ scratch) ∧ (backup ∉ scratch).
Proof.
  rw !not_elem_of_cons -!string_app_assoc.
  split; (repeat split); try (apply not_eq_sym, app_self; discriminate); try (apply app_ne; discriminate); apply not_elem_of_nil.
Qed.
Lemma kept_by {A} (m : U A) s r s' : m s = (r, s') → tame scratch (λ _, True) m → preserved target backup (u_fs s) (u_fs s').
Proof. intros Hm Ht es He. destruct (Ht _ _ _ Hm) as [F _]. left. by rw F //; apply target_apart. Qed.
Lemma preserved_from s s1 s2 : u_fs s1 !! target = u_fs s !! target → preserved target backup (u_fs s1) (u_fs s2) → preserved target backup (u_fs s) (u_fs s2).
Proof. intros F H es He. apply H. congruence. Qed.
Lemma download_tame Q : (∀ e, progressing e → Q e) → tame scratch Q (progressDownload h true url archive (upgrade_proxy spec fallback)).
Proof.
  intros HQ s r s' H. destruct (tame_download h Q _ _ _ _ HQ _ _ _ H) as (F & E & G). split; [|done]. intros p Hp. apply F.
  rw !not_elem_of_cons in Hp |- *. tauto.
Qed.
Definition checked : U () :=
  if String.eqb want "" then mret () else emit "verifying" 92 0 0 ;; orElse (verifySHA256 h archive want) (λ _, failed) "".
Lemma checked_inv s r s' : checked s = (r, s') → u_fs s' = u_fs s ∧ match r with Ok _ => ∀ n, u_fs s !! archive = Some n → want ≠ "" → EqualFold (sha256hex (content_of n)) (TrimSpace want) = true | Err _ => True end.
Proof.
  unfold checked. destruct (String.eqb_spec want "") as [E|E]; [by intros [= <- <-]|].
  intros [([] & s1 & [= <-] & H)|(e & [=] & _)]%U_bind_inv.
  apply orElse_inv in H as [(a & (F & n & Hn & V)%verify_inv & ->)|(? & ? & s2 & x & (F & _)%verify_inv & [= _ <-] & ->)]; [|done].
  split; [done|]. intros n' Hn' _. cbn in Hn. rw Hn in Hn'. by injection Hn' as <-.
Qed.
Lemma refused_inv {A} (m : U A) e s (r : result ()) s' : (ignore m ;; failing e) s = (r, s') → r = Err e.
Proof. intros [(a & s1 & _ & H)|(e' & ([=] & _)%ignore_inv & _)]%U_bind_inv. by injection H as <- _. Qed.
(** from the staged tree on *)
Definition activation : U () :=
  emit "activating" 98 0 0 ;;
  orElse (swapDirs h target stage backup "runtime-upgrade: preserve current runtime: " "runtime-upgrade: activate staged runtime: ")
    (λ _, failed) "" ;;
  mark ;;
  emit "done" 100 0 0.
Lemma activation_spec s r s' :
  activation s = (r, s') →
  match r with
  | Ok _ => ∃ s5 s6, u_fs s5 !! target = u_fs s !! stage ∧ mark s5 = (Ok (), s6) ∧ u_fs s' = u_fs s6
  | Err _ => preserved target backup (u_fs s) (u_fs s')
  end.
Proof.
  assert (target ≠ stage ∧ target ≠ backup ∧ stage ≠ backup) as (N1 & N2 & N3)
    by (split_and!; [by apply not_eq_sym, app_self|by apply not_eq_sym, app_self|by apply app_ne]).
  intros [([] & s7 & [= <-] & H)|(e & [=] & _)]%U_bind_inv. apply U_bind_inv in H as [([] & s8 & H8 & H)|(e & H8 & ->)].
  - apply orElse_inv in H8 as [([] & H8%swap_spec & _)|(? & ? & ? & ? & _ & _ & [=])]; try done.
    apply U_bind_inv in H as [([] & s9 & H9 & [= <- <-])|(e & H9 & ->)]; [by exists s8, s9|].
    unfold mark in H9. destruct (String.eqb _ _); [done|]. by apply ignore_inv in H9 as [[=] _].
  - by apply orElse_inv in H8 as [(a & _ & [=])|(? & ? & s9 & y & H8%swap_spec & [= _ <-] & _)].
Qed.
Lemma install_spec s r s' :
  install_runtime h spec fallback url target s = (r, s') →
  match r with
  | Ok _ => ∃ data tree s5 s6, received s data ∧
              unpacked_from h stage (default (NDir []) (u_fs s !! stage)) data tree ∧ is_Some (find_in cli_path tree) ∧
              u_fs s5 !! target = Some tree ∧ mark s5 = (Ok (), s6) ∧ u_fs s' = u_fs s6
  | Err _ => preserved target backup (u_fs s) (u_fs s')
  end.
Proof.
  destruct target_apart as [Ht Hb].
  assert (Has : archive ≠ stage) by (apply app_ne; discriminate).
  assert (T : ∀ B (m : U B) s r s', m s = (r, s') → tame scratch (λ _, True) m → u_fs s' !! target = u_fs s !! target)
    by (intros B m t x t' Hm Htm; destruct (Htm _ _ _ Hm) as [F _]; by apply F).
  intros H. unfold install_runtime in H. apply U_bind_inv in H as [([] & s1 & [= <-] & H)|(e & [=] & _)].
  apply U_bind_inv in H as [([] & s2 & H2 & H)|(e & H2 & ->)].
  2: { eapply preserved_from, kept_by; [|exact H2|]; [done|]. apply tame_orElse; [by apply download_tame|intros ?; tames]. }
  apply orElse_inv in H2 as [([] & H2 & _)|(? & ? & ? & ? & _ & _ & [=])]. pose proof (T _ _ _ _ _ H2 ltac:(by apply download_tame)) as F2.
  assert (S2 : u_fs s2 !! stage = u_fs s !! stage).
  { destruct (tame_download h (λ _, True) true url archive (upgrade_proxy spec fallback) (λ _ _, I) _ _ _ H2) as [F _]. cbn in F. apply F.
    rw !not_elem_of_cons. split_and!; [by apply not_eq_sym|by rw -string_app_assoc; apply app_ne|apply not_elem_of_nil]. }
  apply download_spec in H2 as (i & total & reads & Hi & Ha & Hd & Hl). cbn in Hi, F2.
  change (if String.eqb want "" then _ else _) with checked in H.
  apply U_bind_inv in H as [([] & s3 & (F3 & Hv)%checked_inv & H)|(e & (F3 & _)%checked_inv & ->)].
  2: { intros es He. left. by rw F3 F2. }
  specialize (Hv _ Hd). cbn [content_of] in Hv. apply U_bind_inv in H as [([] & s4 & [= <-] & H)|(e & [=] & _)].
  apply U_bind_inv in H as [([] & s5 & H5 & H)|(e & H5 & ->)].
  2: { eapply preserved_from, kept_by; [|exact H5|]; [by rw F3 F2|]. apply tame_orElse; [apply tame_extract; listed|intros ?; tames]. }
  apply orElse_inv in H5 as [([] & (F5 & n & tree & Hn & Hst & Hu)%(extract_inv _ _ _ _ _ _ Has) & _)|(? & ? & ? & ? & _ & _ & [=])].
  cbn in Hn, F5. rw F3 Hd in Hn. injection Hn as <-. cbn [content_of] in Hu. cbn [u_fs set_field] in Hu. rw F3 S2 in Hu.
  apply U_bind_inv in H as [(x & s6 & (x' & [= <-] & (F6 & Hx)%below_inv)%attempt_inv & H)|(? & (? & [=] & _)%attempt_inv & _)].
  assert (F0 : u_fs s6 !! target = u_fs s !! target) by (rw F6 F5; [by rw F3 F2|by apply not_eq_sym, app_self]).
  destruct x as [x|e].
  2: { pose proof (refused_inv _ _ _ _ _ H) as ->. eapply preserved_from, kept_by; [exact F0|exact H|]. unfold failing. tames. }
  rw Hst in Hx. change (activation s6 = (r, s')) in H. apply activation_spec in H. destruct r as [[]|e]; [|by eapply preserved_from].
  destruct H as (s7 & s8 & F7 & Hm & F8). exists (body_of reads), tree, s7, s8. rw F6 Hst in F7.
  split; [split; [|done]|]; [exists i, total, reads; split; [lia|done]|]. by split_and!.
Qed.
End runtime.

(** *** The last event *)
Definition working (e : uevent) : Prop := ue_stage e ≠ "failed" ∧ ue_stage e ≠ "done".
Definition ends {A} (last : result A → uevent) (m : U A) : Prop := ∀ s r s', m s = (r, s') →
  ∃ ev, u_events s' = u_events s ++ ev ++ [last r] ∧ Forall working ev.
Definition concluding (r : result ()) : uevent := match r with Ok _ => mkUEvent "done" 100 0 0 | Err _ => mkUEvent "failed" 0 0 0 end.
Lemma ends_after {A B} S last (m : U A) (f : A → U B) : tame S working m → (∀ s, ∃ a s', m s = (Ok a, s')) → (∀ a, ends last (f a)) → ends last (m ≫= f).
Proof.
  intros Ht Hok Hf s r s' H. unfold mbind, U_bind in H. destruct (Hok s) as (a & s1 & E). rw E in H.
  destruct (Ht _ _ _ E) as (_ & (e1 & E1 & Q1) & _). destruct (Hf a _ _ _ H) as (e2 & E2 & Q2).
  exists (e1 ++ e2). rw E2 E1 -!app_assoc. split; [done|]. by apply Forall_app.
Qed.
Lemma ends_orElse {A} S (m : U A) g what (f : A → U ()) :
  tame S working m → (∀ e, ends (λ _, mkUEvent "failed" 0 0 0) (g e)) → (∀ a, ends concluding (f a)) → ends concluding (orElse m g what ≫= f).
Proof.
  intros Ht Hg Hf s r s' [(a & s1 & H1 & H)|(e & H1 & ->)]%U_bind_inv.
  - apply orElse_inv in H1 as [(b & H1 & [= <-])|(? & ? & ? & ? & _ & _ & [=])].
    destruct (Ht _ _ _ H1) as (_ & (e1 & E1 & Q1) & _). destruct (Hf a _ _ _ H) as (e2 & E2 & Q2).
    exists (e1 ++ e2). rw E2 E1 -!app_assoc. split; [done|]. by apply Forall_app.
  - apply orElse_inv in H1 as [(b & _ & [=])|(e0 & e1 & s1 & x & H1 & H2 & _)].
    destruct (Ht _ _ _ H1) as (_ & (v1 & E1 & Q1) & _). destruct (Hg e0 _ _ _ H2) as (v2 & E2 & Q2).
    exists (v1 ++ v2). rw E2 E1 -!app_assoc. split; [done|]. by apply Forall_app.
Qed.
Lemma ends_emit (last : result () → uevent) st p c t : last (Ok ()) = mkUEvent st p c t → ends last (emit st p c t).
Proof. intros E s r s' [= <- <-]. exists []. cbn. by rw E. Qed.
Lemma ends_failing e : ends concluding (failing (A := ()) e).
Proof. intros s r s' [= <- <-]. by exists []. Qed.
Lemma ends_failed (e : string) : ends (λ _, mkUEvent "failed" 0 0 0) failed.
Proof. by apply ends_emit. Qed.
Lemma ignore_ok {A} (m : U A) s : ∃ a s', ignore m s = (Ok a, s').
Proof. unfold ignore, mbind, U_bind, attempt. destruct (m s) as [x s1]. by eexists _, _. Qed.
Lemma attempt_ok {A} (m : U A) s : ∃ a s', attempt m s = (Ok a, s').
Proof. unfold attempt. destruct (m s) as [x s1]. by eexists _, _. Qed.
Lemma emit_ok st p c t s : ∃ a s', emit st p c t s = (Ok a, s').
Proof. by eexists _, _. Qed.
Lemma progress_works e : progressing e → working e.
Proof. intros H. unfold working. by rw H. Qed.
Lemma ends_assoc {A B C} last (m : U A) (f : A → U B) (k : B → U C) : ends last (m ≫= λ a, f a ≫= k) → ends last ((m ≫= f) ≫= k).
Proof. intros H s r s' E. apply (H s). unfold mbind, U_bind in *. by destruct (m s) as [[a|e] s1]. Qed.
Section concluded.
Context (h : uhost) (spec : UpgradeSpec) (fallback : proxySpec) (target : string).
Local Abbreviation slots := [target; (target +:+ ".tar.gz.new"); (target +:+ ".tar.gz.new.part"); (target +:+ ".new"); (target +:+ ".old")].
Lemma tame_exists S Q p : tame S Q (exists_at h p).
Proof. unfold exists_at. tames. Qed.
Lemma tame_swap a b : tame slots working (swapDirs h target (target +:+ ".new") (target +:+ ".old") a b).
Proof.
  unfold swapDirs. tames; try apply tame_exists; match goal with |- context [if ?b then _ else _] => destruct b end; tames.
Qed.
Lemma install_ends url : ends concluding (install_runtime h spec fallback url target).
Proof.
  unfold install_runtime. apply (ends_after slots); [by apply tame_emit|by apply emit_ok|intros _].
  apply (ends_orElse slots); [|apply ends_failed|intros _].
  { intros s r s' H. destruct (tame_download h working _ _ _ _ progress_works _ _ _ H) as (F & E & G). split; [|done].
    intros p Hp. apply F. rw -string_app_assoc. rw !not_elem_of_cons in Hp |- *. tauto. }
  assert (K : ends concluding (
    emit "extracting" 96 0 0 ;;
    orElse (extractRuntimeArchive h (target +:+ ".tar.gz.new") (target +:+ ".new")) (λ _, ignore (removeTree h (target +:+ ".new")) ;; failed) "" ;;
    r ← attempt (statBelow h (target +:+ ".new") cli_path);
    match r with
    | Err _ => ignore (removeTree h (target +:+ ".new")) ;; failing "runtime-upgrade: archive is missing runtime/dist/cli.js"
    | Ok _ => activation h spec target
    end)).
  { apply (ends_after slots); [by apply tame_emit|by apply emit_ok|intros _].
    apply (ends_orElse slots); [apply tame_extract; listed| |intros _].
    { intros e. apply (ends_after slots); [tames|apply ignore_ok|]. intros _. by apply ends_failed. }
    apply (ends_after slots); [tames|apply attempt_ok|]. intros [x|e].
    - apply (ends_after slots); [by apply tame_emit|by apply emit_ok|intros _].
      apply (ends_orElse slots); [apply tame_swap|apply ends_failed|intros _].
      apply (ends_after slots); [| |intros _; by apply ends_emit]; unfold mark.
      + destruct (String.eqb _ _); tames.
      + intros s. destruct (String.eqb _ _); [by eexists _, _|apply ignore_ok].
    - apply (ends_after slots); [tames|apply ignore_ok|intros _; apply ends_failing]. }
  destruct (String.eqb (TrimSpace (up_sha256 spec)) _); [apply (ends_after slots); [tames|intros s; exists (), s; reflexivity|intros _; exact K]|].
  apply ends_assoc, (ends_after slots); [by apply tame_emit|by apply emit_ok|intros _].
  apply (ends_orElse slots); [apply tame_verify|apply ends_failed|intros _; exact K].
Qed.
Lemma ends_deferring f m : tame slots (λ _, False) f → ends concluding m → ends concluding (deferring f m).
Proof.
  intros Hf Hm s r s' H. unfold deferring in H. destruct (m s) as [x s1] eqn:E. destruct (f s1) as [y s2] eqn:E2. injection H as <- <-.
  destruct (Hm _ _ _ E) as (ev & Hev & HQ). destruct (Hf _ _ _ E2) as (_ & (e2 & H2 & Q2) & _). exists ev. split; [|done].
  cbn. rw H2 Hev. destruct e2; [by rw app_nil_r|by inversion Q2].
Qed.
End concluded.

Lemma upgrade_ends h spec fallback : ends concluding (RuntimeUpgrade h spec fallback).
Proof.
  unfold RuntimeUpgrade. destruct spec as [spec|]; [|apply ends_failing]. destruct (String.eqb _ ""); [apply ends_failing|].
  destruct (RuntimeDir h) as [target|e]; [|apply ends_failing].
  apply (ends_orElse []); [tames|apply ends_failed|intros _]. apply (ends_after [(target +:+ ".tar.gz.new")]); [tames|apply ignore_ok|intros _].
  apply (ends_after [(target +:+ ".new")]); [tames|apply ignore_ok|intros _]. apply (ends_deferring target); [tames|apply install_ends].
Qed.
(** *** The whole upgrade *)
Lemma writeBelow_inv h p cs data tree s r s' :
  writeBelow h p cs data s = (r, s') → u_fs s !! p = Some tree →
  (∃ text t, create_in cs text tree = Some t ∧ u_fs s' !! p = Some t ∧ ((∀ n, uh_io h n = None) → text = data)) ∨
  (u_fs s' !! p = Some tree ∧ ((∀ n, uh_io h n = None) → create_in cs data tree = None)).
Proof.
  unfold writeBelow, sys. intros H Ht. cbn in H. destruct (uh_io h (u_n s)) as [[e [n|]]|] eqn:Eio.
  - injection H as <- <-. cbn. rw lookup_alter_eq Ht. cbn. destruct (create_in cs (content_of n) tree) as [t|] eqn:E; cbn.
    + left. exists (content_of n), t. split_and!; [done|done|]. intros Hn. by rw Hn in Eio.
    + right. split; [done|]. intros Hn. by rw Hn in Eio.
  - injection H as <- <-. right. split; [done|]. intros Hn. by rw Hn in Eio.
  - rw Ht in H. cbn in H. destruct (create_in cs data tree) as [t|] eqn:E; injection H as <- <-; cbn; [left|by right].
    exists data, t. by rw lookup_insert_eq.
Qed.
Lemma mark_tree h spec target tree s s' :
  mark h spec target s = (Ok (), s') → u_fs s !! target = Some tree →
  u_fs s' !! target = Some tree ∨ ∃ text t, create_in [runtimeReleaseMarker] text tree = Some t ∧ u_fs s' !! target = Some t.
Proof.
  unfold mark. destruct (String.eqb _ _); [intros [= <-]; by left|].
  intros (_ & x & H)%ignore_inv Ht.
  destruct (writeBelow_inv _ _ _ _ _ _ _ _ H Ht) as [(text & t & H1 & H2 & _)|[H1 _]]; [right; by exists text, t|by left].
Qed.
Section whole.
Context (h : uhost) (spec : UpgradeSpec) (fallback : proxySpec) (target : string).
Hypothesis Hdir : RuntimeDir h = Ok target.
Local Abbreviation archive := (target +:+ ".tar.gz.new").
Lemma archive_apart : target ≠ archive ∧ (target +:+ ".old") ≠ archive.
Proof. split; [by apply not_eq_sym, app_self|by apply app_ne]. Qed.
Lemma removePath_keeps p q s r s' : removePath h p s = (r, s') → q ≠ p → u_fs s' !! q = u_fs s !! q.
Proof.
  intros H Hq. assert (tame [p] (λ _, True) (removePath h p)) as Ht by tames. destruct (Ht _ _ _ H) as [F _]. apply F. by rw list_elem_of_singleton.
Qed.
Lemma sys_count {A} bad (act : gmap string node → result A * gmap string node) s r s' : sys h bad act s = (r, s') → u_n s' = S (u_n s).
Proof. unfold sys. cbn. destruct (uh_io h _) as [[e kept]|]; [by intros [= _ <-]|]. destruct (act _) as [x fs]. by intros [= _ <-]. Qed.
(** either the directory was not reached, or the installation ran *)
Lemma upgrade_runs s r s' :
  RuntimeUpgrade h (Some spec) fallback s = (r, s') →
  (∃ e, r = Err e ∧ u_fs s' !! target = u_fs s !! target) ∨
  ∃ s1 s2 x, u_fs s1 !! target = u_fs s !! target ∧
    (uh_io h (2 + u_n s) = None → u_fs s1 !! (target +:+ ".new") = None) ∧ length (u_gets s) ≤ length (u_gets s1) ∧
    install_runtime h spec fallback (TrimSpace (up_url spec)) target s1 = (r, s2) ∧ removePath h archive s2 = (x, s').
Proof.
  unfold RuntimeUpgrade. rw Hdir. destruct (String.eqb _ ""); [intros [= <- <-]; left; by eexists|].
  assert (N : target ≠ target +:+ ".new") by (by apply not_eq_sym, app_self).
  assert (T : ∀ B (m : U B) s r s', m s = (r, s') → tame [archive; (target +:+ ".new")] (λ _, True) m →
    u_fs s' !! target = u_fs s !! target ∧ length (u_gets s) ≤ length (u_gets s')).
  { intros B m t x t' Hm Ht. destruct (Ht _ _ _ Hm) as (F & _ & us & ->). split; [|rw length_app; lia]. apply F.
    rw !not_elem_of_cons. split_and!; [by apply archive_apart|done|apply not_elem_of_nil]. }
  intros [([] & s1 & H1 & H)|(e & H1 & ->)]%U_bind_inv; destruct (T _ _ _ _ _ H1 ltac:(tames)) as [F1 G1]; [|left; by eexists].
  apply U_bind_inv in H as [([] & s2 & H2 & H)|(e & ([=] & _)%ignore_inv & _)]; destruct (T _ _ _ _ _ H2 ltac:(tames)) as [F2 G2].
  apply U_bind_inv in H as [([] & s3 & H3 & H)|(e & ([=] & _)%ignore_inv & _)]; destruct (T _ _ _ _ _ H3 ltac:(tames)) as [F3 G3].
  unfold deferring in H. destruct (install_runtime _ _ _ _ _ s3) as [x s4] eqn:E. destruct (ignore (removePath h archive) s4) as [y s5] eqn:E5.
  injection H as <- <-. apply ignore_inv in E5 as (_ & z & E5). right. exists s3, s4, z.
  split; [by rw F3 F2|]. split; [|by split; [lia|]]. intros Hio.
  apply orElse_inv in H1 as [(a & H1 & _)|(? & ? & ? & ? & _ & _ & [=])]. apply ignore_inv in H2 as (_ & x2 & H2).
  apply ignore_inv in H3 as (_ & x3 & H3). apply sys_count in H1, H2. change (2 + u_n s) with (S (S (u_n s))) in Hio. rw -H1 -H2 in Hio. revert H3. unfold removeTree, sys.
  rw Hio. intros [= _ <-]. cbn. apply lookup_delete_eq.
Qed.
End whole.


(** *** What is reported afterwards *)
Lemma create_child name data n :
  match create_in [name] data n with
  | Some t => ∃ m, find_in [name] t = Some m ∧ content_of m = data ∧ is_dir m = false ∧ ∀ e, m ≠ NLink (Err e)
  | None => is_dir n = true → ∃ es, find_in [name] n = Some (NDir es)
  end.
Proof.
  destruct (create_in [name] data n) as [t|] eqn:E.
  - destruct (find_create_same _ _ _ _ E) as (m & H1 & H2 & H3 & H4). by exists m.
  - intros Hd. destruct n as [|es|]; [done| |done]. cbn in E |- *. destruct (entry_of name es) as [[d|fs|d]|]; try done. by exists fs.
Qed.
(** After an upgrade to a named version in which no file operation failed,
    the version the node reports for its managed runtime is that name, and not
    the one in the package; except when the archive brought a directory in the
    place of the marker file. *)
Theorem upgrade_reports_release h spec fallback target s s' :
  RuntimeDir h = Ok target → (∀ n, uh_io h n = None) → TrimSpace (up_version spec) ≠ "" →
  RuntimeUpgrade h (Some spec) fallback s = (Ok (), s') →
  ManagedRuntimeVersion h (u_fs s') = TrimSpace (up_version spec) ∨
  ∃ es, u_fs s' !! target ≫= find_in [runtimeReleaseMarker] = Some (NDir es).
Proof.
  intros Hdir Hio Htag H. destruct (archive_apart target) as [N1 _].
  apply (upgrade_runs h spec fallback target Hdir) in H as [(e & [=] & _)|(s1 & s2 & x & _ & _ & _ & H & H2)].
  pose proof (removePath_keeps _ _ target _ _ _ H2 N1) as K1.
  apply install_spec in H as (data & tree & s5 & s6 & _ & _ & [c Hc] & H5 & Hm & F6).
  unfold mark in Hm. destruct (String.eqb_spec (TrimSpace (up_version spec)) "") as [|_]; [done|].
  apply ignore_inv in Hm as (_ & y & Hm). assert (Hd : is_dir tree = true) by (by destruct tree).
  pose proof (create_child runtimeReleaseMarker (TrimSpace (up_version spec)) tree) as HC.
  destruct (writeBelow_inv _ _ _ _ _ _ _ _ Hm H5) as [(text & t & E & Ht & Htext)|[Ht HN]].
  - rw (Htext Hio) in E. rw E in HC. destruct HC as (m & Hf & Hc' & Hdm & HL). left. unfold ManagedRuntimeVersion. rw Hdir K1 F6 Ht. change (default (NDir []) (Some t)) with t. cbv zeta.
    assert (runtimeReleaseMarkerValue t = TrimSpace (up_version spec)) as ->.
    { unfold runtimeReleaseMarkerValue. rw Hf. destruct m as [d|es|[d|e]]; [|done| |by destruct (HL e)]; cbn in Hc'; rw Hc'; apply TrimSpace_idem. }
    rw TrimSpace_idem. by destruct (String.eqb_spec (TrimSpace (up_version spec)) "").
  - rw (HN Hio) in HC. destruct (HC Hd) as [es He]. right. exists es. by rw K1 F6 Ht.
Qed.

(** ** SelfUpgrade *)
Section program.
Context (h : uhost) (spec : UpgradeSpec) (fallback : proxySpec) (url exe : string).
Local Abbreviation newPath := (exe +:+ ".new").
Local Abbreviation old := (exe +:+ ".old").
Local Abbreviation want := (TrimSpace (up_sha256 spec)).
(** the program is where it was, or beside it where a running one cannot be replaced *)
Definition program_kept (before after : gmap string node) : Prop :=
  after !! exe = before !! exe ∨ (uh_windows h = true ∧ after !! exe = None ∧ after !! old = before !! exe).
Lemma swapBinary_spec s r s' :
  swapBinary h exe newPath s = (r, s') →
  match r with Ok _ => u_fs s' !! exe = u_fs s !! newPath | Err _ => program_kept (u_fs s) (u_fs s') end.
Proof.
  assert (exe ≠ newPath ∧ exe ≠ old ∧ newPath ≠ old) as (N1 & N2 & N3)
    by (split_and!; [by apply not_eq_sym, app_self|by apply not_eq_sym, app_self|by apply app_ne]).
  unfold swapBinary, program_kept. destruct (uh_windows h).
  - intros [(a & s1 & (_ & x & H1)%ignore_inv & H)|(e & ([=] & _)%ignore_inv & _)]%U_bind_inv.
    pose proof (removePath_keeps _ _ exe _ _ _ H1 N2) as F1. pose proof (removePath_keeps _ _ newPath _ _ _ H1 N3) as F1n.
    apply U_bind_inv in H as [(b & s2 & H2 & H)|(e & H2 & ->)].
    2: { apply orElse_inv in H2 as [(? & _ & [=])|(? & ? & ? & ? & H2%rename_inv & [= _ <-] & _)]. left. by rw H2. }
    apply orElse_inv in H2 as [(? & (n & Hn & F2 & _)%rename_inv & _)|(? & ? & ? & ? & _ & _ & [=])].
    apply orElse_inv in H as [(? & (m & Hm & F3 & _)%rename_inv & ->)|(? & ? & s3 & x3 & H3%rename_inv & (_ & y & H4)%ignore_inv & ->)].
    + rw F3 lookup_insert_eq -Hm F2 lookup_insert_ne // lookup_delete_ne //.
    + apply rename_inv in H4. destruct y.
      * destruct H4 as (m & Hm & F4 & _). left. rw F4 lookup_insert_eq. rw H3 F2 lookup_insert_eq in Hm. congruence.
      * right. rw H4 H3 F2 lookup_insert_eq lookup_insert_ne // lookup_delete_eq -F1. by split_and!.
  - intros [(? & (m & Hm & F3 & _)%rename_inv & ->)|(? & ? & s3 & x3 & H3%rename_inv & [= _ <-] & ->)]%orElse_inv; [|left; by rw H3].
    by rw F3 lookup_insert_eq.
Qed.
Definition cleanup : U () := failed ;; ignore (removePath h newPath).
Definition checked_program : U () :=
  if String.eqb want "" then mret () else emit "verifying" 92 0 0 ;; orElse (verifySHA256 h newPath want) (λ _, cleanup) "".
Lemma checked_program_inv s r s' :
  checked_program s = (r, s') → u_fs s' !! exe = u_fs s !! exe ∧
  match r with
  | Ok _ => u_fs s' = u_fs s ∧ ∀ n, u_fs s !! newPath = Some n → want ≠ "" → EqualFold (sha256hex (content_of n)) (TrimSpace want) = true
  | Err _ => True
  end.
Proof.
  unfold checked_program. destruct (String.eqb_spec want "") as [E|E]; [by intros [= <- <-]|].
  intros [([] & s1 & [= <-] & H)|(e & [=] & _)]%U_bind_inv.
  apply orElse_inv in H as [(a & (F & n & Hn & V)%verify_inv & ->)|(? & ? & s2 & x & (F & _)%verify_inv & H & ->)].
  - split; [by rw F|]. split; [done|]. intros n' Hn' _. cbn in Hn. rw Hn in Hn'. by injection Hn' as <-.
  - split; [|done]. apply U_bind_inv in H as [([] & s3 & [= <-] & (_ & y & H)%ignore_inv)|(e & [=] & _)].
    rw (removePath_keeps _ _ exe _ _ _ H); [by rw F|by apply not_eq_sym, app_self].
Qed.
Lemma replace_spec s r s' :
  replace_program h spec fallback url exe s = (r, s') →
  let swapped := ∃ data, received h spec s data ∧ u_fs s' !! exe = Some (NFile data) in
  match r with Ok _ => swapped ∧ uh_start h = None | Err _ => program_kept (u_fs s) (u_fs s') ∨ (swapped ∧ uh_start h ≠ None) end.
Proof.
  assert (T : ∀ B (m : U B) s r s', m s = (r, s') → tame [newPath; (newPath +:+ ".part")] (λ _, True) m → u_fs s' !! exe = u_fs s !! exe).
  { intros B m t x t' Hm Ht. destruct (Ht _ _ _ Hm) as [F _]. apply F. rw -string_app_assoc.
    by rw !not_elem_of_cons; split_and!; [apply not_eq_sym, app_self..|apply not_elem_of_nil]. }
  assert (C : tame [newPath; (newPath +:+ ".part")] (λ _, True) cleanup) by (unfold cleanup; tames).
  intros H. unfold replace_program in H. apply U_bind_inv in H as [([] & s1 & [= <-] & H)|(e & [=] & _)].
  apply U_bind_inv in H as [([] & s2 & H2 & H)|(e & H2 & ->)].
  2: { left. left. apply T in H2; [done|]. apply tame_orElse; [by apply tame_download|done]. }
  apply orElse_inv in H2 as [([] & H2 & _)|(? & ? & ? & ? & _ & _ & [=])]. pose proof (T _ _ _ _ _ H2 ltac:(by apply tame_download)) as F2.
  apply download_spec in H2 as (i & total & reads & Hi & Ha & Hd & Hl). cbn in Hi, F2.
  change (if String.eqb want "" then _ else _) with checked_program in H.
  apply U_bind_inv in H as [([] & s3 & (F3 & E3 & Hv)%checked_program_inv & H)|(e & (F3 & _)%checked_program_inv & ->)].
  2: { left. left. by rw F3 F2. }
  specialize (Hv _ Hd). cbn [content_of] in Hv.
  apply U_bind_inv in H as [([] & s4 & H4 & H)|(e & H4 & ->)].
  2: { left. left. apply T in H4; [by rw H4 F3 F2|]. apply tame_orElse; [tames|done]. }
  apply orElse_inv in H4 as [(? & F4 & _)|(? & ? & ? & ? & _ & _ & [=])]. assert (u_fs s4 = u_fs s3) as E4.
  { unfold chmodPath, sys in F4. cbn in F4. destruct (uh_io h _) as [[]|]; [done|]. by destruct (u_fs s3 !! newPath); injection F4 as _ <-. }
  apply U_bind_inv in H as [([] & s5 & [= <-] & H)|(e & [=] & _)].
  apply U_bind_inv in H as [([] & s6 & H6 & H)|(e & H6 & ->)].
  2: { apply orElse_inv in H6 as [(? & _ & [=])|(? & ? & s7 & y & H6%swapBinary_spec & [= _ <-] & _)]. left. cbn in H6. rw E4 in H6.
       unfold program_kept in *. cbn. by rw F3 F2 in H6. }
  apply orElse_inv in H6 as [(? & H6%swapBinary_spec & _)|(? & ? & ? & ? & _ & _ & [=])].
  apply U_bind_inv in H as [([] & s7 & [= <-] & H)|(e & [=] & _)]. unfold restartSelf in H.
  assert (∃ data, received h spec s data ∧ u_fs s6 !! exe = Some (NFile data)) as Hsw.
  { exists (body_of reads). split; [split; [|done]|]; [exists i, total, reads; split; [lia|done]|]. rw H6. cbn. by rw E4 E3. }
  destruct (uh_start h) as [e|]; injection H as <- <-; [by right|done].
Qed.
End program.


(** ** At concrete upgrades *)
Module UpgradeWitness.
Definition fine : nat → option (string * option node) := λ _, None.
Definition cli : tar_entry := mkTar "runtime/dist/cli.js" TypeReg 420 "" "run()".
Definition host (io : nat → option (string * option node)) (start : option string) : uhost :=
  mkUhost io (λ _, None) (λ _, None)
    (λ n, match n with 0 => ABody 7 [mkChunk "abc" None false ReadEOF] | _ => ABody 3 [mkChunk "ab" None false ReadMore; mkChunk "c" None true ReadEOF] end)
    (λ _, Ok ([mkTar "runtime/" TypeDir 493 "" ""; cli], None)) (λ _, true) (λ _, Err enoent) (Ok "/state") (λ _, Ok "/usr/bin/node")
    (λ _ _, ("0.6.0", None)) false false None (Ok "/opt/node") (λ p, Ok p) start.
Definition up : uhost := host fine None.
Definition sha : string := "BA7816BF8F01CFEA414140DE5DAE2223B00361A396177A9CB410FF61F20015AD".
Definition spec : UpgradeSpec := mkUpgrade "https://mirror/runtime.tar.gz" "20260816-0846" sha "" "" "".
Definition direct : proxySpec := mkSpec "" "" "".
Definition old_runtime : node := NDir [("dist", NDir [("cli.js", NFile "old()")])].
Definition s0 : ust := mkUst {["/state/runtime" := old_runtime; "/opt/node" := NFile "v1"]} 0 0 [] [].
(** the first response is cut short, the second one is whole *)
Definition fetched : result () * ust := Eval vm_compute in progressDownload up true "https://mirror/x" "/tmp/x" direct s0.
Lemma download_complete_witness : u_fs fetched.2 !! "/tmp/x" = Some (NFile "abc") ∧ length (u_gets fetched.2) = 2.
Proof.
  assert (E : progressDownload up true "https://mirror/x" "/tmp/x" direct s0 = (Ok (), fetched.2)) by (vm_compute; reflexivity).
  destruct (download_complete up true "https://mirror/x" "/tmp/x" direct s0 (Ok ()) fetched.2 E) as (_ & i & total & reads & Hi & Ha & Hd & _).
  split; [|reflexivity]. rw Hd. vm_compute in Hi. destruct i as [|[|i]]; [injection Ha as _ <-; reflexivity|injection Ha as _ <-; reflexivity|lia].
Defined.
Definition upgraded : result () * ust := Eval vm_compute in RuntimeUpgrade up (Some spec) direct s0.
(** moving the staged tree into place and moving the old one back both fail *)
Definition unlucky : uhost := host (λ n, if (16 <=? n) then Some ("busy", None) else None) None.
Definition stuck : result () * ust := Eval vm_compute in RuntimeUpgrade unlucky (Some spec) direct s0.
Definition stuck_error : string := Eval vm_compute in match stuck.1 with Err e => e | Ok _ => "" end.
Lemma upgrade_reports_release_witness : ManagedRuntimeVersion up (u_fs upgraded.2) = "20260816-0846".
Proof.
  assert (E : RuntimeUpgrade up (Some spec) direct s0 = (Ok (), upgraded.2)) by (vm_compute; reflexivity).
  destruct (upgrade_reports_release up spec direct "/state/runtime" s0 upgraded.2 eq_refl (λ _, eq_refl)) as [H|[es H]];
    [vm_compute; discriminate|exact E|exact H|vm_compute in H; discriminate H].
Defined.
Definition program : UpgradeSpec := mkUpgrade "https://mirror/node" "v2" sha "" "" "".
Definition replaced : result () * ust := Eval vm_compute in SelfUpgrade up (Some program) direct s0.
(** A new program that does not start: the error is returned, and the last event is not a failure. *)
Definition no_exec : result () * ust := Eval vm_compute in SelfUpgrade (host fine (Some "exec format error")) (Some program) direct s0.
Lemma failed_start_not_reported :
  match no_exec.1 with Err _ => True | Ok _ => False end ∧ last (u_events no_exec.2) = Some (mkUEvent "restarting" 98 0 0) ∧
  u_fs no_exec.2 !! "/opt/node" = Some (NFile "abc").
Proof. vm_compute. done. Qed.
(** What a stage that could not be removed still holds becomes part of the new runtime. *)
Definition stale_stage : ust := mkUst {["/state/runtime.new" := NDir [("evil.js", NFile "x")]]} 0 0 [] [].
Definition sticky : uhost := host (λ n, if (n =? 2) then Some ("busy", Some (NDir [("evil.js", NFile "x")])) else None) None.
Lemma stale_stage_installed :
  (RuntimeUpgrade sticky (Some spec) direct stale_stage).1 = Ok () ∧
  u_fs (RuntimeUpgrade sticky (Some spec) direct stale_stage).2 !! "/state/runtime" ≫= find_in ["evil.js"] = Some (NFile "x").
Proof. vm_compute. done. Qed.
End UpgradeWitness.
