(* ===== verification/HostTool.v ===== *)
(** * HostTool: installing Node.js and finding Xcode (common/agent/hosttool.go)

    The disk and the host of Upgrade.v, with the directory exchange used there.
    The process environment is part of the state: PATH and DEVELOPER_DIR.
    Versions of tools are what probing answers, by the number of probes made. *)
From S2P Require Import Prelude GoStrings GoPath Archive Sha256 NodeClient XcodeJob Resources FileService Upgrade.
From Stdlib Require Import Ascii.
Open Scope nat_scope.

(** ** Unpacking Node.js *)
Definition path_sep (windows : bool) : ascii := if windows then ";"%char else ":"%char.
Definition LastIndexSlash (s : string) : option nat :=
  match Index (string_reverse s) "/" with Some i => Some (String.length s - 1 - i) | None => None end.
(** archiveURL[:strings.LastIndex(archiveURL, "/")+1] and what follows it *)
Definition url_dir (u : string) : string := match LastIndexSlash u with Some i => take_bytes (S i) u | None => "" end.
Definition url_name (u : string) : string := match LastIndexSlash u with Some i => drop_bytes (S i) u | None => u end.
(** strings.Fields *)
Definition word (cur : string) (rest : list string) : list string := if String.eqb cur "" then rest else string_reverse cur :: rest.
Fixpoint fields_from (cur : string) (s : string) : list string :=
  match s with
  | EmptyString => word cur []
  | String a s1 =>
      if space1 a then word cur (fields_from "" s1) else
      match s1 with
      | EmptyString => word (String a cur) []
      | String b s2 =>
          if space2 a b then word cur (fields_from "" s2) else
          match s2 with
          | EmptyString => fields_from (String a cur) s1
          | String c s3 =>
              if space3 a b c then word cur (fields_from "" s3) else fields_from (String a cur) s1
          end
      end
  end.
Definition Fields (s : string) : list string := fields_from "" s.
Fixpoint find_sum (name : string) (lines : list string) : string :=
  match lines with
  | [] => ""
  | line :: lines =>
      match Fields (TrimSpace line) with
      | [sum; file] => if EqualFold file name then sum else find_sum name lines
      | _ => find_sum name lines
      end
  end.

Record hthost := mkHt {
  ht_up : uhost;
  ht_zip : string → result (list zip_entry);       (** archive/zip on these bytes *)
  ht_probe : nat → string;                         (** probeHostTool *)
  ht_select : nat → bool;                          (** xcode-select -s at this activation *)
  ht_active : option string;                       (** xcode-select -p *)
  ht_glob : string → list string;                  (** filepath.Glob(dir/Xcode*.app) *)
  ht_isDir : string → bool;                        (** os.Stat and IsDir *)
  ht_exists : string → bool;                       (** os.Stat *)
  ht_home : string;                                (** os.UserHomeDir *)
  ht_write : option string;                        (** os.WriteFile of the developer-dir file *)
  ht_read : option string                          (** os.ReadFile of it when it exists *)
}.
Record htst := mkHtst {
  t_up : ust; t_path : string; t_developerDir : string;   (** the environment; "" is unset *)
  t_saved : option string;                         (** the developer-dir file *)
  t_probes : nat; t_activated : list string        (** xcode-select -s *)
}.
#[export] Instance eta_htst : Settable htst := λ s, mkHtst (t_up s) (t_path s) (t_developerDir s) (t_saved s) (t_probes s) (t_activated s).

Section tools.
Variable h : hthost.
Local Abbreviation u := (ht_up h).
(** the first entry decides what is cut off the names *)
Definition node_name (hdr_name : string) : result string :=
  let name := Clean hdr_name in
  if String.eqb name "." || HasPrefix name ".." then Err ("host-tool: archive entry escapes stage dir: " +:+ hdr_name) else Ok name.
Definition node_dest (root strip hdr_name name : string) : result (option string) :=
  let rel := TrimPrefix (TrimPrefix name strip) "/" in
  if String.eqb rel "" then Ok None
  else
    let dest := Join [root; rel] in
    if negb (String.eqb dest root) && negb (HasPrefix dest (root +:+ "/"))
    then Err ("host-tool: archive entry escapes stage dir: " +:+ hdr_name) else Ok (Some dest).
Definition node_write (root dest : string) (hdr : tar_entry) : X (option string) := λ x,
  match th_type hdr with
  | TypeDir => do_op u root (MkdirAll dest (Z.land (th_mode hdr) 511)) x
  | TypeReg => write_entry u root dest (th_mode hdr) (th_data hdr) x
  | TypeSymlink =>
      let link := th_link hdr in
      if String.eqb link "" || IsAbs link then (Some ("host-tool: unexpected symlink " +:+ th_name hdr), x)
      else match do_op u root (MkdirAll (Dir dest) 493) x with
      | (Some e, x) => (Some e, x)
      | (None, x) =>
          let '(_, x) := do_op u root (RemoveOne dest) x in
          let '(_, x) := do_op u root (Symlink link dest) x in   (** a refused link is skipped *)
          (None, x)
      end
  | TypeOther => (Some ("host-tool: unsupported archive entry type: " +:+ th_name hdr), x)
  end.
Fixpoint node_entries (root strip : string) (entries : list tar_entry) (readErr : option string) : X (option string) := λ x,
  match entries with
  | [] => (match readErr with Some e => Some ("host-tool: read tar: " +:+ e) | None => None end, x)
  | hdr :: entries =>
      match node_name (th_name hdr) with
      | Err e => (Some e, x)
      | Ok name =>
          if String.eqb strip "" && match th_type hdr with TypeDir => true | _ => false end
          then node_entries root name entries readErr x
          else
            let strip := if String.eqb strip "" then "." else strip in
            match node_dest root strip (th_name hdr) name with
            | Err e => (Some e, x)
            | Ok None => node_entries root strip entries readErr x
            | Ok (Some dest) =>
                match node_write root dest hdr x with
                | (Some e, x) => (Some e, x)
                | (None, x) => node_entries root strip entries readErr x
                end
            end
      end
  end.
Fixpoint zip_entries (root : string) (entries : list zip_entry) : X (option string) := λ x,
  match entries with
  | [] => (None, x)
  | z :: entries =>
      match node_name (zf_name z) with
      | Err e => (Some e, x)
      | Ok name =>
          let dest := Join [root; name] in
          if negb (String.eqb dest root) && negb (HasPrefix dest (root +:+ "/"))
          then (Some ("host-tool: zip entry escapes stage dir: " +:+ zf_name z), x)
          else
            match (if zf_dir z then do_op u root (MkdirAll dest 493) x
                   else match do_op u root (MkdirAll (Dir dest) 493) x with
                        | (Some e, x) => (Some e, x)
                        | (None, x) => do_op u root (WriteFile dest (zf_mode z) (zf_data z)) x
                        end) with
            | (Some e, x) => (Some e, x)
            | (None, x) => zip_entries root entries x
            end
      end
  end.
Definition extractNodeTarGz (archivePath stage : string) : U () :=
  data ← orElse (readPath u archivePath) (λ _, mret ()) "host-tool: open archive: ";
  match uh_tar u data with
  | Err e => fail ("host-tool: read gzip: " +:+ e)
  | Ok (entries, readErr) => unpack stage (node_entries (Clean stage) "" entries readErr)
  end.
Definition extractNodeZip (archivePath stage : string) : U () :=
  data ← orElse (readPath u archivePath) (λ _, mret ()) "host-tool: open zip: ";
  match ht_zip h data with
  | Err e => fail ("host-tool: open zip: " +:+ e)
  | Ok entries => unpack stage (zip_entries (Clean stage) entries)
  end.
Definition extractNodeArchive (archivePath stage : string) : U () :=
  orElse (mkdirSlot u stage) (λ _, mret ()) "host-tool: prepare stage dir: " ;;
  if uh_windows u || HasSuffix (ToLower archivePath) ".zip" then extractNodeZip archivePath stage else extractNodeTarGz archivePath stage.
Definition is_file (cs : list string) (t : node) : bool :=
  match find_in cs t with Some (NFile _) | Some (NLink (Ok _)) => true | _ => false end.
Definition validateStagedNode (stage : string) : U () :=
  r1 ← attempt (statBelow u stage ["bin"; "node"]);
  match r1 with
  | Ok n => if is_dir n then
              r2 ← attempt (statBelow u stage ["node.exe"]);
              match r2 with Ok (NDir _) | Err _ => fail "host-tool: staged archive has no node binary" | Ok _ => mret () end
            else mret ()
  | Err _ =>
      r2 ← attempt (statBelow u stage ["node.exe"]);
      match r2 with Ok (NDir _) | Err _ => fail "host-tool: staged archive has no node binary" | Ok _ => mret () end
  end.

(** ** The published checksum *)
Fixpoint read_all (reads : list chunk) : result string :=
  match reads with
  | [] => Ok ""
  | r :: reads =>
      match ck_end r with
      | ReadEOF => Ok (ck_data r)
      | ReadError e => Err e
      | ReadMore => match read_all reads with Ok d => Ok (ck_data r +:+ d) | Err e => Err e end
      end
  end.
Definition sums_limit : nat := N.to_nat (2 ^ 20).
(** [Ok ""]: the archive is not listed.  A reader cut at its limit reports no error. *)
Definition fetchDistSHA256 (archiveURL : string) (spec : proxySpec) : U string :=
  let sumsURL := url_dir archiveURL +:+ "SHASUMS256.txt" in
  match uh_client u spec with
  | Some e => fail e
  | None =>
      a ← request u (resolveDownloadURL spec sumsURL);
      match a with
      | AError e => fail e
      | AStatus code => fail ("SHASUMS256.txt: status " +:+ itoa (Z.to_N code))
      | ABody _ reads =>
          let raw := body_of reads in
          match (if (2 ^ 20 <=? blen raw)%Z then Ok raw else read_all reads) with
          | Err e => fail e
          | Ok body => mret (find_sum (url_name archiveURL) (Split1 "010" (take_bytes sums_limit body)))
          end
      end
  end.

(** ** installHostNodeJS *)
Definition hostToolNodeDirName : string := "node".
Definition ManagedToolsParent : result string := match uh_state u with Ok dir => Ok (Join [Dir dir; "tools"]) | Err e => Err e end.
Definition ManagedNodeDir : string := match ManagedToolsParent with Ok parent => Join [parent; hostToolNodeDirName] | Err _ => "" end.
Definition ManagedNodeBinDir : string :=
  let dir := ManagedNodeDir in
  if String.eqb dir "" then "" else if uh_windows u then dir else Join [dir; "bin"].
(** a source of checksums that does not answer is only logged *)
Definition verify_node (spec : UpgradeSpec) (url archivePath : string) (proxy : proxySpec) : U () :=
  let want := TrimSpace (up_sha256 spec) in
  if negb (String.eqb want "") then orElse (verifySHA256 u archivePath want) (λ _, mret ()) "host-tool: "
  else
    r ← attempt (fetchDistSHA256 url proxy);
    match r with
    | Err _ => mret ()
    | Ok sha => if String.eqb sha "" then mret () else orElse (verifySHA256 u archivePath sha) (λ _, mret ()) "host-tool: "
    end.
Definition node_exchange (spec : UpgradeSpec) (fallback : proxySpec) (url target : string) : U () :=
  let archivePath := target +:+ ".archive" in
  let stage := target +:+ ".new" in
  let proxy := upgrade_proxy spec fallback in
  downloadTo u url archivePath proxy ;;
  verify_node spec url archivePath proxy ;;
  orElse (extractNodeArchive archivePath stage) (λ _, ignore (removeTree u stage)) "" ;;
  orElse (validateStagedNode stage) (λ _, ignore (removeTree u stage)) "" ;;
  swapDirs u target stage (target +:+ ".old") "host-tool: preserve current node install: " "host-tool: activate staged node install: ".
Definition installHostNodeJS (spec : UpgradeSpec) (fallback : proxySpec) : U () :=
  let url := TrimSpace (up_url spec) in
  if String.eqb url "" then fail "host-tool: download_url is required"
  else match ManagedToolsParent with
  | Err e => fail ("host-tool: resolve tools dir: " +:+ e)
  | Ok parent =>
      let target := Join [parent; hostToolNodeDirName] in
      orElse (mkdirParent u parent) (λ _, mret ()) "host-tool: prepare tools dir: " ;;
      ignore (removePath u (target +:+ ".archive")) ;;
      ignore (removeTree u (target +:+ ".new")) ;;
      deferring (ignore (removePath u (target +:+ ".archive"))) (node_exchange spec fallback url target)
  end.

(** ** PATH *)
Definition on_path (binDir : string) (parts : list string) : bool :=
  existsb (λ part, EqualFold (Clean part) (Clean binDir)) parts.
Definition with_bin (binDir path : string) : string :=
  if String.eqb path "" then binDir
  else if on_path binDir (Split1 (path_sep (uh_windows u)) path) then path
  else binDir +:+ String (path_sep (uh_windows u)) path.
Definition EnsureManagedNodeOnPath (s : htst) : htst :=
  let binDir := ManagedNodeBinDir in
  if String.eqb binDir "" then s
  else
    let cs := if uh_windows u then [nodeBinary u] else ["bin"; nodeBinary u] in
    match u_fs (t_up s) !! ManagedNodeDir ≫= find_in cs with
    | None | Some (NLink (Err _)) => s
    | Some _ => s <| t_path := with_bin binDir (t_path s) |>
    end.

(** ** Xcode *)
Definition is_stable (app : string) : bool := String.eqb (Base app) "Xcode.app".
(** one step of the insertion sort sort.Slice does on up to twelve elements:
    move left while [less] holds, which here looks at the moving element only *)
Definition insert_app (app : string) (l : list string) : list string := if is_stable app then app :: l else l ++ [app].
Definition sort_exact (l : list string) : list string :=
  match l with [] => [] | x :: l => foldl (λ acc app, insert_app app acc) [x] l end.
Definition filterXcodeCandidates (dirs : list string) : list string :=
  let found := filter (λ m, ht_isDir h m = true) (concat (map (ht_glob h) dirs)) in
  let is_exact m := is_stable m || String.eqb (Base m) "Xcode-beta.app" in
  let exact := filter (λ m, is_exact m = true) found in
  let rest := filter (λ m, is_exact m = false) found in
  sort_exact exact ++ merge_sort (λ a b, Is_true (String.leb a b)) rest.
Definition xcode_dirs : list string :=
  "/Applications" :: if String.eqb (ht_home h) "" then [] else [Join [ht_home h; "Applications"]; Join [ht_home h; "Downloads"]].
Definition discoverXcodeApps : list string := filterXcodeCandidates xcode_dirs.
Definition HT (A : Type) : Type := htst → A * htst.
Definition probe : HT string := λ s, (ht_probe h (t_probes s), s <| t_probes := S (t_probes s) |>).
Definition saveDeveloperDir (devDir : string) (s : htst) : htst :=
  match uh_state u, ht_write h with Ok _, None => s <| t_saved := Some devDir |> | _, _ => s end.
(** how it was activated *)
Definition activateDeveloperDir (devDir : string) : HT string := λ s,
  let n := length (t_activated s) in
  let s := s <| t_activated := t_activated s ++ [devDir] |> in
  if ht_select h n then ("xcode-select", s)
  else ("DEVELOPER_DIR", saveDeveloperDir devDir (s <| t_developerDir := devDir |>)).
Fixpoint try_candidates (apps : list string) : HT bool := λ s,
  match apps with
  | [] => (false, s)
  | app :: apps =>
      let devDir := Join [app; "Contents"; "Developer"] in
      if negb (ht_exists h (Join [devDir; "usr"; "bin"; "xcodebuild"])) then try_candidates apps s
      else
        let '(_, s) := activateDeveloperDir devDir s in
        let '(v, s) := probe s in
        if negb (String.eqb v "") then (true, s) else try_candidates apps s
  end.
Definition xcodeDetectionFailure (candidates : list string) : string :=
  let active := match ht_active h with Some out => TrimSpace out | None => "" end in
  let detail := if String.eqb active "" then "" else "当前 xcode-select 指向 " +:+ active +:+ "。" in
  if negb (match candidates with [] => true | _ => false end)
  then "本机发现 Xcode（" +:+ concat_sep "、" candidates +:+ "）但激活后 xcodebuild 仍无法运行，" +:+ detail
  else "未在 /Applications、~/Applications、~/Downloads 找到 Xcode.app 或 Xcode-beta.app，" +:+ detail.
(** acceptXcodeLicenseBestEffort, whose outcome is ignored, is left out *)
Definition installXcodeDetection : HT (result ()) := λ s,
  let '(v, s) := probe s in
  if negb (String.eqb v "") then (Ok (), s)
  else
    let candidates := discoverXcodeApps in
    let '(found, s) := try_candidates candidates s in
    (if found then Ok () else Err (xcodeDetectionFailure candidates), s).
(** at startup *)
Definition EnsureDeveloperDir (s : htst) : htst :=
  if negb (String.eqb (t_developerDir s) "") then s
  else match uh_state u, t_saved s with
  | Ok _, Some raw =>
      match ht_read h with
      | Some _ => s
      | None =>
          let devDir := TrimSpace raw in
          if String.eqb devDir "" then s
          else if negb (ht_exists h devDir) then s <| t_saved := None |>
          else s <| t_developerDir := devDir |>
      end
  | _, _ => s
  end.

(** ** InstallHostTool *)
Definition InstallHostTool (tool : string) (spec : UpgradeSpec) (fallback : proxySpec) : HT (result (string * string * string)) := λ s,
  let tool := TrimSpace tool in
  let finish s :=
    let s := EnsureManagedNodeOnPath s in
    let '(nodeVersion, s) := probe s in
    let '(npmVersion, s) := probe s in
    let '(xcodebuildVersion, s) := probe s in
    (Ok (nodeVersion, npmVersion, xcodebuildVersion), s) in
  if String.eqb tool "nodejs" then
    let '(r, up) := installHostNodeJS spec fallback (t_up s) in
    let s := s <| t_up := up |> in
    match r with Err e => (Err e, s) | Ok _ => finish s end
  else if String.eqb tool "xcode" then
    let '(r, s) := installXcodeDetection s in
    match r with Err e => (Err e, s) | Ok _ => finish s end
  else (Err ("host-tool: unsupported tool " +:+ tool), s).
End tools.
