(* ===== verification/HostToolProofs.v ===== *)
(** * HostToolProofs: tools are exchanged whole, found in order and kept on PATH *)
From S2P Require Import Prelude GoStrings GoPath Archive Sha256 NodeClient XcodeJob Resources ResourcesProofs FileService FileServiceProofs Upgrade UpgradeProofs HostTool.
From Stdlib Require Import Ascii.
Open Scope nat_scope.

(** ** Where the entries of an archive go *)
Definition ops_in (x : node * list fs_op) : list fs_op := x.2.
(** every operation a computation tries is at or below [root] *)
Definition stays (root : string) (links : bool) (m : X (option string)) : Prop := ∀ x, ∃ ops, ops_in (m x).2 = ops_in x ++ ops ∧
  Forall (λ op, op_ok root op ∧ (creates_link op = true → links = true)) ops.
Section inside.
Context (root : string).
Hypothesis root_abs : IsAbs root = true.
Hypothesis root_clean : Clean root = root.
Lemma root_not_empty : root ≠ "".
Proof. intros E. pose proof root_abs as H. by rw E in H. Qed.
Definition accepted (dest : string) : bool := String.eqb dest root || HasPrefix dest (root +:+ "/").
Lemma Clean_joined name : Clean (Join [root; name]) = Join [root; name].
Proof.
  rw (Join_two root name root_not_empty). set (raw := root +:+ String slash name).
  assert (Ha : IsAbs raw = true) by (unfold raw; pose proof root_abs; by destruct root).
  rw (clean_abs raw Ha). pose proof (comps_shape raw) as Hs. rw Ha in Hs. destruct (comps raw) as [|c cs]; [done|].
  destruct (render_comps true (c :: cs)) as [H1 H2]; [done|done|]. rw (clean_abs _ H1). by rw H2.
Qed.
Lemma accepted_inside name :
  accepted (Join [root; name]) = true →
  inside root (Join [root; name]) ∧ (inside root (Dir (Join [root; name])) ∨ Dir (Join [root; name]) = Dir root).
Proof.
  intros H. apply (joined_inside root root_abs root_clean). rw Clean_joined root_clean. unfold accepted in H.
  apply orb_true_iff in H as [->%String.eqb_eq|[t ->]%HasPrefix_spec]; [apply HasPrefix_spec; exists ""; by rw string_app_nil_r|].
  apply HasPrefix_spec. exists (t +:+ "/"). by rw -!string_app_assoc.
Qed.
Lemma refused_false dest : negb (String.eqb dest root) && negb (HasPrefix dest (root +:+ "/")) = negb (accepted dest).
Proof. unfold accepted. by destruct (String.eqb dest root), (HasPrefix _ _). Qed.
Section host.
Context (h : uhost) (links : bool).
Lemma stays_skip r : stays root links (λ x, (r, x)).
Proof. intros x. exists []. by rw app_nil_r. Qed.
Lemma stays_op op : op_ok root op → (creates_link op = true → links = true) → stays root links (do_op h root op).
Proof.
  intros H1 H2 [n ops]. exists [op]. split; [|by constructor]. unfold do_op. destruct (uh_os h op); [|done]. by destruct (apply_op h root op n).
Qed.
(** one step after another, as long as there is no error *)
Lemma stays_then (m k : X (option string)) :
  stays root links m → stays root links k → stays root links (λ x, match m x with (Some e, x) => (Some e, x) | (None, x) => k x end).
Proof.
  intros Hm Hk x. destruct (Hm x) as (o1 & E1 & F1). destruct (m x) as [[e|] y]; cbn in *; [by exists o1|].
  destruct (Hk y) as (o2 & E2 & F2). exists (o1 ++ o2). rw E2 E1 app_assoc. split; [done|]. by apply Forall_app.
Qed.
Lemma stays_ignored (m k : X (option string)) : stays root links m → stays root links k → stays root links (λ x, let '(_, x) := m x in k x).
Proof.
  intros Hm Hk x. destruct (Hm x) as (o1 & E1 & F1). destruct (m x) as [e y]; cbn in *.
  destruct (Hk y) as (o2 & E2 & F2). exists (o1 ++ o2). rw E2 E1 app_assoc. split; [done|]. by apply Forall_app.
Qed.
Lemma stays_write name mode data : accepted (Join [root; name]) = true → stays root links (write_entry h root (Join [root; name]) mode data).
Proof.
  intros [H1 H2]%accepted_inside. apply (stays_then (do_op h root _)); apply stays_op; try done. by left.
Qed.
End host.
Lemma runtime_stays h hdr : stays root false (runtime_entry_step h root hdr).
Proof.
  unfold runtime_entry_step, runtime_dest. destruct (split_slash _) as [|part parts]; [apply stays_skip|]. cbv zeta.
  destruct (negb (String.eqb part _)); [apply stays_skip|]. rw refused_false. destruct (accepted _) eqn:Ha; [|apply stays_skip]. cbn [negb].
  pose proof (accepted_inside _ Ha) as [H1 _].
  destruct (th_type hdr); [apply stays_op; [by left|done]|by apply stays_write|apply stays_skip|apply stays_skip].
Qed.
Lemma runtime_entries_stay h entries readErr : stays root false (runtime_entries h root entries readErr).
Proof. induction entries as [|hdr entries IH]; [apply stays_skip|]. apply stays_then; [apply runtime_stays|exact IH]. Qed.
Lemma node_write_stays h name hdr : accepted (Join [root; name]) = true → stays root true (node_write h root (Join [root; name]) hdr).
Proof.
  intros Ha. pose proof (accepted_inside _ Ha) as [H1 H2]. assert (Hd : ∀ m, op_ok root (MkdirAll (Dir (Join [root; name])) m))
    by (intros m; destruct H2 as [H2|H2]; [by left|by right]).
  unfold node_write. destruct (th_type hdr); [apply stays_op; [by left|done]|by apply stays_write| |apply stays_skip].
  cbv zeta. destruct (_ || _); [apply stays_skip|]. apply stays_then; [by apply stays_op|].
  apply (stays_ignored true (do_op (ht_up h) root (RemoveOne _))); [apply stays_op; [by left|done]|].
  apply (stays_ignored true (do_op (ht_up h) root (Symlink _ _))); [apply stays_op; [by left|done]|apply stays_skip].
Qed.
Lemma node_entries_stay h strip entries readErr : stays root true (node_entries h root strip entries readErr).
Proof.
  revert strip. induction entries as [|hdr entries IH]; intros strip; cbn [node_entries]; [apply stays_skip|].
  destruct (node_name _) as [name|e]; [|apply stays_skip]. destruct (String.eqb strip "" && _); [apply IH|]. cbv zeta.
  unfold node_dest. destruct (String.eqb _ ""); [apply IH|]. rw refused_false. destruct (accepted _) eqn:Ha; [|apply stays_skip]. cbn [negb].
  apply stays_then; [by apply node_write_stays|apply IH].
Qed.
Lemma zip_entries_stay h entries : stays root false (zip_entries h root entries).
Proof.
  induction entries as [|z entries IH]; cbn [zip_entries]; [apply stays_skip|]. destruct (node_name _) as [name|e]; [|apply stays_skip].
  cbv zeta. rw refused_false. destruct (accepted _) eqn:Ha; [|apply stays_skip]. cbn [negb]. pose proof (accepted_inside _ Ha) as [H1 H2].
  apply stays_then; [|exact IH]. destruct (zf_dir z); [apply stays_op; [by left|done]|].
  apply (stays_then false (do_op (ht_up h) root _)); apply stays_op; try done. by left.
Qed.
End inside.

(** Unpacking a runtime or a Node.js archive, tar or zip, only ever names
    paths at or below the staging directory (for an entry that names it, also
    its parent), whatever the entries and whatever fails; a runtime archive and
    a zip archive create no link, so what they write really is below it. *)
Theorem tool_archives_inside h root entries readErr zips n :
  IsAbs root = true → Clean root = root →
  let runtime := (runtime_entries (ht_up h) root entries readErr (n, [])).2.2 in
  let node := (node_entries h root "" entries readErr (n, [])).2.2 in
  let zip := (zip_entries h root zips (n, [])).2.2 in
  Forall (op_ok root) (runtime ++ node ++ zip) ∧
  ∀ ops i op q, ops = runtime ∨ ops = zip → ops !! i = Some op → op_path op ≠ Dir root → places [] ops !! i = Some (Some q) →
    comps root `prefix_of` q.
Proof.
  intros Ha Hc. cbv zeta.
  assert (K : ∀ links m, stays root links m →
    Forall (op_ok root) (m (n, [])).2.2 ∧ (links = false → Forall (λ op, creates_link op = false) (m (n, [])).2.2)).
  { intros links m Hm. destruct (Hm (n, [])) as (ops & E & F). unfold ops_in in E. cbn in E. rw E. split.
    - eapply Forall_impl; [exact F|]. by intros op [? _].
    - intros ->. eapply Forall_impl; [exact F|]. intros op [_ Hl]. destruct (creates_link op); [by specialize (Hl eq_refl)|done]. }
  destruct (K _ _ (runtime_entries_stay root Ha Hc (ht_up h) entries readErr)) as [R1 R2].
  destruct (K _ _ (node_entries_stay root Ha Hc h "" entries readErr)) as [N1 _].
  destruct (K _ _ (zip_entries_stay root Ha Hc h zips)) as [Z1 Z2].
  split; [by rw !Forall_app|]. intros ops i op q [-> | ->] Hi Hd Hq; (eapply places_inside; [exact Ha| | |exact Hi|done|exact Hq]); auto.
Qed.

(** ** Installing Node.js *)
Section node.
Context (h : hthost) (spec : UpgradeSpec) (fallback : proxySpec) (url target : string).
Local Abbreviation u := (ht_up h).
Local Abbreviation archive := (target +:+ ".archive").
Local Abbreviation stage := (target +:+ ".new").
Local Abbreviation backup := (target +:+ ".old").
Local Abbreviation scratch := [archive; (archive +:+ ".part"); stage].
(** the tree an archive of these bytes unpacks to, over what was there *)
Definition node_unpacked (data : string) (tree : node) : Prop := ∃ n0 ops,
  if uh_windows u || HasSuffix (ToLower archive) ".zip"
  then ∃ es, ht_zip h data = Ok es ∧ zip_entries h (Clean stage) es (n0, []) = (None, (tree, ops))
  else ∃ es readErr, uh_tar u data = Ok (es, readErr) ∧ node_entries h (Clean stage) "" es readErr (n0, []) = (None, (tree, ops)).
Lemma unpack_inv p m s r s' :
  unpack p m s = (r, s') → (∀ q, q ≠ p → u_fs s' !! q = u_fs s !! q) ∧
  match r with Ok _ => ∃ n0 tree ops, m (n0, []) = (None, (tree, ops)) ∧ u_fs s' !! p = Some tree | Err _ => True end.
Proof.
  unfold unpack. destruct (m _) as [err [n ops]] eqn:E. intros [= <- <-]. split; [intros q Hq; cbn; by apply lookup_insert_ne|].
  destruct err; [done|]. eexists _, n, ops. split; [exact E|]. cbn. by rw lookup_insert_eq.
Qed.
Lemma extract_node_inv s r s' :
  extractNodeArchive h archive stage s = (r, s') →
  match r with Ok _ => ∃ n tree, u_fs s !! archive = Some n ∧ u_fs s' !! stage = Some tree ∧ node_unpacked (content_of n) tree | Err _ => True end.
Proof.
  assert (Has : archive ≠ stage) by (by apply app_ne).
  unfold extractNodeArchive, node_unpacked. intros [(a & s1 & H1 & H)|(e & H1 & ->)]%U_bind_inv; [|done].
  apply orElse_inv in H1 as [(b & H1 & _)|(? & ? & ? & ? & _ & _ & [=])]. pose proof (mkdirSlot_inv _ _ archive _ _ _ H1 Has) as F1. rw -F1.
  destruct (_ || _).
  - unfold extractNodeZip in H. apply U_bind_inv in H as [(d & s2 & H2 & H)|(e & H2 & ->)]; [|done].
    apply orElse_inv in H2 as [(b2 & (F2 & n & Hn & ->)%read_inv & [= ->])|(? & ? & ? & ? & _ & _ & [=])].
    destruct (ht_zip h (content_of n)) as [es|e] eqn:Ez; [|by injection H as <- <-]. apply unpack_inv in H as [_ H]. destruct r; [|done].
    destruct H as (n0 & tree & ops & Hm & Ht). exists n, tree. split_and!; [done|done|]. exists n0, ops. by exists es.
  - unfold extractNodeTarGz in H. apply U_bind_inv in H as [(d & s2 & H2 & H)|(e & H2 & ->)]; [|done].
    apply orElse_inv in H2 as [(b2 & (F2 & n & Hn & ->)%read_inv & [= ->])|(? & ? & ? & ? & _ & _ & [=])].
    destruct (uh_tar u (content_of n)) as [[es readErr]|e] eqn:Ez; [|by injection H as <- <-]. apply unpack_inv in H as [_ H]. destruct r; [|done].
    destruct H as (n0 & tree & ops & Hm & Ht). exists n, tree. split_and!; [done|done|]. exists n0, ops. by exists es, readErr.
Qed.
Definition runnable (tree : node) : Prop := is_file ["bin"; "node"] tree = true ∨ is_file ["node.exe"] tree = true.
Lemma below_file cs s n s' tree :
  statBelow u stage cs s = (Ok n, s') → u_fs s !! stage = Some tree → is_dir n = false → is_file cs tree = true.
Proof.
  unfold statBelow, sys, is_file. cbn. destruct (uh_io u _) as [[]|]; [done|]. intros H Ht Hn. rw Ht in H. cbn in H.
  destruct (find_in cs tree) as [[| |[]]|]; try done; by injection H as <- _.
Qed.
Lemma validate_inv s r s' tree :
  validateStagedNode h stage s = (r, s') → u_fs s !! stage = Some tree → u_fs s' = u_fs s ∧ match r with Ok _ => runnable tree | Err _ => True end.
Proof.
  intros H Ht. unfold validateStagedNode in H.
  assert (K : ∀ s0, u_fs s0 = u_fs s →
    (r2 ← attempt (statBelow u stage ["node.exe"]);
     match r2 with Ok (NDir _) | Err _ => fail "host-tool: staged archive has no node binary" | Ok _ => mret () end) s0 = (r, s') →
    u_fs s' = u_fs s ∧ match r with Ok _ => runnable tree | Err _ => True end).
  { intros s0 F0 K. apply U_bind_inv in K as [(x & s2 & (y & [= <-] & H2)%attempt_inv & K)|(? & (? & [=] & _)%attempt_inv & _)].
    pose proof (below_inv _ _ _ _ _ _ H2) as [F2 _]. destruct x as [n|e]; [|injection K as <- <-; by rw F2].
    destruct n as [d|es|d] eqn:En; injection K as <- <-; (split; [by rw F2|]); try done; right; (eapply below_file; [exact H2|by rw F0|done]). }
  apply U_bind_inv in H as [(x & s1 & (y & [= <-] & H1)%attempt_inv & H)|(? & (? & [=] & _)%attempt_inv & _)].
  pose proof (below_inv _ _ _ _ _ _ H1) as [F1 _]. destruct x as [n|e]; [|by apply K in H].
  destruct (is_dir n) eqn:Ed; [by apply K in H|]. injection H as <- <-. split; [done|]. left. by eapply below_file.
Qed.
Lemma tame_fetch S Q proxy : tame S Q (fetchDistSHA256 h url proxy).
Proof.
  unfold fetchDistSHA256. cbv zeta. destruct (uh_client u proxy); [apply tame_fail|]. apply tame_bind; [apply tame_request|].
  intros [e|c|total reads]; [apply tame_fail|apply tame_fail|]. destruct (if _ then _ else _); [apply tame_ret|apply tame_fail].
Qed.
Lemma tame_verify_node S Q proxy : tame S Q (verify_node h spec url archive proxy).
Proof.
  unfold verify_node. cbv zeta. destruct (negb _); [apply tame_orElse; [apply tame_verify|intros ?; apply tame_ret]|].
  apply tame_bind; [apply tame_attempt, tame_fetch|]. intros [sha|e]; [|apply tame_ret]. destruct (String.eqb _ _); [apply tame_ret|].
  apply tame_orElse; [apply tame_verify|intros ?; apply tame_ret].
Qed.
Lemma verify_node_inv proxy s s' n :
  verify_node h spec url archive proxy s = (Ok (), s') → u_fs s !! archive = Some n →
  TrimSpace (up_sha256 spec) ≠ "" → EqualFold (sha256hex (content_of n)) (TrimSpace (TrimSpace (up_sha256 spec))) = true.
Proof.
  unfold verify_node. cbv zeta. intros H Hn Hw. destruct (String.eqb_spec (TrimSpace (up_sha256 spec)) ""); [done|]. cbn [negb] in H.
  apply orElse_inv in H as [(a & (_ & m & Hm & Hv)%verify_inv & _)|(? & ? & ? & ? & _ & _ & [=])]. congruence.
Qed.
Lemma tame_extract_node : tame scratch (λ _, True) (extractNodeArchive h archive stage).
Proof.
  unfold extractNodeArchive. apply tame_bind; [apply tame_orElse; [apply tame_mkdirSlot; listed|intros ?; apply tame_ret]|intros _].
  destruct (_ || _); (apply tame_bind; [apply tame_orElse; [apply tame_read|intros ?; apply tame_ret]|intros d]).
  - destruct (ht_zip h d); [apply tame_unpack; listed|apply tame_fail].
  - destruct (uh_tar u d) as [[]|]; [apply tame_unpack; listed|apply tame_fail].
Qed.
Lemma tame_validate : tame scratch (λ _, True) (validateStagedNode h stage).
Proof.
  assert (K : tame scratch (λ _, True) (r2 ← attempt (statBelow u stage ["node.exe"]);
     match r2 with Ok (NDir _) | Err _ => fail "host-tool: staged archive has no node binary" | Ok _ => mret () end)).
  { tames. destruct a as [[]|]; tames. }
  unfold validateStagedNode. apply tame_bind; [tames|]. intros [n|e]; [destruct (is_dir n); [exact K|apply tame_ret]|exact K].
Qed.
Lemma node_apart : (target ∉ scratch) ∧ target ≠ stage ∧ target ≠ backup ∧ stage ≠ backup.
Proof.
  split_and!; [|by apply not_eq_sym, app_self|by apply not_eq_sym, app_self|by apply app_ne].
  rw !not_elem_of_cons -!string_app_assoc. split_and!; [by apply not_eq_sym, app_self..|apply not_elem_of_nil].
Qed.
Lemma node_exchange_spec s r s' :
  node_exchange h spec fallback url target s = (r, s') →
  match r with
  | Ok _ => ∃ data tree, received u spec s data ∧ node_unpacked data tree ∧ runnable tree ∧ u_fs s' !! target = Some tree
  | Err _ => preserved target backup (u_fs s) (u_fs s')
  end.
Proof.
  destruct node_apart as (N0 & N1 & N2 & N3).
  assert (T : ∀ B (m : U B) s r s', m s = (r, s') → tame scratch (λ _, True) m → u_fs s' !! target = u_fs s !! target)
    by (intros B m t x t' Hm Ht; destruct (Ht _ _ _ Hm) as [F _]; by apply F).
  assert (P : ∀ s0, u_fs s0 !! target = u_fs s !! target → preserved target backup (u_fs s) (u_fs s0)) by (intros s0 F es He; left; by rw F).
  assert (D : tame scratch (λ _, True) (downloadTo u url archive (upgrade_proxy spec fallback))).
  { intros t x t' H. destruct (tame_download u (λ _, True) _ _ _ _ (λ _ _, I) _ _ _ H) as (F & E & G). split; [|done].
    intros p Hp. apply F. rw !not_elem_of_cons in Hp |- *. tauto. }
  intros H. unfold node_exchange in H. cbv zeta in H. apply U_bind_inv in H as [([] & s1 & H1 & H)|(e & H1 & ->)]; [|apply P; by apply T in H1].
  pose proof (T _ _ _ _ _ H1 D) as F1. apply download_spec in H1 as (i & total & reads & Hi & Ha & Hd & Hl).
  apply U_bind_inv in H as [([] & s2 & H2 & H)|(e & H2 & ->)]; pose proof (tame_verify_node [] (λ _, True) _ _ _ _ H2) as [E2 _].
  2: { apply P. by rw E2; [|apply not_elem_of_nil]. }
  pose proof (verify_node_inv _ _ _ _ H2 Hd) as Hv. cbn [content_of] in Hv.
  assert (F2 : u_fs s2 !! target = u_fs s !! target) by (by rw E2; [|apply not_elem_of_nil]). rw -E2 in Hd; [|apply not_elem_of_nil].
  apply U_bind_inv in H as [([] & s3 & H3 & H)|(e & H3 & ->)].
  2: { apply P. rw (T _ _ _ _ _ H3) //. apply tame_orElse; [apply tame_extract_node|intros ?; tames]. }
  apply orElse_inv in H3 as [([] & H3 & _)|(? & ? & ? & ? & _ & _ & [=])]. pose proof (T _ _ _ _ _ H3 tame_extract_node) as F3.
  apply extract_node_inv in H3 as (n & tree & Hn & Hst & Hu). rw Hd in Hn. injection Hn as <-. cbn [content_of] in Hu.
  apply U_bind_inv in H as [([] & s4 & H4 & H)|(e & H4 & ->)].
  2: { apply P. rw (T _ _ _ _ _ H4); [congruence|]. apply tame_orElse; [apply tame_validate|intros ?; tames]. }
  apply orElse_inv in H4 as [([] & H4 & _)|(? & ? & ? & ? & _ & _ & [=])]. destruct (validate_inv _ _ _ _ H4 Hst) as [F4 Hr].
  apply swap_spec in H; [|done..]. destruct r as [[]|e]; [|intros es He; apply H; congruence].
  exists (body_of reads), tree. rw F4 Hst in H. split; [split; [|done]|]; [exists i, total, reads; split; [lia|done]|by split_and!].
Qed.
End node.

(** Whatever operation fails, installing Node.js loses nothing: when it
    succeeds, the managed directory holds the tree unpacked from the bytes of
    one response received by this call, complete and with the demanded
    checksum, and that tree has a node binary; when it fails, the installation
    that was there is where it was, or whole in the backup directory beside. *)
Theorem node_install_atomic h spec fallback parent s r s' :
  ManagedToolsParent h = Ok parent → installHostNodeJS h spec fallback s = (r, s') →
  let target := Join [parent; hostToolNodeDirName] in
  match r with
  | Ok _ => ∃ data tree, received (ht_up h) spec s data ∧ node_unpacked h target data tree ∧ runnable tree ∧ u_fs s' !! target = Some tree
  | Err _ => preserved target (target +:+ ".old") (u_fs s) (u_fs s')
  end.
Proof.
  intros Hp. unfold installHostNodeJS. rw Hp. cbv zeta. set (target := Join [parent; hostToolNodeDirName]).
  assert (N : target ≠ target +:+ ".archive" ∧ target +:+ ".old" ≠ target +:+ ".archive" ∧ target ≠ target +:+ ".new")
    by (split_and!; [by apply not_eq_sym, app_self|by apply app_ne|by apply not_eq_sym, app_self]).
  destruct N as (N1 & N2 & N3). destruct (String.eqb _ ""); [intros [= <- <-]; intros es He; by left|].
  assert (T : ∀ B (m : U B) s r s', m s = (r, s') → tame [(target +:+ ".archive"); (target +:+ ".new")] (λ _, True) m →
    u_fs s' !! target = u_fs s !! target ∧ length (u_gets s) ≤ length (u_gets s')).
  { intros B m t x t' Hm Ht. destruct (Ht _ _ _ Hm) as (F & _ & us & ->). split; [|rw length_app; lia]. apply F.
    by rw !not_elem_of_cons; split_and!; [..|apply not_elem_of_nil]. }
  intros [([] & s1 & H1 & H)|(e & H1 & ->)]%U_bind_inv; destruct (T _ _ _ _ _ H1 ltac:(tames)) as [F1 G1]; [|intros es He; left; by rw F1].
  apply U_bind_inv in H as [([] & s2 & H2 & H)|(e & ([=] & _)%ignore_inv & _)]; destruct (T _ _ _ _ _ H2 ltac:(tames)) as [F2 G2].
  apply U_bind_inv in H as [([] & s3 & H3 & H)|(e & ([=] & _)%ignore_inv & _)]; destruct (T _ _ _ _ _ H3 ltac:(tames)) as [F3 G3].
  unfold deferring in H. destruct (node_exchange _ _ _ _ _ s3) as [x s4] eqn:E. destruct (ignore _ s4) as [y s5] eqn:E5.
  injection H as <- <-. apply ignore_inv in E5 as (_ & z & E5). apply node_exchange_spec in E. cbn [snd].
  pose proof (removePath_keeps _ _ target _ _ _ E5 N1) as K1. pose proof (removePath_keeps _ _ (target +:+ ".old") _ _ _ E5 N2) as K2.
  destruct x as [[]|e].
  - destruct E as (data & tree & [(i & total & reads & Hi & Hr) Hw] & Hu & Hn & Ht). exists data, tree. rw K1.
    split_and!; [split; [exists i, total, reads; split; [lia|done]|done]|done..].
  - intros es He. rw K1 K2. apply E. congruence.
Qed.

(** ** PATH *)
Lemma split_sep sep w s : all_chars (λ c, negb (Ascii.eqb c sep)) w = true → Split1 sep (w +:+ String sep s) = w :: Split1 sep s.
Proof.
  induction w as [|c w IH].
  - intros _. change (Split1 sep (String sep s) = "" :: Split1 sep s). cbn [Split1]. by rw Ascii.eqb_refl.
  - intros [Hc Hw]%andb_true_iff. apply negb_true_iff in Hc. change (Split1 sep (String c (w +:+ String sep s)) = String c w :: Split1 sep s).
    cbn [Split1]. by rw Hc (IH Hw).
Qed.
Lemma split_whole sep w : all_chars (λ c, negb (Ascii.eqb c sep)) w = true → Split1 sep w = [w].
Proof.
  induction w as [|c w IH]; [done|]. intros [Hc Hw]%andb_true_iff. apply negb_true_iff in Hc. cbn [Split1]. by rw Hc (IH Hw).
Qed.
(** Putting the managed directory on PATH: done once, keeping every entry. *)
Lemma managed_path_once h binDir path :
  binDir ≠ "" → all_chars (λ c, negb (Ascii.eqb c (path_sep (uh_windows (ht_up h))))) binDir = true →
  let path' := with_bin h binDir path in
  on_path binDir (Split1 (path_sep (uh_windows (ht_up h))) path') = true ∧ with_bin h binDir path' = path' ∧
  (path' = path ∨ path' = binDir ∧ path = "" ∨ path' = binDir +:+ String (path_sep (uh_windows (ht_up h))) path).
Proof.
  intros Hb Hs. set (sep := path_sep (uh_windows (ht_up h))). cbv zeta.
  assert (K : ∀ p, p ≠ "" → on_path binDir (Split1 sep p) = true → with_bin h binDir p = p).
  { intros p Hp Ho. unfold with_bin. fold sep. destruct (String.eqb_spec p ""); [done|]. by rw Ho. }
  assert (R : EqualFold (Clean binDir) (Clean binDir) = true) by (unfold EqualFold; apply String.eqb_refl).
  assert (V : with_bin h binDir path = if String.eqb path "" then binDir else if on_path binDir (Split1 sep path) then path else binDir +:+ String sep path)
    by done.
  rw V. clear V. destruct (String.eqb_spec path "") as [->|Hp].
  - assert (Ho : on_path binDir (Split1 sep binDir) = true) by (rw (split_whole _ _ Hs); cbn; by rw R).
    split_and!; [done|by apply K|right; by left].
  - destruct (on_path binDir (Split1 sep path)) eqn:Eo; [split_and!; [done|by apply K|by left]|].
    assert (Ho : on_path binDir (Split1 sep (binDir +:+ String sep path)) = true) by (rw (split_sep _ _ _ Hs); cbn; by rw R).
    split_and!; [done|apply K; [intros E; destruct binDir; discriminate E|done]|right; by right].
Qed.

(** ** Xcode *)
Definition is_beta (app : string) : bool := String.eqb (Base app) "Xcode-beta.app".
Lemma insert_all l acc : foldl (λ acc app, insert_app app acc) acc l =
  rev (filter (λ m, is_stable m = true) l) ++ acc ++ filter (λ m, is_stable m = false) l.
Proof.
  revert acc. induction l as [|x l IH]; intros acc; cbn [foldl]; [by rw app_nil_r|]. rw IH. unfold insert_app.
  rw !filter_cons. destruct (is_stable x); repeat case_decide; try done; cbn [rev]; by rw -!app_assoc.
Qed.
Lemma sort_exact_eq l : sort_exact l = rev (filter (λ m, is_stable m = true) l) ++ filter (λ m, is_stable m = false) l.
Proof.
  destruct l as [|x l]; [done|]. unfold sort_exact. rw insert_all !filter_cons. destruct (is_stable x); repeat case_decide; try done; cbn [rev]; by rw -!app_assoc.
Qed.

(** The Xcode candidates are exactly the directories found, each as often as
    it was: the stable ones first, with the last one found first, then the betas
    in the order found, then all others sorted by path. *)
Theorem xcode_candidates_order h dirs :
  let found := filter (λ m, ht_isDir h m = true) (concat (map (ht_glob h) dirs)) in
  let rest := filter (λ m, is_stable m || is_beta m = false) found in
  filterXcodeCandidates h dirs ≡ₚ found ∧
  ∃ sorted, filterXcodeCandidates h dirs =
    rev (filter (λ m, is_stable m = true) found) ++ filter (λ m, is_beta m = true) found ++ sorted ∧
    sorted ≡ₚ rest ∧ Sorted (λ a b, Is_true (String.leb a b)) sorted.
Proof.
  cbv zeta. set (found := filter _ (concat _)). unfold filterXcodeCandidates. fold found. cbv zeta.
  set (exact := filter (λ m, is_stable m || is_beta m = true) found).
  set (rest := filter (λ m, is_stable m || is_beta m = false) found).
  change (filter (λ m, is_stable m || String.eqb (Base m) "Xcode-beta.app" = true) found) with exact.
  change (filter (λ m, is_stable m || String.eqb (Base m) "Xcode-beta.app" = false) found) with rest.
  assert (E1 : filter (λ m, is_stable m = true) exact = filter (λ m, is_stable m = true) found).
  { unfold exact. rw list_filter_filter. apply list_filter_iff. intros m. destruct (is_stable m); naive_solver. }
  assert (E2 : filter (λ m, is_stable m = false) exact = filter (λ m, is_beta m = true) found).
  { unfold exact. rw list_filter_filter. apply list_filter_iff. intros m. unfold is_beta, is_stable.
    destruct (String.eqb_spec (Base m) "Xcode.app") as [->|]; [|destruct (String.eqb _ _)]; cbn; naive_solver. }
  assert (S : ∀ (f : string → bool) l, filter (λ m, f m = true) l ++ filter (λ m, f m = false) l ≡ₚ l).
  { intros f l. rw -{3}(filter_app_complement (λ m, f m = true) l). apply Permutation_app; [done|].
    rw (list_filter_iff (λ m, f m = false) (λ m, ¬ f m = true)); [done|]. intros m. by destruct (f m). }
  pose proof (S is_stable exact) as P1. rw E1 E2 in P1. pose proof (S (λ m, is_stable m || is_beta m) found) as P2.
  rw sort_exact_eq E1 E2. set (sorted := merge_sort _ rest). assert (P3 : sorted ≡ₚ rest) by apply merge_sort_Permutation. split.
  - rw P3 -Permutation_rev P1. exact P2.
  - exists sorted. split; [by rw -app_assoc|]. split; [done|]. unfold sorted.
    assert (Total (λ a b : string, Is_true (String.leb a b))).
    { intros a b. destruct (String.leb_total a b) as [-> | ->]; [by left|by right]. }
    by apply Sorted_merge_sort.
Qed.

(** ** At concrete hosts *)
Module ToolWitness.
Definition file (name data : string) : tar_entry := mkTar name TypeReg 493 "" data.
Definition dir (name : string) : tar_entry := mkTar name TypeDir 493 "" "".
Definition link (name to : string) : tar_entry := mkTar name TypeSymlink 511 to "".
Definition official : list tar_entry := [dir "node-v22/"; dir "node-v22/bin"; file "node-v22/bin/node" "elf"; link "node-v22/bin/npm" "../lib/npm-cli.js"].
Definition up (entries : list tar_entry) : uhost :=
  mkUhost (λ _, None) (λ _, None) (λ _, None) (λ n, ABody 3 [mkChunk "abc" None false ReadEOF]) (λ _, Ok (entries, None)) (λ _, true)
    (λ _, Err enoent) (Ok "/srv/state") (λ _, Err "not found") (λ _ _, ("", None)) false false None (Err "") (λ p, Ok p) None.
Definition apps (dir : string) : list string :=
  if String.eqb dir "/Applications" then ["/Applications/Xcode-beta.app"; "/Applications/Xcode.app"]
  else if String.eqb dir "/Users/op/Downloads" then ["/Users/op/Downloads/Xcode.app"] else [].
Definition host (entries : list tar_entry) : hthost :=
  mkHt (up entries) (λ _, Err "not a zip") (λ _, "") (λ _, false) None apps (λ _, true) (λ _, true) "/Users/op" None None.
Definition h : hthost := host official.
Lemma tool_archives_inside_witness :
  Forall (op_ok "/srv/tools/node.new") (node_entries h "/srv/tools/node.new" "" official None (NDir [], [])).2.2 ∧
  comps "/s" `prefix_of` ["s"; "dist"; "cli.js"].
Proof.
  destruct (tool_archives_inside h "/srv/tools/node.new" official None [] (NDir []) eq_refl eq_refl) as [H _].
  destruct (tool_archives_inside h "/s" [file "runtime/dist/cli.js" "x"] None [] (NDir []) eq_refl eq_refl) as [_ H2]. split.
  - apply Forall_app in H as [_ H]. apply Forall_app in H as [H _]. exact H.
  - apply (H2 _ 1 (WriteFile "/s/dist/cli.js" 493 "x") ["s"; "dist"; "cli.js"] (or_introl eq_refl)); [vm_compute; reflexivity|discriminate|vm_compute; reflexivity].
Defined.
Definition spec : UpgradeSpec := mkUpgrade "https://nodejs.org/dist/v22/node-v22.tar.gz" "" "" "" "" "".
Definition s0 : ust := mkUst ∅ 0 0 [] [].
Definition direct : proxySpec := mkSpec "" "" "".
Definition installed : ust := Eval vm_compute in (installHostNodeJS h spec direct s0).2.
Definition tree : node := NDir [("bin", NDir [("node", NFile "elf"); ("npm", NLink (Err enoent))])].
Lemma node_install_atomic_witness : u_fs installed !! "/srv/tools/node" = Some tree ∧ runnable tree.
Proof.
  assert (E : installHostNodeJS h spec direct s0 = (Ok (), installed)) by (vm_compute; reflexivity).
  destruct (node_install_atomic h spec direct "/srv/tools" s0 (Ok ()) installed eq_refl E) as (data & t & _ & _ & Hr & Ht).
  assert (t = tree) as -> by (vm_compute in Ht; injection Ht as <-; reflexivity). split; [exact Ht|exact Hr].
Defined.
(** Of two stable Xcodes the one found last, in Downloads, is tried first. *)
Lemma downloads_before_applications :
  discoverXcodeApps h = ["/Users/op/Downloads/Xcode.app"; "/Applications/Xcode.app"; "/Applications/Xcode-beta.app"].
Proof. vm_compute. reflexivity. Qed.
(** Without a leading directory entry the names lose a leading dot, and a wrapping directory stays. *)
Lemma unwrapped_archive_renames :
  ((node_entries h "/s" "" [file ".npmrc" "x"; file "bin/node" "elf"] None (NDir [], [])).2.1 =
    NDir [("bin", NDir [("node", NFile "elf")]); ("npmrc", NFile "x")]) ∧
  ¬ runnable (node_entries h "/s" "" [file "node-v22/bin/node" "elf"] None (NDir [], [])).2.1.
Proof. split; [vm_compute; reflexivity|]. intros [H|H]; vm_compute in H; discriminate H. Qed.
(** A relative link out of the tree is kept, and the next entry is written through it. *)
Definition evil : list tar_entry := [dir "n/"; link "n/out" "../../.ssh"; file "n/out/authorized_keys" "key"].
Lemma node_link_escapes :
  let '(err, (_, ops)) := node_entries (host evil) "/srv/tools/node.new" "" evil None (NDir [], []) in
  err = None ∧ last (places [] ops) = Some (Some ["srv"; ".ssh"; "authorized_keys"]).
Proof. vm_compute. done. Qed.
End ToolWitness.
