(* ===== verification/Tunnel.v ===== *)
(** * Tunnel: proxying HTTP over the stream (execution/tunnel.go), and the
    tables of sessions it reads (execution/session.go)

    A request of the server is performed by the node and its response streamed
    back as frames.  The host answers whether a request can be built and what
    performing it brings: an error with its chain of causes, or a response
    whose body answers one Read after another.  A body is finite: the reads it
    answers before its end, and the error that every later Read reports.  The
    end may be the five-minute deadline, so the body depends on whether that
    is still armed.  [emit_ok k] says whether the k-th frame handed to emit was
    accepted. *)
From S2P Require Import Prelude GoStrings EditorConfig Session.
From Stdlib Require Import Ascii.

Definition tunnelChunkBytes : Z := 32 * 1024.

Record NodeTunnelResponse := mkTunnelResponse {
  tr_id : string; tr_status : Z; tr_headers : gmap string string; tr_body : string;
  tr_done : bool; tr_error : string
}.
Record NodeTunnelRequest := mkTunnelRequest {
  tq_tunnel : string; tq_session : string; tq_service : string; tq_method : string; tq_path : string;
  tq_headers : gmap string string; tq_body : string
}.
Record NodeProxyRequest := mkProxyRequest {
  px_tunnel : string; px_method : string; px_url : string; px_headers : gmap string string; px_body : string
}.
Record http_request := mkHttpRequest {
  hr_method : string; hr_url : string; hr_header : gmap string (list string); hr_body : string
}.

(** ** net/textproto's canonical header keys *)
Definition token_char (c : ascii) : bool :=
  in_range 97 122 c || in_range 65 90 c || in_range 48 57 c
  || existsb (λ n, is_code n c) [33; 35; 36; 37; 38; 39; 42; 43; 45; 46; 94; 95; 96; 124; 126]%N.
Fixpoint canonical_from (upper : bool) (s : string) : string :=
  match s with
  | "" => ""
  | String c s' => String (if upper then upper1 c else lower1 c) (canonical_from (is_code 45 c) s')
  end.
Definition CanonicalHeaderKey (k : string) : string :=
  if all_chars token_char k then canonical_from true k else k.
(** Header.Set replaces the values of a key, Header.Get reads the first one *)
Definition header_set (k v : string) (h : gmap string (list string)) : gmap string (list string) :=
  <[CanonicalHeaderKey k := [v]]> h.
Definition header_get (h : gmap string (list string)) (k : string) : string :=
  default "" (h !! CanonicalHeaderKey k ≫= head).
Definition request_header `{MapRange string} (headers : gmap string string) : gmap string (list string) :=
  foldl (λ h kv, header_set kv.1 kv.2 h) ∅ (map_range headers).
Definition response_headers (h : gmap string (list string)) : gmap string string :=
  map_imap (λ k _, Some (header_get h k)) h.

(** ** What performing a request answers *)
Inductive errno := ECONNREFUSED | ETIMEDOUT | ECONNRESET | EOTHER.
#[export] Instance errno_eq_dec : EqDecision errno. Proof. solve_decision. Defined.
Inductive cause := COpError (op : string) | CErrno (e : errno) | COtherCause.
#[export] Instance cause_eq_dec : EqDecision cause. Proof. solve_decision. Defined.
(** an error: its text, and the errors its chain unwraps to, outermost first *)
Record do_error := mkDoError { de_text : string; de_chain : list cause }.
Fixpoint first_op (chain : list cause) : option string :=
  match chain with
  | [] => None
  | COpError op :: _ => Some op
  | _ :: rest => first_op rest
  end.
Definition isLoopbackConnectFailure (e : do_error) : bool :=
  match first_op (de_chain e) with Some op => EqualFold op "dial" | None => false end
  || bool_decide (CErrno ECONNREFUSED ∈ de_chain e)
  || bool_decide (CErrno ETIMEDOUT ∈ de_chain e)
  || bool_decide (CErrno ECONNRESET ∈ de_chain e).

Inductive read_err := ReadEOF | ReadErr (msg : string).
#[export] Instance read_err_eq_dec : EqDecision read_err. Proof. solve_decision. Defined.
Record http_body := mkBody { hb_reads : list (string * option read_err); hb_end : read_err }.
Record http_response := mkResponse {
  rs_status : Z; rs_header : gmap string (list string); rs_length : Z; rs_body : bool → http_body
}.
Record tunnel_host := mkTunnelHost {
  th_build : string → string → option string;                (** http.NewRequest's error *)
  th_do : http_request → do_error + http_response
}.

Definition isStreamingResponse (resp : http_response) : bool :=
  if Contains (ToLower (header_get (rs_header resp) "Content-Type")) "text/event-stream" then true
  else (rs_length resp <? 0)%Z && String.eqb (header_get (rs_header resp) "Content-Length") "".

(** ** The tables of sessions *)
(** what a table entry says about a session, next to what Session.v keeps *)
Record session_entry := mkEntry {
  en_id : string; en_project : string; en_provider : string; en_workDir : string; en_home : string;
  en_env : list (string * string); en_llm : option NodeLLMConfig;
  en_fileService : bool; en_services : gmap string string
}.
#[export] Instance eta_session_entry : Settable session_entry :=
  λ r, mkEntry (en_id r) (en_project r) (en_provider r) (en_workDir r) (en_home r) (en_env r) (en_llm r)
         (en_fileService r) (en_services r).
Abbreviation sessions := (gmap string session_entry).

Definition serviceEndpoint (s : session_entry) (service : string) : string := default "" (en_services s !! service).
Definition setServiceEndpoint (s : session_entry) (service baseURL : string) : session_entry :=
  s <| en_services := <[service := baseURL]> (en_services s) |>.
Definition lookupSession (m : sessions) (sessionID : string) : result session_entry :=
  match m !! TrimSpace sessionID with
  | None => Err ("session " +:+ TrimSpace sessionID +:+ " not found")
  | Some s => Ok s
  end.
Definition markArtifactsCollectable (m : sessions) (sessionID : string) : result () :=
  match lookupSession m sessionID with
  | Err e => Err e
  | Ok s => if en_fileService s then Ok () else Err ("collect artifacts " +:+ sessionID +:+ ": file service is not available")
  end.
Definition activeIDs `{MapRange session_entry} (m : sessions) : list string := (map_range m).*1.
Definition summaries `{MapRange session_entry} (m : sessions) : list (string * string * string) :=
  map (λ kv, (en_id kv.2, en_project kv.2, en_provider kv.2)) (map_range m).
Definition workspaceDir (m : sessions) (sessionID : string) : string :=
  if String.eqb (TrimSpace sessionID) "" then ""
  else match m !! TrimSpace sessionID with Some s => en_workDir s | None => "" end.
Definition buildEnv `{!MapRange string} (environ : list string) (s : session_entry) : list string :=
  environ
  ++ ["WORKSPACE=" +:+ en_workDir s; "HOME=" +:+ en_home s; "USERPROFILE=" +:+ en_home s]
  ++ concat (map (λ item, let name := TrimSpace item.1 in
       if String.eqb name "" then [] else [name +:+ "=" +:+ item.2]) (en_env s))
  ++ match en_llm s with Some llm => llmEnv llm | None => [] end.
(** os/exec: of the entries for a name the last one counts *)
Definition env_value (name : string) (env : list string) : option string :=
  foldl (λ acc entry, if HasPrefix entry (name +:+ "=") then Some (TrimPrefix entry (name +:+ "=")) else acc) None env.

Section tunnel.
Variable quote_rune : string → string.
Definition resolveTunnelTarget (m : sessions) (sessionID service path : string) : result string :=
  match m !! TrimSpace sessionID with
  | None => Err ("session " +:+ sessionID +:+ " is not running on this node")
  | Some s =>
      let base := serviceEndpoint s (TrimSpace service) in
      if String.eqb base "" then
        Err ("session " +:+ sessionID +:+ " has no " +:+ q quote_rune service +:+ " service to proxy")
      else
        let path := if HasPrefix path "/" then path else "/" +:+ path in
        Ok (TrimRightChar "/"%char base +:+ path)
  end.

(** ** Streaming a response back *)
Context `{MapRange string}.
Variable h : tunnel_host.
Variable emit_ok : nat → bool.

(** emit hands over one frame and says whether it was accepted *)
Definition emit (frame : NodeTunnelResponse) (sent : list NodeTunnelResponse) : list NodeTunnelResponse * bool :=
  (sent ++ [frame], emit_ok (length sent)).
Definition emitTunnelError (id : string) (status : Z) (message : string) (sent : list NodeTunnelResponse) :
    list NodeTunnelResponse :=
  (emit (mkTunnelResponse id (int32_of status) ∅ "" true message) sent).1.

Definition done_frame (id : string) (e : read_err) : NodeTunnelResponse :=
  mkTunnelResponse id 0 ∅ "" true match e with ReadEOF => "" | ReadErr msg => msg end.
(** the loop over the rest of the body *)
Fixpoint stream_body (id : string) (reads : list (string * option read_err)) (last : read_err)
    (sent : list NodeTunnelResponse) : list NodeTunnelResponse :=
  match reads with
  | [] => (emit (done_frame id last) sent).1
  | (data, err) :: rest =>
      if negb (String.eqb data "") then
        let done := bool_decide (err = Some ReadEOF) in
        let '(sent, ok) := emit (mkTunnelResponse id 0 ∅ data done "") sent in
        if negb ok then sent else if done then sent else stream_body id rest last sent
      else
        match err with
        | Some e => (emit (done_frame id e) sent).1
        | None => stream_body id rest last sent
        end
  end.
(** one Read *)
Definition read_body (b : http_body) : string * option read_err * http_body :=
  match hb_reads b with
  | [] => ("", Some (hb_end b), b)
  | r :: rest => (r, mkBody rest (hb_end b))
  end.
Definition stream_response (id : string) (resp : http_response) (b : http_body) (sent : list NodeTunnelResponse) :
    list NodeTunnelResponse :=
  let '(data, err, b) := read_body b in
  let done := bool_decide (err = Some ReadEOF) in
  let '(sent, ok) :=
    emit (mkTunnelResponse id (int32_of (rs_status resp)) (response_headers (rs_header resp)) data done "") sent in
  if negb ok then sent else if done then sent else stream_body id (hb_reads b) (hb_end b) sent.

Definition StatusBadGateway : Z := 502.
Definition StatusServiceUnavailable : Z := 503.
Definition http_method (m : string) : string := ToUpper (TrimSpace m).

Definition handleTunnel (m : sessions) (req : NodeTunnelRequest) : list NodeTunnelResponse :=
  let id := tq_tunnel req in
  match resolveTunnelTarget m (tq_session req) (tq_service req) (tq_path req) with
  | Err e => emitTunnelError id StatusBadGateway e []
  | Ok target =>
      match th_build h (http_method (tq_method req)) target with
      | Some e => emitTunnelError id StatusBadGateway ("build tunnel request: " +:+ e) []
      | None =>
          match th_do h (mkHttpRequest (http_method (tq_method req)) target (request_header (tq_headers req)) (tq_body req)) with
          | inl e =>
              if isLoopbackConnectFailure e then
                emitTunnelError id StatusServiceUnavailable
                  ("session service " +:+ q quote_rune (tq_service req)
                   +:+ " is not reachable (its runtime has exited): " +:+ de_text e) []
              else emitTunnelError id StatusBadGateway ("tunnel request failed: " +:+ de_text e) []
          | inr resp => stream_response id resp (rs_body resp true) []
          end
      end
  end.
(** the deadline stays armed unless the response is a stream *)
Definition handleProxy (req : NodeProxyRequest) : list NodeTunnelResponse :=
  let id := px_tunnel req in
  match th_build h (http_method (px_method req)) (px_url req) with
  | Some e => emitTunnelError id StatusBadGateway ("build proxy request: " +:+ e) []
  | None =>
      match th_do h (mkHttpRequest (http_method (px_method req)) (px_url req) (request_header (px_headers req)) (px_body req)) with
      | inl e => emitTunnelError id StatusBadGateway ("proxy request failed: " +:+ de_text e) []
      | inr resp => stream_response id resp (rs_body resp (negb (isStreamingResponse resp))) []
      end
  end.
End tunnel.
