(* ===== verification/TunnelProofs.v ===== *)
(** * TunnelProofs: theorems about proxied requests

    Both handlers offer the frames of a reference stream until one is refused
    ([offer]); the reference stream has one terminal frame, its last, and
    carries the body in order. *)
From S2P Require Import Prelude GoStrings EditorConfig Session Tunnel.
From Stdlib Require Import Ascii.

(** ** The reference stream *)
Definition everything (_ : nat) : bool := true.
Fixpoint body_frames (id : string) (reads : list (string * option read_err)) (last : read_err) : list NodeTunnelResponse :=
  match reads with
  | [] => [done_frame id last]
  | (data, err) :: rest =>
      if String.eqb data "" then
        match err with Some e => [done_frame id e] | None => body_frames id rest last end
      else mkTunnelResponse id 0 ∅ data (bool_decide (err = Some ReadEOF)) ""
           :: (if bool_decide (err = Some ReadEOF) then [] else body_frames id rest last)
  end.
Definition response_frames (id : string) (resp : http_response) (b : http_body) : list NodeTunnelResponse :=
  let '(data, err, b) := read_body b in
  let done := bool_decide (err = Some ReadEOF) in
  mkTunnelResponse id (int32_of (rs_status resp)) (response_headers (rs_header resp)) data done ""
  :: (if done then [] else body_frames id (hb_reads b) (hb_end b)).

Section offering.
Variable emit_ok : nat → bool.
(** frames are handed to emit one after another until one is refused *)
Fixpoint offer (fs sent : list NodeTunnelResponse) : list NodeTunnelResponse :=
  match fs with
  | [] => sent
  | f :: rest => let '(sent, ok) := emit emit_ok f sent in if ok then offer rest sent else sent
  end.
Lemma offer_one f sent : offer [f] sent = (emit emit_ok f sent).1.
Proof. cbn. by case_match. Qed.

Lemma stream_body_offers id reads last sent :
  stream_body emit_ok id reads last sent = offer (body_frames id reads last) sent.
Proof.
  revert sent. induction reads as [|[data err] rest IH]; intros sent; cbn -[emit offer].
  { by rw offer_one. }
  destruct (String.eqb data ""); cbn -[emit offer].
  - destruct err; [by rw offer_one | apply IH].
  - unfold emit; cbn. destruct (emit_ok (length sent)); cbn; [|by destruct (bool_decide _)].
    destruct (bool_decide _); [done | apply IH].
Qed.
Lemma stream_response_offers id resp b sent :
  stream_response emit_ok id resp b sent = offer (response_frames id resp b) sent.
Proof.
  unfold stream_response, response_frames. destruct (read_body b) as [[data err] b'].
  unfold emit; cbn. destruct (emit_ok (length sent)); cbn; [|done].
  destruct (bool_decide _); [done | apply stream_body_offers].
Qed.
Lemma emitTunnelError_offers id status msg sent :
  emitTunnelError emit_ok id status msg sent = offer [mkTunnelResponse id (int32_of status) ∅ "" true msg] sent.
Proof. by rw offer_one. Qed.

(** what was offered is the reference up to and including the first refusal *)
Lemma offer_prefix fs sent :
  ∃ n, offer fs sent = sent ++ take n fs ∧
    (∀ i, S i < n → emit_ok (length sent + i) = true) ∧
    (n < length fs → ∃ k, n = S k ∧ emit_ok (length sent + k) = false).
Proof.
  revert sent. induction fs as [|f fs IH]; intros sent; cbn.
  { exists 0. rw app_nil_r. split_and!; [done | lia..]. }
  destruct (emit_ok (length sent)) eqn:E.
  - destruct (IH (sent ++ [f])) as (n & -> & Hok & Hstop). exists (S n).
    rewrite <-app_assoc; cbn. split_and!; [done| |].
    + intros [|i] Hi; [by rw Nat.add_0_r|].
      specialize (Hok i ltac:(lia)). rw length_app in Hok. by replace (length sent + S i) with (length sent + 1 + i) by lia.
    + intros Hn. destruct (Hstop ltac:(lia)) as (k & -> & Hk). exists (S k). split; [done|].
      rw length_app in Hk. by replace (length sent + S k) with (length sent + 1 + k) by lia.
  - exists 1. cbn. rw take_0. split_and!; [done | lia |]. intros _. exists 0. by rw Nat.add_0_r.
Qed.
Lemma offer_all fs sent : (∀ k, emit_ok k = true) → offer fs sent = sent ++ fs.
Proof.
  intros Hok. revert sent. induction fs as [|f fs IH]; intros sent; cbn; [by rw app_nil_r|].
  rw Hok. rw IH. by rewrite <-app_assoc.
Qed.
End offering.

(** ** The shape of a reference stream *)
(** one terminal frame, the last *)
Definition one_terminal (fs : list NodeTunnelResponse) : Prop :=
  ∃ init last, fs = init ++ [last] ∧ tr_done last = true ∧ Forall (λ f, tr_done f = false) init.
Lemma one_terminal_single f : tr_done f = true → one_terminal [f].
Proof. intros Hf. by exists [], f. Qed.
Lemma one_terminal_cons f fs : tr_done f = false → one_terminal fs → one_terminal (f :: fs).
Proof. intros Hf (init & l & -> & Hl & Hi). exists (f :: init), l. auto. Qed.
Lemma body_frames_terminal id reads last : one_terminal (body_frames id reads last).
Proof.
  induction reads as [|[data err] rest IH]; cbn; [by apply one_terminal_single|].
  destruct (String.eqb data ""); [destruct err; [by apply one_terminal_single | done]|].
  destruct (bool_decide _); [by apply one_terminal_single | by apply one_terminal_cons].
Qed.
Lemma response_frames_terminal id resp b : one_terminal (response_frames id resp b).
Proof.
  unfold response_frames. destruct (read_body b) as [[data err] b'].
  destruct (bool_decide _) eqn:E; [by apply one_terminal_single | by apply one_terminal_cons, body_frames_terminal].
Qed.

(** a Reader that follows io.Reader: an error ends it and is reported again by every later Read *)
Fixpoint sticky (reads : list (string * option read_err)) (last : read_err) : Prop :=
  match reads with
  | [] => True
  | (_, None) :: rest => sticky rest last
  | (_, Some e) :: rest => e = last ∧ Forall (λ r, r = ("", Some last)) rest
  end.
Fixpoint content (reads : list (string * option read_err)) : string :=
  match reads with [] => "" | r :: rest => r.1 +:+ content rest end.
Fixpoint bodies (fs : list NodeTunnelResponse) : string :=
  match fs with [] => "" | f :: rest => tr_body f +:+ bodies rest end.
Definition err_text (e : read_err) : string := match e with ReadEOF => "" | ReadErr msg => msg end.
Definition error_of (fs : list NodeTunnelResponse) : string := default "" (tr_error <$> last fs).
Definition plain (f : NodeTunnelResponse) : Prop := tr_status f = 0%Z ∧ tr_headers f = ∅.

Lemma content_ended rest last : Forall (λ r, r = ("", Some last)) rest → content rest = "".
Proof. by induction 1 as [|? ? -> _ IH]. Qed.
Lemma body_frames_ended id rest last :
  Forall (λ r, r = ("", Some last)) rest → body_frames id rest last = [done_frame id last].
Proof. by destruct 1 as [|? ? -> _]. Qed.

Lemma body_frames_bodies id reads last : sticky reads last → bodies (body_frames id reads last) = content reads.
Proof.
  induction reads as [|[data [e|]] rest IH]; cbn; [done| |].
  - intros [-> Hr]. rw (content_ended _ _ Hr) string_app_nil_r.
    destruct (String.eqb_spec data "") as [->|]; [done|]. cbn.
    rw (body_frames_ended _ _ _ Hr). by destruct (bool_decide _); cbn; rw ?string_app_nil_r.
  - intros Hs. destruct (String.eqb_spec data "") as [->|]; [by apply IH|]. cbn. by rw IH.
Qed.
Lemma error_of_cons f fs : fs ≠ [] → error_of (f :: fs) = error_of fs.
Proof. by destruct fs. Qed.
Lemma body_frames_nonempty id reads last : body_frames id reads last ≠ [].
Proof. destruct (body_frames_terminal id reads last) as (i & l & -> & _). by destruct i. Qed.
Lemma body_frames_error id reads last : sticky reads last → error_of (body_frames id reads last) = err_text last.
Proof.
  induction reads as [|[data [e|]] rest IH]; cbn; [done| |].
  - intros [-> Hr]. destruct (String.eqb data ""); [done|].
    rw (body_frames_ended _ _ _ Hr). by destruct last; cbn.
  - intros Hs. destruct (String.eqb data ""); [by apply IH|]. cbn.
    rw error_of_cons; [|apply body_frames_nonempty]. by apply IH.
Qed.
Lemma body_frames_each (P : NodeTunnelResponse → Prop) id reads last :
  (∀ e, P (done_frame id e)) →
  (∀ data err, (data, err) ∈ reads → ∀ d, P (mkTunnelResponse id 0 ∅ data d "")) →
  Forall P (body_frames id reads last).
Proof.
  intros Hd Hr. induction reads as [|[data err] rest IH]; cbn; [auto|].
  assert (IH' : Forall P (body_frames id rest last)).
  { apply IH. intros d e He. by eapply Hr, list_elem_of_further. }
  destruct (String.eqb data ""); [destruct err; auto|].
  constructor; [eapply Hr, list_elem_of_here|]. by destruct (bool_decide _).
Qed.

Section responses.
Variables (id : string) (resp : http_response) (b : http_body).
Let first := mkTunnelResponse id (int32_of (rs_status resp)) (response_headers (rs_header resp)).
(** the cases of the first Read *)
Lemma response_frames_cases (P : list NodeTunnelResponse → Prop) :
  sticky (hb_reads b) (hb_end b) →
  (hb_reads b = [] → hb_end b = ReadEOF → P [first "" true ""]) →
  (∀ data rest, hb_reads b = (data, Some ReadEOF) :: rest → hb_end b = ReadEOF → content rest = "" →
    P [first data true ""]) →
  (∀ data reads, content (hb_reads b) = data +:+ content reads →
    sticky reads (hb_end b) → (∀ r, r ∈ reads → r ∈ hb_reads b) →
    data = "" ∨ (∃ err, (data, err) ∈ hb_reads b) →
    P (first data false "" :: body_frames id reads (hb_end b))) →
  P (response_frames id resp b).
Proof.
  intros Hs H0 H1 H2. unfold response_frames, read_body.
  destruct (hb_reads b) as [|[data err] rest] eqn:E; cbn.
  - case_bool_decide as He; [apply H0; congruence|].
    rw E. apply (H2 "" []); [done | done | set_solver | by left].
  - cbn in Hs. case_bool_decide as He.
    + subst err. destruct Hs as [Hl Hr]. eapply H1; [done | done | exact (content_ended _ _ Hr)].
    + apply (H2 data rest); [done| | set_solver | right; eexists; apply list_elem_of_here].
      destruct err; [|done]. destruct Hs as [-> Hr]. clear -Hr. destruct Hr as [|? ? -> Hr]; cbn; auto.
Qed.

Lemma response_frames_bodies :
  sticky (hb_reads b) (hb_end b) → bodies (response_frames id resp b) = content (hb_reads b).
Proof.
  intros Hs. apply response_frames_cases; [done|..].
  - by intros -> _.
  - intros data rest -> _ Hc. cbn. by rw Hc.
  - intros data reads -> Hs' _ _. cbn. by rw body_frames_bodies.
Qed.
Lemma response_frames_error :
  sticky (hb_reads b) (hb_end b) → error_of (response_frames id resp b) = err_text (hb_end b).
Proof.
  intros Hs. apply response_frames_cases; [done|..].
  - by intros _ ->.
  - by intros ? ? _ ->.
  - intros data reads _ Hs' _ _. rw error_of_cons; [|apply body_frames_nonempty]. by apply body_frames_error.
Qed.
(** the first frame has the status and the headers, the others have neither *)
Lemma response_frames_head :
  ∃ f rest, response_frames id resp b = f :: rest ∧ tr_status f = int32_of (rs_status resp) ∧
    tr_headers f = response_headers (rs_header resp) ∧ Forall plain rest.
Proof.
  unfold response_frames. destruct (read_body b) as [[data err] b']. eexists _, _. split; [done|].
  split; [done|]. split; [done|]. destruct (bool_decide _); [done|]. by apply body_frames_each.
Qed.
Lemma response_frames_bounded :
  Forall (λ r, (blen r.1 ≤ tunnelChunkBytes)%Z) (hb_reads b) → sticky (hb_reads b) (hb_end b) →
  Forall (λ f, (blen (tr_body f) ≤ tunnelChunkBytes)%Z ∧ tr_id f = id) (response_frames id resp b).
Proof.
  intros Hb Hs. rw Forall_forall in Hb. apply response_frames_cases; [done|..].
  - by constructor.
  - intros data rest E _ _. constructor; [|done]. split; [|done].
    apply (Hb (data, Some ReadEOF)). rw E. apply list_elem_of_here.
  - intros data reads _ _ Hin Hd. constructor.
    + split; [|done]. destruct Hd as [->|[err Hd]]; [done | exact (Hb _ Hd)].
    + apply body_frames_each; [done|]. intros d err Hr dn. split; [exact (Hb _ (Hin _ Hr)) | done].
Qed.
End responses.

(** ** Both handlers *)
Inductive exchange := XTunnel (m : sessions) (req : NodeTunnelRequest) | XProxy (req : NodeProxyRequest).
Definition exchange_id (x : exchange) : string := match x with XTunnel _ req => tq_tunnel req | XProxy req => px_tunnel req end.
Section exchanges.
Context `{MapRange string}.
Variables (quote_rune : string → string) (h : tunnel_host).
Definition handle (emit_ok : nat → bool) (x : exchange) : list NodeTunnelResponse :=
  match x with
  | XTunnel m req => handleTunnel quote_rune h emit_ok m req
  | XProxy req => handleProxy h emit_ok req
  end.
(** the response a request was given, with the body as the handler reads it *)
Definition answered (x : exchange) : option (http_response * http_body) :=
  match x with
  | XTunnel m req =>
      match resolveTunnelTarget quote_rune m (tq_session req) (tq_service req) (tq_path req) with
      | Ok target =>
          match th_build h (http_method (tq_method req)) target,
                th_do h (mkHttpRequest (http_method (tq_method req)) target (request_header (tq_headers req)) (tq_body req)) with
          | None, inr resp => Some (resp, rs_body resp true)
          | _, _ => None
          end
      | Err _ => None
      end
  | XProxy req =>
      match th_build h (http_method (px_method req)) (px_url req),
            th_do h (mkHttpRequest (http_method (px_method req)) (px_url req) (request_header (px_headers req)) (px_body req)) with
      | None, inr resp => Some (resp, rs_body resp (negb (isStreamingResponse resp)))
      | _, _ => None
      end
  end.
Definition gateway_error (id : string) (f : NodeTunnelResponse) : Prop :=
  tr_id f = id ∧ tr_status f ∈ [StatusBadGateway; StatusServiceUnavailable] ∧ tr_done f = true ∧ tr_body f = "" ∧ tr_error f ≠ "".

Lemma nonempty_text c (p s : string) : String c p +:+ s ≠ "". Proof. done. Qed.
Lemma handle_offers emit_ok x :
  match answered x with
  | Some (resp, b) => handle emit_ok x = offer emit_ok (response_frames (exchange_id x) resp b) []
  | None => ∃ f, handle emit_ok x = offer emit_ok [f] [] ∧ gateway_error (exchange_id x) f
  end.
Proof.
  assert (err : ∀ status msg, status ∈ [StatusBadGateway; StatusServiceUnavailable] → msg ≠ "" →
    ∃ f, emitTunnelError emit_ok (exchange_id x) status msg [] = offer emit_ok [f] [] ∧ gateway_error (exchange_id x) f).
  { intros status msg Hs Hm. eexists. split; [apply emitTunnelError_offers|]. split; [done|]. split; [|done].
    cbn. rw !elem_of_cons in Hs. destruct Hs as [-> | [-> | Hs]]; [set_solver | set_solver | by apply not_elem_of_nil in Hs]. }
  destruct x as [m req|req]; cbn -[EditorConfig.q emitTunnelError].
  - unfold handleTunnel. destruct (resolveTunnelTarget _ _ _ _ _) as [target|e] eqn:Er.
    + destruct (th_build _ _ _); [apply err; [set_solver | done]|].
      destruct (th_do _ _) as [e|resp]; [|apply stream_response_offers].
      destruct (isLoopbackConnectFailure e); apply err; try done; set_solver.
    + apply err; [set_solver|]. intros ->. revert Er. unfold resolveTunnelTarget.
      destruct (m !! _); [|done]. by destruct (String.eqb _ _).
  - unfold handleProxy. destruct (th_build _ _ _); [apply err; [set_solver | done]|].
    destruct (th_do _ _) as [e|resp]; [apply err; [set_solver | done] | apply stream_response_offers].
Qed.

(** What a stream of frames must be, given the answer to the request. *)
Definition relays (id : string) (ans : option (http_response * http_body)) (full : list NodeTunnelResponse) : Prop :=
  one_terminal full ∧
  match ans with
  | None => ∃ f, full = [f] ∧ gateway_error id f
  | Some (resp, b) =>
      (∃ f rest, full = f :: rest ∧ tr_status f = int32_of (rs_status resp) ∧
        tr_headers f = response_headers (rs_header resp) ∧ Forall plain rest) ∧
      bodies full = content (hb_reads b) ∧ error_of full = err_text (hb_end b) ∧
      Forall (λ f, (blen (tr_body f) ≤ tunnelChunkBytes)%Z ∧ tr_id f = id) full
  end.
(** io.Reader: at most the buffer at a time, and errors are final *)
Definition readable (b : http_body) : Prop :=
  sticky (hb_reads b) (hb_end b) ∧ Forall (λ r, (blen r.1 ≤ tunnelChunkBytes)%Z) (hb_reads b).

(** C17: a proxied request, of a session's service or of a URL, is
    answered by one stream.  Without a response it is one terminal frame with
    status 502 or 503 and a reason.  With one whose body is an io.Reader (a
    read returns at most the 32 KiB asked for, and after an error or the end
    it returns nothing but that again), the first frame carries its status and
    the first value of each of its headers, the bodies of the frames
    concatenate to the body of the response whatever pieces it is read in, no
    frame carries more than 32 KiB, exactly the last is terminal, and it
    carries the error the body ended with.  When the stream goes down the node
    stops at the first frame it could not send, so what was sent is always a
    prefix of that stream; when every frame is accepted all of it is sent. *)
Theorem tunnel_relays emit_ok x :
  (∀ resp b, answered x = Some (resp, b) → readable b) →
  ∃ full, relays (exchange_id x) (answered x) full ∧
    (∃ n, handle emit_ok x = take n full ∧ (∀ i, S i < n → emit_ok i = true) ∧
       (n < length full → ∃ k, n = S k ∧ emit_ok k = false)) ∧
    ((∀ k, emit_ok k = true) → handle emit_ok x = full).
Proof.
  intros Hread. pose proof (handle_offers emit_ok x) as Ho. unfold relays.
  destruct (answered x) as [[resp b]|].
  - destruct (Hread resp b eq_refl) as [Hs Hb]. exists (response_frames (exchange_id x) resp b). rw Ho.
    split; [|split; [exact (offer_prefix emit_ok _ []) | intros Hall; exact (offer_all emit_ok _ [] Hall)]].
    split; [apply response_frames_terminal|].
    split; [apply response_frames_head|]. split; [by apply response_frames_bodies|].
    split; [by apply response_frames_error | by apply response_frames_bounded].
  - destruct Ho as (f & -> & Hf). exists [f].
    split; [|split; [exact (offer_prefix emit_ok _ []) | intros Hall; exact (offer_all emit_ok _ [] Hall)]].
    split; [|by exists f]. apply one_terminal_single, Hf.
Qed.
End exchanges.

(** ** The service a tunnel reaches *)
Lemma HasPrefix_slash p : HasPrefix p "/" = true → ∃ p', p = "/" +:+ p'.
Proof. intros Hp. by apply HasPrefix_spec in Hp as [t ->]; exists t. Qed.
(** A tunnelled request reaches the endpoint recorded for its service and a
    path below it: whatever the path, the authority of the URL is that of the
    endpoint.  An unknown session or service is refused. *)
Theorem tunnel_target quote_rune m sid service path target :
  resolveTunnelTarget quote_rune m sid service path = Ok target →
  ∃ s p, m !! TrimSpace sid = Some s ∧ serviceEndpoint s (TrimSpace service) ≠ "" ∧
    target = TrimRightChar "/"%char (serviceEndpoint s (TrimSpace service)) +:+ "/" +:+ p ∧
    (path = "/" +:+ p ∨ path = p).
Proof.
  unfold resolveTunnelTarget. destruct (m !! TrimSpace sid) as [s|]; [|done].
  destruct (String.eqb_spec (serviceEndpoint s (TrimSpace service)) "") as [|Hb]; [done|].
  intros [= <-]. exists s. destruct (HasPrefix path "/") eqn:Hp.
  - apply HasPrefix_slash in Hp as [p ->]. exists p. auto.
  - exists path. auto.
Qed.
(** recording an endpoint changes that service and no other *)
Lemma serviceEndpoint_set s service other url :
  serviceEndpoint (setServiceEndpoint s service url) other = if bool_decide (service = other) then url else serviceEndpoint s other.
Proof. unfold serviceEndpoint, setServiceEndpoint. cbn. by case_bool_decide; simplify_map_eq. Qed.

(** ** The environment of a runtime *)
(** A declared variable named HOME takes the place of the session's home,
    which is appended first; os/exec keeps the last entry. *)
Lemma declared_home_wins :
  let s := mkEntry "s" "p" "codex" "/w" "/w/.home" [("HOME", "/root")] None true ∅ in
  env_value "HOME" (buildEnv ["HOME=/home/op"] s) = Some "/root".
Proof. by vm_compute. Qed.
(** a variable nobody declares has the value the node set *)
Lemma env_value_app name env env' :
  (∀ entry, entry ∈ env' → HasPrefix entry (name +:+ "=") = false) → env_value name (env ++ env') = env_value name env.
Proof.
  intros Hn. unfold env_value. rw foldl_app. generalize (foldl (λ acc entry, if HasPrefix entry (name +:+ "=")
    then Some (TrimPrefix entry (name +:+ "=")) else acc) None env). intros acc.
  induction env' as [|e env' IH]; [done|]. cbn. rw (Hn e); [|apply list_elem_of_here].
  apply IH. intros e' He. by apply Hn, list_elem_of_further.
Qed.

(** ** Headers *)
(** Of a header with several values only the first is relayed: the second
    cookie of a response is lost. *)
Lemma second_cookie_lost :
  response_headers {[ "Set-Cookie" := ["a=1"; "b=2"] ]} = {[ "Set-Cookie" := "a=1" ]}.
Proof. by vm_compute. Qed.

Module TunnelWitness.
Definition resp : http_response :=
  mkResponse 200 {[ "Content-Type" := ["text/plain"] ]} 5 (λ _, mkBody [("he", None); ("", None); ("llo", Some ReadEOF)] ReadEOF).
Definition host : tunnel_host := mkTunnelHost (λ _ _, None) (λ _, inr resp).
Definition files : session_entry :=
  mkEntry "s" "p" "codex" "/w" "/w/.home" [] None true {[ "files" := "http://127.0.0.1:4000/" ]}.
Definition request : exchange :=
  XTunnel {[ "s" := files ]} (mkTunnelRequest "t" " s" "files" "get" "a.txt" ∅ "").
Lemma tunnel_relays_witness :
  answered (λ s, s) host request = Some (resp, mkBody [("he", None); ("", None); ("llo", Some ReadEOF)] ReadEOF) ∧
  bodies (handle (λ s, s) host everything request) = "hello" ∧
  ∃ full, relays (exchange_id request) (answered (λ s, s) host request) full ∧
    handle (λ s, s) host everything request = full.
Proof.
  split; [by vm_compute|]. split; [by vm_compute|].
  destruct (tunnel_relays (λ s, s) host everything request) as (full & Hr & _ & Hall).
  { intros resp' b Hb. assert (E : b = mkBody [("he", None); ("", None); ("llo", Some ReadEOF)] ReadEOF).
    { revert Hb. vm_compute. intros Hb. by injection Hb as _ <-. }
    subst b. split; [cbn; auto|]. repeat constructor; vm_compute; discriminate. }
  exists full. split; [exact Hr | by apply Hall].
Defined.
End TunnelWitness.
