(* ===== verification/Lan.v ===== *)
(** * Lan: keeping a phone reachable without its cable (common/ioshost/lan.go),
    and when the tunnels of attached phones are reconciled (common/ioshost/tunnel.go)

    A [LanAgent] looks at the claimed phones every ten seconds and opens, probes
    or drops a tunnel for each.  A pass decides under the agent's mutex and then
    carries its actions out one after another outside of it, so a label of
    [lstep] is one critical section, one call on the registry, one report to
    the device manager or one answer of a phone; [Stop] runs in a goroutine of
    its own and interleaves with all of them.  The states are heap objects that
    actions point to (positions in [l_heap]).

    Tunnels are numbers.  The registry is the one of [managerRegistry]: adding
    a tunnel replaces what the phone had, removing forgets and closes it.  The
    opener's tunnel is registered under the phone it was opened for. *)
From S2P Require Import Prelude GoStrings.
From Stdlib Require Import Ascii.

Definition second : Z := 10 ^ 9.
Definition lanProbeEvery : Z := 30 * second.

(** ** Backoff, ports and errors *)
Definition lanBackoff (failures : Z) : Z :=
  let shift := (failures - 1)%Z in
  let shift := if (shift <? 0)%Z then 0%Z else shift in
  let shift := if (shift >? 4)%Z then 4%Z else shift in
  let seconds := (30 * Z.shiftl 1 shift)%Z in
  let seconds := if (seconds >? 300)%Z then 300%Z else seconds in
  (seconds * second)%Z.
(** the first of eight candidate ports that can be bound; [free] is net.Listen *)
Definition candidate (portBase salt i : Z) : Z := (portBase + ((salt + i) mod 8) * 10 + 1)%Z.
Definition freePortLocked (portBase : Z) (free : Z → bool) (salt : Z) : Z :=
  match filter (λ p, free p = true) (map (λ i, candidate portBase salt (Z.of_nat i)) (seq 0 8)) with
  | p :: _ => p
  | [] => portBase
  end.
Definition lanDisabled (getenv : string) : bool := EqualFold (TrimSpace getenv) "off".
Definition lanEnabled (getenv : string) : bool := negb (lanDisabled getenv).

(** an error of the opener: its text and which context error it wraps *)
Inductive ctx_err := CtxNone | CtxDeadline | CtxCanceled.
#[export] Instance ctx_err_eq_dec : EqDecision ctx_err. Proof. solve_decision. Defined.
Record lan_err := mkLanErr { le_text : string; le_ctx : ctx_err }.
Definition isPairingPending (e : lan_err) : bool :=
  match le_ctx e with
  | CtxDeadline => Contains (le_text e) "pair"
  | CtxCanceled => false
  | CtxNone => Contains (ToLower (le_text e)) "pair" || Contains (ToLower (le_text e)) "trust"
  end.
Definition isLanUnreachable (e : lan_err) : bool :=
  Contains (le_text e) "failed to find device interface address" || Contains (le_text e) "could not find port for".

(** ** State *)
(** [None] is the zero time *)
Record lanState := mkLanState {
  st_tun : option nat; st_lastProbe : option Z; st_nextTry : option Z;
  st_backoff : Z; st_failures : Z; st_opening : bool
}.
#[export] Instance eta_lanState : Settable lanState :=
  λ r, mkLanState (st_tun r) (st_lastProbe r) (st_nextTry r) (st_backoff r) (st_failures r) (st_opening r).
Definition new_lanState : lanState := mkLanState None None None 0 0 false.

Inductive action_kind := KOpen | KDrop | KProbe.
#[export] Instance action_kind_eq_dec : EqDecision action_kind. Proof. solve_decision. Defined.
Record action := mkAction { ac_kind : action_kind; ac_udid : string; ac_port : Z; ac_st : nat }.

(** where the goroutine of the loop is *)
Inductive pass_pc :=
| PIdle
| PActs (todo : list action)
| PDropping (udid : string) (todo : list action)         (** about to call the registry *)
| PReporting (udid : string) (on : bool) (todo : list action)
| PProbeDead (udid : string) (st : nat) (todo : list action)
| POpening (udid : string) (st : nat) (todo : list action)
| PCommitted (udid : string) (tun : nat) (todo : list action)   (** in the critical section, before its second load *)
| PAdding (udid : string) (tun : nat) (todo : list action)
| PClosing (tun : nat) (todo : list action).
(** where a call of Stop is *)
Inductive stop_pc := SCollect | SDropping (udids : list string) | SReporting (udid : string) (rest : list string).

Record lan := mkLan {
  l_heap : list lanState; l_states : gmap string nat; l_stopped : bool;
  l_reg : gmap string nat; l_closed : list nat;
  l_reach : gmap string bool;                 (** the last report of each phone *)
  l_pending : list string;                    (** PairingPending calls *)
  l_pc : pass_pc; l_stops : list stop_pc; l_panic : bool; l_next : nat
}.
#[export] Instance eta_lan : Settable lan :=
  λ r, mkLan (l_heap r) (l_states r) (l_stopped r) (l_reg r) (l_closed r) (l_reach r) (l_pending r) (l_pc r)
         (l_stops r) (l_panic r) (l_next r).
Definition newLanAgent : lan := mkLan [] ∅ false ∅ [] ∅ [] PIdle [] false 0.

Definition upd_st (s : lan) (p : nat) (f : lanState → lanState) : lan := s <| l_heap := alter f p (l_heap s) |>.
(** managerRegistry *)
Definition reg_add (s : lan) (udid : string) (tun : nat) : lan := s <| l_reg := <[udid := tun]> (l_reg s) |>.
Definition reg_remove (s : lan) (udid : string) : lan :=
  match l_reg s !! udid with
  | Some tun => s <| l_reg := delete udid (l_reg s) |> <| l_closed := l_closed s ++ [tun] |>
  | None => s
  end.
Definition setReachable (s : lan) (udid : string) (on : bool) : lan := s <| l_reach := <[udid := on]> (l_reach s) |>.

(** ** One pass: what it decides under the mutex *)
Section pass.
Context `{MapRange nat}.
(** what the pass reads: usbmuxd's phones, the two answers of targets(), the
    clock, the loads of the pause flag, and which ports can be bound *)
Record tick := mkTick {
  tk_usb : option (gset string); tk_claimed : list string; tk_targets : list string; tk_now : Z;
  tk_paused : nat → bool; tk_base : Z; tk_free : Z → bool
}.

(** what the critical section builds: the heap, the table and the actions *)
Record plan := mkPlan { pl_heap : list lanState; pl_states : gmap string nat; pl_acts : list action; pl_loads : nat }.
Definition set_tun_nil (heap : list lanState) (p : nat) : list lanState := alter (λ st, st <| st_tun := None |>) p heap.
(** the loop over the table: what is no longer claimed *)
Definition prune_one (t : tick) (pl : plan) (entry : string * nat) : plan :=
  let '(udid, p) := entry in
  if bool_decide (udid ∈ tk_claimed t) then pl
  else
    let has := match pl_heap pl !! p with Some st => bool_decide (is_Some (st_tun st)) | None => false end in
    mkPlan (if has then set_tun_nil (pl_heap pl) p else pl_heap pl) (delete udid (pl_states pl))
      (if has then pl_acts pl ++ [mkAction KDrop udid 0 p] else pl_acts pl) (pl_loads pl).
(** the state of a phone, made on first use *)
Definition ensure_state (pl : plan) (udid : string) : plan * nat :=
  match pl_states pl !! udid with
  | Some p => (pl, p)
  | None =>
      (mkPlan (pl_heap pl ++ [new_lanState]) (<[udid := length (pl_heap pl)]> (pl_states pl)) (pl_acts pl) (pl_loads pl),
       length (pl_heap pl))
  end.
Definition probe_due (t : tick) (st : lanState) : bool :=
  match st_lastProbe st with None => true | Some at_ => (tk_now t - at_ >=? lanProbeEvery)%Z end.
Definition before_retry (t : tick) (st : lanState) : bool :=
  match st_nextTry st with None => false | Some at_ => (tk_now t <? at_)%Z end.
(** the pause flag is loaded once or twice for a phone with a tunnel *)
Definition target_one (t : tick) (usb : gset string) (pl : plan) (udid : string) : plan :=
  let '(pl, p) := ensure_state pl udid in
  match pl_heap pl !! p with
  | None => pl
  | Some st =>
      if bool_decide (is_Some (st_tun st)) then
        let on_usb := bool_decide (udid ∈ usb) in
        let loads := if on_usb then S (pl_loads pl) else pl_loads pl in
        if on_usb && negb (tk_paused t (pl_loads pl)) then
          mkPlan (set_tun_nil (pl_heap pl) p) (pl_states pl) (pl_acts pl ++ [mkAction KDrop udid 0 p]) loads
        else if tk_paused t loads then mkPlan (pl_heap pl) (pl_states pl) (pl_acts pl) (S loads)
        else if probe_due t st then
          mkPlan (alter (λ st, st <| st_lastProbe := Some (tk_now t) |>) p (pl_heap pl)) (pl_states pl)
            (pl_acts pl ++ [mkAction KProbe udid 0 p]) (S loads)
        else mkPlan (pl_heap pl) (pl_states pl) (pl_acts pl) (S loads)
      else if bool_decide (udid ∈ usb) || st_opening st || before_retry t st then pl
      else
        mkPlan (alter (λ st, st <| st_opening := true |>) p (pl_heap pl)) (pl_states pl)
          (pl_acts pl ++ [mkAction KOpen udid
             (freePortLocked (tk_base t) (tk_free t) (Z.of_nat (length (pl_acts pl)))) p]) (pl_loads pl)
  end.
Definition decide_pass (t : tick) (usb : gset string) (heap : list lanState) (states : gmap string nat) : plan :=
  let pl := foldl (prune_one t) (mkPlan heap states [] 0) (map_range states) in
  foldl (target_one t usb) pl (tk_targets t).

(** ** The transition system *)
Inductive llabel :=
| LTick (t : tick)
| LAct (alive : bool)                          (** the next action; [alive] answers a probe *)
| LRemove | LReport | LProbeNil (now : Z)
| LOpened (r : option lan_err) (now : Z)       (** the opener returned: first load, writes *)
| LLoaded | LAdded | LClosed
| LStop | LStopCollect (k : nat) | LStopDrop (k : nat) | LStopReport (k : nat).

(** the critical section after an open, up to its second load of [stopped] *)
Definition open_commit (s : lan) (udid : string) (p : nat) (r : option lan_err) (now : Z) (todo : list action) : lan :=
  let s := upd_st s p (λ st,
    let failures := (st_failures st + 1)%Z in
    let st := st <| st_opening := false |> <| st_failures := failures |> <| st_backoff := lanBackoff failures |>
                 <| st_nextTry := Some (now + lanBackoff failures)%Z |> in
    match r with
    | None => if l_stopped s then st
              else st <| st_tun := Some (l_next s) |> <| st_lastProbe := Some now |> <| st_failures := 0%Z |> <| st_nextTry := None |>
    | Some _ => st
    end) in
  match r with
  | Some e =>
      (if isPairingPending e then s <| l_pending := l_pending s ++ [udid] |> else s) <| l_pc := PActs todo |>
  | None => s <| l_next := S (l_next s) |> <| l_pc := PCommitted udid (l_next s) todo |>
  end.
(** the head of the actions *)
Definition run_action (s : lan) (a : action) (alive : bool) (todo : list action) : lan :=
  match ac_kind a with
  | KDrop => s <| l_pc := PDropping (ac_udid a) todo |>
  | KProbe =>
      match l_heap s !! ac_st a ≫= st_tun with
      | None => s <| l_panic := true |>
      | Some _ => s <| l_pc := if alive then PActs todo else PProbeDead (ac_udid a) (ac_st a) todo |>
      end
  | KOpen => s <| l_pc := POpening (ac_udid a) (ac_st a) todo |>
  end.
(** the mutex is taken between the two loads of an open that succeeded *)
Definition mutex_free (s : lan) : bool := match l_pc s with PCommitted _ _ _ => false | _ => true end.
Definition stop_collect (s : lan) (k : nat) : lan :=
  let held := filter (λ e, is_Some (l_heap s !! e.2 ≫= st_tun)) (map_range (l_states s)) in
  s <| l_heap := foldl set_tun_nil (l_heap s) (map_range (l_states s)).*2 |>
    <| l_stops := <[k := SDropping held.*1]> (l_stops s) |>.

Definition lstep (s : lan) (l : llabel) : option lan :=
  if l_panic s then None else
  match l, l_pc s with
  | LTick t, PIdle =>
      match tk_usb t with
      | None => Some s
      | Some usb =>
          let pl := decide_pass t usb (l_heap s) (l_states s) in
          Some (s <| l_heap := pl_heap pl |> <| l_states := pl_states pl |> <| l_pc := PActs (pl_acts pl) |>)
      end
  | LAct alive, PActs (a :: todo) => Some (run_action s a alive todo)
  | LAct _, PActs [] => Some (s <| l_pc := PIdle |>)
  | LRemove, PDropping udid todo => Some (reg_remove s udid <| l_pc := PReporting udid false todo |>)
  | LReport, PReporting udid on todo => Some (setReachable s udid on <| l_pc := PActs todo |>)
  | LProbeNil now, PProbeDead udid p todo =>
      Some (upd_st s p (λ st, st <| st_tun := None |> <| st_nextTry := Some now |>) <| l_pc := PDropping udid todo |>)
  | LOpened r now, POpening udid p todo => Some (open_commit s udid p r now todo)
  | LLoaded, PCommitted udid tun todo =>
      Some (s <| l_pc := if l_stopped s then PClosing tun todo else PAdding udid tun todo |>)
  | LAdded, PAdding udid tun todo => Some (reg_add s udid tun <| l_pc := PReporting udid true todo |>)
  | LClosed, PClosing tun todo => Some (s <| l_closed := l_closed s ++ [tun] |> <| l_pc := PActs todo |>)
  | LStop, _ => Some (s <| l_stopped := true |> <| l_stops := l_stops s ++ [SCollect] |>)
  | LStopCollect k, _ =>
      match l_stops s !! k with
      | Some SCollect => if mutex_free s then Some (stop_collect s k) else None
      | _ => None
      end
  | LStopDrop k, _ =>
      match l_stops s !! k with
      | Some (SDropping (udid :: rest)) => Some (reg_remove s udid <| l_stops := <[k := SReporting udid rest]> (l_stops s) |>)
      | _ => None
      end
  | LStopReport k, _ =>
      match l_stops s !! k with
      | Some (SReporting udid rest) => Some (setReachable s udid false <| l_stops := <[k := SDropping rest]> (l_stops s) |>)
      | _ => None
      end
  | _, _ => None
  end.
End pass.

(** ** The loop over attached phones (tunnel.go) *)
Definition deviceSetKey (udids : list string) : string :=
  concat_sep "," (merge_sort (λ a b, Is_true (String.leb a b)) udids).
(** tunnels of the manager, [None] when ListTunnels fails *)
Definition allDevicesTunneled (tunnels : option (list string)) (udids : list string) : bool :=
  match tunnels with
  | None => false
  | Some ts => forallb (λ u, bool_decide (u ∈ ts)) udids
  end.
Record usbLoop := mkUsbLoop { ul_set : string; ul_streak : Z; ul_last : option Z }.
Definition new_usbLoop : usbLoop := mkUsbLoop "" 0 None.
Definition forceAfterFailures : Z := 10.
(** what one tick of the loop reads; UpdateTunnels' outcome is [ut_update] *)
Record utick := mkUtick {
  ut_paused : bool; ut_first : bool; ut_devices : option (list string); ut_tunnels : option (list string);
  ut_now : Z; ut_update : bool
}.
(** the new state, and whether UpdateTunnels was called *)
Definition usb_tick (s : usbLoop) (t : utick) : usbLoop * bool :=
  if ut_paused t && ut_first t then (s, false)
  else
    match ut_devices t with
    | None =>
        let streak := (ul_streak s + 1)%Z in
        if (streak <? forceAfterFailures)%Z then (mkUsbLoop (ul_set s) streak (ul_last s), false)
        else (mkUsbLoop (ul_set s) 0 (ul_last s), true)
    | Some list =>
        let set := deviceSetKey list in
        let s := mkUsbLoop (ul_set s) 0 (ul_last s) in
        if String.eqb set (ul_set s) && allDevicesTunneled (ut_tunnels t) list then (s, false)
        else if String.eqb set (ul_set s) && match ul_last s with Some at_ => (ut_now t - at_ <? 5 * second)%Z | None => false end
        then (s, false)
        else (mkUsbLoop (if ut_update t then set else ul_set s) 0 (Some (ut_now t)), true)
    end.
