(* ===== verification/LanProofs.v ===== *)
(** * LanProofs: theorems about the LAN agent

    Between its passes the agent holds exactly the tunnels that are registered
    ([lan_registry_exact]); the invariant follows a pass through every action
    it still has to carry out.  Then what a pass may and may not drop, the
    backoff, the loop over attached phones, and how a call of Stop interferes. *)
From S2P Require Import Prelude GoStrings Lan.
From Stdlib Require Import Ascii.

(** ** Tunnels held through the table *)
Definition held (heap : list lanState) (states : gmap string nat) (u : string) : option nat :=
  states !! u ≫= λ p, heap !! p ≫= st_tun.
Definition is_drop (a : action) : Prop := ac_kind a = KDrop.
Definition drops (acts : list action) (u : string) : Prop := ∃ a, a ∈ acts ∧ is_drop a ∧ ac_udid a = u.
(** once a phone is probed or opened nothing else is done with it in the pass *)
Definition separate (a b : action) : Prop := ¬ is_drop a → ac_udid b ≠ ac_udid a.

Record table_ok (heap : list lanState) (states : gmap string nat) : Prop := {
  to_valid u p : states !! u = Some p → p < length heap;
  to_inj u v p : states !! u = Some p → states !! v = Some p → u = v
}.
(** the registry against the table, when [acts] are still to be carried out *)
Record ok (reg : gmap string nat) (heap : list lanState) (states : gmap string nat) (acts : list action) : Prop := {
  ok_table : table_ok heap states;
  ok_drop u : drops acts u → held heap states u = None;
  ok_reg u : ¬ drops acts u → reg !! u = held heap states u;
  ok_ptr a : a ∈ acts → ¬ is_drop a → states !! ac_udid a = Some (ac_st a);
  ok_probe a : a ∈ acts → ac_kind a = KProbe → is_Some (held heap states (ac_udid a));
  ok_open a : a ∈ acts → ac_kind a = KOpen → held heap states (ac_udid a) = None;
  ok_order : ForallOrdPairs separate acts
}.

Lemma drops_nil u : ¬ drops [] u.
Proof. intros (a & Ha & _). by apply not_elem_of_nil in Ha. Qed.
Lemma drops_app acts a u : drops (acts ++ [a]) u ↔ drops acts u ∨ (is_drop a ∧ ac_udid a = u).
Proof.
  unfold drops. split.
  - intros (b & Hb & Hd & Hu). apply elem_of_app in Hb as [Hb|Hb]; [eauto|]. apply list_elem_of_singleton in Hb as ->. auto.
  - intros [(b & Hb & Hd & Hu)|[Hd Hu]]; [exists b | exists a]; rw elem_of_app list_elem_of_singleton; auto.
Qed.
Lemma drops_cons acts a u : drops (a :: acts) u ↔ (is_drop a ∧ ac_udid a = u) ∨ drops acts u.
Proof.
  unfold drops. split.
  - intros (b & Hb & Hd & Hu). apply elem_of_cons in Hb as [->|Hb]; eauto.
  - intros [[Hd Hu]|(b & Hb & Hd & Hu)]; [exists a | exists b]; rw elem_of_cons; auto.
Qed.
Lemma ForallOrdPairs_snoc {A} (R : A → A → Prop) l x :
  ForallOrdPairs R l → (∀ a, a ∈ l → R a x) → ForallOrdPairs R (l ++ [x]).
Proof.
  induction 1 as [|a l Ha Hl IH]; intros Hx; cbn; [constructor; constructor|].
  constructor.
  - apply Forall_app. split; [done|]. constructor; [|done]. apply Hx, list_elem_of_here.
  - apply IH. intros b Hb. by apply Hx, list_elem_of_further.
Qed.

(** writing one state changes what is held for at most one phone *)
Lemma held_alter_tun f p heap states u :
  (∀ st, st_tun (f st) = st_tun st) → held (alter f p heap) states u = held heap states u.
Proof.
  intros Hf. unfold held. destruct (states !! u) as [q|]; [cbn|done].
  destruct (decide (p = q)) as [->|Hne]; [|by rw list_lookup_alter_ne].
  rw list_lookup_alter_eq. destruct (heap !! q); cbn; auto.
Qed.
Lemma held_alter_eq f p heap states u :
  states !! u = Some p → held (alter f p heap) states u = heap !! p ≫= λ st, st_tun (f st).
Proof. intros Hu. unfold held. rw Hu. cbn. rw list_lookup_alter_eq. by destruct (heap !! p). Qed.
Lemma held_alter_ne f p heap states u :
  states !! u ≠ Some p → held (alter f p heap) states u = held heap states u.
Proof.
  intros Hu. unfold held. destruct (states !! u) as [q|]; [cbn|done]. rw list_lookup_alter_ne; [done | congruence].
Qed.
Lemma table_alter f p heap states : table_ok heap states → table_ok (alter f p heap) states.
Proof. intros [Hv Hi]. split; [|done]. intros u q Hq. rw length_alter. eauto. Qed.
Lemma held_set_nil heap states u p v :
  table_ok heap states → states !! u = Some p →
  held (set_tun_nil heap p) states v = if bool_decide (v = u) then None else held heap states v.
Proof.
  intros Ht Hu. unfold set_tun_nil. case_bool_decide as Hv.
  - subst v. rw (held_alter_eq _ _ _ _ _ Hu). by destruct (heap !! p).
  - apply held_alter_ne. intros Hp. by apply Hv, (to_inj _ _ Ht v u p).
Qed.
Lemma held_delete heap states u v :
  held heap (delete u states) v = if bool_decide (v = u) then None else held heap states v.
Proof.
  unfold held. case_bool_decide as Hv; [subst v; by rw lookup_delete_eq | by rw lookup_delete_ne].
Qed.
Lemma held_state heap states u p st :
  states !! u = Some p → heap !! p = Some st → held heap states u = st_tun st.
Proof. intros Hu Hp. unfold held. rw Hu. cbn. by rw Hp. Qed.
Lemma table_delete heap states u : table_ok heap states → table_ok heap (delete u states).
Proof.
  intros [Hv Hi]. split.
  - intros v p Hp. apply lookup_delete_Some in Hp as [_ Hp]. eauto.
  - intros v w p H1 H2. apply lookup_delete_Some in H1 as [_ H1]. apply lookup_delete_Some in H2 as [_ H2]. eauto.
Qed.

(** ** The decisions of a pass *)
Section planning.
Context `{MapRange nat}.
Variables (t : tick) (usb : gset string).

(** dropping the tunnel of a phone in the table *)
Lemma ok_drop_one reg heap states acts u p port :
  ok reg heap states acts → states !! u = Some p →
  (∀ a, a ∈ acts → ¬ is_drop a → ac_udid a ≠ u) →
  ok reg (set_tun_nil heap p) states (acts ++ [mkAction KDrop u port p]).
Proof.
  intros [Ht Hd Hr Hp Hpr Hop Hord] Hu Hsep.
  assert (Hh := held_set_nil heap states u p).
  split.
  - by apply table_alter.
  - intros v Hv. rw Hh //. case_bool_decide as Hvu; [done|]. apply drops_app in Hv as [Hv|[_ Hv]]; [auto | cbn in Hv; congruence].
  - intros v Hv. rw Hh //. rw drops_app in Hv. case_bool_decide as Hvu; [|apply Hr; tauto].
    subst v. exfalso. by apply Hv; right.
  - intros a Ha Hn. apply elem_of_app in Ha as [Ha|Ha]; [auto|]. apply list_elem_of_singleton in Ha as ->. by destruct Hn.
  - intros a Ha Hk. apply elem_of_app in Ha as [Ha|Ha]; [|apply list_elem_of_singleton in Ha as ->; done].
    rw Hh //. rw bool_decide_false; [by apply Hpr|]. apply Hsep; [done|]. unfold is_drop. congruence.
  - intros a Ha Hk. apply elem_of_app in Ha as [Ha|Ha]; [|apply list_elem_of_singleton in Ha as ->; done].
    rw Hh //. case_bool_decide; [done | by apply Hop].
  - apply ForallOrdPairs_snoc; [done|]. intros a Ha Hn Hu'. by apply (Hsep a Ha Hn).
Qed.
(** an action that changes no tunnel, on a phone not acted on before *)
Lemma ok_add_act reg heap states acts f u p port k :
  (∀ st, st_tun (f st) = st_tun st) →
  ok reg heap states acts → states !! u = Some p → k ≠ KDrop →
  (k = KProbe → is_Some (held heap states u)) → (k = KOpen → held heap states u = None) →
  (∀ a, a ∈ acts → ¬ is_drop a → ac_udid a ≠ u) →
  ok reg (alter f p heap) states (acts ++ [mkAction k u port p]).
Proof.
  intros Hf [Ht Hd Hr Hp Hpr Hop Hord] Hu Hk Hkp Hko Hsep.
  assert (Hh : ∀ v, held (alter f p heap) states v = held heap states v) by (intros; by apply held_alter_tun).
  split; try (intros v; rw Hh drops_app).
  - by apply table_alter.
  - intros [Hv|[Hv _]]; [auto | by destruct Hk].
  - intros Hv. apply Hr. tauto.
  - intros a Ha Hn. apply elem_of_app in Ha as [Ha|Ha]; [auto|]. by apply list_elem_of_singleton in Ha as ->.
  - intros a Ha Hk'. rw Hh. apply elem_of_app in Ha as [Ha|Ha]; [auto|]. apply list_elem_of_singleton in Ha as ->. auto.
  - intros a Ha Hk'. rw Hh. apply elem_of_app in Ha as [Ha|Ha]; [auto|]. apply list_elem_of_singleton in Ha as ->. auto.
  - apply ForallOrdPairs_snoc; [done|]. intros a Ha Hn Hu'. by apply (Hsep a Ha Hn).
Qed.
(** forgetting a phone that holds nothing *)
Lemma ok_delete reg heap states acts u :
  ok reg heap states acts → held heap states u = None → (∀ a, a ∈ acts → ¬ is_drop a → ac_udid a ≠ u) →
  ok reg heap (delete u states) acts.
Proof.
  intros [Ht Hd Hr Hp Hpr Hop Hord] Hu Hsep.
  assert (Hh : ∀ v, held heap (delete u states) v = held heap states v).
  { intros v. rw held_delete. case_bool_decide; congruence. }
  split; try (intros v; rw Hh); auto using table_delete.
  - intros a Ha Hn. rw lookup_delete_ne; [auto|]. intros E. by apply (Hsep a Ha Hn).
Qed.
(** a new phone holds nothing *)
Lemma ok_ensure reg pl u :
  ok reg (pl_heap pl) (pl_states pl) (pl_acts pl) →
  ok reg (pl_heap (ensure_state pl u).1) (pl_states (ensure_state pl u).1) (pl_acts pl) ∧
  pl_acts (ensure_state pl u).1 = pl_acts pl ∧
  pl_states (ensure_state pl u).1 !! u = Some (ensure_state pl u).2.
Proof.
  intros Hok. unfold ensure_state. destruct (pl_states pl !! u) as [p|] eqn:Hu; cbn; [done|].
  split; [|split; [done | apply lookup_insert_eq]].
  destruct Hok as [[Hv Hi] Hd Hr Hp Hpr Hop Hord].
  assert (Hh : ∀ v, held (pl_heap pl ++ [new_lanState]) (<[u:=length (pl_heap pl)]> (pl_states pl)) v
                    = held (pl_heap pl) (pl_states pl) v).
  { intros v. unfold held. destruct (decide (v = u)) as [->|Hne].
    - rw lookup_insert_eq Hu. cbn. rw lookup_app_r; [|done]. by rw Nat.sub_diag.
    - rw lookup_insert_ne; [|done]. destruct (pl_states pl !! v) as [q|] eqn:Hq; [cbn|done].
      by rw lookup_app_l; [|eauto]. }
  split; try (intros v; rw Hh); auto.
  - split; [|].
    + intros v q Hq. rw length_app. cbn. apply lookup_insert_Some in Hq as [[_ <-]|[_ Hq]]; [lia|].
      specialize (Hv _ _ Hq). lia.
    + intros v w q H1 H2. apply lookup_insert_Some in H1 as [[<- <-]|[Hn1 H1]];
        apply lookup_insert_Some in H2 as [[<- E]|[Hn2 H2]]; eauto.
      * apply Hv in H2. lia.
      * subst. apply Hv in H1. lia.
  - intros a Ha Hn. rw lookup_insert_ne; [auto|]. intros E. specialize (Hp a Ha Hn). congruence.
Qed.

(** what a pass does with one phone, after making its state *)
Inductive target_case (pl : plan) (u : string) (p : nat) (st : lanState) : plan → Prop :=
| TDrop loads k : is_Some (st_tun st) → u ∈ usb → tk_paused t k = false →
    target_case pl u p st (mkPlan (set_tun_nil (pl_heap pl) p) (pl_states pl) (pl_acts pl ++ [mkAction KDrop u 0 p]) loads)
| TKeep loads : is_Some (st_tun st) ∧ (u ∈ usb → ∃ k, tk_paused t k = true) ∨ st_tun st = None →
    target_case pl u p st (mkPlan (pl_heap pl) (pl_states pl) (pl_acts pl) loads)
| TProbe loads k : is_Some (st_tun st) → tk_paused t k = false → (u ∈ usb → ∃ k, tk_paused t k = true) →
    target_case pl u p st (mkPlan (alter (λ st, st <| st_lastProbe := Some (tk_now t) |>) p (pl_heap pl)) (pl_states pl)
      (pl_acts pl ++ [mkAction KProbe u 0 p]) loads)
| TOpen loads port : st_tun st = None → u ∉ usb → st_opening st = false → before_retry t st = false →
    target_case pl u p st (mkPlan (alter (λ st, st <| st_opening := true |>) p (pl_heap pl)) (pl_states pl)
      (pl_acts pl ++ [mkAction KOpen u port p]) loads).
Lemma target_one_case pl u p st :
  (ensure_state pl u).2 = p → pl_heap (ensure_state pl u).1 !! p = Some st →
  target_case (ensure_state pl u).1 u p st (target_one t usb pl u).
Proof.
  intros Hp Hst. unfold target_one. destruct (ensure_state pl u) as [pl' p'] eqn:E. cbn in *. subst p'. rw Hst.
  destruct pl' as [heap states acts loads]. cbn in *. clear E. set (pl' := mkPlan heap states acts loads).
  case_bool_decide as Htun.
  - case_bool_decide as Husb; cbn.
    + destruct (tk_paused t loads) eqn:Hl; cbn; [|by apply (TDrop pl' _ _ _ _ loads)].
      assert (Hk : u ∈ usb → ∃ k, tk_paused t k = true) by (intros _; by exists loads).
      destruct (tk_paused t (S loads)) eqn:Hl2; [apply (TKeep pl'); by left|].
      destruct (probe_due t st); [by apply (TProbe pl' _ _ _ _ (S loads)) | apply (TKeep pl'); by left].
    + assert (Hk : u ∈ usb → ∃ k, tk_paused t k = true) by done.
      destruct (tk_paused t loads) eqn:Hl; [apply (TKeep pl'); by left|].
      destruct (probe_due t st); [by apply (TProbe pl' _ _ _ _ loads) | apply (TKeep pl'); by left].
  - assert (st_tun st = None) by (by apply eq_None_not_Some).
    case_bool_decide; cbn; [apply (TKeep pl'); by right|].
    destruct (st_opening st) eqn:Ho; cbn; [apply (TKeep pl'); by right|].
    destruct (before_retry t st) eqn:Hb; cbn; [apply (TKeep pl'); by right|]. by apply (TOpen pl').
Qed.
Lemma target_one_ok reg pl u :
  ok reg (pl_heap pl) (pl_states pl) (pl_acts pl) → (∀ a, a ∈ pl_acts pl → ¬ is_drop a → ac_udid a ≠ u) →
  let pl' := target_one t usb pl u in
  ok reg (pl_heap pl') (pl_states pl') (pl_acts pl') ∧
  (∀ a, a ∈ pl_acts pl' → a ∈ pl_acts pl ∨ ac_udid a = u).
Proof.
  intros Hok Hsep. destruct (ok_ensure reg pl u Hok) as (Hok' & Ha & Hu).
  destruct (pl_heap (ensure_state pl u).1 !! (ensure_state pl u).2) as [st|] eqn:Hst.
  2:{ apply lookup_ge_None in Hst. apply (to_valid _ _ (ok_table _ _ _ _ Hok')) in Hu. lia. }
  rw -Ha in Hok' Hsep. assert (Hh := held_state _ _ _ _ _ Hu Hst).
  assert (Hnew : ∀ a acts k port p, a ∈ acts ++ [mkAction k u port p] → a ∈ acts ∨ ac_udid a = u).
  { intros a acts k port p Hin. apply elem_of_app in Hin as [Hin|Hin]; [by left|].
    apply list_elem_of_singleton in Hin as ->. by right. }
  pose proof (target_one_case pl u _ _ eq_refl Hst) as Hc. rw -Ha. cbn zeta.
  destruct Hc; cbn; (split; [|by eauto]).
  - by apply ok_drop_one.
  - done.
  - apply ok_add_act; [done | done | done | done | by rw Hh | done | done].
  - apply ok_add_act; [done | done | done | done | done | by rw Hh | done].
Qed.
Lemma targets_ok reg targets pl :
  ok reg (pl_heap pl) (pl_states pl) (pl_acts pl) → NoDup targets →
  (∀ a, a ∈ pl_acts pl → ¬ is_drop a → ac_udid a ∉ targets) →
  let pl' := foldl (target_one t usb) pl targets in
  ok reg (pl_heap pl') (pl_states pl') (pl_acts pl').
Proof.
  revert pl. induction targets as [|u targets IH]; intros pl Hok Hnd Hsep; [done|]. cbn.
  apply NoDup_cons in Hnd as [Hu Hnd].
  destruct (target_one_ok reg pl u Hok) as [Hok' Hacts].
  { intros a Ha Hn E. apply (Hsep a Ha Hn). rw E. apply list_elem_of_here. }
  apply IH; [done | done|]. intros a Ha Hn. destruct (Hacts a Ha) as [Ha'| ->]; [|done].
  intros Hin. apply (Hsep a Ha' Hn). by apply list_elem_of_further.
Qed.

(** the loop over the table *)
Lemma prune_one_ok reg pl u p :
  ok reg (pl_heap pl) (pl_states pl) (pl_acts pl) → pl_states pl !! u = Some p → Forall is_drop (pl_acts pl) →
  let pl' := prune_one t pl (u, p) in
  ok reg (pl_heap pl') (pl_states pl') (pl_acts pl') ∧ Forall is_drop (pl_acts pl') ∧
  (∀ v, v ≠ u → pl_states pl' !! v = pl_states pl !! v) ∧
  (u ∉ tk_claimed t → pl_states pl' !! u = None) ∧
  (∀ v, v ∈ tk_claimed t → held (pl_heap pl') (pl_states pl') v = held (pl_heap pl) (pl_states pl) v ∧
     (drops (pl_acts pl') v → drops (pl_acts pl) v)).
Proof.
  intros Hok Hu Hall. cbn. case_bool_decide as Hc; [done|]. rw Forall_forall in Hall.
  assert (Hne : ∀ v, v ∈ tk_claimed t → v ≠ u) by (intros v Hv ->; done).
  assert (Ht := ok_table _ _ _ _ Hok).
  destruct (pl_heap pl !! p) as [st|] eqn:Hst.
  2:{ apply lookup_ge_None in Hst. apply (to_valid _ _ Ht) in Hu. lia. }
  assert (Hh := held_state _ _ _ _ _ Hu Hst). case_bool_decide as Htun; cbn.
  - split; [|split; [|split; [|split]]].
    + apply ok_delete; [apply ok_drop_one; [done | done | by intros a Ha []; apply Hall]| |].
      * rw (held_set_nil _ _ _ _ _ Ht Hu). by rw bool_decide_true.
      * intros a Ha []. apply elem_of_app in Ha as [Ha|Ha]; [by apply Hall|]. by apply list_elem_of_singleton in Ha as ->.
    + apply Forall_app. split; [by apply Forall_forall|]. by constructor.
    + intros v Hv. by rw lookup_delete_ne.
    + intros _. apply lookup_delete_eq.
    + intros v Hv. specialize (Hne v Hv). rw held_delete bool_decide_false // (held_set_nil _ _ _ _ _ Ht Hu) bool_decide_false //.
      split; [done|]. intros Hd. apply drops_app in Hd as [Hd|[_ E]]; [done | by destruct Hne].
  - split; [|split; [|split; [|split]]].
    + apply ok_delete; [done| |by intros a Ha []; apply Hall]. rw Hh. by apply eq_None_not_Some.
    + by apply Forall_forall.
    + intros v Hv. by rw lookup_delete_ne.
    + intros _. apply lookup_delete_eq.
    + intros v Hv. specialize (Hne v Hv). by rw held_delete bool_decide_false.
Qed.
Lemma prune_table_ok reg l pl :
  ok reg (pl_heap pl) (pl_states pl) (pl_acts pl) → NoDup l.*1 → (∀ u p, (u, p) ∈ l → pl_states pl !! u = Some p) →
  Forall is_drop (pl_acts pl) →
  let pl' := foldl (prune_one t) pl l in
  ok reg (pl_heap pl') (pl_states pl') (pl_acts pl') ∧ Forall is_drop (pl_acts pl') ∧
  (∀ v, v ∉ tk_claimed t → v ∈ l.*1 ∨ pl_states pl !! v = None → pl_states pl' !! v = None) ∧
  (∀ v, v ∈ tk_claimed t → held (pl_heap pl') (pl_states pl') v = held (pl_heap pl) (pl_states pl) v ∧
     (drops (pl_acts pl') v → drops (pl_acts pl) v)).
Proof.
  revert pl. induction l as [|[u p] l IH]; intros pl Hok Hnd Hl Hall; cbn zeta.
  { cbn. split; [done|]. split; [done|]. split; [|done]. intros v _ [Hv|Hv]; [by apply not_elem_of_nil in Hv | done]. }
  cbn [foldl]. cbn in Hnd. apply NoDup_cons in Hnd as [Hu Hnd].
  destruct (prune_one_ok reg pl u p Hok) as (Hok' & Hall' & Hoth & Hgone & Hkeep); [apply Hl, list_elem_of_here | done|].
  destruct (IH (prune_one t pl (u, p)) Hok' Hnd) as (Hok2 & Hall2 & Hgone2 & Hkeep2); [|done|].
  { intros v q Hv. rw Hoth; [by apply Hl, list_elem_of_further|]. intros ->. apply Hu. by apply (list_elem_of_fmap_2 fst) in Hv. }
  split; [done|]. split; [done|]. split.
  - intros v Hv Hin. apply Hgone2; [done|]. destruct (decide (v = u)) as [->|Hne]; [by right; apply Hgone|].
    rw Hoth //. destruct Hin as [Hin|Hin]; [|by right]. cbn in Hin. apply elem_of_cons in Hin as [->|Hin]; [done | by left].
  - intros v Hv. destruct (Hkeep v Hv) as [E1 D1], (Hkeep2 v Hv) as [E2 D2]. split; [congruence | auto].
Qed.
End planning.

Section pass_plan.
Context `{MapRange nat}.
Variables (t : tick) (usb : gset string).
Lemma map_range_keys (m : gmap string nat) : NoDup (map_range m).*1.
Proof. rw map_range_perm. apply NoDup_fst_map_to_list. Qed.
(** after the loop over the table, the phones of the table are claimed *)
Lemma pruned_ok reg heap states :
  ok reg heap states [] →
  let pl := foldl (prune_one t) (mkPlan heap states [] 0) (map_range states) in
  ok reg (pl_heap pl) (pl_states pl) (pl_acts pl) ∧ Forall is_drop (pl_acts pl) ∧
  (∀ v, v ∉ tk_claimed t → pl_states pl !! v = None) ∧
  (∀ v, v ∈ tk_claimed t → held (pl_heap pl) (pl_states pl) v = held heap states v ∧ ¬ drops (pl_acts pl) v).
Proof.
  intros Hok. destruct (prune_table_ok t reg (map_range states) (mkPlan heap states [] 0)) as (H1 & H2 & H3 & H4);
    [done | apply map_range_keys | by intros u p; apply elem_of_map_range | done |].
  split; [done|]. split; [done|]. split.
  - intros v Hv. apply H3; [done|]. cbn. destruct (states !! v) as [p|] eqn:E; [left | by right].
    apply elem_of_map_range in E. by apply (list_elem_of_fmap_2 fst) in E.
  - intros v Hv. destruct (H4 v Hv) as [E D]. split; [done|]. intros Hd. by apply D, drops_nil in Hd.
Qed.
Lemma decide_pass_ok reg heap states :
  ok reg heap states [] → NoDup (tk_targets t) →
  let pl := decide_pass t usb heap states in ok reg (pl_heap pl) (pl_states pl) (pl_acts pl).
Proof.
  intros Hok Hnd. destruct (pruned_ok reg heap states Hok) as (H1 & H2 & _).
  apply targets_ok; [done | done|]. intros a Ha []. rw Forall_forall in H2. by apply H2.
Qed.
End pass_plan.

(** ** Carrying the actions out *)
Section actions.
Variables (reg : gmap string nat) (heap : list lanState) (states : gmap string nat) (acts : list action).
Lemma ok_tail a : ok reg heap states (a :: acts) → ¬ is_drop a → ok reg heap states acts.
Proof.
  intros [Ht Hd Hr Hp Hpr Hop Hord] Hn. split; auto.
  - intros u Hu. apply Hd, drops_cons. by right.
  - intros u Hu. apply Hr. rw drops_cons. intros [[]|]; auto.
  - intros b Hb. by apply Hp, list_elem_of_further.
  - intros b Hb. by apply Hpr, list_elem_of_further.
  - intros b Hb. by apply Hop, list_elem_of_further.
  - by inversion Hord.
Qed.
Lemma ok_removed a : ok reg heap states (a :: acts) → is_drop a → ok (delete (ac_udid a) reg) heap states acts.
Proof.
  intros [Ht Hd Hr Hp Hpr Hop Hord] Ha. split; auto.
  - intros u Hu. apply Hd, drops_cons. by right.
  - intros u Hu. destruct (decide (u = ac_udid a)) as [->|Hne].
    + rw lookup_delete_eq. symmetry. apply Hd, drops_cons. by left.
    + rw lookup_delete_ne; [|done]. apply Hr. rw drops_cons. intros [[_ E]|]; auto.
  - intros b Hb. by apply Hp, list_elem_of_further.
  - intros b Hb. by apply Hpr, list_elem_of_further.
  - intros b Hb. by apply Hop, list_elem_of_further.
  - by inversion Hord.
Qed.
Lemma ok_alter f p :
  (∀ st, st_tun (f st) = st_tun st) → ok reg heap states acts → ok reg (alter f p heap) states acts.
Proof.
  intros Hf [Ht Hd Hr Hp Hpr Hop Hord].
  split; try (intros v; rw held_alter_tun //); auto using table_alter.
Qed.
(** nothing else is done with the phone of a probe or an open that is next *)
Lemma ok_head a : ok reg heap states (a :: acts) → ¬ is_drop a →
  states !! ac_udid a = Some (ac_st a) ∧ ¬ drops acts (ac_udid a) ∧ (∀ b, b ∈ acts → ac_udid b ≠ ac_udid a).
Proof.
  intros Hok Hn. assert (Hall : ∀ b, b ∈ acts → ac_udid b ≠ ac_udid a).
  { pose proof (ok_order _ _ _ _ Hok) as Hord. inversion Hord as [|? ? Hsep]; subst. rw Forall_forall in Hsep.
    intros b Hb. by apply Hsep. }
  split; [apply (ok_ptr _ _ _ _ Hok); [apply list_elem_of_here | done]|]. split; [|done].
  intros (b & Hb & _ & E). by apply (Hall b).
Qed.
(** writing the tunnel of that phone leaves the others *)
Lemma ok_write f a reg' :
  ok reg heap states (a :: acts) → ¬ is_drop a →
  (∀ v, v ≠ ac_udid a → reg' !! v = reg !! v) →
  reg' !! ac_udid a = heap !! ac_st a ≫= (λ st, st_tun (f st)) →
  ok reg' (alter f (ac_st a) heap) states acts.
Proof.
  intros Hok Hn Hoth Heq. destruct (ok_head a Hok Hn) as (Hu & Hnd & Hall).
  destruct (ok_tail a Hok Hn) as [Ht Hd Hr Hp Hpr Hop Hord].
  assert (Hh : ∀ v, v ≠ ac_udid a → held (alter f (ac_st a) heap) states v = held heap states v).
  { intros v Hv. apply held_alter_ne. intros E. by apply Hv, (to_inj _ _ Ht v (ac_udid a) (ac_st a)). }
  split; auto using table_alter.
  - intros v Hv. rw Hh; [auto|]. by intros ->.
  - intros v Hv. destruct (decide (v = ac_udid a)) as [->|Hne].
    + by rw Heq (held_alter_eq _ _ _ _ _ Hu).
    + rw Hh // Hoth //. auto.
  - intros b Hb Hk. rw Hh; auto.
  - intros b Hb Hk. rw Hh; auto.
Qed.
Lemma ok_probe_dead f a port p :
  ok reg heap states (a :: acts) → ¬ is_drop a → (∀ st, st_tun (f st) = None) →
  ok reg (alter f (ac_st a) heap) states (mkAction KDrop (ac_udid a) port p :: acts).
Proof.
  intros Hok Hn Hf. destruct (ok_head a Hok Hn) as (Hu & Hnd & Hall).
  assert (Hok' : ok (delete (ac_udid a) reg) (alter f (ac_st a) heap) states acts).
  { apply (ok_write f a); [done | done| |].
    - intros v Hv. by rw lookup_delete_ne.
    - rw lookup_delete_eq. by destruct (heap !! ac_st a); cbn; rw ?Hf. }
  destruct Hok' as [Ht Hd Hr Hp Hpr Hop Hord].
  assert (Hnone : held (alter f (ac_st a) heap) states (ac_udid a) = None) by (rw -Hr // lookup_delete_eq //).
  split; try (intros b Hb Hk; apply elem_of_cons in Hb as [->|Hb]; [first [done | by destruct Hk] | by auto]).
  - done.
  - intros v Hv. apply drops_cons in Hv as [[_ <-]|Hv]; [done | auto].
  - intros v Hv. rw drops_cons in Hv. assert (v ≠ ac_udid a) by (intros ->; apply Hv; by left).
    rw -Hr; [by rw lookup_delete_ne | tauto].
  - constructor; [|done]. apply Forall_forall. intros b _ []. done.
Qed.
End actions.

(** ** The invariant of the agent while nobody stops it *)
Section invariant.
Context `{MapRange nat}.
(** what is left to do, the action in progress first *)
Definition pending_acts (pc : pass_pc) : list action :=
  match pc with
  | PIdle => []
  | PActs todo | PReporting _ _ todo | PCommitted _ _ todo | PAdding _ _ todo | PClosing _ todo => todo
  | PDropping u todo => mkAction KDrop u 0 0 :: todo
  | PProbeDead u p todo => mkAction KProbe u 0 p :: todo
  | POpening u p todo => mkAction KOpen u 0 p :: todo
  end.
(** the registry once the tunnel just opened is added *)
Definition reg_after (s : lan) : gmap string nat :=
  match l_pc s with PCommitted u n _ | PAdding u n _ => <[u := n]> (l_reg s) | _ => l_reg s end.
Definition reported (s : lan) (u : string) : Prop := l_reach s !! u = Some true ↔ is_Some (l_reg s !! u).
Definition pc_ok (s : lan) : Prop :=
  match l_pc s with
  | PClosing _ _ => False
  | PCommitted u _ _ | PAdding u _ _ => l_reg s !! u = None ∧ ∀ v, reported s v
  | PReporting u on _ => on = bool_decide (is_Some (l_reg s !! u)) ∧ ∀ v, v ≠ u → reported s v
  | _ => ∀ v, reported s v
  end.
Record linv (s : lan) : Prop := {
  li_run : l_stopped s = false ∧ l_stops s = [] ∧ l_panic s = false;
  li_ok : ok (reg_after s) (l_heap s) (l_states s) (pending_acts (l_pc s));
  li_pc : pc_ok s;
  li_kept n : n < l_next s → n ∈ l_closed s ∨ ∃ u, reg_after s !! u = Some n
}.
(** no call of Stop, and targets() lists each phone once *)
Definition undisturbed (l : llabel) : Prop :=
  match l with
  | LTick t => NoDup (tk_targets t)
  | LStop | LStopCollect _ | LStopDrop _ | LStopReport _ => False
  | _ => True
  end.

Lemma linv_new : linv newLanAgent.
Proof.
  split; cbn; try done.
  - split; try done; try (intros a Ha; by apply not_elem_of_nil in Ha).
    constructor.
  - intros v. unfold reported. cbn. rw !lookup_empty. split; [done|]. by intros [].
  - intros n Hn. lia.
Qed.

Lemma ok_rehead reg heap states acts a b :
  ac_kind a = ac_kind b → ac_udid a = ac_udid b → (¬ is_drop a → ac_st a = ac_st b) →
  ok reg heap states (a :: acts) → ok reg heap states (b :: acts).
Proof.
  intros Hk Hu Hst [Ht Hd Hr Hp Hpr Hop Hord].
  assert (Hiff : ∀ v, drops (b :: acts) v ↔ drops (a :: acts) v).
  { intros v. rw !drops_cons. unfold is_drop. by rw Hk Hu. }
  assert (Hdrop : is_drop b ↔ is_drop a) by (unfold is_drop; by rw Hk).
  split; auto.
  - intros v Hv. by apply Hd, Hiff.
  - intros v Hv. apply Hr. by rw -Hiff.
  - intros c Hc Hn. apply elem_of_cons in Hc as [->|Hc]; [|auto using list_elem_of_further].
    rw Hdrop in Hn. rw -Hu -Hst //. apply Hp; [apply list_elem_of_here | done].
  - intros c Hc Hn. apply elem_of_cons in Hc as [->|Hc]; [|auto using list_elem_of_further].
    rw -Hu. apply Hpr; [apply list_elem_of_here | congruence].
  - intros c Hc Hn. apply elem_of_cons in Hc as [->|Hc]; [|auto using list_elem_of_further].
    rw -Hu. apply Hop; [apply list_elem_of_here | congruence].
  - inversion Hord as [|? ? Hs]; subst. constructor; [|done]. apply (Forall_impl _ _ _ Hs). intros c Hc Hn.
    rw Hdrop in Hn. rw -Hu. by apply Hc.
Qed.
Lemma linv_tick s t s' : linv s → NoDup (tk_targets t) → lstep s (LTick t) = Some s' → linv s'.
Proof.
  intros [(Hst & Hss & Hpa) Hok Hpc Hk] Hnd Hs. unfold lstep in Hs. rw Hpa in Hs.
  destruct (l_pc s) eqn:E; try done. destruct (tk_usb t) as [usb|]; simplify_eq; [|by split; rw ?E].
  unfold reg_after in *. rw E in Hok Hk. unfold pc_ok in Hpc. rw E in Hpc.
  split; [done| |done|done]. cbn. by apply decide_pass_ok.
Qed.
Lemma linv_act s alive s' : linv s → lstep s (LAct alive) = Some s' → linv s'.
Proof.
  intros [(Hst & Hss & Hpa) Hok Hpc Hk] Hs. unfold lstep in Hs. rw Hpa in Hs.
  destruct (l_pc s) as [|[|a todo]| | | | | | |] eqn:E; simplify_eq; unfold reg_after, pc_ok in *; rw E in Hok Hk Hpc.
  - by split.
  - cbn in Hok. unfold run_action. destruct a as [k u port p]. destruct k; cbn.
    + split; [done| |done|done]. by eapply ok_rehead, Hok.
    + split; [done| |done|done]. by eapply ok_rehead, Hok.
    + pose proof (ok_ptr _ _ _ _ Hok _ (list_elem_of_here _ _) ltac:(done)) as Hu.
      destruct (ok_probe _ _ _ _ Hok _ (list_elem_of_here _ _) eq_refl) as [n Hn]. unfold held in Hn. cbn in Hu, Hn.
      rw Hu in Hn. cbn in Hn. rw Hn. destruct alive.
      * split; [done| |done|done]. by eapply ok_tail.
      * split; [done| |done|done]. by eapply ok_rehead, Hok.
Qed.
Lemma linv_remove s s' : linv s → lstep s LRemove = Some s' → linv s'.
Proof.
  intros [(Hst & Hss & Hpa) Hok Hpc Hk] Hs. unfold lstep in Hs. rw Hpa in Hs.
  destruct (l_pc s) as [| |u todo| | | | | |] eqn:E; simplify_eq. unfold reg_after, pc_ok in *. rw E in Hok Hk Hpc.
  assert (Hok' := ok_removed _ _ _ _ _ Hok eq_refl). cbn in Hok'. unfold reg_remove.
  destruct (l_reg s !! u) as [n|] eqn:Hu.
  - split; [done | done| |].
    + unfold pc_ok; cbn. split; [by rw lookup_delete_eq|].
      intros v Hv. unfold reported; cbn. rw lookup_delete_ne //. apply Hpc.
    + intros m Hm. cbn in *. destruct (Hk m Hm) as [Hc|[v Hv]]; [left; set_solver|].
      destruct (decide (v = u)) as [->|Hne]; [left; set_solver|]. right. exists v. by rw lookup_delete_ne.
  - rw delete_id in Hok'; [|done]. split; [done | done| |done]. unfold pc_ok; cbn. rw Hu. split; [done|]. intros v _. apply Hpc.
Qed.
Lemma linv_report s s' : linv s → lstep s LReport = Some s' → linv s'.
Proof.
  intros [(Hst & Hss & Hpa) Hok Hpc Hk] Hs. unfold lstep in Hs. rw Hpa in Hs.
  destruct (l_pc s) as [| | |u on todo| | | | |] eqn:E; simplify_eq. unfold reg_after, pc_ok in *. rw E in Hok Hk Hpc.
  destruct Hpc as [-> Hrep]. split; [done | done| |done]. unfold pc_ok; cbn. intros v. unfold reported; cbn.
  destruct (decide (v = u)) as [->|Hne]; [|rw lookup_insert_ne //; by apply Hrep].
  rw lookup_insert_eq. split; [by intros [= E']; apply bool_decide_eq_true in E' | intros Hs; by rw bool_decide_true].
Qed.
Lemma linv_probe_nil s now s' : linv s → lstep s (LProbeNil now) = Some s' → linv s'.
Proof.
  intros [(Hst & Hss & Hpa) Hok Hpc Hk] Hs. unfold lstep in Hs. rw Hpa in Hs.
  destruct (l_pc s) as [| | | |u p todo| | | |] eqn:E; simplify_eq. unfold reg_after, pc_ok in *. rw E in Hok Hk Hpc.
  split; [done| |done|done]. cbn.
  apply (ok_probe_dead _ _ _ _ (λ st, st <| st_tun := None |> <| st_nextTry := Some now |>) (mkAction KProbe u 0 p)); done.
Qed.
Lemma linv_opened s r now s' : linv s → lstep s (LOpened r now) = Some s' → linv s'.
Proof.
  intros [(Hst & Hss & Hpa) Hok Hpc Hk] Hs. unfold lstep in Hs. rw Hpa in Hs.
  destruct (l_pc s) as [| | | | |u p todo| | |] eqn:E; simplify_eq. unfold reg_after, pc_ok in *. rw E in Hok Hk Hpc.
  pose proof (ok_head _ _ _ _ _ Hok ltac:(done)) as (Hu & Hnd & _).
  pose proof (ok_open _ _ _ _ Hok _ (list_elem_of_here _ _) eq_refl) as Hnone. cbn in Hu, Hnd, Hnone.
  assert (Hreg : l_reg s !! u = None).
  { rw (ok_reg _ _ _ _ Hok) //. intros Hd. by apply drops_cons in Hd as [[]|]. }
  destruct (lookup_lt_is_Some_2 (l_heap s) p (to_valid _ _ (ok_table _ _ _ _ Hok) _ _ Hu)) as [st Hp].
  unfold open_commit. rw Hst. destruct r as [e|].
  - assert (Hok' := ok_tail _ _ _ _ _ Hok ltac:(done)).
    destruct (isPairingPending e); (split; [done| |done|done]); cbn; by apply ok_alter.
  - split; [done| | |].
    + cbn. apply (ok_write (l_reg s) _ _ _ (λ st, st <| st_opening := false |> <| st_failures := (st_failures st + 1)%Z |>
          <| st_backoff := lanBackoff (st_failures st + 1) |>
          <| st_nextTry := Some (now + lanBackoff (st_failures st + 1))%Z |> <| st_tun := Some (l_next s) |>
          <| st_lastProbe := Some now |> <| st_failures := 0%Z |> <| st_nextTry := None |>) (mkAction KOpen u 0 p));
        [done | done | |]; cbn.
      * intros v Hv. by rw lookup_insert_ne.
      * by rw lookup_insert_eq Hp.
    + unfold pc_ok; cbn. split; [done | apply Hpc].
    + intros m Hm. unfold reg_after; cbn in *. destruct (decide (m = l_next s)) as [->|Hne].
      { right. exists u. by rw lookup_insert_eq. }
      destruct (Hk m ltac:(lia)) as [Hc|[v Hv]]; [by left|]. right. exists v. rw lookup_insert_ne; [done | by intros ->; rw Hreg in Hv].
Qed.
Lemma linv_loaded s s' : linv s → lstep s LLoaded = Some s' → linv s'.
Proof.
  intros [(Hst & Hss & Hpa) Hok Hpc Hk] Hs. unfold lstep in Hs. rw Hpa in Hs.
  destruct (l_pc s) eqn:E; simplify_eq. unfold reg_after, pc_ok in *. rw E in Hok Hk Hpc. rw Hst. by split.
Qed.
Lemma linv_added s s' : linv s → lstep s LAdded = Some s' → linv s'.
Proof.
  intros [(Hst & Hss & Hpa) Hok Hpc Hk] Hs. unfold lstep in Hs. rw Hpa in Hs.
  destruct (l_pc s) as [| | | | | | |u n todo|] eqn:E; simplify_eq. unfold reg_after, pc_ok in *. rw E in Hok Hk Hpc.
  destruct Hpc as [Hnone Hrep]. split; [done | done| |done]. unfold pc_ok; cbn. split.
  - by rw lookup_insert_eq.
  - intros v Hv. unfold reported; cbn. rw lookup_insert_ne //. apply Hrep.
Qed.
Lemma linv_step s l s' : linv s → undisturbed l → lstep s l = Some s' → linv s'.
Proof.
  intros Hi Hl Hs.
  destruct l as [t|alive| | |now|r now| | | | | | |];
    [by eapply linv_tick | by eapply linv_act | by eapply linv_remove | by eapply linv_report
    | by eapply linv_probe_nil | by eapply linv_opened | by eapply linv_loaded | by eapply linv_added | | done..].
  unfold lstep in Hs. destruct (l_panic s); [done|]. pose proof (li_pc _ Hi) as Hpc. unfold pc_ok in Hpc.
  by destruct (l_pc s).
Qed.
Lemma linv_run s ls s' : linv s → Forall undisturbed ls → trace_run (fun_step lstep) s ls s' → linv s'.
Proof.
  intros Hi Hls Hr. refine (trace_run_invariant_labels _ undisturbed linv _ s ls s' Hls Hi Hr).
  intros s1 l s2 Hl Hi1 Hs. by eapply linv_step.
Qed.

(** C16: however long the agent runs and whatever the phones
    and usbmuxd answer, as long as it is not stopped: between two passes the
    tunnels registered for consumers are exactly the tunnels of its table, the
    last report about every phone says whether its tunnel is registered, no
    opened tunnel is lost (each is registered or has been closed), and the
    goroutine never dereferences a tunnel that is gone. *)
Theorem lan_registry_exact ls s :
  trace_run (fun_step lstep) newLanAgent ls s → Forall undisturbed ls →
  l_panic s = false ∧
  (l_pc s = PIdle →
    (∀ u, l_reg s !! u = held (l_heap s) (l_states s) u) ∧
    (∀ u, l_reach s !! u = Some true ↔ is_Some (l_reg s !! u)) ∧
    (∀ n, n < l_next s → n ∈ l_closed s ∨ ∃ u, l_reg s !! u = Some n)).
Proof.
  intros Hr Hls. destruct (linv_run _ _ _ linv_new Hls Hr) as [(_ & _ & Hp) Hok Hpc Hk]. split; [done|].
  intros E. unfold reg_after, pc_ok in *. rw E in Hok Hk Hpc. split; [|done].
  intros u. apply (ok_reg _ _ _ _ Hok), drops_nil.
Qed.
End invariant.

(** ** What a pass may drop *)
(** phone [u] holds [v], and nothing but drops is planned for it *)
Definition settled (heap : list lanState) (states : gmap string nat) (acts : list action) (u : string) (v : option nat) : Prop :=
  held heap states u = v ∧ ∀ a, a ∈ acts → ac_udid a = u → is_drop a.
Abbreviation plan_settled pl := (settled (pl_heap pl) (pl_states pl) (pl_acts pl)).

Section policy.
Context `{MapRange nat}.
Variables (t : tick) (usb : gset string).
Lemma settled_snoc heap states acts u v a :
  settled heap states acts u v → (ac_udid a = u → is_drop a) → settled heap states (acts ++ [a]) u v.
Proof.
  intros [Hh Ha] Hn. split; [done|]. intros b Hb. apply elem_of_app in Hb as [Hb|Hb]; [auto|].
  by apply list_elem_of_singleton in Hb as ->.
Qed.
Lemma ensure_settled reg pl w u v :
  ok reg (pl_heap pl) (pl_states pl) (pl_acts pl) → plan_settled pl u v → plan_settled (ensure_state pl w).1 u v.
Proof.
  intros Hok [Hh Ha]. unfold ensure_state. destruct (pl_states pl !! w) as [p|] eqn:Hw; [done|].
  split; [cbn|done]. unfold held in *. destruct (decide (u = w)) as [->|Hne].
  - rw lookup_insert_eq. cbn. rw lookup_app_r // Nat.sub_diag. cbn. by rw Hw in Hh.
  - rw lookup_insert_ne //. destruct (pl_states pl !! u) as [q|] eqn:Hq; [cbn in *|done].
    rw lookup_app_l //. by apply (to_valid _ _ (ok_table _ _ _ _ Hok) u q).
Qed.
(** the states a pass finds: the phone it looks at has one *)
Lemma ensured_state reg pl u :
  ok reg (pl_heap pl) (pl_states pl) (pl_acts pl) →
  ∃ st, pl_heap (ensure_state pl u).1 !! (ensure_state pl u).2 = Some st ∧
    held (pl_heap (ensure_state pl u).1) (pl_states (ensure_state pl u).1) u = st_tun st.
Proof.
  intros Hok. destruct (ok_ensure reg pl u Hok) as (Hok' & _ & Hu).
  destruct (lookup_lt_is_Some_2 _ _ (to_valid _ _ (ok_table _ _ _ _ Hok') _ _ Hu)) as [st Hst].
  exists st. split; [done|]. by eapply held_state.
Qed.
(** looking at one phone settles nothing about the others *)
Lemma target_other reg pl u v w :
  ok reg (pl_heap pl) (pl_states pl) (pl_acts pl) → u ≠ w → plan_settled pl u v → plan_settled (target_one t usb pl w) u v.
Proof.
  intros Hok Hne Hs. destruct (ensured_state reg pl w Hok) as (st & Hst & _).
  destruct (ok_ensure reg pl w Hok) as (Hok' & _ & Hw). apply (ensure_settled reg pl w) in Hs; [|done].
  assert (Hp : pl_states (ensure_state pl w).1 !! u ≠ Some (ensure_state pl w).2).
  { intros E. by apply Hne, (to_inj _ _ (ok_table _ _ _ _ Hok') u w (ensure_state pl w).2). }
  destruct (target_one_case t usb pl w _ _ eq_refl Hst); cbn; try done;
    (apply settled_snoc; [|by intros E; destruct Hne]); destruct Hs as [Hh Ha];
    (split; [|done]); unfold set_tun_nil; by rw held_alter_ne.
Qed.
Lemma targets_settled reg targets pl u v v' :
  ok reg (pl_heap pl) (pl_states pl) (pl_acts pl) → NoDup targets →
  (∀ a, a ∈ pl_acts pl → ¬ is_drop a → ac_udid a ∉ targets) →
  (∀ pl, ok reg (pl_heap pl) (pl_states pl) (pl_acts pl) → plan_settled pl u v → plan_settled (target_one t usb pl u) u v') →
  (u ∉ targets → v' = v) → plan_settled pl u v → plan_settled (foldl (target_one t usb) pl targets) u v'.
Proof.
  intros Hok Hnd Hsep Hself Hv Hs.
  assert (Hout : ∀ targets pl v, u ∉ targets → ok reg (pl_heap pl) (pl_states pl) (pl_acts pl) → NoDup targets →
    (∀ a, a ∈ pl_acts pl → ¬ is_drop a → ac_udid a ∉ targets) →
    plan_settled pl u v → plan_settled (foldl (target_one t usb) pl targets) u v).
  { clear. intros targets. induction targets as [|w targets IH]; intros pl v Hu Hok Hnd Hsep Hs; [done|]. cbn.
    apply not_elem_of_cons in Hu as [Huw Hu]. apply NoDup_cons in Hnd as [Hw Hnd].
    destruct (target_one_ok t usb reg pl w Hok) as [Hok' Hacts].
    { intros a Ha Hn E. apply (Hsep a Ha Hn). rw E. apply list_elem_of_here. }
    apply IH; [done | done | done| |by apply (target_other reg)].
    intros a Ha Hn. destruct (Hacts a Ha) as [Ha'| ->]; [|done]. intros Hin. apply (Hsep a Ha' Hn). by apply list_elem_of_further. }
  revert pl Hok Hsep Hs. induction targets as [|w targets IH]; intros pl Hok Hsep Hs.
  { rw Hv; [done | apply not_elem_of_nil]. }
  cbn. apply NoDup_cons in Hnd as [Hw Hnd]. destruct (target_one_ok t usb reg pl w Hok) as [Hok' Hacts].
  { intros a Ha Hn E. apply (Hsep a Ha Hn). rw E. apply list_elem_of_here. }
  assert (Hsep' : ∀ a, a ∈ pl_acts (target_one t usb pl w) → ¬ is_drop a → ac_udid a ∉ targets).
  { intros a Ha Hn. destruct (Hacts a Ha) as [Ha'| ->]; [|done]. intros Hin. apply (Hsep a Ha' Hn). by apply list_elem_of_further. }
  destruct (decide (w = u)) as [->|Hne]; [apply Hout; auto|].
  apply IH; [done| |done|done|by apply (target_other reg)].
  intros Hu. apply Hv. rw not_elem_of_cons. auto.
Qed.
Lemma pass_settled reg heap states u v v' :
  ok reg heap states [] → NoDup (tk_targets t) →
  (u ∈ tk_claimed t → held heap states u = v) → (u ∉ tk_claimed t → v = None) →
  (∀ pl, ok reg (pl_heap pl) (pl_states pl) (pl_acts pl) → plan_settled pl u v → plan_settled (target_one t usb pl u) u v') →
  (u ∉ tk_targets t → v' = v) → plan_settled (decide_pass t usb heap states) u v'.
Proof.
  intros Hok Hnd Hin Hout Hself Hv. destruct (pruned_ok t reg heap states Hok) as (H1 & H2 & H3 & H4).
  rw Forall_forall in H2. eapply targets_settled; [exact H1 | done | | exact Hself | done |].
  - intros a Ha []. by apply H2.
  - split; [|by intros a Ha _; apply H2]. destruct (decide (u ∈ tk_claimed t)) as [Hc|Hc].
    + destruct (H4 u Hc) as [-> _]. auto.
    + unfold held. rw H3 // Hout //.
Qed.

(** a phone on the cable ends up with no tunnel of the agent's *)
Lemma usb_settled reg pl u v :
  u ∈ usb → (∀ k, tk_paused t k = false) →
  ok reg (pl_heap pl) (pl_states pl) (pl_acts pl) → plan_settled pl u v → plan_settled (target_one t usb pl u) u None.
Proof.
  intros Hu Hpause Hok Hs. destruct (ensured_state reg pl u Hok) as (st & Hst & Hh).
  destruct (ok_ensure reg pl u Hok) as (Hok' & _ & Hp). apply (ensure_settled reg pl u) in Hs; [|done].
  destruct Hs as [_ Ha].
  assert (Hno : (u ∈ usb → ∃ k, tk_paused t k = true) → False).
  { intros Hk. destruct (Hk Hu) as [k E]. by rw Hpause in E. }
  destruct (target_one_case t usb pl u _ _ eq_refl Hst) as [| loads Hk | |]; cbn; try (by exfalso; auto).
  - apply settled_snoc; [|done]. split; [|done]. rw (held_set_nil _ _ _ _ _ (ok_table _ _ _ _ Hok') Hp). by rw bool_decide_true.
  - split; [|done]. cbn. rw Hh. destruct Hk as [[_ Hk]|Hk]; [by exfalso; auto | done].
Qed.
(** a tunnel in use by a job is left alone *)
Lemma paused_settled reg pl u n :
  (∀ k, tk_paused t k = true) →
  ok reg (pl_heap pl) (pl_states pl) (pl_acts pl) → plan_settled pl u (Some n) → plan_settled (target_one t usb pl u) u (Some n).
Proof.
  intros Hpause Hok Hs. destruct (ensured_state reg pl u Hok) as (st & Hst & Hh).
  apply (ensure_settled reg pl u) in Hs; [|done]. pose proof Hs as [Hh' Ha]. rw Hh in Hh'.
  destruct (target_one_case t usb pl u _ _ eq_refl Hst) as [? k ? ? E | | ? k ? E |]; cbn; try done; try congruence;
    by rw Hpause in E.
Qed.

Abbreviation lan_settled s := (settled (l_heap s) (l_states s) (pending_acts (l_pc s))).
Definition is_tick (l : llabel) : Prop := match l with LTick _ => True | _ => False end.
Lemma settled_tail heap states a acts u v : settled heap states (a :: acts) u v → settled heap states acts u v.
Proof. intros [Hh Ha]. split; [done|]. intros b Hb. by apply Ha, list_elem_of_further. Qed.
(** writing through the head action does not touch a settled phone *)
Lemma settled_write reg heap states a acts f u v :
  ok reg heap states (a :: acts) → ¬ is_drop a → settled heap states (a :: acts) u v →
  settled (alter f (ac_st a) heap) states acts u v ∧ ac_udid a ≠ u.
Proof.
  intros Hok Hn Hs. destruct (ok_head _ _ _ _ _ Hok Hn) as (Hp & _).
  assert (Hne : ac_udid a ≠ u). { intros E. apply Hn, (proj2 Hs); [apply list_elem_of_here | done]. }
  split; [|done]. apply settled_tail in Hs as [Hh Ha]. split; [|done]. rw held_alter_ne //.
  intros E. by apply Hne, (to_inj _ _ (ok_table _ _ _ _ Hok) _ _ (ac_st a)).
Qed.
Lemma settled_step s l s' u v :
  linv s → undisturbed l → ¬ is_tick l → lstep s l = Some s' → lan_settled s u v → lan_settled s' u v.
Proof.
  intros Hi Hl Hnt Hs Hset. pose proof (li_ok _ Hi) as Hok. destruct (li_run _ Hi) as (Hst & Hss & Hpa).
  unfold lstep in Hs. rw Hpa in Hs.
  destruct l as [| alive | | | now | r now | | | | | | |]; try done;
    destruct (l_pc s) as [|[|a todo]|w todo|w on todo|w p todo|w p todo|w n todo|w n todo|n todo] eqn:E; simplify_eq;
    cbn in Hset, Hok; try done.
  - unfold run_action. destruct a as [[] w port p]; cbn.
    + destruct Hset as [Hh Ha]. split; [done|]. intros b Hb. apply elem_of_cons in Hb as [->|Hb]; [|by apply Ha, list_elem_of_further].
      intros E'. by apply (Ha _ (list_elem_of_here _ _)).
    + destruct Hset as [Hh Ha]. split; [done|]. intros b Hb. apply elem_of_cons in Hb as [->|Hb]; [done | by apply Ha, list_elem_of_further].
    + destruct (l_heap s !! p ≫= st_tun); cbn; [|by rw E].
      destruct alive; cbn; [by eapply settled_tail|]. destruct Hset as [Hh Ha]. split; [done|].
      intros b Hb. apply elem_of_cons in Hb as [->|Hb]; [|by apply Ha, list_elem_of_further].
      intros E'. by apply (Ha _ (list_elem_of_here _ _)).
  - apply settled_tail in Hset. unfold reg_remove. by destruct (l_reg s !! w).
  - destruct (settled_write _ _ _ _ _ (λ st, st <| st_tun := None |> <| st_nextTry := Some now |>) _ _ Hok ltac:(done) Hset)
      as [[Hh Ha] Hne]. split; [done|]. cbn. intros b Hb. apply elem_of_cons in Hb as [->|Hb]; [done | by apply Ha].
  - unfold open_commit. rw Hst. pose proof (λ f, settled_write _ _ _ _ _ f _ _ Hok ltac:(done) Hset) as Hw. cbn in Hw.
    destruct r as [e|]; [destruct (isPairingPending e)|]; cbn; apply Hw.
  - by destruct (l_stopped s).
Qed.
Lemma settled_run s ls s' u v :
  linv s → Forall undisturbed ls → Forall (λ l, ¬ is_tick l) ls → trace_run (fun_step lstep) s ls s' →
  lan_settled s u v → l_pc s' = PIdle → l_reg s' !! u = v.
Proof.
  intros Hi Hls Hnt Hr Hset Hidle.
  assert (Hfin : linv s' ∧ lan_settled s' u v).
  { revert Hi Hls Hnt Hset. clear Hidle. induction Hr as [|s l s1 ls s2 Hs Hr IH]; [done|]. intros Hi Hls Hnt Hset.
    inversion Hls; inversion Hnt; subst. apply IH; [by eapply linv_step | done | done | by eapply settled_step]. }
  destruct Hfin as [Hi' [Hh _]]. pose proof (li_ok _ Hi') as Hok. unfold reg_after in Hok. rw Hidle in Hok.
  rw (ok_reg _ _ _ _ Hok); [done | apply drops_nil].
Qed.
End policy.

Section passes.
Context `{MapRange nat}.
(** One pass, from the tick to its last action.  USB wins:
    when the pause flag is never seen set, a phone usbmuxd lists has no LAN
    tunnel at the end, whether it is claimed or not.  A job is not disturbed:
    when the flag is always seen set, a claimed phone keeps the tunnel it had.
    A pass whose usbmuxd probe failed changes nothing. *)
Theorem lan_pass_policy ls0 s t ls s' :
  trace_run (fun_step lstep) newLanAgent ls0 s → Forall undisturbed ls0 →
  trace_run (fun_step lstep) s (LTick t :: ls) s' → Forall undisturbed (LTick t :: ls) →
  Forall (λ l, ¬ is_tick l) ls → l_pc s' = PIdle →
  (∀ u, u ∈ tk_claimed t ↔ u ∈ tk_targets t) →
  match tk_usb t with
  | None => l_reg s' = l_reg s ∧ l_reach s' = l_reach s
  | Some usb =>
      ((∀ k, tk_paused t k = false) → ∀ u, u ∈ usb → l_reg s' !! u = None) ∧
      ((∀ k, tk_paused t k = true) → ∀ u n, u ∈ tk_claimed t → l_reg s !! u = Some n → l_reg s' !! u = Some n)
  end.
Proof.
  intros Hr0 Hls0 Hr Hls Hnt Hidle Hsame. assert (Hi := linv_run _ _ _ linv_new Hls0 Hr0).
  inversion Hr as [|? ? s1 ? ? Hs Hr']; subst. inversion Hls as [|? ? Hnd Hls']; subst.
  assert (Hi1 := linv_step _ _ _ Hi Hnd Hs). unfold fun_step, lstep in Hs.
  destruct (li_run _ Hi) as (_ & _ & Hpa). rw Hpa in Hs. destruct (l_pc s) eqn:E; try done.
  pose proof (li_ok _ Hi) as Hok. unfold reg_after in Hok. rw E in Hok. cbn in Hok, Hnd.
  assert (Hreg : ∀ u, l_reg s !! u = held (l_heap s) (l_states s) u).
  { intros u. apply (ok_reg _ _ _ _ Hok), drops_nil. }
  destruct (tk_usb t) as [usb|]; simplify_eq.
  - split.
    + intros Hp u Hu. eapply settled_run; [exact Hi1 | done | done | exact Hr' | | done].
      apply (pass_settled t usb (l_reg s) _ _ u (if bool_decide (u ∈ tk_claimed t) then held (l_heap s) (l_states s) u else None));
        [done | done | by intros; rw bool_decide_true | by intros; rw bool_decide_false | |].
      * intros pl. by apply usb_settled.
      * intros Hout. by rw bool_decide_false; [|rw Hsame].
    + intros Hp u n Hc Hn. eapply settled_run; [exact Hi1 | done | done | exact Hr' | | done].
      apply (pass_settled t usb (l_reg s) _ _ u (Some n)); [done | done | by rw -Hreg | done | | done].
      intros pl. by apply paused_settled.
  - inversion Hr' as [|? l ? ? ? Hs]; subst; [done|]. exfalso. inversion Hnt; subst. inversion Hls'; subst.
    unfold fun_step, lstep in Hs. rw Hpa E in Hs. by destruct l.
Qed.
End passes.

(** ** Backoff and ports *)
(** A phone that does not answer is retried after 30 seconds at the earliest
    and five minutes at the latest, and the wait never shrinks while failures
    accumulate. *)
Theorem lan_backoff_bounds failures failures' :
  (30 * second ≤ lanBackoff failures ≤ 300 * second)%Z ∧
  ((failures ≤ failures')%Z → (lanBackoff failures ≤ lanBackoff failures')%Z) ∧
  map lanBackoff [1; 2; 3; 4; 5; 6]%Z = map (Z.mul second) [30; 60; 120; 240; 300; 300]%Z.
Proof.
  assert (cases : ∀ f : Z, ((f ≤ 1)%Z ∧ lanBackoff f = (30 * second)%Z) ∨ (f = 2%Z ∧ lanBackoff f = (60 * second)%Z) ∨
    (f = 3%Z ∧ lanBackoff f = (120 * second)%Z) ∨ (f = 4%Z ∧ lanBackoff f = (240 * second)%Z) ∨
    ((5 ≤ f)%Z ∧ lanBackoff f = (300 * second)%Z)).
  { intros f. unfold lanBackoff. destruct (Z.ltb_spec (f - 1) 0); [left; split; [lia | done]|].
    destruct (Z.gtb_spec (f - 1) 4); [do 4 right; split; [lia | done]|].
    assert (f = 1 ∨ f = 2 ∨ f = 3 ∨ f = 4 ∨ f = 5)%Z as [-> | [-> | [-> | [-> | ->]]]] by lia;
      change second with 1000000000%Z; vm_compute; intuition (discriminate || reflexivity). }
  unfold second in *. destruct (cases failures) as [?|[?|[?|[?|?]]]], (cases failures') as [?|[?|[?|[?|?]]]];
    (split; [lia | split; [lia | done]]).
Qed.
Lemma freePort_range base free salt : (base ≤ freePortLocked base free salt ≤ base + 71)%Z.
Proof.
  unfold freePortLocked. destruct (filter _ _) as [|p l] eqn:E; [lia|].
  assert (Hp : p ∈ p :: l) by apply list_elem_of_here. rw -E in Hp. apply list_elem_of_filter in Hp as [_ Hp].
  apply list_elem_of_In, in_map_iff in Hp as (i & <- & _). unfold candidate.
  pose proof (Z.mod_pos_bound (salt + Z.of_nat i) 8). lia.
Qed.

(** ** Attached phones *)
Lemma string_leb_trans a b c : String.leb a b = true → String.leb b c = true → String.leb a c = true.
Proof.
  unfold String.leb. revert b c. induction a as [|x a IH]; intros [|y b] [|z c]; try done. cbn.
  unfold Ascii.compare. destruct (N.compare_spec (N_of_ascii x) (N_of_ascii y)) as [E|E|E],
    (N.compare_spec (N_of_ascii y) (N_of_ascii z)) as [E'|E'|E'], (N.compare_spec (N_of_ascii x) (N_of_ascii z)) as [E2|E2|E2];
    try done; try lia. apply IH.
Qed.
(** the key of a set of phones does not depend on the order they are listed in *)
Lemma deviceSetKey_perm l l' : l ≡ₚ l' → deviceSetKey l = deviceSetKey l'.
Proof.
  intros Hp. unfold deviceSetKey. f_equal.
  assert (Total (λ a b : string, Is_true (String.leb a b))).
  { intros a b. destruct (String.leb_total a b) as [-> | ->]; [by left | by right]. }
  assert (Transitive (λ a b : string, Is_true (String.leb a b))).
  { intros a b c H1 H2. apply Is_true_true in H1, H2. apply Is_true_true. by eapply string_leb_trans. }
  assert (AntiSymm eq (λ a b : string, Is_true (String.leb a b))).
  { intros a b H1 H2. apply Is_true_true in H1, H2. by apply String.leb_antisym. }
  apply (Sorted_unique (λ a b : string, Is_true (String.leb a b))); [by apply Sorted_merge_sort..|].
  by rw !merge_sort_Permutation.
Qed.
Fixpoint usb_run (s : usbLoop) (ts : list utick) : list bool :=
  match ts with [] => [] | t :: ts => (usb_tick s t).2 :: usb_run (usb_tick s t).1 ts end.
(** the ticks look at phones [udids] with their tunnels up, and fewer than ten probes in a row fail, [n] having failed before *)
Fixpoint calm (udids : list string) (n : Z) (ts : list utick) : Prop :=
  match ts with
  | [] => True
  | t :: ts =>
      if ut_paused t && ut_first t then calm udids n ts
      else match ut_devices t with
           | None => (n + 1 < 10)%Z ∧ calm udids (n + 1) ts
           | Some l => l ≡ₚ udids ∧ allDevicesTunneled (ut_tunnels t) l = true ∧ calm udids 0 ts
           end
  end.
(** Tunnels that are up survive failing probes: once the loop has reconciled a
    set of phones, and while the probes that succeed list those phones (in any
    order) with their tunnels up, fewer than ten in a row fail, and jobs pause
    it as they like, the destructive UpdateTunnels is not called. *)
Theorem usb_tunnels_left_alone udids s ts :
  ul_set s = deviceSetKey udids → calm udids (ul_streak s) ts → Forall (λ called, called = false) (usb_run s ts).
Proof.
  revert s. induction ts as [|t ts IH]; intros s Hset Hc; [constructor|]. cbn in Hc. cbn [usb_run].
  assert (Hone : (usb_tick s t).2 = false ∧ ul_set (usb_tick s t).1 = deviceSetKey udids ∧
    calm udids (ul_streak (usb_tick s t).1) ts).
  { unfold usb_tick. destruct (ut_paused t && ut_first t); [done|]. destruct (ut_devices t) as [l|].
    - destruct Hc as (Hp & Hall & Hc). rw (deviceSetKey_perm _ _ Hp) Hset. cbn. by rw String.eqb_refl Hall.
    - destruct Hc as [Hn Hc]. destruct (Z.ltb_spec (ul_streak s + 1) forceAfterFailures); [done|]. unfold forceAfterFailures in *. lia. }
  destruct Hone as (H1 & H2 & H3). constructor; [done|]. by apply IH.
Qed.

(** ** Stopping, and late actions *)
Module LanDefects.
Definition tick_of (usb claimed : list string) (now : Z) (paused : bool) : tick :=
  mkTick (Some (list_to_set usb)) claimed claimed now (λ _, paused) 61006 (λ _, true).
Definition opened : list llabel :=
  [LTick (tick_of [] ["U"] 0 false); LAct true; LOpened None 1; LLoaded; LAdded; LReport; LAct true].
(** Stop collects its tunnels between the open's last look at [stopped] and its
    registration: the tunnel is registered and reported after everything was
    torn down, and nothing will remove it. *)
Lemma stop_leaves_tunnel :
  (λ s, (l_reg s !! "U", l_reach s !! "U", held (l_heap s) (l_states s) "U", l_stops s)) <$>
  exec lstep newLanAgent
    [LTick (tick_of [] ["U"] 0 false); LAct true; LOpened None 1; LLoaded;
     LStop; LStopCollect 0; LStopDrop 0; LStopReport 0; LAdded; LReport; LAct true]
  = Some (Some 0, Some true, None, [SDropping []]).
Proof. by vm_compute. Qed.
(** Stop clears the tunnel of a state whose probe is still to be carried out: the probe dereferences nil *)
Lemma stop_before_probe_panics :
  l_panic <$> exec lstep newLanAgent
    (opened ++ [LTick (tick_of [] ["U"] (31 * second) false); LStop; LStopCollect 0; LAct true]) = Some true.
Proof. by vm_compute. Qed.
(** A phone released during a job loses its tunnel although the pass saw the pause flag *)
Lemma released_dropped_while_paused :
  (λ s, l_reg s !! "U") <$> exec lstep newLanAgent (opened ++ [LTick (tick_of [] [] 10 true); LAct true; LRemove]) = Some None.
Proof. by vm_compute. Qed.
End LanDefects.

Module LanWitness.
Import LanDefects.
Definition back_on_cable : list llabel := [LAct true; LRemove; LReport; LAct true].
Definition run_to (ls : list llabel) : lan := default newLanAgent (exec lstep newLanAgent ls).
Lemma lan_registry_exact_witness :
  Forall undisturbed opened ∧ l_pc (run_to opened) = PIdle ∧ l_reg (run_to opened) !! "U" = Some 0 ∧
  (∀ u, l_reg (run_to opened) !! u = held (l_heap (run_to opened)) (l_states (run_to opened)) u).
Proof.
  assert (Hok : Forall undisturbed opened).
  { repeat constructor; apply not_elem_of_nil. }
  assert (Hrun : trace_run (fun_step lstep) newLanAgent opened (run_to opened)).
  { apply exec_run. by vm_compute. }
  split; [exact Hok|]. split; [by vm_compute|]. split; [by vm_compute|].
  refine (proj1 (proj2 (lan_registry_exact opened (run_to opened) Hrun Hok) _)). by vm_compute.
Defined.
Lemma lan_pass_policy_witness :
  l_reg (run_to opened) !! "U" = Some 0 ∧
  l_reg (run_to (opened ++ LTick (tick_of ["U"] ["U"] 10 false) :: back_on_cable)) !! "U" = None.
Proof.
  split; [by vm_compute|].
  set (t := tick_of ["U"] ["U"] 10 false). set (s' := run_to _).
  assert (Hok : ∀ t, NoDup (tk_targets t) → Forall undisturbed (LTick t :: back_on_cable)).
  { intros t' Ht. by repeat constructor. }
  assert (Hnd : ∀ u : string, NoDup [u]) by (intros u; constructor; [apply not_elem_of_nil | constructor]).
  refine (proj1 (lan_pass_policy opened (run_to opened) t back_on_cable s' _ _ _ _ _ _ _) _ "U" _).
  - apply exec_run. by vm_compute.
  - repeat constructor; apply not_elem_of_nil.
  - apply exec_run. by vm_compute.
  - apply Hok, Hnd.
  - repeat constructor; by intros [].
  - by vm_compute.
  - done.
  - done.
  - set_solver.
Defined.
End LanWitness.
