(* ===== verification/HostInfo.v ===== *)
(** * HostInfo: what the node reports about its host (common/agent/editorinfo.go)

    Versions of the editors and host tools, the iOS SDK of an installed Xcode,
    and the permission modes an editor's own help confirms.  The host says
    where a command is and what running it prints ([None] when it fails); what
    it prints may depend on the environment of the node, which activating an
    Xcode changes (the state of HostTool.v).  The two regular expressions are
    given by scanners. *)
From S2P Require Import Prelude GoStrings GoPath Archive Upgrade HostTool.
From Stdlib Require Import Ascii.

(** ** The regular expressions *)
(** the digits at the head of a string, and the rest *)
Fixpoint span (P : ascii → bool) (s : string) : string * string :=
  match s with
  | "" => ("", "")
  | String c s' => if P c then let '(a, b) := span P s' in (String c a, b) else ("", s)
  end.
Definition eat (c : ascii) (s : string) : option string :=
  match s with String d s' => if Ascii.eqb c d then Some s' else None | "" => None end.
(** \d+ *)
Definition number (s : string) : option (string * string) :=
  let '(d, rest) := span is_digit s in if String.eqb d "" then None else Some (d, rest).
(** \d+\.\d+ at the head *)
Definition sdk_at (s : string) : option (string * string) :=
  '(a, r) ← number s; r ← eat "." r; '(b, r) ← number r; Some (a +:+ "." +:+ b, r).
Definition tail_char (c : ascii) : bool := is_digit c || is_lower c || is_upper c || is_code 46 c.
(** (?:[-.][0-9A-Za-z.]+)? *)
Definition tag_at (s : string) : string :=
  match s with
  | String c s' =>
      if is_code 45 c || is_code 46 c then
        let '(t, _) := span tail_char s' in if String.eqb t "" then "" else String c t
      else ""
  | "" => ""
  end.
Definition version_at (s : string) : option string :=
  '(ab, r) ← sdk_at s; r ← eat "." r; '(c, r) ← number r; Some (ab +:+ "." +:+ c +:+ tag_at r).
(** FindString: the leftmost match, "" when there is none *)
Fixpoint leftmost (at_ : string → option string) (s : string) : string :=
  match at_ s with
  | Some m => m
  | None => match s with String _ s' => leftmost at_ s' | "" => "" end
  end.
Definition versionNumberRe (s : string) : string := leftmost version_at s.
Definition iosSDKVersionRe (s : string) : string := leftmost (λ s, fst <$> sdk_at s) s.

(** ** Probing versions *)
Definition SupportedEditors : list string := ["claude"; "codex"; "gemini"; "opencode"; "cursor"; "dsh"].
Definition EditorCommandName (editor : string) : string := if String.eqb editor "cursor" then "agent" else editor.
Record ihost := mkIhost {
  ih_look : htst → string → option string;                     (** LookPath *)
  ih_run : htst → string → list string → option string;        (** CombinedOutput *)
  ih_windows : bool;
  ih_env : string → string;                                    (** os.Getenv of variables the node does not set *)
  ih_runtime : string;                                         (** ManagedRuntimeVersion *)
  ih_glob : string → list string;                              (** filepath.Glob, [] on an error *)
  ih_now : string
}.
(** the version in a command's output *)
Definition first_line (s : string) : string :=
  (span (λ c, negb (is_code 13 c || is_code 10 c)) s).1.
Definition version_text (out : string) : string :=
  let raw := TrimSpace out in
  if String.eqb raw "" then ""
  else if negb (String.eqb (versionNumberRe raw) "") then versionNumberRe raw
  else TrimSpace (first_line raw).

Section info.
Variables (ih : ihost) (h : hthost).
Definition runVersionCmd (s : htst) (exe : string) (args : list string) : string :=
  match ih_run ih s exe args with None => "" | Some out => version_text out end.
Definition under (base : string) (parts : list string) : list string :=
  if String.eqb base "" then [] else [Join (base :: parts)].
Definition wellKnownBinaryPaths (cmd : string) : list string :=
  if negb (ih_windows ih) then []
  else
    let c := ToLower cmd in
    let pf := ih_env ih "ProgramFiles" in
    let pf86 := ih_env ih "ProgramFiles(x86)" in
    if bool_decide (c ∈ ["node"; "node.exe"]) then
      under pf ["nodejs"; "node.exe"] ++ under pf86 ["nodejs"; "node.exe"] ++ under (ih_env ih "NVM_HOME") ["node.exe"]
    else if bool_decide (c ∈ ["npm"; "npm.cmd"]) then
      under (ih_env ih "APPDATA") ["npm"; "npm.cmd"] ++ under (ih_env ih "LOCALAPPDATA") ["npm"; "npm.cmd"]
      ++ under pf ["nodejs"; "npm.cmd"] ++ under pf86 ["nodejs"; "npm.cmd"]
    else [].
Fixpoint first_version (s : htst) (args : list string) (exes : list string) : string :=
  match exes with
  | [] => ""
  | exe :: exes => let v := runVersionCmd s exe args in if negb (String.eqb v "") then v else first_version s args exes
  end.
Definition probeHostTool (s : htst) (cmd : string) (args : list string) : string :=
  match ih_look ih s cmd with
  | Some path =>
      let v := runVersionCmd s path args in
      if negb (String.eqb v "") then v else first_version s args (wellKnownBinaryPaths cmd)
  | None => first_version s args (wellKnownBinaryPaths cmd)
  end.
Definition probeCommandOutput (s : htst) (cmd : string) (args : list string) : string :=
  match ih_look ih s cmd with
  | None => ""
  | Some path => match ih_run ih s path args with None => "" | Some out => TrimSpace out end
  end.
(** every supported editor is asked with --version *)
Definition probeEditorVersion (s : htst) (editor : string) : string :=
  if negb (bool_decide (editor ∈ SupportedEditors)) then ""
  else
    let command := EditorCommandName editor in
    match ih_look ih s command with
    | None => ""
    | Some _ => match ih_run ih s command ["--version"] with None => "" | Some out => version_text out end
    end.
Definition EditorLabels (s : htst) : gmap string string :=
  foldl (λ labels editor, let v := probeEditorVersion s editor in
           if negb (String.eqb v "") then <["editor_version_" +:+ editor := v]> labels else labels) ∅ SupportedEditors.

(** ** The iOS SDK *)
(** strconv.Atoi with its error dropped: 0 on bad syntax, the nearest int on overflow *)
Definition digits_value (s : string) : Z :=
  (fix go (acc : Z) (s : string) : Z := match s with "" => acc | String c s' => go (acc * 10 + Z.of_N (code c) - 48)%Z s' end) 0%Z s.
Definition clamp64 (z : Z) : Z := Z.max (- 2 ^ 63) (Z.min (2 ^ 63 - 1) z).
Definition atoiSafe (s : string) : Z :=
  let s := TrimSpace s in
  let '(neg, body) := match s with
                      | String c s' => if is_code 45 c then (true, s') else if is_code 43 c then (false, s') else (false, s)
                      | "" => (false, "") end in
  if String.eqb body "" || negb (all_chars is_digit body) then 0%Z
  else clamp64 (if neg then - digits_value body else digits_value body)%Z.
(** the segments, as many as the longer version has, missing ones 0 *)
Fixpoint segments_after (pa pb : list string) : bool :=
  match pa, pb with
  | [], [] => false
  | a :: pa', [] => if negb (atoiSafe a =? 0)%Z then (atoiSafe a >? 0)%Z else segments_after pa' []
  | [], b :: pb' =>
      (fix go (pb : list string) : bool :=
         match pb with [] => false | b :: pb' => if negb (0 =? atoiSafe b)%Z then (0 >? atoiSafe b)%Z else go pb' end) (b :: pb')
  | a :: pa', b :: pb' =>
      if negb (atoiSafe a =? atoiSafe b)%Z then (atoiSafe a >? atoiSafe b)%Z else segments_after pa' pb'
  end.
Definition sdkVersionAfter (a b : string) : bool := segments_after (Split1 "." a) (Split1 "." b).
Fixpoint dedupe_from (seen : list string) (l : list string) : list string :=
  match l with
  | [] => []
  | x :: l => if String.eqb x "" || bool_decide (x ∈ seen) then dedupe_from seen l else x :: dedupe_from (x :: seen) l
  end.
Definition dedupeStrings (l : list string) : list string := dedupe_from [] l.
Definition candidateDeveloperDirs (s : htst) : list string :=
  let v := TrimSpace (t_developerDir s) in
  dedupeStrings ((if String.eqb v "" then [] else [v])
    ++ map (λ app, Join [app; "Contents"; "Developer"]) (discoverXcodeApps h)
    ++ ["/Applications/Xcode.app/Contents/Developer"]).
Definition best_sdk (matches : list string) : string :=
  foldl (λ best m, let v := iosSDKVersionRe (Base m) in
           if negb (String.eqb v "") && (String.eqb best "" || sdkVersionAfter v best) then v else best) "" matches.
Fixpoint sdk_in (dirs : list string) : string :=
  match dirs with
  | [] => ""
  | d :: dirs =>
      let best := best_sdk (ih_glob ih (Join [d; "Platforms"; "iPhoneOS.platform"; "Developer"; "SDKs"; "iPhoneOS*.sdk"])) in
      if negb (String.eqb best "") then best else sdk_in dirs
  end.
Definition iosSDKFromDisk (s : htst) : string := sdk_in (candidateDeveloperDirs s).
(** strings.Trim(token, "()") *)
Definition TrimParens (s : string) : string :=
  let paren c := is_code 40 c || is_code 41 c in
  string_reverse (span paren (string_reverse (span paren s).2)).2.
Definition sdk_token (token : string) : string :=
  if HasPrefix token "iphoneos" && (String.length "iphoneos" <? String.length token) then iosSDKVersionRe token else "".
Fixpoint first_token (tokens : list string) : string :=
  match tokens with
  | [] => ""
  | token :: tokens =>
      if negb (String.eqb (sdk_token token) "") then sdk_token token
      else if negb (String.eqb (sdk_token (TrimParens token)) "") then sdk_token (TrimParens token)
      else first_token tokens
  end.
Fixpoint first_sdk (lines : list string) : string :=
  match lines with
  | [] => ""
  | line :: lines =>
      if Contains line "iphonesimulator" then first_sdk lines
      else let v := first_token (Fields line) in if negb (String.eqb v "") then v else first_sdk lines
  end.
Definition parseIOSSDKFromShowsdks (out : string) : string :=
  if String.eqb out "" then "" else first_sdk (Split1 "010" out).
Definition probeIOSSDK (s : htst) : string :=
  let sdk := parseIOSSDKFromShowsdks (probeCommandOutput s "xcodebuild" ["-showsdks"]) in
  if negb (String.eqb sdk "") then sdk
  else
    let v := iosSDKVersionRe (probeCommandOutput s "xcrun" ["--sdk"; "iphoneos"; "--show-sdk-version"]) in
    if negb (String.eqb v "") then v else iosSDKFromDisk s.

(** ** The labels of the host *)
Fixpoint activate_first (apps : list string) (s : htst) : string * htst :=
  match apps with
  | [] => ("", s)
  | app :: apps =>
      let devDir := Join [app; "Contents"; "Developer"] in
      if negb (ht_exists h (Join [devDir; "usr"; "bin"; "xcodebuild"])) then activate_first apps s
      else
        let '(_, s) := activateDeveloperDir h devDir s in
        let v := probeHostTool s "xcodebuild" ["-version"] in
        if negb (String.eqb v "") then (v, s) else activate_first apps s
  end.
Definition ensureXcodebuildVisible (s : htst) : string * htst :=
  let v := probeHostTool s "xcodebuild" ["-version"] in
  if negb (String.eqb v "") then (v, s) else activate_first (discoverXcodeApps h) s.
Definition label (name v : string) (labels : gmap string string) : gmap string string :=
  if negb (String.eqb v "") then <[name := v]> labels else labels.
Definition hostTools : list (string * string * list string) :=
  [("git", "git", ["--version"]); ("node", "node", ["--version"]); ("npm", "npm", ["--version"]);
   ("runtime", "agent-compose-runtime", ["--version"]); ("ocr", "ocr", ["--version"]);
   ("xcodebuild", "xcodebuild", ["-version"])].
Definition tool_label (acc : gmap string string * htst) (tool : string * string * list string) : gmap string string * htst :=
  let '(labels, s) := acc in
  let '(suffix, cmd, args) := tool in
  if String.eqb suffix "runtime" && negb (String.eqb (ih_runtime ih) "") then
    (<["runtime_version" := ih_runtime ih]> labels, s)
  else
    let labels := label (suffix +:+ "_version") (probeHostTool s cmd args) labels in
    if String.eqb suffix "xcodebuild" then
      let '(v, s) := ensureXcodebuildVisible s in
      let labels := label "xcodebuild_version" v labels in
      (label "xcode_ios_sdk" (probeIOSSDK s) labels, s)
    else (labels, s).
Definition HostToolLabels (s : htst) : gmap string string * htst := foldl tool_label (∅, s) hostTools.

(** ** The modes of an editor *)
Record EditorModeSpec := mkMode {
  em_id : string; em_label : string; em_read : bool; em_edit : bool; em_run : bool; em_approval : bool; em_network : bool
}.
Definition modeSpec (provider id lbl : string) : EditorModeSpec :=
  mkMode id lbl true
    (negb (bool_decide (id ∈ ["plan"; "read-only"; "ask"]) || String.eqb id "default" && String.eqb provider "gemini"))
    true
    (negb (bool_decide (id ∈ ["auto"; "yolo"; "danger-full-access"; "build-auto"]) || String.eqb id "agent" && String.eqb provider "cursor"))
    true.
Definition probeCommand (s : htst) (command : string) (args : list string) : string :=
  match ih_look ih s command with
  | None => ""
  | Some _ => match ih_run ih s command args with None => "" | Some out => TrimSpace out end
  end.
Definition confirmed (provider output : string) (candidates : list string) : list EditorModeSpec :=
  if String.eqb output "" then []
  else map (λ id, modeSpec provider id id) (filter (λ id, Contains output id = true) candidates).
Definition probeNamedModes (s : htst) (provider : string) (candidates : list string) : list EditorModeSpec :=
  let args := if bool_decide (provider ∈ ["codex"; "gemini"]) then ["exec"; "--help"] else ["--help"] in
  confirmed provider (probeCommand s provider args) candidates.
Definition probeCursorModes (s : htst) : list EditorModeSpec :=
  match ih_look ih s "agent" with
  | None => []
  | Some _ => confirmed "cursor" (probeCommand s "agent" ["--help"]) ["agent"; "plan"; "ask"]
  end.
(** the name on a line of [opencode agent list], if it has one *)
Definition opencode_name (line : string) : option string :=
  let line := TrimSpace line in
  if String.eqb line "" || HasPrefix line "[" || HasPrefix line "{" then None
  else
    let name := TrimSpace (TrimSuffix line "(primary)") in
    let name := TrimSpace (TrimSuffix name "(subagent)") in
    if String.eqb name "" || negb (all_chars (λ c, negb (is_code 123 c || is_code 125 c || is_code 91 c || is_code 93 c || is_code 34 c)) name)
    then None
    else if Contains name ":" then None else Some name.
Definition probeOpenCodeModes (s : htst) : list EditorModeSpec :=
  let output := probeCommand s "opencode" ["agent"; "list"] in
  if String.eqb output "" then []
  else map (λ n, modeSpec "opencode" n n)
         (foldl (λ names line, match opencode_name line with
                               | Some n => if bool_decide (n ∈ names) then names else names ++ [n]
                               | None => names end) [] (Split1 "010" output)).
Record EditorCapability := mkCapability {
  ec_provider : string; ec_version : string; ec_status : string; ec_error : string; ec_probedAt : string;
  ec_interactive : bool; ec_modelSwitch : bool; ec_modes : list EditorModeSpec
}.
Definition editor_modes (s : htst) (provider : string) : list EditorModeSpec :=
  if String.eqb provider "opencode" then probeOpenCodeModes s
  else if String.eqb provider "claude" then probeNamedModes s provider ["default"; "plan"; "acceptEdits"; "bypassPermissions"; "auto"]
  else if String.eqb provider "codex" then probeNamedModes s provider ["read-only"; "workspace-write"; "auto"; "danger-full-access"]
  else if String.eqb provider "gemini" then probeNamedModes s provider ["default"; "auto_edit"; "yolo"]
  else if String.eqb provider "cursor" then probeCursorModes s
  else if String.eqb provider "dsh" then probeNamedModes s provider ["default"; "plan"; "full"]
  else [].
Definition capability (s : htst) (provider : string) : EditorCapability :=
  let modes := editor_modes s provider in
  let none := match modes with [] => true | _ => false end in
  mkCapability provider (probeEditorVersion s provider) (if none then "partial" else "ok")
    (if none then "no confirmed permission modes" else "") (ih_now ih) (String.eqb provider "codex") true modes.
Definition EditorCapabilities (s : htst) : list EditorCapability :=
  map (capability s) (filter (λ p, probeEditorVersion s p ≠ "") SupportedEditors).
End info.
