(* ===== verification/HostInfoProofs.v ===== *)
(** * HostInfoProofs: theorems about what the node reports

    Matches of the version expressions are leftmost substrings, SDK versions
    are compared as numbers segment by segment, the reported labels and
    capabilities agree, and the Xcode label is what probing answers in the
    environment the node is left in. *)
From S2P Require Import Prelude GoStrings GoPath Archive Upgrade HostTool HostInfo.
From Stdlib Require Import Ascii.

(** ** Matches *)
Lemma span_app P s : (span P s).1 +:+ (span P s).2 = s.
Proof. induction s as [|c s IH]; [done|]. cbn. destruct (P c); [|done]. destruct (span P s). cbn in *. by subst s. Qed.
Lemma span_all P s : all_chars P (span P s).1 = true.
Proof. induction s as [|c s IH]; [done|]. cbn. destruct (P c) eqn:E; [|done]. destruct (span P s). cbn in *. by rw E. Qed.
Lemma number_app s d r : number s = Some (d, r) → s = d +:+ r ∧ d ≠ "" ∧ all_chars is_digit d = true.
Proof.
  unfold number. pose proof (span_app is_digit s). pose proof (span_all is_digit s). destruct (span is_digit s) as [a b]. cbn in *.
  destruct (String.eqb_spec a ""); [done|]. intros [= <- <-]. auto.
Qed.
Lemma eat_app c s r : eat c s = Some r → s = String c r.
Proof. destruct s as [|d s]; [done|]. cbn. destruct (Ascii.eqb_spec c d); [|done]. intros [= <-]. congruence. Qed.
Lemma sdk_at_app s m r : sdk_at s = Some (m, r) →
  s = m +:+ r ∧ ∃ a b, m = a +:+ "." +:+ b ∧ a ≠ "" ∧ b ≠ "" ∧ all_chars is_digit a = true ∧ all_chars is_digit b = true.
Proof.
  unfold sdk_at. destruct (number s) as [[a r1]|] eqn:E1; [|done]. cbn. destruct (eat _ r1) as [r2|] eqn:E2; [|done]. cbn.
  destruct (number r2) as [[b r3]|] eqn:E3; [|done]. cbn. intros [= <- <-].
  apply number_app in E1 as (-> & ? & ?). apply eat_app in E2 as ->. apply number_app in E3 as (-> & ? & ?).
  split; [by rw -!string_app_assoc|]. by exists a, b.
Qed.
Lemma tag_at_prefix s : ∃ r, s = tag_at s +:+ r.
Proof.
  destruct s as [|c s]; [by exists ""|]. cbn. pose proof (span_app tail_char s) as Hs.
  destruct (_ || _); [|by exists (String c s)]. destruct (span tail_char s) as [a b]. cbn in Hs.
  destruct (String.eqb_spec a ""); [by exists (String c s)|]. exists b. by subst s.
Qed.
Lemma version_at_prefix s m : version_at s = Some m → ∃ r, s = m +:+ r.
Proof.
  unfold version_at. destruct (sdk_at s) as [[ab r]|] eqn:E1; [|done]. cbn. destruct (eat _ r) as [r2|] eqn:E2; [|done]. cbn.
  destruct (number r2) as [[c r3]|] eqn:E3; [|done]. cbn. intros [= <-].
  apply sdk_at_app in E1 as [-> _]. apply eat_app in E2 as ->. apply number_app in E3 as (-> & _).
  destruct (tag_at_prefix r3) as [q Hq]. exists q. rw {1}Hq. by rw -!string_app_assoc.
Qed.
(** a match is a substring, found at the first place one starts *)
Lemma leftmost_spec at_ s :
  (∀ s m, at_ s = Some m → m ≠ "" ∧ ∃ r, s = m +:+ r) → leftmost at_ s ≠ "" →
  ∃ pre post, s = pre +:+ leftmost at_ s +:+ post ∧ at_ (leftmost at_ s +:+ post) = Some (leftmost at_ s) ∧
    ∀ pre1 pre2, pre = pre1 +:+ pre2 → pre2 ≠ "" → at_ (pre2 +:+ leftmost at_ s +:+ post) = None.
Proof.
  intros Hat. induction s as [|c s IH]; intros Hne; cbn in *.
  - destruct (at_ "") as [m|] eqn:E; [|done]. destruct (Hat _ _ E) as [Hm [r Hr]]. by destruct m.
  - destruct (at_ (String c s)) as [m|] eqn:E.
    + destruct (Hat _ _ E) as [Hm [r Hr]]. exists "", r. split; [done|]. split; [congruence|].
      intros pre1 pre2 Hp Hn. by destruct pre1, pre2.
    + destruct (IH Hne) as (pre & post & Hs & Hm & Hnone). exists (String c pre), post. split; [by rw {1}Hs|].
      split; [done|]. intros [|d pre1] pre2 Hp Hn.
      { change (String c pre = pre2) in Hp. subst pre2. change (at_ (String c (pre +:+ (leftmost at_ s +:+ post))) = None). by rw -Hs. }
      change (String c pre = String d (pre1 +:+ pre2)) in Hp. injection Hp as -> ->. eauto.
Qed.

(** ** SDK versions *)
Definition segment (p : list string) (i : nat) : Z := default 0%Z (atoiSafe <$> p !! i).
(** a version comes after another when it is greater at the first segment they differ in *)
Definition lex_after (f g : nat → Z) : Prop := ∃ i, (∀ j, j < i → f j = g j) ∧ (g i < f i)%Z.
Lemma lex_after_shift f g : f 0 = g 0 → lex_after f g ↔ lex_after (λ i, f (S i)) (λ i, g (S i)).
Proof.
  intros E. split; intros (i & Heq & Hlt).
  - destruct i as [|i]; [lia|]. exists i. split; [|done]. intros j Hj. apply Heq. lia.
  - exists (S i). split; [|done]. intros [|j] Hj; [done|]. apply Heq. lia.
Qed.
Lemma lex_after_head f g : f 0 ≠ g 0 → lex_after f g ↔ (g 0%nat < f 0%nat)%Z.
Proof.
  intros E. split; [|by intros; exists 0; split; [lia|]]. intros (i & Heq & Hlt).
  destruct i as [|i]; [done|]. by destruct E; apply Heq; lia.
Qed.
Lemma segments_after_spec pa pb : segments_after pa pb = true ↔ lex_after (segment pa) (segment pb).
Proof.
  assert (step : ∀ f g (b : bool), (b = true ↔ lex_after (λ i, f (S i)) (λ i, g (S i))) →
    (if negb (f 0%nat =? g 0%nat)%Z then (f 0%nat >? g 0%nat)%Z else b) = true ↔ lex_after f g).
  { intros f g b Hb. destruct (Z.eqb_spec (f 0%nat) (g 0%nat)) as [E|E]; cbn.
    - by rw lex_after_shift.
    - rw lex_after_head //. by rw Z.gtb_lt. }
  assert (nil : ∀ f g, (∀ i, f i = g i) → ¬ lex_after f g) by (intros f g E (i & _ & Hi); rw E in Hi; lia).
  revert pb. induction pa as [|a pa IH]; intros pb.
  - induction pb as [|b pb IHb].
    + split; [done|]. intros Hl. by apply nil in Hl.
    + destruct pb as [|b' pb]; [by apply (step (segment []) (segment [b]) false)|].
      by apply (step (segment []) (segment (b :: b' :: pb)) (segments_after [] (b' :: pb))).
  - destruct pb as [|b pb].
    + apply (step (segment (a :: pa)) (segment []) (segments_after pa [])). apply IH.
    + apply (step (segment (a :: pa)) (segment (b :: pb)) (segments_after pa pb)). apply IH.
Qed.
Lemma sdk_after_irrefl v : sdkVersionAfter v v = false.
Proof.
  apply not_true_iff_false. unfold sdkVersionAfter. rw segments_after_spec. intros (i & _ & Hi). lia.
Qed.
Lemma lex_after_trans f g k : lex_after f g → lex_after g k → lex_after f k.
Proof.
  intros (i & Hi & Hlt) (j & Hj & Hlt'). destruct (decide (i < j)).
  - exists i. split; [intros x Hx; rw Hi // Hj //; lia | rw -Hj //].
  - exists j. split; [intros x Hx; rw Hi; [by apply Hj | lia]|].
    destruct (decide (i = j)) as [->|]; [lia|]. rw Hi; [done | lia].
Qed.
Lemma sdk_after_trans a b c : sdkVersionAfter a b = true → sdkVersionAfter b c = true → sdkVersionAfter a c = true.
Proof. unfold sdkVersionAfter. rw !segments_after_spec. apply lex_after_trans. Qed.
(** not after is a preorder: the comparison is of numbers *)
Lemma lex_total f g n : (∀ i, n ≤ i → f i = g i) → lex_after f g ∨ lex_after g f ∨ ∀ i, f i = g i.
Proof.
  revert f g. induction n as [|n IH]; intros f g Heq; [right; right; intros i; apply Heq; lia|].
  destruct (decide (f 0 = g 0)) as [E|E].
  - destruct (IH (λ i, f (S i)) (λ i, g (S i))) as [Hl|[Hl|Hl]]; [intros i Hi; apply Heq; lia|..].
    + left. by apply lex_after_shift.
    + right; left. by apply lex_after_shift.
    + right; right. by intros [|i].
  - destruct (decide (g 0%nat < f 0%nat)%Z); [left; by apply lex_after_head | right; left; apply lex_after_head; [done | lia]].
Qed.
Lemma sdk_not_after_trans a b c : sdkVersionAfter a b = false → sdkVersionAfter b c = false → sdkVersionAfter a c = false.
Proof.
  rw -!not_true_iff_false. unfold sdkVersionAfter. rw !segments_after_spec. intros Hab Hbc Hac.
  assert (Hz : ∀ p i, length p ≤ i → segment p i = 0%Z).
  { intros p i Hi. unfold segment. by rw (proj2 (lookup_ge_None p i) Hi). }
  set (fa := segment (Split1 "." a)) in *. set (fb := segment (Split1 "." b)) in *.
  destruct (lex_total fa fb (length (Split1 "." a) + length (Split1 "." b))) as [Hl|[Hl|Hl]].
  - intros i Hi. unfold fa, fb. rw !Hz //; lia.
  - done.
  - apply Hbc. by eapply lex_after_trans.
  - apply Hbc. destruct Hac as (i & Hi & Hlt). exists i. split; [intros j Hj; by rw -Hl Hi | by rw -Hl].
Qed.

Section best.
Lemma best_sdk_fold matches best :
  let pick := λ best m, let v := iosSDKVersionRe (Base m) in
    if negb (String.eqb v "") && (String.eqb best "" || sdkVersionAfter v best) then v else best in
  let b := foldl pick best matches in
  (b = best ∨ ∃ m, m ∈ matches ∧ b = iosSDKVersionRe (Base m)) ∧
  (best ≠ "" → b ≠ "" ∧ sdkVersionAfter best b = false) ∧
  (∀ m, m ∈ matches → iosSDKVersionRe (Base m) ≠ "" → b ≠ "" ∧ sdkVersionAfter (iosSDKVersionRe (Base m)) b = false).
Proof.
  cbn zeta. revert best. induction matches as [|m ms IH]; intros best.
  { cbn. split; [by left|]. split; [intros; split; [done | apply sdk_after_irrefl]|]. intros m Hm. by apply not_elem_of_nil in Hm. }
  cbn [foldl]. set (v := iosSDKVersionRe (Base m)).
  set (best' := if negb (String.eqb v "") && (String.eqb best "" || sdkVersionAfter v best) then v else best).
  destruct (IH best') as (Hfrom & Hkeep & Hall).
  assert (Hb' : best' = v ∧ v ≠ "" ∧ (best = "" ∨ sdkVersionAfter v best = true) ∨
                best' = best ∧ (v = "" ∨ best ≠ "" ∧ sdkVersionAfter v best = false)).
  { unfold best'. destruct (String.eqb_spec v ""); cbn; [auto|]. destruct (String.eqb_spec best ""); cbn; [auto|].
    destruct (sdkVersionAfter v best) eqn:E; auto. }
  clearbody best'. split; [|split].
  - destruct Hfrom as [->|(m' & Hm' & ->)]; [|right; exists m'; split; [by apply list_elem_of_further | done]].
    destruct Hb' as [[-> _]|[-> _]]; [right; exists m; split; [apply list_elem_of_here | done] | by left].
  - intros Hne. destruct Hb' as [(-> & Hv & [Hb|Hb])|(-> & _)]; [done| |by apply Hkeep].
    destruct (Hkeep Hv) as [Hn Ha]. split; [done|]. eapply sdk_not_after_trans; [|exact Ha].
    destruct (sdkVersionAfter best v) eqn:E2; [|done].
    pose proof (sdk_after_trans _ _ _ Hb E2) as Hc. by rw sdk_after_irrefl in Hc.
  - intros m' Hm' Hne. apply elem_of_cons in Hm' as [->|Hm']; [|by apply Hall]. fold v in Hne |- *.
    destruct Hb' as [(-> & Hv & _)|(-> & [Hv|[Hb Ha]])]; [by apply Hkeep | done|].
    destruct (Hkeep Hb) as [Hn Ha']. split; [done|]. by eapply sdk_not_after_trans.
Qed.
(** The SDK read off the disk is one that is there, and none there is newer;
    without one nothing is reported. *)
Theorem best_sdk_newest matches :
  (best_sdk matches ≠ "" → ∃ m, m ∈ matches ∧ iosSDKVersionRe (Base m) = best_sdk matches) ∧
  (∀ m, m ∈ matches → iosSDKVersionRe (Base m) ≠ "" →
     best_sdk matches ≠ "" ∧ sdkVersionAfter (iosSDKVersionRe (Base m)) (best_sdk matches) = false).
Proof.
  destruct (best_sdk_fold matches "") as (Hfrom & _ & Hall). split; [|exact Hall].
  intros Hne. destruct Hfrom as [Hb|(m & Hm & Hb)]; [done|]. by exists m.
Qed.
End best.

(** ** Labels and capabilities *)
Section reports.
Variables (ih : ihost) (h : hthost).
Lemma editor_key_inj p q : "editor_version_" +:+ p = "editor_version_" +:+ q → p = q.
Proof. intros E. cbv [String.append] in E. by injection E. Qed.
Lemma editor_labels_fold s editors (labels : gmap string string) p v :
  NoDup editors →
  foldl (λ labels editor, let v := probeEditorVersion ih s editor in
           if negb (String.eqb v "") then <["editor_version_" +:+ editor := v]> labels else labels) labels editors
    !! ("editor_version_" +:+ p) = Some v ↔
  (p ∈ editors ∧ probeEditorVersion ih s p = v ∧ v ≠ "") ∨
  ((p ∉ editors ∨ probeEditorVersion ih s p = "") ∧ labels !! ("editor_version_" +:+ p) = Some v).
Proof.
  revert labels. induction editors as [|e es IH]; intros labels Hnd; cbn [foldl].
  { split; [intros Hl; right; split; [left; apply not_elem_of_nil | done]|].
    intros [[Hin _]|[_ Hl]]; [by apply not_elem_of_nil in Hin | done]. }
  apply NoDup_cons in Hnd as [He Hnd]. rw IH //. cbn zeta. rw !elem_of_cons.
  destruct (decide (p = e)) as [->|Hne].
  - destruct (String.eqb_spec (probeEditorVersion ih s e) "") as [Ev|Ev]; cbn.
    + rw Ev. intuition congruence.
    + rw lookup_insert_eq. split; [intros [[? _]|[_ [= <-]]]; [done | auto]|].
      intros [(_ & <- & Hv)|([Hn|Hn] & _)]; [right; auto | destruct Hn; by left | done].
  - assert (Hk : "editor_version_" +:+ e ≠ "editor_version_" +:+ p) by (intros E; by apply Hne; apply editor_key_inj in E).
    destruct (negb _); [rw lookup_insert_ne //|]; intuition congruence.
Qed.
Lemma EditorLabels_lookup s p v :
  EditorLabels ih s !! ("editor_version_" +:+ p) = Some v ↔ p ∈ SupportedEditors ∧ probeEditorVersion ih s p = v ∧ v ≠ "".
Proof.
  unfold EditorLabels. rw editor_labels_fold; [|by apply (bool_decide_unpack _); vm_compute].
  rw lookup_empty. intuition congruence.
Qed.
(** every mode of an editor other than opencode, whose modes are free, is in the help it printed *)
Lemma confirmed_in_help provider output cands m :
  m ∈ confirmed provider output cands → em_id m ∈ cands ∧ Contains output (em_id m) = true ∧ m = modeSpec provider (em_id m) (em_id m).
Proof.
  unfold confirmed. destruct (String.eqb output ""); [by intros Hm; apply not_elem_of_nil in Hm|].
  intros Hm. apply list_elem_of_fmap in Hm as (id & -> & Hid). apply list_elem_of_filter in Hid as [Hc Hid]. done.
Qed.

(** The editors a node advertises are exactly the
    supported ones whose CLI is there and answers a version, in their fixed
    order; the version labels are those of the same editors with the same
    versions and no others; an editor is "partial" exactly when no permission
    mode could be confirmed; and outside opencode every advertised mode is one
    of the known modes and occurs in the help the CLI printed. *)
Theorem editor_report_exact s :
  map ec_provider (EditorCapabilities ih s) = filter (λ p, probeEditorVersion ih s p ≠ "") SupportedEditors ∧
  (∀ p v, EditorLabels ih s !! ("editor_version_" +:+ p) = Some v ↔
     ∃ c, c ∈ EditorCapabilities ih s ∧ ec_provider c = p ∧ ec_version c = v) ∧
  (∀ c, c ∈ EditorCapabilities ih s →
     (ec_status c = "partial" ↔ ec_modes c = []) ∧
     (ec_provider c ≠ "opencode" → ∀ m, m ∈ ec_modes c →
        ∃ args out, probeCommand ih s (EditorCommandName (ec_provider c)) args = out ∧ Contains out (em_id m) = true ∧
          m = modeSpec (ec_provider c) (em_id m) (em_id m))).
Proof.
  assert (Hcaps : ∀ c, c ∈ EditorCapabilities ih s ↔
    ∃ p, p ∈ SupportedEditors ∧ probeEditorVersion ih s p ≠ "" ∧ c = capability ih s p).
  { intros c. unfold EditorCapabilities. rw list_elem_of_fmap. split.
    - intros (p & -> & Hp). apply list_elem_of_filter in Hp as [Hv Hp]. eauto.
    - intros (p & Hp & Hv & ->). exists p. rw list_elem_of_filter. auto. }
  split; [|split].
  - unfold EditorCapabilities. rw map_map. apply map_id.
  - intros p v. rw EditorLabels_lookup. split.
    + intros (Hp & Hv & Hne). exists (capability ih s p). rw Hcaps. split; [|done]. exists p. by rw Hv.
    + intros (c & Hc & <- & <-). apply Hcaps in Hc as (p & Hp & Hv & ->). done.
  - intros c Hc. apply Hcaps in Hc as (p & Hp & _ & ->). split.
    + cbn. by destruct (editor_modes ih s p).
    + cbn. intros Hno m Hm. unfold editor_modes in Hm.
      destruct (String.eqb_spec p "opencode"); [done|].
      assert (Hnamed : ∀ p cands, EditorCommandName p = p → m ∈ probeNamedModes ih s p cands →
        ∃ args out, probeCommand ih s (EditorCommandName p) args = out ∧ Contains out (em_id m) = true ∧ m = modeSpec p (em_id m) (em_id m)).
      { intros p' cands Ep Hm'. unfold probeNamedModes in Hm'. apply confirmed_in_help in Hm' as (_ & Hc & E).
        rw Ep. eexists _, _. by split. }
      destruct (String.eqb_spec p "claude") as [->|]; [by eapply Hnamed|].
      destruct (String.eqb_spec p "codex") as [->|]; [by eapply Hnamed|].
      destruct (String.eqb_spec p "gemini") as [->|]; [by eapply Hnamed|].
      destruct (String.eqb_spec p "cursor") as [->|].
      { unfold probeCursorModes in Hm. destruct (ih_look ih s "agent"); [|by apply not_elem_of_nil in Hm].
        apply confirmed_in_help in Hm as (_ & Hc & E). eexists _, _. by split. }
      destruct (String.eqb_spec p "dsh") as [->|]; [by eapply Hnamed|].
      by apply not_elem_of_nil in Hm.
Qed.

(** ** Xcode *)
Lemma activate_first_probe apps s v s' :
  probeHostTool ih s "xcodebuild" ["-version"] = "" → activate_first ih h apps s = (v, s') →
  probeHostTool ih s' "xcodebuild" ["-version"] = v.
Proof.
  revert s. induction apps as [|app apps IH]; intros s Hs; cbn -[Join]; [by intros [= <- <-]|].
  destruct (negb (ht_exists h _)); [by apply IH|].
  destruct (activateDeveloperDir h _ s) as [how s1]. destruct (String.eqb_spec (probeHostTool ih s1 "xcodebuild" ["-version"]) "") as [E|E].
  - cbn. by apply IH.
  - by intros [= <- <-].
Qed.
Lemma ensure_probe s v s' :
  ensureXcodebuildVisible ih h s = (v, s') → probeHostTool ih s' "xcodebuild" ["-version"] = v.
Proof.
  unfold ensureXcodebuildVisible. destruct (String.eqb_spec (probeHostTool ih s "xcodebuild" ["-version"]) "") as [E|E].
  - cbn. by apply activate_first_probe.
  - by intros [= <- <-].
Qed.
Lemma label_lookup name v labels k :
  label name v labels !! k = if negb (String.eqb v "") && bool_decide (name = k) then Some v else labels !! k.
Proof.
  unfold label. destruct (negb _); [|done]. cbn. case_bool_decide as E; [subst; apply lookup_insert_eq | by rw lookup_insert_ne].
Qed.
Lemma tool_label_other labels s suffix cmd args :
  String.eqb suffix "xcodebuild" = false → suffix +:+ "_version" ≠ "xcodebuild_version" →
  ∃ labels', tool_label ih h (labels, s) (suffix, cmd, args) = (labels', s) ∧
    labels' !! "xcodebuild_version" = labels !! "xcodebuild_version".
Proof.
  intros Hs Hk. unfold tool_label. rw Hs. destruct (_ && _); eexists; (split; [done|]).
  - by rw lookup_insert_ne.
  - rw label_lookup bool_decide_false //. by rw andb_false_r.
Qed.
(** The label of Xcode is what xcodebuild answers in the environment the
    labelling leaves behind: it is there exactly when that xcodebuild runs. *)
Theorem xcode_label_current s labels s' :
  HostToolLabels ih h s = (labels, s') →
  labels !! "xcodebuild_version" =
    let v := probeHostTool ih s' "xcodebuild" ["-version"] in if String.eqb v "" then None else Some v.
Proof.
  unfold HostToolLabels, hostTools. cbn [foldl].
  destruct (tool_label_other ∅ s "git" "git" ["--version"]) as (l1 & -> & E1); [done..|].
  destruct (tool_label_other l1 s "node" "node" ["--version"]) as (l2 & -> & E2); [done..|].
  destruct (tool_label_other l2 s "npm" "npm" ["--version"]) as (l3 & -> & E3); [done..|].
  destruct (tool_label_other l3 s "runtime" "agent-compose-runtime" ["--version"]) as (l4 & -> & E4); [done..|].
  destruct (tool_label_other l4 s "ocr" "ocr" ["--version"]) as (l5 & -> & E5); [done..|].
  assert (Hnone : l5 !! "xcodebuild_version" = None) by (rw E5 E4 E3 E2 E1; apply lookup_empty).
  unfold tool_label. destruct (ensureXcodebuildVisible ih h s) as [v s1] eqn:E.
  pose proof (ensure_probe _ _ _ E) as Hv. cbn [String.eqb Ascii.eqb Bool.eqb andb].
  intros [= <- <-]. rw !label_lookup Hv. cbn zeta. rw (bool_decide_false ("xcode_ios_sdk" = "xcodebuild_version")) //.
  rw andb_false_r !bool_decide_true // !andb_true_r.
  destruct (String.eqb_spec v "") as [Ev|Ev]; cbn; [|done].
  unfold ensureXcodebuildVisible in E. destruct (String.eqb_spec (probeHostTool ih s "xcodebuild" ["-version"]) ""); [done|].
  cbn in E. congruence.
Qed.
End reports.

(** ** Defects *)
Module InfoDefects.
(** "auto", which needs no approval, is confirmed by a help text that only says "automatically" *)
Lemma auto_confirmed_by_automatically :
  map (λ m, (em_id m, em_approval m)) (confirmed "codex" "Options: --json  print events, closes automatically" ["auto"; "danger-full-access"])
  = [("auto", false)].
Proof. by vm_compute. Qed.
(** claude's mode without permission checks is described as asking for approval, dsh's full mode too *)
Lemma bypass_requires_approval :
  em_approval (modeSpec "claude" "bypassPermissions" "bypassPermissions") = true ∧ em_approval (modeSpec "dsh" "full" "full") = true.
Proof. done. Qed.
End InfoDefects.
