(* ===== verification/HostCommands.v ===== *)
(** * HostCommands: running a command on the host (common/agent/host_exec.go),
    and installing an editor (execution/editormgmt.go)

    A process is what it writes and how it ends; the host answers that for a
    command line.  Output is kept in capped buffers, written in the pieces the
    process writes. *)
From S2P Require Import Prelude GoStrings EditorConfig Upgrade HostTool HostInfo.
From Stdlib Require Import Ascii.

(** ** Capped output *)
Record cappedBuffer := mkCapped { cb_buf : string; cb_max : Z }.
(** what a write leaves; it always reports the whole piece as written *)
Definition Write (b : cappedBuffer) (p : string) : cappedBuffer :=
  if (cb_max b <=? 0)%Z then b
  else
    let remaining := (cb_max b - blen (cb_buf b))%Z in
    if (remaining >? 0)%Z then
      if (blen p >? remaining)%Z then mkCapped (cb_buf b +:+ take_bytes (Z.to_nat remaining) p) (cb_max b)
      else mkCapped (cb_buf b +:+ p) (cb_max b)
    else b.
Definition truncated (b : cappedBuffer) : bool := (cb_max b >? 0)%Z && (blen (cb_buf b) >=? cb_max b)%Z.
Definition capture (max : Z) (writes : list string) : cappedBuffer := foldl Write (mkCapped "" max) writes.

(** ** RunHostExec *)
Definition millisecond : Z := 10 ^ 6.
Definition defaultHostExecTimeout : Z := 2 * 60 * 10 ^ 9.
Definition maxHostExecTimeout : Z := 10 * 60 * 10 ^ 9.
Definition defaultHostExecOutput : Z := 1024 * 1024.
Definition maxHostExecOutput : Z := 16 * 1024 * 1024.
Record NodeHostExecRequest := mkExecRequest {
  xq_id : string; xq_command : string; xq_cwd : string;
  xq_timeoutMs : Z; xq_maxOutput : Z                       (** uint32 *)
}.
Record NodeHostExecResult := mkExecResult {
  xs_id : string; xs_exit : Z; xs_success : bool; xs_stdout : string; xs_stderr : string;
  xs_outCut : bool; xs_errCut : bool; xs_error : string
}.
Definition exec_timeout (req : NodeHostExecRequest) : Z :=
  let t := (xq_timeoutMs req * millisecond)%Z in
  let t := if (t <=? 0)%Z then defaultHostExecTimeout else t in
  if (t >? maxHostExecTimeout)%Z then maxHostExecTimeout else t.
Definition exec_max (req : NodeHostExecRequest) : Z :=
  let m := xq_maxOutput req in
  let m := if (m <=? 0)%Z then defaultHostExecOutput else m in
  if (m >? maxHostExecOutput)%Z then maxHostExecOutput else m.
(** how cmd.Run ended, the state of its context with it; a shell that a signal
    ends has no exit code of its own, and ExitCode gives -1 *)
Inductive run_end := EndOk | EndTimeout | EndCanceled | EndExit (code : Z) | EndSignal | EndOther (msg : string).
Record exec_host := mkExecHost {
  xh_windows : bool; xh_home : string;
  (** argv, directory, deadline; the pieces written to stdout and stderr *)
  xh_run : list string → string → Z → list string * list string * run_end
}.
Definition exec_argv (h : exec_host) (command : string) : list string :=
  if xh_windows h then ["cmd.exe"; "/D"; "/S"; "/C"; command] else ["/bin/sh"; "-c"; command].
Definition RunHostExec (h : exec_host) (req : NodeHostExecRequest) : NodeHostExecResult :=
  let command := TrimSpace (xq_command req) in
  if String.eqb command "" then mkExecResult (xq_id req) (-1) false "" "" false false "command is required"
  else
    let max := exec_max req in
    let cwd := TrimSpace (xq_cwd req) in
    let cwd := if String.eqb cwd "" then xh_home h else cwd in
    let '(outs, errs, ended) := xh_run h (exec_argv h command) cwd (exec_timeout req) in
    let stdout := capture max outs in
    let stderr := capture max errs in
    let result := mkExecResult (xq_id req) in
    let finish code ok err := result code ok (cb_buf stdout) (cb_buf stderr) (truncated stdout) (truncated stderr) err in
    match ended with
    | EndOk => finish 0%Z true ""
    | EndTimeout => finish (-1)%Z false "timeout"
    | EndCanceled => finish (-1)%Z false "canceled"
    | EndExit code => finish (int32_of code) false ""
    | EndSignal => finish (int32_of (-1)) false ""
    | EndOther msg => finish (-1)%Z false msg
    end.

(** ** Editors *)
Record editorInstallSpec := mkInstall {
  ei_npmPackage : string; ei_npmTag : string; ei_selfUpgrade : list string; ei_manualInstall : string
}.
Definition cursor_hint : string :=
  "run the official installer: " +:+ dquote +:+ "curl https://cursor.com/install -fsS | bash" +:+ dquote
  +:+ " (Windows: irm 'https://cursor.com/install?win32=true' | iex)".
Definition editorInstallSpecs (key : string) : option editorInstallSpec :=
  if String.eqb key "claude" then Some (mkInstall "@anthropic-ai/claude-code" "" ["update"] "")
  else if String.eqb key "opencode" then Some (mkInstall "opencode-ai" "" ["upgrade"] "")
  else if String.eqb key "codex" then Some (mkInstall "@openai/codex" "" [] "")
  else if String.eqb key "gemini" then Some (mkInstall "@google/gemini-cli" "" [] "")
  else if String.eqb key "dsh" then Some (mkInstall "@deepseek-ai/dsh" "next" [] "")
  else if String.eqb key "cursor" then Some (mkInstall "" "" ["update"] cursor_hint)
  else if String.eqb key "ocr" then Some (mkInstall "@alibaba-group/open-code-review" "" [] "")
  else None.
Definition npmBinary (windows : bool) : string := if windows then "npm.cmd" else "npm".
Definition normalizeEditor (name : string) : option string :=
  let key := normalizeProvider name in
  match editorInstallSpecs key with
  | Some _ => Some key
  | None => if String.eqb key "ocr" then Some "ocr" else None
  end.
Definition tail_max : nat := 400.
Definition tailOutput (s : string) : string :=
  let s := TrimSpace s in
  if String.length s <=? tail_max then s else "…" +:+ drop_bytes (String.length s - tail_max) s.

(** LookPath, and what a command prints and the error it ends with, after so many commands were run *)
Record editor_host := mkEditorHost {
  eh_windows : bool; eh_look : nat → string → result string;
  eh_exec : nat → string → list string → string * option string;
  eh_version : nat → string → string                        (** probeVersion *)
}.
Section editors.
Variables (quote_rune : string → string) (h : editor_host).
Definition editorCommand (n : nat) (editor : string) (spec : editorInstallSpec) (upgrade installed : bool) :
    result (string * list string) :=
  if upgrade && installed && negb (match ei_selfUpgrade spec with [] => true | _ => false end) then
    match eh_look h n (EditorCommandName editor) with
    | Err e => Err ("locate " +:+ editor +:+ ": " +:+ e)
    | Ok resolved => Ok (resolved, ei_selfUpgrade spec)
    end
  else if String.eqb (ei_npmPackage spec) "" then
    if negb (String.eqb (ei_manualInstall spec) "")
    then Err ("editor " +:+ editor +:+ " has no automatic install: " +:+ ei_manualInstall spec)
    else Err ("editor " +:+ editor +:+ " has no install method configured")
  else
    match eh_look h n (npmBinary (eh_windows h)) with
    | Err e => Err ("npm is required to install " +:+ editor +:+ " but was not found on PATH: " +:+ e)
    | Ok npm =>
        let tag := if String.eqb (ei_npmTag spec) "" then "latest" else ei_npmTag spec in
        Ok (npm, ["install"; "-g"; ei_npmPackage spec +:+ "@" +:+ tag])
    end.
(** the outcome, and the commands run *)
Definition manageEditor (name : string) (upgrade : bool) : result string * list (string * list string) :=
  match normalizeEditor name with
  | None => (Err ("unsupported editor " +:+ q quote_rune name +:+ " (supported: " +:+ concat_sep ", " SupportedEditors +:+ ")"), [])
  | Some editor =>
          let spec := default (mkInstall "" "" [] "") (editorInstallSpecs editor) in
          let installed := is_ok (eh_look h 0 (EditorCommandName editor)) in
          if upgrade && negb installed then (Err ("editor " +:+ editor +:+ " is not installed; install it first"), [])
          else if negb upgrade && installed then (Ok (eh_version h 0 editor), [])
          else
            match editorCommand 0 editor spec upgrade installed with
            | Err e => (Err e, [])
            | Ok (bin, args) =>
                let '(out, err) := eh_exec h 0 bin args in
                match err with
                | Some e => (Err (bin +:+ " " +:+ concat_sep " " args +:+ " failed: " +:+ e +:+ ": " +:+ tailOutput out), [(bin, args)])
                | None => (Ok (eh_version h 1 editor), [(bin, args)])
                end
            end
  end.
End editors.
