(* ===== verification/HostCommandsProofs.v ===== *)
(** * HostCommandsProofs: theorems about commands run on the host

    The capped buffer refines "the first bytes of everything written", from
    which the result of a command follows; then the commands an editor
    installation runs. *)
From S2P Require Import Prelude GoStrings EditorConfig Upgrade HostTool HostInfo HostCommands.
From Stdlib Require Import Ascii.

(** ** The capped buffer *)
Fixpoint written (writes : list string) : string := match writes with [] => "" | w :: ws => w +:+ written ws end.
Lemma take_bytes_append n a b : take_bytes n (a +:+ b) = take_bytes n a +:+ take_bytes (n - String.length a) b.
Proof.
  revert n. induction a as [|c a IH]; intros n.
  - change ("" +:+ b) with b. cbn [String.length]. rw Nat.sub_0_r. by destruct n.
  - destruct n as [|n]; [done|]. change (String c a +:+ b) with (String c (a +:+ b)). cbn. by rw IH.
Qed.
Lemma take_bytes_whole n s : String.length s ≤ n → take_bytes n s = s.
Proof. revert n. induction s as [|c s IH]; intros [|n] Hn; cbn in *; try done; [lia|]. rw IH; [done | lia]. Qed.
Lemma take_bytes_0 s : take_bytes 0 s = "". Proof. by destruct s. Qed.
(** a write appends what still fits *)
Lemma Write_spec buf max p : (0 < max)%Z → (blen buf ≤ max)%Z →
  Write (mkCapped buf max) p = mkCapped (buf +:+ take_bytes (Z.to_nat max - String.length buf) p) max.
Proof.
  intros Hm Hb. unfold Write, blen in *. cbn. destruct (Z.leb_spec max 0); [lia|].
  destruct (Z.gtb_spec (max - Z.of_nat (String.length buf)) 0).
  - destruct (Z.gtb_spec (Z.of_nat (String.length p)) (max - Z.of_nat (String.length buf))).
    + by replace (Z.to_nat (max - Z.of_nat (String.length buf))) with (Z.to_nat max - String.length buf) by lia.
    + rw take_bytes_whole; [done | lia].
  - replace (Z.to_nat max - String.length buf) with 0 by lia. rw take_bytes_0. f_equal. symmetry. apply string_app_nil_r.
Qed.
Lemma capture_spec max writes : (0 < max)%Z → capture max writes = mkCapped (take_bytes (Z.to_nat max) (written writes)) max.
Proof.
  intros Hm. unfold capture.
  assert (Hgo : ∀ sofar, foldl Write (mkCapped (take_bytes (Z.to_nat max) sofar) max) writes
    = mkCapped (take_bytes (Z.to_nat max) (sofar +:+ written writes)) max).
  { induction writes as [|w ws IH]; intros sofar; cbn [foldl written]; [by rw string_app_nil_r|].
    rw Write_spec //; [|unfold blen; rw length_take_bytes; lia].
    rw string_app_assoc -IH. do 2 f_equal. rw take_bytes_append length_take_bytes. f_equal. f_equal. lia. }
  specialize (Hgo ""). by rw take_bytes_whole in Hgo; [|cbn; lia].
Qed.
Lemma exec_max_bounds req : (0 < exec_max req ≤ maxHostExecOutput)%Z.
Proof. unfold exec_max, defaultHostExecOutput, maxHostExecOutput. repeat case_match; lia. Qed.
(** the value a request asks for, or the default when it asks for none, cut at the limit *)
Definition limited (asked default limit : Z) : Z := if (0 <? asked)%Z then Z.min asked limit else default.
Lemma exec_max_limited req : exec_max req = limited (xq_maxOutput req) (2 ^ 20) (2 ^ 24).
Proof. unfold exec_max, limited, defaultHostExecOutput, maxHostExecOutput. repeat case_match; lia. Qed.
Lemma exec_timeout_limited req : exec_timeout req = (millisecond * limited (xq_timeoutMs req) 120000 600000)%Z.
Proof. unfold exec_timeout, limited, defaultHostExecTimeout, maxHostExecTimeout, millisecond. repeat case_match; lia. Qed.

(** a stream of the result: the first bytes of what was written, flagged when it reached the cap *)
Definition kept (max : Z) (writes : list string) (shown : string) (cut : bool) : Prop :=
  shown = take_bytes (Z.to_nat max) (written writes) ∧ (blen shown ≤ max)%Z ∧ (cut = false → shown = written writes).
Lemma capture_kept max writes : (0 < max)%Z → kept max writes (cb_buf (capture max writes)) (truncated (capture max writes)).
Proof.
  intros Hm. unfold kept, truncated. rw capture_spec //. cbn. split; [done|].
  unfold blen. rw length_take_bytes. split; [lia|]. destruct (Z.gtb_spec max 0); [cbn|lia].
  intros Hc. destruct (Z.geb_spec (Z.of_nat (Nat.min (Z.to_nat max) (String.length (written writes)))) max); [done|].
  apply take_bytes_whole. lia.
Qed.

(** C36: The shell of a host command runs with a deadline: the milliseconds
    asked for, two minutes when none are, never more than ten minutes.  The
    result shows of each stream the first bytes written, whatever pieces it was
    written in, up to the cap asked for, 1 MiB when none is, never more than 16
    MiB; a stream not flagged as truncated is complete.  The result carries the
    request's id, and success exactly when the shell ended well; its exit code
    is then 0, the shell's own when it failed, and -1 when a signal ended it,
    none of these with a reason; it is -1 with the reason when the command is
    empty, cannot run, or its context ended.  An empty command runs nothing and
    shows nothing. *)
Theorem host_exec_result h req :
  let r := RunHostExec h req in
  let argv := exec_argv h (TrimSpace (xq_command req)) in
  let cwd := if String.eqb (TrimSpace (xq_cwd req)) "" then xh_home h else TrimSpace (xq_cwd req) in
  let deadline := (millisecond * limited (xq_timeoutMs req) 120000 600000)%Z in
  let cap := limited (xq_maxOutput req) (2 ^ 20) (2 ^ 24) in
  if String.eqb (TrimSpace (xq_command req)) ""
  then r = mkExecResult (xq_id req) (-1) false "" "" false false "command is required"
  else
    let '(outs, errs, ended) := xh_run h argv cwd deadline in
    xs_id r = xq_id req ∧
    kept cap outs (xs_stdout r) (xs_outCut r) ∧ kept cap errs (xs_stderr r) (xs_errCut r) ∧
    (xs_success r = true ↔ ended = EndOk) ∧
    match ended with
    | EndOk => xs_exit r = 0%Z ∧ xs_error r = ""
    | EndExit code => xs_exit r = int32_of code ∧ xs_error r = ""
    | EndSignal => xs_exit r = (-1)%Z ∧ xs_error r = ""
    | EndTimeout => xs_exit r = (-1)%Z ∧ xs_error r = "timeout"
    | EndCanceled => xs_exit r = (-1)%Z ∧ xs_error r = "canceled"
    | EndOther msg => xs_exit r = (-1)%Z ∧ xs_error r = msg
    end.
Proof.
  pose proof (exec_max_bounds req) as Hm.
  cbn zeta. rw -exec_timeout_limited -exec_max_limited. unfold RunHostExec.
  destruct (String.eqb (TrimSpace (xq_command req)) ""); [done|].
  destruct (xh_run _ _ _ _) as [[outs errs] ended].
  pose proof (capture_kept (exec_max req) outs ltac:(lia)). pose proof (capture_kept (exec_max req) errs ltac:(lia)).
  destruct ended; cbn; do 3 (split; [assumption || reflexivity|]); (split; [by split | done]).
Qed.
(** Output of exactly the cap is flagged as truncated although nothing was cut *)
Lemma exact_output_flagged :
  let h := mkExecHost false "/root" (λ _ _ _, (["abcd"], [], EndOk)) in
  let r := RunHostExec h (mkExecRequest "1" "echo" "" 0 4) in
  xs_stdout r = "abcd" ∧ xs_outCut r = true.
Proof. by vm_compute. Qed.

(** ** Editors *)
Section editors.
Variables (quote_rune : string → string) (h : editor_host).
Definition present (editor : string) : bool := is_ok (eh_look h 0 (EditorCommandName editor)).
(** Managing an editor runs at most one command, and none when there is
    nothing to do: an installed editor is not installed again, a missing one
    is not upgraded, an unknown one is refused.  Success means the editor was
    there already or the command that was run succeeded, and carries the
    version found afterwards. *)
Theorem manage_editor_outcome name upgrade r cmds :
  manageEditor quote_rune h name upgrade = (r, cmds) →
  length cmds ≤ 1 ∧
  match r with
  | Ok v => ∃ editor, normalizeEditor name = Some editor ∧
      (upgrade = false ∧ present editor = true ∧ cmds = [] ∧ v = eh_version h 0 editor ∨
       ∃ bin args, cmds = [(bin, args)] ∧ (eh_exec h 0 bin args).2 = None ∧ v = eh_version h 1 editor ∧
         upgrade = present editor)
  | Err _ => ∀ bin args, (bin, args) ∈ cmds → (eh_exec h 0 bin args).2 ≠ None
  end.
Proof.
  unfold manageEditor. destruct (normalizeEditor name) as [editor|]; [|intros [= <- <-]; split; [cbn; lia|]; set_solver].
  fold (present editor). destruct upgrade, (present editor) eqn:Hp; cbn [andb negb].
  2:{ intros [= <- <-]. split; [cbn; lia | set_solver]. }
  2:{ intros [= <- <-]. split; [cbn; lia|]. exists editor. split; [done|]. by left. }
  all: destruct (editorCommand _ _ _ _ _ _) as [[bin args]|e]; [|intros [= <- <-]; split; [cbn; lia | set_solver]].
  all: destruct (eh_exec h 0 bin args) as [out [e|]] eqn:E; intros [= <- <-]; (split; [done|]).
  1,3: intros bin' args' Hin; apply list_elem_of_singleton in Hin as [= -> ->]; by rw E.
  all: exists editor; split; [done|]; right; exists bin, args; by rw E.
Qed.
End editors.
