(* ===== verification/Launch.v ===== *)
(** * Launch: execution nodes started by a management node (management/launch.go)

    The table of launches and what starts and stops an execution node.  Every
    command runs in a goroutine of its own: a creation launches, then enters
    its handle into the table and acknowledges; a deletion takes the handle out
    of the table, then stops the node and acknowledges.  A label of [lstep] is
    one of these parts.  The daemon answers each command; a container name it
    already has is refused, as docker does. *)
From S2P Require Import Prelude GoStrings.
From Stdlib Require Import Ascii.

Inductive NodeStartupMethod := STARTUP_STANDALONE | STARTUP_SYSTEMD | STARTUP_DOCKER | STARTUP_DOCKER_COMPOSE | STARTUP_OTHER (n : Z).
Record NodeCreateExecutionNode := mkCreateNode {
  cn_LaunchId : string; cn_ServerUrl : string; cn_NodeId : string; cn_Secret : string; cn_NodeName : string;
  cn_StartupMethod : NodeStartupMethod; cn_GuestImage : string; cn_Env : list (string * string)
}.
Record launchOptions := mkLaunchOptions { lo_server : string; lo_agentImage : string; lo_executionBin : string }.
Record launchHandle := mkHandle { lh_method : string; lh_containerName : string; lh_composeDir : string; lh_unitName : string }.
#[export] Instance launchHandle_eq_dec : EqDecision launchHandle. Proof. solve_decision. Defined.

Definition nodeStartupMethodString (m : NodeStartupMethod) : string :=
  match m with
  | STARTUP_STANDALONE => "standalone" | STARTUP_SYSTEMD => "systemd" | STARTUP_DOCKER => "docker"
  | STARTUP_DOCKER_COMPOSE => "docker-compose" | STARTUP_OTHER _ => ""
  end.
Definition launch_char (c : ascii) : bool := is_lower c || is_upper c || is_digit c || is_code 45 c || is_code 95 c.
Fixpoint launch_runes (rs : list rune) : string :=
  match rs with
  | [] => ""
  | RAscii c :: rs => String (if launch_char c then c else "-"%char) (launch_runes rs)
  | _ :: rs => String "-" (launch_runes rs)
  end.
Definition sanitizeLaunchName (id : string) : string :=
  if String.eqb id "" then "node"
  else let out := TrimChar "-" (launch_runes (runes id)) in if String.eqb out "" then "node" else out.

(** ** The host *)
Inductive run_answer := RunOk | RunFailed (output : string) (created : bool).   (** docker run; what a failed one leaves *)
Record lhost := mkLhost {
  lw_lookPath : string → result string;
  lw_start : option string                                   (** cmd.Start of a standalone node *)
}.
Definition container_of (spec : NodeCreateExecutionNode) : string :=
  "agent-compose-exec-" +:+ sanitizeLaunchName (TrimSpace (cn_LaunchId spec)).
Definition docker_args (container serverURL nodeID secret image name : string) (env : list (string * string)) : list string :=
  ["run"; "-d"; "--name"; container; "--restart"; "always"; "-v"; "/var/run/docker.sock:/var/run/docker.sock";
   "-e"; "AGENT_COMPOSE_SERVER=" +:+ serverURL; "-e"; "AGENT_COMPOSE_NODE_ID=" +:+ nodeID;
   "-e"; "AGENT_COMPOSE_NODE_SECRET=" +:+ secret; "-e"; "AGENT_COMPOSE_NODE_MANAGED=1";
   "-e"; "AGENT_COMPOSE_NODE_ROLE=execution"; "-e"; "AGENT_COMPOSE_AGENT_IMAGE=" +:+ image]
  ++ (if String.eqb name "" then [] else ["-e"; "AGENT_COMPOSE_NODE_NAME=" +:+ name])
  ++ concat (map (λ item, let k := TrimSpace item.1 in if String.eqb k "" then [] else ["-e"; k +:+ "=" +:+ item.2]) env)
  ++ [image].
(** a command that was run: program and arguments *)
Definition command : Type := string * list string.
Section launch.
Variables (opts : launchOptions) (h : lhost).
Definition docker_image (spec : NodeCreateExecutionNode) : string :=
  let image := TrimSpace (cn_GuestImage spec) in if String.eqb image "" then lo_agentImage opts else image.
(** what launching comes down to before a command is run: the command and its handle *)
Definition plan_docker (spec : NodeCreateExecutionNode) (serverURL nodeID secret name : string) : result (command * launchHandle) :=
  match lw_lookPath h "docker" with
  | Err e => Err ("create execution node: docker not found on management node: " +:+ e)
  | Ok _ =>
      let image := docker_image spec in
      if String.eqb image ""
      then Err "create execution node: no agent image configured (set --agent-image or spec guest_image)"
      else
        let container := container_of spec in
        Ok (("docker", docker_args container serverURL nodeID secret image name (cn_Env spec)), mkHandle "docker" container "" "")
  end.
(** the candidates of a standalone node; the last error when none is found *)
Fixpoint look_first (candidates : list string) (err : option string) : result string :=
  match candidates with
  | [] => match err with None => Ok "" | Some e => Err e end
  | c :: rest => match lw_lookPath h c with Ok bin => Ok bin | Err e => look_first rest (Some e) end
  end.
Definition plan_standalone (serverURL nodeID secret name : string) : result (command * launchHandle) :=
  let bin := TrimSpace (lo_executionBin opts) in
  match (if String.eqb bin "" then look_first ["node-execution"; "agent-compose-node-execution"] None else Ok bin) with
  | Err e => Err ("create execution node: execution binary not configured (set --execution-bin) and not found on PATH: " +:+ e)
  | Ok bin =>
      Ok ((bin, ["--managed"; "--server"; serverURL; "--node-id"; nodeID; "--secret"; secret]
                ++ (if String.eqb name "" then [] else ["--name"; name])), mkHandle "standalone" "" "" "")
  end.
Definition launchExecutionNode (spec : NodeCreateExecutionNode) : result (command * launchHandle) :=
  let serverURL := let u := TrimSpace (cn_ServerUrl spec) in if String.eqb u "" then lo_server opts else u in
  let nodeID := TrimSpace (cn_NodeId spec) in
  let secret := TrimSpace (cn_Secret spec) in
  if String.eqb nodeID "" || String.eqb secret ""
  then Err "create execution node: node credential (node_id+secret) is required"
  else
    let method := nodeStartupMethodString (cn_StartupMethod spec) in
    let name := TrimSpace (cn_NodeName spec) in
    if String.eqb method "docker" || String.eqb method "docker-compose" then plan_docker spec serverURL nodeID secret name
    else if String.eqb method "systemd"
    then Err "create execution node: systemd launch is not supported from a containerized management node; use the docker method"
    else plan_standalone serverURL nodeID secret name.

(** ** The table and the goroutines *)
Inductive ljob :=
| JPut (frame launchID : string) (handle : launchHandle)        (** launched, not entered yet *)
| JStop (frame : string) (handle : launchHandle).               (** taken out, not stopped yet *)
Record lsys := mkLsys {
  l_handles : gmap string launchHandle;
  l_containers : list string;                                   (** the containers of this node, by name *)
  l_processes : list command;
  l_jobs : list ljob;
  l_acks : list (string * option string)
}.
#[export] Instance eta_lsys : Settable lsys :=
  λ s, mkLsys (l_handles s) (l_containers s) (l_processes s) (l_jobs s) (l_acks s).
Definition lack (s : lsys) (frame : string) (err : option string) : lsys := s <| l_acks := l_acks s ++ [(frame, err)] |>.
(** the container a handle stands for *)
Definition names_of (handle : launchHandle) : list string :=
  if String.eqb (lh_method handle) "docker" then [lh_containerName handle] else [].
Definition job_names (j : ljob) : list string := match j with JPut _ _ hd => names_of hd | JStop _ hd => names_of hd end.
(** the containers that handles stand for *)
Definition held (s : lsys) : list string :=
  concat (map (λ kv, names_of kv.2) (map_to_list (l_handles s))) ++ concat (map job_names (l_jobs s)).
Definition put (s : lsys) (launchID : string) (handle : launchHandle) : lsys :=
  s <| l_handles := <[launchID := handle]> (l_handles s) |>.
Definition take (s : lsys) (launchID : string) : lsys * option launchHandle :=
  match l_handles s !! launchID with
  | Some handle => (s <| l_handles := delete launchID (l_handles s) |>, Some handle)
  | None => (s, None)
  end.
(** the first part of handleCreateExecutionNode: the launch itself *)
Definition create_begin (s : lsys) (frame : string) (spec : NodeCreateExecutionNode) (answer : run_answer) : lsys :=
  match launchExecutionNode spec with
  | Err e => lack s frame (Some e)
  | Ok (cmd, handle) =>
      let job := JPut frame (TrimSpace (cn_LaunchId spec)) handle in
      if String.eqb (lh_method handle) "docker" then
        let container := lh_containerName handle in
        if bool_decide (container ∈ l_containers s)
        then lack s frame (Some "create execution node: docker run failed: name already in use")
        else match answer with
             | RunFailed output created =>
                 lack (if created then s <| l_containers := container :: l_containers s |> else s)
                   frame (Some ("create execution node: docker run failed: " +:+ TrimSpace output))
             | RunOk => s <| l_containers := container :: l_containers s |> <| l_jobs := l_jobs s ++ [job] |>
             end
      else match lw_start h with
           | Some e => lack s frame (Some ("create execution node: start process: " +:+ e))
           | None => s <| l_processes := l_processes s ++ [cmd] |> <| l_jobs := l_jobs s ++ [job] |>
           end
  end.
Definition handleDeleteExecutionNode (s : lsys) (frame launchID : string) : lsys :=
  match take s (TrimSpace launchID) with
  | (s, None) => lack s frame None
  | (s, Some handle) => s <| l_jobs := l_jobs s ++ [JStop frame handle] |>
  end.
(** stopExecutionNode of a handle; [rm] is the output of a failed command *)
Definition stopExecutionNode (s : lsys) (handle : launchHandle) (rm : option string) : lsys * option string :=
  if String.eqb (lh_method handle) "docker" then
    match rm with
    | Some output => (s, Some ("delete execution node: docker rm failed: " +:+ TrimSpace output))
    | None => (s <| l_containers := filter (λ c, c ≠ lh_containerName handle) (l_containers s) |>, None)
    end
  else if String.eqb (lh_method handle) "docker-compose" then
    if String.eqb (lh_composeDir handle) "" then (s, None)
    else (s, (λ output, "delete execution node: docker compose down failed: " +:+ TrimSpace output) <$> rm)
  else (s, None).
(** the second part of either goroutine *)
Definition finish_job (s : lsys) (j : ljob) (rm : option string) : lsys :=
  match j with
  | JPut frame launchID handle => lack (put s launchID handle) frame None
  | JStop frame handle => let '(s, err) := stopExecutionNode s handle rm in lack s frame err
  end.
Inductive llabel :=
| LCreate (frame : string) (spec : NodeCreateExecutionNode) (answer : run_answer)
| LDelete (frame launchID : string)
| LFinish (k : nat) (rm : option string).
Definition lstep (s : lsys) (l : llabel) : option lsys :=
  match l with
  | LCreate frame spec answer => Some (create_begin s frame spec answer)
  | LDelete frame launchID => Some (handleDeleteExecutionNode s frame launchID)
  | LFinish k rm => j ← l_jobs s !! k; Some (finish_job (s <| l_jobs := delete k (l_jobs s) |>) j rm)
  end.
Definition lrun : lsys → list llabel → option lsys := foldl (λ o l, o ≫= λ s, lstep s l) ∘ Some.
Definition newLaunchRegistry : lsys := mkLsys ∅ [] [] [] [].
End launch.
