(* ===== verification/LaunchProofs.v ===== *)
(** * LaunchProofs: theorems about launched execution nodes

    The containers of a management node are those its handles stand for and
    those a failed command or a reused id left behind, each once ([launch_accounting]); a deletion removes the
    container of its own launch and no other ([delete_removes_own]). *)
From S2P Require Import Prelude GoStrings Launch.
From Stdlib Require Import Ascii.

Definition table_names (m : gmap string launchHandle) : list string := concat (map (λ kv, names_of kv.2) (map_to_list m)).
Lemma concat_map_perm {A B} (f : A → list B) l1 l2 : l1 ≡ₚ l2 → concat (map f l1) ≡ₚ concat (map f l2).
Proof. induction 1; cbn; [done | by f_equiv | by rw !app_assoc (Permutation_app_comm (f _) (f _)) | by etrans]. Qed.
Lemma table_names_insert m k hd : m !! k = None → table_names (<[k := hd]> m) ≡ₚ names_of hd ++ table_names m.
Proof. intros Hk. unfold table_names. by rw (concat_map_perm _ _ _ (map_to_list_insert m k hd Hk)). Qed.
Lemma table_names_delete m k hd : m !! k = Some hd → table_names m ≡ₚ names_of hd ++ table_names (delete k m).
Proof. intros Hk. unfold table_names. by rw -(concat_map_perm _ _ _ (map_to_list_delete m k hd Hk)). Qed.
Lemma table_names_put m k hd :
  table_names (<[k := hd]> m) ++ match m !! k with Some old => names_of old | None => [] end ≡ₚ names_of hd ++ table_names m.
Proof.
  destruct (m !! k) as [old|] eqn:Hk.
  - rw -(insert_delete_eq m) table_names_insert; [|apply lookup_delete_eq].
    rw (table_names_delete m k old Hk). solve_Permutation.
  - rw app_nil_r. by apply table_names_insert.
Qed.
Lemma job_names_delete (jobs : list ljob) k j : jobs !! k = Some j →
  concat (map job_names jobs) ≡ₚ job_names j ++ concat (map job_names (delete k jobs)).
Proof. intros Hk. change (job_names j ++ ?x) with (concat (map job_names (j :: delete k jobs))). apply concat_map_perm. by apply delete_Permutation. Qed.

(** ** The accounts *)
Section accounts.
Variables (opts : launchOptions) (h : lhost).
Definition known_method (hd : launchHandle) : Prop := lh_method hd = "docker" ∨ lh_method hd = "standalone".
Definition job_handle (j : ljob) : launchHandle := match j with JPut _ _ hd | JStop _ hd => hd end.
(** What one step leaves behind without a handle: the container of a docker run
    that failed after creating it, the container a docker rm did not remove,
    and the container of a launch whose id is entered again. *)
Definition leaks (s : lsys) (l : llabel) : list string :=
  match l with
  | LCreate _ spec (RunFailed _ true) =>
      match launchExecutionNode opts h spec with
      | Ok (_, hd) => filter (λ c, c ∉ l_containers s) (names_of hd)
      | Err _ => []
      end
  | LFinish k rm =>
      match l_jobs s !! k, rm with
      | Some (JPut _ launchID _), _ => match l_handles s !! launchID with Some old => names_of old | None => [] end
      | Some (JStop _ hd), Some _ => names_of hd
      | _, _ => []
      end
  | _ => []
  end.
Fixpoint lost (s : lsys) (ls : list llabel) : list string :=
  match ls with
  | [] => []
  | l :: ls => leaks s l ++ match lstep opts h s l with Some s' => lost s' ls | None => [] end
  end.
(** [gone]: what was left behind so far *)
Record accounts (gone : list string) (s : lsys) : Prop := {
  ac_nodup : NoDup (l_containers s);
  ac_total : l_containers s ≡ₚ held s ++ gone;
  ac_table : ∀ k hd, l_handles s !! k = Some hd → known_method hd;
  ac_jobs : ∀ j, j ∈ l_jobs s → known_method (job_handle j)
}.
Lemma accounts_ack g s frame err : accounts g s → accounts g (lack s frame err).
Proof. by intros []; split. Qed.
Lemma launch_method spec cmd hd : launchExecutionNode opts h spec = Ok (cmd, hd) → known_method hd.
Proof. unfold launchExecutionNode, plan_docker, plan_standalone, known_method. intros H. repeat case_match; simplify_eq; cbn; auto. Qed.
Lemma accounts_create g s frame spec answer :
  accounts g s → accounts (g ++ leaks s (LCreate frame spec answer)) (create_begin opts h s frame spec answer).
Proof.
  intros Ha. assert (Hsame : accounts (g ++ []) s) by by rw app_nil_r. destruct Ha as [Hn Ht Hm Hj]. unfold create_begin, leaks.
  destruct (launchExecutionNode opts h spec) as [[cmd hd]|e] eqn:El; [|apply accounts_ack; by destruct answer as [|? []]].
  apply launch_method in El as Hk.
  assert (Hjob : ∀ j, j ∈ l_jobs s ++ [JPut frame (TrimSpace (cn_LaunchId spec)) hd] → known_method (job_handle j)).
  { intros j [Hin|Hin]%elem_of_app; [by apply Hj|]. by apply list_elem_of_singleton in Hin as ->. }
  unfold names_of. destruct (String.eqb (lh_method hd) "docker") eqn:Ed.
  - case_bool_decide as Hin; [apply accounts_ack; destruct answer as [|? []]; [done| |done]; by rw filter_cons decide_False; [|by intros ?]|].
    destruct answer as [|out created].
    + split; cbn; [by constructor | | done | done]. unfold held; cbn. rw map_app concat_app. cbn. unfold names_of; rw Ed.
      etrans; [by apply Permutation_skip, Ht|]. unfold held. solve_Permutation.
    + apply accounts_ack. destruct created; [|done]. rw filter_cons decide_True; [|done]. split; cbn; [by constructor | | done | done].
      etrans; [by apply Permutation_skip, Ht|]. unfold held; cbn. solve_Permutation.
  - destruct (lw_start h); [apply accounts_ack; by destruct answer as [|? []]|].
    assert (E : match answer with RunFailed _ true => filter (λ c, c ∉ l_containers s) [] | _ => [] end = []) by by destruct answer as [|? []].
    rw E. split; cbn; [done | | done | done].
    unfold held; cbn. rw map_app concat_app. cbn. unfold names_of at 2. rw Ed !app_nil_r. exact Ht.
Qed.
Lemma accounts_delete g s frame launchID : accounts g s → accounts g (handleDeleteExecutionNode s frame launchID).
Proof.
  intros Ha. pose proof Ha as [Hn Ht Hm Hj]. unfold handleDeleteExecutionNode, take.
  destruct (l_handles s !! TrimSpace launchID) as [hd|] eqn:Eh; [|by apply accounts_ack].
  split; cbn; [done | | |].
  - rw Ht. unfold held; cbn. fold (table_names (l_handles s)) (table_names (delete (TrimSpace launchID) (l_handles s))).
    rw (table_names_delete _ _ _ Eh) map_app concat_app. cbn. solve_Permutation.
  - intros k hd' [_ Hk]%lookup_delete_Some. by eapply Hm.
  - intros j [Hin|Hin]%elem_of_app; [by apply Hj|]. apply list_elem_of_singleton in Hin as ->. by eapply Hm.
Qed.
Lemma filter_perm_cons (name : string) l rest : NoDup l → l ≡ₚ name :: rest → filter (λ c, c ≠ name) l ≡ₚ rest.
Proof.
  intros Hn Hp. rw Hp in Hn. apply NoDup_cons in Hn as [Hni _]. rw Hp filter_cons decide_False; [|by intros []].
  clear Hp. induction rest as [|c rest IH]; [done|]. apply not_elem_of_cons in Hni as [Hc Hr].
  rw filter_cons decide_True; [|done]. by f_equiv; apply IH.
Qed.
Lemma accounts_finish g s k j rm : accounts g s → l_jobs s !! k = Some j →
  accounts (g ++ leaks s (LFinish k rm)) (finish_job (s <| l_jobs := delete k (l_jobs s) |>) j rm).
Proof.
  intros [Hn Ht Hm Hj] Hk. pose proof (job_names_delete _ _ _ Hk) as Hd. cbn [leaks]. rw Hk.
  assert (Hj' : ∀ j', j' ∈ delete k (l_jobs s) → known_method (job_handle j')).
  { intros j' Hin. apply Hj. eapply elem_of_submseteq; [done|]. apply sublist_submseteq, sublist_delete. }
  assert (Hkn : known_method (job_handle j)) by (apply Hj; by eapply list_elem_of_lookup_2).
  unfold held in Ht. rw Hd in Ht. destruct j as [frame launchID hd|frame hd]; cbn [finish_job job_handle job_names] in *.
  - apply accounts_ack. split; cbn; [done | | |done].
    + rw Ht. pose proof (table_names_put (l_handles s) launchID hd) as Hput.
      unfold held; cbn. fold (table_names (l_handles s)) (table_names (<[launchID := hd]> (l_handles s))).
      transitivity ((names_of hd ++ table_names (l_handles s)) ++ concat (map job_names (delete k (l_jobs s))) ++ g); [solve_Permutation|].
      rw -Hput. solve_Permutation.
    + intros k' hd' [[_ <-]|[_ Hk']]%lookup_insert_Some; [done | by eapply Hm].
  - unfold stopExecutionNode. unfold names_of in Ht |- *. destruct Hkn as [Hdk|Hst]; [rw Hdk|rw Hst]; [rw Hdk in Ht|rw Hst in Ht]; cbn in Ht |- *.
    + destruct rm as [out|]; apply accounts_ack; (split; cbn; [| |done|done]).
      * done.
      * rw Ht. unfold held; cbn. solve_Permutation.
      * by apply NoDup_filter.
      * apply filter_perm_cons; [done|]. etrans; [exact Ht|]. unfold held; cbn. solve_Permutation.
    + apply accounts_ack. assert (E : match rm with Some _ => [] | None => [] end = [] :> list string) by by destruct rm.
      rw E. split; cbn; [done| |done|done]. rw Ht. unfold held; cbn. by rw app_nil_r.
Qed.
Lemma lstep_accounts g s l s' : accounts g s → lstep opts h s l = Some s' → accounts (g ++ leaks s l) s'.
Proof.
  intros Ha. destruct l as [frame spec answer|frame launchID|k rm]; cbn [lstep].
  - intros [= <-]. by apply accounts_create.
  - intros [= <-]. cbn. rw app_nil_r. by apply accounts_delete.
  - destruct (l_jobs s !! k) as [j|] eqn:Hk; [|done]. intros [= <-]. by apply accounts_finish.
Qed.
Lemma lrun_cons s l ls : lrun opts h s (l :: ls) = lstep opts h s l ≫= λ s', lrun opts h s' ls.
Proof.
  unfold lrun. cbn. destruct (lstep opts h s l) as [s1|]; [done|]. cbn. induction ls; done.
Qed.
Lemma lrun_accounts ls g s s' : accounts g s → lrun opts h s ls = Some s' → accounts (g ++ lost s ls) s'.
Proof.
  revert g s. induction ls as [|l ls IH]; intros g s Ha; [intros [= <-]; by rw app_nil_r|]. rw lrun_cons. cbn [lost].
  destruct (lstep opts h s l) as [s1|] eqn:El; [|done]. cbn. intros Hr. rw app_assoc. apply IH; [by eapply lstep_accounts | done].
Qed.
Lemma accounts_new : accounts [] newLaunchRegistry.
Proof. split; cbn; [constructor|done|by intros ? ?; rw lookup_empty|by intros j ?%elem_of_nil]. Qed.

(** ** Launches under ids of their own, with docker commands that work *)
Definition launch_id (l : llabel) : option string := match l with LCreate _ spec _ => Some (TrimSpace (cn_LaunchId spec)) | _ => None end.
Definition docker_works (l : llabel) : Prop :=
  match l with LCreate _ _ (RunFailed _ true) => False | LFinish _ (Some _) => False | _ => True end.
Definition put_id (j : ljob) : option string := match j with JPut _ launchID _ => Some launchID | JStop _ _ => None end.
(** the ids about to be entered, those of the table, and those still to come *)
Definition ids (s : lsys) (ls : list llabel) : list string :=
  omap put_id (l_jobs s) ++ (map_to_list (l_handles s)).*1 ++ omap launch_id ls.
Lemma keys_insert (m : gmap string launchHandle) k hd : m !! k = None → (map_to_list (<[k := hd]> m)).*1 ≡ₚ k :: (map_to_list m).*1.
Proof. intros Hk. by rw map_to_list_insert. Qed.
Lemma keys_delete (m : gmap string launchHandle) k hd : m !! k = Some hd → (map_to_list m).*1 ≡ₚ k :: (map_to_list (delete k m)).*1.
Proof. intros Hk. by rw -(map_to_list_delete m k hd). Qed.
Lemma key_elem (m : gmap string launchHandle) k hd : m !! k = Some hd → k ∈ (map_to_list m).*1.
Proof. intros Hk. apply list_elem_of_fmap. exists (k, hd). split; [done|]. by apply elem_of_map_to_list. Qed.
Lemma put_ids_delete (jobs : list ljob) k j : jobs !! k = Some j →
  omap put_id jobs ≡ₚ match put_id j with Some x => [x] | None => [] end ++ omap put_id (delete k jobs).
Proof. intros Hk. rw {1}(delete_Permutation _ _ _ Hk). cbn. by destruct (put_id j). Qed.
Lemma ids_create s frame spec answer ls :
  NoDup (ids s (LCreate frame spec answer :: ls)) → NoDup (ids (create_begin opts h s frame spec answer) ls).
Proof.
  unfold ids. cbn [omap list_omap launch_id]. set (id := TrimSpace (cn_LaunchId spec)). intros Hnd.
  assert (Hless : NoDup (omap put_id (l_jobs s) ++ (map_to_list (l_handles s)).*1 ++ omap launch_id ls)).
  { assert (Hp : omap put_id (l_jobs s) ++ (map_to_list (l_handles s)).*1 ++ id :: omap launch_id ls ≡ₚ
      id :: omap put_id (l_jobs s) ++ (map_to_list (l_handles s)).*1 ++ omap launch_id ls) by solve_Permutation.
    rw Hp in Hnd. by apply NoDup_cons in Hnd as [_ ?]. }
  assert (Hmove : NoDup (omap put_id (l_jobs s ++ [JPut frame id (mkHandle "" "" "" "")]) ++ (map_to_list (l_handles s)).*1 ++ omap launch_id ls)).
  { rw omap_app. cbn. eapply NoDup_Permutation_proper; [|exact Hnd]. solve_Permutation. }
  rw omap_app in Hmove. unfold create_begin. repeat case_match; cbn; try exact Hless; by rw omap_app.
Qed.
Lemma ids_step s l ls s' : NoDup (ids s (l :: ls)) → docker_works l → lstep opts h s l = Some s' →
  leaks s l = [] ∧ NoDup (ids s' ls).
Proof.
  intros Hnd Hok Hs. destruct l as [frame spec answer|frame launchID|k rm]; cbn [lstep] in Hs.
  - injection Hs as <-. split; [by destruct answer as [|? []]|]. by apply ids_create in Hnd.
  - injection Hs as <-. split; [done|]. unfold ids in *. cbn [omap list_omap launch_id] in Hnd. unfold handleDeleteExecutionNode, take.
    destruct (l_handles s !! TrimSpace launchID) as [hd|] eqn:Eh; [|exact Hnd]. cbn. rw omap_app. cbn. rw app_nil_r.
    rw (keys_delete _ _ _ Eh) in Hnd.
    assert (Hp : omap put_id (l_jobs s) ++ (TrimSpace launchID :: (map_to_list (delete (TrimSpace launchID) (l_handles s))).*1) ++ omap launch_id ls ≡ₚ
      TrimSpace launchID :: omap put_id (l_jobs s) ++ (map_to_list (delete (TrimSpace launchID) (l_handles s))).*1 ++ omap launch_id ls)
      by solve_Permutation.
    rw Hp in Hnd. by apply NoDup_cons in Hnd as [_ ?].
  - destruct (l_jobs s !! k) as [j|] eqn:Hk; [|done]. destruct rm; [done|]. injection Hs as <-. unfold ids in *. cbn [omap list_omap launch_id] in Hnd.
    rw (put_ids_delete _ _ _ Hk) in Hnd. cbn [leaks]. rw Hk.
    destruct j as [frame launchID hd|frame hd]; cbn [put_id app] in Hnd.
    + apply NoDup_cons in Hnd as [Hni Hnd].
      assert (Hnone : l_handles s !! launchID = None).
      { destruct (l_handles s !! launchID) as [old|] eqn:E; [|done]. exfalso. apply Hni. apply elem_of_app. right. apply elem_of_app. left. by eapply key_elem. }
      rw Hnone. split; [done|]. cbn. rw keys_insert //. eapply NoDup_Permutation_proper; [|apply NoDup_cons; split; [exact Hni | exact Hnd]].
      solve_Permutation.
    + split; [done|]. unfold finish_job, stopExecutionNode. repeat case_match; simplify_eq; exact Hnd.
Qed.
Lemma nothing_lost ls s s' : NoDup (ids s ls) → Forall docker_works ls → lrun opts h s ls = Some s' → lost s ls = [].
Proof.
  revert s. induction ls as [|l ls IH]; intros s Hnd Hok Hr; [done|]. apply Forall_cons in Hok as [Hl Hok]. rw lrun_cons in Hr. cbn [lost].
  destruct (lstep opts h s l) as [s1|] eqn:El; [|done]. destruct (ids_step _ _ _ _ Hnd Hl El) as [-> Hnd']. by apply IH.
Qed.
End accounts.

(** C23: the table of a management node answers for the
    containers it started.  After any interleaving of creations and deletions,
    with any answers of docker, and as long as only the node itself starts and
    removes containers under its names, those that exist are, each exactly
    once, those a handle stands for (in the table, about to be entered, or
    about to be stopped) and those left behind by the steps so far: by a docker
    run that failed after creating its container, by a docker rm that failed,
    or by entering a launch under an id already in the table.  So no two
    handles stand for one container and no handle for a container that is
    gone; and when the docker commands work and every creation has an id of its
    own, nothing is left behind and every container has its handle.  A handle
    is always of the docker or the standalone kind. *)
Theorem launch_accounting opts h ls s :
  lrun opts h newLaunchRegistry ls = Some s →
  let left := lost opts h newLaunchRegistry ls in
  NoDup (held s ++ left) ∧ l_containers s ≡ₚ held s ++ left ∧
  (Forall docker_works ls → NoDup (omap launch_id ls) → l_containers s ≡ₚ held s) ∧
  (∀ k hd, l_handles s !! k = Some hd → known_method hd).
Proof.
  intros Hr. cbv zeta. destruct (lrun_accounts opts h ls _ _ _ accounts_new Hr) as [Hn Ht Hm _]. cbn [app] in Ht.
  split; [by rw -Ht|]. split; [done|]. split; [|done]. intros Hok Hnd.
  assert (E : lost opts h newLaunchRegistry ls = []).
  { eapply nothing_lost; [|exact Hok|exact Hr]. unfold ids. cbn. by rw map_to_list_empty. }
  by rw E app_nil_r in Ht.
Qed.
(** The end of a deletion removes the container of its own launch and no
    other, and no handle is left that stands for it. *)
Theorem delete_removes_own opts h ls s k frame hd s' :
  lrun opts h newLaunchRegistry ls = Some s → l_jobs s !! k = Some (JStop frame hd) → lh_method hd = "docker" →
  lstep opts h s (LFinish k None) = Some s' →
  l_containers s ≡ₚ lh_containerName hd :: l_containers s' ∧ lh_containerName hd ∉ held s'.
Proof.
  intros Hr Hk Hd Hs. pose proof (lrun_accounts opts h ls _ _ _ accounts_new Hr) as Ha.
  pose proof (lstep_accounts _ _ _ _ _ _ Ha Hs) as [Hn' Ht' _ _]. destruct Ha as [Hn Ht _ _].
  cbn [lstep] in Hs. rw Hk in Hs. cbn in Hs. unfold stopExecutionNode in Hs. rw Hd in Hs. injection Hs as <-. cbn in *.
  assert (Hin : lh_containerName hd ∈ l_containers s).
  { rw Ht. unfold held. rw (job_names_delete _ _ _ Hk) !elem_of_app. left; right; left. cbn. unfold names_of. rw Hd. left. }
  assert (Hni : lh_containerName hd ∉ filter (λ c, c ≠ lh_containerName hd) (l_containers s)).
  { rw list_elem_of_filter. by intros [? _]. }
  split.
  - apply elem_of_Permutation in Hin as [rest Hp]. etrans; [exact Hp|]. apply Permutation_skip. symmetry. by apply filter_perm_cons.
  - intros Hh. apply Hni. rw Ht'. apply elem_of_app. by left.
Qed.
(** A node is only launched with both halves of its credential, and the
    command carries them and the server's address. *)
Theorem launch_needs_credential opts h spec cmd hd :
  launchExecutionNode opts h spec = Ok (cmd, hd) →
  TrimSpace (cn_NodeId spec) ≠ "" ∧ TrimSpace (cn_Secret spec) ≠ "" ∧
  (lh_method hd = "docker" → cmd.1 = "docker" ∧ lh_containerName hd = container_of spec ∧
     ("AGENT_COMPOSE_NODE_SECRET=" +:+ TrimSpace (cn_Secret spec)) ∈ cmd.2).
Proof.
  unfold launchExecutionNode. destruct (String.eqb_spec (TrimSpace (cn_NodeId spec)) ""); [done|].
  destruct (String.eqb_spec (TrimSpace (cn_Secret spec)) ""); [done|]. cbn [orb]. cbv zeta. intros H. split; [done|]. split; [done|].
  unfold plan_docker, plan_standalone in H. repeat case_match; simplify_eq; cbn; try done;
    (intros _; split; [done|]; split; [done|]; do 13 right; left).
Qed.

(** ** Defects, and the theorems at concrete inputs *)
Module LaunchWitness.
Definition opts : launchOptions := mkLaunchOptions "https://srv" "img" "".
Definition host : lhost := mkLhost (λ p, Ok ("/usr/bin/" +:+ p)) None.
Definition spec (id : string) (m : NodeStartupMethod) : NodeCreateExecutionNode := mkCreateNode id "" "n1" "s1" "" m "" [].
(** two launches, the first deleted, the second's removal refused *)
Definition steps : list llabel :=
  [LCreate "f1" (spec "a b" STARTUP_DOCKER) RunOk; LCreate "f2" (spec "c" STARTUP_DOCKER_COMPOSE) RunOk; LFinish 1 None; LFinish 0 None;
   LDelete "f3" "a b "; LDelete "f4" "c"; LFinish 1 (Some "daemon busy"); LFinish 0 None; LDelete "f5" "c"].
Definition final : lsys := default newLaunchRegistry (lrun opts host newLaunchRegistry steps).
Lemma launch_accounting_witness : NoDup (held final ++ lost opts host newLaunchRegistry steps) ∧
  l_containers final ≡ₚ held final ++ lost opts host newLaunchRegistry steps ∧
  lost opts host newLaunchRegistry steps = ["agent-compose-exec-c"].
Proof.
  destruct (launch_accounting opts host steps final) as (Hn & Hp & _); [vm_compute; reflexivity|].
  split; [exact Hn|]. split; [exact Hp | vm_compute; reflexivity].
Defined.
(** A removal that fails has forgotten the launch: asking again is acknowledged
    as done while the container still runs. *)
Lemma failed_removal_forgotten :
  l_containers final = ["agent-compose-exec-c"] ∧
  l_acks final !! 3 = Some ("f3", None) ∧ last (l_acks final) = Some ("f5", None).
Proof. by vm_compute. Qed.
(** A deletion that comes before the launch is entered is acknowledged, and the node is left running *)
Lemma early_delete_leaves_node :
  (λ s, (l_containers s, l_acks s)) <$>
    lrun opts host newLaunchRegistry [LCreate "f1" (spec "a" STARTUP_DOCKER) RunOk; LDelete "f2" "a"; LFinish 0 None] =
  Some (["agent-compose-exec-a"], [("f2", None); ("f1", None)]).
Proof. by vm_compute. Qed.
(** A second launch under the same id, as a process, drops the handle of the container *)
Definition relaunch : list llabel :=
  [LCreate "f1" (spec "a" STARTUP_DOCKER) RunOk; LFinish 0 None; LCreate "f2" (spec "a" STARTUP_STANDALONE) RunOk; LFinish 0 None].
Lemma relaunch_drops_container :
  (λ s, (l_containers s, l_handles s !! "a")) <$> lrun opts host newLaunchRegistry relaunch =
  Some (["agent-compose-exec-a"], Some (mkHandle "standalone" "" "" "")) ∧
  lost opts host newLaunchRegistry relaunch = ["agent-compose-exec-a"].
Proof. by vm_compute. Qed.
(** The secret is an argument of the command, for both kinds *)
Definition in_arguments (m : NodeStartupMethod) (text : string) : bool :=
  match launchExecutionNode opts host (spec "a" m) with Ok (cmd, _) => existsb (λ a, Contains a text) cmd.2 | Err _ => false end.
Lemma secret_in_arguments : in_arguments STARTUP_STANDALONE "s1" = true ∧ in_arguments STARTUP_DOCKER "=s1" = true.
Proof. by vm_compute. Qed.
End LaunchWitness.
