(* ===== verification/Dispatch.v ===== *)
(** * Dispatch: routing the commands of the server (execution/handler.go,
    management/handler.go, common/ioshost/handler.go)

    [HandleFrame] runs in the dispatch loop of the stream; several commands are
    handed to a goroutine of their own, which acknowledges when it is done.  A
    label of [dstep] is one frame, the end of one goroutine or the loss of a
    stream.  The three handlers that are asked first (builds, Xcode jobs, iOS
    devices) are used through the interface [AckingHandler]; the goroutines of
    the iOS handler are goroutines of the dispatcher here, on the context of
    the stream, and do their work in one step at their end; the operations of
    the session manager, the terminals and the tool runs are the fields of
    [node_ops], and what a goroutine computes comes with its label.  The three
    kinds of node differ in the switch behind those handlers and in what the
    loss of a stream stops. *)
From S2P Require Import Prelude GoStrings ProtoText Session NodeClient Launch.
From Stdlib Require Import Ascii.

(** A handler that knows by the payload whether a frame is its own: it takes
    such a frame, acknowledges it once, in the dispatch loop or at the end of
    a goroutine it starts on the context of the stream, and leaves any other
    frame alone. *)
Class AckingHandler (S F : Type) := {
  ah_takes : F → bool;
  ah_handle : string → F → S → S * list string * bool;     (** in the dispatch loop *)
  ah_spawns : F → S → bool;                                (** a goroutine does the rest *)
  ah_owes : F → bool;                                      (** and acknowledges *)
  ah_work : string → F → S → S * list string;              (** what the goroutine does *)
  ah_law id f s : let '(s', acked, handled) := ah_handle id f s in
                  handled = ah_takes f ∧
                  if handled then acked = (if ah_spawns f s && ah_owes f then [] else [id])
                  else acked = [] ∧ s' = s ∧ ah_spawns f s = false;
  ah_work_law id f s : (ah_work id f s).2 = if ah_owes f then [id] else []
}.

Inductive config_kind := CfgLLM | CfgMCPs | CfgSkills | CfgPlugins | CfgMode.
Inductive terminal_op := TInput | TResize | TClose | TAttach | TList | TInterrupt.
(** the payloads of NodeDownstreamFrame; messages the dispatcher does not look into are [pmsg] *)
Inductive payload (B X I : Type) :=
| FBuild (p : B) | FXcode (p : X) | FIos (p : I)
| CreateSession (spec : pmsg) | DeleteSession (sid : string) | ListSessions
| TunnelRequest (req : pmsg) | ProxyRequest (req : pmsg) | SessionInput (input : pmsg)
| Configure (kind : config_kind) (sid : string) (revision : Z) (arg : pmsg)
| StartSessionRuntime (sid : string) | RestartSessionRuntime (sid : string) (fresh : bool)
| CollectSessionArtifacts (sid : string)
| ManageEditor (spec : pmsg) | InstallHostTool (spec : pmsg) | ManageEnvironment (spec : pmsg)
| SyncEnvironment (spec : pmsg) | InspectEnvironment (spec : pmsg) | InspectSystemEnv (spec : pmsg)
| SyncSystemEnv (spec : pmsg) | ArchiveSystemEnvResource (spec : pmsg)
| SelfUpgrade (spec : pmsg) | RuntimeUpgrade (spec : pmsg)
| TerminalOpen (envID sid cwd : string) (spec : pmsg) | TerminalOp (op : terminal_op) (spec : pmsg)
| CreateExecutionNode (spec : NodeCreateExecutionNode) | DeleteExecutionNode (launchID : string)
| HostExec (req : pmsg) | FileUpload (req : pmsg) | ToolRunRequest (req : pmsg) | ToolRunStop (req : pmsg)
| UnexpectedFrame.
Arguments FBuild {_ _ _}. Arguments FXcode {_ _ _}. Arguments FIos {_ _ _}. Arguments CreateSession {_ _ _}.
Arguments DeleteSession {_ _ _}. Arguments ListSessions {_ _ _}. Arguments TunnelRequest {_ _ _}.
Arguments ProxyRequest {_ _ _}. Arguments SessionInput {_ _ _}. Arguments Configure {_ _ _}.
Arguments StartSessionRuntime {_ _ _}. Arguments RestartSessionRuntime {_ _ _}. Arguments CollectSessionArtifacts {_ _ _}.
Arguments ManageEditor {_ _ _}. Arguments InstallHostTool {_ _ _}. Arguments ManageEnvironment {_ _ _}.
Arguments SyncEnvironment {_ _ _}. Arguments InspectEnvironment {_ _ _}. Arguments InspectSystemEnv {_ _ _}.
Arguments SyncSystemEnv {_ _ _}. Arguments ArchiveSystemEnvResource {_ _ _}. Arguments SelfUpgrade {_ _ _}.
Arguments RuntimeUpgrade {_ _ _}. Arguments TerminalOpen {_ _ _}. Arguments TerminalOp {_ _ _}.
Arguments CreateExecutionNode {_ _ _}. Arguments DeleteExecutionNode {_ _ _}.
Arguments HostExec {_ _ _}. Arguments FileUpload {_ _ _}. Arguments ToolRunRequest {_ _ _}.
Arguments ToolRunStop {_ _ _}. Arguments UnexpectedFrame {_ _ _}.

(** what a goroutine brings: its error, versions, an inventory, or frames of its own *)
Record outcome := mkOutcome {
  oc_err : option string; oc_versions : string * string * string; oc_items : list pmsg; oc_restart : bool
}.

Section dispatch.
Context {W SB SX SI B X I : Type} `{!AckingHandler SB (nat * B)} `{!AckingHandler SX X} `{!AckingHandler SI I}.
Abbreviation payload := (payload B X I).
Record node_ops := mkOps {
  op_create : pmsg → W → option string * W; op_delete : string → W → option string * W;
  op_summaries : W → list pmsg; op_deliverInput : pmsg → W → W;
  op_configure : config_kind → string → Z → pmsg → W → option string * configResult * W;
  op_startRuntime : string → W → option string * W; op_restartRuntime : string → bool → W → option string * W;
  op_collect : string → W → option string;
  op_envDir : string → string; op_mkdirAll : string → W → bool * W; op_workspaceDir : string → W → string;
  op_openTerminal : string → list string → pmsg → W → W; op_terminal : terminal_op → pmsg → W → W;
  op_toolStart : pmsg → W → W; op_toolStop : pmsg → W → W;
  op_stopSessions : W → W; op_detachTerminals : W → W;
  op_effect : payload → outcome → W → W                       (** what a goroutine changed *)
}.
Variable ops : node_ops.

(** a goroutine: the frame it serves, the stream whose context it has, and whether it was cancelled with it *)
Record djob := mkDjob {
  dj_id : string; dj_payload : payload; dj_stream : nat; dj_detached : bool; dj_cancelled : bool; dj_running : bool
}.
#[export] Instance eta_djob : Settable djob := λ j,
  mkDjob (dj_id j) (dj_payload j) (dj_stream j) (dj_detached j) (dj_cancelled j) (dj_running j).
Record dsys := mkDsys {
  d_builds : SB; d_xcode : SX; d_ios : option SI; d_world : W; d_jobs : list djob;
  d_chain : list string;                (** frames acknowledged by the three handlers *)
  d_out : list upframe;                 (** frames handed to the client, acks included *)
  d_exited : bool
}.
#[export] Instance eta_dsys : Settable dsys := λ s,
  mkDsys (d_builds s) (d_xcode s) (d_ios s) (d_world s) (d_jobs s) (d_chain s) (d_out s) (d_exited s).

Definition ack (s : dsys) (f : upframe) : dsys := s <| d_out := d_out s ++ [f] |>.
(** an operation that returns an error and is acknowledged at once *)
Definition ack_op (s : dsys) (id : string) (r : option string * W) : dsys :=
  ack (s <| d_world := r.2 |>) (SendAck id r.1 []).
Definition sendConfigAck (s : dsys) (id : string) (err : option string) (res : configResult) : dsys :=
  ack s (SendConfigAck id err (cr_appliedRevision res) (cr_effectiveRevision res) (cr_restartRequired res)).
(** a goroutine on the context of the stream, or detached from it *)
Definition spawn (s : dsys) (id : string) (p : payload) (stream : nat) (detached : bool) : dsys :=
  s <| d_jobs := d_jobs s ++ [mkDjob id p stream detached false true] |>.
(** where a terminal opens and with which additional environment *)
Definition terminal_place (s : dsys) (envID sid cwd : string) : string * list string * W :=
  let env := TrimSpace envID in
  if negb (String.eqb env "") then
    let dir := op_envDir ops env in
    let '(ok, w) := op_mkdirAll ops dir (d_world s) in
    if ok then (dir, ["HOME=" +:+ dir; "USERPROFILE=" +:+ dir], w) else (cwd, [], w)
  else if negb (String.eqb sid "") then
    let dir := op_workspaceDir ops sid (d_world s) in
    (if negb (String.eqb dir "") then dir else cwd, [], d_world s)
  else (cwd, [], d_world s).

(** the switch *)
Definition route (s : dsys) (stream : nat) (id : string) (p : payload) : dsys :=
  match p with
  | FBuild _ | FXcode _ | FIos _ | CreateExecutionNode _ | DeleteExecutionNode _ | UnexpectedFrame => s
  | CreateSession spec => ack_op s id (op_create ops spec (d_world s))
  | DeleteSession sid => ack_op s id (op_delete ops sid (d_world s))
  | ListSessions => ack s (SendAck id None (op_summaries ops (d_world s)))
  | TunnelRequest _ | ProxyRequest _ => spawn s id p stream false
  | SessionInput input => s <| d_world := op_deliverInput ops input (d_world s) |>
  | Configure kind sid revision arg =>
      let '(err, res, w) := op_configure ops kind sid revision arg (d_world s) in
      sendConfigAck (s <| d_world := w |>) id err res
  | StartSessionRuntime sid => ack_op s id (op_startRuntime ops sid (d_world s))
  | RestartSessionRuntime sid fresh => ack_op s id (op_restartRuntime ops sid fresh (d_world s))
  | CollectSessionArtifacts sid => ack s (SendAck id (op_collect ops sid (d_world s)) [])
  | ManageEditor _ | InstallHostTool _ | ManageEnvironment _ | SyncEnvironment _ | SyncSystemEnv _
  | ArchiveSystemEnvResource _ | RuntimeUpgrade _ => spawn s id p stream true
  | InspectEnvironment _ | InspectSystemEnv _ => spawn s id p stream true
  | SelfUpgrade _ => spawn (ack s (SendAck id None [])) id p stream true
  | TerminalOpen envID sid cwd spec =>
      let '(cwd, env, w) := terminal_place s envID sid cwd in
      s <| d_world := op_openTerminal ops cwd env spec w |>
  | TerminalOp op spec => s <| d_world := op_terminal ops op spec (d_world s) |>
  | HostExec _ | FileUpload _ => spawn s id p stream false
  | ToolRunRequest req => s <| d_world := op_toolStart ops req (d_world s) |>
  | ToolRunStop req => s <| d_world := op_toolStop ops req (d_world s) |>
  end.
(** the handlers asked first; each sees every frame and takes its own *)
Definition try_build (s : dsys) (stream : nat) (id : string) (p : payload) : dsys * bool :=
  match p with
  | FBuild b => let '(st, acked, handled) := ah_handle id (stream, b) (d_builds s) in
                (s <| d_builds := st |> <| d_chain := d_chain s ++ acked |>, handled)
  | _ => (s, false)
  end.
Definition try_xcode (s : dsys) (id : string) (p : payload) : dsys * bool :=
  match p with
  | FXcode x => let '(st, acked, handled) := ah_handle id x (d_xcode s) in
                (s <| d_xcode := st |> <| d_chain := d_chain s ++ acked |>, handled)
  | _ => (s, false)
  end.
Definition try_ios (s : dsys) (stream : nat) (id : string) (p : payload) : dsys * bool :=
  match p, d_ios s with
  | FIos i, Some ios =>
      let '(st, acked, handled) := ah_handle id i ios in
      let s := s <| d_ios := Some st |> <| d_chain := d_chain s ++ acked |> in
      (if ah_spawns i ios then spawn s id p stream false else s, handled)
  | _, _ => (s, false)
  end.
Definition handle_with (ios : bool) (switch : dsys → nat → string → payload → dsys)
    (s : dsys) (stream : nat) (id : string) (p : payload) : dsys :=
  let '(s, handled) := try_build s stream id p in
  if handled then s else
  let '(s, handled) := try_xcode s id p in
  if handled then s else
  let '(s, handled) := if ios then try_ios s stream id p else (s, false) in
  if handled then s else switch s stream id p.
Definition HandleFrame : dsys → nat → string → payload → dsys := handle_with true route.

(** ** The management node *)
Definition route_management (s : dsys) (stream : nat) (id : string) (p : payload) : dsys :=
  match p with
  | CreateExecutionNode _ => spawn s id p stream false
  | DeleteExecutionNode _ => spawn s id p stream true            (** takes no context *)
  | SelfUpgrade _ => spawn (ack s (SendAck id None [])) id p stream true
  | RuntimeUpgrade _ | InstallHostTool _ => spawn s id p stream true
  | TerminalOpen _ _ cwd spec => s <| d_world := op_openTerminal ops cwd [] spec (d_world s) |>
  | TerminalOp op spec => s <| d_world := op_terminal ops op spec (d_world s) |>
  | HostExec _ | FileUpload _ => spawn s id p stream false
  | _ => s
  end.
Definition HandleManagementFrame : dsys → nat → string → payload → dsys := handle_with false route_management.

(** ** The iOS host *)
Definition errNotSupported : string := "iOS host does not run sessions or launch nodes".
Definition route_ios_host (s : dsys) (stream : nat) (id : string) (p : payload) : dsys :=
  match p with
  | SelfUpgrade _ => spawn (ack s (SendAck id None [])) id p stream true
  | RuntimeUpgrade _ | InstallHostTool _ => spawn s id p stream true
  | CreateSession _ | DeleteSession _ | ListSessions | CreateExecutionNode _ | DeleteExecutionNode _ | TerminalOpen _ _ _ _
  | HostExec _ | FileUpload _ | ToolRunRequest _ => ack s (SendAck id (Some errNotSupported) [])
  | _ => s
  end.
Definition HandleIosHostFrame : dsys → nat → string → payload → dsys := handle_with true route_ios_host.

(** what a goroutine sends when it ends *)
Definition reply_of (id : string) (p : payload) (o : outcome) : list upframe :=
  let '(v1, v2, v3) := oc_versions o in
  match p with
  | ManageEditor _ => [SendEditorAck id (oc_err o) v1]
  | InstallHostTool _ => [SendHostToolAck id (oc_err o) v1 v2 v3]
  | ManageEnvironment _ | SyncEnvironment _ | ArchiveSystemEnvResource _ | RuntimeUpgrade _
  | CreateExecutionNode _ | DeleteExecutionNode _ => [SendAck id (oc_err o) []]
  | InspectEnvironment _ => [SendEnvironmentInventoryAck id (oc_err o) (oc_items o)]
  | InspectSystemEnv _ | SyncSystemEnv _ => [SendSystemEnvInventoryAck id (oc_err o) (oc_items o)]
  | TunnelRequest _ | ProxyRequest _ | HostExec _ | FileUpload _ => map (mkUp KOther) (oc_items o)
  | _ => []
  end.
(** the end of a goroutine of the iOS handler *)
Definition finish_ios (s : dsys) (id : string) (i : I) : dsys :=
  match d_ios s with
  | Some ios => let '(st, acked) := ah_work id i ios in s <| d_ios := Some st |> <| d_chain := d_chain s ++ acked |>
  | None => s
  end.
Definition StopAll (s : dsys) : dsys :=
  s <| d_world := op_detachTerminals ops (op_stopSessions ops (d_world s)) |>.
Definition StopAll_management (s : dsys) : dsys := s <| d_world := op_detachTerminals ops (d_world s) |>.
Definition StopAll_ios_host (s : dsys) : dsys := s.
Inductive dlabel :=
| DFrame (stream : nat) (id : string) (p : payload)
| DDone (k : nat) (o : outcome)
| DStreamDrop (stream : nat).
Section role.
Variables (handle : dsys → nat → string → payload → dsys) (stopAll : dsys → dsys).
Definition role_step (s : dsys) (l : dlabel) : option dsys :=
  if d_exited s then None else
  match l with
  | DFrame stream id p => Some (handle s stream id p)
  | DDone k o =>
      j ← d_jobs s !! k;
      if negb (dj_running j) then None
      else
        let s := s <| d_jobs := alter (λ j, j <| dj_running := false |>) k (d_jobs s) |>
                   <| d_world := op_effect ops (dj_payload j) o (d_world s) |>
                   <| d_out := d_out s ++ reply_of (dj_id j) (dj_payload j) o |> in
        Some match dj_payload j with
             | SelfUpgrade _ => if oc_restart o then s <| d_exited := true |> else s   (** os.Exit *)
             | FIos i => finish_ios s (dj_id j) i
             | _ => s
             end
  | DStreamDrop stream =>
      Some (stopAll (s <| d_jobs := map (λ j,
        if negb (dj_detached j) && (dj_stream j =? stream) then j <| dj_cancelled := true |> else j) (d_jobs s) |>))
  end.
End role.
Definition dstep : dsys → dlabel → option dsys := role_step HandleFrame StopAll.
Definition management_step : dsys → dlabel → option dsys := role_step HandleManagementFrame StopAll_management.
Definition ios_host_step : dsys → dlabel → option dsys := role_step HandleIosHostFrame StopAll_ios_host.
End dispatch.
