(* ===== verification/DispatchProofs.v ===== *)
(** * DispatchProofs: theorems about the dispatcher

    The acknowledgements sent and those still owed are the acknowledged
    commands received, on an execution node ([dispatch_acks]), a management node
    and an iOS host ([role_acks]); the three handlers the dispatcher asks
    first meet the interface this is proved against. *)
From S2P Require Import Prelude GoStrings GoPath ProtoText DevicesConfig DeviceManager WdaJob IosFrames BuildRunner XcodeJob.
From S2P Require Import Session NodeClient Launch Dispatch.
From Stdlib Require Import Ascii.

(** ** The handlers behind the interface *)
Definition new_acks {E} (before after : list (string * E)) : list string := (drop (length before) after).*1.
Lemma new_acks_one {E} (l : list (string * E)) id e : new_acks l (l ++ [(id, e)]) = [id].
Proof. unfold new_acks. by rw drop_app_length. Qed.
Lemma new_acks_none {E} (l : list (string * E)) : new_acks l l = [].
Proof. unfold new_acks. by rw drop_all. Qed.

Definition build_takes (f : nat * BuildRunner.build_payload) : bool :=
  match f.2 with BuildRunner.OtherFrame => false | _ => true end.
Definition build_handle (id : string) (f : nat * BuildRunner.build_payload) (s : BuildRunner.rsys) :
    BuildRunner.rsys * list string * bool :=
  let '(s', handled) := BuildRunner.HandleBuildFrame f.1 id f.2 s in
  (s', new_acks (BuildRunner.r_acks s) (BuildRunner.r_acks s'), handled).
#[export] Program Instance build_acking : AckingHandler BuildRunner.rsys (nat * BuildRunner.build_payload) :=
  {| ah_takes := build_takes; ah_handle := build_handle; ah_spawns _ _ := false; ah_owes _ := false; ah_work _ _ s := (s, []) |}.
Next Obligation.
  intros id [stream p] s. unfold build_handle, BuildRunner.HandleBuildFrame, build_takes. cbn. destruct p as [req|bid|]; cbn.
  - unfold BuildRunner.Start. repeat case_match; simplify_eq; cbn; by rw new_acks_one.
  - unfold BuildRunner.Cancel, BuildRunner.cancel_job. destruct (BuildRunner.r_table s !! bid); cbn; by rw new_acks_one.
  - by rw new_acks_none.
Qed.
Next Obligation. done. Qed.

Definition xcode_takes (p : XcodeJob.xpayload) : bool := match p with XcodeJob.OtherPayload => false | _ => true end.
Definition xcode_handle (id : string) (p : XcodeJob.xpayload) (s : XcodeJob.jsys) : XcodeJob.jsys * list string * bool :=
  let '(s', handled) := XcodeJob.HandleHostToolJobFrame id p s in
  (s', new_acks (XcodeJob.j_acks s) (XcodeJob.j_acks s'), handled).
#[export] Program Instance xcode_acking : AckingHandler XcodeJob.jsys XcodeJob.xpayload :=
  {| ah_takes := xcode_takes; ah_handle := xcode_handle; ah_spawns _ _ := false; ah_owes _ := false; ah_work _ _ s := (s, []) |}.
Next Obligation.
  intros id p s. unfold xcode_handle, XcodeJob.HandleHostToolJobFrame, xcode_takes. destruct p as [req|jid|]; cbn.
  - unfold XcodeJob.Start. repeat case_match; simplify_eq; cbn; by rw new_acks_one.
  - unfold XcodeJob.Cancel, XcodeJob.cancel_xjob. destruct (XcodeJob.j_table s !! jid); cbn; by rw new_acks_one.
  - by rw new_acks_none.
Qed.
Next Obligation. done. Qed.

Definition ios_acked (r : IosFrames.reply) : option string :=
  match r with IosFrames.SendAck id _ | IosFrames.SendConfigAck id _ _ _ => Some id | _ => None end.
Definition ios_takes (f : IosFrames.frame_env * IosFrames.ios_payload) : bool :=
  match f.2 with IosFrames.OtherPayload => false | _ => true end.
Section ios.
Context `{!MapRange DeviceManager.managedDevice} (mc : DeviceManager.ManagerConfig) (cal : DeviceManager.calendar).
Definition ios_full (id : string) (f : IosFrames.frame_env * IosFrames.ios_payload) (s : IosFrames.FrameHandler) :
    IosFrames.FrameHandler * list string * bool :=
  let '(s', replies, handled) := IosFrames.HandleIosFrame mc cal f.1 s id f.2 in (s', omap ios_acked replies, handled).
(** what HandleIosFrame leaves to a goroutine once there is a device manager *)
Definition ios_spawns (f : IosFrames.frame_env * IosFrames.ios_payload) (s : IosFrames.FrameHandler) : bool :=
  match f.2, IosFrames.fh_manager s with
  | IosFrames.IosDiscover _, Some _ | IosFrames.IosClaimDevice _, Some _ | IosFrames.IosReleaseDevice _, Some _
  | IosFrames.IosConfigureDevice _, Some _ | IosFrames.IosRunnerControl _, Some _ => true
  | _, _ => false
  end.
(** the scan of a discovery is acknowledged before it starts *)
Definition ios_owes (f : IosFrames.frame_env * IosFrames.ios_payload) : bool :=
  match f.2 with
  | IosFrames.IosClaimDevice _ | IosFrames.IosReleaseDevice _ | IosFrames.IosConfigureDevice _ | IosFrames.IosRunnerControl _ => true
  | _ => false
  end.
Definition ios_handle (id : string) (f : IosFrames.frame_env * IosFrames.ios_payload) (s : IosFrames.FrameHandler) :
    IosFrames.FrameHandler * list string * bool :=
  if ios_spawns f s then (s, if ios_owes f then [] else [id], true) else ios_full id f s.
Definition ios_work (id : string) (f : IosFrames.frame_env * IosFrames.ios_payload) (s : IosFrames.FrameHandler) :
    IosFrames.FrameHandler * list string :=
  let '(s', acked, _) := ios_full id f s in (s', if ios_owes f then acked else []).
Program Definition ios_acking : AckingHandler IosFrames.FrameHandler (IosFrames.frame_env * IosFrames.ios_payload) :=
  {| ah_takes := ios_takes; ah_handle := ios_handle; ah_spawns := ios_spawns; ah_owes := ios_owes; ah_work := ios_work |}.
Next Obligation.
  intros id [fe p] s. unfold ios_handle, ios_full, ios_spawns, ios_owes, IosFrames.HandleIosFrame, ios_takes. cbn.
  destruct p, s as [[m|] [jobs|]]; cbn; repeat case_match; simplify_eq; cbn; try done.
Qed.
Next Obligation.
  intros id [fe p] s. unfold ios_work, ios_full, ios_owes, IosFrames.HandleIosFrame. cbn.
  destruct p, s as [[m|] [jobs|]]; cbn; repeat case_match; simplify_eq; cbn; try done.
Qed.
End ios.

(** ** Acknowledgements *)
Definition ack_id (f : upframe) : option string :=
  match u_kind f, u_body f with
  | KCommandAck, (_, PString id) :: _ => Some id
  | _, _ => None
  end.
Section acks.
Context {W SB SX SI B X I : Type} `{!AckingHandler SB (nat * B)} `{!AckingHandler SX X} `{!AckingHandler SI I}.
Abbreviation node_payload := (payload B X I).
Abbreviation state := (@dsys W SB SX SI B X I).
Variable ops : @node_ops W B X I.
(** commands acknowledged when their goroutine ends *)
Definition deferred (p : node_payload) : bool :=
  match p with
  | ManageEditor _ | InstallHostTool _ | ManageEnvironment _ | SyncEnvironment _ | InspectEnvironment _ | InspectSystemEnv _
  | SyncSystemEnv _ | ArchiveSystemEnvResource _ | RuntimeUpgrade _ | CreateExecutionNode _ | DeleteExecutionNode _ => true
  | FIos i => ah_owes i
  | _ => false
  end.
Definition device_command (p : node_payload) : bool := match p with FIos _ => true | _ => false end.
(** frames of the handlers asked first *)
Definition chain_takes (ios : bool) (p : node_payload) : bool :=
  match p with
  | FBuild b => ah_takes (0, b) | FXcode x => ah_takes x | FIos i => ios && ah_takes i
  | _ => false
  end.
(** commands the switch of a kind of node acknowledges, at once or later *)
Definition execution_accepts (p : node_payload) : bool :=
  match p with
  | CreateSession _ | DeleteSession _ | ListSessions | Configure _ _ _ _ | StartSessionRuntime _
  | RestartSessionRuntime _ _ | CollectSessionArtifacts _ | SelfUpgrade _ => true
  | CreateExecutionNode _ | DeleteExecutionNode _ | FIos _ => false
  | p => deferred p
  end.
Definition management_accepts (p : node_payload) : bool :=
  match p with
  | CreateExecutionNode _ | DeleteExecutionNode _ | SelfUpgrade _ | RuntimeUpgrade _ | InstallHostTool _ => true
  | _ => false
  end.
Definition ios_host_accepts (p : node_payload) : bool :=
  match p with
  | SelfUpgrade _ | RuntimeUpgrade _ | InstallHostTool _ | CreateSession _ | DeleteSession _ | ListSessions
  | CreateExecutionNode _ | DeleteExecutionNode _ | TerminalOpen _ _ _ _ | HostExec _ | FileUpload _ | ToolRunRequest _ => true
  | _ => false
  end.
(** builds and Xcode jobs are acknowledged in the dispatch loop; the stream
    does not decide whether a build frame is one *)
Hypothesis no_spawn_build : ∀ f s, ah_spawns (AckingHandler := AckingHandler0) f s = false.
Hypothesis no_spawn_xcode : ∀ f s, ah_spawns (AckingHandler := AckingHandler1) f s = false.
Hypothesis build_by_payload : ∀ stream b, ah_takes (AckingHandler := AckingHandler0) (stream, b) = ah_takes (0, b).

Definition sent (s : state) : list string := d_chain s ++ omap ack_id (d_out s).
Definition owed (s : state) : list string :=
  map dj_id (filter (λ j, dj_running j && deferred (dj_payload j) = true) (d_jobs s)).
(** the commands among the frames received that a node acknowledges *)
Definition commands (accepts : node_payload → bool) (ios : bool) (ls : list (@dlabel B X I)) : list string :=
  omap (λ l, match l with DFrame _ id p => if chain_takes ios p || accepts p then Some id else None | _ => None end) ls.

Lemma owed_spawn s id p stream detached :
  owed (spawn s id p stream detached) = owed s ++ (if deferred p then [id] else []).
Proof. unfold owed, spawn. cbn. rw filter_app map_app. f_equal. rw filter_cons filter_nil. cbn. by destruct (deferred p). Qed.
Lemma sent_ack s f : sent (ack s f) = sent s ++ omap ack_id [f].
Proof. unfold sent, ack. cbn. rw omap_app. by rw app_assoc. Qed.
(** A switch that answers for the commands it accepts, and leaves the frames of
    the handlers before it alone. *)
Definition answers (switch : state → nat → string → node_payload → state) (accepts : node_payload → bool) : Prop :=
  ∀ s stream id p,
    d_ios (switch s stream id p) = d_ios s ∧
    sent (switch s stream id p) ++ owed (switch s stream id p) ≡ₚ (sent s ++ owed s) ++ (if accepts p then [id] else []) ∧
    (match p with FBuild _ | FXcode _ | FIos _ => switch s stream id p = s ∧ accepts p = false | _ => True end).
Lemma answers_now (s s' : state) id : owed s' = owed s → sent s' = sent s ++ [id] → sent s' ++ owed s' ≡ₚ (sent s ++ owed s) ++ [id].
Proof. intros -> ->. solve_Permutation. Qed.
Lemma answers_upgrade (s : state) id f p stream : omap ack_id [f] = [id] → deferred p = false →
  sent (spawn (ack s f) id p stream true) ++ owed (spawn (ack s f) id p stream true) ≡ₚ (sent s ++ owed s) ++ [id].
Proof.
  intros Hf Hp. rw owed_spawn Hp app_nil_r. change (sent (spawn (ack s f) id p stream true)) with (sent (ack s f)).
  apply (answers_now s (ack s f)); [done | by rw sent_ack Hf].
Qed.
Lemma answers_later (s : state) id p stream detached : sent (spawn s id p stream detached) ++ owed (spawn s id p stream detached) ≡ₚ
  (sent s ++ owed s) ++ (if deferred p then [id] else []).
Proof. change (sent (spawn s id p stream detached)) with (sent s). by rw owed_spawn app_assoc. Qed.
Ltac answering :=
  first [ by rw app_nil_r | exact (answers_later _ _ _ _ _) | by apply answers_upgrade
        | by apply answers_now; [|rw sent_ack] ].
Lemma route_answers : answers (route ops) execution_accepts.
Proof.
  intros s stream id p.
  destruct p; cbn [route execution_accepts deferred]; try (split; [done|]; split; [answering | done]).
  - destruct (op_configure _ _ _ _ _ _) as [[err res] w]. split; [done|]. split; [|done]. by apply answers_now; [|rw sent_ack].
  - destruct (terminal_place _ _ _ _ _) as [[cwd' env] w]. by rw app_nil_r.
Qed.
Lemma management_answers : answers (route_management ops) management_accepts.
Proof. intros s stream id p. destruct p; cbn [route_management management_accepts]; split; try done; (split; [answering | done]). Qed.
Lemma ios_host_answers : answers route_ios_host ios_host_accepts.
Proof. intros s stream id p. destruct p; cbn [route_ios_host ios_host_accepts]; split; try done; (split; [answering | done]). Qed.

(** The goroutines a frame adds: they serve that frame, and of those a switch
    adds, the ones that owe an acknowledgement are detached. *)
Definition adds_jobs (detaches : bool) (s s' : state) (p : node_payload) : Prop :=
  ∃ new, d_jobs s' = d_jobs s ++ new ∧
    ∀ j, j ∈ new → dj_payload j = p ∧ dj_cancelled j = false ∧ (detaches = true → deferred p = true → dj_detached j = true).
Lemma adds_none d (s s' : state) p : d_jobs s' = d_jobs s → adds_jobs d s s' p.
Proof. intros Hj. exists []. rw app_nil_r. split; [done|]. intros j Hin. by apply not_elem_of_nil in Hin. Qed.
Lemma adds_one d (s s' : state) id p stream detached : d_jobs s' = d_jobs s → (d = true → deferred p = true → detached = true) →
  adds_jobs d s (spawn s' id p stream detached) p.
Proof.
  intros Hj Hd. eexists. split; [unfold spawn; cbn; by rw Hj|]. intros j Hin. by apply list_elem_of_singleton in Hin as ->.
Qed.
Lemma route_jobs (s : state) stream id p : adds_jobs true s (route ops s stream id p) p.
Proof.
  destruct p; cbn [route]; try (apply adds_none; done); try (by apply adds_one).
  - destruct (op_configure _ _ _ _ _ _) as [[err res] w]. by apply adds_none.
  - destruct (terminal_place _ _ _ _ _) as [[c e] w]. by apply adds_none.
Qed.
Lemma route_weak (s : state) stream id p : adds_jobs false s (route ops s stream id p) p.
Proof. destruct (route_jobs s stream id p) as (new & En & Hnew). exists new. split; [done|]. intros j Hj. by destruct (Hnew j Hj) as (? & ? & _). Qed.
Lemma management_jobs (s : state) stream id p : adds_jobs false s (route_management ops s stream id p) p.
Proof. destruct p; cbn [route_management]; try (apply adds_none; done); by apply adds_one. Qed.
Lemma ios_host_jobs (s : state) stream id p : adds_jobs false s (route_ios_host s stream id p) p.
Proof. destruct p; cbn [route_ios_host]; try (apply adds_none; done); by apply adds_one. Qed.

(** whether a node offers its iOS handler *)
Definition offers (ios : bool) (s : state) : bool := ios && bool_decide (is_Some (d_ios s)).
Lemma offers_same ios (s s' : state) : d_ios s' = d_ios s → offers ios s' = offers ios s.
Proof. intros H. unfold offers. by rw H. Qed.
Lemma chain_done (s s' : state) id : owed s' = owed s → d_out s' = d_out s → d_chain s' = d_chain s ++ [id] →
  sent s' ++ owed s' ≡ₚ (sent s ++ owed s) ++ [id].
Proof. intros Ho Hd Hc. unfold sent. rw Ho Hd Hc. solve_Permutation. Qed.
Lemma try_ios_acks (s : state) stream id i ios :
  d_ios s = Some ios →
  let '(s', handled) := try_ios s stream id (FIos i) in
  handled = ah_takes i ∧ d_ios s' ≠ None ∧ (handled = false → s' = s) ∧
  sent s' ++ owed s' ≡ₚ (sent s ++ owed s) ++ (if handled then [id] else []).
Proof.
  intros Ei. unfold try_ios. rw Ei. pose proof (ah_law id i ios) as Hlaw. destruct (ah_handle id i ios) as [[st acked] handled].
  destruct Hlaw as [Hh Hc]. split; [done|]. destruct handled; [|destruct Hc as (-> & -> & ->)].
  - destruct (ah_spawns i ios); cbn [andb] in Hc; (split; [done|]; split; [done|]).
    + rw owed_spawn. cbn [deferred]. subst acked.
      set (s1 := s <| d_ios := _ |> <| d_chain := _ |>). change (sent (spawn s1 id (FIos i) stream false)) with (sent s1).
      change (owed s1) with (owed s). unfold sent, s1. cbn. destruct (ah_owes i); solve_Permutation.
    + subst acked. by apply chain_done.
  - split; [done|]. assert (Es : s <| d_ios := Some ios |> <| d_chain := d_chain s ++ [] |> = s)
      by (destruct s; cbn in *; subst; by rw app_nil_r). rw Es. split; [done|]. by rw app_nil_r.
Qed.
Lemma handle_with_acks ios switch accepts s stream id p :
  answers switch accepts →
  offers ios (handle_with ios switch s stream id p) = offers ios s ∧
  sent (handle_with ios switch s stream id p) ++ owed (handle_with ios switch s stream id p) ≡ₚ
  (sent s ++ owed s) ++ (if chain_takes (offers ios s) p || accepts p then [id] else []).
Proof.
  intros Hsw. unfold handle_with. destruct (Hsw s stream id p) as (Hd & Hp & Hown).
  assert (Hswi : offers ios (switch s stream id p) = offers ios s) by by apply offers_same.
  destruct p; cbn [try_build try_xcode chain_takes orb]; try (by destruct ios).
  - destruct Hown as [Hs Ha]. rw Ha. pose proof (ah_law id (stream, p) (d_builds s)) as Hlaw.
    destruct (ah_handle id (stream, p) (d_builds s)) as [[st acked] handled].
    destruct Hlaw as [Hh Hc]. rw build_by_payload in Hh. rw -Hh. destruct handled; cbn [orb try_xcode try_ios].
    + rw no_spawn_build in Hc. subst acked. split; [by apply offers_same | by apply chain_done].
    + destruct Hc as (-> & -> & _). assert (Es : s <| d_builds := d_builds s |> <| d_chain := d_chain s ++ [] |> = s)
        by (destruct s; cbn; by rw app_nil_r). rw Es. destruct ios; cbn; rw Hs; by rw app_nil_r.
  - destruct Hown as [Hs Ha]. rw Ha. pose proof (ah_law id p (d_xcode s)) as Hlaw.
    destruct (ah_handle id p (d_xcode s)) as [[st acked] handled].
    destruct Hlaw as [Hh Hc]. rw -Hh. destruct handled; cbn [orb try_ios].
    + rw no_spawn_xcode in Hc. subst acked. split; [by apply offers_same | by apply chain_done].
    + destruct Hc as (-> & -> & _). assert (Es : s <| d_xcode := d_xcode s |> <| d_chain := d_chain s ++ [] |> = s)
        by (destruct s; cbn; by rw app_nil_r). rw Es. destruct ios; cbn; rw Hs; by rw app_nil_r.
  - destruct Hown as [Hs Ha]. rw Ha orb_false_r. unfold offers. destruct ios; cbn [andb]; [|rw Hs; by rw app_nil_r].
    destruct (d_ios s) as [i|] eqn:Ei.
    2:{ assert (try_ios s stream id (FIos p) = (s, false)) as -> by (unfold try_ios; by rw Ei). rw Hs Ei. by rw app_nil_r. }
    pose proof (try_ios_acks s stream id p i Ei) as H. destruct (try_ios s stream id (FIos p)) as [s' handled].
    destruct H as (-> & Hsome & Hsame & Hacks). rw (bool_decide_eq_true_2 (is_Some (Some i))); [|by eexists]. cbn [andb].
    destruct (ah_takes p); cbn [orb] in *.
    + split; [|done]. apply bool_decide_eq_true_2. by apply not_eq_None_Some.
    + rw (Hsame eq_refl) Hs Ei. rw (bool_decide_eq_true_2 (is_Some (Some i))); [|by eexists]. split; [done | by rw app_nil_r].
Qed.
(** A frame of the devices adds a goroutine of the iOS handler or none; any
    other adds what the switch adds. *)
Lemma handle_with_jobs ios switch d (s : state) stream id p :
  (∀ s, adds_jobs d s (switch s stream id p) p) →
  match p with
  | FIos _ => adds_jobs false s (handle_with ios switch s stream id p) p ∧
              (d_ios s = None → d_jobs (switch s stream id p) = d_jobs s → d_jobs (handle_with ios switch s stream id p) = d_jobs s)
  | _ => adds_jobs d s (handle_with ios switch s stream id p) p
  end.
Proof.
  intros Hsw. unfold handle_with.
  destruct p as [b|x|i| | | | | | | | | | | | | | | | | | | | | | | | | | | | |]; cbn [try_build try_xcode]; try (by destruct ios; apply Hsw).
  - destruct (ah_handle _ _ _) as [[st acked] []]; [by apply adds_none|]. cbn [try_xcode].
    set (s1 := s <| d_builds := _ |> <| d_chain := _ |>). destruct ios; cbn [try_ios]; exact (Hsw s1).
  - destruct (ah_handle _ _ _) as [[st acked] []]; [by apply adds_none|].
    set (s1 := s <| d_xcode := _ |> <| d_chain := _ |>). destruct ios; cbn [try_ios]; exact (Hsw s1).
  - assert (Hweak : ∀ s1 : state, adds_jobs false s1 (switch s1 stream id (FIos i)) (FIos i)).
    { intros s1. destruct (Hsw s1) as (new & En & Hnew). exists new. split; [done|]. intros j Hj. destruct (Hnew j Hj) as (? & ? & _). done. }
    destruct ios; [|by split]. unfold try_ios. destruct (d_ios s) as [h|]; [|by split]. split; [|done].
    destruct (ah_handle id i h) as [[st acked] []]; destruct (ah_spawns i h); try (by apply adds_none); try (by apply adds_one).
    + set (s1 := spawn _ _ _ _ _). destruct (Hweak s1) as (new & En & Hnew). exists (mkDjob id (FIos i) stream false false true :: new).
      split; [rw En; unfold s1, spawn; cbn; by rw -app_assoc|]. intros j [->|Hj]%elem_of_cons; [done | by apply Hnew].
    + set (s1 := s <| d_ios := _ |> <| d_chain := _ |>). exact (Hweak s1).
Qed.
(** a goroutine that ends pays its acknowledgement *)
Lemma reply_acks id (p : node_payload) o :
  omap ack_id (reply_of id p o) = if deferred p && negb (device_command p) then [id] else [].
Proof.
  unfold reply_of. destruct (oc_versions o) as [[v1 v2] v3].
  assert (Hno : ∀ l, omap ack_id (map (mkUp KOther) l) = []) by (induction l; done).
  destruct p; cbn [deferred device_command andb negb]; try done; try apply Hno. by rw andb_false_r.
Qed.
Lemma filter_alter_done (jobs : list (@djob B X I)) k j :
  jobs !! k = Some j → dj_running j = true →
  map dj_id (filter (λ j, dj_running j && deferred (dj_payload j) = true) jobs) ≡ₚ
  (if deferred (dj_payload j) then [dj_id j] else []) ++
  map dj_id (filter (λ j, dj_running j && deferred (dj_payload j) = true) (alter (λ j, j <| dj_running := false |>) k jobs)).
Proof.
  revert k. induction jobs as [|j' jobs IH]; intros [|k] Hk Hr; try done.
  - injection Hk as ->. change (alter (λ j, j <| dj_running := false |>) 0 (j :: jobs)) with (j <| dj_running := false |> :: jobs).
    rw !filter_cons. cbn [dj_running dj_payload]. rw Hr. cbn.
    by destruct (deferred (dj_payload j)).
  - change (alter (λ j, j <| dj_running := false |>) (S k) (j' :: jobs))
      with (j' :: alter (λ j, j <| dj_running := false |>) k jobs). rw !filter_cons.
    case_decide; cbn [map]; [|by apply IH]. rw (IH k) //. solve_Permutation.
Qed.
(** the loss of a stream cancels goroutines, and leaves them to answer *)
Lemma drop_owed (jobs : list (@djob B X I)) stream :
  map dj_id (filter (λ j, dj_running j && deferred (dj_payload j) = true)
    (map (λ j, if negb (dj_detached j) && (dj_stream j =? stream) then j <| dj_cancelled := true |> else j) jobs)) =
  map dj_id (filter (λ j, dj_running j && deferred (dj_payload j) = true) jobs).
Proof.
  induction jobs as [|j jobs IH]; [done|]. cbn [map]. rw !filter_cons.
  set (j2 := if negb (dj_detached j) && (dj_stream j =? stream) then j <| dj_cancelled := true |> else j).
  assert (E : dj_running j2 = dj_running j ∧ dj_payload j2 = dj_payload j ∧ dj_id j2 = dj_id j)
    by (unfold j2; by destruct (negb (dj_detached j) && (dj_stream j =? stream))).
  destruct E as (-> & -> & Eid). destruct (decide _); cbn [map]; [by rw Eid IH | done].
Qed.
Section role.
Variables (ios : bool) (switch : state → nat → string → node_payload → state) (accepts : node_payload → bool) (stopAll : state → state).
Hypothesis switch_answers : answers switch accepts.
Hypothesis stop_silent : ∀ s, d_ios (stopAll s) = d_ios s ∧ sent (stopAll s) = sent s ∧ d_jobs (stopAll s) = d_jobs s.
Abbreviation step := (role_step ops (handle_with ios switch) stopAll).
Hypothesis switch_jobs : ∀ s stream id p, adds_jobs false s (switch s stream id p) p.
(** the goroutines of the iOS handler have their handler *)
Definition served (s : state) : Prop := d_ios s = None → ∀ j, j ∈ d_jobs s → device_command (dj_payload j) = false.
Definition dinv (has : bool) (ls : list (@dlabel B X I)) (s : state) : Prop :=
  offers ios s = has ∧ served s ∧ sent s ++ owed s ≡ₚ commands accepts has ls.
Lemma commands_snoc has ls l : commands accepts has (ls ++ [l]) = commands accepts has ls ++ commands accepts has [l].
Proof. apply omap_app. Qed.
Lemma handle_ios_none s stream id p : d_ios (handle_with ios switch s stream id p) = None → d_ios s = None.
Proof.
  unfold handle_with. intros H. destruct (try_build s stream id p) as [s1 h1] eqn:E1.
  assert (H1 : d_ios s1 = d_ios s).
  { unfold try_build in E1. destruct p; simplify_eq; try done. destruct (ah_handle _ _ _) as [[st a] h]. by simplify_eq. }
  destruct h1; [congruence|]. destruct (try_xcode s1 id p) as [s2 h2] eqn:E2.
  assert (H2 : d_ios s2 = d_ios s1).
  { unfold try_xcode in E2. destruct p; simplify_eq; try done. destruct (ah_handle _ _ _) as [[st a] h]. by simplify_eq. }
  destruct h2; [congruence|]. destruct (if ios then _ else _) as [s3 h3] eqn:E3.
  assert (H3 : d_ios s3 = None → d_ios s2 = None).
  { destruct ios; [|by simplify_eq]. unfold try_ios in E3. destruct (d_ios s2) as [h|] eqn:E; [|done].
    destruct p; simplify_eq; rw ?E //. destruct (ah_handle _ _ _) as [[st a] h']. simplify_eq. by destruct (ah_spawns p h). }
  destruct (switch_answers s3 stream id p) as [Hsw _]. rw -H1 -H2. apply H3. destruct h3; [done|]. by rw -Hsw.
Qed.
Lemma served_frame s stream id p : served s → served (handle_with ios switch s stream id p).
Proof.
  intros Hs Hnone. pose proof (handle_ios_none _ _ _ _ Hnone) as Hno. specialize (Hs Hno).
  pose proof (handle_with_jobs ios switch false s stream id p (λ s, switch_jobs s stream id p)) as Hj.
  destruct (switch_answers s stream id p) as (_ & _ & Hown).
  destruct p as [b|x|i| | | | | | | | | | | | | | | | | | | | | | | | | | | | |].
  3: { destruct Hj as [_ Hj]. rw Hj //. by destruct Hown as [-> _]. }
  all: destruct Hj as (new & En & Hnew); rw En; intros j [Hin|Hin]%elem_of_app; [by apply Hs | by destruct (Hnew j Hin) as [-> _]].
Qed.
Lemma done_facts s k o s' j : served s → step s (DDone k o) = Some s' → d_jobs s !! k = Some j → dj_running j = true →
  bool_decide (is_Some (d_ios s')) = bool_decide (is_Some (d_ios s)) ∧
  d_jobs s' = alter (λ j, j <| dj_running := false |>) k (d_jobs s) ∧
  sent s' ≡ₚ sent s ++ (if deferred (dj_payload j) then [dj_id j] else []).
Proof.
  intros Hserved Hs Hj Hr. unfold role_step in Hs. destruct (d_exited s); [done|]. rw Hj /= Hr /= in Hs.
  assert (Hin : j ∈ d_jobs s) by by eapply list_elem_of_lookup_2.
  set (s1 := s <| d_jobs := _ |> <| d_world := _ |> <| d_out := _ |>) in Hs.
  assert (Hsent : sent s1 ≡ₚ sent s ++ (if deferred (dj_payload j) && negb (device_command (dj_payload j)) then [dj_id j] else [])).
  { unfold sent, s1. cbn. by rw omap_app reply_acks app_assoc. }
  destruct (dj_payload j) as [b|x|i| | | | | | | | | | | | | | | | | | | | | | | | | | | | |] eqn:Ep; simplify_eq; rw ?andb_true_r in Hsent; try done.
  - destruct (d_ios s) as [h|] eqn:Ei; [|by specialize (Hserved Ei j Hin); rw Ep in Hserved].
    unfold finish_ios. change (d_ios s1) with (d_ios s). rw Ei. pose proof (ah_work_law (dj_id j) i h) as Hw.
    destruct (ah_work (dj_id j) i h) as [st acked]. cbn in Hw. subst acked. split; [done|]. split; [done|].
    cbn [deferred device_command negb] in *. rw andb_false_r app_nil_r in Hsent. rw -Hsent. unfold sent, s1. cbn. solve_Permutation.
  - destruct (oc_restart o); done.
Qed.
Lemma dinv_step has ls s l s' : dinv has ls s → step s l = Some s' → dinv has (ls ++ [l]) s'.
Proof.
  intros (Hios & Hserved & Hp) Hs. unfold dinv. rw commands_snoc. pose proof Hs as Hs0. unfold role_step in Hs. destruct (d_exited s); [done|].
  destruct l as [stream id p|k o|stream].
  - injection Hs as <-. destruct (handle_with_acks ios switch accepts s stream id p switch_answers) as [Hi Hacks].
    rw Hi Hios in Hacks |- *. split; [done|]. split; [by apply served_frame|]. rw Hacks Hp. cbn. by destruct (_ || _).
  - destruct (d_jobs s !! k) as [j|] eqn:Hj; [cbn in Hs|done]. destruct (dj_running j) eqn:Hr; [|done].
    destruct (done_facts s k o s' j Hserved Hs0 Hj Hr) as (Hi & Hjobs & Hsent).
    split; [unfold offers in *; by rw Hi|]. split.
    + intros Hnone. rw Hnone /= in Hi. symmetry in Hi. apply bool_decide_eq_false in Hi.
      specialize (Hserved (proj2 (eq_None_not_Some _) Hi)). rw Hjobs. intros j1 Hin. apply list_elem_of_lookup in Hin as [i Hl].
      rw list_lookup_alter in Hl. case_decide; [|by eapply Hserved, list_elem_of_lookup_2].
      subst k. rw Hj in Hl. injection Hl as <-. cbn. by eapply Hserved, list_elem_of_lookup_2.
    + cbn. rw app_nil_r -Hp Hsent. unfold owed. rw Hjobs (filter_alter_done _ _ _ Hj Hr). solve_Permutation.
  - injection Hs as <-. set (s1 := s <| d_jobs := _ |>). destruct (stop_silent s1) as (Hi & Hse & Hjo).
    split; [unfold offers in *; by rw Hi|]. split; [|cbn; rw app_nil_r -Hp Hse; unfold owed; rw Hjo drop_owed; done].
    intros Hnone. rw Hi in Hnone. specialize (Hserved Hnone). rw Hjo. intros j1 Hin.
    cbn in Hin. apply list_elem_of_fmap in Hin as (j0 & -> & Hj0). specialize (Hserved j0 Hj0). by destruct (negb _ && _).
Qed.
Lemma dinv_run s0 ls s : d_chain s0 = [] → d_out s0 = [] → d_jobs s0 = [] →
  trace_run (fun_step step) s0 ls s → dinv (offers ios s0) ls s.
Proof.
  intros Hc Ho Hj. apply (trace_run_history _ (dinv (offers ios s0))) with (pre := []).
  - intros ls' s1 l s2 Hd Hs. by eapply dinv_step.
  - split; [done|]. split; [|unfold sent, owed; by rw Hc Ho Hj]. intros _ j Hin. rw Hj in Hin. by apply not_elem_of_nil in Hin.
Qed.
(** every command acknowledged when no goroutine is left *)
Lemma dinv_quiet has ls s : dinv has ls s → Forall (λ j, dj_running j = false) (d_jobs s) → sent s ≡ₚ commands accepts has ls.
Proof.
  intros (_ & _ & Hp) Hdone. rw -Hp. assert (Hno : owed s = []); [|by rw Hno app_nil_r].
  unfold owed. induction Hdone as [|j jobs Hj _ IH]; [done|]. rw filter_cons Hj. exact IH.
Qed.
End role.
(** a goroutine of the switch that owes an acknowledgement is never cancelled with the stream *)
Definition uncancelled (s : state) : Prop :=
  ∀ j, j ∈ d_jobs s → device_command (dj_payload j) = false →
    (deferred (dj_payload j) = true → dj_detached j = true) ∧ (dj_detached j = true → dj_cancelled j = false).
Lemma uncancelled_frame (s : state) stream id p : uncancelled s → uncancelled (HandleFrame ops s stream id p).
Proof.
  intros Hu j Hin Hdev. pose proof (handle_with_jobs true (route ops) true s stream id p (λ s, route_jobs s stream id p)) as Hj.
  destruct (device_command p) eqn:Ed.
  - destruct p as [b|x|i| | | | | | | | | | | | | | | | | | | | | | | | | | | | |]; try done. destruct Hj as [(new & En & Hnew) _].
    unfold HandleFrame in Hin. rw En in Hin. apply elem_of_app in Hin as [Hin|Hin]; [by apply Hu|].
    destruct (Hnew j Hin) as (Hp & _). by rw Hp in Hdev.
  - assert (adds_jobs true s (HandleFrame ops s stream id p) p) as (new & En & Hnew) by by destruct p.
    rw En in Hin. apply elem_of_app in Hin as [Hin|Hin]; [by apply Hu|].
    destruct (Hnew j Hin) as (-> & -> & Hd). auto.
Qed.
Lemma uncancelled_step (s : state) l s' : uncancelled s → dstep ops s l = Some s' → uncancelled s'.
Proof.
  intros Hu Hs. unfold dstep, role_step in Hs. destruct (d_exited s); [done|]. destruct l as [stream id p|k o|stream].
  - injection Hs as <-. by apply uncancelled_frame.
  - destruct (d_jobs s !! k) as [j0|] eqn:Hk; [cbn in Hs|done]. destruct (negb (dj_running j0)); [done|].
    assert (Ej : d_jobs s' = alter (λ j, j <| dj_running := false |>) k (d_jobs s)).
    { destruct (dj_payload j0); simplify_eq; try done; [|by destruct (oc_restart o)].
      unfold finish_ios. destruct (d_ios _) as [h|]; [by destruct (ah_work _ _ _) | done]. }
    intros j Hin. rw Ej in Hin. apply list_elem_of_lookup in Hin as [i Hi]. rw list_lookup_alter in Hi.
    case_decide as Hki; [|by apply Hu; eapply list_elem_of_lookup_2].
    destruct (d_jobs s !! k) as [j1|] eqn:H1; cbn in Hi; simplify_eq. cbn. by apply Hu; eapply list_elem_of_lookup_2.
  - injection Hs as <-. intros j Hin. cbn in Hin. apply list_elem_of_fmap in Hin as (j0 & -> & Hj0).
    specialize (Hu j0 Hj0). destruct (dj_detached j0) eqn:Ed; cbn [negb andb]; [by rw Ed|].
    destruct (dj_stream j0 =? stream); cbn; rw ?Ed; [|done]. intros Hdev. destruct (Hu Hdev) as [Hu1 _]. split; [exact Hu1 | done].
Qed.
End acks.

(** ** The nodes *)
Section node.
Context `{!MapRange DeviceManager.managedDevice} (mc : DeviceManager.ManagerConfig) (cal : DeviceManager.calendar) {W : Type}.
(** the iOS handler of this node *)
#[local] Instance node_ios : AckingHandler IosFrames.FrameHandler (IosFrames.frame_env * IosFrames.ios_payload) := ios_acking mc cal.
Abbreviation node_state :=
  (@dsys W BuildRunner.rsys XcodeJob.jsys IosFrames.FrameHandler BuildRunner.build_payload XcodeJob.xpayload
     (IosFrames.frame_env * IosFrames.ios_payload)).
Abbreviation on_node f :=
  (f W BuildRunner.rsys XcodeJob.jsys IosFrames.FrameHandler BuildRunner.build_payload XcodeJob.xpayload
     (IosFrames.frame_env * IosFrames.ios_payload)%type build_acking xcode_acking node_ios).
(** the commands a kind of node acknowledges *)
Abbreviation accepted accepts ios :=
  (commands (AckingHandler0 := build_acking) (AckingHandler1 := xcode_acking) (AckingHandler2 := node_ios) accepts ios).
Lemma no_spawn_builds f s : ah_spawns (AckingHandler := build_acking) f s = false.
Proof. done. Qed.
Lemma no_spawn_xcodes f s : ah_spawns (AckingHandler := xcode_acking) f s = false.
Proof. done. Qed.
Lemma build_stream_free stream b :
  ah_takes (AckingHandler := build_acking) (stream, b) = ah_takes (AckingHandler := build_acking) (0, b).
Proof. done. Qed.
(** nothing received yet *)
Definition fresh (s : node_state) : Prop := d_chain s = [] ∧ d_out s = [] ∧ d_jobs s = [].

(** C15: on an execution node that starts without having received anything,
    with or without the iOS handler, the acknowledgements sent and those a
    goroutine still owes are exactly the acknowledged commands received, one
    each, however frames, ends of goroutines and losses of streams
    interleave; so when no goroutine is left every command has had its one
    acknowledgement, and no other frame has had any (a device frame on a node
    without the handler is such a frame).  A goroutine that owes one has a
    context the loss of its stream does not cancel, except those of the device
    commands (claim, release, configure, runner control), which have the
    context of the stream and answer all the same. *)
Theorem dispatch_acks ops (s0 s : node_state) ls :
  fresh s0 → trace_run (fun_step (on_node (@dstep) ops)) s0 ls s →
  let commands := accepted execution_accepts (offers true s0) ls in
  sent s ++ owed s ≡ₚ commands ∧
  (Forall (λ j, dj_running j = false) (d_jobs s) → sent s ≡ₚ commands) ∧
  (∀ j, j ∈ d_jobs s → deferred (dj_payload j) = true → device_command (dj_payload j) = false → dj_cancelled j = false).
Proof.
  intros (Hc & Ho & Hj) Hr. cbv zeta.
  assert (Hd : on_node (@dinv) true execution_accepts (offers true s0) ls s).
  { eapply (dinv_run ops no_spawn_builds no_spawn_xcodes build_stream_free true (route ops) _ (StopAll ops));
      [apply route_answers | done | apply route_weak | done.. | exact Hr]. }
  split; [apply Hd|]. split; [by apply (dinv_quiet true)|].
  assert (Hu : uncancelled s).
  { eapply (trace_run_invariant _ uncancelled); [|  |exact Hr].
    - intros s1 l s2. apply uncancelled_step.
    - intros j Hin. rw Hj in Hin. by apply not_elem_of_nil in Hin. }
  intros j Hin Hdef Hdev. destruct (Hu j Hin Hdev) as [H1 H2]. auto.
Qed.
(** The management node and the iOS host answer for their
    commands too: on either, started without having received anything, the
    acknowledgements sent and those a goroutine still owes are exactly the
    commands its switch and the handlers before it accept, one each, in every
    interleaving with ends of goroutines and losses of streams; an iOS host
    answers the commands of other kinds of node it lists with an error. *)
Theorem role_acks ops (s0 s1 s2 : node_state) ls :
  fresh s0 →
  (trace_run (fun_step (on_node (@management_step) ops)) s0 ls s1 →
     sent s1 ++ owed s1 ≡ₚ accepted management_accepts false ls ∧
     (Forall (λ j, dj_running j = false) (d_jobs s1) → sent s1 ≡ₚ accepted management_accepts false ls)) ∧
  (trace_run (fun_step (on_node (@ios_host_step) ops)) s0 ls s2 →
     sent s2 ++ owed s2 ≡ₚ accepted ios_host_accepts (offers true s0) ls ∧
     (Forall (λ j, dj_running j = false) (d_jobs s2) → sent s2 ≡ₚ accepted ios_host_accepts (offers true s0) ls)).
Proof.
  intros (Hc & Ho & Hj). split; intros Hr.
  - assert (Hd : on_node (@dinv) false management_accepts false ls s1).
    { eapply (dinv_run ops no_spawn_builds no_spawn_xcodes build_stream_free false (route_management ops) _ (StopAll_management ops));
        [apply management_answers | done | apply management_jobs | done.. | exact Hr]. }
    split; [apply Hd | by apply (dinv_quiet false)].
  - assert (Hd : on_node (@dinv) true ios_host_accepts (offers true s0) ls s2).
    { eapply (dinv_run ops no_spawn_builds no_spawn_xcodes build_stream_free true route_ios_host _ StopAll_ios_host);
        [apply ios_host_answers | done | apply ios_host_jobs | done.. | exact Hr]. }
    split; [apply Hd | by apply (dinv_quiet true)].
Qed.
End node.

Module DispatchWitness.
Definition ops : @node_ops nat BuildRunner.build_payload XcodeJob.xpayload (IosFrames.frame_env * IosFrames.ios_payload) :=
  mkOps (λ _ w, (None, S w)) (λ _ w, (Some "session x not found", w)) (λ _, []) (λ _ w, w)
    (λ _ _ r _ w, (None, mkConfigResult r r false, w)) (λ _ w, (None, w)) (λ _ _ w, (None, w)) (λ _ _, None)
    (λ id, "/work/envs/" +:+ id) (λ _ w, (true, w)) (λ _ _, "") (λ _ _ _ w, w) (λ _ _ w, w) (λ _ w, w) (λ _ w, w)
    (λ w, w) (λ w, w) (λ _ _ w, w).
Definition start : @dsys nat BuildRunner.rsys XcodeJob.jsys IosFrames.FrameHandler BuildRunner.build_payload XcodeJob.xpayload
    (IosFrames.frame_env * IosFrames.ios_payload) :=
  mkDsys BuildRunner.rinit XcodeJob.jinit
    (Some (IosFrames.mkHandler (Some (DeviceManager.mkManager ∅ 0 "" false None 5 [])) None)) 0 [] [] [] false.
Definition done_ok : outcome := mkOutcome None ("2.1.0", "", "") [] false.
Definition cal0 : DeviceManager.calendar := DeviceManager.mkCalendar (λ _, None) (λ now _, now).
Definition no_answers : IosFrames.frame_env := IosFrames.mkFrameEnv (λ _ _ _, Err "offline") (λ _, None) (Ok []) 0.
Definition release : IosFrames.ios_payload := IosFrames.IosReleaseDevice (DeviceManager.mkReleaseReq "U1" "" true).
Definition labels : list (@dlabel BuildRunner.build_payload XcodeJob.xpayload (IosFrames.frame_env * IosFrames.ios_payload)) :=
  [DFrame 0 "f1" (CreateSession []); DFrame 0 "f2" (ManageEditor []); DFrame 0 "f3" (HostExec []);
   DFrame 0 "f6" (FIos (no_answers, release));
   DStreamDrop 0; DFrame 1 "f4" (FBuild (BuildRunner.NodeBuildCancel "b")); DDone 0 done_ok; DDone 1 done_ok;
   DFrame 1 "f5" (DeleteSession "x"); DDone 2 done_ok].
Definition mc0 : DeviceManager.ManagerConfig := DeviceManager.mkManagerConfig "" (Ok "") "" false.
#[local] Instance host_ios : AckingHandler IosFrames.FrameHandler (IosFrames.frame_env * IosFrames.ios_payload) := node_ios mc0 cal0.
Definition run_end : @dsys nat BuildRunner.rsys XcodeJob.jsys IosFrames.FrameHandler BuildRunner.build_payload XcodeJob.xpayload
    (IosFrames.frame_env * IosFrames.ios_payload) :=
  default start (Prelude.exec (@dstep nat _ _ _ _ _ _ build_acking xcode_acking host_ios ops) start labels).
Lemma dispatch_acks_witness :
  fresh start ∧ sent run_end = ["f4"; "f6"; "f1"; "f2"; "f5"] ∧ sent run_end ≡ₚ ["f1"; "f2"; "f6"; "f4"; "f5"] ∧
  map dj_cancelled (d_jobs run_end) = [false; true; true].
Proof.
  assert (Hf : fresh start) by done. split; [exact Hf|]. split; [by vm_compute|]. split; [|by vm_compute].
  refine (proj1 (proj2 (dispatch_acks mc0 cal0 ops start run_end labels Hf _)) _).
  - apply exec_run. by vm_compute.
  - by vm_compute; repeat constructor.
Defined.
(** ** The other kinds of node *)
Definition role_labels : list (@dlabel BuildRunner.build_payload XcodeJob.xpayload (IosFrames.frame_env * IosFrames.ios_payload)) :=
  [DFrame 0 "f1" (DeleteExecutionNode "a"); DFrame 0 "f2" (CreateSession []); DFrame 0 "f3" (RuntimeUpgrade []);
   DStreamDrop 0; DDone 0 done_ok; DFrame 1 "f4" (Configure CfgLLM "s" 1 [])].
Definition management_end := default start (Prelude.exec
  (@management_step nat _ _ IosFrames.FrameHandler _ _ (IosFrames.frame_env * IosFrames.ios_payload)%type
     build_acking xcode_acking host_ios ops) start role_labels).
Definition ios_host_end := default start (Prelude.exec
  (@ios_host_step nat _ _ IosFrames.FrameHandler _ _ (IosFrames.frame_env * IosFrames.ios_payload)%type
     build_acking xcode_acking host_ios ops) start role_labels).
Lemma role_acks_witness :
  fresh start ∧ sent management_end = ["f1"] ∧ sent management_end ++ owed management_end ≡ₚ ["f1"; "f3"] ∧
  sent ios_host_end = ["f1"; "f2"; "f3"] ∧ sent ios_host_end ++ owed ios_host_end ≡ₚ ["f1"; "f2"; "f3"].
Proof.
  assert (Hf : fresh start) by done.
  destruct (role_acks mc0 cal0 ops start management_end ios_host_end role_labels Hf) as [Hm Hi].
  split; [exact Hf|]. split; [by vm_compute|]. split; [|split; [by vm_compute|]].
  - refine (proj1 (Hm _)). apply exec_run. by vm_compute.
  - refine (proj1 (Hi _)). apply exec_run. by vm_compute.
Defined.
(** An iOS host leaves the configuration commands of a session unanswered *)
Lemma ios_host_drops_configure : "f4" ∉ sent ios_host_end ++ owed ios_host_end.
Proof. vm_compute. intros H. repeat (apply elem_of_cons in H as [H|H]; [done|]). by apply elem_of_nil in H. Qed.
(** The launch of an execution node has the context of the stream that asked for it *)
Lemma launch_dies_with_stream :
  let s := Prelude.exec (@management_step nat _ _ IosFrames.FrameHandler _ _ (IosFrames.frame_env * IosFrames.ios_payload)%type
     build_acking xcode_acking host_ios ops) start
     [DFrame 0 "f1" (CreateExecutionNode (mkCreateNode "a" "" "n" "s" "" STARTUP_DOCKER "" [])); DStreamDrop 0] in
  (map dj_cancelled ∘ d_jobs) <$> s = Some [true].
Proof. by vm_compute. Qed.
End DispatchWitness.
