(* ===== verification/WdaPipeline.v ===== *)
(** * WdaPipeline: the steps of a WDA job (common/ioshost/wdapipeline.go)

    The production implementation of [WdaJob.WdaSteps]: downloading and
    verifying the artifact, its cache, the choice of signing assets, signing,
    installing, launching with its retries.  The artifacts on disk are a map
    from path to content (the identity and profile a job writes beside them
    are known by their paths and by whether writing them failed); the host answers the network, the phones and the calls of go-ios,
    by the number of the attempt where there are several, and says which file
    operations fail and after how many bytes. *)
From S2P Require Import Prelude GoStrings GoPath Sha256 DevicesConfig DeviceManager WdaJob Tunnel.
From Stdlib Require Import Ascii.

Definition disk := gmap string string.
(** what a GET brings: an error building or performing it, or a response *)
Inductive get_answer := GBuild (e : string) | GDo (e : string) | GResp (status length : Z) (body : http_body).
(** signing.PrepareAssetsOptions, devicecontrol.Options *)
Record asset_options := mkAssetOptions {
  ao_BundleID : string; ao_ProfileName : string; ao_DeviceName : string; ao_P12Password : string;
  ao_P12Output : string; ao_ProfileOut : string; ao_KeyID : string; ao_IssuerID : string; ao_PrivateKey : string;
  ao_Device : string; ao_CertificateID : string
}.
Record link_options := mkLinkOptions { lo_UDID : string; lo_WDABundleID : string; lo_XCTestConfig : string }.
Record phost := mkPhost {
  ph_cacheDir : string;
  ph_resolve : option (string → string);                 (** ResolveDownloadURL when a resolver is wired *)
  ph_client : option string;                             (** DownloadHTTPClient's error *)
  ph_get : nat → string → get_answer;                    (** attempt 0 through the proxy, 1 directly *)
  ph_open : nat → option string;                         (** creating the destination of an attempt *)
  ph_write : nat → nat → option (string * nat);          (** a write of an attempt: its error, the bytes it wrote *)
  ph_ctx : nat → nat → option string;                    (** ctx.Err() after a read of an attempt *)
  ph_cacheRead : bool;                                   (** the cache entry can be opened and read *)
  ph_mkdir : bool; ph_srcRead : bool; ph_store : option nat; (** keeping a copy: MkdirAll, ReadFile, WriteFile *)
  ph_save : nat → option string;                         (** writing identity and profile *)
  ph_devices : result (list string); ph_lan : string → bool;
  ph_developerMode : option go_error;
  ph_assets : asset_options → result (string * string * string);   (** PrepareSigningAssets: p12, profile, certificate *)
  ph_expiry : string → string;                           (** profileExpiry of a file's bytes *)
  ph_profile : string;                                   (** what the minted profile holds *)
  ph_sign : string → string → string → SigningAssets → result string;   (** SignWithFiles: artifact, output, bundle id, identity *)
  ph_connect : option string; ph_send : option string;
  ph_apps : result (list string);
  ph_start : nat → link_options → option go_error; ph_wait : nat → option go_error; ph_source : option string
}.

(** ** Fetching the artifact *)
Definition artifactSizeLimit : Z := Z.shiftl 512 20.
Definition artifactExt (url : string) : string :=
  let lower := ToLower url in
  if HasSuffix lower ".ipa" then ".ipa" else if HasSuffix lower ".zip" then ".zip" else ".ipa".
Section pipeline.
Variable h : phost.
(** the loop over the body: progress reported, what the file holds, what was hashed or the error *)
Fixpoint download_loop (n : nat) (total : Z) (reads : list (string * option read_err)) (last : read_err) (k : nat) (acc : string) :
    list Z * string * (() + go_error) :=
  let failed r := (@nil Z, acc, inr r) in
  match reads with
  | [] => match last with
          | ReadEOF => ([], acc, inl ())
          | ReadErr e => failed (errors_New ("download artifact: " +:+ e))
          end
  | (data, err) :: rest =>
      let proceed acc pcts :=
        match err with
        | Some ReadEOF => (pcts, acc, inl ())
        | Some (ReadErr e) => (pcts, acc, inr (errors_New ("download artifact: " +:+ e)))
        | None =>
            match ph_ctx h n k with
            | Some e => (pcts, acc, inr (errors_New e))
            | None => let '(more, acc, r) := download_loop n total rest last (S k) acc in (pcts ++ more, acc, r)
            end
        end in
      if String.eqb data "" then proceed acc []
      else
        let written := blen (acc +:+ data) in
        if (written >? artifactSizeLimit)%Z then failed (errors_New "artifact exceeds 536870912 bytes")
        else match ph_write h n k with
             | Some (e, m) => ([], acc +:+ take_bytes m data, inr (errors_New e))
             | None => proceed (acc +:+ data) (if (total >? 0)%Z then [Z.quot (written * 100) total] else [])
             end
  end.
Definition fetchWithClient (n : nat) (url want workDir : string) (fs : disk) : disk * list Z * (string + go_error) :=
  match ph_get h n url with
  | GBuild e => (fs, [], inr (errors_New e))
  | GDo e => (fs, [], inr (errors_New ("download artifact: " +:+ e)))
  | GResp status total body =>
      if (status >=? 400)%Z then (fs, [], inr (errors_New ("download artifact: HTTP " +:+ pretty status)))
      else
        let dest := Join [workDir; "wda-artifact" +:+ artifactExt url] in
        match ph_open h n with
        | Some e => (fs, [], inr (errors_New e))
        | None =>
            let '(pcts, content, r) := download_loop n total (hb_reads body) (hb_end body) 0 "" in
            let fs := <[dest := content]> fs in
            match r with
            | inr e => (fs, pcts, inr e)
            | inl _ =>
                let got := sha256hex content in
                if negb (String.eqb got want)
                then (fs, pcts, inr (mkGoError ("artifact sha256 mismatch: got " +:+ got) [errSHAMismatch]))
                else (fs, pcts, inl dest)
            end
        end
  end.
Definition fetchThroughProxy (url want workDir : string) (fs : disk) : disk * list Z * (string + go_error) :=
  match ph_resolve h with
  | None => fetchWithClient 0 url want workDir fs
  | Some resolve =>
      match ph_client h with
      | Some e => (fs, [], inr (errors_New e))
      | None => fetchWithClient 0 (resolve url) want workDir fs
      end
  end.
Definition cache_path (sha : string) : string := Join [ph_cacheDir h; "artifacts"; sha +:+ ".ipa"].
Definition cachedArtifact (sha : string) (fs : disk) : disk * option string :=
  if String.eqb (ph_cacheDir h) "" then (fs, None)
  else
    let cached := cache_path sha in
    match fs !! cached with
    | None => (fs, None)
    | Some content =>
        if negb (ph_cacheRead h) then (fs, None)
        else if negb (String.eqb (sha256hex content) sha) then (delete cached fs, None)
        else (fs, Some cached)
    end.
Definition storeCachedArtifact (sha src : string) (fs : disk) : disk :=
  if String.eqb (ph_cacheDir h) "" || String.eqb src "" then fs
  else if negb (ph_mkdir h) then fs
  else
    let dst := cache_path sha in
    if String.eqb src dst then fs
    else match fs !! src with
         | None => fs
         | Some data =>
             if negb (ph_srcRead h) then fs
             else <[dst := match ph_store h with None => data | Some m => take_bytes m data end]> fs
         end.
Definition Fetch (art : NodeIosWdaArtifact) (workDir : string) (fs : disk) : disk * list Z * (string + go_error) :=
  let url := TrimSpace (art_Url art) in
  if String.eqb url "" then (fs, [], inr (errors_New "artifact url is empty"))
  else
    let want := ToLower (TrimSpace (art_Sha256 art)) in
    if String.eqb want "" then (fs, [], inr (errors_New "artifact sha256 is required"))
    else
      let '(fs, cached) := cachedArtifact want fs in
      match cached with
      | Some path => (fs, [100%Z], inl path)
      | None =>
          let '(fs, pcts, r) := fetchThroughProxy url want workDir fs in
          let '(fs, pcts, r) :=
            match r with
            | inl dest => (fs, pcts, inl dest)
            | inr e =>
                let '(fs, more, r2) := fetchWithClient 1 url want workDir fs in
                (fs, pcts ++ more, match r2 with inl dest => inl dest | inr _ => inr e end)
            end in
          match r with
          | inr e => (fs, pcts, inr e)
          | inl dest => (storeCachedArtifact want dest fs, pcts, inl dest)
          end
      end.

(** ** Phones *)
Definition deviceByUDID (udid : string) : option go_error :=
  match ph_devices h with
  | Err e => Some (errors_New ("list devices: " +:+ e))
  | Ok udids =>
      if bool_decide (udid ∈ udids) then None
      else if ph_lan h udid then None
      else Some (mkGoError ("device is not attached: udid " +:+ udid) [errDeviceNotPresent])
  end.
Definition EnableDeveloperMode (udid : string) : option go_error :=
  match deviceByUDID udid with Some e => Some e | None => ph_developerMode h end.

(** ** Signing *)
Definition shortUDID (udid : string) : string :=
  if String.length udid <=? 8 then udid else drop_bytes (String.length udid - 8) udid.
Definition isUnauthorized (e : string) : bool :=
  let msg := ToLower e in
  Contains msg "401" || Contains msg "403" || Contains msg "unauthorized" || Contains msg "forbidden".
Definition defaultDeviceKitBundleID : string := "com.deviceboxhq.goios.devicekit.runner".
Definition defaultDeviceKitXctest : string := "devicekit-iosUITests.xctest".
Definition no_material : go_error := mkGoError "no signing material supplied" [errNoSigningMaterial].
Definition manual_assets (mat : NodeIosSigningMaterial) (workDir : string) : SigningAssets + go_error :=
  if String.eqb (sm_CertificateP12 mat) "" || String.eqb (sm_ProvisioningProfile mat) "" then inr no_material
  else match ph_save h 0 with
       | Some e => inr (errors_New e)
       | None =>
           match ph_save h 1 with
           | Some e => inr (errors_New e)
           | None => inl (mkAssets (Join [workDir; "identity.p12"]) (Join [workDir; "profile.mobileprovision"])
                            (sm_P12Password mat) (sm_CertificateId mat) (ph_expiry h (sm_ProvisioningProfile mat)) false)
           end
       end.
Definition connect_stages (mat : NodeIosSigningMaterial) : list IosJobStage :=
  [STAGE_ENSURING_DEVICE; STAGE_ENSURING_BUNDLE_ID]
  ++ (if String.eqb (sm_CertificateId mat) "" then [STAGE_PREPARING_CERTIFICATE] else []) ++ [STAGE_CREATING_PROFILE].
Definition connect_assets (req : NodeIosWdaJobRequest) (mat : NodeIosSigningMaterial) (workDir : string) :
    list IosJobStage * (SigningAssets + go_error) :=
  if String.eqb (sm_AscKeyId mat) "" || String.eqb (sm_AscIssuerId mat) "" || String.eqb (sm_AscPrivateKey mat) ""
  then ([], inr no_material)
  else match deviceByUDID (jr_Udid req) with
       | Some e => ([], inr e)
       | None =>
           let bundleID := firstNonEmpty [default "" (art_TargetBundleId <$> jr_Artifact req); defaultDeviceKitBundleID] in
           let password := if String.eqb (sm_P12Password mat) "" then "wda-job" else sm_P12Password mat in
           let opts := mkAssetOptions bundleID ("device-control WDA " +:+ shortUDID (jr_Udid req))
             ("device-control " +:+ shortUDID (jr_Udid req)) password (Join [workDir; "identity.p12"])
             (Join [workDir; "profile.mobileprovision"]) (sm_AscKeyId mat) (sm_AscIssuerId mat) (sm_AscPrivateKey mat)
             (jr_Udid req) (sm_CertificateId mat) in
           (connect_stages mat,
            match ph_assets h opts with
            | Err e => inr (if isUnauthorized e then mkGoError ("app store connect rejected the API key: " +:+ e) [errASCUnauthorized]
                            else errors_New e)
            | Ok (p12, profile, cert) => inl (mkAssets p12 profile password cert (ph_expiry h (ph_profile h)) false)
            end)
       end.
Definition PrepareSigning (req : NodeIosWdaJobRequest) (workDir : string) : list IosJobStage * (SigningAssets + go_error) :=
  let mode := match jr_Signing req with Some mat => sm_Mode mat | None => SIGNING_OTHER 0 end in
  if bool_decide (jr_Action req = WDA_JOB_INSTALL_SIGNED) || bool_decide (mode = SIGNING_PRESIGNED)
  then ([], inl (mkAssets "" "" "" "" "" true))
  else match jr_Signing req with
       | None => ([], inr no_material)
       | Some mat =>
           match mode with
           | SIGNING_MANUAL_P12 => ([], manual_assets mat workDir)
           | SIGNING_APP_STORE_CONNECT => connect_assets req mat workDir
           | _ => ([], inr (mkGoError "this signing mode requires manual action" [errManualSigningRequired]))
           end
       end.
Definition Sign (artifactPath : string) (assets : SigningAssets) (targetBundleID workDir : string) : string + go_error :=
  if sa_Presigned assets then inl artifactPath
  else match ph_sign h artifactPath (Join [workDir; "wda-signed.ipa"]) targetBundleID assets with Ok out => inl out | Err e => inr (errors_New e) end.

(** ** Installing and launching *)
Definition Install (udid signedPath : string) : option go_error :=
  match deviceByUDID udid with
  | Some e => Some e
  | None =>
      match ph_connect h with
      | Some e => Some (errors_New ("zipconduit connect: " +:+ e))
      | None => match ph_send h with Some e => Some (errors_New ("install: " +:+ e)) | None => None end
      end
  end.
Definition IsInstalled (udid bundleID : string) : bool + go_error :=
  if String.eqb bundleID "" then inr (errors_New "is-installed: bundle id is empty")
  else match deviceByUDID udid with
       | Some e => inr e
       | None =>
           match ph_connect h with
           | Some e => inr (errors_New ("is-installed: connect installation proxy: " +:+ e))
           | None =>
               match ph_apps h with
               | Err e => inr (errors_New ("is-installed: browse user apps: " +:+ e))
               | Ok apps => inl (bool_decide (bundleID ∈ apps))
               end
           end
       end.
Definition isTransientUsbmuxdError (e : go_error) : bool :=
  let msg := ToLower (ge_text e) in
  existsb (Contains msg) ["connectex"; "did not properly respond"; "i/o timeout"; "connection reset"; "broken pipe";
    "use of closed network connection"; "no connection could be made"; "eof"].
Definition isDeveloperModeError (e : go_error) : bool :=
  let msg := ToLower (ge_text e) in Contains msg "developer mode" || Contains msg "developermode".
(** the attempts: the waits in seconds, and the error that ended them *)
Fixpoint launch_attempts (opts : link_options) (remaining attempt : nat) (launchErr : go_error) : list Z * option go_error :=
  match remaining with
  | O => ([], Some launchErr)
  | S remaining =>
      match ph_start h attempt opts with
      | None => ([], None)
      | Some e =>
          if isDeveloperModeError e
          then ([], Some (mkGoError ("developer mode is not enabled on the device: " +:+ ge_text e) [errDeveloperModeRequired]))
          else if negb (isTransientUsbmuxdError e) then ([], Some e)
          else
            let backoff := Z.shiftl 1 (Z.of_nat attempt) in
            match ph_wait h attempt with
            | Some e => ([backoff], Some e)
            | None => let '(waits, r) := launch_attempts opts remaining (S attempt) e in (backoff :: waits, r)
            end
      end
  end.
Definition Launch (udid bundleID xctestConfig : string) : list IosJobStage * (Z + go_error) :=
  if String.eqb bundleID "" then ([], inr (errors_New "launch: runner bundle id is empty"))
  else
    let started := [STAGE_STARTING_RUNNER; STAGE_FORWARDING_PORT; STAGE_WAITING_READY] in
    let xctestConfig := if String.eqb xctestConfig "" then defaultDeviceKitXctest else xctestConfig in
    match (launch_attempts (mkLinkOptions udid bundleID xctestConfig) 3 1 (errors_New "")).2 with
    | Some e => (started, inr e)
    | None =>
        (started ++ [STAGE_VERIFYING_CONTROL],
         match ph_source h with Some e => inr (errors_New ("runner control check: " +:+ e)) | None => inl 0%Z end)
    end.
(** the steps a job is given, on these files *)
Definition NewGoiosWdaSteps (fs : disk) : WdaSteps :=
  mkSteps (λ art workDir, let '(_, pcts, r) := Fetch art workDir fs in (pcts, r))
    EnableDeveloperMode PrepareSigning Sign Install Launch IsInstalled.
End pipeline.
