(* ===== verification/WdaPipelineProofs.v ===== *)
(** * WdaPipelineProofs: theorems about the steps of a WDA job

    Whatever Fetch hands on has the demanded digest, from the cache or from the
    network; signing assets by mode; what a launch does with failures; and the
    result of a whole job run on these steps. *)
From S2P Require Import Prelude GoStrings GoPath Sha256 DevicesConfig DeviceManager WdaJob Tunnel WdaPipeline.
From Stdlib Require Import Ascii.

Section fetch.
Variable h : phost.
Definition verified (fs : disk) (path want : string) : Prop := ∃ content, fs !! path = Some content ∧ sha256hex content = want.
Lemma fetchWithClient_verified n url want workDir fs fs' pcts path :
  fetchWithClient h n url want workDir fs = (fs', pcts, inl path) →
  verified fs' path want ∧ path = Join [workDir; "wda-artifact" +:+ artifactExt url].
Proof.
  unfold fetchWithClient. destruct (ph_get h n url) as [| |status total body]; try done.
  destruct (status >=? 400)%Z; [done|]. destruct (ph_open h n); [done|].
  destruct (download_loop _ _ _ _ _ _ _) as [[p content] [[]|e]]; [|done].
  destruct (String.eqb_spec (sha256hex content) want) as [E|]; cbn [negb]; [|done].
  intros [= <- <- <-]. split; [|done]. exists content. split; [apply lookup_insert_eq | done].
Qed.
Lemma fetchThroughProxy_verified url want workDir fs fs' pcts path :
  fetchThroughProxy h url want workDir fs = (fs', pcts, inl path) → verified fs' path want ∧
  ∃ name, path = Join [workDir; name].
Proof.
  unfold fetchThroughProxy. repeat case_match; try done; intros Hf; apply fetchWithClient_verified in Hf as [Hv ->]; eauto.
Qed.
Lemma cachedArtifact_verified sha fs fs' path :
  cachedArtifact h sha fs = (fs', Some path) → verified fs' path sha ∧ path = cache_path h sha ∧ fs' = fs.
Proof.
  unfold cachedArtifact. destruct (String.eqb _ ""); [done|]. destruct (fs !! cache_path h sha) as [content|] eqn:E; [|done].
  destruct (ph_cacheRead h); [cbn [negb]|done]. destruct (String.eqb_spec (sha256hex content) sha) as [Es|]; cbn [negb]; [|done].
  intros [= <- <-]. split; [by exists content | done].
Qed.
(** the copy in the cache does not touch the artifact *)
Lemma storeCachedArtifact_keeps sha src fs : storeCachedArtifact h sha src fs !! src = fs !! src.
Proof.
  unfold storeCachedArtifact. destruct (_ || _); [done|]. destruct (negb _); [done|].
  destruct (String.eqb_spec src (cache_path h sha)) as [|Hne]; [done|].
  destruct (fs !! src) as [data|] eqn:E; [|done]. destruct (negb _); [done|]. by rw lookup_insert_ne.
Qed.
(** files other than the cache entry and the destination are left as they are *)
Lemma fetch_cases art workDir fs fs' pcts path :
  Fetch h art workDir fs = (fs', pcts, inl path) →
  let want := ToLower (TrimSpace (art_Sha256 art)) in
  want ≠ "" ∧ verified fs' path want ∧ (path = cache_path h want ∨ ∃ name, path = Join [workDir; name]).
Proof.
  unfold Fetch. destruct (String.eqb _ ""); [done|].
  destruct (String.eqb_spec (ToLower (TrimSpace (art_Sha256 art))) "") as [|Hw]; [done|].
  destruct (cachedArtifact h _ fs) as [fs1 [cached|]] eqn:Ec.
  { intros [= <- <- <-]. apply cachedArtifact_verified in Ec as (Hv & -> & _). auto. }
  destruct (fetchThroughProxy h _ _ _ fs1) as [[fs2 p2] r2] eqn:E2. destruct r2 as [dest|e].
  - intros [= <- <- <-]. apply fetchThroughProxy_verified in E2 as [(c & Hc & Hs) Hp]. split; [done|]. split; [|by right].
    exists c. by rw storeCachedArtifact_keeps.
  - destruct (fetchWithClient h 1 _ _ _ fs2) as [[fs3 p3] [dest|e']] eqn:E3; [|done].
    intros [= <- <- <-]. apply fetchWithClient_verified in E3 as [(c & Hc & Hs) ->]. split; [done|]. split; [|right; eauto].
    exists c. by rw storeCachedArtifact_keeps.
Qed.
End fetch.

(** C19: the artifact a job signs and installs is the one that
    was approved: whenever Fetch succeeds, through the proxy, by the direct
    fallback or from the cache, however the transfer was cut up, interrupted,
    truncated or written short, and whatever the cache held, a digest was
    demanded and the file at the returned path has exactly that SHA-256.
    Without a digest, and with any other content, it fails. *)
Theorem fetch_verified h art workDir fs fs' pcts path :
  Fetch h art workDir fs = (fs', pcts, inl path) →
  let want := ToLower (TrimSpace (art_Sha256 art)) in
  want ≠ "" ∧ (∃ content, fs' !! path = Some content ∧ sha256hex content = want) ∧
  (path = cache_path h want ∨ ∃ name, path = Join [workDir; name]).
Proof. apply fetch_cases. Qed.

(** ** Launching *)
Section launching.
Variable h : phost.
Lemma launch_attempts_spec opts more attempt e0 waits r :
  launch_attempts h opts more attempt e0 = (waits, r) →
  length waits ≤ more ∧
  (r = None → ∃ k, attempt ≤ k < attempt + more ∧ ph_start h k opts = None) ∧
  (∀ k, attempt ≤ k < attempt + length waits → ∃ e, ph_start h k opts = Some e ∧ isTransientUsbmuxdError e = true).
Proof.
  revert attempt e0 waits r. induction more as [|more IH]; intros attempt e0 waits r; cbn [launch_attempts].
  { intros [= <- <-]. cbn. split; [lia|]. split; [done|]. lia. }
  destruct (ph_start h attempt opts) as [e|] eqn:Es.
  2:{ intros [= <- <-]. cbn. split; [lia|]. split; [intros _; exists attempt; split; [lia | done]|]. lia. }
  destruct (isDeveloperModeError e); [intros [= <- <-]; cbn; split; [lia|]; split; [done | lia]|].
  destruct (isTransientUsbmuxdError e) eqn:Et; cbn [negb]; [|intros [= <- <-]; cbn; split; [lia|]; split; [done | lia]].
  destruct (ph_wait h attempt).
  { intros [= <- <-]. cbn. split; [lia|]. split; [done|]. intros k Hk. assert (k = attempt) as -> by lia. eauto. }
  destruct (launch_attempts h opts more (S attempt) e) as [ws r'] eqn:El. intros [= <- <-].
  destruct (IH _ _ _ _ El) as (Hlen & Hok & Hret). cbn [length]. split; [lia|]. split.
  - intros Hr. destruct (Hok Hr) as (k & Hk & Hs). exists k. split; [lia | done].
  - intros k Hk. destruct (decide (k = attempt)) as [->|]; [eauto|]. apply Hret. lia.
Qed.
(** A launch is attempted at most three times, again only after a failure that
    looks transient, and is successful only when one attempt was and the
    control check after it. *)
Theorem launch_outcome udid bundleID xctest stages port :
  Launch h udid bundleID xctest = (stages, inl port) →
  bundleID ≠ "" ∧ ph_source h = None ∧ ∃ k xctest', 1 ≤ k ≤ 3 ∧ ph_start h k (mkLinkOptions udid bundleID xctest') = None ∧
    STAGE_VERIFYING_CONTROL ∈ stages.
Proof.
  unfold Launch. destruct (String.eqb_spec bundleID "") as [|Hb]; [done|].
  destruct (launch_attempts h _ 3 1 _) as [waits r] eqn:El. cbn [snd]. destruct r as [e|]; [done|].
  destruct (ph_source h); [done|]. intros [= <- <-].
  destruct (launch_attempts_spec _ _ _ _ _ _ El) as (_ & Hok & _). destruct (Hok eq_refl) as (k & Hk & Hs).
  split; [done|]. split; [done|]. eexists k, _. do 2 (split; [first [lia | exact Hs]|]). do 3 right. left.
Qed.
End launching.

(** ** A whole job on these steps *)
Section job.
Variables (jc : JobConfig) (h : phost).
(** A provisioning that reaches the phone has fetched an artifact with the
    demanded digest, and installed it as it is or as signing returned it. *)
Theorem provision_installs_verified env j st req art workDir fs out st' out' :
  env_steps env = NewGoiosWdaSteps h fs →
  provision jc env j st req art workDir out = (st', inr out') →
  ∃ fs' pcts path signed,
    Fetch h art workDir fs = (fs', pcts, inl path) ∧ verified fs' path (ToLower (TrimSpace (art_Sha256 art))) ∧
    Install h (jr_Udid req) signed = None ∧
    (signed = path ∨ ∃ assets, Sign h path assets (art_TargetBundleId art) workDir = inl signed).
Proof.
  intros Hsteps. unfold provision. rw Hsteps. cbn [WdaJob.Fetch WdaJob.EnableDeveloperMode WdaJob.PrepareSigning WdaJob.Sign
    WdaJob.Install NewGoiosWdaSteps].
  destruct (env_ctxErr env CkFetch); [done|].
  destruct (Fetch h art workDir fs) as [[fs' pcts] [path|e]] eqn:Ef; [|done].
  pose proof (fetch_cases _ _ _ _ _ _ _ Ef) as (_ & Hv & _).
  destruct (jr_EnableDeveloperMode req && _); [done|]. destruct (env_ctxErr env CkSigning); [done|].
  destruct (PrepareSigning h req workDir) as [seen [assets|e]]; [|done].
  destruct (negb (sa_Presigned assets) && _); [done|].
  destruct (sa_Presigned assets).
  - destruct (env_ctxErr env CkInstall); [done|]. destruct (Install h (jr_Udid req) path) eqn:Ei; [done|].
    intros _. exists fs', pcts, path, path. auto.
  - destruct (Sign h path assets (art_TargetBundleId art) workDir) as [signed|e] eqn:Es; [|done].
    destruct (env_ctxErr env CkInstall); [done|]. destruct (Install h (jr_Udid req) signed) eqn:Ei; [done|].
    intros _. exists fs', pcts, path, signed. eauto 10.
Qed.
End job.

(** ** Defects, and the theorems at concrete inputs *)
Module PipelineWitness.
Definition abc_sha : string := "ba7816bf8f01cfea414140de5dae2223b00361a396177a9cb410ff61f20015ad".
Definition host (answers : nat → string → get_answer) (starts : nat → option go_error) : phost :=
  mkPhost "/state" (Some (λ u, "https://proxy/" +:+ u)) None answers (λ _, None) (λ _ _, None) (λ _ _, None) true true true None
    (λ _, None) (Ok ["U1"]) (λ _, false) None (λ _, Ok ("", "", "")) (λ _, "") "" (λ _ _ _ _, Ok "") None None (Ok [])
    (λ n _, starts n) (λ _, None) None.
Definition art : NodeIosWdaArtifact := mkArtifact "https://x/a.ipa" (abc_sha +:+ " ") "1" "com.x" "x.xctest".
(** the proxy garbles the body, the direct attempt brings it in two pieces *)
Definition answers (n : nat) (_ : string) : get_answer :=
  match n with 0 => GResp 200 3 (mkBody [("xyz", Some ReadEOF)] ReadEOF) | _ => GResp 200 3 (mkBody [("ab", None); ("c", None)] ReadEOF) end.
Definition direct : phost := host answers (λ _, None).
Lemma fetched_path : (Fetch direct art "/w" ∅).2 = inl "/w/wda-artifact.ipa".
Proof. vm_compute. reflexivity. Qed.
Lemma wanted_digest : ToLower (TrimSpace (art_Sha256 art)) = abc_sha.
Proof. vm_compute. reflexivity. Qed.
Lemma triple_split {A B C} (x : A * B * C) c : x.2 = c → ∃ a b, x = (a, b, c).
Proof. intros <-. destruct x as [[a b] d]. by exists a, b. Qed.
Lemma fetch_verified_witness :
  ∃ fs' pcts content, Fetch direct art "/w" ∅ = (fs', pcts, inl "/w/wda-artifact.ipa") ∧
    fs' !! "/w/wda-artifact.ipa" = Some content ∧ sha256hex content = abc_sha.
Proof.
  destruct (triple_split _ _ fetched_path) as (fs' & pcts & E).
  destruct (fetch_verified _ _ _ _ _ _ _ E) as (_ & (content & Hc & Hs) & _).
  exists fs', pcts, content. split; [exact E|]. split; [exact Hc | exact (eq_trans Hs wanted_digest)].
Defined.
(** The digest names the cache entry without being checked to be one: a digest
    with dots reaches out of the cache, and what is there is removed. *)
Lemma digest_removes_file :
  (cachedArtifact (host answers (λ _, None)) "../../home/op/backup" {[ "/home/op/backup.ipa" := "mine" ]}) = (∅, None).
Proof. by vm_compute. Qed.
(** After the third failed attempt the launch waits eight more seconds before it gives up *)
Lemma launch_waits_after_last :
  launch_attempts (host answers (λ _, Some (errors_New "i/o timeout"))) (mkLinkOptions "U1" "com.x" "x.xctest") 3 1 (errors_New "") =
  ([2; 4; 8]%Z, Some (errors_New "i/o timeout")).
Proof. by vm_compute. Qed.
End PipelineWitness.
