(* ===== verification/Executors.v ===== *)
(** * Executors: starting and ending the provider of a session
    (execution/executor.go, stream_executor.go, docker_executor.go)

    The three executors behind the interface of session.go: a host process, a
    host process with a frame stream, a container.  The world they change is
    what has to be released again: child processes, containers, connections to
    the docker daemon.  The host answers every call that can fail.  For the
    command line of a container there is a reader of the shell's quoting rules,
    against which [shellJoin] is proved. *)
From S2P Require Import Prelude GoStrings GoPath GoJson EditorConfig Workspace Session Tunnel.
From S2P Require Import Resources ResourceArchive.
From Stdlib Require Import Ascii.

(** what an executor reads of a nodeSession *)
Record run_session := mkRunSession {
  rs_entry : session_entry; rs_taskID : string; rs_editorID : string; rs_editorSessionID : string;
  rs_stateRoot : string; rs_mode : string; rs_spec : NodeCreateSession
}.
Abbreviation rs_id s := (en_id (rs_entry s)).
Abbreviation rs_provider s := (en_provider (rs_entry s)).
Abbreviation rs_workDir s := (en_workDir (rs_entry s)).
Abbreviation rs_home s := (en_home (rs_entry s)).

(** ** Resources of runs *)
Record child := mkChild {
  ch_command : string * list string; ch_dir : string; ch_env : list string; ch_stdin : list json
}.
Record container := mkContainer {
  ct_name : string; ct_image : string; ct_env : list string; ct_mount : string * string; ct_session : string; ct_started : bool
}.
Record guest_exec := mkGuestExec { ge_cmd : list string; ge_env : list string; ge_dir : string }.
Record xworld := mkXworld {
  w_children : gmap nat child; w_next : nat;
  w_containers : gmap string container; w_clients : nat
}.
#[export] Instance eta_xworld : Settable xworld := λ w, mkXworld (w_children w) (w_next w) (w_containers w) (w_clients w).
Inductive execution :=
| ExProcess (pid : nat)                                        (** no cleanup *)
| ExStream (pid : nat)
| ExContainer (id : string) (run : guest_exec).

(** what the exit of a child and the inspection of an exec tell *)
Inductive exit_status := Exited (code : Z) (text : string) | WaitFailed (text : string).
Inductive inspection := InspectErr (e : string) | Running | Stopped (code : Z).
Record exec_host := mkExecHost {
  xh_environ : list string;
  xh_command : list string → result (string * list string);   (** agent.RuntimeCommand *)
  xh_mkdir : string → option string;
  xh_stdinPipe : option string; xh_stdoutPipe : option string; xh_stderrPipe : option string;
  xh_start : option string;                                   (** cmd.Start *)
  xh_write : option string;                                   (** writing the start frame *)
  xh_exit : nat → exit_status;
  xh_client : option string; xh_image : string → bool; xh_pull : option string; xh_drain : option string;
  xh_abs : string → result string;
  xh_create : container → result string; xh_startContainer : string → option string;
  xh_execCreate : guest_exec → option string; xh_attach : option string;
  xh_inspect : nat → inspection; xh_done : nat → option string;   (** by poll: the exec, and ctx.Err() when done *)
  xh_remove : string → bool                                   (** ContainerRemove succeeds *)
}.

(** ** The quoting of a command line *)
Definition squote : ascii := "'".
Definition dquote : ascii := "034".
(** a quote of the argument: close, a quoted quote, open again *)
Definition quoted_quote : string := String squote (String dquote (String squote (String dquote (String squote "")))).
Fixpoint escape_quotes (a : string) : string :=
  match a with
  | "" => ""
  | String c a => if Ascii.eqb c squote then quoted_quote +:+ escape_quotes a else String c (escape_quotes a)
  end.
Definition quote_arg (a : string) : string := String squote (escape_quotes a +:+ String squote "").
Definition shellJoin (args : list string) : string := concat_sep " " (map quote_arg args).

(** A reader of shell command lines, for the part of POSIX sh that is used
    here: words of plain characters and quoted parts, separated by blanks and
    by [&&].  It gives up on everything else, on bytes that cannot be in an
    argument, and inside double quotes on what the shell expands there. *)
Inductive sh_token := ShWord (w : string) | ShAnd.
Inductive sh_mode := ShPlain | ShSingle | ShDouble.
Definition sh_plain (c : ascii) : bool := session_char c || is_code 47 c || is_code 46 c.
Definition sh_expands (c : ascii) : bool := is_code 36 c || is_code 96 c || is_code 92 c.
Definition flush (cur : option string) : list sh_token := match cur with Some w => [ShWord w] | None => [] end.
Definition grow (cur : option string) (c : ascii) : option string := Some (default "" cur +:+ String c "").
Fixpoint sh_lex (s : string) (m : sh_mode) (cur : option string) : option (list sh_token) :=
  match s with
  | "" => match m with ShPlain => Some (flush cur) | _ => None end
  | String c s =>
      if is_code 0 c then None else
      match m with
      | ShSingle => if Ascii.eqb c squote then sh_lex s ShPlain cur else sh_lex s ShSingle (grow cur c)
      | ShDouble =>
          if Ascii.eqb c dquote then sh_lex s ShPlain cur
          else if sh_expands c then None else sh_lex s ShDouble (grow cur c)
      | ShPlain =>
          if Ascii.eqb c squote then sh_lex s ShSingle (Some (default "" cur))
          else if Ascii.eqb c dquote then sh_lex s ShDouble (Some (default "" cur))
          else if Ascii.eqb c " " then (flush cur ++.) <$> sh_lex s ShPlain None
          else if Ascii.eqb c "&" then
            match s with
            | String "&" s => (λ ts, flush cur ++ ShAnd :: ts) <$> sh_lex s ShPlain None
            | _ => None
            end
          else if sh_plain c then sh_lex s ShPlain (grow cur c)
          else None
      end
  end.
Definition sh_read (line : string) : option (list sh_token) := sh_lex line ShPlain None.

(** ** activeSkillNames, activePluginNames *)
Section names.
Variables (readErr : string → option string) (opts : sessionOptions) (fs : rst).
Definition env_names (kind : string) (spec : NodeCreateSession) : list string :=
  if negb (isSharedEnv spec) then []
  else match inspectEnvironment readErr opts (cs_EnvId spec) fs with
       | Err _ => []
       | Ok inventory => omap (λ e, if String.eqb (ee_kind e) kind then Some (ee_name e) else None) inventory
       end.
Definition activeSkillNames (spec : NodeCreateSession) : list string :=
  match cs_ActiveSkills spec with [] => env_names "skill" spec | names => names end.
Definition activePluginNames (spec : NodeCreateSession) : list string :=
  match cs_ActivePlugins spec with [] => env_names "plugin" spec | names => names end.
End names.
Definition resumeThreadHint (spec : NodeCreateSession) : string := TrimSpace (tag spec "resume_thread_id").

Section executors.
Context `{!MapRange string} (h : exec_host).
(** the names of active skills and plugins of a session *)
Variables (skills plugins : NodeCreateSession → list string).

(** ** Host processes *)
Definition spawn_child (c : child) (w : xworld) : xworld * nat :=
  (w <| w_children := <[w_next w := c]> (w_children w) |> <| w_next := S (w_next w) |>, w_next w).
Fixpoint mkdirs (dirs : list string) : option string :=
  match dirs with
  | [] => None
  | d :: dirs => match xh_mkdir h d with Some e => Some ("prepare " +:+ d +:+ ": " +:+ e) | None => mkdirs dirs end
  end.
Definition prompt_args (s : run_session) (stateRoot workDir home : string) : list string :=
  promptArgs (rs_provider s) (cs_Model (rs_spec s)) (rs_mode s) stateRoot workDir home
    (skills (rs_spec s)) (plugins (rs_spec s)) (isSystemEnv (rs_spec s)).
Definition local_start (s : run_session) (w : xworld) : xworld * result execution :=
  match mkdirs [rs_stateRoot s; rs_home s] with
  | Some e => (w, Err e)
  | None =>
      match xh_command h (prompt_args s (rs_stateRoot s) (rs_workDir s) (rs_home s)) with
      | Err e => (w, Err e)
      | Ok cmd =>
          match xh_stdoutPipe h, xh_stderrPipe h with
          | Some e, _ => (w, Err ("stdout pipe: " +:+ e))
          | None, Some e => (w, Err ("stderr pipe: " +:+ e))
          | None, None =>
              match xh_start h with
              | Some e => (w, Err ("start provider: " +:+ e))
              | None =>
                  let '(w, pid) := spawn_child (mkChild cmd (rs_workDir s) (buildEnv (xh_environ h) (rs_entry s)) []) w in
                  (w, Ok (ExProcess pid))
              end
          end
      end
  end.
(** the first frame of a stream, with the sequence number 0 of a new executor *)
Definition start_fields (s : run_session) : list (string * json) :=
  [("v", JNumber "1"); ("seq", JNumber "0"); ("type", JString "start"); ("provider", JString (rs_provider s));
   ("stateRoot", JString (rs_stateRoot s)); ("workspace", JString (rs_workDir s)); ("home", JString (rs_home s));
   ("sessionId", JString (rs_id s)); ("taskId", JString (rs_taskID s)); ("editorId", JString (rs_editorID s));
   ("editorSessionId", JString (rs_editorSessionID s))]
  ++ (if isSystemEnv (rs_spec s) then [("systemEnv", JBool true)] else [])
  ++ match skills (rs_spec s) with [] => [] | l => [("skills", JArray (map JString l))] end
  ++ match plugins (rs_spec s) with [] => [] | l => [("plugins", JArray (map JString l))] end
  ++ (let hint := resumeThreadHint (rs_spec s) in if String.eqb hint "" then [] else [("resumeThreadId", JString hint)]).
Definition stream_start (s : run_session) (w : xworld) : xworld * result execution :=
  match xh_command h ["stream"] with
  | Err e => (w, Err e)
  | Ok cmd =>
      match mkdirs [rs_stateRoot s; rs_home s] with
      | Some e => (w, Err e)
      | None =>
          match xh_stdinPipe h, xh_stdoutPipe h, xh_stderrPipe h with
          | Some e, _, _ => (w, Err ("stdin pipe: " +:+ e))
          | None, Some e, _ => (w, Err ("stdout pipe: " +:+ e))
          | None, None, Some e => (w, Err ("stderr pipe: " +:+ e))
          | None, None, None =>
              match xh_start h with
              | Some e => (w, Err ("start provider stream: " +:+ e))
              | None =>
                  let c := mkChild cmd (rs_workDir s) (buildEnv (xh_environ h) (rs_entry s)) in
                  match xh_write h with
                  | Some e => ((spawn_child (c []) w).1, Err ("send start frame: " +:+ e))
                  | None => let '(w, pid) := spawn_child (c [JObject (start_fields s)]) w in (w, Ok (ExStream pid))
                  end
              end
          end
      end
  end.

(** ** Containers *)
Definition guestWorkspace : string := "/workspace".
Definition buildGuestEnv (s : run_session) : list string :=
  ("WORKSPACE=" +:+ guestWorkspace)
  :: concat (map (λ item, let name := TrimSpace item.1 in
       if String.eqb name "" then [] else [name +:+ "=" +:+ item.2]) (en_env (rs_entry s)))
  ++ match en_llm (rs_entry s) with Some llm => llmEnv llm | None => [] end.
Definition guest_dir (s : run_session) (leaf : string) : string :=
  Join [guestWorkspace; ".agent-compose"; "sessions"; sanitizeSessionDir (rs_id s); leaf].
Definition guest_args (s : run_session) : list string :=
  prompt_args s (guest_dir s "state") guestWorkspace (guest_dir s "home").
Definition guest_line (s : run_session) : string :=
  "mkdir -p " +:+ guest_dir s "state" +:+ " " +:+ guest_dir s "home"
  +:+ " && agent-compose-runtime " +:+ shellJoin (guest_args s).
Definition ensureImage (image : string) : option string :=
  if xh_image h image then None
  else match xh_pull h with
       | Some e => Some ("pull image " +:+ image +:+ ": " +:+ e)
       | None => match xh_drain h with Some e => Some ("pull image " +:+ image +:+ ": " +:+ e) | None => None end
       end.
Definition close_client (w : xworld) : xworld := w <| w_clients := pred (w_clients w) |>.
Definition cleanup_container (id : string) (w : xworld) : xworld :=
  close_client (if xh_remove h id then w <| w_containers := delete id (w_containers w) |> else w).
Definition guest_exec_of (s : run_session) : guest_exec :=
  mkGuestExec ["sh"; "-lc"; guest_line s] (buildGuestEnv s) guestWorkspace.
Definition docker_start (image : string) (s : run_session) (w : xworld) : xworld * result execution :=
  match xh_client h with
  | Some e => (w, Err ("connect docker daemon: " +:+ e))
  | None =>
      let w := w <| w_clients := S (w_clients w) |> in
      match ensureImage image with
      | Some e => (close_client w, Err e)
      | None =>
          match xh_abs h (rs_workDir s) with
          | Err e => (close_client w, Err ("resolve work dir: " +:+ e))
          | Ok hostWorkDir =>
              let c := mkContainer ("agent-compose-node-" +:+ sanitizeSessionDir (rs_id s)) image (buildGuestEnv s)
                         (hostWorkDir, guestWorkspace) (rs_id s) in
              match xh_create h (c false) with
              | Err e => (close_client w, Err ("create container: " +:+ e))
              | Ok id =>
                  let w := w <| w_containers := <[id := c false]> (w_containers w) |> in
                  match xh_startContainer h id with
                  | Some e => (cleanup_container id w, Err ("start container: " +:+ e))
                  | None =>
                      let w := w <| w_containers := <[id := c true]> (w_containers w) |> in
                      let run := guest_exec_of s in
                      match xh_execCreate h run with
                      | Some e => (cleanup_container id w, Err ("create exec: " +:+ e))
                      | None =>
                          match xh_attach h with
                          | Some e => (cleanup_container id w, Err ("attach exec: " +:+ e))
                          | None => (w, Ok (ExContainer id run))
                          end
                      end
                  end
              end
          end
      end
  end.

(** ** Waiting and cleaning up *)
Definition process_status (st : exit_status) : Z * option string :=
  match st with
  | Exited 0 _ => (0%Z, None)
  | Exited code text => (code, Some text)
  | WaitFailed text => (1%Z, Some text)
  end.
(** the polls of an exec; [None] when it still runs after so many *)
Fixpoint poll_exec (fuel k : nat) : option (Z * option string) :=
  match fuel with
  | O => None
  | S fuel =>
      match xh_inspect h k with
      | InspectErr e => Some (1%Z, Some ("inspect exec: " +:+ e))
      | Stopped code => Some (code, None)
      | Running => match xh_done h k with Some e => Some (1%Z, Some e) | None => poll_exec fuel (S k) end
      end
  end.
Definition reap (pid : nat) (w : xworld) : xworld := w <| w_children := delete pid (w_children w) |>.
Definition wait (fuel : nat) (e : execution) (w : xworld) : option (xworld * (Z * option string)) :=
  match e with
  | ExProcess pid | ExStream pid => Some (reap pid w, process_status (xh_exit h pid))
  | ExContainer _ _ => (λ r, (w, r)) <$> poll_exec fuel 0
  end.
Definition cleanup (e : execution) (w : xworld) : xworld :=
  match e with ExContainer id _ => cleanup_container id w | _ => w end.

(** ** run: start, wait, report, clean up *)
Definition start_kind (k : exec_kind) : run_session → xworld → xworld * result execution :=
  match k with KStream => stream_start | KLocal => local_start | KDocker image => docker_start image end.
(** exit code, success and error of reportResult *)
Definition run_with (start : run_session → xworld → xworld * result execution) (fuel : nat) (s : run_session) (w : xworld) :
    option (xworld * (Z * bool * string)) :=
  match start s w with
  | (w, Err e) => Some (w, (1%Z, false, e))
  | (w, Ok e) =>
      '(w, (code, err)) ← wait fuel e w;
      Some (cleanup e w,
        (int32_of (match err with Some _ => if (code =? 0)%Z then 1%Z else code | None => code end),
         bool_decide (err = None) && (code =? 0)%Z, default "" err))
  end.
Definition run (k : exec_kind) : nat → run_session → xworld → option (xworld * (Z * bool * string)) := run_with (start_kind k).
End executors.
