(* ===== verification/ExecutorsProofs.v ===== *)
(** * ExecutorsProofs: theorems about the executors

    The command line of a container means the intended commands whatever the
    arguments ([docker_command_exact]); a run releases what it started
    ([run_releases]) and reports success exactly for an exit with code 0 of 32 bits. *)
From S2P Require Import Prelude GoStrings GoPath GoJson EditorConfig Workspace Session Tunnel.
From S2P Require Import Resources ResourceArchive Executors.
From Stdlib Require Import Ascii.

(** ** Reading a command line *)
Definition no_nul (s : string) : bool := all_chars (λ c, negb (is_code 0 c)) s.
Lemma append_snoc acc c a : (acc +:+ String c "") +:+ a = acc +:+ String c a.
Proof. by rw -string_app_assoc. Qed.
Lemma lex_plain_step c s cur : sh_plain c = true → sh_lex (String c s) ShPlain cur = sh_lex s ShPlain (grow cur c).
Proof.
  intros Hc. cbn [sh_lex]. rw Hc.
  assert (Hno : ∀ d, sh_plain d = false → Ascii.eqb c d = false) by (intros d Hd; destruct (Ascii.eqb_spec c d); congruence).
  assert (Hz : is_code 0 c = false).
  { destruct (is_code 0 c) eqn:E; [|done]. apply N.eqb_eq in E. destruct c as [[] [] [] [] [] [] [] []]; done. }
  rw Hz !Hno //.
Qed.
Lemma lex_plain w s acc : all_chars sh_plain w = true → sh_lex (w +:+ s) ShPlain (Some acc) = sh_lex s ShPlain (Some (acc +:+ w)).
Proof.
  revert acc. induction w as [|c w IH]; intros acc.
  { intros _. by rw string_app_nil_r. }
  cbn [all_chars]. intros [Hc Hw]%andb_prop. rw append_cons lex_plain_step //. unfold grow. cbn [default].
  by rw (IH _ Hw) append_snoc.
Qed.
Lemma lex_word w s : w ≠ "" → all_chars sh_plain w = true → sh_lex (w +:+ s) ShPlain None = sh_lex s ShPlain (Some w).
Proof.
  destruct w as [|c w]; [done|]. intros _. cbn [all_chars]. intros [Hc Hw]%andb_prop.
  rw append_cons lex_plain_step // lex_plain //.
Qed.
Lemma lex_escape a s acc : no_nul a = true →
  sh_lex (escape_quotes a +:+ String squote s) ShSingle (Some acc) = sh_lex s ShPlain (Some (acc +:+ a)).
Proof.
  revert acc. induction a as [|c a IH]; intros acc.
  { intros _. by rw string_app_nil_r. }
  unfold no_nul. cbn [all_chars]. intros [Hc Ha]%andb_prop. cbn [escape_quotes].
  destruct (Ascii.eqb_spec c squote) as [->|Hne].
  - change (sh_lex (escape_quotes a +:+ String squote s) ShSingle (Some (acc +:+ String squote "")) = sh_lex s ShPlain (Some (acc +:+ String squote a))).
    by rw (IH _ Ha) append_snoc.
  - rw append_cons. cbn [sh_lex]. apply negb_true_iff in Hc. rw Hc. destruct (Ascii.eqb_spec c squote); [done|].
    unfold grow. cbn [default]. by rw (IH _ Ha) append_snoc.
Qed.
Lemma lex_quote a s : no_nul a = true → sh_lex (quote_arg a +:+ s) ShPlain None = sh_lex s ShPlain (Some a).
Proof.
  intros Ha. unfold quote_arg. rw append_cons -string_app_assoc append_cons. change ("" +:+ s) with s.
  change (sh_lex (escape_quotes a +:+ String squote s) ShSingle (Some "") = sh_lex s ShPlain (Some a)). by rw lex_escape.
Qed.
Lemma lex_space s cur ts : sh_lex s ShPlain None = Some ts → sh_lex (String " " s) ShPlain cur = Some (flush cur ++ ts).
Proof. intros H. change (((flush cur ++.) <$> sh_lex s ShPlain None) = Some (flush cur ++ ts)). by rw H. Qed.
Lemma lex_and s cur ts : sh_lex s ShPlain None = Some ts →
  sh_lex (String "&" (String "&" s)) ShPlain cur = Some (flush cur ++ ShAnd :: ts).
Proof. intros H. change (((λ ts, flush cur ++ ShAnd :: ts) <$> sh_lex s ShPlain None) = Some (flush cur ++ ShAnd :: ts)). by rw H. Qed.
Lemma shellJoin_read args : Forall (λ a, no_nul a = true) args → sh_lex (shellJoin args) ShPlain None = Some (map ShWord args).
Proof.
  unfold shellJoin. induction args as [|a args IH]; [done|]. intros [Ha Hs]%Forall_cons. destruct args as [|b args].
  { cbn [map concat_sep]. rw -(string_app_nil_r (quote_arg a)) lex_quote //. }
  change (concat_sep " " (map quote_arg (a :: b :: args))) with (quote_arg a +:+ String " " (concat_sep " " (map quote_arg (b :: args)))).
  rw lex_quote //. by apply (lex_space _ (Some a)), IH.
Qed.
(** ** The directories of a session in its container *)
Lemma guest_dir_spec s leaf : safe_segment leaf = true →
  guest_dir s leaf = "/workspace/.agent-compose/sessions/" +:+ sanitizeSessionDir (rs_id s) +:+ "/" +:+ leaf.
Proof. intros Hl. unfold guest_dir. rw Join_safe //. repeat constructor; auto. Qed.
Lemma sanitizeSessionDir_chars id : all_chars session_char (sanitizeSessionDir id) = true.
Proof.
  unfold sanitizeSessionDir. cbv zeta. case_match; [done|]. apply all_chars_TrimChar, session_runes_chars.
Qed.
Lemma guest_dir_plain s leaf : safe_segment leaf = true → all_chars sh_plain leaf = true →
  guest_dir s leaf ≠ "" ∧ all_chars sh_plain (guest_dir s leaf) = true.
Proof.
  intros Hs Hl. rw guest_dir_spec //. split; [done|]. rw !all_chars_app Hl.
  assert (Hd : all_chars sh_plain (sanitizeSessionDir (rs_id s)) = true).
  { eapply all_chars_impl; [|apply sanitizeSessionDir_chars]. intros c Hc. unfold sh_plain. by rw Hc. }
  by rw Hd.
Qed.
Section commands.
Context `{!MapRange string} (h : exec_host).
Variables (skills plugins : NodeCreateSession → list string).
Abbreviation args := (guest_args skills plugins).
Abbreviation line := (guest_line skills plugins).
Lemma guest_line_read s : Forall (λ a, no_nul a = true) (args s) →
  sh_read (line s) = Some (map ShWord ["mkdir"; "-p"; guest_dir s "state"; guest_dir s "home"] ++ ShAnd
                           :: map ShWord ("agent-compose-runtime" :: args s)).
Proof.
  intros Ha. destruct (guest_dir_plain s "state") as [Hs1 Hs2]; [done..|]. destruct (guest_dir_plain s "home") as [Hh1 Hh2]; [done..|].
  unfold sh_read, guest_line.
  change ("mkdir -p " +:+ ?x) with ("mkdir" +:+ String " " ("-p" +:+ String " " x)).
  change (" " +:+ ?x) with (String " " x).
  change (" && agent-compose-runtime " +:+ ?x) with (String " " (String "&" (String "&" (String " " ("agent-compose-runtime" +:+ String " " x))))).
  rw lex_word //. apply (lex_space _ (Some "mkdir")). rw lex_word //. apply (lex_space _ (Some "-p")).
  rw lex_word //. apply (lex_space _ (Some (guest_dir s "state"))).
  rw lex_word //. apply (lex_space _ (Some (guest_dir s "home"))).
  apply (lex_and _ None). apply (lex_space _ None). rw lex_word //.
  by apply (lex_space _ (Some "agent-compose-runtime")), shellJoin_read.
Qed.
Lemma docker_start_ok image s w w' e :
  docker_start h skills plugins image s w = (w', Ok e) →
  ∃ id c c', e = ExContainer id (guest_exec_of skills plugins s) ∧ xh_create h c = Ok id ∧
    w' = w <| w_clients := S (w_clients w) |> <| w_containers := <[id := c']> (w_containers w) |>.
Proof.
  unfold docker_start. repeat case_match; try done. intros [= <- <-]. eexists _, _, _. split; [done|]. split; [eassumption|].
  cbn. by rw insert_insert_eq.
Qed.
(** C21: the program a container runs is the intended one.
    When the docker executor has started, the command line it gave to the shell
    reads, by the quoting rules of the shell, as creating the two directories
    of the session and then running the agent runtime with exactly the prompt
    arguments, one word each: quotes, blanks, dollar signs, semicolons or
    newlines in the model, the mode, the provider or the names of skills and
    plugins start no other command and split no argument.  The directories lie
    below the session's own directory in the container, whatever its id. *)
Theorem docker_command_exact image s w w' id exec :
  docker_start h skills plugins image s w = (w', Ok (ExContainer id exec)) →
  Forall (λ a, no_nul a = true) (args s) →
  ∃ cmdline, ge_cmd exec = ["sh"; "-lc"; cmdline] ∧
    sh_read cmdline = Some (map ShWord ["mkdir"; "-p"; guest_dir s "state"; guest_dir s "home"] ++ ShAnd
                            :: map ShWord ("agent-compose-runtime" :: args s)) ∧
    ∀ leaf, leaf ∈ ["state"; "home"] →
      guest_dir s leaf = "/workspace/.agent-compose/sessions/" +:+ sanitizeSessionDir (rs_id s) +:+ "/" +:+ leaf.
Proof.
  intros Hd Ha. apply docker_start_ok in Hd as (id' & c & c' & [= -> ->] & _). eexists. split; [done|].
  split; [by apply guest_line_read|]. intros leaf Hl. apply guest_dir_spec.
  repeat (apply elem_of_cons in Hl as [->|Hl]; [done|]). by apply elem_of_nil in Hl.
Qed.
End commands.

(** ** Releasing what was started *)
(** what a run must give back *)
Definition held (w : xworld) : gmap nat child * gmap string container * nat := (w_children w, w_containers w, w_clients w).
Definition fresh_pids (w : xworld) : Prop := ∀ pid c, w_children w !! pid = Some c → pid < w_next w.
(** the daemon's ids are new *)
Definition fresh_ids (h : exec_host) (w : xworld) : Prop := ∀ c id, xh_create h c = Ok id → w_containers w !! id = None.
(** An executor that, when it fails, has released what it took, and whose
    execution releases everything once waited for and cleaned up. *)
Class Releasing (h : exec_host) (start : run_session → xworld → xworld * result execution) :=
  releasing s w : fresh_pids w → fresh_ids h w →
    match start s w with
    | (w', Err _) => held w' = held w
    | (w', Ok e) => ∀ fuel w'' r, wait h fuel e w' = Some (w'', r) → held (cleanup h e w'') = held w
    end.
(** A run on such an executor leaves nothing behind, whatever it reports. *)
Lemma run_with_releases h start `{!Releasing h start} fuel s w w' r :
  fresh_pids w → fresh_ids h w → run_with h start fuel s w = Some (w', r) → held w' = held w.
Proof.
  intros Hp Hi. pose proof (releasing s w Hp Hi) as Hr. unfold run_with. destruct (start s w) as [w1 [e|e]].
  - destruct (wait h fuel e w1) as [[w2 [code err]]|] eqn:Ew; [|done]. intros [= <- <-]. by apply (Hr _ _ _ Ew).
  - by intros [= <- _].
Qed.
Section instances.
Context `{!MapRange string} (h : exec_host).
Variables (skills plugins : NodeCreateSession → list string).
Lemma reap_spawned c w : fresh_pids w → held (reap (spawn_child c w).2 (spawn_child c w).1) = held w.
Proof.
  intros Hp. unfold held, reap, spawn_child; cbn. rw delete_insert_id //.
  destruct (w_children w !! w_next w) as [c'|] eqn:E; [|done]. apply Hp in E. lia.
Qed.
Lemma spawned_releases c w w' pid e : fresh_pids w → spawn_child c w = (w', pid) → e = ExProcess pid ∨ e = ExStream pid →
  ∀ fuel w'' r, wait h fuel e w' = Some (w'', r) → held (cleanup h e w'') = held w.
Proof.
  intros Hp Hs He fuel w'' r. pose proof (reap_spawned c w Hp) as Hr. rw Hs in Hr.
  destruct He as [-> | ->]; cbn; intros [= <- _]; exact Hr.
Qed.
#[export] Instance local_releasing : Releasing h (local_start h skills plugins).
Proof.
  intros s w Hp Hi. unfold local_start. repeat case_match; simplify_eq; try done.
  intros fuel w'' r. by eapply spawned_releases; eauto.
Qed.
(** the stream executor, when the start frame can be written *)
Lemma stream_releasing : xh_write h = None → Releasing h (stream_start h skills plugins).
Proof.
  intros Hw s w Hp Hi. unfold stream_start. rw Hw. repeat case_match; simplify_eq; try done.
  intros fuel w'' r. by eapply spawned_releases; eauto.
Qed.
(** the docker executor, when the daemon removes a container it is asked to *)
Lemma docker_releasing image : (∀ id, xh_remove h id = true) → Releasing h (docker_start h skills plugins image).
Proof.
  intros Hr s w Hp Hi. destruct (docker_start h skills plugins image s w) as [w' [e|e]] eqn:Ed.
  - apply docker_start_ok in Ed as (id & c & c' & -> & Hc & ->). intros fuel w'' r. cbn.
    destruct (poll_exec h fuel 0); [|done]. intros [= <- _]. unfold cleanup_container. rw Hr. unfold held; cbn.
    rw delete_insert_id //. by apply (Hi _ _ Hc).
  - revert Ed. unfold docker_start, cleanup_container. repeat (case_match; try done); intros [= <- _]; try done;
      unfold held; cbn; try done; try congruence; rw ?insert_insert_eq delete_insert_id //; by eapply Hi.
Qed.
End instances.

(** *** Ending *)
(** the poll at which the daemon reports the end or an error, or the context has ended *)
Definition ends_at (h : exec_host) (n : nat) : Prop := xh_inspect h n ≠ Running ∨ xh_done h n ≠ None.
Lemma poll_exec_ends h n : ends_at h n → ∃ r, ∀ fuel, n < fuel → poll_exec h fuel 0 = Some r.
Proof.
  intros Hend. assert (Hg : ∀ m k, k + m = n → ∃ r, ∀ fuel, m < fuel → poll_exec h fuel k = Some r).
  { induction m as [|m IH]; intros k Hk.
    - assert (k = n) as -> by lia. destruct (xh_inspect h n) eqn:Ei.
      2: destruct Hend as [|Hd]; [done|]; destruct (xh_done h n) as [e|] eqn:Ed; [|done].
      all: eexists; intros [|fuel] Hf; [lia|]; cbn; by rw Ei ?Ed.
    - destruct (IH (S k)) as [r Hr]; [lia|]. destruct (xh_inspect h k) eqn:Ei.
      2: destruct (xh_done h k) as [e|] eqn:Ed; [|exists r; intros [|fuel] Hf; [lia|]; cbn; rw Ei Ed; apply Hr; lia].
      all: eexists; intros [|fuel] Hf; [lia|]; cbn; by rw Ei ?Ed. }
  by apply Hg.
Qed.
Lemma wait_ends h n e w : ends_at h n → ∃ r, ∀ fuel, n < fuel → wait h fuel e w = Some r.
Proof.
  intros Hend. destruct e as [pid|pid|id g]; [by eexists..|]. destruct (poll_exec_ends h n Hend) as [r Hr].
  eexists. intros fuel Hf. cbn [wait]. by rw Hr.
Qed.
(** the exit codes a platform gives are of 32 bits *)
Definition int32_code (c : Z) : Prop := (- 2 ^ 31 ≤ c < 2 ^ 31)%Z.
Definition int32_codes (h : exec_host) : Prop :=
  (∀ pid c text, xh_exit h pid = Exited c text → int32_code c) ∧ (∀ k c, xh_inspect h k = Stopped c → int32_code c).
Lemma int32_of_code c : int32_code c → int32_of c = c.
Proof. unfold int32_code, int32_of. intros Hc. rw Z.mod_small; lia. Qed.
Lemma poll_code h fuel k c err : int32_codes h → poll_exec h fuel k = Some (c, err) → int32_code c.
Proof.
  intros [_ Hk]. revert k. induction fuel as [|fuel IH]; intros k; cbn; [done|].
  destruct (xh_inspect h k) eqn:Ei; [|destruct (xh_done h k); [|apply IH]|]; intros [= <- _]; try done. by eapply Hk.
Qed.
Lemma wait_code h fuel e w w' c err : int32_codes h → wait h fuel e w = Some (w', (c, err)) → int32_code c.
Proof.
  intros Hh. assert (∀ pid, int32_code (process_status (xh_exit h pid)).1) as Hp.
  { intros pid. destruct (xh_exit h pid) as [code text|text] eqn:E; [|done]. apply (proj1 Hh) in E. by destruct code. }
  destruct e as [pid|pid|id g]; cbn [wait].
  1,2: intros [= _ Hc]; specialize (Hp pid); by rw Hc in Hp.
  destruct (poll_exec h fuel 0) as [[c' err']|] eqn:E; [|done]. intros [= _ <- <-]. by eapply poll_code.
Qed.

(** A start frame names the session's own paths, and the operator's HOME is
    marked as such exactly on the system tier. *)
Theorem stream_start_frame `{!MapRange string} h skills plugins s w w' pid :
  stream_start h skills plugins s w = (w', Ok (ExStream pid)) →
  ∃ fields, (ch_stdin <$> w_children w' !! pid) = Some [JObject fields] ∧
    ("workspace", JString (rs_workDir s)) ∈ fields ∧ ("home", JString (rs_home s)) ∈ fields ∧
    (("systemEnv", JBool true) ∈ fields ↔ isSystemEnv (rs_spec s) = true).
Proof.
  unfold stream_start. repeat case_match; try done. intros [= <- <-]. exists (start_fields skills plugins s).
  match goal with H : spawn_child _ _ = _ |- _ => injection H as <- <- end. cbn [w_children]. rw lookup_insert_eq.
  split; [done|]. unfold start_fields. split; [do 5 right; left|]. split; [do 6 right; left|].
  rw !elem_of_app. split; [|intros ->; right; left; by left].
  intros [Hin|[Hin|[Hin|[Hin|Hin]]]].
  - repeat (apply elem_of_cons in Hin as [?|Hin]; [done|]). by apply elem_of_nil in Hin.
  - by destruct (isSystemEnv (rs_spec s)); [|apply elem_of_nil in Hin].
  - destruct (skills (rs_spec s)); apply list_elem_of_In in Hin; [done|]. by destruct Hin.
  - destruct (plugins (rs_spec s)); apply list_elem_of_In in Hin; [done|]. by destruct Hin.
  - destruct (String.eqb _ _); apply list_elem_of_In in Hin; [done|]. by destruct Hin.
Qed.

(** ** Defects, and the theorems at concrete inputs *)
Module ExecutorWitness.
Definition host (writes : option string) (inspections : nat → inspection) : exec_host :=
  mkExecHost [] (λ args, Ok ("/rt/node", args)) (λ _, None) None None None None writes (λ _, Exited 0 "")
    None (λ _, true) None None (λ d, Ok d) (λ _, Ok "c1") (λ _, None) (λ _, None) None inspections (λ _, None) (λ _, true).
Definition spec : NodeCreateSession :=
  mkCreate "s 1/.." "t" "codex" ∅ "system" "" None "docker" "img" false false "m'; rm -rf $HOME" "" [] [].
Definition session : run_session :=
  mkRunSession (mkEntry "s 1/.." "p" "codex" "/w" "/h" [] None true ∅) "t" "e" "es" "/w/state" "auto" spec.
Definition no_names (_ : NodeCreateSession) : list string := [].
Definition idle : xworld := mkXworld ∅ 0 ∅ 0.
Definition polls (k : nat) : inspection := if k <? 2 then Running else Stopped 3.
Definition started : xworld * result execution := docker_start (host None polls) no_names no_names "img" session idle.
Lemma docker_command_exact_witness :
  ∃ cmdline, sh_read cmdline = Some (map ShWord ["mkdir"; "-p"; "/workspace/.agent-compose/sessions/s-1/state";
                                       "/workspace/.agent-compose/sessions/s-1/home"] ++ ShAnd
      :: map ShWord ["agent-compose-runtime"; "prompt"; "--provider"; "codex"; "--state-root";
           "/workspace/.agent-compose/sessions/s-1/state"; "--workspace"; "/workspace"; "--home";
           "/workspace/.agent-compose/sessions/s-1/home"; "--model"; "m'; rm -rf $HOME"; "--mode"; "auto"; "--system-env"]).
Proof.
  destruct (docker_command_exact (host None polls) no_names no_names "img" session idle started.1 "c1"
              (guest_exec_of no_names no_names session)) as (line & _ & Hread & _).
  - vm_compute. reflexivity.
  - vm_compute. repeat constructor.
  - exists line. exact Hread.
Defined.
(** When the start frame cannot be written the process has been started and
    nothing waits for it or stops it. *)
Lemma stream_orphan :
  ∃ w', run (host (Some "broken pipe") polls) no_names no_names KStream 3 session idle =
        Some (w', (1%Z, false, "send start frame: broken pipe")) ∧ w_children w' ≠ ∅.
Proof. eexists. split; [vm_compute; reflexivity | by vm_compute]. Qed.
(** A provider that exits with a code other than 0 is reported with an error
    text when it is a process, and with none when it runs in a container. *)
Lemma exit_reported_differently :
  (process_status (Exited 3 "exit status 3"), poll_exec (host None polls) 3 0) =
  ((3%Z, Some "exit status 3"), Some (3%Z, None)).
Proof. reflexivity. Qed.
End ExecutorWitness.
