(* ===== verification/Logs.v ===== *)
(** * Logs: the daily log files of a node (common/agent/logging.go)

    One directory holds the files of every node binary, one per day and
    binary.  A writer appends each line to the file of its day, opens that file
    when the day changed or none is open, and prunes its own old files each
    time it does.  A label of [wstep] is one Write with the two readings of the
    clock it takes; the host says which file operations fail.  Instants are
    nanoseconds since 1970 UTC; a reading also has the local date and the zone's
    offset, then and fourteen days before. *)
From S2P Require Import Prelude GoStrings GoPath.
From Stdlib Require Import Ascii.
#[local] Open Scope Z_scope.

(** ** Dates *)
Record date := mkDate { dt_y : Z; dt_m : Z; dt_d : Z }.
#[export] Instance date_eq_dec : EqDecision date. Proof. solve_decision. Defined.
Definition leap (y : Z) : bool := (y mod 4 =? 0)%Z && (negb (y mod 100 =? 0)%Z || (y mod 400 =? 0)%Z).
Definition month_days (y m : Z) : Z :=
  if (m =? 2)%Z then if leap y then 29 else 28
  else if (m =? 4)%Z || (m =? 6)%Z || (m =? 9)%Z || (m =? 11)%Z then 30 else 31.
Definition valid_date (d : date) : bool :=
  (0 <=? dt_y d)%Z && (dt_y d <=? 9999)%Z && (1 <=? dt_m d)%Z && (dt_m d <=? 12)%Z
  && (1 <=? dt_d d)%Z && (dt_d d <=? month_days (dt_y d) (dt_m d))%Z.
(** days since 1970-01-01 of the proleptic Gregorian calendar *)
Definition day_number (d : date) : Z :=
  let y := if (dt_m d <=? 2)%Z then dt_y d - 1 else dt_y d in
  let era := y / 400 in
  let yoe := y - era * 400 in
  let doy := (153 * (dt_m d + (if (2 <? dt_m d)%Z then -3 else 9)) + 2) / 5 + dt_d d - 1 in
  era * 146097 + (yoe * 365 + yoe / 4 - yoe / 100 + doy) - 719468.
Definition day_ns : Z := 86400 * 10 ^ 9.
(** a day of a log file is midnight UTC *)
Definition day_instant (d : date) : Z := day_number d * day_ns.
Definition digit (n : Z) : ascii := ascii_of_N (Z.to_N (48 + n mod 10)).
Definition two (n : Z) (s : string) : string := String (digit (n / 10)) (String (digit n) s).
(** Format("2006-01-02") *)
Definition format_date (d : date) : string :=
  two (dt_y d / 100) (two (dt_y d) (String "-" (two (dt_m d) (String "-" (two (dt_d d) ""))))).
Definition digit_value (c : ascii) : option Z := if is_digit c then Some (Z.of_N (code c) - 48)%Z else None.
Definition take_two (s : string) : option (Z * string) :=
  match s with
  | String a (String b s) => x ← digit_value a; y ← digit_value b; Some (10 * x + y, s)%Z
  | _ => None
  end.
Definition take_dash (s : string) : option string :=
  match s with String c s => if Ascii.eqb c "-" then Some s else None | "" => None end.
(** time.Parse("2006-01-02", s) *)
Definition parse_date (s : string) : option date :=
  '(c, s) ← take_two s; '(y, s) ← take_two s; s ← take_dash s;
  '(m, s) ← take_two s; s ← take_dash s; '(d, s) ← take_two s;
  let dt := mkDate (100 * c + y) m d in
  if String.eqb s "" && valid_date dt then Some dt else None.

(** ** The clock *)
Record now := mkNow { nw_unix : Z; nw_offset : Z; nw_offsetThen : Z; nw_date : date }.
Definition nw_day (n : now) : string := format_date (nw_date n).
(** time.Now().AddDate(0, 0, -keepDays): the same wall clock, that many days before *)
Definition cutoff (n : now) (keepDays : Z) : Z := nw_unix n + nw_offset n - nw_offsetThen n - keepDays * day_ns.

(** ** The directory *)
Inductive log_entry := LFile (content : string) | LDir.
Definition log_dir := gmap string log_entry.
Record log_env := mkLogEnv {
  le_open : option string;                 (** opening the file of the day *)
  le_list : bool;                          (** ReadDir succeeds *)
  le_keep : string → bool;                 (** removing this file fails *)
  le_write : option (nat * string)         (** a write that stops after so many bytes *)
}.
Definition LogRetentionDays : Z := 14.
#[local] Close Scope Z_scope.
Definition log_name (prefix day : string) : string := prefix +:+ "-" +:+ day +:+ ".log".
(** whether pruneOldLogs removes an entry *)
Definition prunable (prefix : string) (n : now) (keepDays : Z) (name : string) (e : log_entry) : bool :=
  match e with
  | LDir => false
  | LFile _ =>
      HasPrefix name (prefix +:+ "-") && HasSuffix name ".log" &&
      match parse_date (TrimSuffix (TrimPrefix name (prefix +:+ "-")) ".log") with
      | None => false
      | Some day => (day_instant day <? cutoff n keepDays)%Z
      end
  end.
Definition pruneOldLogs (env : log_env) (prefix : string) (n : now) (keepDays : Z) (fs : log_dir) : log_dir :=
  if le_list env then filter (λ kv, prunable prefix n keepDays kv.1 kv.2 && negb (le_keep env kv.1) = false) fs else fs.

(** ** The writer *)
Record dailyLogWriter := mkWriter { dw_prefix : string; dw_file : option string; dw_day : string }.
#[export] Instance eta_dailyLogWriter : Settable dailyLogWriter := λ w, mkWriter (dw_prefix w) (dw_file w) (dw_day w).
Record log_sys := mkLogSys { lg_writer : dailyLogWriter; lg_fs : log_dir }.
#[export] Instance eta_log_sys : Settable log_sys := λ s, mkLogSys (lg_writer s) (lg_fs s).
(** rotateLocked; [pruning] is the clock as pruneOldLogs reads it *)
Definition rotateLocked (env : log_env) (day : string) (pruning : now) (s : log_sys) : log_sys * option string :=
  let w := lg_writer s in
  let name := log_name (dw_prefix w) day in
  match le_open env with
  | Some e => (s <| lg_writer := w <| dw_file := None |> |>, Some ("open log file " +:+ name +:+ ": " +:+ e))
  | None =>
      let created := match lg_fs s !! name with Some _ => lg_fs s | None => <[name := LFile ""]> (lg_fs s) end in
      (mkLogSys (w <| dw_file := Some name |> <| dw_day := day |>)
         (pruneOldLogs env (dw_prefix w) pruning LogRetentionDays created), None)
  end.
(** appending to an open file; a file removed while open takes the bytes out of sight *)
Definition append_to (name p : string) (fs : log_dir) : log_dir :=
  match fs !! name with Some (LFile content) => <[name := LFile (content +:+ p)]> fs | _ => fs end.
Definition Write (env : log_env) (p : string) (n pruning : now) (s : log_sys) : log_sys * (Z * option string) :=
  let day := nw_day n in
  let '(s, failed) :=
    if bool_decide (dw_file (lg_writer s) = None) || negb (String.eqb day (dw_day (lg_writer s)))
    then let '(s, err) := rotateLocked env day pruning s in (s, bool_decide (err ≠ None))
    else (s, false) in
  if failed then (s, (blen p, None))
  else match dw_file (lg_writer s) with
       | None => (s, (blen p, None))
       | Some name =>
           match le_write env with
           | Some (m, e) => (s <| lg_fs := append_to name (take_bytes m p) (lg_fs s) |>, (Z.of_nat m, Some e))
           | None => (s <| lg_fs := append_to name p (lg_fs s) |>, (blen p, None))
           end
       end.
Definition Close (s : log_sys) : log_sys := s <| lg_writer := lg_writer s <| dw_file := None |> |>.
Record log_write := mkLogWrite { wl_env : log_env; wl_line : string; wl_now : now; wl_pruning : now }.
Definition wstep (s : log_sys) (l : log_write) : log_sys := (Write (wl_env l) (wl_line l) (wl_now l) (wl_pruning l) s).1.

(** ** Where the files are *)
Record place_host := mkPlace {
  pl_override : string; pl_executable : result string; pl_resolve : string → result string;
  pl_writable : string → bool; pl_stateDir : result string
}.
Definition LogDir (h : place_host) : result string :=
  let override := TrimSpace (pl_override h) in
  if negb (String.eqb override "") then Ok override
  else
    let fallback := match pl_stateDir h with Err e => Err e | Ok dir => Ok (Join [dir; "logs"]) end in
    match pl_executable h with
    | Err _ => fallback
    | Ok exe =>
        let exe := match pl_resolve h exe with Ok r => r | Err _ => exe end in
        let candidate := Join [Dir exe; "logs"] in
        if pl_writable h candidate then Ok candidate else fallback
    end.
(** filepath.Ext: from the last dot of the last element *)
Fixpoint ext_from (s : string) (best : string) : string :=
  match s with "" => best | String c s' => ext_from s' (if is_code 46 c then s else best) end.
Definition Ext (name : string) : string := ext_from name "".
Definition logFilePrefix (h : place_host) : string :=
  match pl_executable h with
  | Err _ => "node"
  | Ok exe => let name := Base exe in
              let name := TrimSpace (TrimSuffix name (Ext name)) in
              if String.eqb name "" then "node" else name
  end.
(** the writer of a starting node, and the file it opened *)
Definition newDailyLogWriter (h : place_host) (mkdir : string → option string) (env : log_env) (n pruning : now) (fs : log_dir) :
    log_sys * result string :=
  let s := mkLogSys (mkWriter (logFilePrefix h) None "") fs in
  match LogDir h with
  | Err e => (s, Err e)
  | Ok dir =>
      match mkdir dir with
      | Some e => (s, Err ("create log dir " +:+ dir +:+ ": " +:+ e))
      | None =>
          match rotateLocked env (nw_day n) pruning s with
          | (s, Some e) => (s, Err e)
          | (s, None) => (s, Ok (Join [dir; default "" (dw_file (lg_writer s))]))
          end
      end
  end.
Inductive log_level := LevelDebug | LevelInfo | LevelWarn | LevelError.
Definition parseLevel (level : string) : log_level :=
  let l := ToLower (TrimSpace level) in
  if String.eqb l "debug" then LevelDebug
  else if String.eqb l "warn" || String.eqb l "warning" then LevelWarn
  else if String.eqb l "error" then LevelError else LevelInfo.
