(* ===== verification/LogsProofs.v ===== *)
(** * LogsProofs: theorems about the log files

    Dates are printed and read back ([parse_format_date]); what pruning removes
    is this binary's own and old ([prune_scope]); the file of a recent day
    holds every line of that day ([log_day_complete]). *)
From S2P Require Import Prelude GoStrings GoPath Logs.
From Stdlib Require Import Ascii.

(** ** Dates *)
Lemma digit_value_digit n : digit_value (digit n) = Some (n mod 10)%Z.
Proof.
  unfold digit. pose proof (Z.mod_pos_bound n 10 ltac:(lia)) as Hb. remember (n mod 10)%Z as k eqn:Ek. clear Ek.
  assert (k = 0 ∨ k = 1 ∨ k = 2 ∨ k = 3 ∨ k = 4 ∨ k = 5 ∨ k = 6 ∨ k = 7 ∨ k = 8 ∨ k = 9)%Z as Hk by lia.
  by destruct Hk as [->|[->|[->|[->|[->|[->|[->|[->|[->| ->]]]]]]]]].
Qed.
Lemma take_two_two n s : take_two (two n s) = Some (n mod 100, s)%Z.
Proof.
  unfold take_two, two. rw !digit_value_digit. cbn. do 2 f_equal.
  rw (Z.rem_mul_r n 10 10) //. pose proof (Z.mod_pos_bound n 10). lia.
Qed.
Lemma valid_date_bounds d : valid_date d = true →
  (0 ≤ dt_y d ≤ 9999 ∧ 1 ≤ dt_m d ≤ 12 ∧ 1 ≤ dt_d d ≤ 31)%Z.
Proof.
  unfold valid_date. rw !andb_true_iff !Z.leb_le. intros (((((? & ?) & ?) & ?) & ?) & Hd).
  assert (month_days (dt_y d) (dt_m d) ≤ 31)%Z by (unfold month_days; repeat case_match; lia). lia.
Qed.
(** A date of four digits is read back from how it is printed. *)
Theorem parse_format_date d : valid_date d = true → parse_date (format_date d) = Some d.
Proof.
  intros Hv. destruct (valid_date_bounds d Hv) as (Hy & Hm & Hd). unfold parse_date, format_date.
  do 2 (rw take_two_two; cbn [mbind option_bind]). cbn [take_dash Ascii.eqb Bool.eqb mbind option_bind]. rw take_two_two.
  cbn [mbind option_bind take_dash Ascii.eqb Bool.eqb]. rw take_two_two. cbn [mbind option_bind].
  rw (Z.mod_small (dt_m d)); [|lia]. rw (Z.mod_small (dt_d d)); [|lia]. rw (Z.mod_small (dt_y d / 100)).
  2:{ split; [apply Z.div_pos; lia | apply Z.div_lt_upper_bound; lia]. }
  assert (mkDate (100 * (dt_y d / 100) + dt_y d mod 100) (dt_m d) (dt_d d) = d) as ->.
  { destruct d; cbn. f_equal. rw -Z.div_mod //. }
  by rw Hv.
Qed.
Lemma format_date_length d : String.length (format_date d) = 10.
Proof. done. Qed.
Lemma format_date_inj d1 d2 : valid_date d1 = true → valid_date d2 = true → format_date d1 = format_date d2 → d1 = d2.
Proof. intros H1 H2 E. apply parse_format_date in H1, H2. congruence. Qed.
Lemma take_two_length s x r : take_two s = Some (x, r) → String.length s = S (S (String.length r)).
Proof.
  unfold take_two. destruct s as [|a [|b s]]; try done. destruct (digit_value a); [|done]. destruct (digit_value b); [|done].
  by intros [= _ <-].
Qed.
Lemma take_dash_length s r : take_dash s = Some r → String.length s = S (String.length r).
Proof. unfold take_dash. destruct s as [|c s]; [done|]. destruct (Ascii.eqb c "-"); [|done]. by intros [= <-]. Qed.
Lemma parse_date_length s d : parse_date s = Some d → String.length s = 10.
Proof.
  unfold parse_date. destruct (take_two s) as [[c s1]|] eqn:E1; [cbn|done]. destruct (take_two s1) as [[y s2]|] eqn:E2; [cbn|done].
  destruct (take_dash s2) as [s3|] eqn:E3; [cbn|done]. destruct (take_two s3) as [[m s4]|] eqn:E4; [cbn|done].
  destruct (take_dash s4) as [s5|] eqn:E5; [cbn|done]. destruct (take_two s5) as [[dd s6]|] eqn:E6; [cbn|done].
  destruct (String.eqb_spec s6 "") as [->|]; [|done]. cbn. intros _.
  apply take_two_length in E1, E2, E4, E6. apply take_dash_length in E3, E5. cbn in E6. lia.
Qed.

(** ** Pruning *)
(** a reading of a clock whose zone is at most fourteen hours from UTC *)
Definition clock_ok (n : now) : Prop :=
  valid_date (nw_date n) = true ∧ day_number (nw_date n) = ((nw_unix n + nw_offset n) / day_ns)%Z ∧
  (Z.abs (nw_offsetThen n) ≤ 14 * 3600 * 10 ^ 9)%Z.
Lemma cutoff_bound n : clock_ok n → (cutoff n LogRetentionDays < (day_number (nw_date n) - 12) * day_ns)%Z.
Proof.
  intros (_ & -> & Ho). unfold cutoff, LogRetentionDays. assert (0 < day_ns)%Z as Hd by done.
  pose proof (Z.mod_pos_bound (nw_unix n + nw_offset n) day_ns Hd). pose proof (Z.div_mod (nw_unix n + nw_offset n) day_ns) as Hm.
  assert (14 * 3600 * 10 ^ 9 < day_ns)%Z by done. nia.
Qed.
Lemma append_same_length a b x y : String.length x = String.length y → a +:+ x = b +:+ y → a = b ∧ x = y.
Proof.
  intros Hl He. assert (String.length a = String.length b) as Hab.
  { apply (f_equal String.length) in He. rw !string_length_app in He. lia. }
  revert b Hab He. induction a as [|c a IH]; intros [|c' b] Hab He; try done. cbn in Hab.
  change (String c (a +:+ x) = String c' (b +:+ y)) in He. injection He as <- He. destruct (IH b) as [-> ->]; [lia|done|done].
Qed.
Lemma prunable_name prefix n keep name e : prunable prefix n keep name e = true →
  ∃ stamp day, name = log_name prefix stamp ∧ parse_date stamp = Some day ∧ (day_instant day < cutoff n keep)%Z.
Proof.
  unfold prunable. destruct e as [content|]; [|done]. rw !andb_true_iff. intros [[[rest ->]%HasPrefix_spec Hs] Hd].
  assert (Etrim : TrimPrefix ((prefix +:+ "-") +:+ rest) (prefix +:+ "-") = rest).
  { unfold TrimPrefix. rw HasPrefix_app. by rw drop_bytes_app. }
  rw Etrim in Hd. destruct (parse_date (TrimSuffix rest ".log")) as [day|] eqn:Ep; [|done]. apply Z.ltb_lt in Hd.
  exists (TrimSuffix rest ".log"), day. split; [|done].
  apply HasSuffix_spec in Hs as [t Ht].
  assert (∃ r, rest = r +:+ ".log") as [r ->].
  { unfold TrimSuffix in Ep. destruct (HasSuffix rest ".log") eqn:Eh; [by apply HasSuffix_spec in Eh|].
    exfalso. apply parse_date_length in Ep.
    assert (HasSuffix rest ".log" = true); [|congruence]. apply HasSuffix_spec.
    exists (take_bytes 6 rest). assert (String.length (take_bytes 6 rest) = 6 ∧ String.length (drop_bytes 6 rest) = 4) as [H6 H4].
    { do 10 (destruct rest as [|? rest]; [done|]). by destruct rest. }
    rw -{1}(take_drop_bytes 6 rest) in Ht. rw string_app_assoc in Ht.
    assert (drop_bytes 6 rest = ".log") as Hdrop by (by eapply append_same_length; [|exact Ht]).
    by rw -Hdrop take_drop_bytes. }
  rw TrimSuffix_app. unfold log_name. by rw !string_app_assoc.
Qed.
Lemma log_name_inj p q s t : String.length s = String.length t → log_name p s = log_name q t → p = q ∧ s = t.
Proof.
  unfold log_name. rw !string_app_assoc. intros Hl [He _]%append_same_length; [|done].
  apply append_same_length in He as [He ->]; [|done]. by apply append_same_length in He as [-> _].
Qed.
(** What pruning removes is a regular file named for this binary and a date at
    least twelve days back; the files of another binary, whatever its name,
    and everything that is not a log file stay. *)
Theorem prune_scope env prefix n fs name e :
  clock_ok n → fs !! name = Some e → pruneOldLogs env prefix n LogRetentionDays fs !! name = None →
  ∃ stamp day, name = log_name prefix stamp ∧ parse_date stamp = Some day ∧ (day_number day < day_number (nw_date n) - 12)%Z ∧
    ∀ q d, q ≠ prefix → name ≠ log_name q (format_date d).
Proof.
  intros Hc Hf. unfold pruneOldLogs. destruct (le_list env); [|congruence]. rw map_lookup_filter_None. intros [Hn|Hno]; [by rw Hf in Hn|].
  specialize (Hno e Hf). cbn in Hno. apply not_false_iff_true, andb_true_iff in Hno as [Hp _].
  apply prunable_name in Hp as (stamp & day & -> & Hd & Hi). exists stamp, day. split; [done|]. split; [done|]. split.
  - pose proof (cutoff_bound n Hc). unfold day_instant in Hi. assert (0 < day_ns)%Z by done. nia.
  - intros q d Hq Heq. apply log_name_inj in Heq as [Heq _]; [congruence|]. by rw (parse_date_length _ _ Hd) format_date_length.
Qed.

(** ** The lines of a day *)
Section day.
Variables (p : string) (D : date).
Hypothesis HD : valid_date D = true.
Abbreviation name_D := (log_name p (format_date D)).
Definition day_content (s : log_sys) : string := match lg_fs s !! name_D with Some (LFile c) => c | _ => "" end.
Record writer_ok (s : log_sys) : Prop := {
  wo_prefix : dw_prefix (lg_writer s) = p;
  wo_name x : dw_file (lg_writer s) = Some x → x = log_name p (dw_day (lg_writer s));
  wo_file : lg_fs s !! name_D ≠ Some LDir;
  wo_open : dw_file (lg_writer s) = Some name_D → ∃ c, lg_fs s !! name_D = Some (LFile c)
}.
(** a write while the day is recent, by the clock that prunes, and the file system works *)
Definition good_write (l : log_write) : Prop :=
  le_open (wl_env l) = None ∧ le_write (wl_env l) = None ∧ valid_date (nw_date (wl_now l)) = true ∧
  clock_ok (wl_pruning l) ∧ (day_number (nw_date (wl_pruning l)) - 12 ≤ day_number D)%Z.
Lemma prune_keeps_day env n fs : clock_ok n → (day_number (nw_date n) - 12 ≤ day_number D)%Z →
  pruneOldLogs env p n LogRetentionDays fs !! name_D = fs !! name_D.
Proof.
  intros Hc Hr. destruct (fs !! name_D) as [e|] eqn:Ef.
  - destruct (pruneOldLogs env p n LogRetentionDays fs !! name_D) as [e'|] eqn:Ep.
    + unfold pruneOldLogs in Ep. destruct (le_list env); [apply map_lookup_filter_Some in Ep as [Ep _]|]; by rw -Ep -Ef.
    + destruct (prune_scope _ _ _ _ _ _ Hc Ef Ep) as (stamp & day & Hn & Hd & Hlt & _).
      apply log_name_inj in Hn as [_ <-]; [|by rw (parse_date_length _ _ Hd)]. rw (parse_format_date D HD) in Hd. injection Hd as <-. lia.
  - unfold pruneOldLogs. destruct (le_list env); [|done]. apply map_lookup_filter_None. by left.
Qed.
Lemma rotated_ok s l : writer_ok s → good_write l →
  let s' := (rotateLocked (wl_env l) (nw_day (wl_now l)) (wl_pruning l) s).1 in
  (rotateLocked (wl_env l) (nw_day (wl_now l)) (wl_pruning l) s).2 = None ∧
  writer_ok s' ∧ day_content s' = day_content s ∧ dw_file (lg_writer s') = Some (log_name p (nw_day (wl_now l))).
Proof.
  intros [Hp Hn Hf Ho] (Hop & _ & Hv & Hc & Hr). unfold rotateLocked. rw Hop Hp. cbn. split; [done|].
  set (name := log_name p (nw_day (wl_now l))).
  set (created := match lg_fs s !! name with Some _ => lg_fs s | None => <[name := LFile ""]> (lg_fs s) end).
  assert (Hcr : created !! name_D ≠ Some LDir ∧
    (match created !! name_D with Some (LFile c) => c | _ => "" end) = day_content s ∧
    (name = name_D → ∃ c, created !! name_D = Some (LFile c))).
  { unfold created, day_content. destruct (lg_fs s !! name) as [e|] eqn:Ee.
    - split; [done|]. split; [done|]. intros En. rw En in Ee. destruct e as [c|]; [eauto | done].
    - destruct (decide (name = name_D)) as [En|En].
      + rw En in Ee |- *. rw lookup_insert_eq Ee. eauto.
      + rw lookup_insert_ne //. }
  destruct Hcr as (Hc1 & Hc2 & Hc3).
  split; [|split; [unfold day_content at 1; cbn; by rw (prune_keeps_day _ _ created Hc Hr)|done]].
  split; cbn; [done|by intros x [= <-]| |]; rw (prune_keeps_day _ _ created Hc Hr); [done|]. intros [= En]. by apply Hc3.
Qed.
Lemma wstep_day s l : writer_ok s → good_write l →
  writer_ok (wstep s l) ∧ day_content (wstep s l) = day_content s +:+ (if bool_decide (nw_date (wl_now l) = D) then wl_line l else "").
Proof.
  intros Hw Hg. destruct Hg as (Hop & Hwr & Hv & Hc & Hr) eqn:Eg. clear Eg. unfold wstep, Write.
  (* the writer has the file of the day open *)
  assert (∃ s1, writer_ok s1 ∧ day_content s1 = day_content s ∧ dw_file (lg_writer s1) = Some (log_name p (nw_day (wl_now l))) ∧
    (if bool_decide (dw_file (lg_writer s) = None) || negb (String.eqb (nw_day (wl_now l)) (dw_day (lg_writer s)))
     then let '(s, err) := rotateLocked (wl_env l) (nw_day (wl_now l)) (wl_pruning l) s in (s, bool_decide (err ≠ None))
     else (s, false)) = (s1, false)) as (s1 & Hw1 & Hc1 & Hf1 & ->).
  { destruct (_ || _) eqn:Erot.
    - destruct (rotated_ok s l Hw Hg) as (He & Hok & Hcont & Hfile).
      destruct (rotateLocked _ _ _ _) as [s1 err]. cbn in *. subst err. exists s1. done.
    - apply orb_false_iff in Erot as [E1 E2]. apply bool_decide_eq_false in E1. apply negb_false_iff, String.eqb_eq in E2.
      exists s. split; [done|]. split; [done|]. split; [|done]. destruct (dw_file (lg_writer s)) as [x|] eqn:Ex; [|done].
      rw (wo_name s Hw x Ex). by rw E2. }
  rw Hf1 Hwr. cbn. destruct Hw1 as [Hp Hn Hf Ho].
  assert (Hday : nw_date (wl_now l) = D ↔ log_name p (nw_day (wl_now l)) = name_D).
  { split; [by intros <-|]. intros [_ E]%log_name_inj; [|done]. by apply format_date_inj. }
  unfold append_to. case_bool_decide as Ed.
  - apply Hday in Ed as En. rw En in Hf1 |- *. destruct (Ho Hf1) as [c Hcn]. rw Hcn. rw -Hc1. unfold day_content; cbn.
    rw lookup_insert_eq Hcn. split; [|done].
    split; cbn; [done|done| |]; rw lookup_insert_eq; [done | eauto].
  - assert (Hne : log_name p (nw_day (wl_now l)) ≠ name_D) by (by rw -Hday).
    rw string_app_nil_r -Hc1. destruct (lg_fs s1 !! log_name p (nw_day (wl_now l))) as [[c|]|]; unfold day_content; cbn;
      rw ?lookup_insert_ne //; (split; [|done]); (split; cbn; rw ?lookup_insert_ne //).
Qed.
End day.
(** C37: the log of a day is complete: whatever was in the
    directory, and however writes of several days follow each other (around
    midnight a late line may reopen the file of the day before), the file of a
    day holds what it held before followed by every line written with that
    date, in the order of the writes, as long as files can be opened and
    written; pruning never takes it away while the pruning clock is at most
    twelve days later. *)
Theorem log_day_complete p D s ls :
  valid_date D = true → writer_ok p D s → Forall (good_write D) ls →
  day_content p D (foldl wstep s ls) =
  day_content p D s +:+ foldr (λ l acc, (if bool_decide (nw_date (wl_now l) = D) then wl_line l else "") +:+ acc) "" ls.
Proof.
  intros HD Hw Hls. revert s Hw. induction Hls as [|l ls Hl _ IH]; intros s Hw; cbn; [by rw string_app_nil_r|].
  destruct (wstep_day p D HD s l Hw Hl) as [Hw' Hc]. by rw (IH _ Hw') Hc string_app_assoc.
Qed.

(** ** The theorem at a concrete input *)
Module LogsWitness.
Definition leap_day : date := mkDate 2024 2 29.
Definition at_day (d : date) (hour : Z) : now := mkNow (day_instant d + hour * 3600 * 10 ^ 9)%Z 0 0 d.
Definition env : log_env := mkLogEnv None true (λ _, false) None.
Definition write (line : string) (d : date) : log_write := mkLogWrite env line (at_day d 1) (at_day (mkDate 2024 3 1) 2).
(** a line of the leap day, one of the next, and a late one of the leap day *)
Definition writes : list log_write := [write "a" leap_day; write "b" (mkDate 2024 3 1); write "c" leap_day].
Definition old : string := log_name "node" "2024-02-01".
Definition other : string := log_name "node-x" "2023-01-01".
Definition start : log_sys := mkLogSys (mkWriter "node" None "") {[ old := LFile "x"; other := LFile "y" ]}.
Lemma log_day_complete_witness :
  day_content "node" leap_day (foldl wstep start writes) = "ac" ∧
  lg_fs (foldl wstep start writes) !! old = None ∧ lg_fs (foldl wstep start writes) !! other = Some (LFile "y").
Proof.
  split; [|split; vm_compute; reflexivity].
  apply (log_day_complete "node" leap_day start writes); [reflexivity| |].
  - split; [reflexivity|discriminate|by vm_compute|discriminate].
  - repeat constructor; by vm_compute.
Defined.
End LogsWitness.
