(* ===== verification/HostService.v ===== *)
(** * HostService: starting at login (common/agent/autostart.go and its platform
    files), and the desktop menu (common/agent/servicemenu.go and its actions)

    The platform offers four operations behind the seams of autostart.go; they
    are a [seam] here, with an instance per platform, and what the decision
    relies on is [LawfulSeam].  The state is the files an entry consists of, the
    scheduled tasks, and the recorded answer of the operator.  The host answers
    file operations and commands. *)
From S2P Require Import Prelude GoStrings GoPath Workspace LocalState.
From Stdlib Require Import Ascii.

Record astate := mkAstate {
  as_files : gmap string string; as_tasks : gmap string string;     (** schtasks: name, program *)
  as_choice : option string;                                        (** autostart-choice *)
  as_commands : list (list string)                                  (** commands run *)
}.
#[export] Instance eta_astate : Settable astate := λ s, mkAstate (as_files s) (as_tasks s) (as_choice s) (as_commands s).
Record ahost := mkAhost {
  au_home : result string; au_executable : result string; au_resolve : string → result string; au_exists : string → bool;
  au_stateDir : result string; au_tempDir : string;
  au_look : string → bool;                                          (** LookPath *)
  au_mkdir : option string; au_write : option string;
  au_run : list string → option (string * string);                  (** output and error of a command that fails *)
  au_save : bool;                                                   (** the answer can be recorded *)
  au_container : bool; au_terminal : bool;
  au_env : string;                                                  (** AGENT_COMPOSE_STARTUP_METHOD *)
  au_answer : result string                                         (** the line read at the prompt *)
}.
Definition newline : string := String "010" "".
Section host.
Variable h : ahost.

(** ** Helpers *)
Definition nodeExecutablePath : result string :=
  match au_executable h with
  | Err e => Err e
  | Ok exe => match au_resolve h exe with Ok r => Ok r | Err _ => Ok exe end
  end.
Definition autostartLauncherPath : result string :=
  match nodeExecutablePath with
  | Err e => Err e
  | Ok bin =>
      let root := Dir (Dir bin) in
      Ok (default bin (head (filter (λ p, au_exists h p = true) [Join [root; "start-node.cmd"]; Join [root; "start-node.sh"]])))
  end.
Definition autostartLogPath (name : string) : string :=
  match au_stateDir h with Err _ => Join [au_tempDir h; name] | Ok dir => Join [dir; "logs"; name] end.
(** running a command: it is recorded, and may fail *)
Definition command (args : list string) (s : astate) : astate * option (string * string) :=
  (s <| as_commands := as_commands s ++ [args] |>, au_run h args).
Definition write_entry (path text : string) (s : astate) : astate * option string :=
  match au_mkdir h with
  | Some e => (s, Some e)
  | None => match au_write h with Some e => (s, Some e) | None => (s <| as_files := <[path := text]> (as_files s) |>, None) end
  end.

(** ** The platforms *)
Record seam := mkSeam {
  sm_available : option string;                                     (** the method, when there is one *)
  sm_installed : astate → bool;
  sm_install : astate → astate * option string;
  sm_remove : astate → astate * option string
}.
Definition AutostartMethodLaunchd : string := "launchd".
Definition AutostartMethodSystemd : string := "systemd".
Definition AutostartMethodSchtasks : string := "schtasks".
Definition file_installed (path : result string) (s : astate) : bool :=
  match path with Err _ => false | Ok p => bool_decide (is_Some (as_files s !! p)) end.

(** macOS *)
Definition launchdPlistPath : result string :=
  match au_home h with
  | Err e => Err e
  | Ok home => Ok (Join [home; "Library"; "LaunchAgents"; "com.agent-compose.node.plist"])
  end.
Definition plist_text (launcher out err : string) : string :=
  concat_sep newline [
    "<?xml version=" +:+ quoted "1.0" +:+ " encoding=" +:+ quoted "UTF-8" +:+ "?>";
    "<!DOCTYPE plist PUBLIC " +:+ quoted "-//Apple//DTD PLIST 1.0//EN" +:+ " " +:+ quoted "http://www.apple.com/DTDs/PropertyList-1.0.dtd" +:+ ">";
    "<plist version=" +:+ quoted "1.0" +:+ ">"; "<dict>"; "  <key>Label</key><string>com.agent-compose.node</string>";
    "  <key>ProgramArguments</key>"; "  <array>"; "    <string>/bin/bash</string>"; "    <string>" +:+ launcher +:+ "</string>"; "  </array>";
    "  <key>RunAtLoad</key><true/>"; "  <key>KeepAlive</key><true/>";
    "  <key>StandardOutPath</key><string>" +:+ out +:+ "</string>"; "  <key>StandardErrorPath</key><string>" +:+ err +:+ "</string>";
    "</dict>"; "</plist>"; ""].
Definition launchd_install (s : astate) : astate * option string :=
  match launchdPlistPath with
  | Err e => (s, Some e)
  | Ok path =>
      match au_mkdir h, autostartLauncherPath with
      | Some e, _ => (s, Some e)
      | None, Err e => (s, Some e)
      | None, Ok launcher =>
          match write_entry path (plist_text launcher (autostartLogPath "launchd.out") (autostartLogPath "launchd.err")) s with
          | (s, Some e) => (s, Some e)
          | (s, None) =>
              let '(s, _) := command ["launchctl"; "unload"; path] s in
              let '(s, r) := command ["launchctl"; "load"; path] s in
              (s, (λ oe, "launchctl load: " +:+ oe.2) <$> r)
          end
      end
  end.
Definition launchd_remove (s : astate) : astate * option string :=
  match launchdPlistPath with
  | Err e => (s, Some e)
  | Ok path =>
      let '(s, _) := command ["launchctl"; "unload"; path] s in
      match as_files s !! path with
      | None => (s, Some ("remove " +:+ path +:+ ": no such file or directory"))
      | Some _ => (s <| as_files := delete path (as_files s) |>, None)
      end
  end.
Definition launchd : seam :=
  mkSeam (if au_look h "launchctl" then Some AutostartMethodLaunchd else None) (file_installed launchdPlistPath) launchd_install launchd_remove.

(** Linux *)
Definition systemdUnitPath : result string :=
  match au_home h with
  | Err e => Err e
  | Ok home => Ok (Join [home; ".config"; "systemd"; "user"; "agent-compose-node.service"])
  end.
Definition unit_text (launcher : string) : string :=
  concat_sep newline ["[Unit]"; "Description=Agent Compose node"; "After=network-online.target"; ""; "[Service]"; "Type=simple";
    "ExecStart=" +:+ launcher; "Restart=on-failure"; "RestartSec=5"; ""; "[Install]"; "WantedBy=default.target"; ""].
Fixpoint systemctl_all (calls : list (list string)) (s : astate) : astate * option string :=
  match calls with
  | [] => (s, None)
  | args :: calls =>
      match command ("systemctl" :: args) s with
      | (s, Some (out, e)) => (s, Some ("systemctl [" +:+ concat_sep " " args +:+ "]: " +:+ out +:+ ": " +:+ e))
      | (s, None) => systemctl_all calls s
      end
  end.
Definition systemd_install (s : astate) : astate * option string :=
  match systemdUnitPath with
  | Err e => (s, Some e)
  | Ok path =>
      match au_mkdir h, autostartLauncherPath with
      | Some e, _ => (s, Some e)
      | None, Err e => (s, Some e)
      | None, Ok launcher =>
          match write_entry path (unit_text launcher) s with
          | (s, Some e) => (s, Some e)
          | (s, None) => systemctl_all [["--user"; "daemon-reload"]; ["--user"; "enable"; "--now"; "agent-compose-node.service"]] s
          end
      end
  end.
Definition systemd_remove (s : astate) : astate * option string :=
  match systemdUnitPath with
  | Err e => (s, Some e)
  | Ok path =>
      let '(s, _) := command ["systemctl"; "--user"; "disable"; "--now"; "agent-compose-node.service"] s in
      (s <| as_files := delete path (as_files s) |>, None)
  end.
Definition systemd : seam :=
  mkSeam (if au_look h "systemctl" then match au_run h ["systemctl"; "--user"; "show"] with None => Some AutostartMethodSystemd | Some _ => None end
          else None) (file_installed systemdUnitPath) systemd_install systemd_remove.

(** Windows *)
Definition schtasksTaskName : string := "agent-compose-node".
Definition schtasks_install (s : astate) : astate * option string :=
  match autostartLauncherPath with
  | Err e => (s, Some e)
  | Ok launcher =>
      let '(s, r) := command ["schtasks.exe"; "/Create"; "/F"; "/SC"; "ONLOGON"; "/RL"; "LIMITED"; "/TN"; schtasksTaskName; "/TR"; launcher] s in
      match r with
      | Some (out, e) => (s, Some ("schtasks /Create: " +:+ out +:+ ": " +:+ e))
      | None => (s <| as_tasks := <[schtasksTaskName := launcher]> (as_tasks s) |>, None)
      end
  end.
Definition schtasks_remove (s : astate) : astate * option string :=
  let '(s, r) := command ["schtasks.exe"; "/Delete"; "/F"; "/TN"; schtasksTaskName] s in
  match r with
  | Some (out, e) => (s, if Contains out "cannot find" then None else Some ("schtasks /Delete: " +:+ out +:+ ": " +:+ e))
  | None => (s <| as_tasks := delete schtasksTaskName (as_tasks s) |>, None)
  end.
Definition schtasks : seam :=
  mkSeam (if au_look h "schtasks.exe" then Some AutostartMethodSchtasks else None)
    (λ s, bool_decide (is_Some (as_tasks s !! schtasksTaskName))) schtasks_install schtasks_remove.

(** ** The decision *)
Record AutostartStatus := mkStatus { st_Method : string; st_Available : bool; st_Enabled : bool; st_Prompted : bool }.
#[export] Instance eta_AutostartStatus : Settable AutostartStatus :=
  λ s, mkStatus (st_Method s) (st_Available s) (st_Enabled s) (st_Prompted s).
Definition noStatus : AutostartStatus := mkStatus "" false false false.
Section seam.
Variable sm : seam.
Definition ProbeAutostart (s : astate) : AutostartStatus :=
  match sm_available sm with
  | None => noStatus
  | Some method => mkStatus method true (sm_installed sm s) false
  end.
Definition StartupMethodLabel (s : astate) : string :=
  let v := TrimSpace (au_env h) in
  if negb (String.eqb v "") then v
  else let status := ProbeAutostart s in
       if st_Available status && st_Enabled status then "autostart" else "standalone".
Definition saveAutostartChoice (choice : string) (s : astate) : astate :=
  match au_stateDir h with Err _ => s | Ok _ => if au_save h then s <| as_choice := Some choice |> else s end.
Definition readAutostartChoice (s : astate) : string :=
  match au_stateDir h with Err _ => "" | Ok _ => TrimSpace (default "" (as_choice s)) end.
(** the state after, whether the operator was asked, the status and the error *)
Definition aresult : Type := astate * bool * AutostartStatus * option string.
Definition install_or (what : string) (status : AutostartStatus) (asked : bool) (s : astate) (k : astate → aresult) : aresult :=
  match sm_install sm s with
  | (s, Some e) => (s, asked, status, Some ("autostart: " +:+ what +:+ " " +:+ st_Method status +:+ " entry: " +:+ e))
  | (s, None) => k s
  end.
Definition ask_operator (status : AutostartStatus) (s : astate) : aresult :=
  if negb (au_terminal h) then (s, false, status, None)
  else match au_answer h with
       | Err e => (s, true, status, Some e)
       | Ok line =>
           let a := ToLower (TrimSpace line) in
           if String.eqb a "" || String.eqb a "y" || String.eqb a "yes" then
             install_or "install" status true s (λ s,
               (saveAutostartChoice "on" s, true, status <| st_Enabled := true |> <| st_Prompted := true |>, None))
           else (saveAutostartChoice "off" s, true, status <| st_Prompted := true |>, None)
       end.
Definition auto_start (s : astate) : aresult :=
  let status := ProbeAutostart s in
  if negb (st_Available status) || au_container h then (s, false, status, None)
  else
    let choice := readAutostartChoice s in
    if String.eqb choice "on" then
      install_or "reinstall" status false s (λ s, (s, false, status <| st_Enabled := true |> <| st_Prompted := true |>, None))
    else if String.eqb choice "off" then (s, false, status <| st_Prompted := true |>, None)
    else if st_Enabled status then (saveAutostartChoice "on" s, false, status <| st_Prompted := true |>, None)
    else ask_operator status s.
Definition ResolveAutostart (value : string) (s : astate) : aresult :=
  let v := TrimSpace (ToLower value) in
  if String.eqb v "on" then
    match sm_available sm with
    | None => (s, false, noStatus, Some "autostart: no per-user autostart mechanism on this host")
    | Some method =>
        match sm_install sm s with
        | (s, Some e) => (s, false, noStatus, Some ("autostart: install " +:+ method +:+ " entry: " +:+ e))
        | (s, None) => (s, false, mkStatus method true true true, None)
        end
    end
  else if String.eqb v "off" then ((sm_remove sm s).1, false, mkStatus (default "" (sm_available sm)) false false true, None)
  else if String.eqb v "" || String.eqb v "auto" then auto_start s
  else (s, false, noStatus, Some ("autostart: invalid value " +:+ quoted value +:+ " (auto|on|off)")).
End seam.

(** ** The desktop menu *)
Inductive ServiceMenuAction := ServiceActionStart | ServiceActionStop | ServiceActionRestart | ServiceActionQuit.
(** 启动, 停止, 重启 in UTF-8 *)
Definition zh_start : string := String "229" (String "144" (String "175" (String "229" (String "138" (String "168" ""))))).
Definition zh_stop : string := String "229" (String "129" (String "156" (String "230" (String "173" (String "162" ""))))).
Definition zh_restart : string := String "233" (String "135" (String "141" (String "229" (String "144" (String "175" ""))))).
Definition parseDialogChoice (s : string) : ServiceMenuAction :=
  if HasPrefix s zh_start || String.eqb s "start" || String.eqb s "1" then ServiceActionStart
  else if HasPrefix s zh_stop || String.eqb s "stop" || String.eqb s "2" then ServiceActionStop
  else if HasPrefix s zh_restart || String.eqb s "restart" || String.eqb s "3" then ServiceActionRestart
  else ServiceActionQuit.
(** what the menu does to processes *)
Inductive service_op := OTerminate (pid : Z) | OSpawn (program : string).
Record menu_host := mkMenuHost {
  mn_lock : lock_host;                                              (** the lock owner, and which processes live *)
  mn_missing : string → bool; mn_spawn : bool; mn_signal : Z → bool;
  mn_now : nat → Z; mn_released : nat → bool                        (** by poll: the clock in ms; the owner is gone *)
}.
Variable mh : menu_host.
Definition serviceStart : list service_op * Z :=
  match autostartLauncherPath with
  | Err _ => ([], 1%Z)
  | Ok launcher =>
      if mn_missing mh launcher then ([], 1%Z) else if mn_spawn mh then ([OSpawn launcher], 0%Z) else ([], 1%Z)
  end.
(** the polls of serviceWaitLockReleased, and whether the node was seen to be gone *)
Fixpoint wait_released (fuel k : nat) (deadline : Z) : option (nat * bool) :=
  match fuel with
  | O => None
  | S fuel =>
      if (mn_now mh k <? deadline)%Z then
        if mn_released mh k then Some (k, true) else wait_released fuel (S k) deadline
      else Some (k, false)
  end.
Definition release_fuel : nat := 36.
Definition serviceWaitLockReleased : option (nat * bool) := wait_released release_fuel 1 (mn_now mh 0 + 10000)%Z.
Definition serviceStop : list service_op * Z :=
  match lk_owner (mn_lock mh) with
  | Err _ => ([], 0%Z)
  | Ok info =>
      if negb (trustedOwner (mn_lock mh) info) then ([], 0%Z)
      else if mn_signal mh (ow_pid info) then ([OTerminate (ow_pid info)], 0%Z) else ([], 1%Z)
  end.
Definition ServiceMenu (dialog : option ServiceMenuAction) : list service_op * Z :=
  match dialog with
  | None => ([], 1%Z)
  | Some ServiceActionStart => serviceStart
  | Some ServiceActionStop => serviceStop
  | Some ServiceActionRestart =>
      let '(ops, code) := serviceStop in
      if negb (code =? 0)%Z then (ops, code) else let '(more, code) := serviceStart in (ops ++ more, code)
  | Some ServiceActionQuit => ([], 0%Z)
  end.
End host.
