(* ===== verification/HostServiceProofs.v ===== *)
(** * HostServiceProofs: theorems about starting at login and the menu

    What the decision about autostart relies on is [LawfulSeam], which every
    platform meets; against it, the status reported is the state of the host
    ([autostart_status_true]) and the operator is asked once
    ([autostart_asks_once]).  The menu only ends the node that holds the lock. *)
From S2P Require Import Prelude GoStrings GoPath Workspace LocalState HostService.
From Stdlib Require Import Ascii.

(** ** The platforms *)
Class LawfulSeam (sm : seam) := {
  install_installs s s' : sm_install sm s = (s', None) → sm_installed sm s' = true;
  install_choice s : as_choice (sm_install sm s).1 = as_choice s;
  remove_removes s s' : sm_installed sm s = true → sm_remove sm s = (s', None) → sm_installed sm s' = false;
  remove_choice s : as_choice (sm_remove sm s).1 = as_choice s;
  installed_choice s c : sm_installed sm (s <| as_choice := c |>) = sm_installed sm s
}.
Section platforms.
Variable h : ahost.
Lemma systemctl_all_files calls s : as_files (systemctl_all h calls s).1 = as_files s ∧ as_choice (systemctl_all h calls s).1 = as_choice s.
Proof.
  revert s. induction calls as [|args calls IH]; intros s; [done|]. cbn. destruct (au_run h _) as [[out e]|]; [done|]. by destruct (IH (s <| as_commands := as_commands s ++ ["systemctl" :: args] |>)) as [-> ->].
Qed.
#[export] Instance launchd_lawful : LawfulSeam (launchd h).
Proof.
  split; cbn; unfold launchd_install, launchd_remove, file_installed.
  - intros s s'. destruct (launchdPlistPath h) as [path|]; [|done]. unfold write_entry. destruct (au_mkdir h); [done|].
    destruct (autostartLauncherPath h); [|done]. destruct (au_write h); [done|]. cbn. destruct (au_run h _); [done|]. intros [= <-]. cbn.
    by rw lookup_insert_eq.
  - intros s. destruct (launchdPlistPath h) as [path|]; [|done]. unfold write_entry. destruct (au_mkdir h); [done|].
    destruct (autostartLauncherPath h); [|done]. by destruct (au_write h).
  - intros s s' _. destruct (launchdPlistPath h) as [path|]; [|done]. cbn. destruct (as_files s !! path); [|done]. intros [= <-]. cbn.
    by rw lookup_delete_eq.
  - intros s. destruct (launchdPlistPath h) as [path|]; [|done]. cbn. by destruct (as_files s !! path).
  - done.
Qed.
#[export] Instance systemd_lawful : LawfulSeam (systemd h).
Proof.
  split; cbn -[systemctl_all]; unfold systemd_install, systemd_remove, file_installed.
  - intros s s'. destruct (systemdUnitPath h) as [path|]; [|done]. unfold write_entry. destruct (au_mkdir h); [done|].
    destruct (autostartLauncherPath h) as [launcher|]; [|done]. destruct (au_write h); [done|]. intros Hs.
    match type of Hs with systemctl_all h ?calls ?s1 = _ => destruct (systemctl_all_files calls s1) as [Hf _]; rw Hs in Hf end.
    cbn in Hf. rw Hf. by rw lookup_insert_eq.
  - intros s. destruct (systemdUnitPath h) as [path|]; [|done]. unfold write_entry. destruct (au_mkdir h); [done|].
    destruct (autostartLauncherPath h); [|done]. destruct (au_write h); [done|]. exact (proj2 (systemctl_all_files _ _)).
  - intros s s' _. destruct (systemdUnitPath h) as [path|]; [|done]. cbn. intros [= <-]. cbn. by rw lookup_delete_eq.
  - intros s. by destruct (systemdUnitPath h).
  - done.
Qed.
(** a task that exists and cannot be found is a contradiction only the daemon can make: excluded *)
Lemma schtasks_lawful : (∀ args out e, au_run h args = Some (out, e) → Contains out "cannot find" = false) → LawfulSeam (schtasks h).
Proof.
  intros Hfind. split; cbn; unfold schtasks_install, schtasks_remove.
  - intros s s'. destruct (autostartLauncherPath h); [|done]. cbn. destruct (au_run h _) as [[out e]|]; [done|]. intros [= <-]. cbn.
    by rw lookup_insert_eq.
  - intros s. destruct (autostartLauncherPath h); [|done]. cbn. by destruct (au_run h _) as [[out e]|].
  - intros s s' _. cbn. destruct (au_run h _) as [[out e]|] eqn:Er; [by rw (Hfind _ _ _ Er)|]. intros [= <-]. cbn. by rw lookup_delete_eq.
  - intros s. cbn. by destruct (au_run h _) as [[out e]|].
  - done.
Qed.
End platforms.

(** ** The decision *)
Section decision.
Variables (h : ahost) (sm : seam).
Context `{!LawfulSeam sm}.
Lemma save_installed choice s : sm_installed sm (saveAutostartChoice h choice s) = sm_installed sm s.
Proof. unfold saveAutostartChoice. destruct (au_stateDir h); [|done]. destruct (au_save h); [apply installed_choice | done]. Qed.
(** A status without an error that says enabled is true of the host, for every
    value of the flag and every answer of the operator. *)
Theorem autostart_status_true value s s' asked status :
  ResolveAutostart h sm value s = (s', asked, status, None) → st_Enabled status = true → sm_installed sm s' = true.
Proof.
  unfold ResolveAutostart, auto_start, ask_operator, install_or, ProbeAutostart. intros Hr He.
  repeat (case_match; simplify_eq/=; try done); rw ?save_installed; try done; by eapply install_installs.
Qed.
(** The operator who was asked and whose answer could be kept is not asked
    again, whatever the platform does in between. *)
Theorem autostart_asks_once value s s' status s'' value2 :
  ResolveAutostart h sm value s = (s', true, status, None) → au_save h = true → is_ok (au_stateDir h) = true →
  as_choice s'' = as_choice s' → (ResolveAutostart h sm value2 s'').1.1.2 = false.
Proof.
  intros Hr Hs Hd Hc. destruct (au_stateDir h) as [dir|] eqn:Edir; [|done].
  assert (Hch : as_choice s' = Some "on" ∨ as_choice s' = Some "off").
  { unfold ResolveAutostart, auto_start, ask_operator, install_or, saveAutostartChoice in Hr. rw Edir Hs in Hr.
    repeat (case_match; simplify_eq/=; try done); auto. }
  unfold ResolveAutostart, auto_start, install_or, readAutostartChoice. rw Edir Hc.
  destruct Hch as [-> | ->]; cbn; repeat case_match; simplify_eq/=; done.
Qed.
(** Unattended, in a container or without a mechanism, nobody is asked. *)
Theorem autostart_unattended value s :
  au_terminal h = false ∨ au_container h = true ∨ sm_available sm = None → (ResolveAutostart h sm value s).1.1.2 = false.
Proof.
  intros Hu. unfold ResolveAutostart, auto_start, ask_operator, install_or, ProbeAutostart.
  destruct Hu as [Hu|[Hu|Hu]]; rw Hu ?orb_true_r; cbn; repeat (case_match; simplify_eq/=; try done).
Qed.
End decision.

(** ** The menu *)
(** The menu ends a process only when it is the trusted owner of the host's
    lock, starts only a program that is there, and on a restart only after
    that: when the node could not be asked to stop nothing is started. *)
Theorem service_menu_safe h mh dialog ops code :
  ServiceMenu h mh dialog = (ops, code) →
  (∀ pid, OTerminate pid ∈ ops → ∃ info, lk_owner (mn_lock mh) = Ok info ∧ ow_pid info = pid ∧ trustedOwner (mn_lock mh) info = true) ∧
  (∀ program, OSpawn program ∈ ops → mn_missing mh program = false) ∧
  (dialog = Some ServiceActionRestart → (serviceStop mh).2 ≠ 0%Z → ops = [] ∧ code = (serviceStop mh).2).
Proof.
  assert (Hstop : (∀ pid, OTerminate pid ∈ (serviceStop mh).1 →
      ∃ info, lk_owner (mn_lock mh) = Ok info ∧ ow_pid info = pid ∧ trustedOwner (mn_lock mh) info = true) ∧
    (∀ program, OSpawn program ∉ (serviceStop mh).1) ∧ ((serviceStop mh).2 ≠ 0%Z → (serviceStop mh).1 = [])).
  { unfold serviceStop. destruct (lk_owner (mn_lock mh)) as [info|]; [|split_and!; [by intros ? ?%elem_of_nil|by intros ? ?%elem_of_nil|done]].
    destruct (trustedOwner (mn_lock mh) info) eqn:Et; cbn; [|split_and!; [by intros ? ?%elem_of_nil|by intros ? ?%elem_of_nil|done]].
    destruct (mn_signal mh (ow_pid info)); cbn; [|split_and!; [by intros ? ?%elem_of_nil|by intros ? ?%elem_of_nil|done]].
    split_and!; [|by intros p Hp%list_elem_of_singleton|done]. intros pid [= ->]%list_elem_of_singleton. eauto. }
  assert (Hstart : (∀ pid, OTerminate pid ∉ (serviceStart h mh).1) ∧ (∀ program, OSpawn program ∈ (serviceStart h mh).1 → mn_missing mh program = false)).
  { unfold serviceStart. destruct (autostartLauncherPath h) as [launcher|]; [|split; by intros ? ?%elem_of_nil].
    destruct (mn_missing mh launcher) eqn:Em; [split; by intros ? ?%elem_of_nil|].
    destruct (mn_spawn mh); [|split; by intros ? ?%elem_of_nil]. cbn.
    split; [by intros p Hp%list_elem_of_singleton|]. by intros p [= ->]%list_elem_of_singleton. }
  destruct Hstop as (Ht & Hns & Hz), Hstart as (Hnt & Hsp). unfold ServiceMenu.
  destruct dialog as [[]|]; try (intros [= <- <-]; split_and!; [by intros ? ?%elem_of_nil|by intros ? ?%elem_of_nil|done]).
  - intros E. rw E in Hnt Hsp. cbn in *. split_and!; [by intros pid ?%Hnt|done|done].
  - intros E. rw E in Ht Hns. cbn in *. split_and!; [done|by intros p ?%Hns|done].
  - destruct (serviceStop mh) as [ops1 c1]; cbn in *. destruct (Z.eqb_spec c1 0) as [->|Hc]; cbn [negb].
    + destruct (serviceStart h mh) as [more c2]; cbn in *. intros [= <- <-]. split_and!; [| |done].
      * intros pid [?|?%Hnt]%elem_of_app; [by apply Ht|done].
      * intros p [?%Hns|?]%elem_of_app; [done|by apply Hsp].
    + intros [= <- <-]. rw (Hz Hc). split_and!; [by intros ? ?%elem_of_nil|by intros ? ?%elem_of_nil|done].
Qed.
(** Waiting for the old node ends: a poll sleeps at least 300 ms, so the ten
    seconds are over within the polls the model allows. *)
Theorem wait_released_ends mh :
  (∀ k, mn_now mh k + 300 ≤ mn_now mh (S k))%Z → is_Some (serviceWaitLockReleased mh).
Proof.
  intros Hclock. unfold serviceWaitLockReleased.
  assert (Hn : ∀ k, (mn_now mh 0 + 300 * Z.of_nat k ≤ mn_now mh k)%Z) by (induction k as [|k IH]; [lia | specialize (Hclock k); lia]).
  assert (Hg : ∀ fuel k, 34 < k + fuel → is_Some (wait_released mh fuel k (mn_now mh 0 + 10000)%Z) ∨ fuel = 0).
  { induction fuel as [|fuel IH]; intros k Hk; [by right|left]. cbn [wait_released].
    destruct (Z.ltb_spec (mn_now mh k) (mn_now mh 0 + 10000)); [|eauto]. destruct (mn_released mh k); [eauto|].
    destruct (IH (S k)) as [?| ->]; [lia|done|]. specialize (Hn k). lia. }
  by destruct (Hg release_fuel 1) as [?|?]; [unfold release_fuel; lia|..].
Qed.

(** ** Defects *)
Module ServiceDefects.
Definition host (answer : result string) : ahost :=
  mkAhost (Ok "/home/op") (Ok "/opt/bin/node-execution") (λ p, Ok p) (λ _, false) (Ok "/state") "/tmp" (λ _, true) None None
    (λ _, None) true false true "" answer.
Definition fresh : astate := mkAstate ∅ ∅ None [].
(** the operator agrees once, later starts the node with the flag off, and the next plain start puts the entry back *)
Lemma off_is_forgotten :
  let agreed := (ResolveAutostart (host (Ok "y")) (systemd (host (Ok "y"))) "auto" fresh).1.1.1 in
  let off := (ResolveAutostart (host (Ok "y")) (systemd (host (Ok "y"))) "off" agreed).1.1.1 in
  let next := (ResolveAutostart (host (Ok "y")) (systemd (host (Ok "y"))) "auto" off).1.1.1 in
  (sm_installed (systemd (host (Ok "y"))) agreed, sm_installed (systemd (host (Ok "y"))) off, sm_installed (systemd (host (Ok "y"))) next) =
  (true, false, true).
Proof. by vm_compute. Qed.
(** without a launcher the macOS agent gives the program itself to bash *)
Lemma agent_runs_binary_in_bash :
  let s := (sm_install (launchd (host (Ok ""))) fresh).1 in
  (λ text, Contains text "<string>/bin/bash</string>" && Contains text "<string>/opt/bin/node-execution</string>") <$>
    as_files s !! "/home/op/Library/LaunchAgents/com.agent-compose.node.plist" = Some true.
Proof. by vm_compute. Qed.
(** the path of a launcher is put into the property list as it is *)
Lemma plist_not_escaped : Contains (plist_text "/Users/a&b/start-node.sh" "" "") "<string>/Users/a&b/start-node.sh</string>" = true.
Proof. by vm_compute. Qed.
End ServiceDefects.
