(* ===== verification/ConfigFile.v ===== *)
(** * ConfigFile: the configuration a node keeps on disk
    (common/agent/localconfig.go, localconfig_unix.go, configio.go)

    [MarshalIndent] prints the fields of a struct the way encoding/json does;
    [LocalConfig]'s tags are the table [local_tags], which both directions
    read.  [AtomicWriteJSON] works on a disk whose every operation may fail; it
    lists the disks a crash may leave behind, the last one being the one it
    ends with. *)
From S2P Require Import Prelude GoStrings GoPath GoJson LocalState DevicesConfig.
From Stdlib Require Import Ascii.

(** ** encoding/json: printing *)
Definition quote_char : ascii := "034".
Definition backslash : ascii := "092".
Definition hex_char (n : N) : ascii := ascii_of_N (if n <? 10 then 48 + n else 87 + n)%N.
(** characters that stand for themselves, with HTML escaping on *)
Definition html_safe (c : ascii) : bool :=
  (32 <=? code c)%N && negb (existsb (λ n, is_code n c) [34; 92; 60; 62; 38]%N).
Definition escape_ascii (c : ascii) : string :=
  if html_safe c then String c ""
  else if is_code 34 c || is_code 92 c then String backslash (String c "")
  else if is_code 8 c then String backslash "b" else if is_code 12 c then String backslash "f"
  else if is_code 10 c then String backslash "n" else if is_code 13 c then String backslash "r"
  else if is_code 9 c then String backslash "t"
  else String backslash ("u00" +:+ String (hex_char (code c / 16)%N) (String (hex_char (code c mod 16)%N) "")).
(** U+2028 and U+2029 *)
Definition line_separator (last : ascii) : string := String "226" (String "128" (String last "")).
Definition escape_rune (r : rune) : string :=
  match r with
  | RAscii c => escape_ascii c
  | RMulti enc =>
      if String.eqb enc (line_separator "168") then String backslash "u2028"
      else if String.eqb enc (line_separator "169") then String backslash "u2029" else enc
  | RInvalid _ => String backslash "ufffd"
  end.
Definition escape_runes (rs : list rune) : string := foldr (λ r s, escape_rune r +:+ s) "" rs.
Definition json_string (s : string) : string := String quote_char (escape_runes (runes s) +:+ String quote_char "").
(** the values of the fields in use *)
Inductive scalar := SText (s : string) | SBool (b : bool).
Definition print_scalar (v : scalar) : string :=
  match v with SText s => json_string s | SBool b => if b then "true" else "false" end.
Definition scalar_json (v : scalar) : json := match v with SText s => JString s | SBool b => JBool b end.
Definition line_feed : string := String "010" "".
Definition print_member (kv : string * scalar) : string :=
  line_feed +:+ "  " +:+ json_string kv.1 +:+ ": " +:+ print_scalar kv.2.
(** json.MarshalIndent(v, "", "  ") of a struct with these fields *)
Definition MarshalIndent (fields : list (string * scalar)) : string :=
  match fields with
  | [] => "{}"
  | _ => "{" +:+ concat_sep "," (map print_member fields) +:+ line_feed +:+ "}"
  end.

(** ** The struct tags of LocalConfig *)
Record tag := mkTag { tag_name : string; tag_omitempty : bool; tag_get : LocalConfig → string; tag_set : string → LocalConfig → LocalConfig }.
Definition local_tags : list tag :=
  [mkTag "server" false lc_server (λ s c, c <| lc_server := s |>);
   mkTag "node_id" false lc_nodeID (λ s c, c <| lc_nodeID := s |>);
   mkTag "secret" false lc_secret (λ s c, c <| lc_secret := s |>);
   mkTag "role" false lc_role (λ s c, c <| lc_role := s |>);
   mkTag "node_name" true lc_nodeName (λ s c, c <| lc_nodeName := s |>);
   mkTag "work_root" true lc_workRoot (λ s c, c <| lc_workRoot := s |>);
   mkTag "providers" true lc_providers (λ s c, c <| lc_providers := s |>);
   mkTag "agent_image" true lc_agentImage (λ s c, c <| lc_agentImage := s |>);
   mkTag "execution_bin" true lc_executionBin (λ s c, c <| lc_executionBin := s |>);
   mkTag "labels" true lc_labels (λ s c, c <| lc_labels := s |>)].
Definition tls_tag : string := "tls_insecure".
Definition tag_fields (c : LocalConfig) (t : tag) : list (string * scalar) :=
  if tag_omitempty t && String.eqb (tag_get t c) "" then [] else [(tag_name t, SText (tag_get t c))].
Definition local_fields (c : LocalConfig) : list (string * scalar) :=
  concat (map (tag_fields c) local_tags) ++ (if lc_tlsInsecure c then [(tls_tag, SBool true)] else []).
Definition marshalLocal (c : LocalConfig) : string := MarshalIndent (local_fields c).

(** json.Unmarshal: the members in order; a key selects the field it equals up
    to case, an unknown one is skipped, null leaves a field as it is, and a
    value of another type is an error *)
Definition emptyLocal : LocalConfig := mkLocal "" "" "" "" "" "" "" "" "" "" false.
Definition set_member (c : LocalConfig) (kv : string * json) : result LocalConfig :=
  if EqualFold kv.1 tls_tag then
    match kv.2 with
    | JBool b => Ok (c <| lc_tlsInsecure := b |>)
    | JNull => Ok c
    | _ => Err "json: cannot unmarshal into Go struct field LocalConfig.tls_insecure of type bool"
    end
  else match find (λ t, EqualFold kv.1 (tag_name t)) local_tags with
       | None => Ok c
       | Some t =>
           match kv.2 with
           | JString s => Ok (tag_set t s c)
           | JNull => Ok c
           | _ => Err ("json: cannot unmarshal into Go struct field LocalConfig." +:+ tag_name t +:+ " of type string")
           end
       end.
Fixpoint set_members (l : list (string * json)) (c : LocalConfig) : result LocalConfig :=
  match l with
  | [] => Ok c
  | kv :: l => match set_member c kv with Err e => Err e | Ok c => set_members l c end
  end.
Definition unmarshalLocal (raw : string) : result LocalConfig :=
  match parse raw with
  | Some (JObject l) => set_members l emptyLocal
  | Some JNull => Ok emptyLocal
  | Some _ => Err "json: cannot unmarshal into Go value of type agent.LocalConfig"
  | None => Err "invalid JSON"
  end.

(** ** AtomicWriteJSON *)
Record file := mkFile { f_body : string; f_mode : Z }.
Definition disk : Type := gmap string file.
Record whost := mkWhost {
  wh_mkdir : option string; wh_create : option string;
  wh_random : string;                     (** the random part of the name of a temporary file *)
  wh_write : option string; wh_partial : nat;      (** a failing or interrupted write gets this far *)
  wh_chmod : option string; wh_close : option string; wh_commit : option string;
  wh_remove : bool;                       (** a file that exists can be removed *)
  wh_windows : bool
}.
Definition owner_only : Z := 6 * 64.      (** 0o600 *)
Section write.
Variable h : whost.
Definition tmp_name (path : string) : string := Join [Dir path; Base path +:+ "." +:+ wh_random h +:+ ".tmp"].
(** the deferred os.Remove(tmpName) *)
Definition drop_tmp (path : string) (d : disk) : disk := if wh_remove h then delete (tmp_name path) d else d.
Definition AtomicWriteJSON (path body : string) (d : disk) : list disk * option string :=
  let tmp := tmp_name path in
  match wh_mkdir h with
  | Some e => ([d], Some ("create config dir: " +:+ e))
  | None =>
      match wh_create h with
      | Some e => ([d], Some ("create temp config: " +:+ e))
      | None =>
          let with_tmp text := <[tmp := mkFile text owner_only]> d in
          let begun := [d; with_tmp ""; with_tmp (take_bytes (wh_partial h) body)] in
          match wh_write h with
          | Some e => (begun ++ [drop_tmp path (with_tmp (take_bytes (wh_partial h) body))], Some ("write temp config: " +:+ e))
          | None =>
              let full := with_tmp body in
              let fail what e := (begun ++ [full; drop_tmp path full], Some (what +:+ e)) in
              match (if wh_windows h then None else wh_chmod h) with
              | Some e => fail "chmod temp config: " e
              | None =>
                  match wh_close h with
                  | Some e => fail "close temp config: " e
                  | None =>
                      match wh_commit h with
                      | Some e => fail "commit config: " e
                      | None => (begun ++ [full; <[path := mkFile body owner_only]> (delete tmp full)], None)
                      end
                  end
              end
          end
      end
  end.
End write.
(** the disk a call ends with *)
Definition final (d : disk) (ds : list disk) : disk := default d (last ds).

(** ** localconfig.go *)
Definition ConfigPath (stateDir : result string) : result string :=
  match stateDir with Err e => Err e | Ok dir => Ok (Join [dir; "config.json"]) end.
Definition LockPath (stateDir : result string) : result string :=
  match stateDir with Err e => Err e | Ok dir => Ok (Join [dir; "node.lock"]) end.
(** os.ReadFile: [unreadable] is an error other than that there is no file *)
Definition read_disk (unreadable : option string) (d : disk) (path : string) : file_read :=
  match unreadable with
  | Some e => FileError e
  | None => match d !! path with Some f => FileBytes (f_body f) | None => FileMissing end
  end.
Definition LoadLocalConfig (stateDir : result string) (unreadable : option string) (d : disk) : result (option LocalConfig) :=
  match ConfigPath stateDir with
  | Err e => Err e
  | Ok path =>
      match read_disk unreadable d path with
      | FileMissing => Ok None
      | FileError e => Err ("read node config: " +:+ e)
      | FileBytes raw =>
          match unmarshalLocal raw with
          | Err e => Err ("parse node config " +:+ path +:+ ": " +:+ e)
          | Ok c => Ok (Some c)
          end
      end
  end.
Definition SaveLocalConfig (h : whost) (stateDir : result string) (c : LocalConfig) (d : disk) : list disk * option string :=
  match ConfigPath stateDir with
  | Err e => ([d], Some e)
  | Ok path => AtomicWriteJSON h path (marshalLocal c) d
  end.
