(* ===== verification/ConfigFileProofs.v ===== *)
(** * ConfigFileProofs: theorems about the stored configuration

    What [MarshalIndent] prints, the JSON reader of [GoJson] reads back
    ([parse_MarshalIndent]); a stored configuration is the one loaded
    ([config_save_load]); and a write leaves the old file or the whole new one at
    every moment ([atomic_write]). *)
From S2P Require Import Prelude GoStrings GoPath GoJson ProtoText LocalState DevicesConfig ConfigFile.
From Stdlib Require Import Ascii.

(** ** Strings *)
Ltac open_append := rw ?append_cons ?append_nil ?append_cons ?append_nil.
(** [w] inside a string literal is read as [x]. *)
Definition reads (w x : string) : Prop :=
  ∀ r t q, str_body r = Some (t, q) → str_body (w +:+ r) = Some (x +:+ t, q).
Lemma str_body_step c r' x r t q :
  is_code 34 c = false → str_char c r' = Some (x, r) → str_body r = Some (t, q) → str_body (String c r') = Some (x +:+ t, q).
Proof.
  intros Hc Hs Hb. unfold str_body. cbn [String.length str_rest]. rw Hc Hs. cbn [mbind option_bind].
  apply str_char_length in Hs. rw (str_rest_fuel _ (String.length r)) //. unfold str_body in Hb. by rw Hb.
Qed.
Lemma escape_ascii_reads c : (code c <? 128)%N = true → reads (escape_ascii c) (String c "").
Proof.
  intros Hc r t q Hr. destruct c as [[] [] [] [] [] [] [] []]; try discriminate Hc; clear Hc;
    (eapply str_body_step; [reflexivity|reflexivity|exact Hr]).
Qed.
Lemma high_byte a : (code a <? 0x80)%N = false →
  is_code 34 a = false ∧ ∀ r, str_char a r = Some (multibyte a r).
Proof.
  intros Ha. unfold str_char, is_code. apply N.ltb_ge in Ha.
  assert ((code a <? 32)%N = false) as -> by (apply N.ltb_ge; lia).
  assert ((code a <? 128)%N = false) as -> by (apply N.ltb_ge; lia).
  split; [apply N.eqb_neq; lia|]. intros r. assert ((code a =? 92)%N = false) as -> by (apply N.eqb_neq; lia). done.
Qed.
Lemma multi_reads a enc : (code a <? 0x80)%N = false → (∀ r, multibyte a (enc +:+ r) = (String a enc, r)) →
  String.eqb (String a enc) (line_separator "168") = false → String.eqb (String a enc) (line_separator "169") = false →
  reads (escape_rune (RMulti (String a enc))) (String a enc).
Proof.
  intros Ha Hm H1 H2 r t q Hr. cbn [escape_rune]. rw H1 H2. destruct (high_byte a Ha) as [Hq Hs].
  eapply str_body_step; [exact Hq|rw Hs Hm; reflexivity|exact Hr].
Qed.
Lemma separator_reads last : last = "168"%char ∨ last = "169"%char → reads (escape_rune (RMulti (line_separator last))) (line_separator last).
Proof. by intros [->| ->] r t q Hr; (eapply str_body_step; [reflexivity|reflexivity|exact Hr]). Qed.
Lemma escape_runes_reads n s q : String.length s ≤ n → ValidString s = true →
  str_body (escape_runes (runes s) +:+ String quote_char q) = Some (s, q).
Proof.
  revert s. induction n as [|n IH]; intros [|a s] Hn Hv; cbn [String.length] in Hn; try lia; [reflexivity..|].
  assert (∀ w x rs s', reads w x → runes s' = rs → String.length s' ≤ n → forallb good_rune rs = true →
    str_body ((w +:+ escape_runes rs) +:+ String quote_char q) = Some (x +:+ s', q)) as Hgo.
  { intros w x rs s' Hw Hrs Hs' Hv'. rw -string_app_assoc. apply Hw. subst rs. by apply IH. }
  unfold ValidString in Hv. cbn [runes] in *. destruct (code a <? 0x80)%N eqn:Ea.
  { apply (Hgo _ (String a "")); [by apply escape_ascii_reads|done|lia|done]. }
  destruct s as [|b s]; [done|]. cbn [String.length] in Hn. destruct (ok2 a b) eqn:E2.
  { apply (Hgo _ (String a (String b ""))); [|done|lia|done].
    apply multi_reads; [done| |by apply String.eqb_neq; intros [=]..]. intros r. open_append. unfold multibyte. by rw E2. }
  destruct s as [|c s]; [done|]. cbn [String.length] in Hn. destruct (ok3 a b c) eqn:E3.
  { apply (Hgo _ (String a (String b (String c "")))); [|done|lia|done].
    destruct (String.eqb_spec (String a (String b (String c ""))) (line_separator "168")) as [He|H8].
    { unfold line_separator in He. injection He as -> -> ->. apply separator_reads. by left. }
    destruct (String.eqb_spec (String a (String b (String c ""))) (line_separator "169")) as [He|H9].
    { unfold line_separator in He. injection He as -> -> ->. apply separator_reads. by right. }
    apply multi_reads; [done| |by apply String.eqb_neq..]. intros r. open_append. unfold multibyte. by rw E2 E3. }
  destruct s as [|e s]; [done|]. cbn [String.length] in Hn. destruct (ok4 a b c e) eqn:E4; [|done].
  apply (Hgo _ (String a (String b (String c (String e ""))))); [|done|lia|done].
  apply multi_reads; [done| |by apply String.eqb_neq; intros [=]..]. intros r. open_append. unfold multibyte. by rw E2 E3 E4.
Qed.
Lemma json_string_body s r : ValidString s = true → str_body (escape_runes (runes s) +:+ String "034" r) = Some (s, r).
Proof. by apply (escape_runes_reads (String.length s)). Qed.

(** ** Objects *)
Definition valid_scalar (v : scalar) : bool := match v with SText s => ValidString s | SBool _ => true end.
Definition valid_member (kv : string * scalar) : bool := ValidString kv.1 && valid_scalar kv.2.
Definition member_json (kv : string * scalar) : string * json := (kv.1, scalar_json kv.2).
Lemma json_string_app s r : json_string s +:+ r = String "034" (escape_runes (runes s) +:+ String "034" r).
Proof. unfold json_string. open_append. f_equal. by rw -string_app_assoc. Qed.
Lemma literal_app w v r : literal w v (w +:+ r) = Some (v, r).
Proof. unfold literal. by rw HasPrefix_app drop_bytes_app. Qed.
Lemma value_string f d r : value (S f) d (String " " (String "034" r)) = ('(t, q) ← str_body r; Some (JString t, q)).
Proof. reflexivity. Qed.
Lemma value_scalar f d v r : valid_scalar v = true → value (S f) d (" " +:+ print_scalar v +:+ r) = Some (scalar_json v, r).
Proof.
  destruct v as [s|[]]; cbn [print_scalar valid_scalar]; intros Hv.
  - rw json_string_app. open_append. by rw value_string json_string_body.
  - exact (literal_app "true" (JBool true) r).
  - exact (literal_app "false" (JBool false) r).
Qed.
Definition after_member (val : N → string → option (json * string)) (f : nat) (d : N) (k : string) (v : json) (r : string) :=
  match skip_ws r with
  | String c r =>
      if is_code 125 c then Some ([(k, v)], r)
      else if is_code 44 c then '(l, r) ← members val f d r; Some ((k, v) :: l, r)
      else None
  | EmptyString => None
  end.
Lemma members_one val f d r k r1 v r2 :
  str_body r = Some (k, String ":" r1) → val d r1 = Some (v, r2) →
  members val (S f) d (line_feed +:+ "  " +:+ String "034" r) = after_member val f d k v r2.
Proof.
  intros Hk Hv. cbn [members]. change (skip_ws (line_feed +:+ "  " +:+ String "034" r)) with (String "034" r).
  change (negb (is_code 34 "034")) with false. cbv iota. rw Hk. cbn [mbind option_bind].
  change (skip_ws (String ":" r1)) with (String ":" r1). change (negb (is_code 58 ":")) with false. cbv iota. by rw Hv.
Qed.
Lemma members_print f f' d l r : 0 < f → length l ≤ f' → l ≠ [] → forallb valid_member l = true →
  members (value f) f' d (concat_sep "," (map print_member l) +:+ line_feed +:+ "}" +:+ r) = Some (map member_json l, r).
Proof.
  intros Hf. revert l. induction f' as [|f' IH]; intros [|[k v] l] Hl Hne Hv; cbn [length] in Hl; try done; [lia|].
  cbn [forallb] in Hv. apply andb_true_iff in Hv as [[Hk Hs]%andb_true_iff Hv]. cbn [fst snd] in Hk, Hs.
  destruct f as [|f]; [lia|].
  assert (∀ rest, concat_sep "," (map print_member ((k, v) :: l)) +:+ rest
    = line_feed +:+ "  " +:+ json_string k +:+ ":" +:+ " " +:+ print_scalar v +:+
      (match l with [] => rest | _ => "," +:+ concat_sep "," (map print_member l) +:+ rest end)) as ->.
  { intros rest. destruct l as [|kv l]; cbn [map concat_sep]; unfold print_member at 1; cbn [fst snd]; by rw -!string_app_assoc. }
  rw json_string_app. erewrite members_one; [|by apply json_string_body|by apply value_scalar].
  destruct l as [|kv l]; [reflexivity|].
  change (after_member (value (S f)) f' d k (scalar_json v) ("," +:+ concat_sep "," (map print_member (kv :: l)) +:+ line_feed +:+ "}" +:+ r))
    with ('(l, r) ← members (value (S f)) f' d (concat_sep "," (map print_member (kv :: l)) +:+ line_feed +:+ "}" +:+ r);
          Some ((k, scalar_json v) :: l, r)).
  rw (IH (kv :: l)) //. lia.
Qed.
Lemma print_length l : length l ≤ String.length (concat_sep "," (map print_member l)).
Proof.
  assert (∀ kv, 0 < String.length (print_member kv)) as Hm by (intros kv; unfold print_member; rw string_length_app; cbn; lia).
  induction l as [|kv [|kv' l] IH]; [cbn; lia|apply Hm|]. specialize (Hm kv).
  change (concat_sep "," (map print_member (kv :: kv' :: l))) with (print_member kv +:+ "," +:+ concat_sep "," (map print_member (kv' :: l))).
  rw !string_length_app. cbn [length] in *. change (String.length line_feed) with 1. lia.
Qed.
Lemma value_object f r : value (S f) 0 (String "{" (line_feed +:+ "  " +:+ String "034" r)) =
  ('(l, q) ← members (value f) f 1 (line_feed +:+ "  " +:+ String "034" r); Some (JObject l, q)).
Proof. reflexivity. Qed.
Lemma print_opens kv l rest : ∃ r, concat_sep "," (map print_member (kv :: l)) +:+ rest = line_feed +:+ "  " +:+ String "034" r.
Proof.
  destruct l as [|kv' l]; cbn [map concat_sep]; unfold print_member at 1; rw -!string_app_assoc json_string_app; by eexists.
Qed.
(** What is printed is read back as it was, field for field and in order. *)
Theorem parse_MarshalIndent l : forallb valid_member l = true → parse (MarshalIndent l) = Some (JObject (map member_json l)).
Proof.
  intros Hv. destruct l as [|kv l]; [reflexivity|]. unfold parse, MarshalIndent.
  set (n := String.length _).
  assert (length (kv :: l) ≤ n) as Hn.
  { subst n. rw !string_length_app. pose proof (print_length (kv :: l)). lia. }
  assert (0 < n) as Hp by (cbn in Hn; lia).
  pose proof (members_print n n 1 (kv :: l) "" Hp Hn ltac:(done) Hv) as Hm. rw string_app_nil_r in Hm.
  clearbody n. destruct (print_opens kv l (line_feed +:+ "}")) as [r Hr]. rw Hr in Hm *.
  change ("{" +:+ line_feed +:+ "  " +:+ String "034" r) with (String "{" (line_feed +:+ "  " +:+ String "034" r)).
  rw value_object Hm. reflexivity.
Qed.

(** ** LocalConfig *)
Lemma set_members_app l l' c : set_members (l ++ l') c = match set_members l c with Ok c => set_members l' c | Err e => Err e end.
Proof. revert c. induction l as [|kv l IH]; intros c; [done|]. cbn. by destruct (set_member c kv). Qed.
(** A field that is left out is one that is empty anyway. *)
Lemma tag_read t c acc :
  find (λ u, EqualFold (tag_name t) (tag_name u)) local_tags = Some t → EqualFold (tag_name t) tls_tag = false → tag_set t "" acc = acc →
  set_members (map member_json (tag_fields c t)) acc = Ok (tag_set t (tag_get t c) acc).
Proof.
  intros Hf Ht He. unfold tag_fields. destruct (tag_omitempty t && String.eqb (tag_get t c) "") eqn:Eo.
  - apply andb_true_iff in Eo as [_ ->%String.eqb_eq]. cbn. by rw He.
  - cbn [map set_members]. unfold set_member, member_json. cbn [fst snd]. by rw Ht Hf.
Qed.
Definition valid_config (c : LocalConfig) : bool := forallb (λ t, ValidString (tag_get t c)) local_tags.
Lemma local_fields_valid c : valid_config c = true → forallb valid_member (local_fields c) = true.
Proof.
  intros Hv. unfold local_fields. rw forallb_app. apply andb_true_iff. split; [|by destruct (lc_tlsInsecure c)].
  assert (forallb (λ t, ValidString (tag_name t)) local_tags = true) as Hn by (vm_compute; reflexivity).
  unfold valid_config in Hv. revert Hv Hn. generalize local_tags. intros ts. induction ts as [|t ts IH]; [done|].
  cbn [forallb map concat]. intros [Ht Hts]%andb_true_iff [Hn Hns]%andb_true_iff. rw forallb_app IH // andb_true_r.
  unfold tag_fields. destruct (_ && _); [done|]. unfold valid_member. cbn [forallb fst snd valid_scalar]. by rw Hn Ht.
Qed.
(** Encoding a configuration and decoding the text gives the configuration. *)
Theorem local_config_roundtrip c : valid_config c = true → unmarshalLocal (marshalLocal c) = Ok c.
Proof.
  intros Hv. unfold unmarshalLocal, marshalLocal. rw parse_MarshalIndent; [|by apply local_fields_valid].
  unfold local_fields. rw map_app set_members_app.
  assert (set_members (map member_json (concat (map (tag_fields c) local_tags))) emptyLocal
    = Ok (c <| lc_tlsInsecure := false |>)) as ->.
  { unfold local_tags. cbn [map concat]. rw !map_app.
    do 10 (rw set_members_app tag_read; [|reflexivity..]). by destruct c. }
  by destruct c as [?????????? []].
Qed.

(** ** Writing *)
Section write.
Variables (h : whost) (path body : string) (d : disk).
Let tmp := tmp_name h path.
Let new := mkFile body owner_only.
(** O_EXCL: the temporary file is a new one *)
Hypothesis tmp_fresh : d !! tmp = None.
Hypothesis tmp_other : tmp ≠ path.
(** A disk that differs from [d] at most by the temporary file. *)
Definition old_disk (d' : disk) : Prop := d' = d ∨ ∃ f, d' = <[tmp := f]> d.
Lemma old_disk_lookup d' p : old_disk d' → p ≠ tmp → d' !! p = d !! p.
Proof using. intros [->|[f ->]] Hp; [done|]. by apply lookup_insert_ne. Qed.
Lemma drop_tmp_old f : old_disk (drop_tmp h path (<[tmp := f]> d)) ∧ (wh_remove h = true → drop_tmp h path (<[tmp := f]> d) = d).
Proof using tmp_fresh.
  unfold drop_tmp. fold tmp. destruct (wh_remove h); [|split; [right; by eexists|done]].
  assert (delete tmp (<[tmp:=f]> d) = d) as -> by (rw delete_insert_eq; by apply delete_id). split; [by left|done].
Qed.
(** Every disk on the way is the old one up to the temporary file, and the
    last one of a write that succeeds is the old one with the file in place. *)
Lemma atomic_write_disks ds err : AtomicWriteJSON h path body d = (ds, err) →
  match err with
  | None => ∃ pre, ds = pre ++ [<[path := new]> d] ∧ Forall old_disk pre
  | Some _ => Forall old_disk ds ∧ (wh_remove h = true → final d ds = d)
  end.
Proof using tmp_fresh.
  unfold AtomicWriteJSON. fold tmp.
  assert (∀ f, old_disk (<[tmp := f]> d)) as Hf by (intros f; right; by eexists).
  assert (old_disk d) as Hd by (by left).
  assert (∀ d', old_disk d' → Forall old_disk [d']) as Hone by (intros d' Hd'; apply Forall_cons; auto).
  destruct (wh_mkdir h); [intros [= <- <-]; split; [by apply Hone|done]|].
  destruct (wh_create h); [intros [= <- <-]; split; [by apply Hone|done]|]. cbv zeta.
  set (begun := [d; _; _]). assert (Forall old_disk begun) as Hb by (apply Forall_cons; split; [done|apply Forall_cons; split; auto]). clearbody begun.
  destruct (wh_write h).
  { intros [= <- <-]. destruct (drop_tmp_old (mkFile (take_bytes (wh_partial h) body) owner_only)) as [H1 H2].
    split; [apply Forall_app; split; [done|auto]|]. intros Hr. unfold final. rw last_app. cbn. by apply H2. }
  assert (∀ e, (begun ++ [<[tmp := new]> d; drop_tmp h path (<[tmp := new]> d)], Some e) = (ds, err) →
    match err with
    | None => ∃ pre, ds = pre ++ [<[path := new]> d] ∧ Forall old_disk pre
    | Some _ => Forall old_disk ds ∧ (wh_remove h = true → final d ds = d)
    end) as Hfail.
  { intros e [= <- <-]. destruct (drop_tmp_old new) as [H1 H2].
    split; [apply Forall_app; split; [done|apply Forall_cons; split; auto]|]. intros Hr. unfold final. rw last_app. cbn. by apply H2. }
  destruct (if wh_windows h then None else wh_chmod h); [apply Hfail|].
  destruct (wh_close h); [apply Hfail|]. destruct (wh_commit h); [apply Hfail|]. intros [= <- <-].
  exists (begun ++ [<[tmp := new]> d]). rw -app_assoc. split; [|apply Forall_app; split; [done|auto]].
  do 3 f_equal. rw delete_insert_eq. by rw delete_id.
Qed.
(** At every moment of a write, and so after a crash, the file is the old one
    or the whole new one and no other file is touched; a write that succeeds
    leaves exactly the new file with its owner's permissions, one that fails
    the old one. *)
Theorem atomic_write ds err : AtomicWriteJSON h path body d = (ds, err) →
  Forall (λ d', (d' !! path = d !! path ∨ d' !! path = Some new) ∧ ∀ p, p ≠ path → p ≠ tmp → d' !! p = d !! p) ds ∧
  match err with
  | None => final d ds = <[path := new]> d
  | Some _ => Forall (λ d', d' !! path = d !! path) ds ∧ (wh_remove h = true → final d ds = d)
  end.
Proof using tmp_fresh tmp_other.
  intros Hw. apply atomic_write_disks in Hw.
  assert (∀ ds, Forall old_disk ds → Forall (λ d', d' !! path = d !! path) ds) as Hold.
  { intros l Hl. eapply Forall_impl; [exact Hl|]. intros d' Hd'. by apply old_disk_lookup. }
  assert (∀ ds, Forall old_disk ds → Forall (λ d', (d' !! path = d !! path ∨ d' !! path = Some new) ∧
    ∀ p, p ≠ path → p ≠ tmp → d' !! p = d !! p) ds) as Hall.
  { intros l Hl. eapply Forall_impl; [exact Hl|]. intros d' Hd'.
    split; [left; by apply old_disk_lookup|]. intros p _ Hp. by apply old_disk_lookup. }
  destruct err as [e|]; [destruct Hw as [Hw Hf]; auto|]. destruct Hw as (pre & -> & Hp). split.
  - apply Forall_app. split; [by apply Hall|]. constructor; [|done].
    split; [right; by rw lookup_insert_eq|]. intros p Hp' _. by rw lookup_insert_ne.
  - unfold final. by rw last_app.
Qed.
End write.
(** A configuration that was stored is the one the next start loads. *)
Theorem config_save_load h dir c d ds :
  valid_config c = true → d !! tmp_name h (Join [dir; "config.json"]) = None → 
  SaveLocalConfig h (Ok dir) c d = (ds, None) → LoadLocalConfig (Ok dir) None (final d ds) = Ok (Some c).
Proof.
  intros Hv Ht Hs. unfold SaveLocalConfig, LoadLocalConfig, ConfigPath in *.
  apply atomic_write_disks in Hs as (pre & -> & _); [|done]. unfold final, read_disk. rw last_app. cbn [last default].
  rw lookup_insert_eq. cbn [f_body]. by rw local_config_roundtrip.
Qed.
