(* ===== verification/NodeStart.v ===== *)
(** * NodeStart: how an execution or a management node starts
    (execution/main.go, management/main.go, common/agent/options.go)

    The command line is read as package flag reads it, over defaults that come
    from the environment.  A start then resolves its configuration, takes the
    host lock, stores the configuration, decides about starting at login and
    builds the options of the client.  It lists what it does to the host, in
    order; the host answers every call. *)
From S2P Require Import Prelude GoStrings GoPath Workspace LocalState DevicesConfig ConfigFile HostService NodeClient.
From Stdlib Require Import Ascii.

(** ** Package flag *)
Inductive fval := VText (s : string) | VBool (b : bool) | VDuration (d : Z) | VInt (n : Z).
(** time.ParseDuration and strconv.ParseInt *)
Record numerals := mkNumerals { nm_duration : string → option Z; nm_int : string → option Z }.
Definition ParseBool (s : string) : option bool :=
  if existsb (String.eqb s) ["1"; "t"; "T"; "TRUE"; "true"; "True"] then Some true
  else if existsb (String.eqb s) ["0"; "f"; "F"; "FALSE"; "false"; "False"] then Some false else None.
(** strings.Cut at a character *)
Fixpoint Cut (sep : ascii) (s : string) : string * option string :=
  match s with
  | EmptyString => ("", None)
  | String c s => if Ascii.eqb c sep then ("", Some s) else let '(a, b) := Cut sep s in (String c a, b)
  end.
Inductive flag_word := NotAFlag | BadFlag | Flag (name : string) (value : option string).
Definition flag_of (s : string) : flag_word :=
  match s with
  | String "-" (String c r) =>
      let name := if Ascii.eqb c "-" then r else String c r in
      if Ascii.eqb c "-" && String.eqb r "" then NotAFlag
      else match name with
           | EmptyString | String "-" _ | String "=" _ => BadFlag
           | _ => let '(n, v) := Cut "=" name in Flag n v
           end
  | _ => NotAFlag
  end.
Section flags.
Variable nm : numerals.
(** Value.Set: the kind of a flag is that of its default *)
Definition set_value (old : fval) (text : string) : option fval :=
  match old with
  | VText _ => Some (VText text)
  | VBool _ => VBool <$> ParseBool text
  | VDuration _ => VDuration <$> nm_duration nm text
  | VInt _ => VInt <$> nm_int nm text
  end.
Definition ErrHelp : string := "flag: help requested".
Definition assign (formal : gmap string fval) (name text : string) (old : fval) : result (gmap string fval) :=
  match set_value old text with
  | Some v => Ok (<[name := v]> formal)
  | None => Err (match old with
                 | VBool _ => "invalid boolean value " +:+ quoted text +:+ " for -" +:+ name
                 | _ => "invalid value " +:+ quoted text +:+ " for flag -" +:+ name
                 end)
  end.
(** FlagSet.Parse; what follows the flags is ignored by the callers *)
Fixpoint Parse (formal : gmap string fval) (args : list string) {struct args} : result (gmap string fval) :=
  match args with
  | [] => Ok formal
  | s :: rest =>
      match flag_of s with
      | NotAFlag => Ok formal
      | BadFlag => Err ("bad flag syntax: " +:+ s)
      | Flag name value =>
          match formal !! name with
          | None => Err (if String.eqb name "help" || String.eqb name "h" then ErrHelp
                         else "flag provided but not defined: -" +:+ name)
          | Some old =>
              match old, value with
              | VBool _, _ => match assign formal name (default "true" value) old with Err e => Err e | Ok f => Parse f rest end
              | _, Some text => match assign formal name text old with Err e => Err e | Ok f => Parse f rest end
              | _, None =>
                  match rest with
                  | [] => Err ("flag needs an argument: -" +:+ name)
                  | text :: rest => match assign formal name text old with Err e => Err e | Ok f => Parse f rest end
                  end
              end
          end
      end
  end.
End flags.
Definition text_flag (f : gmap string fval) (name : string) : string := match f !! name with Some (VText s) => s | _ => "" end.
Definition bool_flag (f : gmap string fval) (name : string) : bool := match f !! name with Some (VBool b) => b | _ => false end.
Definition duration_flag (f : gmap string fval) (name : string) : Z := match f !! name with Some (VDuration d) => d | _ => 0%Z end.
Definition int_flag (f : gmap string fval) (name : string) : Z := match f !! name with Some (VInt n) => n | _ => 0%Z end.

(** ** options.go *)
Definition EnvOr (env : string → string) (key fallback : string) : string :=
  let v := TrimSpace (env key) in if negb (String.eqb v "") then v else fallback.
Definition SplitAndTrim (value : string) : list string := filter (λ p, p ≠ "") (map TrimSpace (Split1 "," value)).
Definition add_label (labels : gmap string string) (part : string) : gmap string string :=
  let '(key, val) := Cut "=" part in
  match val with
  | None => labels
  | Some val => let key := TrimSpace key in if String.eqb key "" then labels else <[key := TrimSpace val]> labels
  end.
Definition ParseLabels (value : string) : gmap string string := foldl add_label ∅ (SplitAndTrim value).
Definition DefaultNodeName (hostname : option string) : string :=
  match hostname with
  | None => "node"
  | Some host => if String.eqb (TrimSpace host) "" then "node" else TrimSpace host
  end.
(** auto|on|off: [auto] is what probing answers *)
Definition resolve_switch (what : string) (auto : bool) (value : string) : result bool :=
  let v := ToLower (TrimSpace value) in
  let any l := existsb (String.eqb v) l in
  if any [""; "auto"] then Ok auto
  else if any ["on"; "true"; "1"; "yes"] then Ok true
  else if any ["off"; "false"; "0"; "no"] then Ok false
  else Err ("invalid --" +:+ what +:+ " " +:+ quoted value +:+ ": want auto|on|off").
Definition ResolveDockerCapability (docker : bool) (value : string) : result bool := resolve_switch "docker" docker value.
Definition ResolveSystemEnvCapability (container : bool) (value : string) : result bool :=
  resolve_switch "allow-system-env" (negb container) value.

(** ** The host of a start *)
Record shost := mkShost {
  sh_env : string → string; sh_numerals : numerals;
  sh_hostname : option string; sh_look : string → bool; sh_container : bool; sh_usbmuxd : bool;
  sh_configDir : option string; sh_home : option string; sh_cacheDir : option string;
  sh_unreadable : option string;
  sh_terminal : bool; sh_line : result string;      (** the prompt of an installation *)
  sh_lock : lock_host; sh_write : whost; sh_auto : ahost; sh_seam : seam;
  sh_version : string
}.
Record start_sys := mkStart { ss_disk : disk; ss_auto : astate }.
#[export] Instance eta_start_sys : Settable start_sys := λ s, mkStart (ss_disk s) (ss_auto s).
Inductive start_op := SLock (o : lock_op) | SSave (ok : bool) | SAutostart (value : string).
(** the options, the work root, whether an instance is held, and env_mode=system *)
Record started := mkStarted { so_opts : Options; so_root : string; so_held : bool; so_systemEnv : bool }.
Definition outcome (A : Type) : Type := list start_op * start_sys * result A.
Definition ErrInstallComplete : string := "node installation complete".
Definition second : Z := 10 ^ 9.

Section start.
Variable h : shost.
Definition DockerAvailable : bool := sh_look h "docker".
Definition node_stateDir : result string :=
  match ResolveStateDir (sh_env h "AGENT_COMPOSE_NODE_STATE_DIR") (sh_configDir h) (sh_home h) "node" with
  | Some dir => Ok dir
  | None => Err "resolve state dir"
  end.
Definition env_text (key fallback : string) : fval := VText (EnvOr (sh_env h) key fallback).
Definition env_one (key : string) : fval := VBool (String.eqb (EnvOr (sh_env h) key "") "1").
Definition shared_flags : list (string * fval) :=
  [("server", env_text "AGENT_COMPOSE_SERVER" ""); ("node-id", env_text "AGENT_COMPOSE_NODE_ID" "");
   ("secret", env_text "AGENT_COMPOSE_NODE_SECRET" ""); ("name", env_text "AGENT_COMPOSE_NODE_NAME" "");
   ("labels", env_text "AGENT_COMPOSE_NODE_LABELS" ""); ("tls-insecure", env_one "AGENT_COMPOSE_NODE_TLS_INSECURE");
   ("heartbeat", VDuration (15 * second)); ("install", VBool false); ("install-only", VBool false); ("yes", VBool false);
   ("autostart", env_text "AGENT_COMPOSE_NODE_AUTOSTART" "auto")].
Definition execution_flags : gmap string fval :=
  list_to_map (shared_flags ++
    [("work-root", env_text "AGENT_COMPOSE_NODE_WORK_ROOT" ""); ("providers", env_text "AGENT_COMPOSE_NODE_PROVIDERS" "");
     ("docker", env_text "AGENT_COMPOSE_NODE_DOCKER" "auto"); ("managed", env_one "AGENT_COMPOSE_NODE_MANAGED");
     ("allow-system-env", env_text "AGENT_COMPOSE_NODE_ALLOW_SYSTEM_ENV" "auto"); ("ios", env_text "AGENT_COMPOSE_NODE_IOS" "auto")]).
Definition management_flags : gmap string fval :=
  list_to_map (shared_flags ++
    [("agent-image", env_text "AGENT_COMPOSE_AGENT_IMAGE" ""); ("execution-bin", env_text "AGENT_COMPOSE_EXECUTION_BIN" "")]).

Definition defaultWorkRoot : string :=
  match sh_cacheDir h with
  | Some dir => if String.eqb (TrimSpace dir) "" then "./agent-compose-node" else dir +:+ "/agent-compose-node"
  | None => "./agent-compose-node"
  end.
Definition managedWorkRoot (value : string) : string :=
  let root := TrimSpace value in if negb (String.eqb root "") then root else defaultWorkRoot.
Definition detectProviders : list string :=
  map (λ name, if String.eqb name "agent" then "cursor" else name)
    (filter (λ name, sh_look h name = true) ["claude"; "codex"; "gemini"; "opencode"; "agent"]).
Definition providers_of (value : string) : list string :=
  match SplitAndTrim value with [] => detectProviders | l => l end.
Definition name_of (name : string) : string := if String.eqb name "" then DefaultNodeName (sh_hostname h) else name.

(** ** What both roles do: configuration, lock, storing, autostart *)
Definition failed {A} (ops : list start_op) (s : start_sys) (e : string) : outcome A := (ops, s, Err e).
(** instance.Close() on the way out *)
Definition closed {A} (ops : list start_op) (s : start_sys) (e : string) : outcome A :=
  failed (ops ++ map SLock (instance_close false)) s e.
Definition persist (resolved : ResolvedConfig) (s : start_sys) : list start_op * start_sys * option string :=
  if rc_persist resolved then
    let '(ds, err) := SaveLocalConfig (sh_write h) node_stateDir (rc_config resolved) (ss_disk s) in
    ([SSave (bool_decide (err = None))], s <| ss_disk := final (ss_disk s) ds |>, err)
  else ([], s, None).
Definition resolve (candidate : LocalConfig) (f : gmap string fval) (s : start_sys) : result ResolvedConfig :=
  ResolveLocalConfig (LoadLocalConfig node_stateDir (sh_unreadable h) (ss_disk s)) candidate
    (mkInstall (bool_flag f "install") (bool_flag f "yes") (sh_terminal h) (sh_line h)).
Definition take_host {A} (candidate : LocalConfig) (f : gmap string fval) (s : start_sys)
    (k : LocalConfig → list start_op → start_sys → outcome A) : option (outcome A) :=
  match resolve candidate f s with
  | Err e => Some (failed [] s e)
  | Ok resolved =>
      '(locks, r) ← AcquireInstance (sh_lock h) (rc_rebind resolved);
      let ops := map SLock locks in
      Some (match r with
            | Err e => failed ops s e
            | Ok _ =>
                match persist resolved s with
                | (saved, s, Some e) => closed (ops ++ saved) s e
                | (saved, s, None) =>
                    let ops := ops ++ saved in
                    if bool_flag f "install-only" then closed ops s ErrInstallComplete
                    else
                      let '(a, _, _, err) := ResolveAutostart (sh_auto h) (sh_seam h) (text_flag f "autostart") (ss_auto s) in
                      let s := s <| ss_auto := a |> in
                      let ops := ops ++ [SAutostart (text_flag f "autostart")] in
                      match err with Some e => closed ops s e | None => k (rc_config resolved) ops s end
                end
            end)
  end.

(** ** execution/main.go *)
Definition RoleExecution : string := "execution".
Definition execution_candidate (f : gmap string fval) : LocalConfig :=
  mkLocal (text_flag f "server") (text_flag f "node-id") (text_flag f "secret") RoleExecution
    (TrimSpace (text_flag f "name")) (TrimSpace (text_flag f "work-root")) (TrimSpace (text_flag f "providers")) "" ""
    (TrimSpace (text_flag f "labels")) (bool_flag f "tls-insecure").
Definition execution_options (server nodeID secret name : string) (providers : list string) (labels : gmap string string)
    (tls docker systemEnv ios : bool) (f : gmap string fval) (root : string) : Options :=
  mkOptions server nodeID secret name RoleExecution (sh_version h) providers labels systemEnv ios (text_flag f "ios") root
    second (30 * second) docker tls (duration_flag f "heartbeat").
Definition start_managed (f : gmap string fval) (systemEnv ios : bool) (s : start_sys) : outcome started :=
  let blank name := String.eqb (TrimSpace (text_flag f name)) "" in
  if blank "server" || blank "node-id" || blank "secret" then failed [] s "--server, --node-id and --secret are required"
  else
    let '(a, _, _, _) := ResolveAutostart (sh_auto h) (sh_seam h) "off" (ss_auto s) in
    let s := s <| ss_auto := a |> in
    let ops := [SAutostart "off"] in
    match ResolveDockerCapability DockerAvailable (text_flag f "docker") with
    | Err e => failed ops s e
    | Ok docker =>
        let root := managedWorkRoot (text_flag f "work-root") in
        (ops, s, Ok (mkStarted
          (execution_options (trim_server (text_flag f "server")) (TrimSpace (text_flag f "node-id"))
             (TrimSpace (text_flag f "secret")) (name_of (TrimSpace (text_flag f "name")))
             (providers_of (text_flag f "providers")) (ParseLabels (text_flag f "labels"))
             (bool_flag f "tls-insecure") docker systemEnv ios f root)
          root false systemEnv))
    end.
Definition start_own (f : gmap string fval) (systemEnv ios : bool) (s : start_sys) : option (outcome started) :=
  take_host (execution_candidate f) f s (λ cfg ops s,
    match ResolveDockerCapability DockerAvailable (text_flag f "docker") with
    | Err e => closed ops s e
    | Ok docker =>
        let root := if String.eqb (lc_workRoot cfg) "" then defaultWorkRoot else lc_workRoot cfg in
        (ops, s, Ok (mkStarted
          (execution_options (lc_server cfg) (lc_nodeID cfg) (lc_secret cfg) (name_of (lc_nodeName cfg))
             (providers_of (lc_providers cfg)) (ParseLabels (lc_labels cfg)) (lc_tlsInsecure cfg)
             docker systemEnv ios f root)
          root true systemEnv))
    end).
Definition parseFlags_execution (args : list string) (s : start_sys) : option (outcome started) :=
  match Parse (sh_numerals h) execution_flags args with
  | Err e => Some (failed [] s e)
  | Ok f =>
      match ResolveSystemEnvCapability (sh_container h) (text_flag f "allow-system-env") with
      | Err e => Some (failed [] s e)
      | Ok systemEnv =>
          match ResolveIosMgmtCapability (sh_usbmuxd h) (text_flag f "ios") with
          | Err e => Some (failed [] s e)
          | Ok ios => if bool_flag f "managed" then Some (start_managed f systemEnv ios s) else start_own f systemEnv ios s
          end
      end
  end.

(** ** management/main.go *)
Definition RoleManagement : string := "management".
Record management_started := mkManagement { mg_opts : Options; mg_agentImage : string; mg_executionBin : string }.
Definition management_candidate (f : gmap string fval) : LocalConfig :=
  mkLocal (text_flag f "server") (text_flag f "node-id") (text_flag f "secret") RoleManagement
    (TrimSpace (text_flag f "name")) "" "" (TrimSpace (text_flag f "agent-image")) (TrimSpace (text_flag f "execution-bin"))
    (TrimSpace (text_flag f "labels")) (bool_flag f "tls-insecure").
Definition parseFlags_management (args : list string) (s : start_sys) : option (outcome management_started) :=
  match Parse (sh_numerals h) management_flags args with
  | Err e => Some (failed [] s e)
  | Ok f =>
      take_host (management_candidate f) f s (λ cfg ops s,
        (ops, s, Ok (mkManagement
          (mkOptions (lc_server cfg) (lc_nodeID cfg) (lc_secret cfg) (name_of (lc_nodeName cfg)) RoleManagement (sh_version h)
             [] (ParseLabels (lc_labels cfg)) false false "" "" second (30 * second)
             DockerAvailable (lc_tlsInsecure cfg) (duration_flag f "heartbeat"))
          (lc_agentImage cfg) (lc_executionBin cfg))))
  end.

(** ** main: the exit code of a start that fails; the sentinels are recognised by their text *)
Definition main_exit {A} (r : result A) : option Z :=
  match r with
  | Ok _ => None
  | Err e => Some (if existsb (String.eqb e) [ErrInstallCancelled; ErrInstallComplete; ErrAlreadyRunning] then 0 else 2)%Z
  end.
End start.
