(* ===== verification/NodeStartProofs.v ===== *)
(** * NodeStartProofs: theorems about the start of a node

    A start ends, holding the host lock exactly when it returns an instance,
    and touches the stored configuration and the login entry only while it
    holds it ([start_outcome]); what an installation stored is what the next
    start runs ([install_restarts]); and an execution node launched by a
    management node is the node that was asked for ([launched_child]). *)
From S2P Require Import Prelude GoStrings GoPath GoJson ProtoText Workspace LocalState DevicesConfig ConfigFile ConfigFileProofs.
From S2P Require Import HostService NodeClient Launch NodeStart.
From Stdlib Require Import Ascii.

(** ** The lock during a start *)
Definition locks (ops : list start_op) : list lock_op := omap (λ o, match o with SLock l => Some l | _ => None end) ops.
Definition effect (o : start_op) : bool := match o with SLock _ => false | _ => true end.
(** The stored configuration and the login entry are touched only under the lock. *)
Definition guarded (ops : list start_op) : Prop :=
  ∀ pre o post, ops = pre ++ o :: post → effect o = true → holding (locks pre) = 1%Z.
Lemma locks_app a b : locks (a ++ b) = locks a ++ locks b.
Proof. apply omap_app. Qed.
Lemma locks_map l : locks (map SLock l) = l.
Proof. unfold locks. induction l as [|o l IH]; [done|]. cbn. by f_equal. Qed.
Lemma locks_effects l : Forall (λ o, effect o = true) l → locks l = [].
Proof. unfold locks. induction 1 as [|o l Ho _ IH]; [done|]. by destruct o. Qed.
Lemma guarded_no_effect ops : Forall (λ o, effect o = false) ops → guarded ops.
Proof. intros Hf pre o post -> He. apply Forall_app in Hf as [_ Hf]. apply Forall_cons in Hf as [Ho _]. by rw Ho in He. Qed.
Lemma map_lock_no_effect l : Forall (λ o, effect o = false) (map SLock l).
Proof. induction l; cbn; auto. Qed.
Lemma guarded_span ls effs ls' : holding ls = 1%Z → Forall (λ o, effect o = true) effs → guarded (map SLock ls ++ effs ++ map SLock ls').
Proof.
  intros Hh Hf pre o post Heq Ho.
  destruct (app_eq_inv _ _ _ _ Heq) as [(k & Hm & Hk)|(k & Hpre & Hk)].
  - destruct k as [|o' k].
    + cbn in Hk. rw app_nil_r in Hm. subst pre. by rw locks_map.
    + exfalso. cbn in Hk. injection Hk as -> _. pose proof (map_lock_no_effect ls) as Hn. rw Hm in Hn.
      apply Forall_app in Hn as [_ Hn]. apply Forall_cons in Hn as [Hn _]. by rw Hn in Ho.
  - subst pre. rw locks_app locks_map holding_app Hh.
    destruct (app_eq_inv _ _ _ _ Hk) as [(k' & Hm & Hk')|(k' & Hpre & Hk')].
    + assert (Forall (λ o, effect o = true) k) as Hk1 by (subst effs; by apply Forall_app in Hf as [? _]).
      by rw locks_effects.
    + exfalso. pose proof (map_lock_no_effect ls') as Hn. rw Hk' in Hn.
      apply Forall_app in Hn as [_ Hn]. apply Forall_cons in Hn as [Hn _]. by rw Hn in Ho.
Qed.

(** ** What both roles do *)
Definition install_options (h : shost) (f : gmap string fval) : InstallOptions :=
  mkInstall (bool_flag f "install") (bool_flag f "yes") (sh_terminal h) (sh_line h).
(** What a start may have done to the host: [cand] is the configuration it was asked to run. *)
Record lawful_start {A} (h : shost) (cand : LocalConfig) (f : gmap string fval) (s : start_sys) (o : outcome A) : Prop := {
  ls_holding : holding (locks o.1.1) = (if is_ok o.2 then 1 else 0)%Z;
  ls_guarded : guarded o.1.1;
  ls_stops : stops (locks o.1.1) ≠ [] → consent (install_options h f);
  ls_saves b : SSave b ∈ o.1.1 → bool_flag f "install" || bool_flag f "yes" = true;
  ls_stored : SSave true ∉ o.1.1 → ∀ dir, node_stateDir h = Ok dir →
    let path := Join [dir; "config.json"] in
    ss_disk s !! tmp_name (sh_write h) path = None → tmp_name (sh_write h) path ≠ path → ss_disk o.1.2 !! path = ss_disk s !! path
}.
(** A continuation of [take_host] keeps the instance, or closes it. *)
Definition keeps {A} (k : LocalConfig → list start_op → start_sys → outcome A) : Prop :=
  ∀ cfg ops s, (∃ r, k cfg ops s = (ops, s, Ok r)) ∨ (∃ e, k cfg ops s = closed ops s e).
Lemma resolve_spec h cand f s r : resolve h cand f s = Ok r →
  (rc_persist r = true → bool_flag f "install" || bool_flag f "yes" = true) ∧ (rc_rebind r = true → consent (install_options h f)).
Proof.
  unfold resolve. fold (install_options h f). destruct (LoadLocalConfig _ _ _) as [[old|]|]; [| |done].
  - intros Hr. destruct (resolve_config_decision _ _ _ _ Hr) as (H1 & H2 & _). split; [exact H1|]. by intros [H _]%H2.
  - cbn [ResolveLocalConfig]. cbv zeta. destruct (_ && _ && _); [done|]. destruct (_ || _ || _); [done|]. by intros [= <-].
Qed.
Lemma persist_spec h r s saved s1 err : persist h r s = (saved, s1, err) →
  Forall (λ o, effect o = true) saved ∧ (saved ≠ [] → rc_persist r = true) ∧
  (SSave true ∉ saved → ∀ dir, node_stateDir h = Ok dir →
    let path := Join [dir; "config.json"] in
    ss_disk s !! tmp_name (sh_write h) path = None → tmp_name (sh_write h) path ≠ path → ss_disk s1 !! path = ss_disk s !! path).
Proof.
  unfold persist. destruct (rc_persist r); [|by intros [= <- <- <-]].
  destruct (SaveLocalConfig _ _ _ _) as [ds e] eqn:Es. intros [= <- <- <-]. split; [by repeat constructor|]. split; [done|].
  intros Hn dir Hd Hf Hne. set (path := Join _) in *. destruct e as [e|]; [|exfalso; apply Hn; by left].
  unfold SaveLocalConfig in Es. rw Hd in Es. cbn [ConfigPath] in Es.
  destruct (atomic_write _ _ _ _ Hf Hne _ _ Es) as (_ & Hall & _). cbn [ss_disk]. unfold final.
  destruct (last ds) as [d'|] eqn:El; [|done]. apply last_Some_elem_of in El. by rw Forall_forall in Hall; apply Hall.
Qed.
Lemma take_host_spec {A} h cand f s (k : LocalConfig → list start_op → start_sys → outcome A) :
  clock_law (sh_lock h) → keeps k → ∃ o, take_host h cand f s k = Some o ∧ lawful_start h cand f s o.
Proof.
  intros Hc Hk. unfold take_host. destruct (resolve h cand f s) as [r|e] eqn:Er.
  2:{ eexists. split; [reflexivity|]. split; cbn [fst snd failed]; [done|by apply guarded_no_effect|done|by intros b ?%not_elem_of_nil|done]. }
  destruct (resolve_spec _ _ _ _ _ Er) as [Hp Hr].
  destruct (acquire_lock_outcome (sh_lock h) (rc_rebind r) Hc) as (ls & a & -> & Hh & Hst). cbn [mbind option_bind].
  eexists. split; [reflexivity|].
  assert (stops ls ≠ [] → consent (install_options h f)) as Hstop.
  { destruct Hst as [Hst|(owner & _ & Hrb & _)]; [done|]. intros _. by apply Hr. }
  assert (∀ b, SSave b ∉ map SLock ls) as Hns by (intros b (o & [=] & _)%list_elem_of_fmap).
  destruct a as [[]|e]; cbn [holds_iff] in Hh.
  2:{ split; cbn [fst snd failed is_ok]; [by rw locks_map|apply guarded_no_effect, map_lock_no_effect|by rw locks_map|by intros b ?%Hns|done]. }
  destruct Hh as [Hh _]. destruct (persist h r s) as [[saved s1] err] eqn:Ep. destruct (persist_spec _ _ _ _ _ _ Ep) as (Hf & Hsv & Hd).
  assert (∀ effs s2 (res : result A) tail, Forall (λ o, effect o = true) effs → (∀ b, SSave b ∈ saved ↔ SSave b ∈ effs) →
    ss_disk s2 = ss_disk s1 → tail = (if is_ok res then [] else [ORelease]) →
    lawful_start h cand f s (map SLock ls ++ effs ++ map SLock tail, s2, res)) as Hend.
  { intros effs s2 res tail He Hin Hs2 ->.
    assert (locks (map SLock ls ++ effs ++ map SLock (if is_ok res then [] else [ORelease])) = ls ++ (if is_ok res then [] else [ORelease])) as Hl
      by (by rw !locks_app !locks_map locks_effects).
    split; cbn [fst snd].
    - rw Hl holding_app Hh. by destruct res.
    - by apply guarded_span.
    - rw Hl. unfold stops. rw omap_app. fold (stops ls). intros Hne. apply Hstop. intros Hnil. apply Hne. rw Hnil. by destruct res.
    - intros b Hb. apply Hp, Hsv. intros ->. apply elem_of_app in Hb as [?%Hns|[Hb%Hin|Hb]%elem_of_app]; [done|by apply not_elem_of_nil in Hb|].
      by apply list_elem_of_fmap in Hb as (? & [=] & _).
    - intros Hn. rw Hs2. apply Hd. intros Hb%Hin. apply Hn, elem_of_app. right. apply elem_of_app. by left. }
  unfold closed, failed. destruct err as [e|].
  { rw -app_assoc. by apply Hend. }
  destruct (bool_flag f "install-only").
  { rw -app_assoc. by apply Hend. }
  destruct (ResolveAutostart _ _ _ _) as [[[au asked] st] err].
  assert (Forall (λ o, effect o = true) (saved ++ [SAutostart (text_flag f "autostart")])) as Hf' by (apply Forall_app; by repeat constructor).
  assert (∀ b, SSave b ∈ saved ↔ SSave b ∈ saved ++ [SAutostart (text_flag f "autostart")]) as Hin
    by (intros b; rw elem_of_app list_elem_of_singleton; split; [by left|by intros [?|[=]]]).
  destruct err as [e|]; [rw -!app_assoc; rw (app_assoc saved); by apply Hend|].
  destruct (Hk (rc_config r) ((map SLock ls ++ saved) ++ [SAutostart (text_flag f "autostart")]) (s1 <| ss_auto := au |>)) as [[x ->]|[e ->]].
  - match goal with |- lawful_start _ _ _ _ (_, ?s2, _) => specialize (Hend _ s2 (Ok x) [] Hf' Hin eq_refl eq_refl) end. cbn [map] in Hend. rw !app_nil_r app_assoc in Hend. exact Hend.
  - unfold closed, failed. rw -!app_assoc. rw (app_assoc saved). by apply Hend.
Qed.
Lemma own_keeps h f sys ios : keeps (λ cfg ops s,
  match ResolveDockerCapability (DockerAvailable h) (text_flag f "docker") with
  | Err e => closed ops s e
  | Ok docker =>
      let root := if String.eqb (lc_workRoot cfg) "" then defaultWorkRoot h else lc_workRoot cfg in
      (ops, s, Ok (mkStarted
        (execution_options h (lc_server cfg) (lc_nodeID cfg) (lc_secret cfg) (name_of h (lc_nodeName cfg))
           (providers_of h (lc_providers cfg)) (ParseLabels (lc_labels cfg)) (lc_tlsInsecure cfg) docker sys ios f root)
        root true sys))
  end).
Proof. intros cfg ops s. destruct (ResolveDockerCapability _ _); [left|right]; by eexists. Qed.

(** ** Execution nodes *)
Definition holds_instance (r : result started) : bool := match r with Ok st => so_held st | Err _ => false end.
(** A start by a management node: no lock, no stored configuration. *)
Definition managed_start (s : start_sys) (o : outcome started) : Prop :=
  locks o.1.1 = [] ∧ (∀ b, SSave b ∉ o.1.1) ∧ ss_disk o.1.2 = ss_disk s ∧ holds_instance o.2 = false.
Lemma start_managed_spec h f sys ios s : managed_start s (start_managed h f sys ios s).
Proof.
  unfold start_managed, managed_start. destruct (_ || _ || _); [by cbn; split_and!; try intros b ?%not_elem_of_nil|].
  destruct (ResolveAutostart _ _ _ _) as [[[a asked] st] err]. cbv zeta.
  destruct (ResolveDockerCapability _ _); by cbn; split_and!; try intros b ?%list_elem_of_singleton.
Qed.
Lemma start_own_spec h f sys ios s : clock_law (sh_lock h) →
  ∃ o, start_own h f sys ios s = Some o ∧ lawful_start h (execution_candidate f) f s o ∧ holds_instance o.2 = is_ok o.2.
Proof.
  intros Hc. destruct (take_host_spec h (execution_candidate f) f s _ Hc (own_keeps h f sys ios)) as (o & Ho & Hl).
  exists o. split; [exact Ho|]. split; [exact Hl|]. unfold take_host in Ho. destruct (resolve _ _ _ _) as [r|]; [|by injection Ho as <-].
  destruct (AcquireInstance _ _) as [[ls [|]]|]; cbn in Ho; [|by injection Ho as <-|done].
  destruct (persist h r s) as [[saved s1] [e|]]; [by injection Ho as <-|].
  destruct (bool_flag f "install-only"); [by injection Ho as <-|].
  destruct (ResolveAutostart _ _ _ _) as [[[au asked] st] [e|]]; [by injection Ho as <-|].
  destruct (ResolveDockerCapability _ _); by injection Ho as <-.
Qed.
(** C24: Starting an execution node always comes to an end.  It holds the host
    lock exactly once when it returns an instance, and not at all after any
    error; a node an operator installs stores its configuration and touches
    the login entry only while it holds the lock, stores something only when
    installing, leaves the stored configuration alone unless a store
    succeeded, and stops another process only with the operator's consent; a
    node started by a management node takes no lock and stores nothing. *)
Theorem start_outcome h args s :
  clock_law (sh_lock h) →
  ∃ ops s' r, parseFlags_execution h args s = Some (ops, s', r) ∧
    holding (locks ops) = (if holds_instance r then 1 else 0)%Z ∧
    match Parse (sh_numerals h) (execution_flags h) args with
    | Err e => (ops, s', r) = ([], s, Err e)
    | Ok f =>
        if bool_flag f "managed" then managed_start s (ops, s', r)
        else holds_instance r = is_ok r ∧ lawful_start h (execution_candidate f) f s (ops, s', r)
    end.
Proof.
  intros Hc. unfold parseFlags_execution. destruct (Parse _ _ _) as [f|e]; [|by eexists _, _, _].
  assert (∀ e, ∃ ops s' r, Some (failed [] s e) = Some (ops, s', r) ∧ holding (locks ops) = (if holds_instance r then 1 else 0)%Z ∧
    (if bool_flag f "managed" then managed_start s (ops, s', r)
     else holds_instance r = is_ok r ∧ lawful_start h (execution_candidate f) f s (ops, s', r))) as Hfail.
  { intros e. eexists _, _, _. split; [reflexivity|]. split; [done|]. destruct (bool_flag f "managed").
    - unfold managed_start. cbn. split_and!; try done. by intros b ?%not_elem_of_nil.
    - split; [done|]. split; cbn; [done|by apply guarded_no_effect|done|by intros b ?%not_elem_of_nil|done]. }
  destruct (ResolveSystemEnvCapability _ _) as [sys|e]; [|apply Hfail].
  destruct (ResolveIosMgmtCapability _ _) as [ios|e]; [|apply Hfail]. clear Hfail. destruct (bool_flag f "managed").
  - destruct (start_managed h f sys ios s) as [[ops s'] r] eqn:E. pose proof (start_managed_spec h f sys ios s) as Hm. rw E in Hm.
    exists ops, s', r. split; [done|]. split; [|done]. destruct Hm as (Hl & _ & _ & Hi). cbn [fst snd] in *. by rw Hl Hi.
  - destruct (start_own_spec h f sys ios s Hc) as ([[ops s'] r] & Ho & Hl & Hi). exists ops, s', r. split; [exact Ho|].
    cbn [snd] in Hi. rw Hi. split; [|done]. exact (ls_holding _ _ _ _ _ Hl).
Qed.

(** ** What was installed is what starts *)
(** Who a node is: server, id, secret, name, providers, labels, TLS and work root. *)
Definition identity : Type := string * string * string * string * list string * gmap string string * bool * string.
Definition identity_of (st : started) : identity :=
  let o := so_opts st in (Server o, NodeID o, Secret o, NodeName o, Providers o, Labels o, TLSInsecure o, so_root st).
Definition configured (h : shost) (c : LocalConfig) : identity :=
  (lc_server c, lc_nodeID c, lc_secret c, name_of h (lc_nodeName c), providers_of h (lc_providers c), ParseLabels (lc_labels c),
   lc_tlsInsecure c, if String.eqb (lc_workRoot c) "" then defaultWorkRoot h else lc_workRoot c).
Lemma start_own_ok h f sys ios s ops s' st : start_own h f sys ios s = Some (ops, s', Ok st) →
  ∃ r, resolve h (execution_candidate f) f s = Ok r ∧ identity_of st = configured h (rc_config r) ∧
    (SSave true ∈ ops → rc_persist r = true ∧ ∃ ds, SaveLocalConfig (sh_write h) (node_stateDir h) (rc_config r) (ss_disk s) = (ds, None) ∧
       ss_disk s' = final (ss_disk s) ds).
Proof.
  unfold start_own, take_host. destruct (resolve _ _ _ _) as [r|]; [|done]. intros Ho. exists r. split; [done|].
  destruct (AcquireInstance _ _) as [[ls [|]]|]; cbn [mbind option_bind] in Ho; [|done..].
  destruct (persist h r s) as [[saved s1] [e|]] eqn:Ep; [done|].
  destruct (bool_flag f "install-only"); [done|].
  destruct (ResolveAutostart _ _ _ _) as [[[au asked] stt] [e|]]; [done|].
  destruct (ResolveDockerCapability _ _); [|done]. injection Ho as <- <- <-. split; [done|].
  intros Hin. assert (SSave true ∈ saved) as Hs.
  { apply elem_of_app in Hin as [[Hin|Hin]%elem_of_app|Hin]; [|done|].
    - by apply list_elem_of_fmap in Hin as (? & [=] & _).
    - by apply list_elem_of_singleton in Hin. }
  unfold persist in Ep. destruct (rc_persist r); [split; [done|]|injection Ep as <- <-; by apply not_elem_of_nil in Hs].
  destruct (SaveLocalConfig _ _ _ _) as [ds err]. injection Ep as <- <- ->. by exists ds.
Qed.
(** The same machine and state directory, and none of the node's variables in
    the environment. *)
Record restarts (h h' : shost) : Prop := {
  rs_dir : node_stateDir h' = node_stateDir h;
  rs_readable : sh_unreadable h' = None;
  rs_host : sh_hostname h' = sh_hostname h ∧ sh_cacheDir h' = sh_cacheDir h ∧ sh_look h' = sh_look h;
  rs_env : EnvOr (sh_env h') "AGENT_COMPOSE_SERVER" "" = "" ∧ EnvOr (sh_env h') "AGENT_COMPOSE_NODE_ID" "" = "" ∧
           EnvOr (sh_env h') "AGENT_COMPOSE_NODE_SECRET" "" = "" ∧ EnvOr (sh_env h') "AGENT_COMPOSE_NODE_MANAGED" "" = "";
  rs_settings : Forall (λ v, EnvOr (sh_env h') v "" = "")
    ["AGENT_COMPOSE_NODE_NAME"; "AGENT_COMPOSE_NODE_WORK_ROOT"; "AGENT_COMPOSE_NODE_PROVIDERS"; "AGENT_COMPOSE_NODE_LABELS";
     "AGENT_COMPOSE_NODE_TLS_INSECURE"]
}.
Lemma configured_same h h' c : restarts h h' → configured h' c = configured h c.
Proof. intros [_ _ (H1 & H2 & H3) _ _]. unfold configured, name_of, providers_of, detectProviders, defaultWorkRoot. by rw H1 H2 H3. Qed.
Lemma no_arguments h' s old : 
  EnvOr (sh_env h') "AGENT_COMPOSE_SERVER" "" = "" → EnvOr (sh_env h') "AGENT_COMPOSE_NODE_ID" "" = "" →
  EnvOr (sh_env h') "AGENT_COMPOSE_NODE_SECRET" "" = "" → lc_role old = RoleExecution →
  LoadLocalConfig (node_stateDir h') (sh_unreadable h') (ss_disk s) = Ok (Some old) →
  resolve h' (execution_candidate (execution_flags h')) (execution_flags h') s = Ok (mkResolved old false false).
Proof.
  intros H1 H2 H3 Hr Hl. unfold resolve. rw Hl.
  assert (text_flag (execution_flags h') "server" = "") as E1 by exact H1.
  assert (text_flag (execution_flags h') "node-id" = "") as E2 by exact H2.
  assert (text_flag (execution_flags h') "secret" = "") as E3 by exact H3.
  unfold ResolveLocalConfig, execution_candidate. rw E1 E2 E3. cbv zeta. cbn -[String.eqb]. by rw Hr.
Qed.
Lemma persisted_role loaded c opt r : ResolveLocalConfig loaded c opt = Ok r → rc_persist r = true → lc_role (rc_config r) = TrimSpace (lc_role c).
Proof.
  unfold ResolveLocalConfig. destruct loaded as [[old|]|]; [| |done]; cbv zeta; (destruct (_ && _ && _); [|destruct (_ || _ || _); [done|]]).
  - destruct (_ && _); [done|]. by intros [= <-].
  - destruct (SameCredentials _ _ _ _ _); [by intros [= <-]|]. destruct (negb _); [done|].
    destruct (confirmRebind opt) as [[]|]; [by intros [= <-]|done..].
  - done.
  - by intros [= <-].
Qed.
(** C25: What an installation stored is what the node runs when it is started
    again on that machine with nothing given, neither arguments nor any of the
    node's own variables in the environment: the configuration is found, as it
    was installed, and a start that succeeds has the same server, id, secret,
    name, providers, labels, TLS setting and work root.  The texts stored are
    assumed to be valid UTF-8 (JSON replaces other bytes), the temporary file
    beside the configuration not to exist before, and the file to be readable
    and the machine (host name, cache directory, programs on PATH) the same at
    the restart. *)
Theorem install_restarts h h' args s ops s' st :
  parseFlags_execution h args s = Some (ops, s', Ok st) → SSave true ∈ ops →
  (∀ f r, Parse (sh_numerals h) (execution_flags h) args = Ok f → resolve h (execution_candidate f) f s = Ok r →
     valid_config (rc_config r) = true) →
  (∀ dir, node_stateDir h = Ok dir → ss_disk s !! tmp_name (sh_write h) (Join [dir; "config.json"]) = None) →
  restarts h h' →
  ∃ cfg, resolve h' (execution_candidate (execution_flags h')) (execution_flags h') s' = Ok (mkResolved cfg false false) ∧
    identity_of st = configured h cfg ∧
    ∀ ops' s'' st', parseFlags_execution h' [] s' = Some (ops', s'', Ok st') → identity_of st' = identity_of st.
Proof.
  intros Hp Hin Hv Hfresh Hr. unfold parseFlags_execution in Hp. destruct (Parse _ _ _) as [f|] eqn:Ef; [|done].
  destruct (ResolveSystemEnvCapability _ _) as [sys|]; [|done]. destruct (ResolveIosMgmtCapability _ _) as [ios|]; [|done].
  destruct (bool_flag f "managed").
  { pose proof (start_managed_spec h f sys ios s) as (_ & Hn & _). injection Hp as Hp. rw Hp in Hn. by apply Hn in Hin. }
  destruct (start_own_ok _ _ _ _ _ _ _ _ Hp) as (r & Hres & Hid & Hsave). destruct (Hsave Hin) as (Hper & ds & Hds & Hd).
  pose proof (Hv f r eq_refl Hres) as Hvr.
  assert (lc_role (rc_config r) = RoleExecution) as Hrole by (by rw (persisted_role _ _ _ _ Hres Hper)).
  assert (LoadLocalConfig (node_stateDir h') (sh_unreadable h') (ss_disk s') = Ok (Some (rc_config r))) as Hload.
  { rw (rs_dir _ _ Hr) (rs_readable _ _ Hr) Hd. destruct (node_stateDir h) as [dir|]; [|done]. by eapply config_save_load; [| |exact Hds]; auto. }
  destruct (rs_env _ _ Hr) as (E1 & E2 & E3 & E4).
  pose proof (no_arguments h' s' _ E1 E2 E3 Hrole Hload) as Hres'. exists (rc_config r). split; [exact Hres'|]. split; [exact Hid|].
  intros ops' s'' st' Hp'. unfold parseFlags_execution in Hp'. cbn [Parse] in Hp'.
  destruct (ResolveSystemEnvCapability _ _) as [sys'|]; [|done]. destruct (ResolveIosMgmtCapability _ _) as [ios'|]; [|done].
  assert (bool_flag (execution_flags h') "managed" = false) as Em.
  { change (String.eqb (EnvOr (sh_env h') "AGENT_COMPOSE_NODE_MANAGED" "") "1" = false). by rw E4. }
  rw Em in Hp'. destruct (start_own_ok _ _ _ _ _ _ _ _ Hp') as (r' & Hr' & Hid' & _).
  rw Hres' in Hr'. injection Hr' as <-. rw Hid' Hid. by apply configured_same.
Qed.

(** ** Nodes launched by a management node *)
Lemma Parse_text nm formal w name text rest old :
  flag_of w = Flag name None → formal !! name = Some (VText old) →
  Parse nm formal (w :: text :: rest) = Parse nm (<[name := VText text]> formal) rest.
Proof. intros Hw Hf. cbn [Parse]. by rw Hw Hf. Qed.
Lemma Parse_bool nm formal w name rest old :
  flag_of w = Flag name None → formal !! name = Some (VBool old) →
  Parse nm formal (w :: rest) = Parse nm (<[name := VBool true]> formal) rest.
Proof. intros Hw Hf. cbn [Parse]. by rw Hw Hf. Qed.
(** Looking a flag up behind the assignments to others. *)
Ltac flag_lookup := unfold text_flag, bool_flag; repeat (rw lookup_insert_ne; [|done]); rw ?lookup_insert_eq; reflexivity.
Definition launch_server (lo : launchOptions) (spec : NodeCreateExecutionNode) : string :=
  let u := TrimSpace (cn_ServerUrl spec) in if String.eqb u "" then lo_server lo else u.
Definition launch_flags (h : shost) (url id secret name : string) : gmap string fval :=
  let f := <["secret" := VText secret]> (<["node-id" := VText id]> (<["server" := VText url]>
    (<["managed" := VBool true]> (execution_flags h)))) in
  if String.eqb name "" then f else <["name" := VText name]> f.
Lemma Parse_launched h url id secret name :
  Parse (sh_numerals h) (execution_flags h)
    (["--managed"; "--server"; url; "--node-id"; id; "--secret"; secret] ++ (if String.eqb name "" then [] else ["--name"; name]))
  = Ok (launch_flags h url id secret name).
Proof.
  unfold launch_flags. cbn [app].
  erewrite Parse_bool; [|reflexivity|reflexivity].
  erewrite Parse_text; [|reflexivity|flag_lookup]. erewrite Parse_text; [|reflexivity|flag_lookup].
  erewrite Parse_text; [|reflexivity|flag_lookup].
  destruct (String.eqb name ""); [done|]. erewrite Parse_text; [done|reflexivity|flag_lookup].
Qed.
Lemma launch_flags_get h url id secret name :
  let f := launch_flags h url id secret name in
  bool_flag f "managed" = true ∧ text_flag f "server" = url ∧ text_flag f "node-id" = id ∧ text_flag f "secret" = secret ∧
  (name ≠ "" → text_flag f "name" = name).
Proof.
  cbv zeta. unfold launch_flags. split_and!; [..|intros Hn; apply String.eqb_neq in Hn; rw Hn; flag_lookup];
    destruct (String.eqb name ""); flag_lookup.
Qed.
Lemma launch_flags_other h url id secret name k :
  "managed" ≠ k → "server" ≠ k → "node-id" ≠ k → "secret" ≠ k → "name" ≠ k → launch_flags h url id secret name !! k = execution_flags h !! k.
Proof.
  intros ?????. unfold launch_flags. generalize (execution_flags h) as m. intros m. destruct (String.eqb name ""); rw !lookup_insert_ne //.
Qed.
(** The capability switches in the environment of a launched node are well-formed. *)
Definition switches_ok (h : shost) : Prop :=
  is_ok (ResolveSystemEnvCapability (sh_container h) (EnvOr (sh_env h) "AGENT_COMPOSE_NODE_ALLOW_SYSTEM_ENV" "auto")) = true ∧
  is_ok (ResolveIosMgmtCapability (sh_usbmuxd h) (EnvOr (sh_env h) "AGENT_COMPOSE_NODE_IOS" "auto")) = true ∧
  is_ok (ResolveDockerCapability (DockerAvailable h) (EnvOr (sh_env h) "AGENT_COMPOSE_NODE_DOCKER" "auto")) = true.
(** An execution node that a management node starts as a process
    on its own host reads from that command line the identity it was created
    with: it starts, connects to the server of the request (or the manager's
    own), with exactly the requested node id, secret and name, without taking
    the host lock or touching the configuration stored for the manager. *)
Theorem launched_child lo lh spec bin args hd h s :
  launchExecutionNode lo lh spec = Ok ((bin, args), hd) → lh_method hd = "standalone" →
  TrimSpace (launch_server lo spec) ≠ "" → switches_ok h →
  ∃ ops s' st, parseFlags_execution h args s = Some (ops, s', Ok st) ∧
    Server (so_opts st) = trim_server (launch_server lo spec) ∧ NodeID (so_opts st) = TrimSpace (cn_NodeId spec) ∧
    Secret (so_opts st) = TrimSpace (cn_Secret spec) ∧
    (TrimSpace (cn_NodeName spec) ≠ "" → NodeName (so_opts st) = TrimSpace (cn_NodeName spec)) ∧
    Role (so_opts st) = "execution" ∧ managed_start s (ops, s', Ok st).
Proof.
  intros Hl Hm Hu (Hs1 & Hs2 & Hs3). unfold launchExecutionNode in Hl. fold (launch_server lo spec) in Hl.
  destruct (String.eqb (TrimSpace (cn_NodeId spec)) "") eqn:En; [done|].
  destruct (String.eqb (TrimSpace (cn_Secret spec)) "") eqn:Ec; [done|]. cbn [orb] in Hl.
  destruct (_ || _).
  { unfold plan_docker in Hl. destruct (lw_lookPath lh "docker"); [|done]. destruct (String.eqb (docker_image lo spec) ""); [done|].
    injection Hl as <- <- <-. done. }
  destruct (String.eqb _ "systemd"); [done|]. unfold plan_standalone in Hl.
  destruct (if String.eqb (TrimSpace (lo_executionBin lo)) "" then _ else _) as [b|]; [|done]. injection Hl as _ <- <-.
  unfold parseFlags_execution. rw Parse_launched.
  set (f := launch_flags _ _ _ _ _). set (name := TrimSpace (cn_NodeName spec)) in *.
  destruct (launch_flags_get h (launch_server lo spec) (TrimSpace (cn_NodeId spec)) (TrimSpace (cn_Secret spec)) name)
    as (Emng & Esrv & Eid & Esec & Ename). fold f in Emng, Esrv, Eid, Esec, Ename.
  assert (∀ k, "managed" ≠ k → "server" ≠ k → "node-id" ≠ k → "secret" ≠ k → "name" ≠ k →
    text_flag f k = text_flag (execution_flags h) k) as Hother by (intros; unfold text_flag; by subst f; rw launch_flags_other).
  rw (Hother "allow-system-env") // (Hother "ios") //. unfold switches_ok in *.
  change (text_flag (execution_flags h) "allow-system-env") with (EnvOr (sh_env h) "AGENT_COMPOSE_NODE_ALLOW_SYSTEM_ENV" "auto").
  change (text_flag (execution_flags h) "ios") with (EnvOr (sh_env h) "AGENT_COMPOSE_NODE_IOS" "auto").
  destruct (ResolveSystemEnvCapability _ _) as [sys|]; [|done]. destruct (ResolveIosMgmtCapability _ _) as [ios|]; [|done].
  rw Emng. clearbody f.
  pose proof (start_managed_spec h f sys ios s) as Hspec. destruct (start_managed h f sys ios s) as [[ops s'] r] eqn:Es.
  unfold start_managed in Es. rw Esrv Eid Esec !TrimSpace_idem En Ec in Es. apply String.eqb_neq in Hu. rw Hu in Es. cbn [orb] in Es.
  destruct (ResolveAutostart _ _ _ _) as [[[a asked] stt] err].
  rw (Hother "docker") // in Es.
  change (text_flag (execution_flags h) "docker") with (EnvOr (sh_env h) "AGENT_COMPOSE_NODE_DOCKER" "auto") in Es. destruct (ResolveDockerCapability _ _) as [docker|]; [|done]. injection Es as <- <- <-.
  eexists _, _, _. split; [reflexivity|]. split; [reflexivity|]. split; [reflexivity|]. split; [reflexivity|].
  split; [|split; [reflexivity|exact Hspec]]. intros Hn. cbn. rw (Ename Hn) TrimSpace_idem. unfold name_of.
  apply String.eqb_neq in Hn. by rw Hn.
Qed.

(** ** Concrete starts *)
Module StartWitness.
Definition login_host : ahost :=
  mkAhost (Ok "/home/op") (Ok "/opt/bin/node-execution") (λ p, Ok p) (λ _, false) (Ok "/state") "/tmp" (λ _, true) None None
    (λ _, None) true false true "" (Ok "n").
Definition writer : whost := mkWhost None None "17" None 3 None None None true false.
Definition free_lock : lock_host :=
  mkLockHost (λ _, Ok true) (λ _, None) (Err "no owner") (λ _, false) (λ _, None) (Some "/root") None (λ n, (Z.of_nat n * lock_poll)%Z).
Definition seconds (s : string) : option Z := if String.eqb s "0s" then Some 0%Z else None.
Definition machine (env : string → string) (lock : lock_host) : shost :=
  mkShost env (mkNumerals seconds (λ _, None)) (Some "box") (λ p, String.eqb p "agent") false false (Some "/cfg") (Some "/home/op")
    (Some "/cache") None true (Ok "yes") lock writer login_host (systemd login_host) "dev".
Definition no_env (_ : string) : string := "".
Definition blank : start_sys := mkStart ∅ (mkAstate ∅ ∅ None []).
Definition install_args : list string :=
  ["--install"; "--server=https://gw/"; "-node-id"; "n1"; "--secret"; "s1"; "--labels"; "zone=lab"; "--yes"].
Definition config_file : string := "/cfg/agent-compose/node/config.json".
(** an installation on a machine where another node runs, with other credentials: it is stopped and replaced *)
Definition occupied : start_sys := mkStart {[ config_file := mkFile (marshalLocal installed) owner_only ]} (mkAstate ∅ ∅ None []).
Lemma start_outcome_witness :
  ∃ ops s' r, parseFlags_execution (machine no_env busy_host) install_args occupied = Some (ops, s', Ok r) ∧
    holding (locks ops) = 1%Z ∧ guarded ops ∧ stops (locks ops) = [42%Z].
Proof.
  destruct (start_outcome (machine no_env busy_host) install_args occupied) as (ops & s' & r & Hp & Hh & Hm).
  { intros n. cbn. unfold lock_poll. lia. }
  destruct r as [st|e]; [|exfalso; vm_compute in Hp; discriminate Hp].
  exists ops, s', st. split; [exact Hp|].
  assert (match Parse (sh_numerals (machine no_env busy_host)) (execution_flags (machine no_env busy_host)) install_args with
          | Ok f => bool_flag f "managed" = false | Err _ => False end) as Hf by (vm_compute; reflexivity).
  destruct (Parse _ _ _) as [f|]; [|destruct Hf]. rw Hf in Hm. destruct Hm as [Hi Hl]. cbn [is_ok] in Hi. rw Hi in Hh.
  split; [exact Hh|]. split; [exact (ls_guarded _ _ _ _ _ Hl)|]. clear - Hp. vm_compute in Hp. injection Hp as <- _ _. reflexivity.
Defined.
Definition stored_valid (h : shost) (args : list string) (s : start_sys) : bool :=
  match Parse (sh_numerals h) (execution_flags h) args with
  | Ok f => match resolve h (execution_candidate f) f s with Ok r => valid_config (rc_config r) | Err _ => true end
  | Err _ => true
  end.
Lemma install_valid : stored_valid (machine no_env free_lock) install_args blank = true.
Proof. vm_compute. reflexivity. Qed.
Lemma install_restarts_witness :
  ∃ ops s' st cfg, parseFlags_execution (machine no_env free_lock) install_args blank = Some (ops, s', Ok st) ∧
    resolve (machine no_env free_lock) (execution_candidate (execution_flags (machine no_env free_lock)))
      (execution_flags (machine no_env free_lock)) s' = Ok (mkResolved cfg false false) ∧
    lc_server cfg = "https://gw" ∧ lc_labels cfg = "zone=lab".
Proof.
  set (o := parseFlags_execution (machine no_env free_lock) install_args blank).
  assert (match o with Some (ops, _, Ok _) => existsb (λ x, match x with SSave true => true | _ => false end) ops | _ => false end = true) as Ho
    by (vm_compute; reflexivity).
  destruct o as [[[ops s'] [st|e]]|] eqn:Eo; [|discriminate Ho..]. subst o.
  assert (SSave true ∈ ops) as Hin.
  { apply existsb_exists in Ho as (x & Hx & Hs). destruct x as [|[]|]; try discriminate Hs. by apply list_elem_of_In. }
  destruct (install_restarts (machine no_env free_lock) (machine no_env free_lock) install_args blank ops s' st Eo Hin) as (cfg & Hr & Hid & _).
  - intros f r Hf Hr. pose proof install_valid as Hv. unfold stored_valid in Hv. rw Hf Hr in Hv. exact Hv.
  - intros dir _. reflexivity.
  - split; [reflexivity|reflexivity|split_and!; reflexivity|split_and!; vm_compute; reflexivity|repeat constructor].
  - exists ops, s', st, cfg. split; [reflexivity|]. split; [exact Hr|].
    vm_compute in Eo. injection Eo as <- <- <-. clear - Hr. vm_compute in Hr. injection Hr as <-. done.
Defined.
Definition request : NodeCreateExecutionNode := mkCreateNode "l1" "" " node-7 " "SECRET" "worker" STARTUP_STANDALONE "" [].
Definition manager : launchOptions := mkLaunchOptions "https://gw" "" "/opt/node-execution".
Definition manager_host : lhost := mkLhost (λ p, Ok p) None.
Lemma launched_child_witness :
  ∃ args hd ops s' st, launchExecutionNode manager manager_host request = Ok (("/opt/node-execution", args), hd) ∧
    parseFlags_execution (machine no_env free_lock) args occupied = Some (ops, s', Ok st) ∧
    NodeID (so_opts st) = "node-7" ∧ Server (so_opts st) = "https://gw" ∧ managed_start occupied (ops, s', Ok st).
Proof.
  eexists _, _.
  destruct (launched_child manager manager_host request "/opt/node-execution" _ _ (machine no_env free_lock) occupied eq_refl eq_refl)
    as (ops & s' & st & Hp & H1 & H2 & _ & _ & _ & Hm).
  - vm_compute. discriminate.
  - split_and!; vm_compute; reflexivity.
  - exists ops, s', st. split; [reflexivity|]. split; [exact Hp|]. split; [exact H2|]. split; [exact H1|exact Hm].
Defined.
End StartWitness.

(** ** Defects *)
Module StartDefects.
Import StartWitness.
Definition entry_present (s : start_sys) : bool := sm_installed (systemd login_host) (ss_auto s).
Definition with_entry : start_sys := mkStart ∅ (sm_install (systemd login_host) (mkAstate ∅ ∅ None [])).1.
Definition managed_args : list string := ["--managed"; "--server"; "u"; "--node-id"; "n"; "--secret"; "s"].
(** a launched child removes the login entry of the node its host runs on *)
Lemma managed_start_removes_entry :
  entry_present with_entry = true ∧
  (λ o, (entry_present o.1.2, is_ok o.2)) <$> parseFlags_execution (machine no_env free_lock) managed_args with_entry = Some (false, true).
Proof. by vm_compute. Qed.
(** without --install, --install-only reports a completed installation that stored nothing *)
Lemma install_only_stores_nothing :
  (λ o, (o.2, main_exit o.2, bool_decide (ss_disk o.1.2 = ∅))) <$>
    parseFlags_execution (machine no_env free_lock) ["--install-only"; "--server"; "u"; "--node-id"; "n"; "--secret"; "s"] blank =
  Some (Err ErrInstallComplete, Some 0%Z, true).
Proof. by vm_compute. Qed.
(** flags given to a start that uses the stored credentials are ignored *)
Lemma stored_config_beats_flags :
  (λ o, match o.2 with Ok st => Some (so_root st, NodeName (so_opts st)) | Err _ => None end) <$>
    parseFlags_execution (machine no_env free_lock) ["--work-root"; "/elsewhere"; "--name"; "other"] occupied =
  Some (Some ("/w", "box")).
Proof. by vm_compute. Qed.
(** any program called agent makes the node advertise cursor *)
Lemma any_agent_is_cursor : detectProviders (machine no_env free_lock) = ["cursor"].
Proof. by vm_compute. Qed.
(** a heartbeat interval of zero is accepted; the client's ticker panics on it *)
Lemma zero_heartbeat_accepted :
  (λ o, match o.2 with Ok st => Some (Heartbeat (so_opts st)) | Err _ => None end) <$>
    parseFlags_execution (machine no_env free_lock) ("--heartbeat=0s" :: managed_args) blank = Some (Some 0%Z).
Proof. by vm_compute. Qed.
End StartDefects.
