(* ===== verification/IosStart.v ===== *)
(** * IosStart: the commands of an iOS host (ios/main.go, ios/install.go,
    ios/pair.go; the lock of common/ioshost/config.go)

    install stores the identity of the node, pair redeems a code and stores a
    phone, run takes the lock of the iOS host and connects what is stored.
    The encoding of the file and the redeeming of a code belong to other
    modules and are arguments. *)
From S2P Require Import Prelude GoStrings GoPath Workspace LocalState DevicesConfig ConfigFile HostService NodeClient NodeStart.
From Stdlib Require Import Ascii.

(** what [run] goes on with: a node that manages its phones, or the phones alone *)
Inductive ios_plan :=
| RunNode (o : Options) (nodeID path : string) (cfg : DevicesConfig)
| RunDevices (devices : list (DeviceConfig * option string)).     (** with the node id each registers under *)

Section ios.
Variable h : shost.
Variable marshal : DevicesConfig → string.
Variable unmarshal : string → result DevicesConfig.
Variable redeem : string → string → string → result (string * string).   (** devicecontrol.Pair: server, code, credential path *)

Definition ios_configDir : result string :=
  match ResolveStateDir (sh_env h "AGENT_COMPOSE_IOS_CONFIG_DIR") (sh_configDir h) (sh_home h) "ios" with
  | Some dir => Ok dir
  | None => Err "resolve state dir"
  end.
Definition lockPath : result string := match ios_configDir with Err e => Err e | Ok dir => Ok (Join [dir; "ios.lock"]) end.
Definition AcquireLock : list lock_op * result () :=
  match lockPath with
  | Err e => ([], Err e)
  | Ok _ =>
      match lk_try (sh_lock h) 0 with
      | Err e => ([], Err e)
      | Ok false => ([OTryLock false], Err ErrAlreadyRunning)
      | Ok true => ([OTryLock true], Ok ())
      end
  end.
Definition load (explicit : string) (d : disk) : result (DevicesConfig * string) :=
  LoadDevicesConfig explicit ios_configDir (read_disk (sh_unreadable h) d) unmarshal.
Definition SaveDevicesConfig (path : string) (cfg : DevicesConfig) (d : disk) : list disk * option string :=
  AtomicWriteJSON (sh_write h) path (marshal cfg) d.
Definition flags_of (l : list (string * fval)) (args : list string) : result (gmap string fval) :=
  Parse (sh_numerals h) (list_to_map (("config", VText "") :: l)) args.

(** ** install; the result is the exit code *)
Definition install_flags : list (string * fval) :=
  [("server", VText ""); ("node-id", VText ""); ("secret", VText ""); ("name", VText ""); ("tls-insecure", VBool false)].
Definition installed_identity (f : gmap string fval) : NodeIdentity :=
  mkNodeIdentity (TrimRightChar "/" (TrimSpace (text_flag f "server"))) (TrimSpace (text_flag f "node-id"))
    (TrimSpace (text_flag f "secret")) (name_of h (TrimSpace (text_flag f "name"))) (bool_flag f "tls-insecure").
Definition cmdInstall (args : list string) (d : disk) : disk * Z :=
  match flags_of install_flags args with
  | Err _ => (d, 2%Z)
  | Ok f =>
      let blank name := String.eqb (TrimSpace (text_flag f name)) "" in
      if blank "server" || blank "node-id" || blank "secret" then (d, 2%Z)
      else match load (text_flag f "config") d with
           | Err _ => (d, 1%Z)
           | Ok (cfg, path) =>
               let '(ds, err) := SaveDevicesConfig path (cfg <| dcs_Node := Some (installed_identity f) |>) d in
               (final d ds, match err with Some _ => 1 | None => 0 end)%Z
           end
  end.

(** ** pair *)
Definition default_runner : string := "com.deviceboxhq.goios.devicekit.runner".
Definition pair_flags : list (string * fval) :=
  [("server", VText ""); ("code", VText ""); ("udid", VText ""); ("name", VText ""); ("transport", VText "usb");
   ("wda-bundle", VText ""); ("xctest", VText "devicekit-iosUITests.xctest"); ("wda-port", VInt 0); ("host-node-id", VText "")].
Definition pair_name (f : gmap string fval) : string :=
  let name := TrimSpace (text_flag f "name") in
  let udid := TrimSpace (text_flag f "udid") in
  if String.eqb name "" then (if negb (String.eqb udid "") then udid else "device") else name.
Definition paired_device (f : gmap string fval) (credPath : string) : DeviceConfig :=
  mkDeviceConfig (pair_name f) (TrimSpace (text_flag f "udid")) (TrimSpace (text_flag f "transport"))
    (or_else (TrimSpace (text_flag f "wda-bundle")) default_runner) (TrimSpace (text_flag f "xctest")) (int_flag f "wda-port") credPath.
Definition paired_config (f : gmap string fval) (path : string) (cfg : DevicesConfig) : DevicesConfig :=
  let hostNode := TrimSpace (text_flag f "host-node-id") in
  let cfg := if negb (String.eqb hostNode "") then cfg <| dcs_HostNodeID := hostNode |> else cfg in
  (Upsert cfg (paired_device f (DefaultCredentialPath path (pair_name f)))).1.
Definition cmdPair (args : list string) (d : disk) : disk * Z :=
  match flags_of pair_flags args with
  | Err _ => (d, 2%Z)
  | Ok f =>
      let server := TrimSpace (text_flag f "server") in
      let code := TrimSpace (text_flag f "code") in
      if String.eqb server "" || String.eqb code "" then (d, 2%Z)
      else match load (text_flag f "config") d with
           | Err _ => (d, 1%Z)
           | Ok (cfg, path) =>
               match redeem server code (DefaultCredentialPath path (pair_name f)) with
               | Err _ => (d, 1%Z)
               | Ok _ =>
                   let '(ds, err) := SaveDevicesConfig path (paired_config f path cfg) d in
                   (final d ds, match err with Some _ => 1 | None => 0 end)%Z
               end
           end
  end.

(** ** run *)
Definition RoleIosHost : string := "ios_host".
Definition nodeClientOptions (id : NodeIdentity) : Options :=
  mkOptions (ni_Server id) (ni_NodeID id) (ni_Secret id) (name_of h (ni_NodeName id)) RoleIosHost (sh_version h) []
    {[ "ios_mgmt" := "true" ]} false false "" "" second (30 * second) false (ni_TLSInsecure id) (15 * second).
(** the node id a phone's register frame carries *)
Definition device_extra (nodeID : string) : option string := if negb (String.eqb nodeID "") then Some nodeID else None.
Definition run_plan (path : string) (cfg : DevicesConfig) : ios_plan :=
  match dcs_Node cfg with
  | Some id => RunNode (nodeClientOptions id) (ni_NodeID id) path cfg
  | None => RunDevices (map (λ dev, (dev, device_extra (dcs_HostNodeID cfg))) (dcs_Devices cfg))
  end.
(** what was done, the host after it, and the exit code or the plan; an exit
    leaves the lock to the kernel, which drops it with the process *)
Definition cmdRun (args : list string) (s : start_sys) : list start_op * start_sys * (Z + ios_plan) :=
  match flags_of [("autostart", env_text h "AGENT_COMPOSE_NODE_AUTOSTART" "auto")] args with
  | Err _ => ([], s, inl 2%Z)
  | Ok f =>
      let '(locked, r) := AcquireLock in
      let ops := map SLock locked in
      match r with
      | Err _ => (ops, s, inl 1%Z)
      | Ok _ =>
          let '(a, _, _, err) := ResolveAutostart (sh_auto h) (sh_seam h) (text_flag f "autostart") (ss_auto s) in
          let s := s <| ss_auto := a |> in
          let ops := ops ++ [SAutostart (text_flag f "autostart")] in
          match err with
          | Some _ => (ops, s, inl 1%Z)
          | None =>
              match load (text_flag f "config") (ss_disk s) with
              | Err _ => (ops, s, inl 1%Z)
              | Ok (cfg, path) =>
                  match dcs_Devices cfg, dcs_Node cfg with
                  | [], None => (ops, s, inl 1%Z)
                  | _, _ => (ops, s, inr (run_plan path cfg))
                  end
              end
          end
      end
  end.
End ios.
