(* ===== verification/IosStartProofs.v ===== *)
(** * IosStartProofs: theorems about the commands of an iOS host

    What install and pair store, run connects ([install_then_run],
    [pair_keeps]); run changes the host only under its lock
    ([run_under_lock]). *)
From S2P Require Import Prelude GoStrings GoPath Workspace LocalState DevicesConfig ConfigFile ConfigFileProofs HostService NodeClient.
From S2P Require Import NodeStart NodeStartProofs IosStart.
From Stdlib Require Import Ascii.

Section commands.
Variable h : shost.
Variable marshal : DevicesConfig → string.
Variable unmarshal : string → result DevicesConfig.
Variable redeem : string → string → string → result (string * string).
Let load_file := IosStart.load h unmarshal.
Hypothesis can_read : sh_unreadable h = None.
(** The file of a configuration reads back as that configuration. *)
Definition readable (cfg : DevicesConfig) : Prop := unmarshal (marshal cfg) = Ok cfg.
(** O_EXCL: the temporary file of a store is a new one *)
Definition fresh_tmp (d : disk) : Prop := ∀ path, d !! tmp_name (sh_write h) path = None.

(** What a command stored is what the next one loads, from the same place. *)
Lemma save_then_load explicit d cfg cfg' path ds :
  readable cfg' → fresh_tmp d → load_file explicit d = Ok (cfg, path) → SaveDevicesConfig h marshal path cfg' d = (ds, None) →
  load_file explicit (final d ds) = Ok (cfg', path).
Proof using can_read.
  intros Hr Hf Hl Hs. unfold load_file, IosStart.load, LoadDevicesConfig in *. rw can_read in Hl *.
  destruct (resolveConfigPath _ _) as [p|]; [|done].
  assert (p = path) as ->.
  { destruct (read_disk _ _ p) as [| |raw]; [by injection Hl|done|]. destruct (unmarshal raw); [by injection Hl|done]. }
  apply atomic_write_disks in Hs as (pre & -> & _); [|apply Hf].
  unfold final. rw last_app. cbn [last default read_disk]. rw lookup_insert_eq. cbn [f_body]. by rw Hr.
Qed.
(** An installation keeps the phones and the host's association, and the next
    run on that file, if the lock is free and the login entry can be settled,
    connects as the installed node. *)
Theorem install_then_run args d d' :
  fresh_tmp d → (∀ cfg, readable cfg) → cmdInstall h marshal unmarshal args d = (d', 0%Z) →
  ∃ f cfg cfg' path, flags_of h install_flags args = Ok f ∧ load_file (text_flag f "config") d = Ok (cfg, path) ∧
    load_file (text_flag f "config") d' = Ok (cfg', path) ∧ dcs_Devices cfg' = dcs_Devices cfg ∧ dcs_HostNodeID cfg' = dcs_HostNodeID cfg ∧
    ∀ args' f' s au asked st, 
      flags_of h [("autostart", env_text h "AGENT_COMPOSE_NODE_AUTOSTART" "auto")] args' = Ok f' → text_flag f' "config" = text_flag f "config" →
      ss_disk s = d' → (AcquireLock h).2 = Ok () →
      ResolveAutostart (sh_auto h) (sh_seam h) (text_flag f' "autostart") (ss_auto s) = (au, asked, st, None) →
      (cmdRun h unmarshal args' s).2 = inr (RunNode (nodeClientOptions h (installed_identity h f)) (TrimSpace (text_flag f "node-id")) path cfg').
Proof using can_read.
  intros Hf Hr Hi. unfold cmdInstall in Hi. destruct (flags_of h install_flags args) as [f|] eqn:Ef; [|done].
  destruct (_ || _ || _); [done|]. destruct (IosStart.load h unmarshal (text_flag f "config") d) as [[cfg path]|] eqn:El; [|done].
  destruct (SaveDevicesConfig _ _ _ _ _) as [ds [e|]] eqn:Es; [done|]. injection Hi as <-.
  pose proof (save_then_load _ _ _ _ _ _ (Hr _) Hf El Es) as Hl.
  exists f, cfg, (cfg <| dcs_Node := Some (installed_identity h f) |>), path. split_and!; try done.
  intros args' f' s au asked st Hf' Hc Hd Hlk Hau. unfold cmdRun. rw Hf'. destruct (AcquireLock h) as [ls r]. cbn in Hlk. subst r.
  rw Hau Hc. cbn [ss_disk]. unfold load_file in Hl. rw -Hd in Hl.
  change (ss_disk (s <| ss_auto := au |>)) with (ss_disk s). rw Hl. cbn. by destruct (dcs_Devices cfg).
Qed.
(** Pairing keeps the identity of the node; a phone with a UDID ends up in the
    file exactly once, with what was paired, and every other phone stays. *)
Theorem pair_keeps args d d' :
  fresh_tmp d → (∀ cfg, readable cfg) → cmdPair h marshal unmarshal redeem args d = (d', 0%Z) →
  ∃ f cfg cfg' path, flags_of h pair_flags args = Ok f ∧ load_file (text_flag f "config") d = Ok (cfg, path) ∧
    load_file (text_flag f "config") d' = Ok (cfg', path) ∧ dcs_Node cfg' = dcs_Node cfg ∧
    let udid := TrimSpace (text_flag f "udid") in
    (udid ≠ "" → (length (with_udid udid (dcs_Devices cfg)) ≤ 1)%nat →
       with_udid udid (dcs_Devices cfg') = [paired_device f (DefaultCredentialPath path (pair_name f))]) ∧
    (∀ other, udid ≠ "" → other ≠ udid → with_udid other (dcs_Devices cfg') = with_udid other (dcs_Devices cfg)).
Proof using can_read.
  intros Hf Hr Hi. unfold cmdPair in Hi. destruct (flags_of h pair_flags args) as [f|] eqn:Ef; [|done].
  cbv zeta in Hi. destruct (_ || _); [done|]. destruct (IosStart.load h unmarshal (text_flag f "config") d) as [[cfg path]|] eqn:El; [|done].
  destruct (redeem _ _ _); [|done]. destruct (SaveDevicesConfig _ _ _ _ _) as [ds [e|]] eqn:Es; [done|]. injection Hi as <-.
  pose proof (save_then_load _ _ _ _ _ _ (Hr _) Hf El Es) as Hl.
  exists f, cfg, (paired_config f path cfg), path. unfold paired_config. cbv zeta.
  assert (∀ c, c = (if negb (String.eqb (TrimSpace (text_flag f "host-node-id")) "")
    then cfg <| dcs_HostNodeID := TrimSpace (text_flag f "host-node-id") |> else cfg) → dcs_Node c = dcs_Node cfg ∧ dcs_Devices c = dcs_Devices cfg) as Hc
    by (intros c ->; by destruct (negb _)).
  destruct (Hc _ eq_refl) as [Hn Hd]. unfold Upsert. cbn [fst].
  split; [done|]. split; [done|]. split; [exact Hl|]. split; [exact Hn|]. cbn [set_field dcs_Devices]. rw Hd. split.
  - intros Hu Hone. by apply (upsert_with_udid_eq (dcs_Devices cfg) (paired_device f _)).
  - intros other Hu Ho. by apply upsert_with_udid_ne.
Qed.
(** run touches the login entry only with the lock of the iOS host, and goes on only with it. *)
Theorem run_under_lock args s ops s' r : cmdRun h unmarshal args s = (ops, s', r) →
  guarded ops ∧ ss_disk s' = ss_disk s ∧ (∀ plan, r = inr plan → holding (locks ops) = 1%Z).
Proof using Type.
  unfold cmdRun. destruct (flags_of _ _ _) as [f|]; [|intros [= <- <- <-]; split_and!; [by apply guarded_no_effect|done..]].
  destruct (AcquireLock h) as [ls a] eqn:Ea. destruct a as [[]|e].
  2:{ intros [= <- <- <-]. split_and!; [apply guarded_no_effect, map_lock_no_effect|done..]. }
  assert (holding ls = 1%Z) as Hh.
  { unfold AcquireLock in Ea. destruct (lockPath h); [|done]. destruct (lk_try _ 0) as [[]|]; by injection Ea as <-. }
  destruct (ResolveAutostart _ _ _ _) as [[[au asked] st] err].
  assert (guarded (map SLock ls ++ [SAutostart (text_flag f "autostart")])) as Hg.
  { pose proof (guarded_span ls [SAutostart (text_flag f "autostart")] [] Hh) as Hg. by apply Hg; constructor. }
  assert (holding (locks (map SLock ls ++ [SAutostart (text_flag f "autostart")])) = 1%Z) as Hl by (by rw locks_app locks_map holding_app Hh).
  destruct err; [by intros [= <- <- <-]|]. destruct (IosStart.load _ _ _ _) as [[cfg path]|]; [|by intros [= <- <- <-]].
  destruct (dcs_Devices cfg), (dcs_Node cfg); by intros [= <- <- <-].
Qed.
(** A running host saves the configuration it loaded at its start: a phone
    paired since then is dropped by the next one it stores. *)
Lemma paired_while_running_is_lost explicit d cfg0 path d1 dev ds cfg1 :
  fresh_tmp d1 → (∀ cfg, readable cfg) → load_file explicit d = Ok (cfg0, path) → load_file explicit d1 = Ok (cfg1, path) →
  SaveDevicesConfig h marshal path (Upsert cfg0 dev).1 d1 = (ds, None) →
  ∃ cfg2, load_file explicit (final d1 ds) = Ok (cfg2, path) ∧
    ∀ phone, phone ∉ dcs_Devices cfg0 → phone ≠ dev → phone ∉ dcs_Devices cfg2.
Proof using can_read.
  intros Hf Hr H0 H1 Hs. eexists. split; [exact (save_then_load _ _ _ _ _ _ (Hr _) Hf H1 Hs)|]. intros phone Hp Hd Hin.
  cbn [Upsert fst dcs_Devices] in Hin. apply Hp. clear -Hin Hd. change (phone ∈ upsert_list (dcs_Devices cfg0) dev) in Hin.
  revert Hin. induction (dcs_Devices cfg0) as [|e l IH]; cbn [upsert_list].
  - by intros ?%list_elem_of_singleton.
  - destruct (upsert_matches dev e); intros [->|Hin]%elem_of_cons; [done|by right|by left|right; auto].
Qed.
End commands.
