(* ===== verification/Discovery.v ===== *)
(** * Discovery: the goroutine that watches for phones
    (common/ioshost/manager.go: run, pollLoop, reportNow)

    The goroutine as a program counter over the manager: it enumerates once
    and reports, subscribes to attach and detach events, and then reacts to
    events and to its ticker; without the stream it only polls.  Its critical
    sections interleave with those of every other goroutine ([mstep]). *)
From S2P Require Import Prelude GoStrings DevicesConfig DeviceManager DeviceManagerProofs.

(** after an enumeration: the start goes on to report, the loop goes on looping *)
Inductive cont := KStart | KLoop (listening : bool).
Inductive dpc :=
| PList (k : cont)                             (** about to enumerate: Rescan *)
| PCollect (k : cont)                          (** probeControl: collecting *)
| PProbe (targets : list string) (k : cont)    (** probeControl: the STARTs to go *)
| PReport | PSubscribe
| PReportPoll                                  (** no stream: report, then poll *)
| PLoop (listening : bool)
| PEnded.
Definition resume (k : cont) : dpc := match k with KStart => PReport | KLoop b => PLoop b end.
Record dsys := mkDsys { d_sys : msys; d_pc : dpc }.

Section discovery.
Context `{!MapRange managedDevice} (mc : ManagerConfig) (cal : calendar).
Definition on_mgr (f : DeviceManager → DeviceManager) (s : msys) : msys := s <| ms_mgr := f (ms_mgr s) |>.
Inductive dstep : dsys → dsys → Prop :=
| d_list_ok s k lookup l now :
    dstep (mkDsys s (PList k)) (mkDsys (on_mgr (λ m, applySnapshot_section mc cal m lookup l now) s) (PCollect k))
| d_list_err s k e now : dstep (mkDsys s (PList k)) (mkDsys (on_mgr (λ m, Rescan mc cal m (λ _, None) (Err e) now) s) (resume k))
| d_collect s k : dstep (mkDsys s (PCollect k)) (mkDsys s (PProbe (probe_targets (ms_mgr s)) k))
| d_probe s u targets k :
    dstep (mkDsys s (PProbe (u :: targets) k)) (mkDsys (on_mgr (λ m, (ControlRunner mc m (startRequest u)).1) s) (PProbe targets k))
| d_probed s k : dstep (mkDsys s (PProbe [] k)) (mkDsys s (resume k))
| d_report s : dstep (mkDsys s PReport) (mkDsys (on_mgr (reportLocked mc) s) PSubscribe)
| d_subscribed s : dstep (mkDsys s PSubscribe) (mkDsys s (PLoop true))
| d_no_stream s e : dstep (mkDsys s PSubscribe) (mkDsys (on_mgr (λ m, stream_unavailable m e) s) PReportPoll)
| d_report_poll s : dstep (mkDsys s PReportPoll) (mkDsys (on_mgr (reportLocked mc) s) (PLoop false))
| d_stream_error s : dstep (mkDsys s (PLoop true)) (mkDsys s (PLoop true))       (** logged *)
| d_detach s u : dstep (mkDsys s (PLoop true)) (mkDsys (on_mgr (λ m, applyEvent_detach mc m u) s) (PLoop true))
| d_attach s u : dstep (mkDsys s (PLoop true)) (mkDsys (on_mgr (λ m, applyEvent_attach m u) s) (PList (KLoop true)))
| d_closed s : dstep (mkDsys s (PLoop true)) (mkDsys s (PLoop false))            (** the stream ended: poll *)
| d_tick s b : dstep (mkDsys s (PLoop b)) (mkDsys s (PList (KLoop b)))
| d_done s b : dstep (mkDsys s (PLoop b)) (mkDsys s PEnded)                      (** ctx or stopCh *)
| d_other s s' pc : mstep mc cal s s' → dstep (mkDsys s pc) (mkDsys s' pc).      (** other goroutines *)
Definition dinit (cfg : option DevicesConfig) : dsys := mkDsys (minit cfg) (PList KStart).

(** ** Properties *)
Lemma start_is_one_section m u : (ControlRunner mc m (startRequest u)).1 = (ControlRunner_begin mc m (startRequest u)).1.
Proof.
  unfold ControlRunner. destruct (ControlRunner_begin mc m (startRequest u)) as [m' [r|handle]] eqn:E; [done|].
  unfold ControlRunner_begin in E. cbv zeta in E. destruct (findLocked _ _ _); [|done]. by destruct (String.eqb _ _).
Qed.
(** Every step of the goroutine is a critical section of the manager, or none. *)
Lemma dstep_refines d d' : dstep d d' → rtc (mstep mc cal) (d_sys d) (d_sys d').
Proof.
  intros H. destruct H; cbn [d_sys]; try reflexivity; apply rtc_once; unfold on_mgr; try by constructor.
  - rw start_is_one_section. apply st_control.
  - done.
Qed.
(** What holds of the manager under every interleaving holds while phones are watched. *)
Lemma discovery_inv cfg d : rtc dstep (dinit cfg) d → manager_inv (d_sys d).
Proof.
  intros Hr. apply (reachable_inv mc cal cfg). change (minit cfg) with (d_sys (dinit cfg)).
  induction Hr as [d|d d1 d2 Hs _ IH]; [reflexivity|]. etrans; [by apply dstep_refines|done].
Qed.
Definition present_exactly (l : list EnumeratedDevice) (m : DeviceManager) : Prop :=
  (∀ u d, dm_devices m !! u = Some d → md_present d = bool_decide (u ∈ map en_UDID l)) ∧
  (∀ u, u ∈ map en_UDID l → is_Some (dm_devices m !! u)).
(** Without interference the goroutine comes back to enumerating. *)
Lemma returns_to_list s pc : pc ≠ PEnded → ∃ s' k, rtc dstep (mkDsys s pc) (mkDsys s' (PList k)).
Proof.
  assert (∀ s b, ∃ s' k, rtc dstep (mkDsys s (PLoop b)) (mkDsys s' (PList k))) as Hloop
    by (intros s0 b; eexists _, _; apply rtc_once, d_tick).
  assert (∀ s, ∃ s' k, rtc dstep (mkDsys s PSubscribe) (mkDsys s' (PList k))) as Hsub.
  { intros s0. destruct (Hloop s0 true) as (s1 & k & H). exists s1, k. eapply rtc_l; [apply d_subscribed|done]. }
  assert (∀ s k, ∃ s' k', rtc dstep (mkDsys s (resume k)) (mkDsys s' (PList k'))) as Hres.
  { intros s0 [|b]; [|apply Hloop]. cbn.
    destruct (Hsub (on_mgr (reportLocked mc) s0)) as (s1 & k & H). exists s1, k. eapply rtc_l; [apply d_report|done]. }
  assert (∀ targets s k, ∃ s' k', rtc dstep (mkDsys s (PProbe targets k)) (mkDsys s' (PList k'))) as Hprobe.
  { induction targets as [|u targets IH]; intros s0 k.
    - destruct (Hres s0 k) as (s1 & k' & H). exists s1, k'. eapply rtc_l; [apply d_probed|done].
    - destruct (IH (on_mgr (λ m, (ControlRunner mc m (startRequest u)).1) s0) k) as (s1 & k' & H). exists s1, k'.
      eapply rtc_l; [apply d_probe|done]. }
  intros Hpc. destruct pc as [k|k|targets k| | | |b|]; [..|done].
  - exists s, k. reflexivity.
  - destruct (Hprobe (probe_targets (ms_mgr s)) s k) as (s1 & k' & H). exists s1, k'. eapply rtc_l; [apply d_collect|done].
  - apply Hprobe.
  - apply (Hres s KStart).
  - apply Hsub.
  - destruct (Hloop (on_mgr (reportLocked mc) s) false) as (s1 & k & H). exists s1, k. eapply rtc_l; [apply d_report_poll|done].
  - apply Hloop.
Qed.
(** A host never goes blind: whatever happened so far (a stream that could not
    be opened, failed or closed, any activity of other goroutines), as long as
    it was not told to stop, the goroutine can still enumerate, and the
    enumeration leaves exactly the listed phones present. *)
Theorem discovery_never_blind cfg d :
  rtc dstep (dinit cfg) d → d_pc d ≠ PEnded →
  ∃ s1 k, rtc dstep d (mkDsys s1 (PList k)) ∧
    ∀ lookup l now, let s2 := on_mgr (λ m, applySnapshot_section mc cal m lookup l now) s1 in
      dstep (mkDsys s1 (PList k)) (mkDsys s2 (PCollect k)) ∧ present_exactly l (ms_mgr s2) ∧ manager_inv s2.
Proof.
  intros Hr Hpc. destruct d as [s pc]. destruct (returns_to_list s pc Hpc) as (s1 & k & H1). exists s1, k. split; [done|].
  intros lookup l now. cbv zeta. pose proof (d_list_ok s1 k lookup l now) as H2. split; [exact H2|].
  split; [|apply (discovery_inv cfg (mkDsys _ (PCollect k))); eapply rtc_r; [by etrans|exact H2]].
  split; intros u; pose proof (snapshot_reconciles_presence mc cal (ms_mgr s1) lookup l now u) as (Hdom & Hp & _).
  - intros x Hx. by apply Hp.
  - intros Hu. apply Hdom. by right.
Qed.
(** It ends only when it is told to. *)
Lemma discovery_ends_on_stop d d' : dstep d d' → d_pc d' = PEnded → d_pc d = PEnded ∨ ∃ b, d_pc d = PLoop b.
Proof.
  intros H. destruct H as [| |? k|? ? ? k|? k| | | | | | | | | |s b|s s' pc Hm]; cbn; try done; try destruct k; cbn; try done; eauto.
Qed.
End discovery.
